(* ===== verification/_CoqProject ===== *)
-Q . S2P
Prelude.v
Ipv4.v
Wire.v
Proto.v
ProtoFacts.v
Session.v
Network.v
Kernel.v
NetworkFacts.v
Faulty.v
Recovery.v
Journal.v
JournalFacts.v
Service.v
ServiceFacts.v
Findings.v
Linux.v
LinuxFacts.v
LinuxTables.v
Client.v
ClientFacts.v
InfraProto.v
Infra.v
ProcessFacts.v
InfraContract.v
InfraFacts.v
InfraHandlers.v
InfraHistory.v
InfraMachine.v
InfraScenarios.v
InfraFrames.v
Domains.v
DomainSteps.v
DomainLedger.v
DomainBindings.v
DomainFacts.v
DomainLive.v
DomainScope.v
DomainScenarios.v
PacketPort.v
PacketPortFacts.v
PortManager.v
PortManagerFacts.v
PortManagerInv.v
PortManagerOwners.v
PortManagerSpec.v
PortScenarios.v
ProcessControl.v
Tunio.v
TunioOps.v
TunioRuns.v
TunioQueue.v
TunioExec.v
TunioMicro.v
TunioRequests.v
TunioFacts.v
TunioRecovery.v
TunioVouched.v
TunioAgreement.v
TunioWarrant.v
TunioScenarios.v
Candidate.v
CandidateFacts.v
CandidateRuns.v
CandidateConclusions.v
CandidateScenarios.v
Grant.v
GrantStore.v
GrantFacts.v
GrantRuns.v
GrantScenarios.v
Upgrade.v
UpgradeOps.v
UpgradeRuns.v
UpgradeCatalog.v
UpgradeJournal.v
UpgradeScenarios.v
