(* ===== verification/Prelude.v ===== *)
(** * candy-runtime: the network daemon, the TUN process and its agent, verified

    [candy-netd] is the one privileged process of the runtime. Unprivileged agents ask it,
    over a local socket, to bring an overlay network up, to change it and to take it down;
    it owns the TUN device, the routes, the policy rules, the firewall and the sysctls, and
    it must leave none of them behind when an agent, or netd itself, dies. Two services do
    this side by side:

    - version 1 (src/linux/common/apps/candy-netd/src/lib.rs, network.rs, journal.rs): one
      session at a time. [NetdService] authorises the peer, fences the session, and drives
      [NetworkTransaction], a journaled sequence of kernel changes that is rolled back or
      recovered step by step;
    - version 2 (v2.rs, v2/clock.rs): one TUN device that outlives its users, and
      forwarding under owners that carry fencing tokens and expire. [InfrastructureService]
      keeps its whole state in one durable file and reconciles the kernel with it before
      every request.

    Both sit on the Linux backend (linux.rs) and speak the frames of candy-netd-proto; the
    client library (candy-netd-client) is the agent's side. A router (v2/domains.rs) runs
    one service of version 2 per routing domain, in a thread of its own.

    [candy-tunio] is the process that holds the TUN device that netd hands out. Its packet
    port manager (candy-packet-port) passes packets between the device and one worker at a
    time, each under an authority that expires; a controller, over three local endpoints,
    stages authorities, prepares and commits the hand-over from worker to worker, and
    recovers when an answer was lost.

    The controller is the SD-WAN agent (candy-sdwan-agent). For every worker it replaces it
    keeps a durable record of the candidate ([CandidateOwner], candidate_ownership.rs): what
    it asked for, what it learnt from the replies, and whether it ever asked to commit. The
    authorities behind all this rest on access grants, which candy-cloud-sync (grant.rs)
    requests from Cloud, has verified by Core, stores and renews. The same process upgrades
    the programs of the node when Cloud says so (upgrade.rs), from a signed catalog and
    under a journal.

    ** The files

    - [Prelude]: Rust's [Result], the state monad with errors that every stateful method is
      written in, its weakest preconditions, machine integers, lists.
    - [Ipv4], [Wire], [Proto], [ProtoFacts]: candy-netd-proto/src/lib.rs; prefixes as
      intervals, varints and the frame reader, requests, responses, validation.
    - [Session]: [NetdSession::apply] of the same file, and its abstract lifecycle.
    - [Network]: network.rs; one definition per method of [NetworkTransaction], over the
      interfaces [NetworkBackend] and [NetworkJournal] and one world that stands for the
      machine. [Kernel] states the contract of that machine; [NetworkFacts] proves each
      operation against the contract; [Faulty] is a machine that meets it, with a script of
      faults and crashes; [Recovery] is about histories.
    - [Journal], [JournalFacts]: journal.rs; the binary record and its decoder.
    - [Service], [ServiceFacts]: lib.rs; the request service.
    - [Findings]: histories of version 1 that end where the code says they cannot.
    - [Linux], [LinuxFacts], [LinuxTables]: linux.rs; the plan compiler, routes and policy
      rules over a netlink interface with documented behaviour, and a kernel that has it.
    - [Client], [ClientFacts]: candy-netd-client/src/lib.rs, run against the service.
    - [InfraProto], [InfraFrames]: candy-netd-proto/src/v2.rs and v2/clock.rs.
    - [Infra], [ProcessFacts]: v2.rs; [InfrastructureService], the checks of its journal, and
      the reading of the process table.
    - [InfraContract]: what the machine promises to it; [InfraFacts]: the invariant and the
      recovery; [InfraHandlers]: every operation; [InfraHistory]: histories;
      [InfraMachine], [InfraScenarios]: a machine that meets the contract, and lives on it.
    - [Domains]: v2/domains.rs; configuration, budgets, the bindings of I/O processes, the
      front and the workers. [DomainSteps]: its threads, interleaved at their critical
      sections; [DomainLedger], [DomainBindings], [DomainFacts], [DomainLive],
      [DomainScope]: the invariants and theorems; [DomainScenarios]: runs.
    - [PacketPort], [PacketPortFacts]: packet_port_ipc.rs and the account of completions of
      packet_port.rs in candy-packet-port: frames, checkpoints, drains.
    - [PortManager]: packet_port_manager.rs and the output queues of packet_port.rs; the
      bridge actor, whose state [Bridge] is the set of local variables of
      run_packet_port_bridge_inner, with one function per owner change and per arm of its
      select. [PortManagerFacts], [PortManagerInv], [PortManagerOwners], [PortManagerSpec]:
      queues, invariant, what becomes of owners and of pending writes, theorems;
      [PortScenarios]: runs.
    - [ProcessControl]: candy-process-control; process identities.
    - [Tunio]: the state of candy-tunio, its queue to the manager and what a receipt does to
      the controller's record; [TunioOps]: every request of authority_control.rs,
      attach_control.rs and control.rs, and the guard of the boot clock; [TunioRuns]: main.rs
      and the runs. [TunioQueue], [TunioExec], [TunioMicro], [TunioRequests]: every request
      as a run of small steps; [TunioFacts], [TunioRecovery], [TunioWarrant]: theorems;
      [TunioVouched], [TunioAgreement]: what its replies are worth; [TunioScenarios]: runs.
    - [Candidate]: candidate_ownership.rs; the proofs of an installation, the conclusions from
      replies, the requests and the record. [CandidateFacts]: the proofs; [CandidateRuns]:
      the agent over its history, linked to the TUN process by the class [AgentLink];
      [CandidateConclusions]: what the agent concludes, against what the TUN process did;
      [CandidateScenarios]: a link that loses requests and replies.
    - [Grant]: grant.rs; subjects, reports, grants and their validation. [GrantStore]: the
      answer of Cloud, the files, the renewal. [GrantFacts]: what validation accepts;
      [GrantRuns]: laws of the files, and histories of renewals; [GrantScenarios]: runs.
    - [Upgrade]: the data and pure functions of upgrade.rs; [UpgradeOps]: everything else of
      it, down to [run]. [UpgradeRuns]: laws of the machine, atomic writes, histories;
      [UpgradeCatalog], [UpgradeJournal]: theorems; [UpgradeScenarios]: runs.

    State corresponds field by field: a Rust struct is a [Record], an enum an [Inductive]
    with the source's constructors, a method [fn f(&mut self, ..) -> Result<A, E>] a function
    of type [M S E A] that keeps its writes when it fails. Integers are [Z], with the checks
    and the wrap-around of the source written out; byte strings are [list Z]. Where several
    parts of one long Rust function are separate definitions, they are composed in the order
    of the code.

    ** What the theorems show

    - Codecs: requests and responses of version 1 and the frames their decoders accept are
      in bijection; the journal record reads back; validation accepts exactly the documented
      declarations; the decoder of the journal never slices out of bounds; the frames of the
      two versions are never taken for each other.
    - Version 1, session: [apply] is exactly an abstract lifecycle behind an owner fence;
      reachable sessions are well-formed; retries are idempotent; strangers cannot take a
      running session over; the service adopts a session exactly when it says so, and every
      reply can be sent.
    - Version 1, network: in every reachable state, each kernel object is covered by the
      durable record; preparation is all or nothing; commit steers exactly when it
      succeeds; after any history, a healthy restart with a dead owner leaves nothing.
    - Linux backend: plans are within bounds; reconciliation leaves exactly the routes of
      the plan; rules are replaced without a gap; cleanup removes what preflight tolerates.
    - Client: its phase stays in step with the session, whatever fails.
    - Version 2: in every reachable state the state covers what the kernel steers, and the
      journal holds it unless a store failed after its rename; after every answer and every sweep only a live, unrevoked owner steers;
      tokens, epochs and owners only advance; no request panics; the journal reloads.
    - Router: a service of a domain never touches another domain; the budgets hold and are
      exactly what is outstanding; a domain has one operation in flight; the binding of an
      I/O process outlives timeouts until it is undone; without new arrivals everything ends.
    - Packet ports: a port receives exactly the frames of its binding; however completions
      interleave they end; a drain is never acknowledged too early, and when all is quiet it
      answers what an unbounded log would, unless a load was late.
    - Port manager: every packet passes an open fence and a passed check within one step, and
      its write was begun before the deadline; epochs of outbound packets never go down; the actor refines
      a machine of hand-overs; outcomes of transactions are final; an acknowledged drain
      is complete.
    - TUN process: the controller changes only when it is gone, and only the current one is
      served; every packet crosses under a verified or the original authority; marks only
      grow; a cancelled revision and an isolated epoch never come back; what a reply says of
      a transaction is what the manager said of it, and stays so.
    - Candidates: a proof is accepted exactly when every expected peer confirmed; a commit is
      written ahead; what the agent concludes of a transaction is so in the TUN process, and
      two conclusions never contradict each other; a recorded isolation is for good.
    - Grants: a grant that a renewal returns is valid and verified for exactly its subject;
      requests are numbered in order and never forgotten before their answer is stored; a
      denial is final; failures are retried unless Cloud definitively refused.
    - Upgrades: an installation that was started stays in the journal, and none is repeated,
      until its outcome was accepted; a reported success was one; the catalog never goes back.
    - The error theorems ([Findings], [JournalFacts], [LinuxTables], [ClientFacts],
      [InfraScenarios]) exhibit histories, run by computation, in which the code does not do
      what its comments say: leaked policy rules, stranded sessions, unreadable journals. [PortScenarios.delivered_but_never_drained] is
      a run in which two late loads make a drain wait for ever on packets that were delivered.

    ** Assumptions

    The kernel, the file system and the process table are interfaces; what is used of them
    is stated in [Kernel], [LinuxFacts] ([NetlinkLaws]) and [InfraContract], and each of the
    contracts is met by a concrete machine. A failing call may have had any part of its
    effect, so a crash is a world in which every later call fails. A journal write renames a
    file and then synchronises the directory, so it may report an error after it has replaced
    the file. The contract of version 1 ([Kernel]) allows both outcomes of a failed write. In
    version 2 the store is modelled call by call ([write_journal]), and [unsynced] marks the
    machine after such an error until the next store succeeds: the theorems hold in these
    states too, except that the file holds the state and that a restart is safe, which they
    claim for synced states only; [late_store_strands_routes] shows what a restart can do
    otherwise. A route into the TUN device disappears with the device. SHA-256 and the JSON documents of version 2
    are parameters; only that a document reads back is assumed.

    The router's threads interleave at the sections that hold a lock or a channel; the
    process table ([ProcessTable]) and the sizes of memory are parameters. Of the host of
    the packet ports ([PacketHost], [TunioHost]: clocks, sockets, checks, /proc, the status
    file) nothing is assumed at all: a clock may even run backwards, and a timer may end late
    or never. The loads of the account of completions may return older values than the last
    ones stored, as their Acquire order allows. What the manager does
    while a request waits for it, and whether the request gives up, is an argument of the
    request ([patience]).

    [AgentLink] says of the agent's socket that an exchange which succeeds is one request
    served by the TUN process, and that one which fails may or may not have been served;
    a failed write of the record may have happened or not. [GrantFsLaws] says that an operation
    on a file touches that file only, that a failed rename changes nothing, and that a state
    document reads back; SHA-256 is assumed to give 32 bytes, and a fetch ([hooks_ok]) to be
    one request. [UpgradeLaws] says the same of the files of an upgrade, and that the programs
    it starts leave its journal and its record of
    the catalog alone; runs come one after the other, since they hold a lock. That the record
    can be read when it is there ([sequence_readable]) is needed for the catalog only, and that
    the journal is seen when it is there ([journal_visible]) for [nothing_forgotten] only: the
    code takes a failed look for an absent file.

    ** Recursion and bounds

    Recursion is structural, four loops apart: [encode_varint_loop] runs on ten rounds, and
    [encode_varint_fuel] shows that more change nothing for a 64-bit integer;
    [decimal] has room for forty digits, and [decimal_roundtrip] shows that they are enough;
    [utf8] runs on the length of its input, since every step takes a byte;
    [chunks_exact] runs on the length of its input, which suffices for every non-empty
    chunk. All methods are total functions, so each statement about an outcome is a
    statement of total correctness.

    ** Not modelled

    - The nftables programs of nft.rs, and the links, sysctls and forwarding entries of
      linux.rs: the theorems on the transaction and on version 2 rest on the contracts
      instead; a refinement of these contracts by [Linux] is the natural continuation.
    - The router's configuration file and the joining of its threads at shutdown.
    - Of the packet ports the counters, status samples and diagnostics, and the bridge that
      has no manager; of candy-tunio the sockets and JSON around the requests, the content
      of the status files, and the arguments. The deadline of a request that the router or
      the TUN process serves is a choice of the environment.
    - File operations of the journals beyond their contents, their renames and their syncs:
      permissions, temporary names.
    - Processes, signals and sockets of main.rs; the byte-wise reads and deadlines of the
      client's stream: input and output around what is modelled.
    - Of candidate_ownership.rs the reading of a worker's status file and the comparison of
      peer tables with the agent's own documents (require_peer_reconciliation): both compare
      JSON values of other modules. Of grant.rs the HTTP client.
    - The rest of the agent and of candy-cloud-sync: drivers that start processes, poll
      sockets, and pass JSON documents between Cloud, Core and the files; the packet engine,
      telemetry and the installers: programs of their own, which reach the kernel through
      netd and the TUN process only. Of upgrade.rs only log lines are left out. *)
From stdpp Require Import base tactics list numbers option sorting.
From Stdlib Require Import ZArith Lia.
From Stdlib Require Strings.String Strings.Byte.

(** ** Rust's [Result] *)

Inductive Result (E A : Type) : Type :=
| Ok (a : A)
| Err (e : E).
Arguments Ok {E A} a.
Arguments Err {E A} e.

Definition result_bind {E A B} (m : Result E A) (f : A -> Result E B) : Result E B :=
  match m with
  | Ok a => f a
  | Err e => Err e
  end.

Lemma result_bind_Ok {E A B} (m : Result E A) (f : A -> Result E B) b :
  result_bind m f = Ok b -> exists a, m = Ok a /\ f a = Ok b.
Proof. destruct m as [a|e]; simpl; [by exists a|intros [=]]. Qed.

(** [result.map_err(f)]. *)
Definition map_err {E F A} (f : E -> F) (m : Result E A) : Result F A :=
  match m with
  | Ok a => Ok a
  | Err e => Err (f e)
  end.

(** [option.ok_or(e)]. *)
Definition ok_or {E A} (o : option A) (e : E) : Result E A :=
  match o with
  | Some a => Ok a
  | None => Err e
  end.

Definition is_ok {E A} (m : Result E A) : bool :=
  match m with Ok _ => true | Err _ => false end.

Definition is_err {E A} (m : Result E A) : bool := negb (is_ok m).

#[export] Instance Result_eq_dec `{EqDecision E, EqDecision A} : EqDecision (Result E A).
Proof. solve_decision. Defined.

(** ** State passing with errors

    A Rust method [fn f(&mut self, ..) -> Result<A, E>] keeps every write it made
    before it returned an error: the state is threaded through both outcomes. *)

Definition M (S E A : Type) : Type := S -> Result E A * S.

Definition mret {S E A} (a : A) : M S E A := fun s => (Ok a, s).
Definition mfail {S E A} (e : E) : M S E A := fun s => (Err e, s).
Definition mbind {S E A B} (m : M S E A) (f : A -> M S E B) : M S E B :=
  fun s => match m s with
           | (Ok a, s') => f a s'
           | (Err e, s') => (Err e, s')
           end.

(** A pure [Result] used with [?] in a stateful method. *)
Definition lift {S E A} (r : Result E A) : M S E A := fun s => (r, s).

(** Run a method and look at its outcome without propagating it
    ([let result = ..; if result.is_err() { .. }]). *)
Definition attempt {S E F A} (m : M S E A) : M S F (Result E A) :=
  fun s => let '(r, s') := m s in (Ok r, s').

(** [let _ = method();] *)
Definition ignore {S E F A} (m : M S E A) : M S F unit :=
  fun s => let '(_, s') := m s in (Ok tt, s').

Definition gets {S E A} (f : S -> A) : M S E A := fun s => (Ok (f s), s).
Definition modify {S E} (f : S -> S) : M S E unit := fun s => (Ok tt, f s).

Declare Scope rust_scope.
Delimit Scope rust_scope with rust.

Notation "'let?' x := c 'in' k" := (result_bind c (fun x => k))
  (at level 10, x pattern, c at level 100, k at level 200) : rust_scope.
Notation "'check?' c 'in' k" := (result_bind c (fun _ => k))
  (at level 10, c at level 100, k at level 200) : rust_scope.
Notation "'let*' x := c 'in' k" := (mbind c (fun x => k))
  (at level 10, x pattern, c at level 100, k at level 200) : rust_scope.
Notation "'do*' c 'in' k" := (mbind c (fun _ => k))
  (at level 10, c at level 100, k at level 200) : rust_scope.

#[global] Open Scope rust_scope.
#[global] Open Scope Z_scope.

(** ** Weakest preconditions of stateful methods

    [wp m Q s]: running [m] from [s] ends, with an [Ok] or an [Err], in an outcome
    and a state that satisfy [Q]. Methods are total functions, so this is total
    correctness. *)

Definition wp {S E A} (m : M S E A) (Q : Result E A -> S -> Prop) (s : S) : Prop :=
  Q (m s).1 (m s).2.

Lemma wp_run {S E A} (m : M S E A) Q s r s' :
  wp m Q s -> m s = (r, s') -> Q r s'.
Proof. unfold wp. intros H E1. by rewrite E1 in H. Qed.

Lemma wp_intro {S E A} (m : M S E A) (Q : Result E A -> S -> Prop) s :
  (forall r s', m s = (r, s') -> Q r s') -> wp m Q s.
Proof. unfold wp. intros H. apply H. apply surjective_pairing. Qed.

Lemma wp_mono {S E A} (m : M S E A) (Q Q' : Result E A -> S -> Prop) s :
  wp m Q s -> (forall r s', Q r s' -> Q' r s') -> wp m Q' s.
Proof. unfold wp. auto. Qed.

Lemma wp_mret {S E A} (a : A) (Q : Result E A -> S -> Prop) s :
  Q (Ok a) s -> wp (mret a) Q s.
Proof. done. Qed.

Lemma wp_mfail {S E A} (e : E) (Q : Result E A -> S -> Prop) s :
  Q (Err e) s -> wp (mfail e) Q s.
Proof. done. Qed.

Lemma wp_lift {S E A} (r : Result E A) (Q : Result E A -> S -> Prop) s :
  Q r s -> wp (lift r) Q s.
Proof. done. Qed.

Lemma wp_gets {S E A} (f : S -> A) (Q : Result E A -> S -> Prop) s :
  Q (Ok (f s)) s -> wp (gets f) Q s.
Proof. done. Qed.

Lemma wp_modify {S E} (f : S -> S) (Q : Result E unit -> S -> Prop) s :
  Q (Ok tt) (f s) -> wp (modify f) Q s.
Proof. done. Qed.

Lemma wp_mbind {S E A B} (m : M S E A) (f : A -> M S E B) Q s :
  wp m (fun r s' => match r with
                    | Ok a => wp (f a) Q s'
                    | Err e => Q (Err e) s'
                    end) s ->
  wp (mbind m f) Q s.
Proof. unfold wp, mbind. destruct (m s) as [[a|e] s']; simpl; done. Qed.

Lemma wp_attempt {S E F A} (m : M S E A) (Q : Result F (Result E A) -> S -> Prop) s :
  wp m (fun r s' => Q (Ok r) s') s -> wp (attempt m) Q s.
Proof. unfold wp, attempt. by destruct (m s). Qed.

Lemma wp_ignore {S E F A} (m : M S E A) (Q : Result F unit -> S -> Prop) s :
  wp m (fun _ s' => Q (Ok tt) s') s -> wp (ignore m) Q s.
Proof. unfold wp, ignore. by destruct (m s). Qed.

(** ** Machine integers

    A [uN] value is a [Z] in [0, 2^N). *)

Definition is_u (w x : Z) : Prop := 0 <= x < 2 ^ w.
Definition u32_MAX : Z := 4294967295.
Definition u64_MAX : Z := 18446744073709551615.

#[export] Instance is_u_dec w x : Decision (is_u w x).
Proof. unfold is_u. apply _. Defined.

(** [u8::try_from], [u16::try_from], [u32::try_from] on a wider unsigned value. *)
Definition try_from_u (w v : Z) : option Z := if v <? 2 ^ w then Some v else None.

(** [a.saturating_add(b)] on [u64]. *)
Definition u64_saturating_add (a b : Z) : Z := Z.min (a + b) u64_MAX.

Lemma is_u_mono w w' x : 0 <= w <= w' -> is_u w x -> is_u w' x.
Proof. intros Hw [H0 H1]. split; [done|]. pose proof (Z.pow_le_mono_r 2 w w'). lia. Qed.

Lemma try_from_u_Some w v x : try_from_u w v = Some x <-> v < 2 ^ w /\ x = v.
Proof. unfold try_from_u. destruct (Z.ltb_spec v (2 ^ w)); split; [intros [= ->]|intros [? ->]|done|lia]; auto. Qed.

Lemma try_from_u_ok w v : is_u w v -> try_from_u w v = Some v.
Proof. intros [_ H]. by apply try_from_u_Some. Qed.

(** ** Byte arrays *)

Definition is_byte (b : Z) : Prop := is_u 8 b.

(** The bytes of a literal. *)
Definition bytes_of (text : String.string) : list Z :=
  map (fun b => Z.of_N (Byte.to_N b)) (String.list_byte_of_string text).
(** A value of type [[u8; n]]. *)
Definition is_array (n : nat) (l : list Z) : Prop := length l = n /\ Forall is_byte l.

(** [x.to_be_bytes()] of an [n]-byte integer, and [from_be_bytes]. *)
Fixpoint to_be_bytes (n : nat) (x : Z) : list Z :=
  match n with
  | O => []
  | S m => (x / 256 ^ Z.of_nat m) mod 256 :: to_be_bytes m x
  end.

Fixpoint from_be_bytes (l : list Z) : Z :=
  match l with
  | [] => 0
  | b :: r => b * 256 ^ Z.of_nat (length r) + from_be_bytes r
  end.

(** Lexicographic order of arrays and slices of bytes ([Ord for [u8; N]]). *)
Fixpoint bytes_cmp (a b : list Z) : comparison :=
  match a, b with
  | [], [] => Eq
  | [], _ :: _ => Lt
  | _ :: _, [] => Gt
  | x :: a', y :: b' => match x ?= y with Eq => bytes_cmp a' b' | c => c end
  end.

Lemma length_to_be_bytes n x : length (to_be_bytes n x) = n.
Proof. induction n; simpl; auto. Qed.

Lemma to_be_bytes_array n x : is_array n (to_be_bytes n x).
Proof.
  split; [apply length_to_be_bytes|]. induction n; simpl; constructor; [|done].
  unfold is_byte, is_u. change (2 ^ 8) with 256. apply Z.mod_pos_bound. lia.
Qed.

Lemma from_be_bytes_bound l :
  Forall is_byte l -> 0 <= from_be_bytes l < 256 ^ Z.of_nat (length l).
Proof.
  induction 1 as [|b l [Hb0 Hb1] _ IH]; simpl; [lia|].
  rewrite Nat2Z.inj_succ, Z.pow_succ_r by lia. change (2 ^ 8) with 256 in Hb1. nia.
Qed.

Lemma from_to_be_bytes n x :
  0 <= x -> from_be_bytes (to_be_bytes n x) = x mod 256 ^ Z.of_nat n.
Proof.
  intros Hx. induction n as [|n IH]; [by rewrite Z.mod_1_r|].
  cbn [to_be_bytes from_be_bytes]. rewrite length_to_be_bytes, IH.
  rewrite Nat2Z.inj_succ, Z.pow_succ_r, (Z.mul_comm 256) by lia.
  rewrite (Z.rem_mul_r x) by lia. lia.
Qed.

Lemma from_to_be_bytes_id n x :
  0 <= x < 256 ^ Z.of_nat n -> from_be_bytes (to_be_bytes n x) = x.
Proof. intros H. rewrite from_to_be_bytes by lia. by apply Z.mod_small. Qed.

Lemma to_be_bytes_mod n x k :
  to_be_bytes n (k * 256 ^ Z.of_nat n + x) = to_be_bytes n x.
Proof.
  revert k. induction n as [|n IH]; intros k; [done|].
  change (Z.of_nat (S n)) with (Z.of_nat (S n)).
  cbn [to_be_bytes]. rewrite Nat2Z.inj_succ, Z.pow_succ_r by lia.
  replace (k * (256 * 256 ^ Z.of_nat n) + x) with ((k * 256) * 256 ^ Z.of_nat n + x) by lia.
  rewrite IH. f_equal.
  rewrite Z.div_add_l by lia. rewrite Z.add_comm, Z.mod_add by lia. done.
Qed.

Lemma to_from_be_bytes l :
  Forall is_byte l -> to_be_bytes (length l) (from_be_bytes l) = l.
Proof.
  induction 1 as [|b l [Hb0 Hb1] Hl IH]; [done|].
  cbn [length to_be_bytes from_be_bytes]. rewrite to_be_bytes_mod, IH. f_equal.
  pose proof (from_be_bytes_bound l Hl). change (2 ^ 8) with 256 in Hb1.
  rewrite Z.div_add_l, (Z.div_small (from_be_bytes l)) by lia.
  rewrite Z.add_0_r. apply Z.mod_small. lia.
Qed.

Lemma bytes_cmp_from_be a b :
  length a = length b -> Forall is_byte a -> Forall is_byte b ->
  bytes_cmp a b = (from_be_bytes a ?= from_be_bytes b).
Proof.
  revert b. induction a as [|x a IH]; intros [|y b] Hl Ha Hb; try done.
  apply Forall_cons in Ha as [Hx Ha], Hb as [Hy Hb]. injection Hl as Hl. cbn.
  pose proof (from_be_bytes_bound a Ha) as Ba. pose proof (from_be_bytes_bound b Hb) as Bb.
  rewrite Hl in *. destruct (Z.compare_spec x y) as [->|H|H].
  - rewrite IH by done. by rewrite Z.add_compare_mono_l.
  - symmetry. apply Z.compare_lt_iff. nia.
  - symmetry. apply Z.compare_gt_iff. nia.
Qed.

Lemma bytes_cmp_refl a : bytes_cmp a a = Eq.
Proof. induction a; simpl; [done|]. by rewrite Z.compare_refl. Qed.

Lemma bytes_cmp_eq a b : bytes_cmp a b = Eq -> a = b.
Proof.
  revert b. induction a as [|x a IH]; intros [|y b]; simpl; try done.
  destruct (Z.compare_spec x y) as [->|?|?]; [|done..]. intros ?. f_equal. auto.
Qed.

Lemma bytes_cmp_antisym a b : bytes_cmp b a = CompOpp (bytes_cmp a b).
Proof.
  revert b. induction a as [|x a IH]; intros [|y b]; simpl; try done.
  rewrite (Z.compare_antisym x y). destruct (x ?= y); simpl; auto.
Qed.

Lemma bytes_cmp_trans c0 a b c :
  bytes_cmp a b = c0 -> bytes_cmp b c = c0 -> bytes_cmp a c = c0.
Proof.
  revert b c. induction a as [|x a IH]; intros [|y b] [|z c]; simpl; try congruence.
  destruct (Z.compare_spec x y) as [->|?|?], (Z.compare_spec y z) as [->|?|?];
    rewrite ?Z.compare_refl; intros; subst; try congruence; eauto;
    match goal with
    | |- context [x ?= ?w] => destruct (Z.compare_spec x w); (done || lia)
    | |- context [?w ?= z] => destruct (Z.compare_spec w z); (done || lia)
    end.
Qed.

(** ** Tactics *)

(** Case analysis on a small wire tag: a [Z] matched against literals. *)
Ltac enum_cases v :=
  destruct v as [|v|v]; try done; repeat (destruct v as [v|v|]; try done).
