(* ===== verification/Ipv4.v ===== *)
(** * IPv4 prefixes

    [Ipv4Prefix] of [candy-netd-proto/src/lib.rs]: the canonical-form constructor,
    containment, overlap, the derived order, and the interval sweep
    [has_prefix_overlap] that decides whether a list of prefixes is pairwise
    disjoint. Prefixes are read as intervals of 32-bit addresses. *)
From stdpp Require Import base tactics list numbers option sorting.
From Stdlib Require Import ZArith Lia Sorted Permutation.
From S2P Require Import Prelude.

(** [NetdProtocolError]. *)
Inductive NetdProtocolError : Type :=
| FrameSize
| UnsupportedVersion
| UnknownEnum
| Malformed
| TrailingBytes
| InvalidRequest
| InvalidOwner
| InvalidDeclaration.

#[export] Instance NetdProtocolError_eq_dec : EqDecision NetdProtocolError.
Proof. solve_decision. Defined.

Record Ipv4Prefix : Type := mkIpv4Prefix {
  network : list Z;
  prefix_len : Z;
}.

#[export] Instance Ipv4Prefix_eq_dec : EqDecision Ipv4Prefix.
Proof. solve_decision. Defined.

(** The ranges the Rust field types impose. *)
Definition prefix_typed (p : Ipv4Prefix) : Prop :=
  is_array 4 (network p) /\ is_u 8 (prefix_len p).

(** [u8] subtraction and [u32] left shift as compiled without overflow checks: the
    difference wraps and the shift amount is taken modulo the width. *)
Definition u8_sub (a b : Z) : Z := (a - b) mod 2 ^ 8.
Definition u32_shl (x k : Z) : Z := (Z.shiftl x (k mod 32)) mod 2 ^ 32.
Definition u32_not (x : Z) : Z := Z.lxor x u32_MAX.

Definition prefix_mask (prefix_len : Z) : Z :=
  if prefix_len =? 0 then 0
  else if prefix_len =? 32 then u32_MAX
  else u32_shl u32_MAX (u8_sub 32 prefix_len).

Definition Ipv4Prefix_new (network : list Z) (prefix_len : Z)
  : Result NetdProtocolError Ipv4Prefix :=
  if 32 <? prefix_len then Err InvalidDeclaration
  else
    let value := from_be_bytes network in
    let mask := prefix_mask prefix_len in
    if negb (Z.land value (u32_not mask) =? 0) then Err InvalidDeclaration
    else Ok (mkIpv4Prefix network prefix_len).

Definition contains (self : Ipv4Prefix) (address : list Z) : bool :=
  let mask := prefix_mask (prefix_len self) in
  Z.land (from_be_bytes address) mask =? from_be_bytes (network self).

Definition overlaps (self other : Ipv4Prefix) : bool :=
  contains self (network other) || contains other (network self).

(** [Ord for Ipv4Prefix]: the order of the pair [(network, prefix_len)]. *)
Definition prefix_cmp (a b : Ipv4Prefix) : comparison :=
  match bytes_cmp (network a) (network b) with
  | Eq => prefix_len a ?= prefix_len b
  | c => c
  end.

Definition prefix_lt (a b : Ipv4Prefix) : Prop := prefix_cmp a b = Lt.
Definition prefix_le (a b : Ipv4Prefix) : Prop := prefix_cmp a b <> Gt.
#[export] Instance prefix_lt_dec : RelDecision prefix_lt.
Proof. intros a b. unfold prefix_lt. apply _. Defined.
#[export] Instance prefix_le_dec : RelDecision prefix_le.
Proof. intros a b. unfold prefix_le. apply _. Defined.

(** [has_prefix_overlap]: intervals sorted as [(u32, u32)] pairs, then one sweep. *)
Definition prefix_range (prefix : Ipv4Prefix) : Z * Z :=
  let start := from_be_bytes (network prefix) in
  let end_ := Z.lor start (u32_not (prefix_mask (prefix_len prefix))) in
  (start, end_).

Definition range_le (a b : Z * Z) : Prop := a.1 < b.1 \/ (a.1 = b.1 /\ a.2 <= b.2).
#[export] Instance range_le_dec : RelDecision range_le.
Proof. intros a b. unfold range_le. apply _. Defined.

Fixpoint sweep_ranges (furthest_end : option Z) (ranges : list (Z * Z)) : bool :=
  match ranges with
  | [] => false
  | (start, end_) :: rest =>
      if (match furthest_end with
          | Some previous_end => start <=? previous_end
          | None => false
          end)
      then true
      else sweep_ranges (Some end_) rest
  end.

Definition has_prefix_overlap (prefixes : list Ipv4Prefix) : bool :=
  sweep_ranges None (merge_sort range_le (map prefix_range prefixes)).

(** ** Masks *)

(** [prefix_ok p]: a value the constructor can return. *)
Definition prefix_ok (p : Ipv4Prefix) : Prop :=
  is_array 4 (network p) /\ 0 <= prefix_len p <= 32 /\
  from_be_bytes (network p) mod 2 ^ (32 - prefix_len p) = 0.

Definition first_address (p : Ipv4Prefix) : Z := from_be_bytes (network p).
Definition last_address (p : Ipv4Prefix) : Z :=
  from_be_bytes (network p) + 2 ^ (32 - prefix_len p) - 1.

Lemma address_bound a : is_array 4 a -> 0 <= from_be_bytes a < 2 ^ 32.
Proof. intros [Hl Ha]. pose proof (from_be_bytes_bound a Ha) as H. by rewrite Hl in H. Qed.

Lemma small_cases (P : Z -> Prop) n :
  Forall P (seqZ 0 n) -> forall p, 0 <= p < n -> P p.
Proof. intros H p Hp. rewrite Forall_forall in H. apply H, elem_of_seqZ. lia. Qed.

Lemma prefix_mask_alt p :
  0 <= p <= 32 -> prefix_mask p = Z.shiftl (Z.ones p) (32 - p).
Proof.
  intros Hp. apply (small_cases (fun p => prefix_mask p = Z.shiftl (Z.ones p) (32 - p)) 33);
    [|lia]. by repeat (constructor; [vm_compute; reflexivity|]).
Qed.

Lemma not_prefix_mask p : 0 <= p <= 32 -> u32_not (prefix_mask p) = Z.ones (32 - p).
Proof.
  intros Hp. apply (small_cases (fun p => u32_not (prefix_mask p) = Z.ones (32 - p)) 33);
    [|lia]. by repeat (constructor; [vm_compute; reflexivity|]).
Qed.

Lemma land_prefix_mask p x :
  0 <= p <= 32 -> 0 <= x < 2 ^ 32 ->
  Z.land x (prefix_mask p) = x - x mod 2 ^ (32 - p).
Proof.
  intros Hp Hx. rewrite prefix_mask_alt by lia.
  replace (x - x mod 2 ^ (32 - p)) with (Z.shiftl (Z.shiftr x (32 - p)) (32 - p)).
  2:{ rewrite Z.shiftl_mul_pow2, Z.shiftr_div_pow2 by lia.
      pose proof (Z.div_mod x (2 ^ (32 - p))). lia. }
  apply Z.bits_inj'. intros i Hi.
  rewrite Z.land_spec, !Z.shiftl_spec by lia.
  destruct (Z.ltb_spec i (32 - p)) as [Hlt|Hge].
  { rewrite !(Z.testbit_neg_r _ (i - (32 - p))) by lia. by rewrite andb_false_r. }
  rewrite Z.shiftr_spec by lia. replace (i - (32 - p) + (32 - p)) with i by lia.
  destruct (Z.ltb_spec i 32).
  - rewrite Z.ones_spec_low by lia. by rewrite andb_true_r.
  - rewrite Z.ones_spec_high by lia. rewrite andb_false_r.
    symmetry. rewrite <- (Z.mod_small x (2 ^ 32)) by lia.
    apply Z.mod_pow2_bits_high. lia.
Qed.

Lemma lor_host_mask p x :
  0 <= p <= 32 -> 0 <= x -> x mod 2 ^ (32 - p) = 0 ->
  Z.lor x (u32_not (prefix_mask p)) = x + 2 ^ (32 - p) - 1.
Proof.
  intros Hp Hx Hm. rewrite not_prefix_mask by lia.
  assert (Hd : Z.land x (Z.ones (32 - p)) = 0) by (rewrite Z.land_ones by lia; done).
  rewrite <- Z.lxor_lor, <- Z.add_nocarry_lxor by done.
  rewrite Z.ones_equiv. lia.
Qed.

(** ** Prefixes as address intervals *)

Lemma prefix_ok_first p : prefix_ok p -> 0 <= first_address p < 2 ^ 32.
Proof. intros [Ha _]. by apply address_bound. Qed.

Lemma first_le_last p : prefix_ok p -> first_address p <= last_address p.
Proof.
  intros (_ & Hp & _). unfold first_address, last_address.
  pose proof (Z.pow_pos_nonneg 2 (32 - prefix_len p)). lia.
Qed.

Lemma Ipv4Prefix_new_ok net len p :
  is_array 4 net -> is_u 8 len ->
  Ipv4Prefix_new net len = Ok p <-> p = mkIpv4Prefix net len /\ prefix_ok p.
Proof.
  intros Hn [Hl0 _]. unfold Ipv4Prefix_new, prefix_ok.
  destruct (Z.ltb_spec 32 len) as [Hgt|Hle]; [split; [done|intros [-> (_ & ? & _)]; simpl in *; lia]|].
  rewrite not_prefix_mask, Z.land_ones by lia.
  destruct (Z.eqb_spec (from_be_bytes net mod 2 ^ (32 - len)) 0) as [He|He]; simpl; split;
    [intros [= <-]; repeat split; (done || apply Hn || (simpl; lia))|intros [-> _]; done|done|intros [-> (_ & _ & ?)]; done].
Qed.

Lemma Ipv4Prefix_new_self p :
  prefix_ok p -> Ipv4Prefix_new (network p) (prefix_len p) = Ok p.
Proof.
  intros H. pose proof H as (Ha & Hl & _). apply Ipv4Prefix_new_ok; [done| |].
  - split; lia.
  - by destruct p.
Qed.

Lemma contains_iff p a :
  prefix_ok p -> is_array 4 a ->
  contains p a = true <-> first_address p <= from_be_bytes a <= last_address p.
Proof.
  intros (Hn & Hl & Hm) Ha. unfold contains, first_address, last_address.
  pose proof (address_bound a Ha) as Ba. pose proof (address_bound _ Hn) as Bn.
  rewrite land_prefix_mask by lia. rewrite Z.eqb_eq.
  set (h := 2 ^ (32 - prefix_len p)) in *.
  assert (0 < h) by (apply Z.pow_pos_nonneg; lia).
  pose proof (Z.mod_pos_bound (from_be_bytes a) h).
  pose proof (Z.div_mod (from_be_bytes a) h). pose proof (Z.div_mod (from_be_bytes (network p)) h).
  split; [lia|]. intros Hr.
  assert (from_be_bytes a / h = from_be_bytes (network p) / h) by nia. nia.
Qed.

Lemma overlaps_sym p q : overlaps p q = overlaps q p.
Proof. unfold overlaps. apply orb_comm. Qed.

Lemma overlaps_ranges p q :
  prefix_ok p -> prefix_ok q ->
  overlaps p q = false <->
  last_address p < first_address q \/ last_address q < first_address p.
Proof.
  intros Hp Hq. unfold overlaps. rewrite orb_false_iff, <- !not_true_iff_false.
  rewrite !contains_iff by (done || apply Hp || apply Hq).
  pose proof (first_le_last p Hp). pose proof (first_le_last q Hq).
  unfold first_address in *. lia.
Qed.

(** ** The order *)

Lemma prefix_cmp_refl p : prefix_cmp p p = Eq.
Proof. unfold prefix_cmp. by rewrite bytes_cmp_refl, Z.compare_refl. Qed.

Lemma prefix_cmp_eq p q : prefix_cmp p q = Eq -> p = q.
Proof.
  unfold prefix_cmp. destruct (bytes_cmp _ _) eqn:E1; try done.
  apply bytes_cmp_eq in E1. intros ?%Z.compare_eq. destruct p, q; simpl in *; congruence.
Qed.

Lemma prefix_cmp_antisym p q : prefix_cmp q p = CompOpp (prefix_cmp p q).
Proof.
  unfold prefix_cmp. rewrite (bytes_cmp_antisym (network p)).
  destruct (bytes_cmp (network p) (network q)); simpl; try done. apply Z.compare_antisym.
Qed.

Lemma prefix_cmp_trans c p q r :
  prefix_cmp p q = c -> prefix_cmp q r = c -> prefix_cmp p r = c.
Proof.
  unfold prefix_cmp.
  destruct (bytes_cmp (network p) (network q)) eqn:E1,
    (bytes_cmp (network q) (network r)) eqn:E2; intros; subst; try congruence;
    repeat match goal with
      | H : bytes_cmp _ _ = Eq |- _ => apply bytes_cmp_eq in H
      end;
    try (rewrite (bytes_cmp_trans _ _ _ _ E1 E2); congruence).
  - rewrite E1, E2, bytes_cmp_refl.
    destruct (Z.compare_spec (prefix_len p) (prefix_len q)),
      (Z.compare_spec (prefix_len q) (prefix_len r)),
      (Z.compare_spec (prefix_len p) (prefix_len r)); congruence || lia.
  - rewrite E1, E2. congruence.
  - rewrite E1, E2. congruence.
  - rewrite <- E2, E1. congruence.
  - rewrite <- E2, E1. congruence.
Qed.

#[export] Instance prefix_le_trans : Transitive prefix_le.
Proof.
  unfold prefix_le. intros p q r H1 H2.
  destruct (prefix_cmp p q) eqn:E1; [|destruct (prefix_cmp q r) eqn:E2|done].
  - by rewrite (prefix_cmp_eq _ _ E1).
  - by rewrite <- (prefix_cmp_eq _ _ E2), E1.
  - by rewrite (prefix_cmp_trans _ _ _ _ E1 E2).
  - done.
Qed.

#[export] Instance prefix_le_total : Total prefix_le.
Proof.
  intros p q. unfold prefix_le. rewrite (prefix_cmp_antisym p q).
  destruct (prefix_cmp p q); simpl; auto.
Qed.

#[export] Instance prefix_le_antisym : AntiSymm (=) prefix_le.
Proof.
  intros p q. unfold prefix_le. rewrite (prefix_cmp_antisym p q).
  destruct (prefix_cmp p q) eqn:E; simpl; try done. by apply prefix_cmp_eq in E.
Qed.

#[export] Instance prefix_lt_trans : Transitive prefix_lt.
Proof. intros p q r. apply prefix_cmp_trans. Qed.

Lemma prefix_lt_irrefl p : ~ prefix_lt p p.
Proof. unfold prefix_lt. by rewrite prefix_cmp_refl. Qed.

Lemma prefix_le_lt_or_eq p q : prefix_le p q <-> prefix_lt p q \/ p = q.
Proof.
  unfold prefix_le, prefix_lt. split.
  - destruct (prefix_cmp p q) eqn:E; try done; [right; by apply prefix_cmp_eq|by left].
  - intros [->| ->]; [done|]. by rewrite prefix_cmp_refl.
Qed.

(** ** The interval sweep *)

Definition ranges_disjoint (a b : Z * Z) : Prop := a.2 < b.1 \/ b.2 < a.1.

#[export] Instance ranges_disjoint_sym : Symmetric ranges_disjoint.
Proof. intros a b. unfold ranges_disjoint. tauto. Qed.

#[export] Instance range_le_trans : Transitive range_le.
Proof. intros a b c. unfold range_le. lia. Qed.

#[export] Instance range_le_total : Total range_le.
Proof. intros a b. unfold range_le. lia. Qed.

Lemma sweep_sorted e l :
  StronglySorted range_le l -> Forall (fun r => r.1 <= r.2) l ->
  sweep_ranges (Some e) l = false <->
  Forall (fun r => e < r.1) l /\ ForallOrdPairs ranges_disjoint l.
Proof.
  intros Hs. revert e. induction Hs as [|[s f] l Hs IH Hle]; intros e Hw; simpl.
  { repeat split; constructor. }
  apply Forall_cons in Hw as [Hsf Hw]. simpl in Hsf.
  destruct (Z.leb_spec s e) as [Hse|Hse].
  { split; [done|]. intros [Hf _]. apply Forall_cons in Hf as [Hf _]. simpl in Hf. lia. }
  rewrite IH by done. rewrite Forall_cons. simpl.
  rewrite Forall_forall in Hle. split.
  - intros [Hf Hp]. rewrite Forall_forall in Hf. split; [split; [done|]|].
    + apply Forall_forall. intros r Hr. specialize (Hf r Hr). lia.
    + constructor; [|done]. apply List.Forall_forall. intros r Hr.
      left. simpl. apply Hf. by apply list_elem_of_In.
  - intros [[_ Hf] Hp]. inversion Hp as [|? ? Hd Hp']; subst. split; [|done].
    apply Forall_forall. intros r Hr. rewrite List.Forall_forall in Hd.
    specialize (Hd r). rewrite <- list_elem_of_In in Hd. specialize (Hd Hr).
    specialize (Hle r Hr). unfold ranges_disjoint, range_le in *. simpl in *.
    rewrite Forall_forall in Hw. specialize (Hw r Hr). lia.
Qed.

Lemma sweep_sorted_None l :
  StronglySorted range_le l -> Forall (fun r => r.1 <= r.2) l ->
  sweep_ranges None l = false <-> ForallOrdPairs ranges_disjoint l.
Proof.
  intros Hs Hw. destruct l as [|[s f] l]; simpl; [split; [constructor|done]|].
  pose proof (sweep_sorted (s - 1) ((s, f) :: l) Hs Hw) as H.
  simpl in H. rewrite (proj2 (Z.leb_gt s (s - 1))) in H by lia. rewrite H.
  split; [tauto|]. intros Hp. split; [|done].
  apply Forall_forall. intros r Hr. inversion Hs as [|? ? _ Hle]; subst.
  apply elem_of_cons in Hr as [->|Hr]; simpl; [lia|].
  rewrite Forall_forall in Hle. specialize (Hle r Hr). unfold range_le in Hle. simpl in Hle. lia.
Qed.

Lemma ForallOrdPairs_Permutation {A} (R : A -> A -> Prop) `{!Symmetric R} l l' :
  Permutation l l' -> ForallOrdPairs R l -> ForallOrdPairs R l'.
Proof.
  induction 1 as [|x l l' Hp IH|x y l|l1 l2 l3 _ IH1 _ IH2]; intros H.
  - constructor.
  - inversion H as [|? ? Hx Hl]; subst. constructor; [|auto].
    by rewrite <- Hp.
  - inversion H as [|? ? Hy Hl]; subst. inversion Hl as [|? ? Hx Hl']; subst.
    apply Forall_cons in Hy as [Hyx Hy]. repeat constructor; auto.
  - auto.
Qed.

Lemma ForallOrdPairs_map {A B} (f : A -> B) (R : B -> B -> Prop) l :
  ForallOrdPairs R (map f l) <-> ForallOrdPairs (fun x y => R (f x) (f y)) l.
Proof.
  induction l as [|x l IH]; simpl; split; intros H; constructor;
    inversion H as [|? ? Hx Hl]; subst.
  - by rewrite Forall_map in Hx.
  - by apply IH.
  - by rewrite Forall_map.
  - by apply IH.
Qed.

Lemma ForallOrdPairs_impl_in {A} (R R' : A -> A -> Prop) (P : A -> Prop) l :
  Forall P l -> (forall x y, P x -> P y -> R x y -> R' x y) ->
  ForallOrdPairs R l -> ForallOrdPairs R' l.
Proof.
  intros HP Himp H. induction H as [|x l Hx Hl IH]; constructor;
    apply Forall_cons in HP as [Px Pl]; [|auto].
  apply Forall_forall. intros y Hy. rewrite Forall_forall in Hx, Pl. auto.
Qed.

Lemma prefix_range_spec p :
  prefix_ok p -> prefix_range p = (first_address p, last_address p).
Proof.
  intros (Ha & Hl & Hm). unfold prefix_range. f_equal.
  rewrite lor_host_mask; [done|done| |done]. apply address_bound in Ha. lia.
Qed.

(** The sweep decides pairwise disjointness, whatever the order of the list. *)
Lemma has_prefix_overlap_false l :
  Forall prefix_ok l ->
  has_prefix_overlap l = false <->
  ForallOrdPairs (fun p q => overlaps p q = false) l.
Proof.
  intros Hok. unfold has_prefix_overlap.
  assert (Hw : Forall (fun r => r.1 <= r.2) (merge_sort range_le (map prefix_range l))).
  { rewrite (merge_sort_Permutation range_le). apply Forall_map.
    eapply Forall_impl; [exact Hok|]. intros p Hp. cbv beta.
    rewrite prefix_range_spec by done. by apply first_le_last. }
  rewrite sweep_sorted_None; [|apply StronglySorted_merge_sort; apply _|done].
  assert (HP := merge_sort_Permutation range_le (map prefix_range l)).
  transitivity (ForallOrdPairs ranges_disjoint (map prefix_range l)).
  { split; apply ForallOrdPairs_Permutation; try apply _; [done|by symmetry]. }
  rewrite ForallOrdPairs_map.
  split; apply (ForallOrdPairs_impl_in _ _ prefix_ok); try done;
    intros p q Hp Hq; unfold ranges_disjoint; rewrite !prefix_range_spec by done;
    by rewrite overlaps_ranges.
Qed.
