(* ===== verification/Wire.v ===== *)
(** * The wire primitives of netd frames

    The variable-length integers and the [Reader] of [candy-netd-proto/src/lib.rs],
    and the notion of a codec on which the frame theorems are built: a reader and a
    writer that invert each other on every value and on every accepted input. *)
From stdpp Require Import base tactics list numbers option sorting.
From Stdlib Require Import ZArith Lia.
From S2P Require Import Prelude Ipv4.

(** ** Variable-length integers *)

(** The loop of [encode_varint]; ten rounds are enough for a [u64]
    ([encode_varint_fuel]). [value as u8] keeps the low eight bits. *)
Fixpoint encode_varint_loop (fuel : nat) (value : Z) : list Z :=
  match fuel with
  | O => []
  | S fuel =>
      if 128 <=? value then
        Z.lor (Z.land (Z.land value 255) 127) 128
          :: encode_varint_loop fuel (Z.shiftr value 7)
      else [Z.land value 255]
  end.

Definition encode_varint (value : Z) : list Z := encode_varint_loop 10 value.

(** [varint(value, out)] appends to [out]. *)
Definition varint (value : Z) : list Z := encode_varint value.

(** [decode_varint]: at most ten bytes ([take(10)]), index and value accumulated. *)
Fixpoint decode_varint_loop (index : nat) (value : Z) (input : list Z)
  : option (Z * nat) :=
  match input with
  | [] => None
  | byte :: rest =>
      if bool_decide (10 <= index)%nat then None
      else
        let payload := Z.land byte 127 in
        if bool_decide (index = 9%nat) && (1 <? payload) then None
        else
          let value := Z.lor value (Z.shiftl payload (Z.of_nat (index * 7)) mod 2 ^ 64) in
          if Z.land byte 128 =? 0 then
            if bool_decide (0 < index)%nat && (payload =? 0) then None
            else Some (value, (index + 1)%nat)
          else decode_varint_loop (S index) value rest
  end.

Definition decode_varint (input : list Z) : option (Z * nat) :=
  decode_varint_loop 0 0 input.

(** ** [Reader] *)

Record Reader : Type := mkReader { input : list Z; offset : nat }.

Definition ReaderM (A : Type) : Type := M Reader NetdProtocolError A.

Definition Reader_new (input : list Z) : Reader := mkReader input 0.

Definition read_varint : ReaderM Z := fun r =>
  match decode_varint (drop (offset r) (input r)) with
  | None => (Err Malformed, r)
  | Some (value, used) => (Ok value, mkReader (input r) (offset r + used))
  end.

(** [self.input.get(offset..offset + n)]: present only when the slice is complete. *)
Definition read_fixed (n : nat) : ReaderM (list Z) := fun r =>
  if bool_decide (offset r + n <= length (input r))%nat then
    (Ok (take n (drop (offset r) (input r))), mkReader (input r) (offset r + n))
  else (Err Malformed, r).

Definition read_count (min max : Z) : ReaderM nat :=
  let* value := read_varint in
  if negb ((min <=? value) && (value <=? max)) then mfail InvalidDeclaration
  else mret (Z.to_nat value).

Definition boolean_of_u64 (value : Z) : Result NetdProtocolError bool :=
  if value =? 0 then Ok false else if value =? 1 then Ok true else Err Malformed.

Definition read_boolean : ReaderM bool :=
  let* value := read_varint in lift (boolean_of_u64 value).

Definition read_prefix : ReaderM Ipv4Prefix :=
  let* network := read_fixed 4 in
  let* value := read_varint in
  let* prefix_len := lift (ok_or (try_from_u 8 value) InvalidDeclaration) in
  lift (Ipv4Prefix_new network prefix_len).

Definition read_finish : ReaderM unit := fun r =>
  if bool_decide (offset r = length (input r)) then (Ok tt, r)
  else (Err TrailingBytes, r).

(** [for _ in 0..n { values.push(item()?) }]. *)
Fixpoint read_n {A} (n : nat) (item : ReaderM A) : ReaderM (list A) :=
  match n with
  | O => mret []
  | S n =>
      let* x := item in
      let* xs := read_n n item in
      mret (x :: xs)
  end.

(** The tail both [decode] functions share: all fields, then [reader.finish()?], then
    the check of the decoded value ([validate()?] or [encode()?]). *)
Definition frame_reader {A B} (rd : ReaderM A) (check : A -> Result NetdProtocolError B)
  : ReaderM A :=
  let* value := rd in do* read_finish in do* lift (check value) in mret value.

Definition encode_prefix (prefix : Ipv4Prefix) : list Z :=
  network prefix ++ varint (prefix_len prefix).

(** ** Arithmetic of the varint loops *)

Lemma varint_low_byte v : 0 <= v ->
  Z.lor (Z.land (Z.land v 255) 127) 128 = v mod 128 + 128.
Proof.
  intros Hv. change 255 with (Z.ones 8). change 127 with (Z.ones 7).
  rewrite <- Z.land_assoc. change (Z.land (Z.ones 8) (Z.ones 7)) with (Z.ones 7).
  rewrite Z.land_ones by lia. change (2 ^ 7) with 128.
  assert (Hd : Z.land (v mod 128) 128 = 0).
  { apply Z.bits_inj'. intros i Hi. rewrite Z.land_spec, Z.bits_0.
    change 128 with (2 ^ 7). destruct (Z.eq_dec i 7) as [->|Hne].
    - by rewrite Z.mod_pow2_bits_high by lia.
    - rewrite Z.pow2_bits_false by lia. by rewrite andb_false_r. }
  rewrite <- Z.lxor_lor, <- Z.add_nocarry_lxor by done. done.
Qed.

Lemma land_127 b : Z.land b 127 = b mod 128.
Proof. change 127 with (Z.ones 7). by rewrite Z.land_ones by lia. Qed.

Lemma land_128 b : 0 <= b < 256 -> (Z.land b 128 =? 0) = (b <? 128).
Proof.
  intros Hb.
  assert (Hf : forallb (fun b => Bool.eqb (Z.land b 128 =? 0) (b <? 128)) (seqZ 0 256) = true)
    by (vm_compute; reflexivity).
  rewrite forallb_forall in Hf. apply Bool.eqb_prop, Hf.
  apply list_elem_of_In, elem_of_seqZ. lia.
Qed.

Lemma lor_shiftl_low a b k :
  0 <= a < 2 ^ k -> 0 <= k -> 0 <= b -> Z.lor a (Z.shiftl b k) = a + b * 2 ^ k.
Proof.
  intros Ha Hk Hb. assert (Hd : Z.land a (Z.shiftl b k) = 0).
  { apply Z.bits_inj'. intros i Hi. rewrite Z.land_spec, Z.bits_0.
    destruct (Z.ltb_spec i k).
    - rewrite Z.shiftl_spec_low by lia. apply andb_false_r.
    - rewrite <- (Z.mod_small a (2 ^ k)) by lia.
      rewrite Z.mod_pow2_bits_high by lia. done. }
  rewrite <- Z.lxor_lor, <- Z.add_nocarry_lxor by done.
  by rewrite Z.shiftl_mul_pow2 by lia.
Qed.

(** One round of the decoder on a byte [b] that carries the payload [v]. *)
Lemma accumulate idx acc v :
  (idx <= 9)%nat -> 0 <= acc < 2 ^ (7 * Z.of_nat idx) ->
  0 <= v < 2 ^ (64 - 7 * Z.of_nat idx) ->
  Z.lor acc (Z.shiftl v (Z.of_nat (idx * 7)) mod 2 ^ 64) = acc + v * 2 ^ (7 * Z.of_nat idx).
Proof.
  intros Hi Ha Hv. replace (Z.of_nat (idx * 7)) with (7 * Z.of_nat idx) by lia.
  assert (Hp : 2 ^ 64 = 2 ^ (64 - 7 * Z.of_nat idx) * 2 ^ (7 * Z.of_nat idx))
    by (rewrite <- Z.pow_add_r by lia; f_equal; lia).
  rewrite Z.mod_small, lor_shiftl_low; try lia.
  rewrite Z.shiftl_mul_pow2 by lia. split; [nia|]. rewrite Hp. nia.
Qed.

Lemma pow7_step idx : 2 ^ (7 * Z.of_nat (S idx)) = 128 * 2 ^ (7 * Z.of_nat idx).
Proof. change 128 with (2 ^ 7). rewrite <- Z.pow_add_r by lia. f_equal. lia. Qed.

Lemma pow64_step idx :
  (idx < 9)%nat ->
  2 ^ (64 - 7 * Z.of_nat idx) = 128 * 2 ^ (64 - 7 * Z.of_nat (S idx)).
Proof. intros. change 128 with (2 ^ 7). rewrite <- Z.pow_add_r by lia. f_equal. lia. Qed.

Lemma idx_le_8 idx v :
  (idx <= 9)%nat -> 128 <= v < 2 ^ (64 - 7 * Z.of_nat idx) -> (idx < 9)%nat.
Proof.
  intros Hi Hv. destruct (Nat.eq_dec idx 9) as [->|]; [|lia].
  change (2 ^ (64 - 7 * Z.of_nat 9)) with 2 in Hv. lia.
Qed.

Lemma mod128_cont v : (v mod 128 + 128) mod 128 = v mod 128.
Proof. change 128 with (1 * 128) at 2. by rewrite Z.mod_add, Z.mod_mod by lia. Qed.

Lemma decode_encode_loop fuel idx acc v rest :
  (idx <= 9)%nat -> (10 <= fuel + idx)%nat -> 0 <= acc < 2 ^ (7 * Z.of_nat idx) ->
  0 <= v < 2 ^ (64 - 7 * Z.of_nat idx) -> ((0 < idx)%nat -> 0 < v) ->
  decode_varint_loop idx acc (encode_varint_loop fuel v ++ rest) =
  Some (acc + v * 2 ^ (7 * Z.of_nat idx), (idx + length (encode_varint_loop fuel v))%nat).
Proof.
  revert idx acc v. induction fuel as [|fuel IH]; intros idx acc v Hi Hf Ha Hv Hp; [lia|].
  cbn [encode_varint_loop]. destruct (Z.leb_spec 128 v) as [Hge|Hlt].
  - pose proof (idx_le_8 idx v Hi (conj Hge (proj2 Hv))) as Hi8.
    rewrite varint_low_byte by lia. cbn [app decode_varint_loop].
    pose proof (Z.mod_pos_bound v 128). pose proof (Z.div_mod v 128).
    pose proof (pow64_step idx Hi8). pose proof (pow7_step idx).
    rewrite land_127, land_128 by lia.
    rewrite mod128_cont.
    rewrite (bool_decide_eq_false_2 (10 <= idx)%nat), (bool_decide_eq_false_2 (idx = 9%nat)) by lia.
    cbn [andb]. rewrite accumulate by lia. rewrite (proj2 (Z.ltb_ge _ 128)) by lia.
    rewrite Z.shiftr_div_pow2 by lia. change (2 ^ 7) with 128.
    rewrite IH; [|nia..]. cbn [length]. f_equal. f_equal; [|lia]. nia.
  - replace (Z.land v 255) with v
      by (change 255 with (Z.ones 8); rewrite Z.land_ones by lia; rewrite Z.mod_small; lia).
    cbn [app decode_varint_loop length]. rewrite land_127, land_128 by lia.
    rewrite (Z.mod_small v 128) by lia.
    rewrite (bool_decide_eq_false_2 (10 <= idx)%nat) by lia.
    rewrite accumulate by lia. rewrite (proj2 (Z.ltb_lt v 128)) by lia.
    assert (Hc1 : bool_decide (idx = 9%nat) && (1 <? v) = false).
    { case_bool_decide as E; [|done]. subst. change (2 ^ (64 - 7 * Z.of_nat 9)) with 2 in Hv.
      cbn [andb]. apply Z.ltb_ge. lia. }
    assert (Hc2 : bool_decide (0 < idx)%nat && (v =? 0) = false).
    { destruct (Z.eqb_spec v 0); [|apply andb_false_r].
      rewrite bool_decide_eq_false_2; [done|]. intros E. specialize (Hp E). lia. }
    by rewrite Hc1, Hc2.
Qed.

Lemma decode_varint_loop_canonical idx acc input value used :
  (idx <= 10)%nat -> 0 <= acc < 2 ^ (7 * Z.of_nat idx) -> Forall is_byte input ->
  decode_varint_loop idx acc input = Some (value, used) ->
  exists v rest,
    input = encode_varint_loop (10 - idx) v ++ rest /\
    value = acc + v * 2 ^ (7 * Z.of_nat idx) /\
    used = (idx + length (encode_varint_loop (10 - idx) v))%nat /\
    0 <= v < 2 ^ (64 - 7 * Z.of_nat idx) /\ ((0 < idx)%nat -> 0 < v).
Proof.
  revert idx acc. induction input as [|b rest IH]; intros idx acc Hi Ha Hb H; [done|].
  apply Forall_cons in Hb as [[Hb0 Hb1] Hr]. change (2 ^ 8) with 256 in Hb1.
  cbn [decode_varint_loop] in H. case_bool_decide as E10; [done|].
  rewrite land_127, land_128 in H by lia.
  destruct (bool_decide (idx = 9%nat) && (1 <? b mod 128)) eqn:E9; [done|].
  assert (Hi9 : (idx <= 9)%nat) by lia.
  pose proof (Z.mod_pos_bound b 128). pose proof (Z.div_mod b 128).
  assert (Hm : b mod 128 < 2 ^ (64 - 7 * Z.of_nat idx)).
  { destruct (Nat.eq_dec idx 9) as [->|Hne].
    - change (2 ^ (64 - 7 * Z.of_nat 9)) with 2.
      rewrite bool_decide_eq_true_2 in E9 by done. cbn [andb] in E9. apply Z.ltb_ge in E9. lia.
    - apply Z.lt_le_trans with (2 ^ 7); [lia|]. apply Z.pow_le_mono_r; lia. }
  rewrite accumulate in H by lia. replace (10 - idx)%nat with (S (9 - idx)) by lia.
  destruct (Z.ltb_spec b 128) as [Hlt|Hge].
  - destruct (bool_decide (0 < idx)%nat && (b mod 128 =? 0)) eqn:E0; [done|].
    injection H as <- <-. exists b, rest. rewrite (Z.mod_small b 128) in * by lia.
    cbn [encode_varint_loop]. rewrite (proj2 (Z.leb_gt 128 b)) by lia.
    replace (Z.land b 255) with b
      by (change 255 with (Z.ones 8); rewrite Z.land_ones by lia; rewrite Z.mod_small; lia).
    repeat split; try done; try lia.
    intros Hp. rewrite bool_decide_eq_true_2 in E0 by done. cbn [andb] in E0. apply Z.eqb_neq in E0. lia.
  - assert (Hq : b = b mod 128 + 128) by nia.
    destruct (Nat.eq_dec idx 9) as [->|Hne].
    { (* a tenth continuation byte is refused *)
      destruct rest; simpl in H; [done|]. done. }
    pose proof (pow64_step idx). pose proof (pow7_step idx).
    apply IH in H as (v & rest' & -> & -> & -> & Hv & Hp); [|lia|nia|done].
    specialize (Hp ltac:(lia)). exists (b mod 128 + v * 128), rest'.
    replace (10 - S idx)%nat with (9 - idx)%nat by lia.
    cbn [encode_varint_loop]. rewrite (proj2 (Z.leb_le 128 _)) by lia.
    rewrite varint_low_byte, Z.mod_add, Z.mod_mod by lia.
    rewrite Z.shiftr_div_pow2 by lia. change (2 ^ 7) with 128.
    rewrite Z.div_add, (Z.div_small (b mod 128)) by lia.
    rewrite Z.add_0_l, <- Hq. repeat split; try done; simpl; nia.
Qed.

Lemma decode_varint_encode v rest :
  is_u 64 v -> decode_varint (varint v ++ rest) = Some (v, length (varint v)).
Proof.
  intros Hv. unfold decode_varint, varint, encode_varint.
  rewrite decode_encode_loop; [|lia|lia|simpl; lia|exact Hv|lia].
  f_equal. f_equal. simpl. lia.
Qed.

Lemma decode_varint_canonical input v used :
  Forall is_byte input -> decode_varint input = Some (v, used) ->
  is_u 64 v /\ used = length (varint v) /\ exists rest, input = varint v ++ rest.
Proof.
  intros Hb H. apply decode_varint_loop_canonical in H
    as (w & rest & -> & -> & -> & Hw & _); [|lia|simpl; lia|done].
  replace (0 + w * 2 ^ (7 * Z.of_nat 0)) with w by (simpl; lia).
  split; [exact Hw|]. split; [done|]. by exists rest.
Qed.

(** Ten rounds are enough for every [u64]: more fuel changes nothing. *)
Lemma encode_varint_fuel v n :
  is_u 64 v -> (10 <= n)%nat -> encode_varint_loop n v = encode_varint v.
Proof.
  assert (Hg : forall m k v, (m <= k)%nat -> (0 < m)%nat -> 0 <= v < 2 ^ (7 * Z.of_nat m) ->
            encode_varint_loop k v = encode_varint_loop m v).
  { induction m as [|m IH]; intros k w Hmk Hm Hw; [lia|].
    destruct k as [|k]; [lia|]. simpl encode_varint_loop.
    destruct (Z.leb_spec 128 w) as [Hge|]; [|done]. f_equal.
    rewrite pow7_step in Hw. rewrite Z.shiftr_div_pow2 by lia. change (2 ^ 7) with 128.
    pose proof (Z.div_mod w 128). pose proof (Z.mod_pos_bound w 128).
    destruct m as [|m]; [simpl in Hw; lia|]. apply IH; [lia|lia|nia]. }
  intros [H0 H1] Hn. apply Hg; [lia|lia|]. split; [lia|].
  eapply Z.lt_le_trans; [exact H1|]. apply Z.pow_le_mono_r; lia.
Qed.

(** No varint is longer than ten bytes. *)
Lemma varint_length v : (length (varint v) <= 10)%nat.
Proof.
  unfold varint, encode_varint. generalize 10%nat. intros n. revert v.
  induction n as [|n IH]; intros v; simpl; [lia|]. destruct (128 <=? v); simpl; [|lia].
  specialize (IH (Z.shiftr v 7)). lia.
Qed.

Lemma varint_bytes v : 0 <= v -> Forall is_byte (varint v).
Proof.
  unfold varint, encode_varint. generalize 10%nat. intros n. revert v.
  induction n as [|n IH]; intros v Hv; simpl; [constructor|].
  destruct (Z.leb_spec 128 v); constructor.
  - rewrite varint_low_byte by done. pose proof (Z.mod_pos_bound v 128).
    split; [lia|]. change (2 ^ 8) with 256. lia.
  - apply IH. rewrite Z.shiftr_nonneg. lia.
  - change 255 with (Z.ones 8). rewrite Z.land_ones by lia.
    apply Z.mod_pos_bound. lia.
  - constructor.
Qed.

(** ** Codecs

    [codec rd wr ok]: on a frame that continues with [wr a], [rd] returns [a] and
    stops right after it; and whatever [rd] returns on bytes, the bytes it consumed
    are [wr] of the result. *)

Record codec {A} (rd : ReaderM A) (wr : A -> list Z) (ok : A -> Prop) : Prop := {
  codec_read : forall a pre rest,
    ok a ->
    rd (mkReader (pre ++ wr a ++ rest) (length pre)) =
      (Ok a, mkReader (pre ++ wr a ++ rest) (length pre + length (wr a)));
  codec_write : forall pre suf a r',
    Forall is_byte suf ->
    rd (mkReader (pre ++ suf) (length pre)) = (Ok a, r') ->
    ok a /\ exists rest, suf = wr a ++ rest /\
      r' = mkReader (pre ++ suf) (length pre + length (wr a));
}.

Lemma codec_ext {A} (rd : ReaderM A) wr wr' ok ok' :
  codec rd wr ok -> (forall a, ok' a <-> ok a) -> (forall a, ok a -> wr' a = wr a) ->
  codec rd wr' ok'.
Proof.
  intros [Hr Hw] Hok Hwr. split.
  - intros a pre rest Ha. apply Hok in Ha. rewrite Hwr by done. by apply Hr.
  - intros pre suf a r' Hb H. apply Hw in H as (Ha & rest & -> & ->); [|done].
    split; [by apply Hok|]. exists rest. by rewrite Hwr.
Qed.

Lemma codec_mret {A} (a0 : A) : codec (mret a0) (fun _ => []) (fun a => a = a0).
Proof.
  split.
  - intros a pre rest ->. unfold mret. simpl. by rewrite Nat.add_0_r.
  - intros pre suf a r' Hb [= <- <-]. split; [done|]. exists suf. simpl.
    by rewrite Nat.add_0_r.
Qed.

(** Sequencing: the value [c] of the whole determines through [proj] the value of its
    first part. *)
Lemma codec_seq {A C} (rd : ReaderM A) wr1 ok1 (k : A -> ReaderM C) (proj : C -> A)
    (wr2 : C -> list Z) (ok : C -> Prop) :
  codec rd wr1 ok1 ->
  (forall c, ok c -> ok1 (proj c)) ->
  (forall a, ok1 a -> codec (k a) wr2 (fun c => ok c /\ proj c = a)) ->
  codec (mbind rd k) (fun c => wr1 (proj c) ++ wr2 c) ok.
Proof.
  intros [Hr Hw] Hok Hk. split.
  - intros c pre rest Hc. unfold mbind. rewrite <- app_assoc.
    rewrite Hr by auto. destruct (Hk (proj c) (Hok c Hc)) as [Hr2 _].
    specialize (Hr2 c (pre ++ wr1 (proj c)) rest (conj Hc eq_refl)).
    rewrite <- app_assoc, length_app in Hr2. rewrite Hr2.
    by rewrite length_app, Nat.add_assoc.
  - intros pre suf c r' Hb H. unfold mbind in H.
    destruct (rd (mkReader (pre ++ suf) (length pre))) as [[a|e] r1] eqn:E; [|done].
    apply Hw in E as (Ha & rest & -> & ->); [|done].
    apply Forall_app in Hb as [_ Hb]. destruct (Hk a Ha) as [_ Hw2].
    rewrite app_assoc in H. rewrite <- length_app in H.
    apply Hw2 in H as ((Hc & Hp) & rest2 & -> & ->); [|done].
    split; [done|]. subst a. exists rest2. rewrite <- !app_assoc. split; [done|].
    f_equal. rewrite !length_app. lia.
Qed.

(** A checked conversion of what was read. *)
Lemma codec_conv {A B} (rd : ReaderM A) wr ok (conv : A -> Result NetdProtocolError B)
    (inv : B -> A) (okB : B -> Prop) :
  codec rd wr ok ->
  (forall b, okB b -> ok (inv b) /\ conv (inv b) = Ok b) ->
  (forall a b, ok a -> conv a = Ok b -> okB b /\ inv b = a) ->
  codec (let* a := rd in lift (conv a)) (fun b => wr (inv b)) okB.
Proof.
  intros [Hr Hw] H1 H2. split.
  - intros b pre rest Hb. destruct (H1 b Hb) as [Hi Hc]. unfold mbind, lift.
    rewrite Hr by done. by rewrite Hc.
  - intros pre suf b r' Hbs H. unfold mbind, lift in H.
    destruct (rd (mkReader (pre ++ suf) (length pre))) as [[a|e] r1] eqn:E; [|done].
    apply Hw in E as (Ha & rest & -> & ->); [|done].
    injection H as H <-. destruct (H2 a b Ha H) as [Hb <-].
    split; [done|]. by exists rest.
Qed.

Lemma codec_varint : codec read_varint varint (is_u 64).
Proof.
  split.
  - intros v pre rest Hv. unfold read_varint. simpl.
    rewrite drop_app_length, decode_varint_encode by done. done.
  - intros pre suf v r' Hb H. unfold read_varint in H. simpl in H.
    rewrite drop_app_length in H.
    destruct (decode_varint suf) as [[w used]|] eqn:E; [|done].
    apply decode_varint_canonical in E as (Hw & -> & rest & ->); [|done].
    injection H as <- <-. split; [done|]. by exists rest.
Qed.

Lemma codec_fixed n : codec (read_fixed n) (fun l => l) (is_array n).
Proof.
  split.
  - intros l pre rest [Hl Hb]. unfold read_fixed. simpl.
    rewrite bool_decide_eq_true_2 by (rewrite !length_app; lia).
    rewrite drop_app_length, <- Hl, take_app_length. done.
  - intros pre suf l r' Hb H. unfold read_fixed in H. simpl in H.
    case_bool_decide as Hn; [|done]. rewrite drop_app_length in H.
    injection H as <- <-. rewrite length_app in Hn.
    assert (Hl : length (take n suf) = n) by (rewrite length_take; lia).
    split; [split; [done|by apply Forall_take]|].
    exists (drop n suf). by rewrite take_drop, Hl.
Qed.

(** [uN::try_from(reader.varint()?)]. *)
Lemma codec_varint_u w (e : NetdProtocolError) :
  0 <= w <= 64 ->
  codec (let* v := read_varint in lift (ok_or (try_from_u w v) e)) varint (is_u w).
Proof.
  intros Hw. apply (codec_conv read_varint varint (is_u 64) _ (fun b => b)).
  - apply codec_varint.
  - intros b Hb. split; [by apply (is_u_mono w 64)|]. by rewrite try_from_u_ok.
  - intros a b [Ha _]. destruct (try_from_u w a) eqn:E; [|done].
    apply try_from_u_Some in E as [Hlt ->]. intros [= <-]. by split.
Qed.

(** An enumeration on the wire: [Enum::try_from(reader.varint()?)]. *)
Lemma codec_enum {A} (of_u64 : Z -> Result NetdProtocolError A) (to_u64 : A -> Z) :
  (forall a, is_u 64 (to_u64 a)) -> (forall a, of_u64 (to_u64 a) = Ok a) ->
  (forall v a, of_u64 v = Ok a -> to_u64 a = v) ->
  codec (let* v := read_varint in lift (of_u64 v)) (fun a => varint (to_u64 a)) (fun _ => True).
Proof.
  intros Hu H1 H2. apply (codec_conv read_varint varint (is_u 64)).
  - apply codec_varint.
  - auto.
  - intros a b Ha Hab. split; [done|by apply H2].
Qed.

Lemma codec_boolean :
  codec read_boolean (fun b : bool => varint (if b then 1 else 0)) (fun _ => True).
Proof.
  apply (codec_enum boolean_of_u64 (fun b : bool => if b then 1 else 0)).
  - by intros [].
  - by intros [].
  - intros v a. unfold boolean_of_u64.
    destruct (Z.eqb_spec v 0) as [->|]; [by intros [= <-]|].
    destruct (Z.eqb_spec v 1) as [->|]; [by intros [= <-]|done].
Qed.

Lemma codec_count lo hi :
  0 <= lo -> hi < 2 ^ 64 ->
  codec (read_count lo hi) (fun n => varint (Z.of_nat n)) (fun n => lo <= Z.of_nat n <= hi).
Proof.
  intros Hlo Hhi. split.
  - intros n pre rest Hn. unfold read_count, mbind.
    rewrite (codec_read _ _ _ codec_varint) by (split; lia).
    rewrite (proj2 (Z.leb_le lo _)), (proj2 (Z.leb_le _ hi)) by lia. simpl.
    unfold mret. by rewrite Nat2Z.id.
  - intros pre suf n r' Hb H. unfold read_count, mbind in H.
    destruct (read_varint _) as [[v|e] r1] eqn:E; [|done].
    apply (codec_write _ _ _ codec_varint) in E as ([Hv _] & rest & -> & ->); [|done].
    destruct (Z.leb_spec lo v), (Z.leb_spec v hi); try done.
    injection H as <- <-. rewrite Z2Nat.id by done. split; [done|]. by exists rest.
Qed.

Lemma codec_prefix : codec read_prefix encode_prefix prefix_ok.
Proof.
  apply (codec_seq (read_fixed 4) (fun l => l) (is_array 4) _ network
           (fun p => varint (prefix_len p)) prefix_ok).
  - apply codec_fixed.
  - by intros p [Ha _].
  - intros net Hnet. split.
    + intros p pre rest [Hp <-]. pose proof Hp as (_ & Hl & _). unfold mbind at 1.
      rewrite (codec_read _ _ _ codec_varint) by (split; lia).
      unfold mbind, lift. rewrite try_from_u_ok by (split; lia). cbv beta iota delta [ok_or].
      by rewrite Ipv4Prefix_new_self.
    + intros pre suf p r' Hb H. unfold mbind at 1 in H.
      destruct (read_varint _) as [[v|e] r1] eqn:E; [|done].
      apply (codec_write _ _ _ codec_varint) in E as ([Hv _] & rest & -> & ->); [|done].
      unfold mbind, lift in H. destruct (try_from_u 8 v) eqn:E8; [|done].
      apply try_from_u_Some in E8 as [Hlt ->]. simpl in H. injection H as H <-.
      apply Ipv4Prefix_new_ok in H as [-> Hp]; [|done|done]. split; [done|]. by exists rest.
Qed.

Lemma codec_n {A} (rd : ReaderM A) wr ok n :
  codec rd wr ok ->
  codec (read_n n rd) (fun l => concat (map wr l)) (fun l => length l = n /\ Forall ok l).
Proof.
  intros Hc. induction n as [|n IH]; cbn [read_n].
  - eapply codec_ext; [apply (codec_mret [])| |].
    + intros [|]; simpl; [|naive_solver]. repeat split; constructor.
    + by intros ? ->.
  - destruct Hc as [Hr Hw], IH as [IHr IHw]. split.
    + intros [|x l] pre rest [Hl Hx]; [done|]. injection Hl as Hl.
      apply Forall_cons in Hx as [Hx Hxs]. simpl concat. unfold mbind.
      rewrite <- app_assoc, Hr by done.
      specialize (IHr l (pre ++ wr x) rest (conj Hl Hxs)).
      rewrite <- app_assoc, length_app in IHr. rewrite IHr.
      unfold mret. by rewrite length_app, Nat.add_assoc.
    + intros pre suf l r' Hb H. unfold mbind in H.
      destruct (rd _) as [[x|e] r1] eqn:E; [|done].
      apply Hw in E as (Hx & rest & -> & ->); [|done]. apply Forall_app in Hb as [_ Hb].
      destruct (read_n n rd _) as [[xs|e] r2] eqn:E2; [|done].
      rewrite app_assoc, <- length_app in E2.
      apply IHw in E2 as ((Hl & Hxs) & rest2 & -> & ->); [|done].
      injection H as <- <-. split; [split; [simpl; lia|by constructor]|].
      exists rest2. simpl concat. rewrite <- !app_assoc. split; [done|].
      f_equal. rewrite !length_app. lia.
Qed.

Lemma codec_finish_ok rest pre :
  read_finish (mkReader (pre ++ rest) (length pre)) =
    (if bool_decide (rest = []) then Ok tt else Err TrailingBytes,
     mkReader (pre ++ rest) (length pre)).
Proof.
  unfold read_finish. simpl. rewrite length_app. destruct rest; simpl.
  - by rewrite bool_decide_eq_true_2 by lia.
  - by rewrite bool_decide_eq_false_2 by lia.
Qed.

(** Closing rules for a chain of [codec_seq]: nothing is left to read. *)
Lemma codec_guard {A} (v0 : A) (check : Result NetdProtocolError unit) (ok : A -> Prop) :
  (forall c, ok c <-> c = v0 /\ check = Ok tt) ->
  codec (do* lift check in mret v0) (fun _ => []) ok.
Proof.
  intros H. unfold mbind, lift. split.
  - intros a pre rest [-> ->]%H. unfold mret. simpl. by rewrite Nat.add_0_r.
  - intros pre suf a r' Hb. destruct check as [[]|e]; [|done]. intros [= <- <-].
    split; [by apply H|]. exists suf. simpl. by rewrite Nat.add_0_r.
Qed.

Lemma codec_ret {A} (v0 : A) (ok : A -> Prop) :
  (forall c, ok c <-> c = v0) -> codec (mret v0) (fun _ => []) ok.
Proof. intros H. by apply (codec_ext _ _ _ _ ok (codec_mret v0)). Qed.

Lemma codec_last {A C} (rd : ReaderM A) wr1 ok1 (k : A -> ReaderM C) (proj : C -> A)
    (ok : C -> Prop) :
  codec rd wr1 ok1 ->
  (forall c, ok c -> ok1 (proj c)) ->
  (forall a, ok1 a -> codec (k a) (fun _ => []) (fun c => ok c /\ proj c = a)) ->
  codec (mbind rd k) (fun c => wr1 (proj c)) ok.
Proof.
  intros H1 H2 H3. eapply codec_ext; [by eapply (codec_seq rd wr1 ok1 k proj)|done|].
  intros c _. simpl. by rewrite app_nil_r.
Qed.

(** One or two parts wrapped in a constructor. *)
Lemma codec_inj {A B} (rd : ReaderM A) wr ok (f : A -> B) (wr' : B -> list Z) (ok' : B -> Prop) :
  codec rd wr ok ->
  (forall b, ok' b <-> exists a, b = f a /\ ok a) ->
  (forall a, wr' (f a) = wr a) ->
  codec (let* a := rd in mret (f a)) wr' ok'.
Proof.
  intros [Hr Hw] Hok Hwr. unfold mbind, mret. split.
  - intros b pre rest (a & -> & Ha)%Hok. rewrite Hwr. by rewrite Hr.
  - intros pre suf b r' Hb H. destruct (rd _) as [[a|e] r1] eqn:E; [|done].
    apply Hw in E as (Ha & rest & -> & ->); [|done]. injection H as <- <-.
    split; [apply Hok; eauto|]. exists rest. by rewrite Hwr.
Qed.

Lemma codec_inj2 {A1 A2 B} (rd1 : ReaderM A1) (rd2 : ReaderM A2) wr1 wr2 ok1 ok2
    (f : A1 -> A2 -> B) (wr' : B -> list Z) (ok' : B -> Prop) :
  codec rd1 wr1 ok1 -> codec rd2 wr2 ok2 ->
  (forall b, ok' b <-> exists a1 a2, b = f a1 a2 /\ ok1 a1 /\ ok2 a2) ->
  (forall a1 a2, wr' (f a1 a2) = wr1 a1 ++ wr2 a2) ->
  codec (let* a1 := rd1 in let* a2 := rd2 in mret (f a1 a2)) wr' ok'.
Proof.
  intros [Hr1 Hw1] [Hr2 Hw2] Hok Hwr. unfold mbind, mret. split.
  - intros b pre rest (a1 & a2 & -> & H1 & H2)%Hok. rewrite Hwr, <- app_assoc, Hr1 by done.
    specialize (Hr2 a2 (pre ++ wr1 a1) rest H2). rewrite <- app_assoc, length_app in Hr2.
    rewrite Hr2. by rewrite length_app, Nat.add_assoc.
  - intros pre suf b r' Hb H. destruct (rd1 _) as [[a1|e] r1] eqn:E; [|done].
    apply Hw1 in E as (H1 & rest & -> & ->); [|done]. apply Forall_app in Hb as [_ Hb].
    rewrite app_assoc, <- length_app in H.
    destruct (rd2 _) as [[a2|e] r2] eqn:E2; [|done].
    apply Hw2 in E2 as (H2 & rest2 & -> & ->); [|done]. injection H as <- <-.
    split; [apply Hok; eauto 6|]. exists rest2. rewrite Hwr, <- !app_assoc.
    split; [done|]. f_equal. rewrite !length_app. lia.
Qed.

Lemma codec_mfail {A} e wr (ok : A -> Prop) :
  (forall a, ~ ok a) -> codec (mfail e) wr ok.
Proof. intros H. split; [by intros a pre rest ?%H|done]. Qed.

Lemma codec_frame_read {A B} (rd : ReaderM A) wr ok (check : A -> Result NetdProtocolError B) a b :
  codec rd wr ok -> ok a -> check a = Ok b ->
  fst (frame_reader rd check (Reader_new (wr a))) = Ok a.
Proof.
  intros [Hr _] Ha Hc. unfold frame_reader, mbind, lift, Reader_new.
  specialize (Hr a [] [] Ha). simpl in Hr. rewrite app_nil_r in Hr. rewrite Hr.
  pose proof (codec_finish_ok [] (wr a)) as Hf. rewrite app_nil_r in Hf. rewrite Hf.
  simpl. by rewrite Hc.
Qed.

Lemma codec_frame_write {A B} (rd : ReaderM A) wr ok
    (check : A -> Result NetdProtocolError B) bs a :
  codec rd wr ok -> Forall is_byte bs ->
  fst (frame_reader rd check (Reader_new bs)) = Ok a ->
  ok a /\ wr a = bs /\ is_ok (check a) = true.
Proof.
  intros [_ Hw] Hb. unfold frame_reader, mbind, lift, Reader_new.
  destruct (rd (mkReader bs 0)) as [[v|e] r1] eqn:E; [|done].
  apply (Hw [] bs) in E as (Hv & rest & -> & ->); [|done]. simpl app. simpl length.
  rewrite Nat.add_0_l, codec_finish_ok. case_bool_decide as Hrest; [|done]. subst rest.
  destruct (check v) as [c|] eqn:Ec; [|done]. simpl. intros [= <-].
  rewrite app_nil_r, Ec. done.
Qed.
