(* ===== verification/Proto.v ===== *)
(** * The netd protocol, version 1

    The declarations, requests and responses of [candy-netd-proto/src/lib.rs] with
    their validation, and the binary frames that carry them. *)
From stdpp Require Import base tactics list numbers option sorting.
From Stdlib Require Import ZArith Lia.
From S2P Require Import Prelude Ipv4 Wire.

Definition NETD_PROTOCOL_VERSION : Z := 1.
Definition CANDY_TABLE_MIN : Z := 20000.
Definition CANDY_TABLE_MAX : Z := 20999.
Definition MAX_NETD_FRAME_LEN : Z := 2 * 1024 * 1024.
Definition MAX_ROUTES : Z := 65536.
Definition MAX_EXCLUSIONS : Z := 64.

(** ** Declarations *)

Inductive RouteKind : Type := Local | Remote | RemoteEgress | RemoteEgressGateway.

Definition RouteKind_to_u64 (k : RouteKind) : Z :=
  match k with Local => 1 | Remote => 2 | RemoteEgress => 3 | RemoteEgressGateway => 4 end.

Definition RouteKind_try_from (value : Z) : Result NetdProtocolError RouteKind :=
  match value with
  | 1 => Ok Local
  | 2 => Ok Remote
  | 3 => Ok RemoteEgress
  | 4 => Ok RemoteEgressGateway
  | _ => Err UnknownEnum
  end.

#[export] Instance RouteKind_eq_dec : EqDecision RouteKind.
Proof. solve_decision. Defined.

Record RouteDeclaration : Type := mkRoute {
  route_prefix : Ipv4Prefix;
  route_kind : RouteKind;
}.

#[export] Instance RouteDeclaration_eq_dec : EqDecision RouteDeclaration.
Proof. solve_decision. Defined.

Inductive UnderlayKind : Type := CloudApi | HubEndpoint | Management.

Definition UnderlayKind_to_u64 (k : UnderlayKind) : Z :=
  match k with CloudApi => 1 | HubEndpoint => 2 | Management => 3 end.

Definition UnderlayKind_try_from (value : Z) : Result NetdProtocolError UnderlayKind :=
  match value with
  | 1 => Ok CloudApi
  | 2 => Ok HubEndpoint
  | 3 => Ok Management
  | _ => Err UnknownEnum
  end.

#[export] Instance UnderlayKind_eq_dec : EqDecision UnderlayKind.
Proof. solve_decision. Defined.

Record UnderlayExclusion : Type := mkExclusion {
  exclusion_prefix : Ipv4Prefix;
  exclusion_kind : UnderlayKind;
}.

#[export] Instance UnderlayExclusion_eq_dec : EqDecision UnderlayExclusion.
Proof. solve_decision. Defined.

Record FirewallPolicy : Type := mkFirewall {
  allow_forward : bool;
  clamp_tcp_mss : bool;
  require_ipv4_forwarding : bool;
  manage_rp_filter : bool;
}.

#[export] Instance FirewallPolicy_eq_dec : EqDecision FirewallPolicy.
Proof. solve_decision. Defined.

Record PrepareDeclaration : Type := mkDeclaration {
  table_id : Z;
  overlay_router_ipv4 : list Z;
  effective_mtu : Z;
  routes : list RouteDeclaration;
  exclusions : list UnderlayExclusion;
  firewall : FirewallPolicy;
}.

#[export] Instance PrepareDeclaration_eq_dec : EqDecision PrepareDeclaration.
Proof. solve_decision. Defined.

(** [scoped_to_prefixes]: [Vec::retain] keeps the elements in their order. *)
Definition scoped_to_prefixes (self : PrepareDeclaration) (prefixes : list Ipv4Prefix)
  : PrepareDeclaration :=
  mkDeclaration (table_id self) (overlay_router_ipv4 self) (effective_mtu self)
    (filter (fun route => route_prefix route ∈ prefixes) (routes self))
    (filter (fun value => exclusion_prefix value ∈ prefixes) (exclusions self))
    (firewall self).

(** ** Validation *)

(** [values.windows(2).all(|pair| ok(pair[0], pair[1]))]. *)
Fixpoint windows2_all {A} (ok : A -> A -> bool) (values : list A) : bool :=
  match values with
  | x :: (y :: _) as rest => ok x y && windows2_all ok rest
  | _ => true
  end.

(** The order of the key [(prefix, kind as u64)]. *)
Definition key_cmp (a b : Ipv4Prefix * Z) : comparison :=
  match prefix_cmp a.1 b.1 with
  | Eq => a.2 ?= b.2
  | c => c
  end.

Definition key_ltb (a b : Ipv4Prefix * Z) : bool :=
  match key_cmp a b with Lt => true | _ => false end.

Definition strictly_sorted_by {T} (key : T -> Ipv4Prefix * Z) (values : list T) : bool :=
  windows2_all (fun x y => key_ltb (key x) (key y)) values.

Definition route_key (route : RouteDeclaration) : Ipv4Prefix * Z :=
  (route_prefix route, RouteKind_to_u64 (route_kind route)).
Definition exclusion_key (value : UnderlayExclusion) : Ipv4Prefix * Z :=
  (exclusion_prefix value, UnderlayKind_to_u64 (exclusion_kind value)).

Definition is_remote_egress (route : RouteDeclaration) : bool :=
  bool_decide (route_kind route = RemoteEgress).

(** [routes.iter().filter_map(|route| (route.kind != RemoteEgress).then_some(route.prefix))]. *)
Definition site_prefixes (l : list RouteDeclaration) : list Ipv4Prefix :=
  omap (fun route => if is_remote_egress route then None else Some (route_prefix route)) l.

Definition in_range (lo hi x : Z) : bool := (lo <=? x) && (x <=? hi).

Definition declaration_bounds_bad (self : PrepareDeclaration) : bool :=
  negb (in_range CANDY_TABLE_MIN CANDY_TABLE_MAX (table_id self))
  || negb (in_range 576 1400 (effective_mtu self))
  || bool_decide (routes self = [])
  || (MAX_ROUTES <? Z.of_nat (length (routes self)))
  || bool_decide (exclusions self = [])
  || (MAX_EXCLUSIONS <? Z.of_nat (length (exclusions self))).

Definition declaration_policy_bad (self : PrepareDeclaration) : bool :=
  negb (strictly_sorted_by route_key (routes self))
  || negb (strictly_sorted_by exclusion_key (exclusions self))
  || existsb (fun route => (prefix_len (route_prefix route) =? 0) && negb (is_remote_egress route))
       (routes self)
  || existsb (fun value => prefix_len (exclusion_prefix value) =? 0) (exclusions self)
  || has_prefix_overlap (site_prefixes (routes self))
  || has_prefix_overlap (map exclusion_prefix (exclusions self))
  || existsb (fun route =>
       negb (is_remote_egress route)
       && existsb (fun exclusion => overlaps (route_prefix route) (exclusion_prefix exclusion))
            (exclusions self)) (routes self)
  || existsb (fun route =>
       negb (is_remote_egress route)
       && contains (route_prefix route) (overlay_router_ipv4 self)) (routes self)
  || existsb (fun value => contains (exclusion_prefix value) (overlay_router_ipv4 self))
       (exclusions self)
  || bool_decide (overlay_router_ipv4 self = [0; 0; 0; 0])
  || (224 <=? nth 0 (overlay_router_ipv4 self) 0).

Definition PrepareDeclaration_validate (self : PrepareDeclaration)
  : Result NetdProtocolError unit :=
  if declaration_bounds_bad self then Err InvalidDeclaration
  else if declaration_policy_bad self then Err InvalidDeclaration
  else Ok tt.

(** ** Requests *)

Record LeaseOwner : Type := mkOwner {
  instance_id : list Z;
  pid : Z;
  generation : Z;
  lease_deadline_mono_ms : Z;
}.

#[export] Instance LeaseOwner_eq_dec : EqDecision LeaseOwner.
Proof. solve_decision. Defined.

Definition LeaseOwner_validate (self : LeaseOwner) : Result NetdProtocolError unit :=
  if bool_decide (instance_id self = replicate 16 0) || (pid self =? 0)
     || (generation self =? 0) || (lease_deadline_mono_ms self =? 0)
  then Err InvalidOwner
  else Ok tt.

Inductive NetdOperation : Type :=
| OpPrepare (declaration : PrepareDeclaration)
| OpCommit
| OpRollback
| OpStatus
| OpLeaseRenew
| OpMtuUpdate (effective_mtu : Z)
| OpSuspend
| OpReconfigure (declaration : PrepareDeclaration)
| OpResume
| OpDrain (now_mono_ms : Z)
| OpWithdrawPrefixes (prefixes : list Ipv4Prefix)
| OpPolicyUpdate (declaration : PrepareDeclaration).

#[export] Instance NetdOperation_eq_dec : EqDecision NetdOperation.
Proof. solve_decision. Defined.

Definition operation_tag (self : NetdOperation) : Z :=
  match self with
  | OpPrepare _ => 1
  | OpCommit => 2
  | OpRollback => 3
  | OpStatus => 4
  | OpLeaseRenew => 5
  | OpMtuUpdate _ => 6
  | OpSuspend => 7
  | OpReconfigure _ => 8
  | OpResume => 9
  | OpDrain _ => 10
  | OpWithdrawPrefixes _ => 11
  | OpPolicyUpdate _ => 12
  end.

Record NetdRequest : Type := mkRequest {
  request_id : Z;
  owner : LeaseOwner;
  operation : NetdOperation;
}.

#[export] Instance NetdRequest_eq_dec : EqDecision NetdRequest.
Proof. solve_decision. Defined.

Definition prefix_ltb (a b : Ipv4Prefix) : bool := bool_decide (prefix_lt a b).

Definition operation_validate (op : NetdOperation) : Result NetdProtocolError unit :=
  match op with
  | OpPrepare value | OpReconfigure value | OpPolicyUpdate value =>
      PrepareDeclaration_validate value
  | OpMtuUpdate mtu =>
      if negb (in_range 576 1400 mtu) then Err InvalidDeclaration else Ok tt
  | OpWithdrawPrefixes prefixes =>
      if negb (windows2_all prefix_ltb prefixes)
         || existsb (fun p => 32 <? prefix_len p) prefixes
      then Err InvalidRequest else Ok tt
  | _ => Ok tt
  end.

Definition NetdRequest_validate (self : NetdRequest) : Result NetdProtocolError unit :=
  if request_id self =? 0 then Err InvalidRequest
  else
    check? LeaseOwner_validate (owner self) in
    operation_validate (operation self).

(** ** Request frames *)

Definition ensure_frame (input : list Z) : Result NetdProtocolError unit :=
  if bool_decide (input = []) || (MAX_NETD_FRAME_LEN <? Z.of_nat (length input))
  then Err FrameSize
  else Ok tt.

Definition bool_to_u64 (b : bool) : Z := if b then 1 else 0.

Definition encode_route (route : RouteDeclaration) : list Z :=
  encode_prefix (route_prefix route) ++ varint (RouteKind_to_u64 (route_kind route)).
Definition encode_exclusion (exclusion : UnderlayExclusion) : list Z :=
  encode_prefix (exclusion_prefix exclusion)
    ++ varint (UnderlayKind_to_u64 (exclusion_kind exclusion)).

Definition encode_declaration (value : PrepareDeclaration) : list Z :=
  varint (table_id value)
  ++ overlay_router_ipv4 value
  ++ varint (effective_mtu value)
  ++ varint (Z.of_nat (length (routes value)))
  ++ concat (map encode_route (routes value))
  ++ varint (Z.of_nat (length (exclusions value)))
  ++ concat (map encode_exclusion (exclusions value))
  ++ varint (bool_to_u64 (allow_forward (firewall value)))
  ++ varint (bool_to_u64 (clamp_tcp_mss (firewall value)))
  ++ varint (bool_to_u64 (require_ipv4_forwarding (firewall value)))
  ++ varint (bool_to_u64 (manage_rp_filter (firewall value))).

Definition encode_operation (op : NetdOperation) : list Z :=
  match op with
  | OpPrepare value | OpReconfigure value | OpPolicyUpdate value => encode_declaration value
  | OpMtuUpdate mtu => varint mtu
  | OpDrain now_mono_ms => varint now_mono_ms
  | OpWithdrawPrefixes prefixes =>
      varint (Z.of_nat (length prefixes)) ++ concat (map encode_prefix prefixes)
  | _ => []
  end.

(** Everything [NetdRequest::encode] appends to its buffer. *)
Definition request_bytes (self : NetdRequest) : list Z :=
  varint NETD_PROTOCOL_VERSION
  ++ varint (operation_tag (operation self))
  ++ varint (request_id self)
  ++ instance_id (owner self)
  ++ varint (pid (owner self))
  ++ varint (generation (owner self))
  ++ varint (lease_deadline_mono_ms (owner self))
  ++ encode_operation (operation self).

Definition NetdRequest_encode (self : NetdRequest) : Result NetdProtocolError (list Z) :=
  check? NetdRequest_validate self in
  if match operation self with
     | OpWithdrawPrefixes prefixes => MAX_ROUTES <? Z.of_nat (length prefixes)
     | _ => false
     end
  then Err InvalidRequest
  else
    let out := request_bytes self in
    check? ensure_frame out in
    Ok out.

Definition read_route : ReaderM RouteDeclaration :=
  let* prefix := read_prefix in
  let* kind := (let* v := read_varint in lift (RouteKind_try_from v)) in
  mret (mkRoute prefix kind).

Definition read_exclusion : ReaderM UnderlayExclusion :=
  let* prefix := read_prefix in
  let* kind := (let* v := read_varint in lift (UnderlayKind_try_from v)) in
  mret (mkExclusion prefix kind).

(** [uN::try_from(reader.varint()?).map_err(|_| e)?]. *)
Definition read_varint_u (w : Z) (e : NetdProtocolError) : ReaderM Z :=
  let* v := read_varint in lift (ok_or (try_from_u w v) e).

Definition decode_declaration : ReaderM PrepareDeclaration :=
  let* table_id := read_varint_u 32 InvalidDeclaration in
  let* overlay_router_ipv4 := read_fixed 4 in
  let* effective_mtu := read_varint_u 16 InvalidDeclaration in
  let* route_count := read_count 1 MAX_ROUTES in
  let* routes := read_n route_count read_route in
  let* exclusion_count := read_count 1 MAX_EXCLUSIONS in
  let* exclusions := read_n exclusion_count read_exclusion in
  let* allow_forward := read_boolean in
  let* clamp_tcp_mss := read_boolean in
  let* require_ipv4_forwarding := read_boolean in
  let* manage_rp_filter := read_boolean in
  let value := mkDeclaration table_id overlay_router_ipv4 effective_mtu routes exclusions
                 (mkFirewall allow_forward clamp_tcp_mss require_ipv4_forwarding
                    manage_rp_filter) in
  do* lift (PrepareDeclaration_validate value) in
  mret value.

Definition read_withdraw_count : ReaderM nat :=
  let* value := read_varint in
  if MAX_ROUTES <? value then mfail InvalidRequest else mret (Z.to_nat value).

Definition decode_operation (tag : Z) : ReaderM NetdOperation :=
  match tag with
  | 1 => let* d := decode_declaration in mret (OpPrepare d)
  | 2 => mret OpCommit
  | 3 => mret OpRollback
  | 4 => mret OpStatus
  | 5 => mret OpLeaseRenew
  | 6 => let* mtu := read_varint_u 16 InvalidDeclaration in mret (OpMtuUpdate mtu)
  | 7 => mret OpSuspend
  | 8 => let* d := decode_declaration in mret (OpReconfigure d)
  | 9 => mret OpResume
  | 10 => let* now := read_varint in mret (OpDrain now)
  | 11 =>
      let* count := read_withdraw_count in
      let* prefixes := read_n count read_prefix in
      mret (OpWithdrawPrefixes prefixes)
  | 12 => let* d := decode_declaration in mret (OpPolicyUpdate d)
  | _ => mfail UnknownEnum
  end.

Definition decode_owner : ReaderM LeaseOwner :=
  let* instance_id := read_fixed 16 in
  let* pid := read_varint_u 32 InvalidOwner in
  let* generation := read_varint in
  let* lease_deadline_mono_ms := read_varint in
  mret (mkOwner instance_id pid generation lease_deadline_mono_ms).

(** [if reader.varint()? != NETD_PROTOCOL_VERSION { return Err(UnsupportedVersion) }]. *)
Definition read_version : ReaderM unit :=
  let* version := read_varint in
  if negb (version =? NETD_PROTOCOL_VERSION) then mfail UnsupportedVersion else mret tt.

Definition decode_request_fields : ReaderM NetdRequest :=
  do* read_version in
  let* tag := read_varint in
  let* request_id := read_varint in
  let* owner := decode_owner in
  let* operation := decode_operation tag in
  mret (mkRequest request_id owner operation).

Definition NetdRequest_decode (input : list Z) : Result NetdProtocolError NetdRequest :=
  check? ensure_frame input in
  fst (frame_reader decode_request_fields NetdRequest_validate (Reader_new input)).

(** ** Responses *)

Inductive ErrorCode : Type :=
| EcInvalidRequest
| EcUnauthorizedPeer
| EcGenerationConflict
| EcPreflightFailed
| EcSystemFailure
| EcDrainPending
| EcLinkPrepareFailed
| EcRoutePrepareFailed
| EcFirewallPrepareFailed
| EcSysctlPrepareFailed
| EcLinkActivateFailed
| EcPolicyActivateFailed.

#[export] Instance ErrorCode_eq_dec : EqDecision ErrorCode.
Proof. solve_decision. Defined.

Definition ErrorCode_to_u64 (c : ErrorCode) : Z :=
  match c with
  | EcInvalidRequest => 1
  | EcUnauthorizedPeer => 2
  | EcGenerationConflict => 3
  | EcPreflightFailed => 4
  | EcSystemFailure => 5
  | EcDrainPending => 6
  | EcLinkPrepareFailed => 7
  | EcRoutePrepareFailed => 8
  | EcFirewallPrepareFailed => 9
  | EcSysctlPrepareFailed => 10
  | EcLinkActivateFailed => 11
  | EcPolicyActivateFailed => 12
  end.

Definition ErrorCode_try_from (value : Z) : Result NetdProtocolError ErrorCode :=
  match value with
  | 1 => Ok EcInvalidRequest
  | 2 => Ok EcUnauthorizedPeer
  | 3 => Ok EcGenerationConflict
  | 4 => Ok EcPreflightFailed
  | 5 => Ok EcSystemFailure
  | 6 => Ok EcDrainPending
  | 7 => Ok EcLinkPrepareFailed
  | 8 => Ok EcRoutePrepareFailed
  | 9 => Ok EcFirewallPrepareFailed
  | 10 => Ok EcSysctlPrepareFailed
  | 11 => Ok EcLinkActivateFailed
  | 12 => Ok EcPolicyActivateFailed
  | _ => Err UnknownEnum
  end.

Inductive SessionPhase : Type := PhStopped | PhPrepared | PhActive | PhSuspended | PhDraining.

#[export] Instance SessionPhase_eq_dec : EqDecision SessionPhase.
Proof. solve_decision. Defined.

Definition SessionPhase_to_u64 (p : SessionPhase) : Z :=
  match p with
  | PhStopped => 1 | PhPrepared => 2 | PhActive => 3 | PhSuspended => 4 | PhDraining => 5
  end.

Definition SessionPhase_try_from (value : Z) : Result NetdProtocolError SessionPhase :=
  match value with
  | 1 => Ok PhStopped
  | 2 => Ok PhPrepared
  | 3 => Ok PhActive
  | 4 => Ok PhSuspended
  | 5 => Ok PhDraining
  | _ => Err UnknownEnum
  end.

Inductive ResponseBody : Type :=
| RsPrepared (generation : Z) (tun_fd_attached : bool)
| RsCommitted (generation : Z)
| RsRolledBack (generation : Z)
| RsStatus (phase : SessionPhase) (generation : Z)
| RsLeaseRenewed (generation : Z)
| RsMtuUpdated (generation : Z) (effective_mtu : Z)
| RsSuspended (generation : Z)
| RsReconfigured (generation : Z)
| RsResumed (generation : Z)
| RsDrained (generation : Z)
| RsPrefixesWithdrawn (generation : Z) (count : Z)
| RsPolicyUpdated (generation : Z)
| RsError (code : ErrorCode).

#[export] Instance ResponseBody_eq_dec : EqDecision ResponseBody.
Proof. solve_decision. Defined.

Record NetdResponse : Type := mkResponse {
  response_id : Z;
  body : ResponseBody;
}.

#[export] Instance NetdResponse_eq_dec : EqDecision NetdResponse.
Proof. solve_decision. Defined.

Definition valid_generation (value : Z) : Result NetdProtocolError unit :=
  if value =? 0 then Err InvalidRequest else Ok tt.

Definition response_tag (b : ResponseBody) : Z :=
  match b with
  | RsPrepared _ _ => 1
  | RsCommitted _ => 2
  | RsRolledBack _ => 3
  | RsStatus _ _ => 4
  | RsLeaseRenewed _ => 5
  | RsError _ => 6
  | RsMtuUpdated _ _ => 7
  | RsSuspended _ => 8
  | RsReconfigured _ => 9
  | RsResumed _ => 10
  | RsDrained _ => 11
  | RsPrefixesWithdrawn _ _ => 12
  | RsPolicyUpdated _ => 13
  end.

(** The second [match self.body] of [NetdResponse::encode]: checks, then bytes. *)
Definition encode_body (b : ResponseBody) : Result NetdProtocolError (list Z) :=
  match b with
  | RsPrepared generation attached =>
      check? valid_generation generation in
      Ok (varint generation ++ varint (bool_to_u64 attached))
  | RsCommitted generation | RsRolledBack generation | RsLeaseRenewed generation
  | RsSuspended generation | RsReconfigured generation | RsResumed generation
  | RsDrained generation | RsPolicyUpdated generation =>
      check? valid_generation generation in
      Ok (varint generation)
  | RsPrefixesWithdrawn generation count =>
      check? valid_generation generation in
      Ok (varint generation ++ varint count)
  | RsStatus phase generation =>
      check? (if bool_decide (phase <> PhStopped) then valid_generation generation else Ok tt) in
      Ok (varint (SessionPhase_to_u64 phase) ++ varint generation)
  | RsMtuUpdated generation mtu =>
      check? valid_generation generation in
      if negb (in_range 576 1400 mtu) then Err InvalidDeclaration
      else Ok (varint generation ++ varint mtu)
  | RsError code => Ok (varint (ErrorCode_to_u64 code))
  end.

Definition NetdResponse_encode (self : NetdResponse) : Result NetdProtocolError (list Z) :=
  if response_id self =? 0 then Err InvalidRequest
  else
    let? payload := encode_body (body self) in
    let out := varint NETD_PROTOCOL_VERSION ++ varint (response_tag (body self))
                 ++ varint (response_id self) ++ payload in
    check? ensure_frame out in
    Ok out.

Definition read_phase : ReaderM SessionPhase :=
  let* v := read_varint in lift (SessionPhase_try_from v).
Definition read_error_code : ReaderM ErrorCode :=
  let* v := read_varint in lift (ErrorCode_try_from v).

Definition decode_body (tag : Z) : ReaderM ResponseBody :=
  match tag with
  | 1 => let* g := read_varint in let* a := read_boolean in mret (RsPrepared g a)
  | 2 => let* g := read_varint in mret (RsCommitted g)
  | 3 => let* g := read_varint in mret (RsRolledBack g)
  | 4 => let* p := read_phase in let* g := read_varint in mret (RsStatus p g)
  | 5 => let* g := read_varint in mret (RsLeaseRenewed g)
  | 6 => let* c := read_error_code in mret (RsError c)
  | 7 =>
      let* g := read_varint in
      let* mtu := read_varint_u 16 InvalidDeclaration in
      mret (RsMtuUpdated g mtu)
  | 8 => let* g := read_varint in mret (RsSuspended g)
  | 9 => let* g := read_varint in mret (RsReconfigured g)
  | 10 => let* g := read_varint in mret (RsResumed g)
  | 11 => let* g := read_varint in mret (RsDrained g)
  | 12 => let* g := read_varint in let* c := read_varint in mret (RsPrefixesWithdrawn g c)
  | 13 => let* g := read_varint in mret (RsPolicyUpdated g)
  | _ => mfail UnknownEnum
  end.

Definition decode_response_fields : ReaderM NetdResponse :=
  do* read_version in
  let* tag := read_varint in
  let* request_id := read_varint in
  let* body := decode_body tag in
  mret (mkResponse request_id body).

Definition NetdResponse_decode (input : list Z) : Result NetdProtocolError NetdResponse :=
  check? ensure_frame input in
  fst (frame_reader decode_response_fields NetdResponse_encode (Reader_new input)).
