(* ===== verification/ProtoFacts.v ===== *)
(** * Properties of the netd protocol, version 1

    What validation guarantees, and that the frame codec is a bijection between the
    valid messages and the frames it accepts. *)
From stdpp Require Import base tactics list numbers option sorting.
From Stdlib Require Import ZArith Lia.
From S2P Require Import Prelude Ipv4 Wire Proto.

(** ** Values the Rust types can hold

    [Ipv4Prefix] values are those its constructor returns. *)

Definition declaration_typed (d : PrepareDeclaration) : Prop :=
  is_u 32 (table_id d) /\ is_array 4 (overlay_router_ipv4 d) /\ is_u 16 (effective_mtu d) /\
  Forall (fun r => prefix_ok (route_prefix r)) (routes d) /\
  Forall (fun e => prefix_ok (exclusion_prefix e)) (exclusions d).

Definition owner_typed (o : LeaseOwner) : Prop :=
  is_array 16 (instance_id o) /\ is_u 32 (pid o) /\ is_u 64 (generation o) /\
  is_u 64 (lease_deadline_mono_ms o).

Definition operation_typed (op : NetdOperation) : Prop :=
  match op with
  | OpPrepare d | OpReconfigure d | OpPolicyUpdate d => declaration_typed d
  | OpMtuUpdate mtu => is_u 16 mtu
  | OpDrain now => is_u 64 now
  | OpWithdrawPrefixes prefixes => Forall prefix_ok prefixes
  | _ => True
  end.

Definition request_typed (r : NetdRequest) : Prop :=
  is_u 64 (request_id r) /\ owner_typed (owner r) /\ operation_typed (operation r).

(** ** Codecs of the components *)

Lemma RouteKind_codec :
  codec (let* v := read_varint in lift (RouteKind_try_from v))
    (fun k => varint (RouteKind_to_u64 k)) (fun _ => True).
Proof.
  apply codec_enum; [by intros []|by intros []|].
  intros v a. unfold RouteKind_try_from. enum_cases v; by intros [= <-].
Qed.

Lemma UnderlayKind_codec :
  codec (let* v := read_varint in lift (UnderlayKind_try_from v))
    (fun k => varint (UnderlayKind_to_u64 k)) (fun _ => True).
Proof.
  apply codec_enum; [by intros []|by intros []|].
  intros v a. unfold UnderlayKind_try_from. enum_cases v; by intros [= <-].
Qed.

Lemma SessionPhase_codec :
  codec read_phase (fun p => varint (SessionPhase_to_u64 p)) (fun _ => True).
Proof.
  apply codec_enum; [by intros []|by intros []|].
  intros v a. unfold SessionPhase_try_from. enum_cases v; by intros [= <-].
Qed.

Lemma ErrorCode_codec :
  codec read_error_code (fun c => varint (ErrorCode_to_u64 c)) (fun _ => True).
Proof.
  apply codec_enum; [by intros []|by intros []|].
  intros v a. unfold ErrorCode_try_from. enum_cases v; by intros [= <-].
Qed.

(** Closes the bookkeeping of a codec chain: the projections of the value are the
    parts that were read. *)
Ltac chain_close :=
  intros; repeat match goal with
    | c : RouteDeclaration |- _ => destruct c
    | c : UnderlayExclusion |- _ => destruct c
    | c : LeaseOwner |- _ => destruct c
    | c : FirewallPolicy |- _ => destruct c
    | c : PrepareDeclaration |- _ => destruct c
    | c : NetdRequest |- _ => destruct c
    | c : NetdResponse |- _ => destruct c
    end; simpl in *; intuition (subst; eauto; congruence).

Lemma route_codec :
  codec read_route encode_route (fun r => prefix_ok (route_prefix r)).
Proof.
  apply (codec_seq read_prefix encode_prefix prefix_ok _ route_prefix
           (fun r => varint (RouteKind_to_u64 (route_kind r)))); [apply codec_prefix|done|].
  intros p Hp.
  apply (codec_last _ (fun k => varint (RouteKind_to_u64 k)) (fun _ => True) _ route_kind);
    [apply RouteKind_codec|done|].
  intros k _. apply codec_ret. intros c. chain_close.
Qed.

Lemma exclusion_codec :
  codec read_exclusion encode_exclusion (fun e => prefix_ok (exclusion_prefix e)).
Proof.
  apply (codec_seq read_prefix encode_prefix prefix_ok _ exclusion_prefix
           (fun e => varint (UnderlayKind_to_u64 (exclusion_kind e)))); [apply codec_prefix|done|].
  intros p Hp.
  apply (codec_last _ (fun k => varint (UnderlayKind_to_u64 k)) (fun _ => True) _ exclusion_kind);
    [apply UnderlayKind_codec|done|].
  intros k _. apply codec_ret. intros c. chain_close.
Qed.

Definition declaration_ok (d : PrepareDeclaration) : Prop :=
  declaration_typed d /\ PrepareDeclaration_validate d = Ok tt.

Lemma validate_counts d :
  PrepareDeclaration_validate d = Ok tt ->
  1 <= Z.of_nat (length (routes d)) <= MAX_ROUTES /\
  1 <= Z.of_nat (length (exclusions d)) <= MAX_EXCLUSIONS.
Proof.
  unfold PrepareDeclaration_validate, declaration_bounds_bad.
  destruct (routes d) as [|r l], (exclusions d) as [|e l'];
    rewrite ?(bool_decide_eq_true_2 ([] = [])), ?orb_true_r by done; try done.
  intros H. destruct (_ || _) eqn:E in H; [done|].
  rewrite !orb_false_iff, !Z.ltb_ge in E. cbn [length] in *. lia.
Qed.

Lemma declaration_codec : codec decode_declaration encode_declaration declaration_ok.
Proof.
  apply (codec_seq _ varint (is_u 32) _ table_id); [by apply codec_varint_u| |].
  { intros d Hd. apply Hd. }
  intros t Ht. apply (codec_seq _ (fun l => l) (is_array 4) _ overlay_router_ipv4);
    [apply codec_fixed| |].
  { intros d [Hd _]. apply Hd. }
  intros o Ho. apply (codec_seq _ varint (is_u 16) _ effective_mtu); [by apply codec_varint_u| |].
  { intros d [[Hd _] _]. apply Hd. }
  intros m Hm. apply (codec_seq _ (fun n => varint (Z.of_nat n))
           (fun n => 1 <= Z.of_nat n <= MAX_ROUTES) _ (fun d => length (routes d)));
    [by apply codec_count| |].
  { intros d [[[Hd _] _] _]. apply validate_counts, Hd. }
  intros n Hn. apply (codec_seq _ (fun l => concat (map encode_route l))
           (fun l => length l = n /\ Forall (fun r => prefix_ok (route_prefix r)) l) _ routes);
    [apply (codec_n _ _ _ n route_codec)| |].
  { intros d [[[[Hd _] _] _] <-]. split; [done|apply Hd]. }
  intros rs Hrs.
  apply (codec_seq _ (fun n => varint (Z.of_nat n))
           (fun n => 1 <= Z.of_nat n <= MAX_EXCLUSIONS) _ (fun d => length (exclusions d)));
    [by apply codec_count| |].
  { intros d [[[[[Hd _] _] _] _] _]. apply validate_counts, Hd. }
  intros k Hk. apply (codec_seq _ (fun l => concat (map encode_exclusion l))
           (fun l => length l = k /\ Forall (fun e => prefix_ok (exclusion_prefix e)) l) _ exclusions);
    [apply (codec_n _ _ _ k exclusion_codec)| |].
  { intros d [[[[[[Hd _] _] _] _] _] <-]. split; [done|apply Hd]. }
  intros es Hes.
  apply (codec_seq _ (fun b => varint (bool_to_u64 b)) (fun _ => True) _
           (fun d => allow_forward (firewall d))); [apply codec_boolean|done|].
  intros b1 _. apply (codec_seq _ (fun b => varint (bool_to_u64 b)) (fun _ => True) _
           (fun d => clamp_tcp_mss (firewall d))); [apply codec_boolean|done|].
  intros b2 _. apply (codec_seq _ (fun b => varint (bool_to_u64 b)) (fun _ => True) _
           (fun d => require_ipv4_forwarding (firewall d))); [apply codec_boolean|done|].
  intros b3 _. apply (codec_last _ (fun b => varint (bool_to_u64 b)) (fun _ => True) _
           (fun d => manage_rp_filter (firewall d))); [apply codec_boolean|done|].
  intros b4 _. apply codec_guard. intros d. unfold declaration_ok, declaration_typed.
  destruct d as [t' o' m' rs' es' [f1 f2 f3 f4]]. simpl. split.
  - intuition (subst; done).
  - intros [[= -> -> -> -> -> -> -> -> ->] Hv]. destruct Hrs, Hes. intuition (subst; done).
Qed.

Lemma owner_codec :
  codec decode_owner (fun o => instance_id o ++ varint (pid o) ++ varint (generation o)
                               ++ varint (lease_deadline_mono_ms o)) owner_typed.
Proof.
  apply (codec_seq _ (fun l => l) (is_array 16) _ instance_id); [apply codec_fixed|by intros o []|].
  intros i Hi. apply (codec_seq _ varint (is_u 32) _ pid); [by apply codec_varint_u| |].
  { by intros o [(_ & ? & _) _]. }
  intros p Hp. apply (codec_seq _ varint (is_u 64) _ generation); [apply codec_varint| |].
  { by intros o [[(_ & _ & ? & _) _] _]. }
  intros g Hg. apply (codec_last _ varint (is_u 64) _ lease_deadline_mono_ms); [apply codec_varint| |].
  { by intros o [[[(_ & _ & _ & ?) _] _] _]. }
  intros l Hl. apply codec_ret. intros o. unfold owner_typed. chain_close.
Qed.

(** What a frame adds to the Rust types: declarations validate and a withdrawal lists
    at most [MAX_ROUTES] prefixes. *)
Definition operation_ok (op : NetdOperation) : Prop :=
  match op with
  | OpPrepare d | OpReconfigure d | OpPolicyUpdate d => declaration_ok d
  | OpWithdrawPrefixes prefixes =>
      Forall prefix_ok prefixes /\ Z.of_nat (length prefixes) <= MAX_ROUTES
  | op => operation_typed op
  end.

Lemma withdraw_count_codec :
  codec read_withdraw_count (fun n => varint (Z.of_nat n)) (fun n => Z.of_nat n <= MAX_ROUTES).
Proof.
  unfold read_withdraw_count, mbind. split.
  - intros n pre rest Hn. rewrite (codec_read _ _ _ codec_varint).
    + rewrite (proj2 (Z.ltb_ge MAX_ROUTES _)) by done. unfold mret. by rewrite Nat2Z.id.
    + split; [lia|]. eapply Z.le_lt_trans; [exact Hn|]. done.
  - intros pre suf n r' Hb H. destruct (read_varint _) as [[v|e] r1] eqn:E; [|done].
    apply (codec_write _ _ _ codec_varint) in E as ([Hv _] & rest & -> & ->); [|done].
    destruct (Z.ltb_spec MAX_ROUTES v); [done|]. injection H as <- <-.
    rewrite Z2Nat.id by done. split; [done|]. by exists rest.
Qed.

Lemma withdraw_codec :
  codec (let* count := read_withdraw_count in
         let* prefixes := read_n count read_prefix in
         mret (OpWithdrawPrefixes prefixes))
    encode_operation (fun op => operation_ok op /\ operation_tag op = 11).
Proof.
  pose (withdrawn op := match op with OpWithdrawPrefixes l => l | _ => [] end).
  apply (codec_ext _ (fun op => varint (Z.of_nat (length (withdrawn op)))
                                 ++ concat (map encode_prefix (withdrawn op))) _
           (fun op => operation_ok op /\ operation_tag op = 11));
    [|reflexivity|].
  - apply (codec_seq _ (fun n => varint (Z.of_nat n)) (fun n => Z.of_nat n <= MAX_ROUTES) _
             (fun op => length (withdrawn op)));
      [apply withdraw_count_codec| |].
    { intros [] [Hop Ht]; try done. apply Hop. }
    intros n Hn. apply (codec_inj _ _ _ _ _ _ (codec_n _ _ _ n codec_prefix)); [|done].
    intros op. split.
    + intros [[Hop Ht] Hl]. destruct op; try done. exists prefixes. split; [done|].
      split; [done|apply Hop].
    + intros (l & -> & Hl & Hp). simpl. by subst n.
  - intros [] [Hop Ht]; done.
Qed.

(** An operation without fields. *)
Lemma unit_operation_codec op :
  encode_operation op = [] ->
  (forall o, operation_ok o /\ operation_tag o = operation_tag op <-> o = op) ->
  codec (mret op) encode_operation (fun o => operation_ok o /\ operation_tag o = operation_tag op).
Proof.
  intros H1 H2. apply (codec_ext _ (fun _ => []) _ (fun o => o = op)).
  - apply (codec_mret op).
  - exact H2.
  - by intros a ->.
Qed.

(** An operation that carries a declaration. *)
Lemma declaration_operation_codec (C : PrepareDeclaration -> NetdOperation) t :
  (forall op, operation_ok op /\ operation_tag op = t <-> exists d, op = C d /\ declaration_ok d) ->
  (forall d, encode_operation (C d) = encode_declaration d) ->
  codec (let* d := decode_declaration in mret (C d)) encode_operation
    (fun op => operation_ok op /\ operation_tag op = t).
Proof. intros H1 H2. by apply (codec_inj _ _ _ _ _ _ declaration_codec). Qed.

Ltac operation_shape := intros []; simpl; split; naive_solver.

Lemma mtu_operation_codec :
  codec (let* mtu := read_varint_u 16 InvalidDeclaration in mret (OpMtuUpdate mtu))
    encode_operation (fun op => operation_ok op /\ operation_tag op = 6).
Proof.
  apply (codec_inj _ varint (is_u 16)); [by apply codec_varint_u| |done]. operation_shape.
Qed.

Lemma drain_operation_codec :
  codec (let* now := read_varint in mret (OpDrain now))
    encode_operation (fun op => operation_ok op /\ operation_tag op = 10).
Proof.
  apply (codec_inj _ varint (is_u 64)); [apply codec_varint| |done]. operation_shape.
Qed.

Lemma decode_operation_bad tag : ~ 1 <= tag <= 12 -> decode_operation tag = mfail UnknownEnum.
Proof. intros H. unfold decode_operation. enum_cases tag; by exfalso; apply H. Qed.

Lemma operation_codec tag :
  codec (decode_operation tag) encode_operation
    (fun op => operation_ok op /\ operation_tag op = tag).
Proof.
  destruct (decide (1 <= tag <= 12)) as [Ht|Ht].
  - assert (tag = 1 \/ tag = 2 \/ tag = 3 \/ tag = 4 \/ tag = 5 \/ tag = 6 \/ tag = 7
            \/ tag = 8 \/ tag = 9 \/ tag = 10 \/ tag = 11 \/ tag = 12) as Hc by lia.
    destruct Hc as [->|[->|[->|[->|[->|[->|[->|[->|[->|[->|[->| ->]]]]]]]]]]].
    + apply declaration_operation_codec; [operation_shape|done].
    + apply (unit_operation_codec OpCommit); [done|operation_shape].
    + apply (unit_operation_codec OpRollback); [done|operation_shape].
    + apply (unit_operation_codec OpStatus); [done|operation_shape].
    + apply (unit_operation_codec OpLeaseRenew); [done|operation_shape].
    + apply mtu_operation_codec.
    + apply (unit_operation_codec OpSuspend); [done|operation_shape].
    + apply declaration_operation_codec; [operation_shape|done].
    + apply (unit_operation_codec OpResume); [done|operation_shape].
    + apply drain_operation_codec.
    + apply withdraw_codec.
    + apply declaration_operation_codec; [operation_shape|done].
  - rewrite decode_operation_bad by done. apply codec_mfail. intros op [_ <-].
    apply Ht. destruct op; simpl; lia.
Qed.

(** ** Requests *)

Lemma version_codec :
  codec read_version (fun _ => varint NETD_PROTOCOL_VERSION) (fun _ => True).
Proof.
  unfold read_version, mbind. split.
  - intros [] pre rest _. by rewrite (codec_read _ _ _ codec_varint).
  - intros pre suf [] r' Hb H. destruct (read_varint _) as [[v|e] r1] eqn:E; [|done].
    apply (codec_write _ _ _ codec_varint) in E as (_ & rest & -> & ->); [|done].
    destruct (Z.eqb_spec v NETD_PROTOCOL_VERSION) as [->|]; [|done].
    injection H as <-. split; [done|]. by exists rest.
Qed.

(** The requests a frame can carry. *)
Definition request_ok (r : NetdRequest) : Prop :=
  is_u 64 (request_id r) /\ owner_typed (owner r) /\ operation_ok (operation r).

Lemma request_codec : codec decode_request_fields request_bytes request_ok.
Proof.
  apply (codec_ext _ (fun r => varint NETD_PROTOCOL_VERSION ++ varint (operation_tag (operation r))
      ++ varint (request_id r)
      ++ (instance_id (owner r) ++ varint (pid (owner r)) ++ varint (generation (owner r))
          ++ varint (lease_deadline_mono_ms (owner r)))
      ++ encode_operation (operation r)) _ request_ok);
    [|done|by intros r _; unfold request_bytes; rewrite <- !app_assoc].
  apply (codec_seq _ (fun _ => varint NETD_PROTOCOL_VERSION) (fun _ => True) _ (fun _ => tt));
    [apply version_codec|done|]. intros [] _.
  apply (codec_seq _ varint (is_u 64) _ (fun r => operation_tag (operation r)));
    [apply codec_varint| |].
  { intros r _. destruct (operation r); by simpl. }
  intros tag Htag. apply (codec_seq _ varint (is_u 64) _ request_id); [apply codec_varint| |].
  { intros r [[Hr _] _]. apply Hr. }
  intros id Hid. apply (codec_seq _ (fun o => instance_id o ++ varint (pid o)
      ++ varint (generation o) ++ varint (lease_deadline_mono_ms o)) owner_typed _ owner);
    [apply owner_codec| |].
  { intros r [[[Hr _] _] _]. apply Hr. }
  intros o Ho. apply (codec_last _ encode_operation
      (fun op => operation_ok op /\ operation_tag op = tag) _ operation);
    [apply operation_codec| |].
  { intros r [[[[(_ & _ & ?) _] ?] _] _]. done. }
  intros op [Hop Hopt]. apply codec_ret. intros r. unfold request_ok. chain_close.
Qed.

Lemma encode_request_Ok r bs :
  NetdRequest_encode r = Ok bs <->
  NetdRequest_validate r = Ok tt /\ bs = request_bytes r /\ ensure_frame bs = Ok tt /\
  match operation r with
  | OpWithdrawPrefixes prefixes => Z.of_nat (length prefixes) <= MAX_ROUTES
  | _ => True
  end.
Proof.
  unfold NetdRequest_encode. destruct (NetdRequest_validate r) as [[]|]; simpl; [|by split; [|intros [? _]]].
  destruct (operation r);
    try (destruct (ensure_frame (request_bytes r)) as [[]|] eqn:E; simpl;
         split; [by intros [= <-]|by intros (_ & -> & _)|done|
                 by intros (_ & -> & ? & _); congruence]).
  destruct (Z.ltb_spec MAX_ROUTES (Z.of_nat (length prefixes))); simpl.
  - split; [done|]. intros (_ & _ & _ & ?). lia.
  - destruct (ensure_frame (request_bytes r)) as [[]|] eqn:E; simpl;
      split; [by intros [= <-]|by intros (_ & -> & _)|done|
              by intros (_ & -> & ? & _); congruence].
Qed.

Lemma request_ok_iff r :
  NetdRequest_validate r = Ok tt ->
  request_ok r <-> request_typed r /\
    match operation r with
    | OpWithdrawPrefixes prefixes => Z.of_nat (length prefixes) <= MAX_ROUTES
    | _ => True
    end.
Proof.
  unfold NetdRequest_validate. destruct (request_id r =? 0); [done|].
  destruct (LeaseOwner_validate (owner r)); [simpl|done].
  unfold request_ok, request_typed, operation_typed, operation_ok, declaration_ok.
  destruct (operation r); simpl; intros Hv; intuition.
Qed.

(** ** Responses *)

Definition body_typed (b : ResponseBody) : Prop :=
  match b with
  | RsPrepared g _ | RsCommitted g | RsRolledBack g | RsStatus _ g | RsLeaseRenewed g
  | RsSuspended g | RsReconfigured g | RsResumed g | RsDrained g | RsPolicyUpdated g => is_u 64 g
  | RsMtuUpdated g mtu => is_u 64 g /\ is_u 16 mtu
  | RsPrefixesWithdrawn g count => is_u 64 g /\ is_u 64 count
  | RsError _ => True
  end.

Definition response_typed (r : NetdResponse) : Prop :=
  is_u 64 (response_id r) /\ body_typed (body r).

(** The bytes [encode_body] returns when its checks pass. *)
Definition body_bytes (b : ResponseBody) : list Z :=
  match b with
  | RsPrepared g a => varint g ++ varint (bool_to_u64 a)
  | RsCommitted g | RsRolledBack g | RsLeaseRenewed g | RsSuspended g
  | RsReconfigured g | RsResumed g | RsDrained g | RsPolicyUpdated g => varint g
  | RsStatus p g => varint (SessionPhase_to_u64 p) ++ varint g
  | RsMtuUpdated g mtu => varint g ++ varint mtu
  | RsPrefixesWithdrawn g count => varint g ++ varint count
  | RsError c => varint (ErrorCode_to_u64 c)
  end.

Lemma encode_body_bytes b p : encode_body b = Ok p -> p = body_bytes b.
Proof.
  destruct b; simpl; try (destruct (valid_generation _); simpl; congruence).
  - destruct (if bool_decide _ then _ else _); simpl; congruence.
  - destruct (valid_generation _), (negb _); simpl; congruence.
  - congruence.
Qed.

Definition response_bytes (r : NetdResponse) : list Z :=
  varint NETD_PROTOCOL_VERSION ++ varint (response_tag (body r))
  ++ varint (response_id r) ++ body_bytes (body r).

Ltac body_shape := intros []; simpl; split; naive_solver.

Lemma decode_body_bad tag : ~ 1 <= tag <= 13 -> decode_body tag = mfail UnknownEnum.
Proof. intros H. unfold decode_body. enum_cases tag; by exfalso; apply H. Qed.

Lemma mtu_body_codec :
  codec (let* g := read_varint in
         let* mtu := read_varint_u 16 InvalidDeclaration in mret (RsMtuUpdated g mtu))
    body_bytes (fun b => body_typed b /\ response_tag b = 7).
Proof.
  apply (codec_inj2 _ _ varint varint (is_u 64) (is_u 16));
    [apply codec_varint|by apply codec_varint_u| |done]. body_shape.
Qed.

Lemma generation_body_codec (C : Z -> ResponseBody) t :
  (forall b, body_typed b /\ response_tag b = t <-> exists g, b = C g /\ is_u 64 g) ->
  (forall g, body_bytes (C g) = varint g) ->
  codec (let* g := read_varint in mret (C g)) body_bytes
    (fun b => body_typed b /\ response_tag b = t).
Proof. intros H1 H2. by apply (codec_inj _ _ _ _ _ _ codec_varint). Qed.

Lemma body_codec tag :
  codec (decode_body tag) body_bytes (fun b => body_typed b /\ response_tag b = tag).
Proof.
  destruct (decide (1 <= tag <= 13)) as [Ht|Ht].
  - assert (tag = 1 \/ tag = 2 \/ tag = 3 \/ tag = 4 \/ tag = 5 \/ tag = 6 \/ tag = 7
            \/ tag = 8 \/ tag = 9 \/ tag = 10 \/ tag = 11 \/ tag = 12 \/ tag = 13) as Hc by lia.
    destruct Hc as [->|[->|[->|[->|[->|[->|[->|[->|[->|[->|[->|[->| ->]]]]]]]]]]]].
    + apply (codec_inj2 _ _ varint (fun b : bool => varint (bool_to_u64 b)) (is_u 64) (fun _ => True));
        [apply codec_varint|apply codec_boolean|body_shape|done].
    + apply generation_body_codec; [body_shape|done].
    + apply generation_body_codec; [body_shape|done].
    + apply (codec_inj2 _ _ (fun p => varint (SessionPhase_to_u64 p)) varint (fun _ => True) (is_u 64));
        [apply SessionPhase_codec|apply codec_varint|body_shape|done].
    + apply generation_body_codec; [body_shape|done].
    + apply (codec_inj _ _ _ _ _ _ ErrorCode_codec); [body_shape|done].
    + apply mtu_body_codec.
    + apply generation_body_codec; [body_shape|done].
    + apply generation_body_codec; [body_shape|done].
    + apply generation_body_codec; [body_shape|done].
    + apply generation_body_codec; [body_shape|done].
    + apply (codec_inj2 _ _ varint varint (is_u 64) (is_u 64));
        [apply codec_varint|apply codec_varint|body_shape|done].
    + apply generation_body_codec; [body_shape|done].
  - rewrite decode_body_bad by done. apply codec_mfail. intros b [_ <-].
    apply Ht. destruct b; simpl; lia.
Qed.

Lemma response_codec : codec decode_response_fields response_bytes response_typed.
Proof.
  apply (codec_seq _ (fun _ => varint NETD_PROTOCOL_VERSION) (fun _ => True) _ (fun _ => tt));
    [apply version_codec|done|]. intros [] _.
  apply (codec_seq _ varint (is_u 64) _ (fun r => response_tag (body r)));
    [apply codec_varint| |].
  { intros r _. destruct (body r); by simpl. }
  intros tag Htag. apply (codec_seq _ varint (is_u 64) _ response_id); [apply codec_varint| |].
  { intros r [[Hr _] _]. apply Hr. }
  intros id Hid. apply (codec_last _ body_bytes
      (fun b => body_typed b /\ response_tag b = tag) _ body); [apply body_codec| |].
  { intros r [[[[_ ?] _] ?] _]. done. }
  intros b [Hb Hbt]. apply codec_ret. intros r. unfold response_typed. chain_close.
Qed.

Lemma encode_response_Ok r bs :
  NetdResponse_encode r = Ok bs -> bs = response_bytes r /\ ensure_frame bs = Ok tt.
Proof.
  unfold NetdResponse_encode. destruct (_ =? 0); [done|].
  destruct (encode_body (body r)) as [p|] eqn:E; [|done]. cbn [result_bind].
  apply encode_body_bytes in E as ->. fold (response_bytes r).
  destruct (ensure_frame (response_bytes r)) as [[]|] eqn:E; [|done]. by intros [= <-].
Qed.

Lemma response_decode_encode r bs :
  response_typed r -> NetdResponse_encode r = Ok bs -> NetdResponse_decode bs = Ok r.
Proof.
  intros Ht He. unfold NetdResponse_decode. pose proof (encode_response_Ok _ _ He) as [-> ->].
  eapply codec_frame_read; [apply response_codec|done|exact He].
Qed.

(** ** Frames *)

Lemma request_decode_encode r bs :
  request_typed r -> NetdRequest_encode r = Ok bs -> NetdRequest_decode bs = Ok r.
Proof.
  intros Ht (Hv & -> & Hf & Hc)%encode_request_Ok. unfold NetdRequest_decode. rewrite Hf.
  eapply codec_frame_read; [apply request_codec| |exact Hv]. by apply request_ok_iff.
Qed.

(** What a decoded request satisfies. *)
Lemma decoded_request bs r :
  Forall is_byte bs -> NetdRequest_decode bs = Ok r ->
  request_typed r /\ NetdRequest_validate r = Ok tt /\
  match operation r with
  | OpWithdrawPrefixes prefixes => Z.of_nat (length prefixes) <= MAX_ROUTES
  | _ => True
  end.
Proof.
  intros Hb. unfold NetdRequest_decode. destruct (ensure_frame bs) as [[]|] eqn:Hf; [|done].
  intros (Hok & <- & Hc)%(codec_frame_write _ _ _ _ _ _ request_codec); [|done].
  assert (Hv : NetdRequest_validate r = Ok tt) by (by destruct (NetdRequest_validate r) as [[]|]).
  by apply request_ok_iff in Hok as [Ht Hl].
Qed.

(** C23. Round trip: a request that [NetdRequest::encode] accepts is exactly what
    [NetdRequest::decode] reads back from the frame. *)
Theorem request_roundtrip r bs :
  request_typed r -> NetdRequest_encode r = Ok bs -> NetdRequest_decode bs = Ok r.
Proof. apply request_decode_encode. Qed.

(** Canonicity: every frame [NetdRequest::decode] accepts carries a well-typed
    request that [NetdRequest::encode] writes to the very same bytes, so no request has
    two encodings. *)
Theorem request_canonical bs r :
  Forall is_byte bs -> NetdRequest_decode bs = Ok r ->
  request_typed r /\ NetdRequest_encode r = Ok bs.
Proof.
  intros Hb. unfold NetdRequest_decode. destruct (ensure_frame bs) as [[]|] eqn:Hf; [|done].
  intros (Hok & <- & Hc)%(codec_frame_write _ _ _ _ _ _ request_codec); [|done].
  assert (Hv : NetdRequest_validate r = Ok tt) by (by destruct (NetdRequest_validate r) as [[]|]).
  apply request_ok_iff in Hok as [Ht Hl]; [|done]. split; [done|]. by apply encode_request_Ok.
Qed.

(** Responses: [NetdResponse::decode] inverts [NetdResponse::encode] on well-typed
    responses, and accepts no other frame. *)
Theorem response_frame_bijection r bs :
  Forall is_byte bs ->
  (response_typed r /\ NetdResponse_encode r = Ok bs) <-> NetdResponse_decode bs = Ok r.
Proof.
  intros Hb. unfold NetdResponse_decode. split.
  - intros [Ht He]. by apply (response_decode_encode r bs).
  - destruct (ensure_frame bs) as [[]|] eqn:Hf; [|done].
    intros (Hok & <- & Hc)%(codec_frame_write _ _ _ _ _ _ response_codec); [|done].
    split; [done|]. destruct (NetdResponse_encode r) as [bs'|] eqn:E; [|done].
    by apply encode_response_Ok in E as [-> _].
Qed.

(** ** What validation accepts *)

Lemma windows2_all_sorted {A} (ok : A -> A -> bool) (R : A -> A -> Prop) `{!Transitive R} l :
  (forall x y, ok x y = true <-> R x y) ->
  windows2_all ok l = true <-> StronglySorted R l.
Proof.
  intros Hok. transitivity (Sorted R l);
    [|split; [by apply Sorted_StronglySorted|apply StronglySorted_Sorted]].
  induction l as [|x [|y l] IH].
  - split; [constructor|done].
  - split; [by repeat constructor|done].
  - change (windows2_all ok (x :: y :: l)) with (ok x y && windows2_all ok (y :: l)).
    rewrite andb_true_iff, IH, Hok. split.
    + intros [H1 H2]. constructor; [done|by constructor].
    + intros H. inversion H as [|? ? ? Hd]; subst. inversion Hd; subst. done.
Qed.

Lemma existsb_false_iff {A} (f : A -> bool) l :
  existsb f l = false <-> Forall (fun x => f x = false) l.
Proof.
  induction l as [|x l IH]; simpl; [by split; [constructor|]|].
  by rewrite orb_false_iff, Forall_cons, IH.
Qed.

Definition key_lt (a b : Ipv4Prefix * Z) : Prop := key_cmp a b = Lt.

#[export] Instance key_lt_trans : Transitive key_lt.
Proof.
  intros [p i] [q j] [r k]. unfold key_lt, key_cmp. simpl.
  destruct (prefix_cmp p q) eqn:E1, (prefix_cmp q r) eqn:E2; try done;
    repeat match goal with H : prefix_cmp _ _ = Eq |- _ => apply prefix_cmp_eq in H; subst end;
    rewrite ?prefix_cmp_refl, ?E1, ?E2; try done.
  - intros. apply Z.compare_lt_iff. rewrite Z.compare_lt_iff in *. lia.
  - intros _ _. by rewrite (prefix_cmp_trans _ _ _ _ E1 E2).
Qed.

#[export] Instance key_lt_on_trans {T} (key : T -> Ipv4Prefix * Z) :
  Transitive (fun a b => key_lt (key a) (key b)).
Proof. intros a b c. apply key_lt_trans. Qed.

Lemma key_ltb_true {T} (key : T -> Ipv4Prefix * Z) x y :
  key_ltb (key x) (key y) = true <-> key_lt (key x) (key y).
Proof. unfold key_ltb, key_lt. by destruct (key_cmp _ _). Qed.

Definition covers (p : Ipv4Prefix) (address : list Z) : Prop :=
  first_address p <= from_be_bytes address <= last_address p.
Definition disjoint_prefixes (p q : Ipv4Prefix) : Prop :=
  last_address p < first_address q \/ last_address q < first_address p.

(** Routes to sites other than the egress default route. *)
Definition site_route (r : RouteDeclaration) : Prop := route_kind r <> RemoteEgress.

Record declaration_valid (d : PrepareDeclaration) : Prop := {
  valid_table : CANDY_TABLE_MIN <= table_id d <= CANDY_TABLE_MAX;
  valid_mtu : 576 <= effective_mtu d <= 1400;
  valid_route_count : 1 <= Z.of_nat (length (routes d)) <= MAX_ROUTES;
  valid_exclusion_count : 1 <= Z.of_nat (length (exclusions d)) <= MAX_EXCLUSIONS;
  valid_route_order :
    StronglySorted (fun a b => key_lt (route_key a) (route_key b)) (routes d);
  valid_exclusion_order :
    StronglySorted (fun a b => key_lt (exclusion_key a) (exclusion_key b)) (exclusions d);
  (** Only the egress route may be the default route. *)
  valid_site_len : Forall (fun r => site_route r -> prefix_len (route_prefix r) <> 0) (routes d);
  valid_exclusion_len : Forall (fun e => prefix_len (exclusion_prefix e) <> 0) (exclusions d);
  (** Site routes, exclusions and the router's own address do not meet. *)
  valid_sites_disjoint : ForallOrdPairs disjoint_prefixes (site_prefixes (routes d));
  valid_exclusions_disjoint :
    ForallOrdPairs disjoint_prefixes (map exclusion_prefix (exclusions d));
  valid_sites_exclusions : Forall (fun r => site_route r ->
      Forall (fun e => disjoint_prefixes (route_prefix r) (exclusion_prefix e)) (exclusions d))
    (routes d);
  valid_router_sites :
    Forall (fun r => site_route r -> ~ covers (route_prefix r) (overlay_router_ipv4 d)) (routes d);
  valid_router_exclusions :
    Forall (fun e => ~ covers (exclusion_prefix e) (overlay_router_ipv4 d)) (exclusions d);
  (** The router has a unicast address. *)
  valid_router : overlay_router_ipv4 d <> [0; 0; 0; 0] /\ nth 0 (overlay_router_ipv4 d) 0 < 224;
}.

Lemma in_range_false lo hi x : negb (in_range lo hi x) = false <-> lo <= x <= hi.
Proof. unfold in_range. rewrite negb_false_iff, andb_true_iff, !Z.leb_le. done. Qed.

Lemma bounds_ok d :
  declaration_bounds_bad d = false <->
  CANDY_TABLE_MIN <= table_id d <= CANDY_TABLE_MAX /\ 576 <= effective_mtu d <= 1400 /\
  1 <= Z.of_nat (length (routes d)) <= MAX_ROUTES /\
  1 <= Z.of_nat (length (exclusions d)) <= MAX_EXCLUSIONS.
Proof.
  unfold declaration_bounds_bad. rewrite !orb_false_iff, !in_range_false, !Z.ltb_ge.
  rewrite !bool_decide_eq_false.
  assert (Hnil : forall {A} (l : list A), l <> [] <-> 1 <= Z.of_nat (length l)).
  { intros A [|x l]; cbn [length]; split; [done|lia|lia|done]. }
  rewrite !Hnil. tauto.
Qed.

Lemma disjoint_overlaps p q :
  prefix_ok p -> prefix_ok q -> overlaps p q = false <-> disjoint_prefixes p q.
Proof. apply overlaps_ranges. Qed.

Lemma pairwise_disjoint l :
  Forall prefix_ok l -> has_prefix_overlap l = false <-> ForallOrdPairs disjoint_prefixes l.
Proof.
  intros Hl. rewrite has_prefix_overlap_false by done.
  split; apply (ForallOrdPairs_impl_in _ _ prefix_ok); try done;
    intros p q Hp Hq; by apply disjoint_overlaps.
Qed.

Lemma not_covers p a :
  prefix_ok p -> is_array 4 a -> contains p a = false <-> ~ covers p a.
Proof. intros Hp Ha. unfold covers. by rewrite <- not_true_iff_false, contains_iff. Qed.

Lemma guarded_false (b : bool) r :
  negb (is_remote_egress r) && b = false <-> (site_route r -> b = false).
Proof.
  unfold is_remote_egress, site_route. case_bool_decide; simpl; [|tauto]. tauto.
Qed.

Lemma site_prefixes_ok l :
  Forall (fun r => prefix_ok (route_prefix r)) l -> Forall prefix_ok (site_prefixes l).
Proof.
  induction 1 as [|r l Hr Hl IH]; simpl; [constructor|]. unfold site_prefixes in *. simpl.
  destruct (is_remote_egress r); [done|]. by constructor.
Qed.

Lemma Forall_iff_in {A} (P Q R : A -> Prop) l :
  Forall R l -> (forall x, R x -> P x <-> Q x) -> Forall P l <-> Forall Q l.
Proof.
  intros HR H. rewrite !Forall_forall in *. split; intros HP x Hx; apply H; auto.
Qed.

(** [PrepareDeclaration::validate] accepts exactly the declarations that meet the
    declarative specification: sizes in bounds, both lists strictly sorted, and the
    address ranges of the site routes, of the exclusions and the router's own address
    pairwise disjoint (the overlap sweep included). *)
Theorem validate_spec d :
  declaration_typed d -> PrepareDeclaration_validate d = Ok tt <-> declaration_valid d.
Proof.
  intros (_ & Hrouter & _ & Hrs & Hes).
  assert (Hv : PrepareDeclaration_validate d = Ok tt <->
               declaration_bounds_bad d = false /\ declaration_policy_bad d = false).
  { unfold PrepareDeclaration_validate.
    destruct (declaration_bounds_bad d), (declaration_policy_bad d); naive_solver. }
  rewrite Hv, bounds_ok. unfold declaration_policy_bad, strictly_sorted_by.
  rewrite !orb_false_iff, !negb_false_iff, !existsb_false_iff, !bool_decide_eq_false.
  rewrite !pairwise_disjoint by (by apply site_prefixes_ok || by rewrite Forall_map).
  rewrite (windows2_all_sorted _ (fun a b => key_lt (route_key a) (route_key b)))
    by apply key_ltb_true.
  rewrite (windows2_all_sorted _ (fun a b => key_lt (exclusion_key a) (exclusion_key b)))
    by apply key_ltb_true.
  rewrite (Forall_iff_in _ (fun r => site_route r -> prefix_len (route_prefix r) <> 0)
      _ (routes d) Hrs) by (intros r _; rewrite andb_comm, guarded_false, Z.eqb_neq; done).
  rewrite (Forall_iff_in (fun r => negb (is_remote_egress r) && existsb _ _ = false)
      (fun r => site_route r -> Forall (fun e =>
        disjoint_prefixes (route_prefix r) (exclusion_prefix e)) (exclusions d)) _ _ Hrs)
    by (intros r Hr; rewrite guarded_false, existsb_false_iff;
        rewrite (Forall_iff_in _ _ _ _ Hes (fun e He => disjoint_overlaps _ _ Hr He)); done).
  rewrite (Forall_iff_in (fun r => negb (is_remote_egress r) && contains _ _ = false)
      (fun r => site_route r -> ~ covers (route_prefix r) (overlay_router_ipv4 d)) _ _ Hrs)
    by (intros r Hr; rewrite guarded_false, not_covers by done; done).
  rewrite (Forall_iff_in (fun e => (_ =? _) = false) (fun e => prefix_len (exclusion_prefix e) <> 0)
      _ _ Hes) by (intros e _; apply Z.eqb_neq).
  rewrite (Forall_iff_in (fun e => contains _ _ = false)
      (fun e => ~ covers (exclusion_prefix e) (overlay_router_ipv4 d))
      _ _ Hes) by (intros e He; by apply not_covers).
  rewrite Z.leb_gt. split; [intros; destruct_and!; by constructor|intros []; tauto].
Qed.

(** ** Samples *)

Definition sample_prefix (a b len : Z) : Ipv4Prefix := mkIpv4Prefix [a; b; 0; 0] len.
Definition sample_declaration : PrepareDeclaration :=
  mkDeclaration 20001 [10; 9; 0; 1] 1400
    [mkRoute (sample_prefix 0 0 0) RemoteEgress; mkRoute (sample_prefix 10 1 16) Local;
     mkRoute (sample_prefix 10 2 16) Remote]
    [mkExclusion (sample_prefix 172 16 12) HubEndpoint]
    (mkFirewall true true true false).
Definition sample_owner : LeaseOwner := mkOwner (replicate 16 7) 42 3 1000.
Definition sample_request : NetdRequest := mkRequest 9 sample_owner (OpPrepare sample_declaration).
Definition sample_response : NetdResponse := mkResponse 9 (RsStatus PhActive 3).

Lemma sample_prefix_ok a b len :
  is_byte a -> is_byte b -> 0 <= len <= 32 ->
  from_be_bytes [a; b; 0; 0] mod 2 ^ (32 - len) = 0 -> prefix_ok (sample_prefix a b len).
Proof. intros. split; [|done]. split; [done|]. repeat (constructor; [done|]). constructor. Qed.

Lemma sample_declaration_typed : declaration_typed sample_declaration.
Proof.
  split_and!; [done| |done| |]; [split; [done|repeat (constructor; [done|]); constructor]|..];
    repeat (constructor; [by apply sample_prefix_ok|]); constructor.
Qed.

Lemma sample_request_typed : request_typed sample_request.
Proof.
  split_and!; [done| |apply sample_declaration_typed].
  split_and!; [|done..]. split; [done|]. repeat (constructor; [done|]). constructor.
Qed.

Lemma request_roundtrip_witness :
  request_typed sample_request /\
  NetdRequest_decode (request_bytes sample_request) = Ok sample_request.
Proof.
  split; [exact sample_request_typed|].
  apply (request_roundtrip sample_request (request_bytes sample_request));
    [exact sample_request_typed|vm_compute; reflexivity].
Defined.

Lemma bytes_decide l : forallb (fun b => (0 <=? b) && (b <? 256)) l = true -> Forall is_byte l.
Proof.
  intros H. apply Forall_forall. intros b Hb. apply list_elem_of_In in Hb.
  rewrite forallb_forall in H. specialize (H b Hb). unfold is_byte, is_u.
  rewrite andb_true_iff, Z.leb_le, Z.ltb_lt in H. done.
Qed.

Lemma request_canonical_witness :
  request_typed sample_request /\
  NetdRequest_encode sample_request = Ok (request_bytes sample_request).
Proof.
  apply (request_canonical (request_bytes sample_request));
    [by apply bytes_decide; vm_compute|vm_compute; reflexivity].
Defined.

Lemma response_frame_bijection_witness :
  NetdResponse_decode (response_bytes sample_response) = Ok sample_response.
Proof.
  apply (response_frame_bijection sample_response (response_bytes sample_response));
    [by apply bytes_decide; vm_compute|]. split; [by split|vm_compute; reflexivity].
Defined.

Lemma validate_spec_witness : declaration_valid sample_declaration.
Proof.
  apply (validate_spec sample_declaration);
    [exact sample_declaration_typed|vm_compute; reflexivity].
Defined.
