(* ===== verification/Session.v ===== *)
(** * The lifecycle fence of netd

    [NetdSession] of [candy-netd-proto/src/lib.rs]: which request a session admits in
    which phase, who may send it, and under which generation. *)
From stdpp Require Import base tactics list numbers option sorting.
From Stdlib Require Import ZArith Lia.
From S2P Require Import Prelude Ipv4 Wire Proto ProtoFacts.

Inductive NetdSessionError : Type :=
| SeGenerationConflict
| SeInvalidTransition
| SeOwnerMismatch
| SeInvalidDeclaration.

#[export] Instance NetdSessionError_eq_dec : EqDecision NetdSessionError.
Proof. solve_decision. Defined.

Record NetdSession : Type := mkSession {
  phase : SessionPhase;
  session_owner : option LeaseOwner;
  session_declaration : option PrepareDeclaration;
  replacement_pending : bool;
}.

#[export] Instance NetdSession_eq_dec : EqDecision NetdSession.
Proof. solve_decision. Defined.

Definition NetdSession_new : NetdSession := mkSession PhStopped None None false.

Definition with_phase (p : SessionPhase) (s : NetdSession) : NetdSession :=
  mkSession p (session_owner s) (session_declaration s) (replacement_pending s).
Definition with_owner (o : option LeaseOwner) (s : NetdSession) : NetdSession :=
  mkSession (phase s) o (session_declaration s) (replacement_pending s).
Definition with_declaration (d : option PrepareDeclaration) (s : NetdSession) : NetdSession :=
  mkSession (phase s) (session_owner s) d (replacement_pending s).
Definition with_pending (b : bool) (s : NetdSession) : NetdSession :=
  mkSession (phase s) (session_owner s) (session_declaration s) b.

Definition same_generation_retry_except_exclusions (retained retry : PrepareDeclaration) : bool :=
  bool_decide (table_id retained = table_id retry)
  && bool_decide (overlay_router_ipv4 retained = overlay_router_ipv4 retry)
  && bool_decide (effective_mtu retained = effective_mtu retry)
  && bool_decide (routes retained = routes retry)
  && bool_decide (firewall retained = firewall retry).

Definition is_prepare (op : NetdOperation) : bool :=
  match op with OpPrepare _ => true | _ => false end.
Definition is_reconfigure (op : NetdOperation) : bool :=
  match op with OpReconfigure _ => true | _ => false end.
Definition is_commit_or_renew (op : NetdOperation) : bool :=
  match op with OpCommit | OpLeaseRenew => true | _ => false end.

(** ** The owner fence *)

(** What the chain of conditions at the head of [apply] decides: [FenceSame] leaves
    both flags false, the other two set [advancing_generation] and
    [reconfigure_generation]. *)
Inductive Fence : Type := FenceSame | FenceAdvancing | FenceReconfigure.

#[export] Instance Fence_eq_dec : EqDecision Fence.
Proof. solve_decision. Defined.

Definition same_process (a b : LeaseOwner) : bool :=
  bool_decide (instance_id a = instance_id b) && bool_decide (pid a = pid b).

Definition owner_fence (s : NetdSession) (request : NetdRequest)
  : Result NetdSessionError Fence :=
  match session_owner s with
  | None => Ok FenceSame
  | Some o =>
      let r := owner request in
      let stopped_prepare :=
        bool_decide (phase s = PhStopped) && is_prepare (operation request) in
      let other_generation := negb (generation r =? generation o) in
      if stopped_prepare && (generation o <? generation r) then Ok FenceAdvancing
      else if bool_decide (phase s = PhSuspended) && is_reconfigure (operation request)
              && same_process r o && other_generation then Ok FenceReconfigure
      else if bool_decide (phase s = PhActive) && is_reconfigure (operation request)
              && same_process r o && other_generation then Ok FenceReconfigure
      else if bool_decide (phase s = PhActive) && is_commit_or_renew (operation request)
              && same_process r o && other_generation then Ok FenceReconfigure
      else if stopped_prepare && (generation o =? generation r) then Ok FenceSame
      else if stopped_prepare && (generation r <? generation o) then Err SeGenerationConflict
      else if negb (same_process o r) then Err SeOwnerMismatch
      else if other_generation then Err SeGenerationConflict
      else Ok FenceSame
  end.

Definition apply_fence (f : Fence) (request : NetdRequest) (s : NetdSession) : NetdSession :=
  match f with
  | FenceSame => s
  | FenceAdvancing => with_declaration None (with_owner None s)
  | FenceReconfigure => with_owner (Some (owner request)) s
  end.

(** ** The operations *)

Definition SessM (A : Type) : Type := M NetdSession NetdSessionError A.

Definition apply_prepare (o : LeaseOwner) (declaration : PrepareDeclaration) : SessM unit :=
  let* existing := gets session_declaration in
  let* ph := gets phase in
  match existing with
  | Some existing =>
      do* (if negb (bool_decide (existing = declaration)) then
             if bool_decide (ph = PhStopped)
                && same_generation_retry_except_exclusions existing declaration
             then modify (with_declaration (Some declaration))
             else mfail SeGenerationConflict
           else mret tt) in
      if bool_decide (ph = PhStopped)
      then do* modify (with_owner (Some o)) in modify (with_phase PhPrepared)
      else mret tt
  | None =>
      if negb (bool_decide (ph = PhStopped)) then mfail SeInvalidTransition
      else
        do* modify (with_owner (Some o)) in
        do* modify (with_declaration (Some declaration)) in
        modify (with_phase PhPrepared)
  end.

Definition apply_commit : SessM unit :=
  let* ph := gets phase in
  match ph with
  | PhPrepared =>
      let* pending := gets replacement_pending in
      modify (with_phase (if pending : bool then PhDraining else PhActive))
  | PhActive | PhDraining => mret tt
  | PhStopped | PhSuspended => mfail SeInvalidTransition
  end.

(** [if self.owner.is_none() { return Err(InvalidTransition) }]. *)
Definition require_owner : SessM unit :=
  let* o := gets session_owner in
  if bool_decide (o = None) then mfail SeInvalidTransition else mret tt.

(** [if self.phase != p { return Err(InvalidTransition) }]. *)
Definition require_phase (p : SessionPhase) : SessM unit :=
  let* ph := gets phase in
  if negb (bool_decide (ph = p)) then mfail SeInvalidTransition else mret tt.

Definition declaration_with_mtu (mtu : Z) (d : PrepareDeclaration) : PrepareDeclaration :=
  mkDeclaration (table_id d) (overlay_router_ipv4 d) mtu (routes d) (exclusions d) (firewall d).

Definition apply_mtu_update (mtu : Z) : SessM unit :=
  let* s := gets id in
  let current := match session_declaration s with
                 | Some value => Proto.effective_mtu value
                 | None => 576
                 end in
  if negb (bool_decide (phase s = PhActive)) || (current <=? mtu)
  then mfail SeInvalidTransition
  else
    let* d := lift (ok_or (session_declaration s) SeInvalidTransition) in
    modify (with_declaration (Some (declaration_with_mtu mtu d))).

Definition apply_reconfigure (declaration : PrepareDeclaration) : SessM unit :=
  let* s := gets id in
  let same := bool_decide (session_declaration s = Some declaration) in
  if bool_decide (phase s = PhPrepared) && replacement_pending s then
    if same then mret tt else mfail SeGenerationConflict
  else if negb (bool_decide (phase s = PhSuspended)) && negb (bool_decide (phase s = PhActive))
  then mfail SeInvalidTransition
  else if bool_decide (phase s = PhSuspended)
  then modify (with_declaration (Some declaration))
  else if negb same then
    do* modify (with_declaration (Some declaration)) in
    do* modify (with_pending true) in
    modify (with_phase PhPrepared)
  else mret tt.

Definition tunnel_identity_changed (current declaration : PrepareDeclaration) : bool :=
  negb (bool_decide (table_id current = table_id declaration))
  || negb (bool_decide (overlay_router_ipv4 current = overlay_router_ipv4 declaration))
  || negb (bool_decide (Proto.effective_mtu current = Proto.effective_mtu declaration))
  || negb (bool_decide (exclusions current = exclusions declaration)).

Definition apply_policy_update (declaration : PrepareDeclaration) : SessM unit :=
  let* s := gets id in
  if negb (bool_decide (phase s = PhActive) || bool_decide (phase s = PhSuspended))
  then mfail SeInvalidTransition
  else
    let* current := lift (ok_or (session_declaration s) SeInvalidTransition) in
    if tunnel_identity_changed current declaration then mfail SeInvalidTransition
    else modify (with_declaration (Some declaration)).

Definition apply_operation (request : NetdRequest) : SessM unit :=
  match operation request with
  | OpPrepare declaration => apply_prepare (owner request) declaration
  | OpCommit => apply_commit
  | OpRollback =>
      do* require_owner in
      do* modify (with_phase PhStopped) in
      modify (with_pending false)
  | OpStatus => mret tt
  | OpLeaseRenew =>
      do* require_owner in
      modify (with_owner (Some (owner request)))
  | OpMtuUpdate mtu => apply_mtu_update mtu
  | OpSuspend => do* require_phase PhActive in modify (with_phase PhSuspended)
  | OpReconfigure declaration => apply_reconfigure declaration
  | OpResume => do* require_phase PhSuspended in modify (with_phase PhActive)
  | OpDrain _ =>
      do* require_phase PhDraining in
      do* modify (with_phase PhActive) in
      modify (with_pending false)
  | OpWithdrawPrefixes _ => require_phase PhActive
  | OpPolicyUpdate declaration => apply_policy_update declaration
  end.

(** [NetdSession::apply]. *)
Definition apply (request : NetdRequest) : SessM unit :=
  do* lift (map_err (fun _ => SeInvalidDeclaration) (NetdRequest_validate request)) in
  let* s := gets id in
  let* fence := lift (owner_fence s request) in
  do* modify (apply_fence fence request) in
  apply_operation request.

(** ** The transitions a session promises

    The lifecycle as a relation: what each operation may do to a session, once the
    fence has let its sender through. *)
Inductive transition (o : LeaseOwner) : NetdOperation -> NetdSession -> NetdSession -> Prop :=
| tr_prepare_fresh d so pend :
    transition o (OpPrepare d) (mkSession PhStopped so None pend)
      (mkSession PhPrepared (Some o) (Some d) pend)
| tr_prepare_retry d d0 so pend :
    d0 = d \/ same_generation_retry_except_exclusions d0 d = true ->
    transition o (OpPrepare d) (mkSession PhStopped so (Some d0) pend)
      (mkSession PhPrepared (Some o) (Some d) pend)
| tr_prepare_duplicate d s :
    phase s <> PhStopped -> session_declaration s = Some d -> transition o (OpPrepare d) s s
| tr_commit so sd :
    transition o OpCommit (mkSession PhPrepared so sd false) (mkSession PhActive so sd false)
| tr_commit_replacement so sd :
    transition o OpCommit (mkSession PhPrepared so sd true) (mkSession PhDraining so sd true)
| tr_commit_duplicate s :
    phase s = PhActive \/ phase s = PhDraining -> transition o OpCommit s s
| tr_rollback ph o0 sd pend :
    transition o OpRollback (mkSession ph (Some o0) sd pend) (mkSession PhStopped (Some o0) sd false)
| tr_status s : transition o OpStatus s s
| tr_renew ph o0 sd pend :
    transition o OpLeaseRenew (mkSession ph (Some o0) sd pend) (mkSession ph (Some o) sd pend)
| tr_mtu mtu so d pend :
    mtu < Proto.effective_mtu d ->
    transition o (OpMtuUpdate mtu) (mkSession PhActive so (Some d) pend)
      (mkSession PhActive so (Some (declaration_with_mtu mtu d)) pend)
| tr_suspend so sd pend :
    transition o OpSuspend (mkSession PhActive so sd pend) (mkSession PhSuspended so sd pend)
| tr_resume so sd pend :
    transition o OpResume (mkSession PhSuspended so sd pend) (mkSession PhActive so sd pend)
| tr_drain now so sd pend :
    transition o (OpDrain now) (mkSession PhDraining so sd pend) (mkSession PhActive so sd false)
| tr_withdraw prefixes s :
    phase s = PhActive -> transition o (OpWithdrawPrefixes prefixes) s s
| tr_reconfigure_stage d so sd pend :
    sd <> Some d ->
    transition o (OpReconfigure d) (mkSession PhActive so sd pend)
      (mkSession PhPrepared so (Some d) true)
| tr_reconfigure_duplicate d s :
    session_declaration s = Some d ->
    phase s = PhActive \/ (phase s = PhPrepared /\ replacement_pending s = true) ->
    transition o (OpReconfigure d) s s
| tr_reconfigure_suspended d so sd pend :
    transition o (OpReconfigure d) (mkSession PhSuspended so sd pend)
      (mkSession PhSuspended so (Some d) pend)
| tr_policy d d0 ph so pend :
    ph = PhActive \/ ph = PhSuspended ->
    table_id d0 = table_id d -> overlay_router_ipv4 d0 = overlay_router_ipv4 d ->
    Proto.effective_mtu d0 = Proto.effective_mtu d -> exclusions d0 = exclusions d ->
    transition o (OpPolicyUpdate d) (mkSession ph so (Some d0) pend)
      (mkSession ph so (Some d) pend).

(** Whom the fence lets through, and what it does to the session before the operation:
    the owner may always continue; anybody may prepare again on a stopped session, never
    under an older generation; the owner's process may move to another generation by a
    reconfiguration, or by the commit or renewal that follows one. *)
Inductive admitted (s : NetdSession) (request : NetdRequest) : NetdSession -> Prop :=
| adm_unowned : session_owner s = None -> admitted s request s
| adm_owner o :
    session_owner s = Some o -> instance_id o = instance_id (owner request) ->
    pid o = pid (owner request) -> generation o = generation (owner request) ->
    admitted s request s
| adm_retry o d :
    session_owner s = Some o -> phase s = PhStopped -> operation request = OpPrepare d ->
    generation o = generation (owner request) -> admitted s request s
| adm_advance o d :
    session_owner s = Some o -> phase s = PhStopped -> operation request = OpPrepare d ->
    generation o < generation (owner request) ->
    admitted s request (mkSession PhStopped None None (replacement_pending s))
| adm_replace o :
    session_owner s = Some o -> instance_id o = instance_id (owner request) ->
    pid o = pid (owner request) -> generation o <> generation (owner request) ->
    ((phase s = PhActive \/ phase s = PhSuspended) /\
       (exists d, operation request = OpReconfigure d)) \/
    (phase s = PhActive /\ (operation request = OpCommit \/ operation request = OpLeaseRenew)) ->
    admitted s request (with_owner (Some (owner request)) s).

(** Sessions reachable from a fresh one by requests, admitted or refused. *)
Inductive reachable : NetdSession -> Prop :=
| reachable_new : reachable NetdSession_new
| reachable_apply s request : reachable s -> reachable (apply request s).2.

(** ** Running the operations *)

#[local] Ltac run_session :=
  unfold apply_operation, apply_prepare, apply_commit, apply_mtu_update, apply_reconfigure,
    apply_policy_update, require_owner, require_phase, mbind, gets, modify, lift, mret, mfail,
    ok_or, id in *;
  repeat (case_match || (case_bool_decide; simplify_eq/=)); simplify_eq/=.

(** What admission by the fence gives, by case. *)
Lemma owner_fence_ok s request f :
  owner_fence s request = Ok f ->
  match session_owner s, f with
  | None, _ => f = FenceSame
  | Some o, FenceAdvancing =>
      phase s = PhStopped /\ is_prepare (operation request) = true /\
      generation o < generation (owner request)
  | Some o, FenceReconfigure =>
      same_process (owner request) o = true /\ generation (owner request) <> generation o /\
      ((phase s = PhSuspended /\ is_reconfigure (operation request) = true) \/
       (phase s = PhActive /\ (is_reconfigure (operation request) = true \/
                              is_commit_or_renew (operation request) = true)))
  | Some o, FenceSame =>
      generation (owner request) = generation o /\
      ((phase s = PhStopped /\ is_prepare (operation request) = true) \/
       same_process o (owner request) = true)
  end.
Proof.
  unfold owner_fence. destruct (session_owner s) as [o|]; [|by intros [= <-]].
  repeat case_bool_decide;
    destruct (is_prepare (operation request)), (is_reconfigure (operation request)),
      (is_commit_or_renew (operation request)), (same_process (owner request) o),
      (same_process o (owner request)),
      (Z.eqb_spec (generation (owner request)) (generation o)),
      (Z.ltb_spec (generation o) (generation (owner request))),
      (Z.eqb_spec (generation o) (generation (owner request))),
      (Z.ltb_spec (generation (owner request)) (generation o));
    simpl; intros [= <-]; try lia; naive_solver.
Qed.

Lemma apply_cases request s r s' :
  apply request s = (r, s') ->
  (s' = s /\ is_err r = true) \/
  (NetdRequest_validate request = Ok tt /\
   exists f, owner_fence s request = Ok f /\
     apply_operation request (apply_fence f request s) = (r, s')).
Proof.
  unfold apply, mbind, lift, gets, modify, id.
  destruct (NetdRequest_validate request) as [[]|]; simpl; [|intros [= <- <-]; by left].
  destruct (owner_fence s request) as [f|] eqn:E; [|intros [= <- <-]; by left].
  intros H. right. split; [done|]. by exists f.
Qed.

(** ** Refinement of the transitions *)

Lemma tunnel_identity_unchanged d0 d :
  tunnel_identity_changed d0 d = false <->
  table_id d0 = table_id d /\ overlay_router_ipv4 d0 = overlay_router_ipv4 d /\
  Proto.effective_mtu d0 = Proto.effective_mtu d /\ exclusions d0 = exclusions d.
Proof.
  unfold tunnel_identity_changed.
  rewrite !orb_false_iff, !negb_false_iff, !bool_decide_eq_true. tauto.
Qed.

Lemma apply_operation_sound request s s' :
  apply_operation request s = (Ok tt, s') ->
  transition (owner request) (operation request) s s'.
Proof.
  destruct request as [rid o op], s as [ph [o0|] [d0|] pend]; unfold apply_operation; simpl;
    destruct op; intros H; run_session; try done;
    repeat match goal with
    | H : _ || _ = false |- _ => apply orb_false_iff in H as [? ?]
    | H : (_ <=? _) = false |- _ => apply Z.leb_gt in H
    | H : tunnel_identity_changed _ _ = false |- _ =>
        apply tunnel_identity_unchanged in H as (? & ? & ? & ?)
    end;
    solve [constructor; simpl; naive_solver].
Qed.

Lemma apply_operation_complete request s s' :
  transition (owner request) (operation request) s s' ->
  apply_operation request s = (Ok tt, s').
Proof.
  destruct request as [rid o op]. unfold apply_operation. simpl.
  intros []; repeat match goal with s : NetdSession |- _ => destruct s end; simpl in *; subst.
  all: try by run_session.
  - unfold apply_prepare, mbind, gets, modify, mret. simpl.
    destruct (decide (d0 = d)) as [->|Hne].
    + by rewrite bool_decide_eq_true_2.
    + destruct H as [->|H]; [done|]. rewrite bool_decide_eq_false_2 by done. simpl. by rewrite H.
  - destruct H as [-> | ->]; done.
  - unfold apply_mtu_update, mbind, gets, lift, modify, id. simpl.
    by rewrite (proj2 (Z.leb_gt _ mtu)).
  - destruct H0 as [-> |[-> ->]]; run_session; done.
  - unfold apply_policy_update, mbind, gets, lift, modify, id. simpl.
    rewrite (proj2 (tunnel_identity_unchanged d0 d)) by done. by destruct H as [-> | ->].
Qed.

(** ** Invariants *)

Record session_inv (s : NetdSession) : Prop := {
  (** Owner and declaration are acquired together and kept. *)
  inv_together : session_owner s = None <-> session_declaration s = None;
  inv_acquired : phase s <> PhStopped -> session_owner s <> None;
  (** Only a staged replacement is prepared or drained with the marker set. *)
  inv_pending : replacement_pending s = true -> phase s = PhPrepared \/ phase s = PhDraining;
  inv_draining : phase s = PhDraining -> replacement_pending s = true;
  (** The retained declaration and owner are valid. *)
  inv_declaration : forall d, session_declaration s = Some d -> PrepareDeclaration_validate d = Ok tt;
  inv_owner : forall o, session_owner s = Some o -> LeaseOwner_validate o = Ok tt;
}.

Lemma validate_with_mtu d mtu :
  PrepareDeclaration_validate d = Ok tt -> 576 <= mtu <= 1400 ->
  PrepareDeclaration_validate (declaration_with_mtu mtu d) = Ok tt.
Proof.
  unfold PrepareDeclaration_validate. destruct (declaration_bounds_bad d) eqn:E; [done|].
  intros H Hm. replace (declaration_bounds_bad (declaration_with_mtu mtu d)) with false; [done|].
  symmetry. apply bounds_ok. apply bounds_ok in E. destruct d; simpl in *. tauto.
Qed.

Lemma request_valid request :
  NetdRequest_validate request = Ok tt ->
  LeaseOwner_validate (owner request) = Ok tt /\ operation_validate (operation request) = Ok tt.
Proof.
  unfold NetdRequest_validate. destruct (request_id request =? 0); [done|].
  by destruct (LeaseOwner_validate (owner request)) as [[]|].
Qed.

Lemma apply_operation_error request s e s' :
  apply_operation request s = (Err e, s') -> s' = s.
Proof.
  destruct request as [rid o op]. unfold apply_operation. simpl.
  destruct op; intros H; run_session; done.
Qed.

(** The state after the fence. *)
Definition fenced (s : NetdSession) (request : NetdRequest) (s1 : NetdSession) : Prop :=
  NetdRequest_validate request = Ok tt /\
  exists f, owner_fence s request = Ok f /\ s1 = apply_fence f request s.

Lemma apply_ok s request s' :
  apply request s = (Ok tt, s') <->
  exists s1, fenced s request s1 /\ transition (owner request) (operation request) s1 s'.
Proof.
  split.
  - intros [[_ Herr]|(Hv & f & Hf & H)]%apply_cases; [done|].
    exists (apply_fence f request s). split; [by split; [|exists f]|].
    by apply apply_operation_sound.
  - intros (s1 & (Hv & f & Hf & ->) & H). unfold apply, mbind, lift, gets, modify, id.
    rewrite Hv. simpl. rewrite Hf. by apply apply_operation_complete.
Qed.

(** After the fence moved the owner, the operation cannot be refused. *)
Lemma fenced_moved s request f :
  owner_fence s request = Ok f -> f <> FenceSame ->
  exists s', apply_operation request (apply_fence f request s) = (Ok tt, s').
Proof.
  intros Hf Hne. apply owner_fence_ok in Hf.
  destruct s as [ph [o0|] sd pend], f; simpl in Hf; try done.
  - destruct Hf as (-> & Hop & _), request as [rid o []]; done || (eexists; reflexivity).
  - destruct Hf as (_ & _ & [[-> Hop]|[-> Hop]]), request as [rid o []]; simpl in Hop;
      try (destruct Hop; done); try done; try (eexists; reflexivity);
      unfold apply_operation, apply_reconfigure, mbind, gets, modify, mret; simpl;
      try case_bool_decide; eexists; reflexivity.
Qed.

Lemma same_process_iff a b :
  same_process a b = true <-> instance_id a = instance_id b /\ pid a = pid b.
Proof. unfold same_process. rewrite andb_true_iff, !bool_decide_eq_true. done. Qed.

Lemma fence_admitted s request f :
  owner_fence s request = Ok f -> admitted s request (apply_fence f request s).
Proof.
  intros H. apply owner_fence_ok in H. destruct (session_owner s) as [o|] eqn:Eo.
  2:{ subst f. by constructor. }
  destruct request as [rid ow op], f; simpl in *; rewrite ?same_process_iff in H.
  - destruct H as [Hg [[Hp Hop]|[Hi Hpid]]].
    + destruct op; try done. by eapply (adm_retry _ _ o).
    + by apply (adm_owner _ _ o).
  - destruct H as (Hp & Hop & Hg). destruct op; try done.
    unfold with_declaration, with_owner. simpl. rewrite Hp.
    by apply (adm_advance _ _ o declaration).
  - destruct H as ([Hi Hpid] & Hg & H). apply (adm_replace s (mkRequest rid ow op) o); try done.
    destruct H as [[Hp Hop]|[Hp Hop]], op; naive_solver.
Qed.

Lemma admitted_fence s request s1 :
  admitted s request s1 -> exists f, owner_fence s request = Ok f /\ s1 = apply_fence f request s.
Proof.
  destruct request as [rid ow op]. unfold owner_fence.
  intros [Ho|o Ho Hi Hpid Hg|o d Ho Hp Hop Hg|o d Ho Hp Hop Hg|o Ho Hi Hpid Hg H];
    simpl in *; rewrite Ho.
  - by exists FenceSame.
  - exists FenceSame. split; [|done]. rewrite Hg, Z.ltb_irrefl, Z.eqb_refl, !andb_false_r.
    rewrite andb_true_r. destruct (_ && is_prepare op); [done|].
    by rewrite (proj2 (same_process_iff o ow)).
  - exists FenceSame. split; [|done]. rewrite Hp, Hop, Hg, Z.ltb_irrefl, Z.eqb_refl. done.
  - exists FenceAdvancing. rewrite Hp, Hop, (proj2 (Z.ltb_lt _ _) Hg). split; [done|].
    by destruct s; simpl in *; subst.
  - exists FenceReconfigure. split; [|done].
    rewrite (proj2 (same_process_iff ow o)), (proj2 (Z.eqb_neq _ _) (not_eq_sym Hg)) by done.
    destruct H as [[[->| ->] [d ->]]|[-> [->| ->]]]; done.
Qed.

Lemma fenced_iff s request s1 :
  fenced s request s1 <-> NetdRequest_validate request = Ok tt /\ admitted s request s1.
Proof.
  unfold fenced. split; intros [Hv H]; (split; [done|]).
  - destruct H as (f & Hf & ->). by apply fence_admitted.
  - by apply admitted_fence.
Qed.

Lemma apply_error request s e s' : apply request s = (Err e, s') -> s' = s.
Proof.
  intros [[-> _]|(Hv & f & Hf & H)]%apply_cases; [done|].
  destruct (decide (f = FenceSame)) as [->|Hne]; [by apply apply_operation_error in H|].
  destruct (fenced_moved _ _ _ Hf Hne) as [s2 H2]. congruence.
Qed.

(** C14. [NetdSession::apply] implements the lifecycle specification: it accepts exactly
    the valid requests whose sender is admitted and whose operation has a transition from
    the admitted session, it ends in the state that transition gives, and a refused
    request leaves the session untouched. *)
Theorem session_refinement request s r s' :
  apply request s = (r, s') ->
  match r with
  | Ok _ => NetdRequest_validate request = Ok tt /\
            exists s1, admitted s request s1 /\
              transition (owner request) (operation request) s1 s'
  | Err _ => s' = s /\
             ~ (NetdRequest_validate request = Ok tt /\
                exists s1 s2, admitted s request s1 /\
                  transition (owner request) (operation request) s1 s2)
  end.
Proof.
  destruct r as [[]|e]; intros H.
  - apply apply_ok in H as (s1 & [Hv Ha]%fenced_iff & H). eauto.
  - split; [by eapply apply_error|]. intros (Hv & s1 & s2 & Ha & Ht).
    assert (H2 : apply request s = (Ok tt, s2)); [|congruence].
    apply apply_ok. exists s1. by rewrite fenced_iff.
Qed.

Lemma admitted_session_inv request s s1 :
  LeaseOwner_validate (owner request) = Ok tt -> session_inv s -> admitted s request s1 ->
  session_inv s1.
Proof.
  intros Hv [I1 I2 I3 I4 I5 I6] []; [by constructor..| |].
  - constructor; simpl; try done. intros Hp. destruct (I3 Hp); congruence.
  - constructor; simpl; try done; [|by intros ? [= <-]].
    rewrite <- I1. split; congruence.
Qed.

Lemma transition_session_inv o op s s' :
  LeaseOwner_validate o = Ok tt -> operation_validate op = Ok tt ->
  session_inv s -> transition o op s s' -> session_inv s'.
Proof.
  intros Ho Hop [I1 I2 I3 I4 I5 I6] H.
  destruct H; simpl in *;
    try (constructor; simpl; (assumption || (intros; simplify_eq; auto; intuition congruence))).
  constructor; simpl; try assumption.
  - rewrite I1. done.
  - intros d0 [= <-]. apply validate_with_mtu; [by apply I5|].
    destruct (negb _) eqn:E in Hop; [done|]. by apply in_range_false in E.
Qed.

Lemma apply_session_inv request s : session_inv s -> session_inv (apply request s).2.
Proof.
  intros Hs. destruct (apply request s) as [[[]|e] s'] eqn:H; simpl.
  2:{ by apply apply_error in H as ->. }
  apply apply_ok in H as (s1 & [Hv Ha]%fenced_iff & H).
  apply request_valid in Hv as [Ho Hop].
  eapply transition_session_inv; [exact Ho|exact Hop| |exact H].
  by eapply admitted_session_inv.
Qed.

(** Every session reachable by any sequence of requests, admitted or refused, keeps
    its invariant: owner and declaration are acquired together and present outside
    [Stopped], the replacement marker is set in [Draining] and otherwise only in
    [Prepared], and the retained owner and declaration are valid. *)
Theorem session_reachable_inv s : reachable s -> session_inv s.
Proof.
  induction 1 as [|s request _ IH]; [by constructor|]. by apply apply_session_inv.
Qed.

Lemma transition_prepare_stopped o d s s' :
  transition o (OpPrepare d) s s' -> phase s = PhStopped ->
  session_owner s' = Some o /\
  forall d0, session_declaration s = Some d0 ->
    d0 = d \/ same_generation_retry_except_exclusions d0 d = true.
Proof. inversion 1; subst; simpl; try done; naive_solver. Qed.

(** Fencing: another process gets hold of an owned session only after its owner
    stopped it, by a preparation that does not go back to an older generation; under the
    same generation the declaration must be the retained one up to its exclusions. *)
Theorem foreign_takeover request s s' o :
  apply request s = (Ok tt, s') -> session_owner s = Some o ->
  ~ (instance_id o = instance_id (owner request) /\ pid o = pid (owner request)) ->
  phase s = PhStopped /\ session_owner s' = Some (owner request) /\
  generation o <= generation (owner request) /\
  exists d, operation request = OpPrepare d /\
    (generation o = generation (owner request) -> forall d0, session_declaration s = Some d0 ->
     d0 = d \/ same_generation_retry_except_exclusions d0 d = true).
Proof.
  intros (s1 & [Hv Ha]%fenced_iff & Ht)%apply_ok Ho Hne.
  destruct Ha as [Hn|o1 Ho1 Hi Hp Hg|o1 d Ho1 Hph Hop Hg|o1 d Ho1 Hph Hop Hg|o1 Ho1 Hi Hp Hg _];
    simplify_eq; [tauto| | |tauto].
  - rewrite Hop in *. destruct (transition_prepare_stopped _ _ _ _ Ht Hph) as [H1 H2].
    split_and!; [done..|lia|]. eauto.
  - rewrite Hop in *. destruct (transition_prepare_stopped _ _ _ _ Ht eq_refl) as [H1 H2].
    split_and!; [done..|lia|]. exists d. split; [done|]. lia.
Qed.

Definition retry_safe (op : NetdOperation) : bool :=
  match op with
  | OpMtuUpdate _ | OpSuspend | OpResume | OpDrain _ => false
  | _ => true
  end.

Lemma transition_again o op s s' :
  retry_safe op = true -> transition o op s s' -> transition o op s' s'.
Proof.
  intros Hr H. destruct H; try done; try (constructor; simpl; tauto || done).
Qed.

Lemma transition_owner o op s s' :
  transition o op s s' -> session_owner s' = session_owner s \/ session_owner s' = Some o.
Proof. destruct 1; simpl; auto. Qed.

Lemma admitted_again request s s1 s' :
  admitted s request s1 -> transition (owner request) (operation request) s1 s' ->
  admitted s' request s'.
Proof.
  intros Ha Ht.
  assert (Hself : session_owner s' = Some (owner request) -> admitted s' request s').
  { intros H. by apply (adm_owner _ _ (owner request)). }
  destruct (transition_owner _ _ _ _ Ht) as [Hs|Hs]; [|auto].
  destruct Ha as [Hn|o Ho Hi Hp Hg|o d Ho Hph Hop Hg|o d Ho Hph Hop Hg|o Ho Hi Hp Hg _].
  - apply adm_unowned. congruence.
  - apply (adm_owner _ _ o); congruence.
  - apply Hself. rewrite Hop in Ht. by apply (transition_prepare_stopped _ _ _ _ Ht).
  - apply Hself. rewrite Hop in Ht. by apply (transition_prepare_stopped _ _ _ _ Ht).
  - auto.
Qed.

(** Retries are idempotent: a client that repeats an accepted request, other than a
    clamp of the MTU, a suspension, a resumption or a drain, is accepted again and
    changes nothing. *)
Theorem retry_idempotent request s s' :
  retry_safe (operation request) = true ->
  apply request s = (Ok tt, s') -> apply request s' = (Ok tt, s').
Proof.
  intros Hr (s1 & [Hv Ha]%fenced_iff & Ht)%apply_ok. apply apply_ok. exists s'.
  split; [|by eapply transition_again].
  apply fenced_iff. split; [done|]. by eapply admitted_again.
Qed.

(** ** Witnesses *)

Definition request_of (g : Z) (op : NetdOperation) : NetdRequest :=
  mkRequest 1 (mkOwner (replicate 16 7) 42 g 1000) op.
Definition replacement_declaration : PrepareDeclaration := declaration_with_mtu 1300 sample_declaration.

(** A whole life: activation, make-before-break replacement, suspension, rollback. *)
Definition lifecycle : list NetdRequest :=
  [request_of 3 (OpPrepare sample_declaration); request_of 3 OpCommit;
   request_of 4 (OpReconfigure replacement_declaration); request_of 4 OpCommit;
   request_of 4 (OpDrain 500); request_of 4 OpSuspend; request_of 4 OpResume;
   request_of 4 OpRollback].
Definition run_requests (l : list NetdRequest) (s : NetdSession) : list SessionPhase * NetdSession :=
  fold_left (fun acc r => let s' := (apply r acc.2).2 in (acc.1 ++ [phase s'], s')) l ([], s).

Example lifecycle_phases :
  (run_requests lifecycle NetdSession_new).1 =
  [PhPrepared; PhActive; PhPrepared; PhDraining; PhActive; PhSuspended; PhActive; PhStopped].
Proof. vm_compute. reflexivity. Qed.

Definition active_session : NetdSession := (run_requests (take 2 lifecycle) NetdSession_new).2.
Definition stopped_session : NetdSession := (run_requests lifecycle NetdSession_new).2.

Lemma active_reachable : reachable active_session.
Proof. apply (reachable_apply _ (request_of 3 OpCommit)), reachable_apply, reachable_new. Qed.

Lemma session_reachable_inv_witness : session_inv active_session /\ phase active_session = PhActive.
Proof.
  split; [exact (session_reachable_inv active_session active_reachable)|vm_compute; reflexivity].
Defined.

Lemma session_refinement_witness :
  exists s1, admitted active_session (request_of 4 (OpReconfigure replacement_declaration)) s1 /\
    transition (mkOwner (replicate 16 7) 42 4 1000) (OpReconfigure replacement_declaration) s1
      (run_requests (take 3 lifecycle) NetdSession_new).2.
Proof.
  exact (proj2 (session_refinement (request_of 4 (OpReconfigure replacement_declaration))
    active_session (Ok tt) (run_requests (take 3 lifecycle) NetdSession_new).2
    ltac:(vm_compute; reflexivity))).
Defined.

Definition foreign_request : NetdRequest :=
  mkRequest 1 (mkOwner (replicate 16 8) 43 4 1000) (OpPrepare replacement_declaration).

Lemma foreign_takeover_witness :
  phase stopped_session = PhStopped /\
  generation (mkOwner (replicate 16 7) 42 4 1000) <= generation (owner foreign_request).
Proof.
  destruct (foreign_takeover foreign_request stopped_session
    (mkSession PhPrepared (Some (mkOwner (replicate 16 8) 43 4 1000))
       (Some replacement_declaration) false) (mkOwner (replicate 16 7) 42 4 1000))
    as (H1 & _ & H2 & _);
    [vm_compute; reflexivity|vm_compute; reflexivity|intros [H _]; vm_compute in H; done|].
  exact (conj H1 H2).
Defined.

Lemma retry_idempotent_witness :
  apply (request_of 4 OpCommit) (run_requests (take 4 lifecycle) NetdSession_new).2 =
  (Ok tt, (run_requests (take 4 lifecycle) NetdSession_new).2).
Proof.
  apply (retry_idempotent (request_of 4 OpCommit)
           (run_requests (take 3 lifecycle) NetdSession_new).2);
    [reflexivity|vm_compute; reflexivity].
Defined.
