(* ===== verification/Network.v ===== *)
(** * The network transaction

    [NetworkTransaction] of [candy-netd/src/network.rs]: the journaled sequence of
    kernel changes behind a session. The backend and the journal are the interfaces
    [NetworkBackend] and [NetworkJournal]; both act on one world of type [W], which
    stands for the machine. A method runs on the pair of the world and the retained
    record, and keeps what it changed before it returned an error. *)
From stdpp Require Import base tactics list numbers option sorting.
From Stdlib Require Import ZArith Lia.
From S2P Require Import Prelude Ipv4 Wire Proto.

(** ** Records *)

Definition STEP_LINK : Z := Z.shiftl 1 0.
Definition STEP_ROUTES : Z := Z.shiftl 1 1.
Definition STEP_FIREWALL : Z := Z.shiftl 1 2.
Definition STEP_SYSCTLS : Z := Z.shiftl 1 3.
Definition STEP_LINK_ACTIVE : Z := Z.shiftl 1 4.
Definition STEP_POLICY_RULE : Z := Z.shiftl 1 5.

(** [!x] on [u16]. *)
Definition u16_not (x : Z) : Z := Z.lxor x 65535.

Inductive TransactionPhase : Type :=
| TpPreparing
| TpPrepared
| TpActive
| TpSuspended
| TpRollingBack
| TpDraining.

#[export] Instance TransactionPhase_eq_dec : EqDecision TransactionPhase.
Proof. solve_decision. Defined.

Inductive SysctlKey : Type :=
| Ipv4Forward
| AllRpFilter
| CandyRpFilter
| CandyDisableIpv6.

#[export] Instance SysctlKey_eq_dec : EqDecision SysctlKey.
Proof. solve_decision. Defined.

Record SysctlChange : Type := mkSysctl {
  key : SysctlKey;
  original : Z;
  applied : Z;
}.

#[export] Instance SysctlChange_eq_dec : EqDecision SysctlChange.
Proof. solve_decision. Defined.

Record TransactionRecord : Type := mkRecord {
  record_owner : LeaseOwner;
  record_declaration : PrepareDeclaration;
  recovery_candidate : option PrepareDeclaration;
  recovery_candidate_owner : option LeaseOwner;
  record_phase : TransactionPhase;
  completed_steps : Z;
  sysctls : list SysctlChange;
  drain_deadline_mono_ms : Z;
  failed_prefixes : list Ipv4Prefix;
}.

#[export] Instance TransactionRecord_eq_dec : EqDecision TransactionRecord.
Proof. solve_decision. Defined.

Inductive BackendStage : Type :=
| Preflight
| LinkPrepare
| RoutePrepare
| FirewallPrepare
| SysctlPrepare
| LinkActivate
| PolicyActivate.

Inductive NetworkError : Type :=
| NeConflict
| NeInvalidTransition
| NeBackend
| NeBackendStage (stage : BackendStage)
| NeJournal
| NeDrainPending.

#[export] Instance BackendStage_eq_dec : EqDecision BackendStage.
Proof. solve_decision. Defined.
#[export] Instance NetworkError_eq_dec : EqDecision NetworkError.
Proof. solve_decision. Defined.

(** The failures of code that may panic: an error value, or the panic of a slice, an
    index or an arithmetic operation. *)
Inductive Failure : Type :=
| Panics
| Returns (e : NetworkError).

#[export] Instance Failure_eq_dec : EqDecision Failure.
Proof. solve_decision. Defined.

Definition SysctlKey_to_u8 (k : SysctlKey) : Z :=
  match k with
  | Ipv4Forward => 1 | AllRpFilter => 2 | CandyRpFilter => 3 | CandyDisableIpv6 => 4
  end.

Definition SysctlKey_try_from (value : Z) : Result NetworkError SysctlKey :=
  match value with
  | 1 => Ok Ipv4Forward
  | 2 => Ok AllRpFilter
  | 3 => Ok CandyRpFilter
  | 4 => Ok CandyDisableIpv6
  | _ => Err NeJournal
  end.

(** Field updates of a record. *)
Definition set_record_owner (o : LeaseOwner) (r : TransactionRecord) : TransactionRecord :=
  mkRecord o (record_declaration r) (recovery_candidate r) (recovery_candidate_owner r)
    (record_phase r) (completed_steps r) (sysctls r) (drain_deadline_mono_ms r)
    (failed_prefixes r).
Definition set_declaration (d : PrepareDeclaration) (r : TransactionRecord) : TransactionRecord :=
  mkRecord (record_owner r) d (recovery_candidate r) (recovery_candidate_owner r)
    (record_phase r) (completed_steps r) (sysctls r) (drain_deadline_mono_ms r)
    (failed_prefixes r).
Definition set_candidate (c : option PrepareDeclaration) (o : option LeaseOwner)
    (r : TransactionRecord) : TransactionRecord :=
  mkRecord (record_owner r) (record_declaration r) c o
    (record_phase r) (completed_steps r) (sysctls r) (drain_deadline_mono_ms r)
    (failed_prefixes r).
Definition set_record_phase (p : TransactionPhase) (r : TransactionRecord) : TransactionRecord :=
  mkRecord (record_owner r) (record_declaration r) (recovery_candidate r)
    (recovery_candidate_owner r) p (completed_steps r) (sysctls r) (drain_deadline_mono_ms r)
    (failed_prefixes r).
Definition set_steps (n : Z) (r : TransactionRecord) : TransactionRecord :=
  mkRecord (record_owner r) (record_declaration r) (recovery_candidate r)
    (recovery_candidate_owner r) (record_phase r) n (sysctls r) (drain_deadline_mono_ms r)
    (failed_prefixes r).
Definition set_sysctls (l : list SysctlChange) (r : TransactionRecord) : TransactionRecord :=
  mkRecord (record_owner r) (record_declaration r) (recovery_candidate r)
    (recovery_candidate_owner r) (record_phase r) (completed_steps r) l
    (drain_deadline_mono_ms r) (failed_prefixes r).
Definition set_deadline (t : Z) (r : TransactionRecord) : TransactionRecord :=
  mkRecord (record_owner r) (record_declaration r) (recovery_candidate r)
    (recovery_candidate_owner r) (record_phase r) (completed_steps r) (sysctls r) t
    (failed_prefixes r).
Definition set_failed (l : list Ipv4Prefix) (r : TransactionRecord) : TransactionRecord :=
  mkRecord (record_owner r) (record_declaration r) (recovery_candidate r)
    (recovery_candidate_owner r) (record_phase r) (completed_steps r) (sysctls r)
    (drain_deadline_mono_ms r) l.

Definition set_lease_deadline (t : Z) (o : LeaseOwner) : LeaseOwner :=
  mkOwner (instance_id o) (pid o) (generation o) t.
Definition set_mtu (mtu : Z) (d : PrepareDeclaration) : PrepareDeclaration :=
  mkDeclaration (table_id d) (overlay_router_ipv4 d) mtu (routes d) (exclusions d) (firewall d).
Definition set_routes (l : list RouteDeclaration) (d : PrepareDeclaration) : PrepareDeclaration :=
  mkDeclaration (table_id d) (overlay_router_ipv4 d) (effective_mtu d) l (exclusions d)
    (firewall d).

(** ** Free functions *)

Definition at_stage {A} (result : Result NetworkError A) (stage : BackendStage)
  : Result NetworkError A :=
  map_err (fun error => match error with
                        | NeBackend => NeBackendStage stage
                        | error => error
                        end) result.

Definition ensure_owner (retained request : LeaseOwner) : Result NetworkError unit :=
  if bool_decide (instance_id retained = instance_id request)
     && (pid retained =? pid request) && (generation retained =? generation request)
  then Ok tt else Err NeConflict.

Definition ensure_reconfigure_owner (retained request : LeaseOwner) : Result NetworkError unit :=
  if bool_decide (instance_id retained = instance_id request) && (pid retained =? pid request)
  then Ok tt else Err NeConflict.

Definition is_local_route (route : RouteDeclaration) : bool :=
  bool_decide (route_kind route = Local).
Definition is_egress_route (route : RouteDeclaration) : bool :=
  match route_kind route with RemoteEgress | RemoteEgressGateway => true | _ => false end.
Definition is_remote_route (route : RouteDeclaration) : bool :=
  match route_kind route with
  | Remote | RemoteEgress | RemoteEgressGateway => true
  | Local => false
  end.

Definition local_prefixes (d : PrepareDeclaration) : list Ipv4Prefix :=
  omap (fun route => if is_local_route route then Some (route_prefix route) else None) (routes d).

Definition firewall_policy_changed (current candidate : PrepareDeclaration) : bool :=
  if negb (bool_decide (firewall current = firewall candidate)) then true
  else
    let current_local := merge_sort prefix_le (local_prefixes current) in
    let candidate_local := merge_sort prefix_le (local_prefixes candidate) in
    negb (bool_decide (current_local = candidate_local))
    || xorb (existsb is_egress_route (routes current)) (existsb is_egress_route (routes candidate)).

Definition same_tunnel_declaration (current candidate : PrepareDeclaration) : bool :=
  bool_decide (table_id current = table_id candidate)
  && bool_decide (overlay_router_ipv4 current = overlay_router_ipv4 candidate)
  && bool_decide (effective_mtu current = effective_mtu candidate)
  && bool_decide (exclusions current = exclusions candidate).

(** Is the prefix announced by a remote route of the declaration? *)
Definition remote_prefix_of (d : PrepareDeclaration) (prefix : Ipv4Prefix) : bool :=
  existsb (fun route => bool_decide (route_prefix route = prefix) && is_remote_route route)
    (routes d).

(** [Vec::dedup]. *)
Fixpoint dedup (l : list Ipv4Prefix) : list Ipv4Prefix :=
  match l with
  | x :: (y :: _) as rest => if bool_decide (x = y) then dedup rest else x :: dedup rest
  | _ => l
  end.

(** [restore_sysctl_value]: write back only over the value netd itself applied. *)
Definition restore_sysctl_value {A} `{EqDecision A} (original applied current : A) : option A :=
  if negb (bool_decide (original = applied)) && bool_decide (current = applied)
  then Some original else None.

(** [Option::get_or_insert] on the first error seen. *)
Definition note_error (first_error : option NetworkError) (e : NetworkError)
  : option NetworkError :=
  match first_error with Some e0 => Some e0 | None => Some e end.
Definition note_result {A} (first_error : option NetworkError) (r : Result NetworkError A)
  : option NetworkError :=
  match r with Ok _ => first_error | Err e => note_error first_error e end.
(** [first_error.map_or(Ok(()), Err)]. *)
Definition error_result (first_error : option NetworkError) : Result NetworkError unit :=
  match first_error with Some e => Err e | None => Ok tt end.

(** ** The interfaces *)

Definition WorldM (W A : Type) : Type := M W NetworkError A.

Class NetworkBackend (W : Type) := {
  preflight : PrepareDeclaration -> WorldM W (list SysctlChange);
  prepare_link : PrepareDeclaration -> WorldM W unit;
  prepare_routes : PrepareDeclaration -> WorldM W unit;
  reconcile_routes : PrepareDeclaration -> list Ipv4Prefix -> WorldM W unit;
  prepare_firewall : PrepareDeclaration -> WorldM W unit;
  replace_firewall : PrepareDeclaration -> PrepareDeclaration -> WorldM W unit;
  prepare_sysctls : PrepareDeclaration -> list SysctlChange -> WorldM W unit;
  activate_link : PrepareDeclaration -> WorldM W unit;
  update_link_mtu : PrepareDeclaration -> Z -> WorldM W unit;
  install_policy_rule : PrepareDeclaration -> WorldM W unit;
  remove_policy_rule : PrepareDeclaration -> WorldM W unit;
  deactivate_link : PrepareDeclaration -> WorldM W unit;
  remove_firewall : PrepareDeclaration -> WorldM W unit;
  remove_routes : PrepareDeclaration -> WorldM W unit;
  backend_withdraw_prefixes : PrepareDeclaration -> list Ipv4Prefix -> WorldM W unit;
  remove_link : PrepareDeclaration -> WorldM W unit;
  restore_sysctls : PrepareDeclaration -> list SysctlChange -> WorldM W unit;
}.

Class NetworkJournal (W : Type) := {
  journal_load : W -> Result NetworkError (option TransactionRecord);
  journal_store : TransactionRecord -> WorldM W unit;
  journal_clear : WorldM W unit;
}.

(** The bodies the trait gives to a backend that does not override them. *)
Section Defaults.
Context {W : Type}.

Definition default_reconcile_routes
    (prepare_routes : PrepareDeclaration -> WorldM W unit)
    (withdraw_prefixes : PrepareDeclaration -> list Ipv4Prefix -> WorldM W unit)
    (declaration : PrepareDeclaration) (failed : list Ipv4Prefix) : WorldM W unit :=
  do* prepare_routes declaration in
  if negb (bool_decide (failed = [])) then withdraw_prefixes declaration failed else mret tt.

Definition default_replace_firewall
    (remove_firewall prepare_firewall : PrepareDeclaration -> WorldM W unit)
    (previous replacement : PrepareDeclaration) : WorldM W unit :=
  do* remove_firewall previous in
  prepare_firewall replacement.

Definition default_update_link_mtu (_ : PrepareDeclaration) (_ : Z) : WorldM W unit :=
  mfail NeBackend.

Definition default_withdraw_prefixes
    (remove_routes : PrepareDeclaration -> WorldM W unit)
    (declaration : PrepareDeclaration) (prefixes : list Ipv4Prefix) : WorldM W unit :=
  let scoped := set_routes (filter (fun route => route_prefix route ∈ prefixes)
                              (routes declaration)) declaration in
  if bool_decide (routes scoped = []) then mret tt else remove_routes scoped.
End Defaults.

(** ** The transaction *)

Section Transaction.
  Context {W : Type} `{!NetworkBackend W} `{!NetworkJournal W}.

Record NetworkTransaction : Type := mkTransaction {
  world : W;
  record : option TransactionRecord;
}.

Definition TxM (A : Type) : Type := M NetworkTransaction NetworkError A.

(** A call of the backend or of the journal. *)
Definition call {A} (f : WorldM W A) : TxM A :=
  fun s => let '(r, w) := f (world s) in (r, mkTransaction w (record s)).

Definition set_record (r : option TransactionRecord) : TxM unit :=
  modify (fun s => mkTransaction (world s) r).

(** [self.record.as_ref().ok_or(NetworkError::InvalidTransition)?]. *)
Definition get_record : TxM TransactionRecord :=
  fun s => (ok_or (record s) NeInvalidTransition, s).

Definition store (r : TransactionRecord) : TxM unit := call (journal_store r).

(** [let record = self.record.as_mut().ok_or(..)?; <change>; self.journal.store(record)]. *)
Definition update_record (change : TransactionRecord -> TransactionRecord) : TxM unit :=
  let* r := get_record in
  do* set_record (Some (change r)) in
  store (change r).

(** [self.journal.store(&r)?; self.record = Some(r)]. *)
Definition store_then_set (r : TransactionRecord) : TxM unit :=
  do* store r in set_record (Some r).

Definition new (w : W) : Result NetworkError NetworkTransaction :=
  let? r := journal_load w in
  Ok (mkTransaction w r).

Definition complete_step (step : Z) : TxM unit :=
  update_record (fun r => set_steps (Z.lor (completed_steps r) step) r).
Definition clear_step (step : Z) : TxM unit :=
  update_record (fun r => set_steps (Z.land (completed_steps r) (u16_not step)) r).
Definition set_phase (p : TransactionPhase) : TxM unit := update_record (set_record_phase p).

Definition has_step (r : TransactionRecord) (step : Z) : bool :=
  negb (Z.land (completed_steps r) step =? 0).

(** Drops the replacement candidate and returns to [Active]. *)
Definition discard_candidate (r : TransactionRecord) : TransactionRecord :=
  set_deadline 0 (set_record_phase TpActive (set_candidate None None r)).

(** ** Cleanup *)

(** The routes as [cleanup_record] deletes them: a withdrawn prefix is a throw route. *)
Definition routes_for_cleanup (r : TransactionRecord) : PrepareDeclaration :=
  set_routes (map (fun route => if bool_decide (route_prefix route ∈ failed_prefixes r)
                                then mkRoute (route_prefix route) Local else route)
                (routes (record_declaration r))) (record_declaration r).

(** The macro [cleanup_step!]. *)
Definition cleanup_step (needed : bool) (operation : WorldM W unit) (step : Z)
    (first_error : option NetworkError) : TxM (option NetworkError) :=
  if needed then
    let* result := attempt (call operation) in
    match result with
    | Ok _ =>
        let* cleared := attempt (clear_step step) in
        mret (note_result first_error cleared)
    | Err error => mret (note_error first_error error)
    end
  else mret first_error.

(** The block [if let Some(candidate) = record.recovery_candidate.as_ref()]. *)
Definition cleanup_candidate (candidate : option PrepareDeclaration) : TxM (option NetworkError) :=
  match candidate with
  | Some candidate =>
      let* firewall_removed := attempt (call (remove_firewall candidate)) in
      let* routes_removed := attempt (call (remove_routes candidate)) in
      match note_result (note_result None firewall_removed) routes_removed with
      | Some error => mret (Some error)
      | None =>
          let* _ := get_record in
          let* stored := attempt (update_record (set_candidate None None)) in
          mret (note_result None stored)
      end
  | None => mret None
  end.

(** The last block: forget a record that owns nothing any more. *)
Definition clear_finished (first_error : option NetworkError) : TxM (option NetworkError) :=
  let* current := gets record in
  if match current with
     | Some r => (completed_steps r =? 0) && bool_decide (recovery_candidate r = None)
     | None => false
     end
  then
    let* cleared := attempt (call journal_clear) in
    match cleared with
    | Ok _ => do* set_record None in mret first_error
    | Err error => mret (note_error first_error error)
    end
  else mret first_error.

Definition cleanup_record : TxM unit :=
  do* set_phase TpRollingBack in
  let* record := get_record in
  let declaration := record_declaration record in
  let* first_error := cleanup_candidate (recovery_candidate record) in
  let* first_error := cleanup_step (has_step record STEP_POLICY_RULE)
                        (remove_policy_rule declaration) STEP_POLICY_RULE first_error in
  let* first_error := cleanup_step (has_step record (Z.lor STEP_LINK STEP_LINK_ACTIVE))
                        (deactivate_link declaration) STEP_LINK_ACTIVE first_error in
  let* first_error := cleanup_step (has_step record STEP_SYSCTLS)
                        (restore_sysctls declaration (sysctls record)) STEP_SYSCTLS first_error in
  let* first_error := cleanup_step (has_step record STEP_FIREWALL)
                        (remove_firewall declaration) STEP_FIREWALL first_error in
  let* first_error := cleanup_step (has_step record STEP_ROUTES)
                        (remove_routes (routes_for_cleanup record)) STEP_ROUTES first_error in
  let* first_error := cleanup_step (has_step record STEP_LINK)
                        (remove_link declaration) STEP_LINK first_error in
  let* first_error := clear_finished first_error in
  lift (error_result first_error).

(** [if result.is_err() { let _ = self.cleanup_record(); } result]. *)
Definition or_cleanup (body : TxM unit) : TxM unit :=
  let* result := attempt body in
  do* (if is_err result then ignore cleanup_record else mret tt) in
  lift result.

(** ** Preparation *)

Definition staged_call {A} (f : WorldM W A) (stage : BackendStage) : TxM A :=
  let* result := attempt (call f) in lift (at_stage result stage).

Definition prepare_steps : TxM unit :=
  let* record := get_record in
  let declaration := record_declaration record in
  let* changes := staged_call (preflight declaration) Preflight in
  do* update_record (set_sysctls changes) in
  do* complete_step STEP_SYSCTLS in
  let* record := get_record in
  do* staged_call (prepare_sysctls declaration (sysctls record)) SysctlPrepare in
  do* complete_step STEP_LINK in
  do* staged_call (prepare_link declaration) LinkPrepare in
  do* complete_step STEP_LINK_ACTIVE in
  do* staged_call (activate_link declaration) LinkActivate in
  do* complete_step STEP_ROUTES in
  do* staged_call (prepare_routes declaration) RoutePrepare in
  do* complete_step STEP_FIREWALL in
  do* staged_call (prepare_firewall declaration) FirewallPrepare in
  set_phase TpPrepared.

(** [declaration.validate().map_err(|_| NetworkError::Backend)?]. *)
Definition validate_declaration (declaration : PrepareDeclaration) : TxM unit :=
  lift (map_err (fun _ => NeBackend) (PrepareDeclaration_validate declaration)).

Definition prepare (owner : LeaseOwner) (declaration : PrepareDeclaration) : TxM unit :=
  let* current := gets record in
  match current with
  | Some record =>
      do* lift (ensure_owner (record_owner record) owner) in
      if negb (bool_decide (record_declaration record = declaration)) then mfail NeConflict
      else match record_phase record with
           | TpPrepared | TpActive => mret tt
           | TpPreparing | TpSuspended | TpRollingBack | TpDraining => mfail NeInvalidTransition
           end
  | None =>
      do* validate_declaration declaration in
      do* store_then_set (mkRecord owner declaration None None TpPreparing 0 [] 0 []) in
      or_cleanup prepare_steps
  end.

(** ** Commit and drain *)

(** The owner check of the methods that a replacement's new owner may call. *)
Definition ensure_transition_owner (record : TransactionRecord) (owner : LeaseOwner) : TxM unit :=
  lift (if bool_decide (recovery_candidate record <> None)
        then ensure_reconfigure_owner (record_owner record) owner
        else ensure_owner (record_owner record) owner).

Definition commit_candidate (candidate : PrepareDeclaration) (now_mono_ms drain_timeout_ms : Z)
  : TxM unit :=
  let* result := attempt (
    do* call (activate_link candidate) in
    do* call (install_policy_rule candidate) in
    update_record (fun r => set_deadline (u64_saturating_add now_mono_ms drain_timeout_ms)
                              (set_record_phase TpDraining r))) in
  do* (if is_err result then
         do* ignore (call (remove_policy_rule candidate)) in
         do* ignore (call (remove_firewall candidate)) in
         do* ignore (call (remove_routes candidate)) in
         let* current := gets record in
         match current with
         | Some _ => ignore (update_record discard_candidate)
         | None => mret tt
         end
       else mret tt) in
  lift result.

Definition commit_prepared (declaration : PrepareDeclaration) : TxM unit :=
  or_cleanup (
    do* complete_step STEP_POLICY_RULE in
    do* staged_call (install_policy_rule declaration) PolicyActivate in
    set_phase TpActive).

Definition commit_with_drain (owner : LeaseOwner) (now_mono_ms drain_timeout_ms : Z) : TxM unit :=
  let* record := get_record in
  do* ensure_transition_owner record owner in
  if bool_decide (record_phase record = TpDraining) then mret tt
  else match record_phase record, recovery_candidate record with
       | TpPrepared, Some candidate => commit_candidate candidate now_mono_ms drain_timeout_ms
       | ph, _ =>
           if bool_decide (ph = TpActive) then mret tt
           else if negb (bool_decide (ph = TpPrepared)) then mfail NeInvalidTransition
           else commit_prepared (record_declaration record)
       end.

Definition commit (owner : LeaseOwner) : TxM unit := commit_with_drain owner 0 0.

Definition promote_candidate (candidate_owner : LeaseOwner) (candidate : PrepareDeclaration)
    (r : TransactionRecord) : TransactionRecord :=
  set_deadline 0 (set_record_phase TpActive (set_candidate None None
    (set_declaration candidate (set_record_owner candidate_owner r)))).

Definition drain_old (owner : LeaseOwner) (now_mono_ms : Z) : TxM unit :=
  let* record := get_record in
  do* ensure_transition_owner record owner in
  if bool_decide (record_phase record = TpActive)
     && bool_decide (recovery_candidate record = None) then mret tt
  else if negb (bool_decide (record_phase record = TpDraining)) then mfail NeInvalidTransition
  else if negb (drain_deadline_mono_ms record =? 0)
          && (now_mono_ms <? drain_deadline_mono_ms record) then mfail NeDrainPending
  else
    let* candidate := lift (ok_or (recovery_candidate record) NeInvalidTransition) in
    let candidate_owner := default owner (recovery_candidate_owner record) in
    let previous := record_declaration record in
    do* call (remove_policy_rule previous) in
    do* call (remove_firewall previous) in
    do* call (remove_routes previous) in
    update_record (promote_candidate candidate_owner candidate).

(** ** Rollback, withdrawal and the lease *)

Definition candidate_staged (r : TransactionRecord) : bool :=
  bool_decide (recovery_candidate r <> None)
  && (bool_decide (record_phase r = TpPreparing) || bool_decide (record_phase r = TpPrepared)).

(** Remove a staged candidate and keep the active declaration. *)
Definition abandon_candidate (r : TransactionRecord) : TxM unit :=
  let* candidate := lift (ok_or (recovery_candidate r) NeInvalidTransition) in
  do* call (remove_firewall candidate) in
  do* call (remove_routes candidate) in
  update_record discard_candidate.

Definition rollback (owner : LeaseOwner) : TxM unit :=
  let* record := get_record in
  if candidate_staged record then
    do* lift (ensure_reconfigure_owner (record_owner record) owner) in
    abandon_candidate record
  else
    do* lift (ensure_owner (record_owner record) owner) in
    cleanup_record.

Definition withdraw_prefixes (owner : LeaseOwner) (prefixes : list Ipv4Prefix) : TxM unit :=
  if bool_decide (prefixes = []) then mfail NeInvalidTransition
  else
    let* record := get_record in
    do* lift (ensure_owner (record_owner record) owner) in
    if negb (bool_decide (record_phase record = TpActive)) then mfail NeInvalidTransition
    else call (backend_withdraw_prefixes (record_declaration record) prefixes).

Definition set_failed_prefixes (owner : LeaseOwner) (prefixes : list Ipv4Prefix) : TxM unit :=
  let* record := get_record in
  do* lift (ensure_owner (record_owner record) owner) in
  if negb (bool_decide (record_phase record = TpActive)
           || bool_decide (record_phase record = TpSuspended)) then mfail NeInvalidTransition
  else
    let declaration := record_declaration record in
    let policy_is_active := bool_decide (record_phase record = TpActive) in
    let desired := dedup (merge_sort prefix_le prefixes) in
    if existsb (fun prefix => negb (remote_prefix_of declaration prefix)) desired
    then mfail NeConflict
    else
      do* call (reconcile_routes declaration desired) in
      do* (if policy_is_active then call (install_policy_rule declaration) else mret tt) in
      update_record (set_failed desired).

Definition renew_lease (owner : LeaseOwner) : TxM unit :=
  let* record := get_record in
  do* ensure_transition_owner record owner in
  update_record (fun r => set_record_owner
    (set_lease_deadline (lease_deadline_mono_ms owner) (record_owner r)) r).

Definition update_mtu (owner : LeaseOwner) (mtu : Z) : TxM unit :=
  if negb (in_range 576 1400 mtu) then mfail NeInvalidTransition
  else
    let* record := get_record in
    do* lift (ensure_owner (record_owner record) owner) in
    if negb (bool_decide (record_phase record = TpActive))
       || (effective_mtu (record_declaration record) <=? mtu) then mfail NeInvalidTransition
    else
      let declaration := record_declaration record in
      do* call (update_link_mtu declaration mtu) in
      update_record (set_declaration (set_mtu mtu declaration)).

(** ** Suspension *)

Definition suspend (owner : LeaseOwner) : TxM unit :=
  let* record := get_record in
  do* lift (ensure_owner (record_owner record) owner) in
  if bool_decide (record_phase record = TpSuspended) then mret tt
  else if negb (bool_decide (record_phase record = TpActive)) then mfail NeInvalidTransition
  else
    do* call (remove_policy_rule (record_declaration record)) in
    do* clear_step STEP_POLICY_RULE in
    set_phase TpSuspended.

Definition resume (owner : LeaseOwner) : TxM unit :=
  let* record := get_record in
  do* lift (ensure_owner (record_owner record) owner) in
  if bool_decide (record_phase record = TpActive) then mret tt
  else if negb (bool_decide (record_phase record = TpSuspended)) then mfail NeInvalidTransition
  else
    do* call (install_policy_rule (record_declaration record)) in
    do* complete_step STEP_POLICY_RULE in
    set_phase TpActive.

(** ** Reconfiguration *)

(** [match self.restore(..) { Ok(()) => Err(error), Err(recovery) => Err(recovery) }]. *)
Definition fail_after {A} (restore : TxM unit) (error : NetworkError) : TxM A :=
  do* restore in mfail error.

Definition restore_suspended_after_reconfigure (previous_record : TransactionRecord)
    (candidate : PrepareDeclaration) : TxM unit :=
  let previous := record_declaration previous_record in
  let* r1 := attempt (call (remove_firewall candidate)) in
  let* r2 := attempt (call (remove_routes candidate)) in
  let* r3 := attempt (call (prepare_link previous)) in
  let* r4 := attempt (call (prepare_routes previous)) in
  let* r5 := attempt (call (prepare_firewall previous)) in
  match fold_left note_result [r1; r2; r3; r4; r5] None with
  | Some error => mfail error
  | None => store_then_set previous_record
  end.

(** Stage a change of declaration in the durable record before touching the kernel. *)
Definition stage_candidate (p : TransactionPhase) (declaration : PrepareDeclaration)
    (owner : LeaseOwner) (r : TransactionRecord) : TransactionRecord :=
  set_record_phase p (set_candidate (Some declaration) (Some owner) r).

Definition prepare_replacement (owner : LeaseOwner) (declaration : PrepareDeclaration)
  : TxM unit :=
  let* record := get_record in
  do* lift (ensure_reconfigure_owner (record_owner record) owner) in
  let current := record_declaration record in
  if bool_decide (current = declaration) then store_then_set (set_record_owner owner record)
  else if bool_decide (table_id current = table_id declaration)
          || negb (bool_decide (firewall current = firewall declaration))
          || negb (bool_decide (overlay_router_ipv4 current = overlay_router_ipv4 declaration))
          || negb (bool_decide (effective_mtu current = effective_mtu declaration))
  then mfail NeInvalidTransition
  else match recovery_candidate record with
  | Some candidate => if bool_decide (candidate = declaration) then mret tt else mfail NeConflict
  | None =>
      do* update_record (fun r => set_deadline 0 (stage_candidate TpPreparing declaration owner r)) in
      let* prepared := attempt (
        do* validate_declaration declaration in
        do* call (preflight declaration) in
        do* call (prepare_link declaration) in
        do* call (prepare_routes declaration) in
        call (prepare_firewall declaration)) in
      match prepared with
      | Err error =>
          do* ignore (call (remove_firewall declaration)) in
          do* ignore (call (remove_routes declaration)) in
          let* _ := get_record in
          do* ignore (update_record (fun r =>
            set_record_phase TpActive (set_candidate None None r))) in
          mfail error
      | Ok _ => set_phase TpPrepared
      end
  end.

Definition reconfigure_suspended (owner : LeaseOwner) (declaration : PrepareDeclaration)
    (previous_record : TransactionRecord) : TxM unit :=
  let previous := record_declaration previous_record in
  if bool_decide (previous = declaration)
  then store_then_set (set_record_owner owner previous_record)
  else if negb (bool_decide (firewall previous = firewall declaration))
          || negb (bool_decide (table_id previous = table_id declaration))
          || negb (bool_decide (overlay_router_ipv4 previous = overlay_router_ipv4 declaration))
          || negb (bool_decide (effective_mtu previous = effective_mtu declaration))
  then mfail NeInvalidTransition
  else
    do* update_record (stage_candidate TpRollingBack declaration owner) in
    let* applied := attempt (
      do* call (remove_firewall previous) in
      do* call (remove_routes previous) in
      do* call (prepare_link declaration) in
      do* call (prepare_routes declaration) in
      call (prepare_firewall declaration)) in
    match applied with
    | Err error => fail_after (restore_suspended_after_reconfigure previous_record declaration) error
    | Ok _ =>
        let replacement_record :=
          set_deadline 0 (set_failed [] (set_declaration declaration
            (set_record_owner owner previous_record))) in
        let* stored := attempt (store replacement_record) in
        match stored with
        | Err error =>
            fail_after (restore_suspended_after_reconfigure previous_record
                          (record_declaration replacement_record)) error
        | Ok _ => set_record (Some replacement_record)
        end
    end.

Definition reconfigure (owner : LeaseOwner) (declaration : PrepareDeclaration) : TxM unit :=
  do* validate_declaration declaration in
  let* record := get_record in
  do* lift (ensure_reconfigure_owner (record_owner record) owner) in
  if bool_decide (record_phase record = TpActive) then prepare_replacement owner declaration
  else if negb (bool_decide (record_phase record = TpSuspended)) then mfail NeInvalidTransition
  else reconfigure_suspended owner declaration record.

(** ** Policy updates *)

Definition restore_policy_after_update (previous_record : TransactionRecord)
    (candidate : PrepareDeclaration) : TxM unit :=
  let previous := record_declaration previous_record in
  let routes_changed := negb (bool_decide (routes previous = routes candidate)) in
  let firewall_changed := firewall_policy_changed previous candidate in
  let* r1 := (if routes_changed
              then attempt (call (reconcile_routes previous (failed_prefixes previous_record)))
              else mret (Ok tt)) in
  let* r2 := (if firewall_changed
              then attempt (call (replace_firewall candidate previous))
              else mret (Ok tt)) in
  do* (if has_step previous_record STEP_POLICY_RULE
       then call (install_policy_rule previous) else mret tt) in
  match fold_left note_result [r1; r2] None with
  | Some error => mfail error
  | None => store_then_set previous_record
  end.

Definition update_policy_bad (r : TransactionRecord) (declaration : PrepareDeclaration) : bool :=
  negb (bool_decide (record_phase r = TpActive) || bool_decide (record_phase r = TpSuspended))
  || bool_decide (recovery_candidate r <> None)
  || negb (bool_decide (table_id (record_declaration r) = table_id declaration))
  || negb (bool_decide (overlay_router_ipv4 (record_declaration r)
                        = overlay_router_ipv4 declaration))
  || negb (bool_decide (effective_mtu (record_declaration r) = effective_mtu declaration))
  || negb (bool_decide (exclusions (record_declaration r) = exclusions declaration)).

Definition apply_policy (previous_record : TransactionRecord) (declaration : PrepareDeclaration)
    (retained_failed_prefixes : list Ipv4Prefix) : TxM unit :=
  let previous := record_declaration previous_record in
  do* (if negb (bool_decide (routes previous = routes declaration))
       then call (reconcile_routes declaration retained_failed_prefixes) else mret tt) in
  do* (if firewall_policy_changed previous declaration
       then call (replace_firewall previous declaration) else mret tt) in
  if bool_decide (record_phase previous_record = TpActive)
  then call (install_policy_rule declaration) else mret tt.

Definition update_policy (owner : LeaseOwner) (declaration : PrepareDeclaration) : TxM unit :=
  do* validate_declaration declaration in
  let* previous_record := get_record in
  do* lift (ensure_owner (record_owner previous_record) owner) in
  if update_policy_bad previous_record declaration then mfail NeInvalidTransition
  else if bool_decide (record_declaration previous_record = declaration) then
    if bool_decide (record_phase previous_record = TpActive)
    then call (install_policy_rule declaration) else mret tt
  else
    let retained_failed_prefixes :=
      List.filter (remote_prefix_of declaration) (failed_prefixes previous_record) in
    do* update_record (stage_candidate TpRollingBack declaration owner) in
    let* applied := attempt (apply_policy previous_record declaration retained_failed_prefixes) in
    match applied with
    | Err error => fail_after (restore_policy_after_update previous_record declaration) error
    | Ok _ =>
        let updated := set_candidate None None (set_failed retained_failed_prefixes
                         (set_declaration declaration previous_record)) in
        let* stored := attempt (store updated) in
        match stored with
        | Err error => fail_after (restore_policy_after_update previous_record declaration) error
        | Ok _ => set_record (Some updated)
        end
    end.

(** ** Orphan recovery *)

Definition recover_policy_update : TxM bool :=
  let* record := get_record in
  let* candidate := lift (ok_or (recovery_candidate record) NeInvalidTransition) in
  let declaration := record_declaration record in
  do* (if negb (bool_decide (routes declaration = routes candidate))
       then call (reconcile_routes declaration (failed_prefixes record)) else mret tt) in
  do* (if firewall_policy_changed declaration candidate
       then call (replace_firewall candidate declaration) else mret tt) in
  do* (if has_step record STEP_POLICY_RULE
       then call (install_policy_rule declaration) else mret tt) in
  let restored :=
    set_record_phase (if has_step record STEP_POLICY_RULE then TpActive else TpSuspended)
      (set_candidate None None record) in
  do* store_then_set restored in
  mret true.

(** The record of a policy update that was interrupted. *)
Definition policy_update_interrupted (r : TransactionRecord) : bool :=
  let prepared := Z.lor STEP_LINK (Z.lor STEP_ROUTES STEP_FIREWALL) in
  bool_decide (record_phase r = TpRollingBack)
  && bool_decide (recovery_candidate_owner r = Some (record_owner r))
  && (Z.land (completed_steps r) prepared =? prepared)
  && match recovery_candidate r with
     | Some candidate => same_tunnel_declaration (record_declaration r) candidate
     | None => false
     end.

Definition lease_holds (r : TransactionRecord) (owner_is_alive : bool) (now_mono_ms : Z) : bool :=
  owner_is_alive && (now_mono_ms <? lease_deadline_mono_ms (record_owner r)).

Definition recover_orphan (owner_is_alive : bool) (now_mono_ms : Z) : TxM bool :=
  let* current := gets record in
  match current with
  | None => mret false
  | Some record =>
      if policy_update_interrupted record then recover_policy_update
      else if candidate_staged record then
        if lease_holds record owner_is_alive now_mono_ms then mret false
        else do* abandon_candidate record in mret true
      else if bool_decide (record_phase record = TpDraining) then
        if owner_is_alive && ((drain_deadline_mono_ms record =? 0)
                              || (now_mono_ms <? drain_deadline_mono_ms record))
        then mret false
        else
          do* drain_old (default (record_owner record) (recovery_candidate_owner record))
                now_mono_ms in
          mret true
      else if negb (bool_decide (record_phase record = TpRollingBack))
              && lease_holds record owner_is_alive now_mono_ms then mret false
      else do* cleanup_record in mret true
  end.

Definition retained_owner (s : NetworkTransaction) : option LeaseOwner :=
  option_map record_owner (record s).

End Transaction.

Arguments NetworkTransaction : clear implicits.
Arguments TxM : clear implicits.
Arguments mkTransaction {W}.
Arguments world {W}.
Arguments record {W}.
