(* ===== verification/Kernel.v ===== *)
(** * What the machine promises to the transaction

    The contract between [NetworkTransaction] and the machine it drives: the kernel
    objects each backend call may create or delete, what its success establishes, and
    what the journal keeps. The contract is all that the theorems on the transaction
    use; nothing is promised about the point at which a failing call stopped, so a
    crash or a power loss is a world in which every later call fails.

    [faulty_kernel] shows that the contract can be met: a kernel with a script of
    faults, crashes included. *)
From stdpp Require Import base tactics list numbers option sorting.
From Stdlib Require Import ZArith Lia.
From S2P Require Import Prelude Ipv4 Wire Proto Network.

Create HintDb machine.

(** ** Kernel objects *)

Inductive Resource : Type :=
| RLink
| RLinkUp
| RSysctls
| RRoute (table : Z) (prefix : Ipv4Prefix)
| RFirewall (table : Z)
| RRule (table : Z).

#[export] Instance Resource_eq_dec : EqDecision Resource.
Proof. solve_decision. Defined.

(** The destinations that have an entry in the table of a declaration: a link route
    for each remote one, a throw route for each local one and for each exclusion. *)
Definition declared_prefixes (d : PrepareDeclaration) : list Ipv4Prefix :=
  map route_prefix (routes d) ++ map exclusion_prefix (exclusions d).

Definition table_routes (t : Z) (prefixes : list Ipv4Prefix) : list Resource :=
  map (RRoute t) prefixes.
Definition routes_of (d : PrepareDeclaration) : list Resource :=
  table_routes (table_id d) (declared_prefixes d).

(** ** The contract *)

Section Specs.
Context {W A : Type} (installed : W -> Resource -> Prop) (disk : W -> option TransactionRecord)
  (healthy : W -> Prop).

(** [f] may create the objects [X], does so if it succeeds, and leaves all others
    alone. *)
Definition spec_install (X : list Resource) (f : WorldM W A) : Prop :=
  forall w, let '(r, w') := f w in
    disk w' = disk w /\
    (forall x, x ∉ X -> installed w' x <-> installed w x) /\
    (is_ok r = true -> forall x, x ∈ X -> installed w' x) /\
    (healthy w -> healthy w').

(** [f] creates nothing; if it succeeds the objects [X] are gone; on a healthy machine
    it succeeds. *)
Definition spec_remove (X : list Resource) (f : WorldM W A) : Prop :=
  forall w, let '(r, w') := f w in
    disk w' = disk w /\
    (forall x, installed w' x -> installed w x) /\
    (is_ok r = true -> forall x, x ∈ X -> ~ installed w' x) /\
    (healthy w -> healthy w' /\ is_ok r = true).

(** [f] replaces the durable record by [o], at once or not at all. *)
Definition spec_durable (o : option TransactionRecord) (f : WorldM W A) : Prop :=
  forall w, let '(r, w') := f w in
    (disk w' = o \/ disk w' = disk w) /\
    (forall x, installed w' x <-> installed w x) /\
    (is_ok r = true -> disk w' = o) /\
    (healthy w -> healthy w' /\ is_ok r = true).
End Specs.

(** What reading the journal back preserves: everything the recovery of kernel objects
    depends on. *)
Definition same_durable (a b : TransactionRecord) : Prop :=
  record_declaration a = record_declaration b /\ recovery_candidate a = recovery_candidate b /\
  record_phase a = record_phase b /\ completed_steps a = completed_steps b /\
  sysctls a = sysctls b /\ failed_prefixes a = failed_prefixes b.

Class Machine (W : Type) `{!NetworkBackend W} `{!NetworkJournal W} := {
  installed : W -> Resource -> Prop;
  disk : W -> option TransactionRecord;
  healthy : W -> Prop;

  preflight_spec d : spec_install installed disk healthy [] (preflight d);
  prepare_link_spec d : spec_install installed disk healthy [RLink] (prepare_link d);
  prepare_routes_spec d :
    spec_install installed disk healthy (routes_of d) (prepare_routes d);
  reconcile_routes_spec d failed :
    spec_install installed disk healthy
      (routes_of d ++ table_routes (table_id d) failed) (reconcile_routes d failed);
  prepare_firewall_spec d :
    spec_install installed disk healthy [RFirewall (table_id d)] (prepare_firewall d);
  replace_firewall_spec p d : table_id p = table_id d ->
    spec_install installed disk healthy [RFirewall (table_id d)] (replace_firewall p d);
  prepare_sysctls_spec d l :
    spec_install installed disk healthy [RSysctls] (prepare_sysctls d l);
  activate_link_spec d : spec_install installed disk healthy [RLinkUp] (activate_link d);
  update_link_mtu_spec d mtu : spec_install installed disk healthy [] (update_link_mtu d mtu);
  install_policy_rule_spec d :
    spec_install installed disk healthy [RRule (table_id d)] (install_policy_rule d);
  withdraw_prefixes_spec d l :
    spec_install installed disk healthy (table_routes (table_id d) l)
      (backend_withdraw_prefixes d l);

  remove_policy_rule_spec d :
    spec_remove installed disk healthy [RRule (table_id d)] (remove_policy_rule d);
  deactivate_link_spec d : spec_remove installed disk healthy [RLinkUp] (deactivate_link d);
  remove_firewall_spec d :
    spec_remove installed disk healthy [RFirewall (table_id d)] (remove_firewall d);
  remove_routes_spec d : spec_remove installed disk healthy (routes_of d) (remove_routes d);
  remove_link_spec d : spec_remove installed disk healthy [RLink] (remove_link d);
  restore_sysctls_spec d l :
    spec_remove installed disk healthy [RSysctls] (restore_sysctls d l);

  journal_store_spec r : spec_durable installed disk healthy (Some r) (journal_store r);
  journal_clear_spec : spec_durable installed disk healthy None journal_clear;
  journal_load_spec w o : journal_load w = Ok o ->
    match o, disk w with
    | None, None => True
    | Some a, Some b => same_durable a b
    | _, _ => False
    end;
  journal_load_healthy w : healthy w -> exists o, journal_load w = Ok o;
}.

(** ** Ownership

    [owned r x]: the recovery of the durable record [r] takes the object [x] away. *)
Definition step_done (r : TransactionRecord) (i : Z) : Prop :=
  Z.testbit (completed_steps r) i = true.

Definition owned (r : TransactionRecord) (x : Resource) : Prop :=
  let d := record_declaration r in
  match x with
  | RLink => step_done r 0
  | RLinkUp => step_done r 4
  | RSysctls => step_done r 3
  | RRoute t p =>
      (step_done r 1 /\ t = table_id d /\ p ∈ declared_prefixes d) \/
      (exists c, recovery_candidate r = Some c /\ t = table_id c /\ p ∈ declared_prefixes c)
  | RFirewall t =>
      (step_done r 2 /\ t = table_id d) \/
      (exists c, recovery_candidate r = Some c /\ t = table_id c)
  | RRule t =>
      (step_done r 5 /\ t = table_id d) \/
      (record_phase r = TpDraining /\
       exists c, recovery_candidate r = Some c /\ t = table_id c)
  end.

Definition covered (o : option TransactionRecord) (x : Resource) : Prop :=
  match o with Some r => owned r x | None => False end.

Lemma covered_same_durable a b x : same_durable a b -> owned a x -> owned b x.
Proof.
  intros (H1 & H2 & H3 & H4 & _). unfold owned, step_done. by rewrite H1, H2, H3, H4.
Qed.

(** ** Step bits *)

Lemma step_value i : 0 <= i -> Z.shiftl 1 i = 2 ^ i.
Proof. intros. by rewrite Z.shiftl_1_l. Qed.

Lemma land_pow2_zero x i : 0 <= i -> (Z.land x (2 ^ i) =? 0) = negb (Z.testbit x i).
Proof.
  intros Hi. destruct (Z.testbit x i) eqn:E; simpl.
  - apply Z.eqb_neq. intros H. assert (Hb : Z.testbit (Z.land x (2 ^ i)) i = false).
    { rewrite H. apply Z.bits_0. }
    rewrite Z.land_spec, E, Z.pow2_bits_true in Hb by done. done.
  - apply Z.eqb_eq. apply Z.bits_inj'. intros j Hj. rewrite Z.land_spec, Z.bits_0.
    destruct (decide (i = j)) as [<-|Hne]; [by rewrite E|].
    rewrite Z.pow2_bits_false by done. apply andb_false_r.
Qed.

Lemma has_step_iff r i :
  0 <= i -> has_step r (2 ^ i) = true <-> step_done r i.
Proof.
  intros Hi. unfold has_step, step_done. rewrite land_pow2_zero, negb_involutive by done. done.
Qed.

Lemma has_either_step_iff r i j :
  0 <= i -> 0 <= j ->
  has_step r (Z.lor (2 ^ i) (2 ^ j)) = true <-> step_done r i \/ step_done r j.
Proof.
  intros Hi Hj. unfold has_step. rewrite Z.land_lor_distr_r.
  destruct (Z.eqb_spec (Z.lor (Z.land (completed_steps r) (2 ^ i))
                              (Z.land (completed_steps r) (2 ^ j))) 0) as [H|H].
  - apply Z.lor_eq_0_iff in H as [H1 H2].
    apply Z.eqb_eq in H1, H2. rewrite !land_pow2_zero in * by done. unfold step_done.
    destruct (Z.testbit _ i), (Z.testbit _ j); simpl in *; split; naive_solver.
  - split; [intros _|done]. unfold step_done.
    destruct (Z.testbit (completed_steps r) i) eqn:E1, (Z.testbit (completed_steps r) j) eqn:E2;
      auto. exfalso. apply H.
    pose proof (land_pow2_zero (completed_steps r) i Hi) as H1.
    pose proof (land_pow2_zero (completed_steps r) j Hj) as H2.
    rewrite E1 in H1. rewrite E2 in H2. apply Z.eqb_eq in H1, H2. by rewrite H1, H2.
Qed.

Lemma complete_step_bit n i j :
  0 <= i -> 0 <= j -> Z.testbit (Z.lor n (2 ^ i)) j = Z.testbit n j || bool_decide (i = j).
Proof.
  intros Hi Hj. rewrite Z.lor_spec. f_equal. case_bool_decide as H.
  - subst. by apply Z.pow2_bits_true.
  - by apply Z.pow2_bits_false.
Qed.

Lemma clear_step_bit n i j :
  0 <= i < 16 -> 0 <= j < 16 ->
  Z.testbit (Z.land n (u16_not (2 ^ i))) j = Z.testbit n j && negb (bool_decide (i = j)).
Proof.
  intros Hi Hj. unfold u16_not. rewrite Z.land_spec, Z.lxor_spec. f_equal.
  replace (Z.testbit 65535 j) with true
    by (symmetry; change 65535 with (Z.ones 16); apply Z.ones_spec_low; lia).
  rewrite xorb_true_r. f_equal. case_bool_decide as H.
  - subst. apply Z.pow2_bits_true. lia.
  - by apply Z.pow2_bits_false.
Qed.

(** Only the six steps of the program are ever recorded. *)
Definition steps_wf (r : TransactionRecord) : Prop := 0 <= completed_steps r < 64.

Lemma steps_zero r :
  steps_wf r -> (forall i, 0 <= i < 6 -> ~ step_done r i) -> completed_steps r = 0.
Proof.
  intros Hwf H. apply Z.bits_inj'. intros j Hj. rewrite Z.bits_0.
  destruct (decide (j < 6)) as [Hlt|Hge].
  - apply not_true_iff_false. apply H. lia.
  - destruct (decide (completed_steps r = 0)) as [->|Hnz]; [apply Z.bits_0|].
    apply Z.bits_above_log2; [apply Hwf|].
    assert (Z.log2 (completed_steps r) < 6); [|lia].
    apply Z.log2_lt_pow2; [destruct Hwf; lia|]. apply Hwf.
Qed.

(** ** Safety of a transaction state

    Every kernel object is owned by the durable record, which the next netd process
    reads back, and by the record in memory. *)

Section Safety.
Context {W : Type} `{!NetworkBackend W} `{!NetworkJournal W} `{!Machine W}.

Implicit Types s : NetworkTransaction W.

Definition present s : Resource -> Prop := installed (world s).
Definition durable s : option TransactionRecord := disk (world s).

Definition safe s : Prop :=
  forall x, present s x -> covered (durable s) x /\ covered (record s) x.

(** The rules for one call. *)
Lemma wp_call_install {A} X (f : WorldM W A) (Q : Result NetworkError A -> NetworkTransaction W -> Prop) s :
  spec_install installed disk healthy X f ->
  (forall r s', record s' = record s -> durable s' = durable s ->
     (forall x, x ∉ X -> present s' x <-> present s x) ->
     (is_ok r = true -> forall x, x ∈ X -> present s' x) ->
     (healthy (world s) -> healthy (world s')) -> Q r s') ->
  wp (call f) Q s.
Proof.
  intros Hf HQ. unfold wp, call. specialize (Hf (world s)). destruct (f (world s)) as [r w].
  destruct Hf as (H1 & H2 & H3 & H4). simpl. apply HQ; done.
Qed.

Lemma wp_call_remove {A} X (f : WorldM W A) (Q : Result NetworkError A -> NetworkTransaction W -> Prop) s :
  spec_remove installed disk healthy X f ->
  (forall r s', record s' = record s -> durable s' = durable s ->
     (forall x, present s' x -> present s x) ->
     (is_ok r = true -> forall x, x ∈ X -> ~ present s' x) ->
     (healthy (world s) -> healthy (world s') /\ is_ok r = true) -> Q r s') ->
  wp (call f) Q s.
Proof.
  intros Hf HQ. unfold wp, call. specialize (Hf (world s)). destruct (f (world s)) as [r w].
  destruct Hf as (H1 & H2 & H3 & H4). simpl. apply HQ; done.
Qed.

(** A call that installs owned objects only, or that removes, keeps the state safe. *)
Lemma safe_install (X : list Resource) s s' :
  safe s -> record s' = record s -> durable s' = durable s ->
  (forall x, x ∉ X -> present s' x <-> present s x) ->
  (forall x, x ∈ X -> covered (durable s) x /\ covered (record s) x) ->
  safe s'.
Proof.
  intros Hs Hr Hd Hp HX x Hx. rewrite Hd, Hr. destruct (decide (x ∈ X)); [auto|].
  apply Hs. by apply Hp.
Qed.

Lemma safe_remove s s' :
  safe s -> record s' = record s -> durable s' = durable s ->
  (forall x, present s' x -> present s x) -> safe s'.
Proof. intros Hs Hr Hd Hp x Hx. rewrite Hd, Hr. auto. Qed.

(** Changing the record keeps the state safe when the changed record still owns what is
    present. *)
Lemma wp_update_record (g : TransactionRecord -> TransactionRecord)
    (Q : Result NetworkError unit -> NetworkTransaction W -> Prop) s r :
  record s = Some r ->
  (forall res s', record s' = Some (g r) ->
     (forall x, present s' x <-> present s x) ->
     (durable s' = durable s \/ durable s' = Some (g r)) ->
     (is_ok res = true -> durable s' = Some (g r)) ->
     (healthy (world s) -> healthy (world s') /\ is_ok res = true) -> Q res s') ->
  wp (update_record g) Q s.
Proof.
  intros Hr HQ. unfold wp, update_record, get_record, set_record, store, call, mbind, modify.
  rewrite Hr. simpl. pose proof (journal_store_spec (g r) (world s)) as H.
  destruct (journal_store (g r) (world s)) as [res w]. destruct H as (H1 & H2 & H3 & H4).
  simpl. apply HQ; simpl; try done. destruct H1; auto.
Qed.

Lemma safe_update g s s' r :
  safe s -> record s = Some r -> record s' = Some (g r) ->
  (forall x, present s' x <-> present s x) ->
  (durable s' = durable s \/ durable s' = Some (g r)) ->
  (forall x, present s x -> owned r x -> owned (g r) x) ->
  safe s'.
Proof.
  intros Hs Hr Hr' Hp Hd Hg x Hx. apply Hp in Hx. destruct (Hs x Hx) as [H1 H2].
  rewrite Hr in H2. rewrite Hr'. simpl. split; [|by apply Hg].
  destruct Hd as [-> | ->]; [done|]. simpl. by apply Hg.
Qed.

(** The same for [self.journal.store(&r)?; self.record = Some(r)]. *)
Lemma wp_store_then_set r' (Q : Result NetworkError unit -> NetworkTransaction W -> Prop) s :
  (forall res s',
     (if is_ok res then record s' = Some r' else record s' = record s) ->
     (forall x, present s' x <-> present s x) ->
     (durable s' = durable s \/ durable s' = Some r') ->
     (is_ok res = true -> durable s' = Some r') ->
     (healthy (world s) -> healthy (world s') /\ is_ok res = true) -> Q res s') ->
  wp (store_then_set r') Q s.
Proof.
  intros HQ. unfold wp, store_then_set, set_record, store, call, mbind, modify.
  pose proof (journal_store_spec r' (world s)) as H.
  destruct (journal_store r' (world s)) as [[[]|e] w]; destruct H as (H1 & H2 & H3 & H4);
    simpl; apply HQ; simpl; try done; destruct H1; auto.
Qed.

Lemma safe_store_set (ok : bool) s s' r' :
  safe s -> (if ok then record s' = Some r' else record s' = record s) ->
  (forall x, present s' x <-> present s x) ->
  (durable s' = durable s \/ durable s' = Some r') ->
  (forall x, present s x -> owned r' x) ->
  safe s'.
Proof.
  intros Hs Hr Hp Hd Ho x Hx. apply Hp in Hx. destruct (Hs x Hx) as [H1 H2]. split.
  - destruct Hd as [-> | ->]; [done|]. simpl. auto.
  - destruct ok; rewrite Hr; [simpl; auto|done].
Qed.

Lemma wp_clear (Q : Result NetworkError unit -> NetworkTransaction W -> Prop) s :
  (forall res s', record s' = record s -> (forall x, present s' x <-> present s x) ->
     (durable s' = durable s \/ durable s' = None) ->
     (is_ok res = true -> durable s' = None) ->
     (healthy (world s) -> healthy (world s') /\ is_ok res = true) -> Q res s') ->
  wp (call journal_clear) Q s.
Proof.
  intros HQ. unfold wp, call. pose proof (journal_clear_spec (world s)) as H.
  destruct (journal_clear (world s)) as [res w]. destruct H as (H1 & H2 & H3 & H4).
  simpl. apply HQ; try done. destruct H1; auto.
Qed.

Lemma wp_get_record (Q : Result NetworkError TransactionRecord -> NetworkTransaction W -> Prop) s r :
  record s = Some r -> Q (Ok r) s -> wp get_record Q s.
Proof. intros Hr HQ. unfold wp, get_record. by rewrite Hr. Qed.

End Safety.
