(* ===== verification/NetworkFacts.v ===== *)
(** * What the transaction guarantees

    Over any machine that meets the contract of [Kernel]: write-ahead journaling, the
    completeness of cleanup, and what each operation establishes. *)
From stdpp Require Import base tactics list numbers option sorting.
From Stdlib Require Import ZArith Lia.
From S2P Require Import Prelude Ipv4 Wire Proto Network Kernel.

Section Facts.
Context {W : Type} `{!NetworkBackend W} `{!NetworkJournal W} `{!Machine W}.

Implicit Types s : NetworkTransaction W.

(** ** Ownership under changes of a record *)

Lemma owned_mono r r' x :
  record_declaration r' = record_declaration r -> recovery_candidate r' = recovery_candidate r ->
  (forall i, step_done r i -> step_done r' i) ->
  (record_phase r = TpDraining -> record_phase r' = TpDraining) ->
  owned r x -> owned r' x.
Proof.
  intros H1 H2 H3 H4. unfold owned. rewrite H1, H2. destruct x; auto; intuition auto.
Qed.

Lemma owned_complete_step r i x :
  0 <= i -> owned r x -> owned (set_steps (Z.lor (completed_steps r) (2 ^ i)) r) x.
Proof.
  intros Hi. apply owned_mono; try done. intros j. unfold step_done. simpl.
  destruct (decide (0 <= j)).
  - rewrite complete_step_bit by done. by intros ->.
  - by rewrite Z.testbit_neg_r by lia.
Qed.

Lemma step_done_complete r i :
  0 <= i -> step_done (set_steps (Z.lor (completed_steps r) (2 ^ i)) r) i.
Proof.
  intros Hi. unfold step_done. simpl. rewrite complete_step_bit by done.
  by rewrite bool_decide_eq_true_2, orb_true_r.
Qed.

Lemma owned_phase r p x :
  record_phase r <> TpDraining -> owned r x -> owned (set_record_phase p r) x.
Proof. intros Hp. by apply owned_mono. Qed.

(** Clearing a step disowns only what that step created. *)
Definition step_objects (d : PrepareDeclaration) (i : Z) : list Resource :=
  match i with
  | 0 => [RLink]
  | 1 => routes_of d
  | 2 => [RFirewall (table_id d)]
  | 3 => [RSysctls]
  | 4 => [RLinkUp]
  | 5 => [RRule (table_id d)]
  | _ => []
  end.

Lemma elem_of_routes_of d t p :
  RRoute t p ∈ routes_of d <-> t = table_id d /\ p ∈ declared_prefixes d.
Proof.
  unfold routes_of, table_routes. rewrite list_elem_of_fmap. split.
  - intros (q & [= -> ->] & H). done.
  - intros [-> H]. eauto.
Qed.

Lemma owned_clear_step r i x :
  0 <= i < 6 -> x ∉ step_objects (record_declaration r) i ->
  owned r x -> owned (set_steps (Z.land (completed_steps r) (u16_not (2 ^ i))) r) x.
Proof.
  intros Hi Hx.
  assert (Hb : forall j, 0 <= j < 6 -> i <> j -> step_done r j ->
            step_done (set_steps (Z.land (completed_steps r) (u16_not (2 ^ i))) r) j).
  { intros j Hj Hne H. unfold step_done. simpl. rewrite clear_step_bit by lia.
    rewrite bool_decide_eq_false_2 by done. by rewrite H. }
  assert (Hne : forall j, 0 <= j < 6 -> x ∈ step_objects (record_declaration r) j -> i <> j).
  { intros j Hj Hin ->. done. }
  unfold owned. cbn [record_declaration recovery_candidate record_phase set_steps].
  destruct x; cbv beta iota.
  - intros H. apply Hb; [lia| |done]. apply Hne; [lia|]. apply list_elem_of_singleton. done.
  - intros H. apply Hb; [lia| |done]. apply Hne; [lia|]. apply list_elem_of_singleton. done.
  - intros H. apply Hb; [lia| |done]. apply Hne; [lia|]. apply list_elem_of_singleton. done.
  - intros [(H & -> & Hp)|H]; [left|by right]. split; [|done]. apply Hb; [lia| |done].
    apply Hne; [lia|]. by apply elem_of_routes_of.
  - intros [(H & ->)|H]; [left|by right]. split; [|done]. apply Hb; [lia| |done].
    apply Hne; [lia|]. apply list_elem_of_singleton. done.
  - intros [(H & ->)|H]; [left|by right]. split; [|done]. apply Hb; [lia| |done].
    apply Hne; [lia|]. apply list_elem_of_singleton. done.
Qed.

(** ** Cleanup *)

Definition cleared (i : Z) (r : TransactionRecord) : TransactionRecord :=
  set_steps (Z.land (completed_steps r) (u16_not (2 ^ i))) r.

(** What one [cleanup_step!] does to a safe state. *)
Lemma wp_cleanup_step (needed : bool) op i fe s r :
  0 <= i < 6 -> safe s -> record s = Some r ->
  spec_remove installed disk healthy (step_objects (record_declaration r) i) op ->
  wp (cleanup_step needed op (Z.shiftl 1 i) fe) (fun res s' =>
    exists fe' r', res = Ok fe' /\ record s' = Some r' /\ safe s' /\
      (forall x, present s' x -> present s x) /\
      (r' = r \/ r' = cleared i r) /\
      (fe' = None -> fe = None /\ (needed = true -> r' = cleared i r) /\
         (durable s = Some r -> durable s' = Some r')) /\
      (healthy (world s) -> healthy (world s') /\ fe' = fe)) s.
Proof.
  intros Hi Hs Hr Hop. unfold cleanup_step. destruct needed.
  2:{ apply wp_mret. exists fe, r. split_and!; auto; naive_solver. }
  apply wp_mbind, wp_attempt. eapply wp_call_remove; [exact Hop|].
  intros res s1 Hr1 Hd1 Hp1 Hok Hh. assert (Hs1 : safe s1) by (by eapply safe_remove).
  destruct res as [[]|e].
  2:{ apply wp_mret. exists (note_error fe e), r. rewrite Hr1. split_and!; auto.
      - by destruct fe.
      - intros [_ ?]%Hh. done. }
  apply wp_mbind, wp_attempt. unfold clear_step. rewrite step_value by lia.
  apply (wp_update_record _ _ _ r); [congruence|].
  intros res2 s2 Hr2 Hp2 Hd2 Hok2 Hh2. apply wp_mret.
  exists (note_result fe res2), (cleared i r). split_and!; auto.
  - eapply (safe_update _ s1 s2 r); try done; [congruence|].
    intros x Hx. apply owned_clear_step; [done|]. intros Hin. by apply (Hok eq_refl x Hin).
  - intros x Hx. by apply Hp1, Hp2.
  - destruct res2 as [[]|e2]; simpl; [|by destruct fe].
    intros ->. split_and!; auto.
  - intros Hw. apply Hh in Hw as [Hw _]. apply Hh2 in Hw as [Hw Hk].
    split; [done|]. by destruct res2.
Qed.

(** The state of [cleanup_record] after some of its stages: [done_steps] have been
    undone unless an error was noted. *)
Record stage (r0 : TransactionRecord) (done_steps : list Z) (s0 : NetworkTransaction W)
    (fe : option NetworkError) (s : NetworkTransaction W) (r : TransactionRecord) : Prop := {
  st_record : record s = Some r;
  st_safe : safe s;
  st_declaration : record_declaration r = record_declaration r0;
  st_phase : record_phase r = TpRollingBack;
  st_steps : forall j, step_done r j -> step_done r0 j;
  st_clean : fe = None ->
    recovery_candidate r = None /\ durable s = Some r /\
    (forall i, i ∈ done_steps -> ~ step_done r i);
  st_present : forall x, present s x -> present s0 x;
  st_healthy : healthy (world s0) -> healthy (world s) /\ fe = None;
}.

Lemma step_done_neg r j : step_done r j -> 0 <= j.
Proof.
  unfold step_done. intros H. destruct (decide (0 <= j)); [done|].
  by rewrite Z.testbit_neg_r in H by lia.
Qed.

Lemma step_done_cleared r i j :
  0 <= i < 16 -> step_done (cleared i r) j -> step_done r j /\ (j < 16 -> i <> j).
Proof.
  intros Hi H. pose proof (step_done_neg _ _ H) as Hj. unfold step_done, cleared in *. simpl in *.
  destruct (decide (j < 16)).
  - rewrite clear_step_bit in H by lia. apply andb_true_iff in H as [H1 H2].
    split; [done|]. intros _ ->. by rewrite bool_decide_eq_true_2 in H2.
  - rewrite Z.land_spec in H. apply andb_true_iff in H as [H _]. split; [done|lia].
Qed.

Lemma stage_step r0 done_steps s0 (needed : bool) op i fe s r :
  0 <= i < 6 -> stage r0 done_steps s0 fe s r ->
  (needed = false -> ~ step_done r0 i) ->
  spec_remove installed disk healthy (step_objects (record_declaration r0) i) op ->
  wp (cleanup_step needed op (Z.shiftl 1 i) fe) (fun res s' =>
    exists fe' r', res = Ok fe' /\ stage r0 (i :: done_steps) s0 fe' s' r') s.
Proof.
  intros Hi [Hr Hs Hd Hp Hst Hcl Hpr Hh] Hneed Hop.
  eapply wp_mono; [apply (wp_cleanup_step needed op i fe s r); try done; by rewrite Hd|].
  intros res s' (fe' & r' & -> & Hr' & Hs' & Hpr' & Hcase & Hfe & Hh'). exists fe', r'.
  split; [done|]. constructor; try done.
  - by destruct Hcase as [-> | ->].
  - by destruct Hcase as [-> | ->].
  - intros j Hj. apply Hst. destruct Hcase as [-> | ->]; [done|].
    apply step_done_cleared in Hj; [tauto|lia].
  - intros Hn. destruct (Hfe Hn) as (-> & Hn1 & Hn2). destruct (Hcl eq_refl) as (C1 & C2 & C3).
    split_and!; [by destruct Hcase as [-> | ->]|auto|].
    intros j [->|Hj]%elem_of_cons Hdone.
    + destruct needed.
      * rewrite Hn1 in Hdone by done. apply step_done_cleared in Hdone; [|lia]. lia.
      * apply (Hneed eq_refl). destruct Hcase as [-> | ->]; [auto|].
        apply step_done_cleared in Hdone; [|lia]. lia.
    + apply (C3 j Hj). destruct Hcase as [-> | ->]; [done|].
      apply step_done_cleared in Hdone; [tauto|lia].
  - auto.
  - intros H0. apply Hh in H0 as [H1 ->]. apply Hh' in H1. done.
Qed.

Lemma wp_cleanup_candidate s r :
  safe s -> record s = Some r -> durable s = Some r -> record_phase r = TpRollingBack ->
  wp (cleanup_candidate (recovery_candidate r)) (fun res s' =>
    exists fe' r', res = Ok fe' /\ stage r [] s fe' s' r') s.
Proof.
  intros Hs Hr Hdur Hp. unfold cleanup_candidate. destruct (recovery_candidate r) as [c|] eqn:Ec.
  2:{ apply wp_mret. exists None, r. split; [done|]. constructor; try done. intros _.
      split_and!; try done. intros i Hi. by apply elem_of_nil in Hi. }
  apply wp_mbind, wp_attempt. eapply wp_call_remove; [apply remove_firewall_spec|].
  intros res1 s1 Hr1 Hd1 Hp1 Hok1 Hh1.
  apply wp_mbind, wp_attempt. eapply wp_call_remove; [apply remove_routes_spec|].
  intros res2 s2 Hr2 Hd2 Hp2 Hok2 Hh2.
  assert (Hs2 : safe s2).
  { eapply (safe_remove s1); [|done..]. by eapply (safe_remove s). }
  destruct (note_result (note_result None res1) res2) as [e|] eqn:En.
  { apply wp_mret. exists (Some e), r. split; [done|]. constructor; try done; [congruence|auto|].
    intros H0. apply Hh1 in H0 as [H0 ?]. apply Hh2 in H0 as [H0 ?].
    by destruct res1, res2. }
  assert (is_ok res1 = true /\ is_ok res2 = true) as [K1 K2] by (by destruct res1, res2).
  apply wp_mbind. apply (wp_get_record _ _ r); [congruence|].
  apply wp_mbind, wp_attempt. apply (wp_update_record _ _ _ r); [congruence|].
  intros res3 s3 Hr3 Hp3 Hd3 Hok3 Hh3. apply wp_mret.
  exists (note_result None res3), (set_candidate None None r). split; [done|]. constructor; try done.
  - eapply (safe_update _ s2 s3 r); try done; [congruence|].
    intros x Hx. unfold owned. rewrite Ec.
    cbn [record_declaration recovery_candidate record_phase set_candidate].
    destruct x; try done.
    + intros [?|(c' & [= <-] & -> & Hin)]; [by left|]. exfalso.
      by eapply (Hok2 K2); [by apply elem_of_routes_of|].
    + intros [?|(c' & [= <-] & ->)]; [by left|]. exfalso.
      apply (Hok1 K1 (RFirewall (table_id c))); [apply list_elem_of_singleton; done|]. auto.
    + intros [?|(Hph & _)]; [by left|]. congruence.
  - intros Hn. split_and!; [done| |].
    + apply Hok3. by destruct res3.
    + intros i Hi. by apply elem_of_nil in Hi.
  - intros x Hx. apply Hp1, Hp2, Hp3, Hx.
  - intros H0. apply Hh1 in H0 as [H0 _]. apply Hh2 in H0 as [H0 _].
    apply Hh3 in H0 as [H0 ?]. by destruct res3.
Qed.

Lemma wp_clear_finished r0 s0 fe s r :
  steps_wf r0 -> stage r0 [0; 1; 2; 3; 4; 5] s0 fe s r ->
  wp (clear_finished fe) (fun res s' =>
    exists fe', res = Ok fe' /\ safe s' /\ (forall x, present s' x -> present s0 x) /\
      (fe' = None -> record s' = None /\ durable s' = None /\ forall x, ~ present s' x) /\
      (healthy (world s0) -> healthy (world s') /\ fe' = None)) s.
Proof.
  intros Hwf [Hr Hs Hd Hp Hst Hcl Hpr Hh]. unfold clear_finished.
  apply wp_mbind, wp_gets. rewrite Hr.
  destruct ((completed_steps r =? 0) && bool_decide (recovery_candidate r = None)) eqn:E.
  - apply andb_true_iff in E as [E1 E2]. apply Z.eqb_eq in E1. apply bool_decide_eq_true in E2.
    assert (Hnone : forall x, ~ present s x).
    { intros x Hx. destruct (Hs x Hx) as [_ Ho]. rewrite Hr in Ho. unfold covered, owned, step_done in Ho.
      rewrite E1, E2 in Ho. destruct x; rewrite ?Z.bits_0 in Ho; naive_solver. }
    apply wp_mbind, wp_attempt, wp_clear. intros res s1 Hr1 Hp1 Hd1 Hok1 Hh1.
    assert (Hnone1 : forall x, ~ present s1 x) by (intros x Hx; by apply (Hnone x), Hp1).
    destruct res as [[]|e].
    + apply wp_mbind, wp_modify, wp_mret. exists fe. split_and!; try done.
      * intros x Hx. by apply Hnone1 in Hx.
      * intros x Hx. by apply Hnone1 in Hx.
      * intros _. split_and!; [done| |done]. by apply Hok1.
      * intros H0. apply Hh in H0 as [H0 ?]. apply Hh1 in H0 as [? _]. done.
    + apply wp_mret. exists (note_error fe e). split_and!; try done.
      * intros x Hx. by apply Hnone1 in Hx.
      * intros x Hx. by apply Hnone1 in Hx.
      * by destruct fe.
      * intros H0. apply Hh in H0 as [H0 ?]. apply Hh1 in H0 as [? ?]. done.
  - apply wp_mret. exists fe. split_and!; try done.
    intros Hn. exfalso. destruct (Hcl Hn) as (C1 & C2 & C3).
    rewrite (bool_decide_eq_true_2 _ C1), andb_true_r in E. apply Z.eqb_neq in E. apply E.
    apply Z.bits_inj'. intros j Hj. rewrite Z.bits_0. apply not_true_iff_false.
    intros Hdone. destruct (decide (j < 6)) as [Hlt|Hge].
    + apply (C3 j); [|done]. rewrite !elem_of_cons. lia.
    + apply Hst in Hdone. unfold step_done in Hdone. destruct Hwf as [W0 W1].
      rewrite Z.bits_above_log2 in Hdone; try done.
      destruct (decide (completed_steps r0 = 0)) as [->|]; [simpl; lia|].
      assert (Z.log2 (completed_steps r0) < 6); [|lia]. apply Z.log2_lt_pow2; lia.
Qed.

Lemma declared_cleanup r : routes_of (routes_for_cleanup r) = routes_of (record_declaration r).
Proof.
  unfold routes_of, declared_prefixes, routes_for_cleanup. simpl. do 2 f_equal.
  rewrite map_map. apply map_ext. intros route. by case_bool_decide.
Qed.

(** What [cleanup_record] guarantees. *)
Definition cleaned s0 (res : Result NetworkError unit) s : Prop :=
  safe s /\ (forall x, present s x -> present s0 x) /\
  (is_ok res = true -> record s = None /\ durable s = None /\ forall x, ~ present s x) /\
  (healthy (world s0) -> healthy (world s) /\ is_ok res = true).

Lemma wp_cleanup_record s r :
  safe s -> record s = Some r -> record_phase r <> TpDraining -> steps_wf r ->
  wp cleanup_record (cleaned s) s.
Proof.
  intros Hs Hr Hp Hwf. unfold cleanup_record. apply wp_mbind. unfold set_phase.
  apply (wp_update_record _ _ _ r); [done|]. intros res s0 Hr0 Hp0 Hd0 Hok0 Hh0.
  assert (Hs0 : safe s0).
  { eapply (safe_update _ s s0 r); try done. intros x _. by apply owned_phase. }
  assert (Hpres : forall x, present s0 x -> present s x) by (intros x; by rewrite Hp0).
  destruct res as [[]|e].
  2:{ split_and!; try done. }
  specialize (Hok0 eq_refl). set (r0 := set_record_phase TpRollingBack r) in *.
  apply wp_mbind, (wp_get_record _ _ r0); [done|]. apply wp_mbind.
  eapply wp_mono; [by apply wp_cleanup_candidate|].
  assert (Hspec : forall i (needed : bool) op l fe s1 r1,
    stage r0 l s0 fe s1 r1 -> 0 <= i < 6 -> (needed = false -> ~ step_done r0 i) ->
    spec_remove installed disk healthy (step_objects (record_declaration r0) i) op ->
    wp (cleanup_step needed op (Z.shiftl 1 i) fe) (fun res s' =>
      exists fe' r', res = Ok fe' /\ stage r0 (i :: l) s0 fe' s' r') s1).
  { intros i needed op l fe s1 r1 Hst Hi Hn Hop. by apply (stage_step r0 l s0 needed op i fe s1 r1). }
  assert (Hneed : forall i, 0 <= i -> has_step r0 (Z.shiftl 1 i) = false -> ~ step_done r0 i).
  { intros i Hi Hn. rewrite step_value in Hn by done. rewrite <- has_step_iff by done. congruence. }
  intros res1 s1 (fe1 & r1 & -> & H1). apply wp_mbind.
  eapply wp_mono; [apply (Hspec 5 _ _ _ _ _ r1 H1); [lia|by apply (Hneed 5)|apply remove_policy_rule_spec]|].
  intros res2 s2 (fe2 & r2 & -> & H2). apply wp_mbind.
  eapply wp_mono; [apply (Hspec 4 _ _ _ _ _ r2 H2); [lia| |apply deactivate_link_spec]|].
  { unfold STEP_LINK, STEP_LINK_ACTIVE. rewrite !step_value by lia. intros Hn Hdone.
    apply not_true_iff_false in Hn. rewrite has_either_step_iff in Hn by lia. tauto. }
  intros res3 s3 (fe3 & r3 & -> & H3). apply wp_mbind.
  eapply wp_mono; [apply (Hspec 3 _ _ _ _ _ r3 H3); [lia|by apply (Hneed 3)|apply restore_sysctls_spec]|].
  intros res4 s4 (fe4 & r4 & -> & H4). apply wp_mbind.
  eapply wp_mono; [apply (Hspec 2 _ _ _ _ _ r4 H4); [lia|by apply (Hneed 2)|apply remove_firewall_spec]|].
  intros res5 s5 (fe5 & r5 & -> & H5). apply wp_mbind.
  eapply wp_mono; [apply (Hspec 1 _ _ _ _ _ r5 H5); [lia|by apply (Hneed 1)|]|].
  { change (step_objects (record_declaration r0) 1) with (routes_of (record_declaration r0)).
    rewrite <- (declared_cleanup r0). apply remove_routes_spec. }
  intros res6 s6 (fe6 & r6 & -> & H6). apply wp_mbind.
  eapply wp_mono; [apply (Hspec 0 _ _ _ _ _ r6 H6); [lia|by apply (Hneed 0)|apply remove_link_spec]|].
  intros res7 s7 (fe7 & r7 & -> & H7). apply wp_mbind.
  eapply wp_mono; [by apply (wp_clear_finished r0 s0 fe7 s7 r7)|].
  intros res8 s8 (fe8 & -> & Hs8 & Hp8 & Hn8 & Hh8). apply wp_lift. split_and!; auto.
  - destruct fe8; [done|]. intros _. by apply Hn8.
  - intros H0. apply Hh0 in H0 as [H0 _]. apply Hh8 in H0 as [H0 ->]. done.
Qed.

(** ** Steps of preparation *)

Definition completed (i : Z) (r : TransactionRecord) : TransactionRecord :=
  set_steps (Z.lor (completed_steps r) (2 ^ i)) r.

Lemma step_objects_owned i r x :
  0 <= i < 6 -> step_done r i -> x ∈ step_objects (record_declaration r) i -> owned r x.
Proof.
  intros Hi Hd Hx.
  assert (i = 0 \/ i = 1 \/ i = 2 \/ i = 3 \/ i = 4 \/ i = 5) as Hc by lia.
  destruct Hc as [-> |[-> |[-> |[-> |[-> | ->]]]]]; cbn [step_objects] in Hx.
  2:{ destruct x; try (apply list_elem_of_fmap in Hx as (? & ? & _); done).
      apply elem_of_routes_of in Hx as [-> Hp]. left. done. }
  all: apply list_elem_of_singleton in Hx as ->; cbn; auto.
Qed.

(** A backend call under an error stage behaves like the call. *)
Lemma wp_staged_install {A} (X : list Resource) (f : WorldM W A) st
    (Q : Result NetworkError A -> NetworkTransaction W -> Prop) s :
  spec_install installed disk healthy X f ->
  (forall r s', record s' = record s -> durable s' = durable s ->
     (forall x, x ∉ X -> present s' x <-> present s x) ->
     (is_ok r = true -> forall x, x ∈ X -> present s' x) ->
     (healthy (world s) -> healthy (world s')) -> Q r s') ->
  wp (staged_call f st) Q s.
Proof.
  intros Hf HQ. unfold staged_call. apply wp_mbind, wp_attempt.
  eapply wp_call_install; [exact Hf|]. intros r s' H1 H2 H3 H4 H5. apply wp_lift.
  destruct r; apply HQ; done.
Qed.

(** The record after one step and what is known about the kernel. *)
Record stepped (i : Z) (s s' : NetworkTransaction W) (r : TransactionRecord) (ok : bool) : Prop := {
  sp_safe : safe s';
  sp_record : record s' = Some (completed i r);
  sp_other : forall x, x ∉ step_objects (record_declaration r) i -> present s' x <-> present s x;
  sp_healthy : healthy (world s) -> healthy (world s');
  sp_ok : ok = true -> durable s' = Some (completed i r) /\
            forall x, x ∈ step_objects (record_declaration r) i -> present s' x;
}.

(** Journal a step, then run what may install its objects. *)
Lemma wp_step {A B} i (f : TransactionRecord -> WorldM W A) st (k : A -> TxM W B)
    (mid : TxM W TransactionRecord)
    (Q : Result NetworkError B -> NetworkTransaction W -> Prop) s r :
  0 <= i < 6 -> safe s -> record s = Some r ->
  (forall s', record s' = Some (completed i r) -> exists r', mid s' = (Ok r', s') /\
    spec_install installed disk healthy (step_objects (record_declaration r) i) (f r')) ->
  (forall e s', stepped i s s' r false -> Q (Err e) s') ->
  (forall a s', stepped i s s' r true -> wp (k a) Q s') ->
  wp (do* complete_step (Z.shiftl 1 i) in let* r' := mid in mbind (staged_call (f r') st) k) Q s.
Proof.
  intros Hi Hs Hr Hmid Herr Hok. apply wp_mbind. unfold complete_step. rewrite step_value by lia.
  apply (wp_update_record _ _ _ r); [done|]. intros res s1 Hr1 Hp1 Hd1 Hok1 Hh1.
  fold (completed i r) in *.
  assert (Hs1 : safe s1).
  { eapply (safe_update _ s s1 r); try done. intros x _. apply owned_complete_step. lia. }
  destruct res as [[]|e].
  2:{ apply Herr. constructor; try done. naive_solver. }
  specialize (Hok1 eq_refl). destruct (Hmid s1 Hr1) as (r' & Em & Hf).
  apply wp_mbind. unfold wp at 1. rewrite Em. cbn [fst snd].
  apply wp_mbind. eapply wp_staged_install; [exact Hf|].
  intros res s2 Hr2 Hd2 Hp2 Hok2 Hh2.
  assert (Hst : forall ok, (ok = true -> is_ok res = true) -> stepped i s s2 r ok).
  { intros ok Hk. constructor; try congruence.
    - eapply (safe_install (step_objects (record_declaration r) i) s1 s2); try done.
      intros x Hx. rewrite Hok1, Hr1. simpl.
      assert (owned (completed i r) x); [|done]. apply (step_objects_owned i); [done| |done].
      apply step_done_complete. lia.
    - intros x Hx. rewrite Hp2 by done. apply Hp1.
    - intros H0. apply Hh2, Hh1, H0.
    - intros ->. rewrite Hd2. auto. }
  destruct res as [a|e]; [by apply Hok, Hst|by apply Herr, Hst].
Qed.

Lemma wp_step_const {A B} i (f : WorldM W A) st (k : A -> TxM W B)
    (Q : Result NetworkError B -> NetworkTransaction W -> Prop) s r :
  0 <= i < 6 -> safe s -> record s = Some r ->
  spec_install installed disk healthy (step_objects (record_declaration r) i) f ->
  (forall e s', stepped i s s' r false -> Q (Err e) s') ->
  (forall a s', stepped i s s' r true -> wp (k a) Q s') ->
  wp (do* complete_step (Z.shiftl 1 i) in mbind (staged_call f st) k) Q s.
Proof.
  intros Hi Hs Hr Hf Herr Hok.
  apply (wp_step i (fun _ => f) st k (mret r) Q s r); try done. intros s' _. by exists r.
Qed.

(** A record whose preparation may be undone. *)
Definition undoable (r : TransactionRecord) : Prop :=
  record_phase r <> TpDraining /\ steps_wf r.

Lemma wp_or_cleanup (body : TxM W unit) (Q : Result NetworkError unit -> NetworkTransaction W -> Prop) s :
  wp body (fun res s' =>
    match res with
    | Ok _ => Q (Ok tt) s'
    | Err e => exists r, record s' = Some r /\ undoable r /\ safe s' /\
                 (forall res2 s2, cleaned s' res2 s2 -> Q (Err e) s2)
    end) s ->
  wp (or_cleanup body) Q s.
Proof.
  intros H. unfold or_cleanup. apply wp_mbind, wp_attempt. eapply wp_mono; [exact H|].
  intros [[]|e] s' HQ; apply wp_mbind; simpl.
  - by apply wp_mret, wp_lift.
  - destruct HQ as (r & Hr & [Hp Hw] & Hs & HQ). apply wp_ignore.
    eapply wp_mono; [by apply (wp_cleanup_record s' r)|].
    intros res2 s2 Hc. apply wp_lift. by eapply HQ.
Qed.

Lemma undoable_completed i r : 0 <= i < 6 -> undoable r -> undoable (completed i r).
Proof.
  intros Hi [Hp [H0 H1]]. split; [done|]. unfold steps_wf, completed. simpl.
  assert (Hb : 0 <= 2 ^ i < 2 ^ 6).
  { split; [by apply Z.pow_nonneg|]. apply Z.pow_lt_mono_r; lia. }
  split; [apply Z.lor_nonneg; lia|]. change 64 with (2 ^ 6) in *.
  destruct (decide (Z.lor (completed_steps r) (2 ^ i) = 0)) as [->|Hne]; [lia|].
  assert (0 <= Z.lor (completed_steps r) (2 ^ i)) by (apply Z.lor_nonneg; lia).
  apply Z.log2_lt_pow2; [lia|]. rewrite Z.log2_lor by lia. apply Z.max_lub_lt.
  - destruct (decide (completed_steps r = 0)) as [->|]; [simpl; lia|]. apply Z.log2_lt_pow2; lia.
  - rewrite Z.log2_pow2; lia.
Qed.

(** The objects of a prepared tunnel: everything but the policy rule. *)
Definition prepared_objects (d : PrepareDeclaration) : list Resource :=
  [RLink; RLinkUp; RSysctls; RFirewall (table_id d)] ++ routes_of d.

Definition prepare_failed s s' : Prop :=
  exists r, record s' = Some r /\ undoable r /\ safe s' /\ (healthy (world s) -> healthy (world s')).

(** A preparation that went through the steps [l]. *)
Record preparing s0 (d : PrepareDeclaration) (l : list Z) (r : TransactionRecord) s : Prop := {
  pr_record : record s = Some r;
  pr_safe : safe s;
  pr_declaration : record_declaration r = d;
  pr_undoable : undoable r;
  pr_healthy : healthy (world s0) -> healthy (world s);
  pr_present : forall x, present s x <-> exists i, i ∈ l /\ x ∈ step_objects d i;
}.

Lemma preparing_failed s0 d l r s : preparing s0 d l r s -> prepare_failed s0 s.
Proof. intros []. by exists r. Qed.

Lemma wp_preparing_step {A B} i (f : TransactionRecord -> WorldM W A) st (k : A -> TxM W B)
    (mid : TxM W TransactionRecord)
    (Q : Result NetworkError B -> NetworkTransaction W -> Prop) s0 d l r s :
  0 <= i < 6 -> preparing s0 d l r s ->
  (forall s', record s' = Some (completed i r) -> exists r', mid s' = (Ok r', s') /\
    spec_install installed disk healthy (step_objects d i) (f r')) ->
  (forall e s', prepare_failed s0 s' -> Q (Err e) s') ->
  (forall a s', preparing s0 d (i :: l) (completed i r) s' -> wp (k a) Q s') ->
  wp (do* complete_step (Z.shiftl 1 i) in let* r' := mid in mbind (staged_call (f r') st) k) Q s.
Proof.
  intros Hi [Hr Hs <- Hu Hh Hp] Hmid Herr Hok.
  apply (wp_step i f st k mid Q s r); [done..| |].
  - intros e s' [H1 H2 H3 H4 _]. apply Herr. exists (completed i r).
    split_and!; auto using undoable_completed.
  - intros a s' [H1 H2 H3 H4 H5]. apply Hok. constructor; auto using undoable_completed.
    intros x. destruct (H5 eq_refl) as [_ H6]. setoid_rewrite elem_of_cons.
    destruct (decide (x ∈ step_objects (record_declaration r) i)) as [Hx|Hx].
    + split; [eauto|auto].
    + rewrite H3, Hp by done. naive_solver.
Qed.

Lemma wp_preparing_const {A B} i (f : WorldM W A) st (k : A -> TxM W B)
    (Q : Result NetworkError B -> NetworkTransaction W -> Prop) s0 d l r s :
  0 <= i < 6 -> preparing s0 d l r s ->
  spec_install installed disk healthy (step_objects d i) f ->
  (forall e s', prepare_failed s0 s' -> Q (Err e) s') ->
  (forall a s', preparing s0 d (i :: l) (completed i r) s' -> wp (k a) Q s') ->
  wp (do* complete_step (Z.shiftl 1 i) in mbind (staged_call f st) k) Q s.
Proof.
  intros Hi Hs Hf Herr Hok.
  apply (wp_preparing_step i (fun _ => f) st k (mret r) Q s0 d l r s); try done.
  intros s' _. by exists r.
Qed.

Lemma preparing_objects s0 d r s :
  preparing s0 d [2; 1; 4; 0; 3] r s -> forall x, present s x <-> x ∈ prepared_objects d.
Proof.
  intros H x. rewrite (pr_present _ _ _ _ _ H). unfold prepared_objects.
  rewrite elem_of_app, !elem_of_cons, elem_of_nil. split.
  - intros (i & Hi & Hx). repeat (apply elem_of_cons in Hi as [->|Hi]; [cbn [step_objects] in Hx|]);
      try (apply elem_of_nil in Hi; done); try apply list_elem_of_singleton in Hx; tauto.
  - intros [[->|[->|[->|[->|[]]]]]|Hx]; [exists 0|exists 4|exists 3|exists 2|exists 1];
      (split; [rewrite !elem_of_cons; lia|]); cbn [step_objects]; try done;
      by apply list_elem_of_singleton.
Qed.

Lemma wp_prepare_steps s o d :
  let r0 := mkRecord o d None None TpPreparing 0 [] 0 [] in
  preparing s d [] r0 s ->
  wp prepare_steps (fun res s' =>
    match res with
    | Err _ => prepare_failed s s'
    | Ok _ => exists changes,
        let r := mkRecord o d None None TpPrepared 31 changes 0 [] in
        record s' = Some r /\ durable s' = Some r /\
        (healthy (world s) -> healthy (world s')) /\
        forall x, present s' x <-> x ∈ prepared_objects d
    end) s.
Proof.
  intros r0 Hp0. unfold prepare_steps. apply wp_mbind, (wp_get_record _ _ r0); [apply Hp0|].
  apply wp_mbind. eapply wp_staged_install; [apply preflight_spec|]. intros res s1 Hr1 Hd1 Hp1 _ Hh1.
  assert (Hpr1 : preparing s d [] r0 s1).
  { destruct Hp0 as [H1 H2 _ _ _ H3]. constructor; [congruence| |done| |done|].
    - by apply (safe_install [] s s1); try done; intros x ?%elem_of_nil.
    - by split.
    - intros x. rewrite Hp1 by apply not_elem_of_nil. apply H3. }
  destruct res as [changes|e]; [|by apply preparing_failed in Hpr1].
  apply wp_mbind, (wp_update_record _ _ _ r0); [apply Hpr1|]. intros res s2 Hr2 Hp2 Hd2 Hok2 Hh2.
  set (r1 := set_sysctls changes r0) in *.
  assert (Hpr2 : preparing s d [] r1 s2).
  { destruct Hpr1 as [H1 H2 _ _ H3 H4]. constructor; [done| |done|by split| |].
    - by eapply (safe_update _ s1 s2 r0).
    - intros H0. apply Hh2, H3, H0.
    - intros x. rewrite Hp2. apply H4. }
  destruct res as [[]|e]; [|by apply preparing_failed in Hpr2].
  apply (wp_preparing_step 3 (fun r => prepare_sysctls d (sysctls r)) SysctlPrepare _ get_record _
           s d [] r1); [lia|done| |done|].
  { intros s' Hr'. exists (completed 3 r1). unfold get_record. rewrite Hr'. split; [done|].
    apply prepare_sysctls_spec. }
  intros _ s3 H3. eapply wp_preparing_const; [|exact H3|apply prepare_link_spec|done|]; [lia|].
  intros _ s4 H4. eapply wp_preparing_const; [|exact H4|apply activate_link_spec|done|]; [lia|].
  intros _ s5 H5. eapply wp_preparing_const; [|exact H5|apply prepare_routes_spec|done|]; [lia|].
  intros _ s6 H6. eapply wp_preparing_const; [|exact H6|apply prepare_firewall_spec|done|]; [lia|].
  intros _ s7 H7. eapply wp_update_record; [apply H7|]. intros res s8 Hr8 Hp8 Hd8 Hok8 Hh8.
  assert (Hw8 : healthy (world s) -> healthy (world s8)).
  { intros H0. by apply Hh8, (pr_healthy _ _ _ _ _ H7). }
  destruct res as [[]|e].
  - exists changes. split_and!; [exact Hr8|by apply Hok8|done|].
    intros x. rewrite Hp8. by eapply (preparing_objects s).
  - eexists. split_and!; [exact Hr8|by split| |done].
    eapply (safe_update _ s7 s8); [apply H7|apply H7|exact Hr8|done|done|].
    by intros x _; apply owned_mono.
Qed.

(** A state in which nothing is retained and, when it is safe, nothing is installed. *)
Lemma safe_none s x : safe s -> record s = None -> ~ present s x.
Proof. intros Hs Hr Hx. apply Hs in Hx as [_ Hx]. by rewrite Hr in Hx. Qed.

Definition clean s : Prop := record s = None /\ durable s = None /\ forall x, ~ present s x.

(** The record of a prepared tunnel. *)
Definition prepared_record (o : LeaseOwner) (d : PrepareDeclaration) (changes : list SysctlChange)
  : TransactionRecord := mkRecord o d None None TpPrepared 31 changes 0 [].

Lemma wp_prepare o d s :
  safe s -> record s = None ->
  wp (prepare o d) (fun res s' => safe s' /\
    match res with
    | Ok _ => exists changes, record s' = Some (prepared_record o d changes) /\
                durable s' = record s' /\ forall x, present s' x <-> x ∈ prepared_objects d
    | Err _ => healthy (world s) -> record s' = None /\ forall x, ~ present s' x
    end) s.
Proof.
  intros Hs Hr. unfold prepare. apply wp_mbind, wp_gets. rewrite Hr. cbn iota.
  pose proof (fun x => safe_none s x Hs Hr) as Hnone.
  apply wp_mbind, wp_lift. destruct (map_err _ _) as [[]|e]; [|by split].
  apply wp_mbind, wp_store_then_set. intros res s1 Hr1 Hp1 Hd1 Hok1 Hh1.
  assert (Hnone1 : forall x, ~ present s1 x) by (intros x; by rewrite Hp1).
  destruct res as [[]|e].
  2:{ split; [by intros x Hx%Hnone1|]. intros [_ ?]%Hh1. done. }
  simpl in Hr1. apply wp_or_cleanup.
  eapply wp_mono; [apply (wp_prepare_steps s1 o d)|].
  { constructor; try done.
    - by intros x Hx%Hnone1.
    - intros x. split; [by intros ?%Hnone1|]. by intros (i & ?%elem_of_nil & _). }
  intros [[]|e] s2.
  - intros (changes & Hr2 & Hd2 & Hh2 & Hp2). split.
    + intros x Hx%Hp2. rewrite Hd2, Hr2. simpl.
      assert (owned (prepared_record o d changes) x); [|done].
      unfold prepared_objects in Hx. rewrite elem_of_app, !elem_of_cons, elem_of_nil in Hx.
      destruct Hx as [[->|[->|[->|[->|[]]]]]|Hx]; [done|done|done|by left|].
      by apply (step_objects_owned 1).
    + exists changes. split_and!; [done|congruence|done].
  - intros (r & Hr2 & Hu & Hs2 & Hh2). exists r. split_and!; [done|done|done|].
    intros res2 s3 (Hs3 & _ & Hok3 & Hh3). split; [done|]. intros H0.
    apply Hh1 in H0 as [H0 _]. apply Hh2, Hh3 in H0 as [_ H0].
    destruct (Hok3 H0) as (H1 & _ & H2). done.
Qed.

(** ** Commit *)

Lemma wp_commit_prepared s r :
  safe s -> record s = Some r -> undoable r ->
  wp (commit_prepared (record_declaration r)) (fun res s' => safe s' /\
    match res with
    | Ok _ => record s' = Some (set_record_phase TpActive (completed 5 r)) /\
              durable s' = record s' /\ present s' (RRule (table_id (record_declaration r))) /\
              forall x, x <> RRule (table_id (record_declaration r)) -> present s' x <-> present s x
    | Err _ => healthy (world s) -> clean s'
    end) s.
Proof.
  intros Hs Hr Hu. unfold commit_prepared. apply wp_or_cleanup.
  assert (Hfail : forall s1 r1, record s1 = Some r1 -> undoable r1 -> safe s1 ->
    (healthy (world s) -> healthy (world s1)) ->
    exists r2, record s1 = Some r2 /\ undoable r2 /\ safe s1 /\
      (forall res2 s2, cleaned s1 res2 s2 -> safe s2 /\
        (healthy (world s) -> clean s2))).
  { intros s1 r1 H1 H2 H3 H4. exists r1. split_and!; try done.
    intros res2 s2 (H5 & _ & H6 & H7). split; [done|]. intros H0.
    apply H4, H7 in H0 as [_ H0]. by apply H6. }
  apply (wp_step_const 5 (install_policy_rule _) PolicyActivate _ _ s r);
    [lia|done|done|apply install_policy_rule_spec| |].
  - intros e s1 [H1 H2 H3 H4 _]. apply (Hfail s1 (completed 5 r)); try done.
    apply undoable_completed; [lia|done].
  - intros _ s1 [H1 H2 H3 H4 H5]. eapply wp_update_record; [exact H2|].
    intros res s2 Hr2 Hp2 Hd2 Hok2 Hh2. destruct (H5 eq_refl) as [_ H6].
    assert (Hs2 : safe s2).
    { eapply (safe_update _ s1 s2); [done|exact H2|exact Hr2|done|done|].
      intros x _. apply owned_phase, Hu. }
    destruct res as [[]|e].
    + split; [done|]. split_and!; [done|rewrite Hok2; done| |].
      * apply Hp2, H6. by apply list_elem_of_singleton.
      * intros x Hx. rewrite Hp2. apply H3. cbn [step_objects]. by rewrite list_elem_of_singleton.
    + eapply Hfail; [exact Hr2| |done|].
      * destruct (undoable_completed 5 r ltac:(lia) Hu). by split.
      * intros H0. by apply Hh2, H4.
Qed.


(** ** The other methods keep a state safe *)

(** Every method starts by reading the record; without one it changes nothing. *)
Lemma wp_with_record {A} (k : TransactionRecord -> TxM W A)
    (Q : Result NetworkError A -> NetworkTransaction W -> Prop) s :
  (record s = None -> Q (Err NeInvalidTransition) s) ->
  (forall r, record s = Some r -> wp (k r) Q s) ->
  wp (let* r := get_record in k r) Q s.
Proof.
  intros Hn Hk. apply wp_mbind. unfold wp at 1, get_record. destruct (record s) as [r|] eqn:E; simpl; auto.
Qed.

Definition safe_post {A} (_ : Result NetworkError A) s : Prop := safe s.

Lemma wp_guard {A B} (g : Result NetworkError A) (k : A -> TxM W B)
    (Q : Result NetworkError B -> NetworkTransaction W -> Prop) s :
  (forall e, g = Err e -> Q (Err e) s) -> (forall a, g = Ok a -> wp (k a) Q s) ->
  wp (let* a := lift g in k a) Q s.
Proof. intros He Hk. apply wp_mbind, wp_lift. destruct g; auto. Qed.

(** Removing objects and going on. *)
Lemma wp_remove_then {A B} (X : list Resource) (f : WorldM W A) (k : A -> TxM W B)
    (Q : Result NetworkError B -> NetworkTransaction W -> Prop) s :
  safe s -> spec_remove installed disk healthy X f ->
  (forall e s', safe s' -> record s' = record s ->
     (forall x, present s' x -> present s x) -> Q (Err e) s') ->
  (forall a s', safe s' -> record s' = record s -> durable s' = durable s ->
     (forall x, present s' x -> present s x /\ x ∉ X) -> wp (k a) Q s') ->
  wp (let* a := call f in k a) Q s.
Proof.
  intros Hs Hf He Hk. apply wp_mbind. eapply wp_call_remove; [exact Hf|].
  intros r s' H1 H2 H3 H4 _. assert (safe s') by (by eapply safe_remove).
  destruct r as [a|e]; [|by apply He]. apply Hk; try done.
  intros x Hx. split; [auto|]. intros Hin. by apply (H4 eq_refl x Hin).
Qed.

Lemma wp_update_safe g s r :
  safe s -> record s = Some r -> (forall x, present s x -> owned r x -> owned (g r) x) ->
  wp (update_record g) (fun _ s' => safe s' /\ record s' = Some (g r) /\
        (forall x, present s' x <-> present s x)) s.
Proof.
  intros Hs Hr Hg. eapply wp_update_record; [exact Hr|]. intros res s' H1 H2 H3 _ _.
  split_and!; try done. by eapply (safe_update g s s' r).
Qed.

Lemma safe_suspend o s : safe s -> wp (suspend o) safe_post s.
Proof.
  intros Hs. apply wp_with_record; [done|]. intros r Hr. apply wp_guard; [done|]. intros _ _.
  case_bool_decide as Hsus; [by apply wp_mret|].
  case_bool_decide as Hact; [|by apply wp_mfail]. cbn [negb].
  eapply wp_remove_then; [done|apply remove_policy_rule_spec|done|].
  intros _ s1 Hs1 Hr1 _ Hp1. apply wp_mbind. unfold clear_step, STEP_POLICY_RULE.
  rewrite step_value by lia.
  eapply wp_mono; [apply (wp_update_safe _ s1 r); [done|congruence|]|].
  { intros x Hx. apply owned_clear_step; [lia|]. by apply Hp1 in Hx as [_ Hx]. }
  intros [|e] s2 (Hs2 & Hr2 & _); [|done].
  eapply wp_mono; [apply (wp_update_safe _ s2 _ Hs2 Hr2)|].
  - intros x _. apply owned_phase. cbn. by rewrite Hact.
  - by intros ? s3 [? _].
Qed.

Lemma discard_owned s r c x :
  recovery_candidate r = Some c -> record_phase r <> TpDraining ->
  (present s x -> (x ∉ routes_of c) /\ (x ∉ [RFirewall (table_id c)])) ->
  present s x -> owned r x -> owned (discard_candidate r) x.
Proof.
  intros Hc Hp Hgone Hx. apply Hgone in Hx as [Hx1 Hx2].
  unfold owned, discard_candidate. rewrite Hc. cbn. destruct x; auto.
  - intros [H|(c' & [= <-] & -> & Hin)]; [by left|]. exfalso. apply Hx1. by apply elem_of_routes_of.
  - intros [H|(c' & [= <-] & ->)]; [by left|]. exfalso. apply Hx2. by apply list_elem_of_singleton.
  - intros [H|[? _]]; [by left|done].
Qed.

Lemma safe_abandon s r :
  safe s -> record s = Some r -> record_phase r <> TpDraining ->
  wp (abandon_candidate r) safe_post s.
Proof.
  intros Hs Hr Hp. apply wp_guard; [done|]. intros c Hc.
  assert (Hcand : recovery_candidate r = Some c) by (by destruct (recovery_candidate r); simplify_eq/=).
  eapply wp_remove_then; [done|apply remove_firewall_spec|done|]. intros _ s1 Hs1 Hr1 _ Hp1.
  eapply wp_remove_then; [done|apply remove_routes_spec|done|]. intros _ s2 Hs2 Hr2 _ Hp2.
  eapply wp_mono; [apply (wp_update_safe _ s2 r); [done|congruence|]|by intros ? s3 [? _]].
  intros x Hx. eapply (discard_owned s2); [done|done| |done]. intros Hx2.
  apply Hp2 in Hx2 as [Hx2 ?]. by apply Hp1 in Hx2 as [_ ?].
Qed.

Lemma cleaned_safe s r :
  safe s -> record s = Some r -> record_phase r <> TpDraining -> steps_wf r ->
  wp cleanup_record safe_post s.
Proof.
  intros. eapply wp_mono; [by eapply wp_cleanup_record|]. by intros ? ? [? _].
Qed.

Lemma safe_rollback o s :
  safe s -> (forall r, record s = Some r -> undoable r) -> wp (rollback o) safe_post s.
Proof.
  intros Hs Hu. apply wp_with_record; [done|]. intros r Hr. destruct (Hu r Hr) as [Hp Hw].
  destruct (candidate_staged r); apply wp_guard; try done; intros _ _.
  - by apply safe_abandon.
  - by eapply cleaned_safe.
Qed.

Lemma safe_renew o s : safe s -> wp (renew_lease o) safe_post s.
Proof.
  intros Hs. apply wp_with_record; [done|]. intros r Hr. apply wp_guard; [done|]. intros _ _.
  eapply wp_mono; [by apply (wp_update_safe _ s r)|by intros ? s3 [? _]].
Qed.

Lemma safe_update_mtu o mtu s : safe s -> wp (update_mtu o mtu) safe_post s.
Proof.
  intros Hs. unfold update_mtu. destruct (negb _); [by apply wp_mfail|].
  apply wp_with_record; [done|]. intros r Hr. apply wp_guard; [done|]. intros _ _.
  destruct (_ || _); [by apply wp_mfail|]. apply wp_mbind.
  eapply wp_call_install; [apply update_link_mtu_spec|]. intros res s1 Hr1 Hd1 Hp1 _ _.
  assert (Hs1 : safe s1).
  { apply (safe_install [] s s1); try done. by intros x ?%elem_of_nil. }
  destruct res; [|done].
  eapply wp_mono; [apply (wp_update_safe _ s1 r); [done|congruence|]|by intros ? s3 [? _]].
  done.
Qed.

(** [drain_old] hands the tunnel over to the candidate, whose objects the completed steps
    then own. *)
Definition handover_ready (r : TransactionRecord) : Prop :=
  record_phase r = TpDraining -> step_done r 1 /\ step_done r 2 /\ step_done r 5.

Lemma promote_owned s r c o x :
  recovery_candidate r = Some c -> step_done r 1 -> step_done r 2 -> step_done r 5 ->
  (present s x -> (x ∉ routes_of (record_declaration r)) /\
     (x ∉ [RFirewall (table_id (record_declaration r))]) /\
     (x ∉ [RRule (table_id (record_declaration r))])) ->
  present s x -> owned r x -> owned (promote_candidate o c r) x.
Proof.
  intros Hc H1 H2 H5 Hgone Hx. apply Hgone in Hx as (Hx1 & Hx2 & Hx3).
  unfold owned, promote_candidate. rewrite Hc. cbn. destruct x; auto.
  - intros [(_ & -> & Hin)|(c' & [= <-] & -> & Hin)]; [|by left].
    exfalso. apply Hx1. by apply elem_of_routes_of.
  - intros [(_ & ->)|(c' & [= <-] & ->)]; [|by left].
    exfalso. apply Hx2. by apply list_elem_of_singleton.
  - intros [(_ & ->)|(_ & c' & [= <-] & ->)]; [|by left].
    exfalso. apply Hx3. by apply list_elem_of_singleton.
Qed.

Lemma safe_drain o now s :
  safe s -> (forall r, record s = Some r -> handover_ready r) -> wp (drain_old o now) safe_post s.
Proof.
  intros Hs Hu. apply wp_with_record; [done|]. intros r Hr. apply wp_guard; [done|]. intros _ _.
  destruct (_ && _); [by apply wp_mret|].
  case_bool_decide as Hph; cbn [negb]; [|by apply wp_mfail].
  destruct (_ && _); [by apply wp_mfail|]. apply wp_guard; [done|]. intros c Hc.
  assert (Hcand : recovery_candidate r = Some c) by (by destruct (recovery_candidate r); simplify_eq/=).
  destruct (Hu r Hr Hph) as (B1 & B2 & B5).
  eapply wp_remove_then; [done|apply remove_policy_rule_spec|done|]. intros _ s1 Hs1 Hr1 _ Hp1.
  eapply wp_remove_then; [done|apply remove_firewall_spec|done|]. intros _ s2 Hs2 Hr2 _ Hp2.
  eapply wp_remove_then; [done|apply remove_routes_spec|done|]. intros _ s3 Hs3 Hr3 _ Hp3.
  eapply wp_mono; [apply (wp_update_safe _ s3 r); [done|congruence|]|by intros ? s4 [? _]].
  intros x Hx. eapply (promote_owned s3); try done. intros Hx3.
  apply Hp3 in Hx3 as [Hx2 ?]. apply Hp2 in Hx2 as [Hx1 ?]. by apply Hp1 in Hx1 as [_ ?].
Qed.

Lemma safe_commit o now timeout s :
  safe s -> (forall r, record s = Some r -> undoable r /\ recovery_candidate r = None) ->
  wp (commit_with_drain o now timeout) safe_post s.
Proof.
  intros Hs Hu. apply wp_with_record; [done|]. intros r Hr. apply wp_guard; [done|]. intros _ _.
  destruct (Hu r Hr) as [Hund Hc]. case_bool_decide; [by apply wp_mret|].
  assert (Hp : wp (commit_prepared (record_declaration r)) safe_post s).
  { eapply wp_mono; [by apply wp_commit_prepared|]. by intros ? ? [? _]. }
  rewrite Hc. destruct (record_phase r); try done; by apply wp_mret || by apply wp_mfail.
Qed.

Lemma safe_recover alive now s :
  safe s ->
  (forall r, record s = Some r ->
     steps_wf r /\ handover_ready r /\ policy_update_interrupted r = false) ->
  wp (recover_orphan alive now) safe_post s.
Proof.
  intros Hs Hu. unfold recover_orphan. apply wp_mbind, wp_gets.
  destruct (record s) as [r|] eqn:Hr; [|by apply wp_mret].
  destruct (Hu r eq_refl) as (Hw & Hready & ->).
  assert (Hcont : forall (m : TxM W unit), wp m safe_post s ->
            wp (do* m in mret true) safe_post s).
  { intros m Hm. apply wp_mbind. eapply wp_mono; [exact Hm|]. by intros [|] s'. }
  destruct (candidate_staged r) eqn:Est.
  { destruct (lease_holds _ _ _); [by apply wp_mret|]. apply Hcont, safe_abandon; try done.
    unfold candidate_staged in Est. intros Hd. rewrite Hd in Est.
    apply andb_true_iff in Est as [_ Est]. done. }
  case_bool_decide as Hd.
  { destruct (_ && _); [by apply wp_mret|]. apply Hcont, safe_drain; [done|].
    intros r' Hr'. by simplify_eq. }
  destruct (_ && _); [by apply wp_mret|]. apply Hcont. by eapply cleaned_safe.
Qed.

(** ** Invariants of the record

    A property of records that every change preserves holds of the record in memory and
    of the durable one after any method, whatever the machine does. *)
Section Keeps.
Variable P : TransactionRecord -> Prop.

Definition all_records s : Prop :=
  (forall r, record s = Some r -> P r) /\ (forall r, durable s = Some r -> P r).

Definition keeps {A} (m : TxM W A) : Prop := forall s, all_records s -> all_records (m s).2.

Lemma keeps_mret {A} (a : A) : keeps (mret a).
Proof. by intros s. Qed.
Lemma keeps_mfail {A} e : keeps (A := A) (mfail e).
Proof. by intros s. Qed.
Lemma keeps_lift {A} (r : Result NetworkError A) : keeps (lift r).
Proof. by intros s. Qed.

Lemma keeps_bind {A B} (m : TxM W A) (k : A -> TxM W B) :
  keeps m -> (forall a, keeps (k a)) -> keeps (mbind m k).
Proof.
  intros Hm Hk s Hs. unfold mbind. specialize (Hm s Hs). destruct (m s) as [[a|e] s']; [|done].
  by apply Hk.
Qed.

Lemma keeps_get {B} (k : TransactionRecord -> TxM W B) :
  (forall r, P r -> keeps (k r)) -> keeps (mbind get_record k).
Proof.
  intros Hk s Hs. unfold mbind, get_record. destruct (record s) as [r|] eqn:E; [|done].
  apply (Hk r); [|done]. by apply (proj1 Hs).
Qed.

Lemma keeps_gets {B} (k : option TransactionRecord -> TxM W B) :
  (forall o, (forall r, o = Some r -> P r) -> keeps (k o)) -> keeps (mbind (gets record) k).
Proof. intros Hk s Hs. unfold mbind, gets. apply Hk; [|done]. apply Hs. Qed.

Lemma keeps_attempt {A B} (m : TxM W A) (k : Result NetworkError A -> TxM W B) :
  keeps m -> (forall r, keeps (k r)) -> keeps (mbind (attempt m) k).
Proof.
  intros Hm Hk s Hs. unfold mbind, attempt. specialize (Hm s Hs). destruct (m s) as [r s'].
  by apply Hk.
Qed.

Lemma keeps_ignore {A} (m : TxM W A) : keeps m -> keeps (A := unit) (ignore m).
Proof. intros Hm s Hs. unfold ignore. specialize (Hm s Hs). by destruct (m s). Qed.

Lemma keeps_install {A} X (f : WorldM W A) :
  spec_install installed disk healthy X f -> keeps (call f).
Proof.
  intros Hf s Hs. unfold call. specialize (Hf (world s)). destruct (f (world s)) as [r w].
  destruct Hf as [H _]. unfold all_records, durable in *. simpl. by rewrite H.
Qed.

Lemma keeps_remove {A} X (f : WorldM W A) :
  spec_remove installed disk healthy X f -> keeps (call f).
Proof.
  intros Hf s Hs. unfold call. specialize (Hf (world s)). destruct (f (world s)) as [r w].
  destruct Hf as [H _]. unfold all_records, durable in *. simpl. by rewrite H.
Qed.

Lemma keeps_update g : (forall r, P r -> P (g r)) -> keeps (update_record g).
Proof.
  intros Hg. apply keeps_get. intros r Hr s Hs.
  unfold mbind, set_record, modify, store, call. simpl.
  pose proof (journal_store_spec (g r) (world s)) as H.
  destruct (journal_store (g r) (world s)) as [res w]. destruct H as [H _].
  unfold all_records, durable in *. simpl. split; [intros r' [= <-]; auto|].
  destruct H as [-> | ->]; [intros r' [= <-]; auto|apply Hs].
Qed.

Lemma keeps_store_set r : P r -> keeps (store_then_set r).
Proof.
  intros Hr s Hs. unfold store_then_set, mbind, set_record, modify, store, call.
  pose proof (journal_store_spec r (world s)) as H.
  destruct (journal_store r (world s)) as [[[]|e] w]; destruct H as [H _];
    unfold all_records, durable in *; simpl; split;
    try (destruct H as [-> | ->]; [intros r' [= <-]; auto|apply Hs]);
    try (intros r' [= <-]; done); apply Hs.
Qed.

Lemma keeps_clear : keeps (call journal_clear).
Proof.
  intros s Hs. unfold call. pose proof (journal_clear_spec (world s)) as H.
  destruct (journal_clear (world s)) as [res w]. destruct H as [H _].
  unfold all_records, durable in *. simpl. split; [apply Hs|].
  destruct H as [-> | ->]; [done|apply Hs].
Qed.

Lemma keeps_forget : keeps (set_record None).
Proof. intros s [_ Hs]. by split. Qed.

Lemma keeps_match {A B} (o : option A) (k : A -> TxM W B) (n : TxM W B) :
  (forall a, o = Some a -> keeps (k a)) -> keeps n ->
  keeps (match o with Some a => k a | None => n end).
Proof. destruct o; auto. Qed.

End Keeps.
End Facts.

#[export] Hint Resolve preflight_spec prepare_link_spec prepare_routes_spec reconcile_routes_spec
  prepare_firewall_spec prepare_sysctls_spec activate_link_spec update_link_mtu_spec
  install_policy_rule_spec withdraw_prefixes_spec remove_policy_rule_spec deactivate_link_spec
  remove_firewall_spec remove_routes_spec remove_link_spec restore_sysctls_spec : machine.

(** Proves [keeps P m] for a method, leaving what each change of the record requires. *)
Ltac keeps_tac :=
  repeat match goal with
  | |- keeps _ (mbind get_record _) => apply keeps_get; intros ? ?
  | |- keeps _ (mbind (gets record) _) => apply keeps_gets; intros ? ?
  | |- keeps _ (mbind (attempt _) _) => apply keeps_attempt; [|intros ?]
  | |- keeps _ (mbind _ _) => apply keeps_bind; [|intros ?]
  | |- keeps _ (mret _) => apply keeps_mret
  | |- keeps _ (mfail _) => apply keeps_mfail
  | |- keeps _ (lift _) => apply keeps_lift
  | |- keeps _ (ignore _) => apply keeps_ignore
  | |- keeps _ (update_record _) => apply keeps_update; intros ? ?
  | |- keeps _ (store_then_set _) => apply keeps_store_set
  | |- keeps _ (set_record None) => apply keeps_forget
  | |- keeps _ (call journal_clear) => apply keeps_clear
  | |- keeps _ (call _) =>
      first [eapply keeps_install; solve [eauto with machine]
            |eapply keeps_remove; solve [eauto with machine]]
  | |- keeps _ (if ?b then _ else _) => destruct b eqn:?
  | |- keeps _ (match ?x with _ => _ end) => destruct x eqn:?
  end.
