(* ===== verification/Faulty.v ===== *)
(** * A kernel with a script of faults

    An instance of the [Machine] contract on which the witnesses run: a set of kernel
    objects, a durable record, and a script that makes calls fail without effect, fail
    after their effect, or crash the machine, after which every call fails. *)
From stdpp Require Import base tactics list numbers option sorting.
From Stdlib Require Import ZArith Lia.
From S2P Require Import Prelude Ipv4 Wire Proto Network Kernel.

Inductive Fault : Type :=
| Works
| Fails
| FailsLate
| Crashes
| CrashesLate.

Record FaultyKernel : Type := mkKernel {
  objects : list Resource;
  stored : option TransactionRecord;
  script : list Fault;
  crashed : bool;
}.

Definition with_objects (l : list Resource) (w : FaultyKernel) : FaultyKernel :=
  mkKernel l (stored w) (script w) (crashed w).
Definition with_stored (o : option TransactionRecord) (w : FaultyKernel) : FaultyKernel :=
  mkKernel (objects w) o (script w) (crashed w).
Definition crash (w : FaultyKernel) : FaultyKernel :=
  mkKernel (objects w) (stored w) (script w) true.

(** The machine after a reboot: what is durable and what the kernel retained. *)
Definition reboot (w : FaultyKernel) : FaultyKernel := mkKernel (objects w) (stored w) [] false.

(** One call: the script decides whether it has its effect and what it returns. *)
Definition scripted {A} (e : NetworkError) (a : A) (effect : FaultyKernel -> FaultyKernel)
  : WorldM FaultyKernel A :=
  fun w =>
    if crashed w then (Err e, w)
    else match script w with
         | [] => (Ok a, effect w)
         | f :: rest =>
             let w := mkKernel (objects w) (stored w) rest false in
             match f with
             | Works => (Ok a, effect w)
             | Fails => (Err e, w)
             | FailsLate => (Err e, effect w)
             | Crashes => (Err e, crash w)
             | CrashesLate => (Err e, crash (effect w))
             end
         end.

Definition install (X : list Resource) (w : FaultyKernel) : FaultyKernel :=
  with_objects (X ++ objects w) w.
Definition uninstall (X : list Resource) (w : FaultyKernel) : FaultyKernel :=
  with_objects (filter (fun x => x ∉ X) (objects w)) w.

Definition installs (X : list Resource) : WorldM FaultyKernel unit := scripted NeBackend tt (install X).
Definition uninstalls (X : list Resource) : WorldM FaultyKernel unit :=
  scripted NeBackend tt (uninstall X).

#[export] Instance faulty_backend : NetworkBackend FaultyKernel := {
  preflight _ := scripted NeBackend [mkSysctl Ipv4Forward 0 1] id;
  prepare_link _ := installs [RLink];
  prepare_routes d := installs (routes_of d);
  reconcile_routes d failed := installs (routes_of d ++ table_routes (table_id d) failed);
  prepare_firewall d := installs [RFirewall (table_id d)];
  replace_firewall _ d := installs [RFirewall (table_id d)];
  prepare_sysctls _ _ := installs [RSysctls];
  activate_link _ := installs [RLinkUp];
  update_link_mtu _ _ := installs [];
  install_policy_rule d := installs [RRule (table_id d)];
  remove_policy_rule d := uninstalls [RRule (table_id d)];
  deactivate_link _ := uninstalls [RLinkUp];
  remove_firewall d := uninstalls [RFirewall (table_id d)];
  remove_routes d := uninstalls (routes_of d);
  backend_withdraw_prefixes d l := installs (table_routes (table_id d) l);
  remove_link _ := uninstalls [RLink];
  restore_sysctls _ _ := uninstalls [RSysctls];
}.

#[export] Instance faulty_journal : NetworkJournal FaultyKernel := {
  journal_load w := if crashed w then Err NeJournal else Ok (stored w);
  journal_store r := scripted NeJournal tt (with_stored (Some r));
  journal_clear := scripted NeJournal tt (with_stored None);
}.

Definition faulty_healthy (w : FaultyKernel) : Prop := crashed w = false /\ script w = [].
Definition faulty_installed (w : FaultyKernel) (x : Resource) : Prop := x ∈ objects w.

(** What holds of every scripted call. *)
Lemma scripted_cases {A} e (a : A) effect w r w' :
  scripted e a effect w = (r, w') ->
  (exists c l, w' = mkKernel (objects w) (stored w) l c /\ is_ok r = false /\ ~ faulty_healthy w) \/
  (exists c l, w' = (let w2 := effect (mkKernel (objects w) (stored w) l false) in
                     if c : bool then crash w2 else w2) /\
     (is_ok r = true -> c = false) /\ (faulty_healthy w -> is_ok r = true /\ c = false /\ l = [])).
Proof.
  unfold scripted, faulty_healthy. destruct w as [objs st scr cr]. simpl.
  destruct cr; [intros [= <- <-]; left; eexists _, _; split_and!; [done|done|by intros []]|].
  destruct scr as [|f rest].
  { intros [= <- <-]. right. exists false, []. by split_and!. }
  destruct f; intros [= <- <-].
  - right. exists false, rest. split_and!; [done|done|by intros []].
  - left. eexists _, _. split_and!; [done|done|by intros []].
  - right. exists false, rest. split_and!; [done|done|by intros []].
  - left. eexists true, rest. split_and!; [done|done|by intros []].
  - right. exists true, rest. split_and!; [done|done|by intros []].
Qed.

Lemma scripted_install {A} e (a : A) X :
  spec_install faulty_installed stored faulty_healthy X (scripted e a (install X)).
Proof.
  intros w. destruct (scripted _ _ _ w) as [r w'] eqn:E.
  apply scripted_cases in E as [(c & l & -> & Hr & Hh)|(c & l & -> & Hr & Hh)].
  - split_and!; try done. by rewrite Hr.
  - assert (Hobj : objects (let w2 := install X (mkKernel (objects w) (stored w) l false) in
                     if c : bool then crash w2 else w2) = X ++ objects w) by (by destruct c).
    unfold faulty_installed. cbv zeta in *. split_and!.
    + by destruct c.
    + intros x Hx. rewrite Hobj, elem_of_app. tauto.
    + intros _ x Hx. rewrite Hobj, elem_of_app. by left.
    + intros H0. destruct (Hh H0) as (_ & -> & ->). done.
Qed.

Lemma scripted_uninstall {A} e (a : A) X :
  spec_remove faulty_installed stored faulty_healthy X (scripted e a (uninstall X)).
Proof.
  intros w. destruct (scripted _ _ _ w) as [r w'] eqn:E.
  apply scripted_cases in E as [(c & l & -> & Hr & Hh)|(c & l & -> & Hr & Hh)].
  - split_and!; try done. by rewrite Hr.
  - assert (Hobj : objects (let w2 := uninstall X (mkKernel (objects w) (stored w) l false) in
              if c : bool then crash w2 else w2) = filter (fun x => x ∉ X) (objects w))
      by (by destruct c).
    unfold faulty_installed. cbv zeta in *. split_and!.
    + by destruct c.
    + intros x. rewrite Hobj, list_elem_of_filter. tauto.
    + intros _ x Hx. rewrite Hobj, list_elem_of_filter. tauto.
    + intros H0. destruct (Hh H0) as (H1 & -> & ->). done.
Qed.

Lemma scripted_store {A} e (a : A) o :
  spec_durable faulty_installed stored faulty_healthy o (scripted e a (with_stored o)).
Proof.
  intros w. destruct (scripted _ _ _ w) as [r w'] eqn:E.
  apply scripted_cases in E as [(c & l & -> & Hr & Hh)|(c & l & -> & Hr & Hh)].
  - split_and!; try done; [by right|by rewrite Hr].
  - cbv zeta. split_and!.
    + left. by destruct c.
    + intros x. by destruct c.
    + by destruct c.
    + intros H0. destruct (Hh H0) as (H1 & -> & ->). done.
Qed.

Lemma scripted_preflight {A} e (a : A) :
  spec_install faulty_installed stored faulty_healthy [] (scripted e a id).
Proof.
  intros w. destruct (scripted _ _ _ w) as [r w'] eqn:E.
  apply scripted_cases in E as [(c & l & -> & Hr & Hh)|(c & l & -> & Hr & Hh)].
  - split_and!; try done. by rewrite Hr.
  - cbv zeta. split_and!.
    + by destruct c.
    + intros x _. by destruct c.
    + by intros _ x ?%elem_of_nil.
    + intros H0. destruct (Hh H0) as (H1 & -> & ->). done.
Qed.

#[export] Instance faulty_machine : Machine FaultyKernel.
Proof.
  refine {| installed := faulty_installed; disk := stored; healthy := faulty_healthy |};
    intros; try apply scripted_install; try apply scripted_uninstall; try apply scripted_store;
    try apply scripted_preflight.
  - unfold journal_load in H. simpl in H. destruct (crashed w); [done|]. injection H as <-.
    destruct (stored w); [|done]. by split_and!.
  - exists (stored w). unfold journal_load. simpl. destruct H as [-> _]. done.
Defined.

Definition empty_kernel (faults : list Fault) : FaultyKernel := mkKernel [] None faults false.
Definition fresh (faults : list Fault) : NetworkTransaction FaultyKernel :=
  mkTransaction (empty_kernel faults) None.
