(* ===== verification/Recovery.v ===== *)
(** * Crash recovery

    Histories of the transaction: any sequence of operations, each of which may fail at
    any call or be cut off by a crash, and restarts of netd from the journal. The kernel
    never holds an object that the journal does not own, and orphan recovery on a healthy
    machine leaves nothing behind. *)
From stdpp Require Import base tactics list numbers option sorting.
From Stdlib Require Import ZArith Lia.
From S2P Require Import Prelude Ipv4 Wire Proto ProtoFacts Network Kernel NetworkFacts Faulty.

(** ** Histories of a tunnel without replacement *)

Section Histories.
Context {W : Type} `{!NetworkBackend W} `{!NetworkJournal W} `{!Machine W}.

Implicit Types s : NetworkTransaction W.

(** What outlives a crash of the process or of the machine: the durable record, and
    some or all of the kernel objects. *)
Definition survives (w w' : W) : Prop :=
  disk w' = disk w /\ forall x, installed w' x -> installed w x.

(** What a history may do. A crash is a world from which every call fails; [hs_restart]
    is a new netd process over what survived. Resumption and the replacement of a
    declaration are treated apart. *)
Inductive history : NetworkTransaction W -> NetworkTransaction W -> Prop :=
| hs_prepare s o d : history s (prepare o d s).2
| hs_commit s o now timeout : history s (commit_with_drain o now timeout s).2
| hs_suspend s o : history s (suspend o s).2
| hs_rollback s o : history s (rollback o s).2
| hs_renew s o : history s (renew_lease o s).2
| hs_update_mtu s o mtu : history s (update_mtu o mtu s).2
| hs_drain s o now : history s (drain_old o now s).2
| hs_recover s alive now : history s (recover_orphan alive now s).2
| hs_restart s w s' : survives (world s) w -> new w = Ok s' -> history s s'.

(** From a machine on which netd holds nothing. *)
Inductive reached : NetworkTransaction W -> Prop :=
| reached_start w : disk w = None -> (forall x, ~ installed w x) -> reached (mkTransaction w None)
| reached_step s s' : reached s -> history s s' -> reached s'.

(** The records of such histories. *)
Definition plain (r : TransactionRecord) : Prop :=
  undoable r /\ recovery_candidate r = None.

Lemma plain_candidate_staged r : plain r -> candidate_staged r = false.
Proof. intros [_ H]. unfold candidate_staged. by rewrite H. Qed.

Lemma plain_not_interrupted r : plain r -> policy_update_interrupted r = false.
Proof.
  intros [_ H]. unfold policy_update_interrupted. rewrite H. by rewrite !andb_false_r.
Qed.

Lemma plain_update g r :
  plain r -> recovery_candidate (g r) = None -> record_phase (g r) <> TpDraining ->
  steps_wf (g r) -> plain (g r).
Proof. intros [[_ _] _]. by split. Qed.

Lemma plain_phase p r : p <> TpDraining -> plain r -> plain (set_record_phase p r).
Proof. intros Hp [[_ Hw] Hc]. by split. Qed.

Lemma plain_complete i r : 0 <= i < 6 -> plain r ->
  plain (set_steps (Z.lor (completed_steps r) (Z.shiftl 1 i)) r).
Proof.
  intros Hi [Hu Hc]. rewrite step_value by lia. split; [by apply (undoable_completed i)|done].
Qed.

Lemma land_small a m : 0 <= a < 64 -> 0 <= m -> 0 <= Z.land a m < 64.
Proof.
  intros [H0 H1] Hm. pose proof (proj2 (Z.land_nonneg a m) (or_introl H0)) as Hn.
  split; [done|]. destruct (decide (Z.land a m = 0)) as [->|Hnz]; [lia|].
  change 64 with (2 ^ 6). apply Z.log2_lt_pow2; [lia|].
  pose proof (Z.log2_land a m H0 Hm). assert (Z.log2 a < 6); [|lia].
  destruct (decide (a = 0)) as [->|]; [simpl; lia|]. apply Z.log2_lt_pow2; [lia|]. done.
Qed.

Lemma plain_clear i r : 0 <= i < 6 -> plain r ->
  plain (set_steps (Z.land (completed_steps r) (u16_not (Z.shiftl 1 i))) r).
Proof.
  intros Hi [[Hp Hw] Hc]. split; [|done]. split; [done|]. apply land_small; [done|].
  unfold u16_not. apply Z.lxor_nonneg. rewrite step_value by lia.
  split; intros _; [lia|]. apply Z.pow_nonneg. lia.
Qed.

Lemma plain_cleanup_step (b : bool) (op : WorldM W unit) X i fe :
  0 <= i < 6 -> spec_remove installed disk healthy X op ->
  keeps plain (cleanup_step b op (Z.shiftl 1 i) fe).
Proof.
  intros Hi Hop. unfold cleanup_step, clear_step. destruct b; [|apply keeps_mret].
  apply keeps_attempt; [by eapply keeps_remove|]. intros [[]|e]; [|apply keeps_mret].
  apply keeps_attempt; [|intros; apply keeps_mret].
  apply keeps_update. intros r Hr. by apply plain_clear.
Qed.

Lemma plain_cleanup : keeps plain (cleanup_record (W := W)).
Proof.
  unfold cleanup_record, set_phase.
  apply keeps_bind; [by apply keeps_update; intros r Hr; apply plain_phase|]. intros _.
  apply keeps_get. intros r Hr. rewrite (proj2 Hr).
  repeat (apply keeps_bind;
    [first [apply keeps_mret | eapply plain_cleanup_step; [lia|eauto with machine]
           | unfold clear_finished; keeps_tac] | intros ?]).
  apply keeps_lift.
Qed.

Lemma plain_or_cleanup (body : TxM W unit) : keeps plain body -> keeps plain (or_cleanup body).
Proof.
  intros H. unfold or_cleanup. apply keeps_attempt; [done|]. intros res.
  apply keeps_bind; [|intros; apply keeps_lift].
  destruct (is_err res); [apply keeps_ignore, plain_cleanup|apply keeps_mret].
Qed.

Lemma plain_prepare o d : keeps plain (prepare (W := W) o d).
Proof.
  unfold prepare. apply keeps_gets. intros [r|] _; [keeps_tac|].
  apply keeps_bind; [apply keeps_lift|]. intros _.
  apply keeps_bind; [by apply keeps_store_set|]. intros _. apply plain_or_cleanup.
  unfold prepare_steps, staged_call, complete_step, set_phase. keeps_tac;
    first [by apply plain_complete; [lia|] | by apply plain_phase | done].
Qed.

Lemma plain_commit o now timeout : keeps plain (commit_with_drain (W := W) o now timeout).
Proof.
  unfold commit_with_drain. apply keeps_get. intros r Hr. rewrite (proj2 Hr).
  apply keeps_bind; [apply keeps_lift|]. intros _.
  assert (Hp : keeps plain (commit_prepared (W := W) (record_declaration r))).
  { apply plain_or_cleanup. unfold complete_step, set_phase, staged_call. keeps_tac;
      first [by apply plain_complete; [lia|] | by apply plain_phase]. }
  destruct (bool_decide _); [apply keeps_mret|].
  destruct (record_phase r); keeps_tac; done.
Qed.

Lemma plain_suspend o : keeps plain (suspend (W := W) o).
Proof.
  unfold suspend, clear_step, set_phase. keeps_tac; [by apply plain_clear; [lia|]|by apply plain_phase].
Qed.

Lemma plain_rollback o : keeps plain (rollback (W := W) o).
Proof.
  unfold rollback. apply keeps_get. intros r Hr. rewrite plain_candidate_staged by done.
  apply keeps_bind; [apply keeps_lift|]. intros _. apply plain_cleanup.
Qed.

Lemma plain_renew o : keeps plain (renew_lease (W := W) o).
Proof. unfold renew_lease, ensure_transition_owner. keeps_tac. done. Qed.

Lemma plain_update_mtu o mtu : keeps plain (update_mtu (W := W) o mtu).
Proof. unfold update_mtu. keeps_tac. done. Qed.

Lemma plain_drain o now : keeps plain (drain_old (W := W) o now).
Proof.
  unfold drain_old, ensure_transition_owner. apply keeps_get. intros r [[Hp Hw] Hc].
  apply keeps_bind; [apply keeps_lift|]. intros _.
  destruct (_ && _); [apply keeps_mret|].
  rewrite (bool_decide_eq_false_2 (record_phase r = TpDraining)) by done. apply keeps_mfail.
Qed.

Lemma plain_recover alive now : keeps plain (recover_orphan (W := W) alive now).
Proof.
  unfold recover_orphan. apply keeps_gets. intros [r|] Hr; [|apply keeps_mret].
  specialize (Hr r eq_refl). rewrite plain_not_interrupted, plain_candidate_staged by done.
  destruct (bool_decide (record_phase r = TpDraining)) eqn:E.
  { apply bool_decide_eq_true in E. by destruct Hr as [[? _] _]. }
  destruct (_ && _); [apply keeps_mret|].
  apply keeps_bind; [apply plain_cleanup|]. intros _. apply keeps_mret.
Qed.

(** ** The invariant of histories *)

Definition history_inv s : Prop := safe s /\ all_records plain s.

Lemma plain_record s r : all_records plain s -> record s = Some r -> plain r.
Proof. intros [H _]. apply H. Qed.

Lemma safe_prepare o d s : safe s -> wp (prepare o d) safe_post s.
Proof.
  intros Hs. destruct (record s) as [r|] eqn:Hr.
  - unfold prepare. apply wp_mbind, wp_gets. rewrite Hr. apply wp_guard; [done|]. intros _ _.
    destruct (negb _); [by apply wp_mfail|]. by destruct (record_phase r).
  - eapply wp_mono; [by apply wp_prepare|]. by intros res s' [? _].
Qed.

(** A restarted process reads back what the kernel's objects depend on. *)
Lemma restart_loaded (w : W) s' :
  new w = Ok s' ->
  world s' = w /\
  match record s', disk w with
  | None, None => True
  | Some a, Some b => same_durable a b
  | _, _ => False
  end.
Proof.
  unfold new. destruct (journal_load w) as [o|e] eqn:E; [|done]. intros [= <-].
  by apply journal_load_spec in E.
Qed.

Lemma same_durable_sym a b : same_durable a b -> same_durable b a.
Proof. unfold same_durable. intuition. Qed.

Lemma history_inv_restart s w s' :
  history_inv s -> survives (world s) w -> new w = Ok s' -> history_inv s'.
Proof.
  intros [Hs [_ Hr]] [Hdisk Hin] [Hw Hl]%restart_loaded.
  unfold history_inv, safe, all_records, durable, present.
  rewrite Hw, Hdisk. rewrite Hdisk in Hl. unfold durable in Hr. split.
  - intros x Hx%Hin. destruct (Hs x Hx) as [Hd _]. split; [done|].
    unfold durable in Hd. destruct (record s') as [a|], (disk (world s)) as [b|]; try done.
    by eapply covered_same_durable; [apply same_durable_sym|].
  - split; [|done]. intros a Ha. rewrite Ha in Hl. destruct (disk (world s)) as [b|]; [|done].
    destruct (Hr b eq_refl) as [[Hp Hst] Hc]. destruct Hl as (_ & L2 & L3 & L4 & _).
    unfold plain, undoable, steps_wf. by rewrite L2, L3, L4.
Qed.

Lemma history_inv_step s s' : history_inv s -> history s s' -> history_inv s'.
Proof.
  intros [Hs Hr] H.
  assert (Hu : forall r, record s = Some r -> undoable r /\ recovery_candidate r = None).
  { intros r E. by apply (plain_record s). }
  destruct H as [s o d|s o now t|s o|s o|s o|s o mtu|s o now|s alive now|s w s' Hsv Hnew].
  - split; [exact (safe_prepare o d s Hs)|by apply plain_prepare].
  - split; [exact (safe_commit o now t s Hs Hu)|by apply plain_commit].
  - split; [exact (safe_suspend o s Hs)|by apply plain_suspend].
  - split; [|by apply plain_rollback]. refine (safe_rollback o s Hs _). intros r E. by apply Hu.
  - split; [exact (safe_renew o s Hs)|by apply plain_renew].
  - split; [exact (safe_update_mtu o mtu s Hs)|by apply plain_update_mtu].
  - split; [|by apply plain_drain]. refine (safe_drain o now s Hs _). intros r E Hd.
    by destruct (Hu r E) as [[? _] _].
  - split; [|by apply plain_recover]. refine (safe_recover alive now s Hs _). intros r E.
    destruct (Hu r E) as [[Hp Hw] Hc]. split_and!; [done|by intros ?|].
    apply plain_not_interrupted. by split.
  - by eapply history_inv_restart.
Qed.

Lemma reached_inv s : reached s -> history_inv s.
Proof.
  induction 1 as [w Hd Hi|s s' _ IH H]; [|by eapply history_inv_step].
  split; [intros x Hx; by apply Hi in Hx|]. split; [done|].
  unfold durable. simpl. by rewrite Hd.
Qed.

(** C7. Write-ahead journaling: whatever operations ran, whichever of their calls failed
    or were cut off by a crash, and however often netd was restarted, every object in
    the kernel is owned by the durable record (and by the record in memory), and the
    durable record describes no replacement and only known steps. *)
Theorem no_unjournaled_object s :
  reached s ->
  (forall x, present s x -> covered (durable s) x /\ covered (record s) x) /\
  (forall r, durable s = Some r -> steps_wf r /\ recovery_candidate r = None).
Proof.
  intros [Hs [_ Hr]]%reached_inv. split; [done|].
  intros r Hd. destruct (Hr r Hd) as [[_ ?] ?]. done.
Qed.

Lemma recover_clean s now :
  history_inv s -> durable s = None \/ record s <> None -> healthy (world s) ->
  exists b s', recover_orphan false now s = (Ok b, s') /\ clean s'.
Proof.
  intros [Hs Hr] Hsync Hh. unfold recover_orphan, mbind, gets.
  destruct (record s) as [r|] eqn:E.
  2:{ exists false, s. split; [done|]. split_and!; [done|by destruct Hsync|].
      intros x. by apply safe_none. }
  pose proof (plain_record s r Hr E) as Hp.
  rewrite plain_not_interrupted, plain_candidate_staged by done. destruct Hp as [[Hph Hw] Hc].
  rewrite (bool_decide_eq_false_2 (record_phase r = TpDraining)) by done.
  unfold lease_holds. rewrite andb_false_l, andb_false_r.
  pose proof (wp_cleanup_record s r Hs E Hph Hw) as H. unfold wp, mbind in *.
  destruct (cleanup_record s) as [[[]|e] s1]; destruct H as (_ & _ & H1 & H2); simpl in *;
    destruct (H2 Hh) as [_ ?]; [|done].
  exists true, s1. split; [done|]. by apply H1.
Qed.

(** C1. Crash recovery: after any history, a netd that restarts on a machine that works
    again and whose client is gone recovers in one call: no kernel object, no journal
    and no record remain. *)
Theorem crash_recovery s w s1 now :
  reached s -> survives (world s) w -> new w = Ok s1 -> healthy w ->
  exists b s2, recover_orphan false now s1 = (Ok b, s2) /\ clean s2.
Proof.
  intros Hr Hsv Hnew Hh. pose proof (restart_loaded _ _ Hnew) as [Hw H]. rewrite <- Hw in H, Hh.
  apply recover_clean; [|by unfold durable; destruct (record s1), (disk (world s1)); auto|done].
  eapply history_inv_restart; [by apply reached_inv|done|done].
Qed.

(** C20. Preparation is all or nothing, and never steers traffic: on success exactly the
    link, its sysctls, its routes and its firewall exist, the durable record says
    [Prepared] and owns them, and no policy rule is installed; on failure of a machine
    that can undo its changes nothing remains; in every case, crashes included, whatever
    is left is journaled. *)
Theorem prepare_all_or_nothing o d s res s' :
  safe s -> record s = None -> prepare o d s = (res, s') ->
  (forall x, present s' x -> covered (durable s') x /\ covered (record s') x) /\
  match res with
  | Ok _ => exists changes, record s' = Some (prepared_record o d changes) /\
              durable s' = record s' /\
              (forall x, present s' x <-> x ∈ prepared_objects d) /\
              forall t, ~ present s' (RRule t)
  | Err _ => healthy (world s) -> record s' = None /\ forall x, ~ present s' x
  end.
Proof.
  intros Hs Hr E. pose proof (wp_run _ _ _ _ _ (wp_prepare o d s Hs Hr) E) as [Hs' H].
  split; [done|]. destruct res; [|done]. destruct H as (changes & H1 & H2 & H3).
  exists changes. split_and!; try done. intros t Ht%H3.
  unfold prepared_objects in Ht. apply elem_of_app in Ht as [Ht|Ht].
  - rewrite !elem_of_cons, elem_of_nil in Ht. naive_solver.
  - unfold routes_of, table_routes in Ht. by apply list_elem_of_fmap in Ht as (? & ? & _).
Qed.

(** Commit is the traffic cutover: on success only the policy rule is added, the
    record is [Active] and durable; on failure of a machine that can undo its changes
    the tunnel is gone. *)
Theorem commit_cutover o now timeout s r res s' :
  safe s -> record s = Some r -> undoable r -> recovery_candidate r = None ->
  record_phase r = TpPrepared -> ensure_owner (record_owner r) o = Ok tt ->
  commit_with_drain o now timeout s = (res, s') ->
  match res with
  | Ok _ => record s' = Some (set_record_phase TpActive (completed 5 r)) /\
            durable s' = record s' /\
            forall x, present s' x <->
              present s x \/ x = RRule (table_id (record_declaration r))
  | Err _ => healthy (world s) -> clean s'
  end.
Proof.
  intros Hs Hr Hu Hc Hp Ho E.
  assert (E2 : commit_prepared (record_declaration r) s = (res, s')).
  { rewrite <- E. unfold commit_with_drain, mbind at 1, get_record. rewrite Hr. simpl.
    unfold mbind, ensure_transition_owner, lift. rewrite Hc.
    rewrite bool_decide_eq_false_2 by (by intros []). rewrite Ho, Hp. done. }
  pose proof (wp_run _ _ _ _ _ (wp_commit_prepared s r Hs Hr Hu) E2) as [_ H].
  destruct res; [|done]. destruct H as (H1 & H2 & H3 & H4). split_and!; try done.
  intros x. destruct (decide (x = RRule (table_id (record_declaration r)))) as [->|Hne].
  - split; auto.
  - rewrite H4 by done. tauto.
Qed.

End Histories.

(** ** Witnesses *)

Definition crashing : NetworkTransaction FaultyKernel :=
  (prepare sample_owner sample_declaration
     (fresh [Works; Works; Works; Works; Works; Works; Works; CrashesLate])).2.

Example crash_leaves_objects : objects (world crashing) = [RLink; RSysctls].
Proof. vm_compute. reflexivity. Qed.

Lemma crashing_reached : reached crashing.
Proof. eapply reached_step; [|apply hs_prepare]. apply reached_start; [done|]. by intros x ?%elem_of_nil. Qed.

Lemma no_unjournaled_object_witness :
  present crashing RLink /\ covered (durable crashing) RLink.
Proof.
  assert (Hx : present crashing RLink).
  { apply (bool_decide_eq_true_1 (RLink ∈ objects (world crashing))). vm_compute. reflexivity. }
  split; [exact Hx|].
  exact (proj1 (proj1 (no_unjournaled_object crashing crashing_reached) RLink Hx)).
Defined.

Definition rebooted : NetworkTransaction FaultyKernel :=
  mkTransaction (reboot (world crashing)) (stored (world crashing)).

Lemma crash_recovery_witness :
  exists b s2, recover_orphan false 0 rebooted = (Ok b, s2) /\ clean s2.
Proof.
  apply (crash_recovery crashing (reboot (world crashing)) rebooted 0 crashing_reached).
  - split; [reflexivity|]. intros x Hx. exact Hx.
  - vm_compute. reflexivity.
  - split; vm_compute; reflexivity.
Defined.

Definition started : NetworkTransaction FaultyKernel := fresh [].

Lemma prepare_all_or_nothing_witness :
  exists changes, record (prepare sample_owner sample_declaration started).2
                  = Some (prepared_record sample_owner sample_declaration changes).
Proof.
  destruct (prepare_all_or_nothing sample_owner sample_declaration started (Ok tt)
    (prepare sample_owner sample_declaration started).2) as [_ (changes & H & _)].
  - intros x Hx. vm_compute in Hx. inversion Hx.
  - reflexivity.
  - vm_compute. reflexivity.
  - exists changes. exact H.
Defined.

Definition prepared_state : NetworkTransaction FaultyKernel :=
  (prepare sample_owner sample_declaration started).2.

Lemma prepared_safe : safe prepared_state.
Proof.
  apply reached_inv. eapply reached_step; [|apply hs_prepare].
  apply reached_start; [done|]. by intros x ?%elem_of_nil.
Qed.

Lemma commit_cutover_witness :
  present (commit_with_drain sample_owner 0 0 prepared_state).2 (RRule 20001).
Proof.
  destruct (commit_cutover sample_owner 0 0 prepared_state
    (prepared_record sample_owner sample_declaration [mkSysctl Ipv4Forward 0 1]) (Ok tt)
    (commit_with_drain sample_owner 0 0 prepared_state).2) as (_ & _ & H).
  - exact prepared_safe.
  - vm_compute. reflexivity.
  - split; [discriminate|]. vm_compute. split; [discriminate|reflexivity].
  - reflexivity.
  - reflexivity.
  - vm_compute. reflexivity.
  - vm_compute. reflexivity.
  - apply H. right. reflexivity.
Defined.
