(* ===== verification/Journal.v ===== *)
(** * The journal file

    [candy-netd/src/journal.rs]: the binary form of a transaction record, its decoder
    with every slice and index it takes, and the file protocol of load, store and clear.
    [Sha256::digest] is a parameter. *)
From stdpp Require Import base tactics list numbers option sorting.
From Stdlib Require Import ZArith Lia.
From S2P Require Import Prelude Ipv4 Wire Proto Network.

Definition Parse (A : Type) : Type := Result Failure A.

Definition journal_err {A} : Parse A := Err (Returns NeJournal).
(** [if bad { return Err(NetworkError::Journal) }]. *)
Definition refuse (bad : bool) : Parse unit := if bad then journal_err else Ok tt.
(** [result.map_err(|_| NetworkError::Journal)?]. *)
Definition or_journal {E A} (r : Result E A) : Parse A :=
  match r with Ok a => Ok a | Err _ => journal_err end.

Definition zlength {A} (l : list A) : Z := Z.of_nat (length l).

(** [bytes[a..b]] and [bytes[i]]. *)
Definition slice (bytes : list Z) (a b : Z) : Parse (list Z) :=
  if (0 <=? a) && (a <=? b) && (b <=? zlength bytes)
  then Ok (take (Z.to_nat (b - a)) (drop (Z.to_nat a) bytes))
  else Err Panics.
Definition index (bytes : list Z) (i : Z) : Parse Z :=
  if (0 <=? i) && (i <? zlength bytes) then Ok (nth (Z.to_nat i) bytes 0) else Err Panics.

(** [bytes[a..a + n].try_into().map_err(..)?] read big-endian. *)
Definition read_be (n : Z) (bytes : list Z) (a : Z) : Parse Z :=
  let? s := slice bytes a (a + n) in
  check? refuse (negb (zlength s =? n)) in
  Ok (from_be_bytes s).

(** ** Constants *)

Definition magic (version : Z) : list Z := [67; 78; 68; 74; 78; 76; 48; 48 + version].
Definition MAGIC_V1 : list Z := magic 1.
Definition MAGIC_V2 : list Z := magic 2.
Definition MAGIC_V3 : list Z := magic 3.
Definition MAGIC_V4 : list Z := magic 4.
Definition HEADER_LEN : Z := 8 + 1 + 2 + 1 + 4.
Definition CHECKSUM_LEN : Z := 32.
Definition MAX_JOURNAL_LEN : Z :=
  HEADER_LEN + 3 * 3 + 8 + MAX_NETD_FRAME_LEN + 4 + MAX_NETD_FRAME_LEN + 4 + 2 + 5 * 1024
  + CHECKSUM_LEN.
Definition MAX_FAILED_PREFIXES : Z := 1024.

Definition canonical_prefix (prefix : Ipv4Prefix) : bool :=
  if 32 <? prefix_len prefix then false
  else
    let host_mask := if prefix_len prefix =? 0 then u32_MAX
                     else Z.shiftl 1 (32 - prefix_len prefix) - 1 in
    Z.land (from_be_bytes (network prefix)) host_mask =? 0.

(** ** Encoding *)

Definition phase_to_u8 (p : TransactionPhase) : Z :=
  match p with
  | TpPreparing => 1 | TpPrepared => 2 | TpActive => 3
  | TpRollingBack => 4 | TpSuspended => 5 | TpDraining => 6
  end.

Definition sysctl_value_bad (change : SysctlChange) : bool :=
  (2 <? original change) || (2 <? applied change) || (original change =? applied change).

Definition failed_prefixes_bad (l : list Ipv4Prefix) : bool :=
  (MAX_FAILED_PREFIXES <? zlength l)
  || negb (windows2_all prefix_ltb l)
  || existsb (fun prefix => negb (canonical_prefix prefix)) l.

Definition sysctls_bad (l : list SysctlChange) : bool :=
  (4 <? zlength l)
  || negb (windows2_all (fun a b => SysctlKey_to_u8 (key a) <? SysctlKey_to_u8 (key b)) l)
  || existsb sysctl_value_bad l.

(** The phases in which a candidate may be recorded. *)
Definition candidate_phase (p : TransactionPhase) : bool :=
  match p with
  | TpPreparing | TpPrepared | TpDraining | TpRollingBack => true
  | TpActive | TpSuspended => false
  end.

(** Is the owner of the candidate another process, or an older generation? *)
Definition candidate_owner_bad (owner candidate_owner : LeaseOwner) : bool :=
  negb (bool_decide (instance_id candidate_owner = instance_id owner))
  || negb (pid candidate_owner =? pid owner)
  || (generation candidate_owner <? generation owner).

Definition candidate_bad (r : TransactionRecord) : bool :=
  (bool_decide (recovery_candidate r <> None) && negb (candidate_phase (record_phase r)))
  || match recovery_candidate_owner r with
     | Some candidate_owner =>
         bool_decide (recovery_candidate r = None)
         || candidate_owner_bad (record_owner r) candidate_owner
     | None => false
     end.

Definition encode_prepare (owner : LeaseOwner) (declaration : PrepareDeclaration)
  : Result NetworkError (list Z) :=
  map_err (fun _ => NeJournal) (NetdRequest_encode (mkRequest 1 owner (OpPrepare declaration))).

Definition encode_candidate (r : TransactionRecord) : Result NetworkError (option (list Z)) :=
  match recovery_candidate r with
  | Some declaration =>
      let? bytes := encode_prepare (default (record_owner r) (recovery_candidate_owner r))
                      declaration in
      Ok (Some bytes)
  | None => Ok None
  end.

Definition encode_sysctl (change : SysctlChange) : list Z :=
  [SysctlKey_to_u8 (key change); original change; applied change].
Definition encode_failed_prefix (prefix : Ipv4Prefix) : list Z :=
  network prefix ++ [prefix_len prefix].

(** Everything [encode_record] appends before the checksum. *)
Definition record_content (r : TransactionRecord) (request : list Z)
    (recovery_request : option (list Z)) : list Z :=
  (if negb (bool_decide (failed_prefixes r = [])) then MAGIC_V4
   else if bool_decide (recovery_request <> None) then MAGIC_V3 else MAGIC_V1)
  ++ [phase_to_u8 (record_phase r)]
  ++ to_be_bytes 2 (completed_steps r)
  ++ [zlength (sysctls r)]
  ++ concat (map encode_sysctl (sysctls r))
  ++ (if bool_decide (recovery_candidate r <> None)
      then to_be_bytes 8 (drain_deadline_mono_ms r) else [])
  ++ to_be_bytes 4 (zlength request)
  ++ request
  ++ match recovery_request with
     | Some recovery => to_be_bytes 4 (zlength recovery) ++ recovery
     | None => if negb (bool_decide (failed_prefixes r = [])) then to_be_bytes 4 0 else []
     end
  ++ (if negb (bool_decide (failed_prefixes r = []))
      then to_be_bytes 2 (zlength (failed_prefixes r))
           ++ concat (map encode_failed_prefix (failed_prefixes r))
      else []).

(** [u32::try_from(len).map_err(|_| NetworkError::Journal)?]. *)
Definition length_fits_u32 (l : list Z) : Result NetworkError unit :=
  if zlength l <? 2 ^ 32 then Ok tt else Err NeJournal.

Section Codec.
Context (Sha256_digest : list Z -> list Z).

Definition encode_record (r : TransactionRecord) : Result NetworkError (list Z) :=
  if failed_prefixes_bad (failed_prefixes r) then Err NeJournal
  else if sysctls_bad (sysctls r) then Err NeJournal
  else if candidate_bad r then Err NeJournal
  else
    let? request := encode_prepare (record_owner r) (record_declaration r) in
    let? recovery_request := encode_candidate r in
    check? length_fits_u32 request in
    check? length_fits_u32 (default [] recovery_request) in
    let bytes := record_content r request recovery_request in
    Ok (bytes ++ Sha256_digest bytes).

(** ** Decoding *)

Definition decode_phase (b : Z) : Parse TransactionPhase :=
  match b with
  | 1 => Ok TpPreparing
  | 2 => Ok TpPrepared
  | 3 => Ok TpActive
  | 4 => Ok TpRollingBack
  | 5 => Ok TpSuspended
  | 6 => Ok TpDraining
  | _ => journal_err
  end.

(** [slice.chunks_exact(n)]: a shorter rest is dropped. *)
Fixpoint chunks_exact (fuel n : nat) (l : list Z) : list (list Z) :=
  match fuel with
  | O => []
  | S fuel =>
      if (n <=? length l)%nat then take n l :: chunks_exact fuel n (drop n l) else []
  end.

Definition decode_sysctl (previous : option SysctlChange) (chunk : list Z) : Parse SysctlChange :=
  let? k := index chunk 0 in
  let? k := or_journal (SysctlKey_try_from k) in
  let? original := index chunk 1 in
  let? applied := index chunk 2 in
  let change := mkSysctl k original applied in
  check? refuse (sysctl_value_bad change
    || match previous with
       | Some previous => SysctlKey_to_u8 (key change) <=? SysctlKey_to_u8 (key previous)
       | None => false
       end) in
  Ok change.

Fixpoint decode_sysctls (previous : option SysctlChange) (chunks : list (list Z))
  : Parse (list SysctlChange) :=
  match chunks with
  | [] => Ok []
  | chunk :: rest =>
      let? change := decode_sysctl previous chunk in
      let? changes := decode_sysctls (Some change) rest in
      Ok (change :: changes)
  end.

Definition decode_failed_prefix (previous : option Ipv4Prefix) (chunk : list Z)
  : Parse Ipv4Prefix :=
  let? network := slice chunk 0 4 in
  check? refuse (negb (zlength network =? 4)) in
  let? prefix_len := index chunk 4 in
  let prefix := mkIpv4Prefix network prefix_len in
  check? refuse (negb (canonical_prefix prefix)
    || match previous with
       | Some p => bool_decide (prefix_le prefix p)
       | None => false
       end) in
  Ok prefix.

Fixpoint decode_failed_prefixes (previous : option Ipv4Prefix) (chunks : list (list Z))
  : Parse (list Ipv4Prefix) :=
  match chunks with
  | [] => Ok []
  | chunk :: rest =>
      let? prefix := decode_failed_prefix previous chunk in
      let? prefixes := decode_failed_prefixes (Some prefix) rest in
      Ok (prefix :: prefixes)
  end.

(** [NetdRequest::decode(..)] of a frame that must be a [Prepare]. *)
Definition decode_prepare (frame : list Z) : Parse (LeaseOwner * PrepareDeclaration) :=
  let? request := or_journal (NetdRequest_decode frame) in
  match operation request with
  | OpPrepare declaration => Ok (owner request, declaration)
  | _ => journal_err
  end.

(** The candidate, its owner, read after the request that ends at [request_end]. *)
Definition decode_candidate (bytes version : list Z) (content_len request_end : Z)
    (phase : TransactionPhase) (request_owner : LeaseOwner)
  : Parse (option PrepareDeclaration * option LeaseOwner) :=
  if bool_decide (version = MAGIC_V1) then
    check? refuse (negb (request_end =? content_len)) in
    Ok (None, None)
  else
    let recovery_header_end := request_end + 4 in
    check? refuse (content_len <? recovery_header_end) in
    let? recovery_len := read_be 4 bytes request_end in
    let recovery_end := recovery_header_end + recovery_len in
    if recovery_len =? 0 then
      check? refuse (negb (bool_decide (version = MAGIC_V4))) in
      Ok (None, None)
    else
      check? refuse ((MAX_NETD_FRAME_LEN <? recovery_len) || (content_len <? recovery_end)) in
      let? frame := slice bytes recovery_header_end recovery_end in
      let? recovery := or_journal (NetdRequest_decode frame) in
      check? refuse (candidate_owner_bad request_owner (owner recovery)
                     || negb (candidate_phase phase)) in
      match operation recovery with
      | OpPrepare candidate =>
          Ok (Some candidate, if bool_decide (owner recovery <> request_owner)
                              then Some (owner recovery) else None)
      | _ => journal_err
      end.

(** The extension of version 4, or the check that nothing follows the candidate. *)
Definition decode_extension (bytes version : list Z) (content_len request_end : Z)
    (recovery_candidate : option PrepareDeclaration) : Parse (list Ipv4Prefix) :=
  let has_candidate := bool_decide (recovery_candidate <> None) in
  if bool_decide (version = MAGIC_V4) then
    check? refuse (negb has_candidate && (content_len <? request_end)) in
    let? offset :=
      (if has_candidate then
         let recovery_header_end := request_end + 4 in
         check? refuse (content_len <? recovery_header_end) in
         let? recovery_len := read_be 4 bytes request_end in
         Ok (recovery_header_end + recovery_len)
       else Ok (request_end + 4)) in
    check? refuse (negb has_candidate && (content_len <? offset)) in
    let count_end := offset + 2 in
    check? refuse (content_len <? count_end) in
    let? count := read_be 2 bytes offset in
    let payload_end := count_end + count * 5 in
    check? refuse ((count =? 0) || (MAX_FAILED_PREFIXES <? count)
                   || negb (payload_end =? content_len)) in
    let? payload := slice bytes count_end payload_end in
    decode_failed_prefixes None (chunks_exact (length payload) 5 payload)
  else if has_candidate then
    let recovery_header_end := request_end + 4 in
    let? recovery_len := read_be 4 bytes request_end in
    check? refuse (negb (recovery_header_end + recovery_len =? content_len)) in
    Ok []
  else Ok [].

(** [decode_record]. The [checked_add]s and [checked_mul]s of the code act on [usize]
    values below [2^35]: four-byte lengths and positions in a slice of at most
    [MAX_JOURNAL_LEN] bytes; they never overflow and are plain additions here. *)
Definition decode_record (bytes : list Z) : Parse TransactionRecord :=
  check? refuse (zlength bytes <? HEADER_LEN + CHECKSUM_LEN) in
  let? version := slice bytes 0 8 in
  check? refuse (negb (bool_decide (version ∈ [MAGIC_V1; MAGIC_V2; MAGIC_V3; MAGIC_V4]))) in
  let content_len := zlength bytes - CHECKSUM_LEN in
  let? content := slice bytes 0 content_len in
  let? checksum := slice bytes content_len (zlength bytes) in
  check? refuse (negb (bool_decide (Sha256_digest content = checksum))) in
  let? phase_byte := index bytes 8 in
  let? phase := decode_phase phase_byte in
  let? hi := index bytes 9 in
  let? lo := index bytes 10 in
  let completed_steps := from_be_bytes [hi; lo] in
  check? refuse (negb (Z.land completed_steps (u16_not 63) =? 0)) in
  let? sysctl_count := index bytes 11 in
  check? refuse (4 <? sysctl_count) in
  let sysctl_end := 12 + sysctl_count * 3 in
  let deadline_len := if bool_decide (version = MAGIC_V3) then 8 else 0 in
  let request_header_end := sysctl_end + deadline_len + 4 in
  check? refuse (content_len <? request_header_end) in
  let? sysctl_bytes := slice bytes 12 sysctl_end in
  let? sysctls := decode_sysctls None (chunks_exact (length sysctl_bytes) 3 sysctl_bytes) in
  let? drain_deadline_mono_ms :=
    (if deadline_len =? 8 then read_be 8 bytes sysctl_end else Ok 0) in
  let request_len_offset := sysctl_end + deadline_len in
  let? request_len := read_be 4 bytes request_len_offset in
  check? refuse ((request_len =? 0) || (MAX_NETD_FRAME_LEN <? request_len)) in
  let request_end := request_header_end + request_len in
  check? refuse (content_len <? request_end) in
  let? frame := slice bytes request_header_end request_end in
  let? (owner, declaration) := decode_prepare frame in
  let? (recovery_candidate, recovery_candidate_owner) :=
    decode_candidate bytes version content_len request_end phase owner in
  let? failed_prefixes := decode_extension bytes version content_len request_end
                            recovery_candidate in
  Ok (mkRecord owner declaration recovery_candidate recovery_candidate_owner phase
        completed_steps sysctls drain_deadline_mono_ms failed_prefixes).

End Codec.
