(* ===== verification/JournalFacts.v ===== *)
(** * Properties of the journal file

    The decoder never panics, and reads back what the encoder wrote. *)
From stdpp Require Import base tactics list numbers option sorting.
From Stdlib Require Import ZArith Lia.
From S2P Require Import Prelude Ipv4 Wire Proto ProtoFacts Network Kernel Journal.

#[local] Arguments index : simpl never.
#[local] Arguments slice : simpl never.
#[local] Arguments read_be : simpl never.

(** ** No panics *)

Definition calm {A} (p : Parse A) : Prop := p <> Err Panics.

Lemma calm_bind {A B} (m : Parse A) (k : A -> Parse B) :
  calm m -> (forall a, m = Ok a -> calm (k a)) -> calm (result_bind m k).
Proof. unfold calm. destruct m as [a|e]; simpl; [auto|]. intros H _ [= ->]. done. Qed.

Lemma calm_check (bad : bool) {B} (k : Parse B) :
  (bad = false -> calm k) -> calm (check? refuse bad in k).
Proof. unfold calm, refuse, journal_err. destruct bad; simpl; [done|auto]. Qed.

Lemma calm_ok {A} (a : A) : calm (Ok a).
Proof. done. Qed.

Lemma calm_journal_err {A} : calm (A := A) journal_err.
Proof. done. Qed.

Lemma calm_or_journal {E A} (r : Result E A) : calm (or_journal r).
Proof. by destruct r. Qed.

Lemma zlength_nonneg {A} (l : list A) : 0 <= zlength l.
Proof. unfold zlength. lia. Qed.

Lemma slice_ok bytes a b :
  0 <= a -> a <= b -> b <= zlength bytes ->
  slice bytes a b = Ok (take (Z.to_nat (b - a)) (drop (Z.to_nat a) bytes)).
Proof.
  intros. unfold slice.
  by rewrite (proj2 (Z.leb_le 0 a)), (proj2 (Z.leb_le a b)), (proj2 (Z.leb_le b _)) by done.
Qed.

Lemma slice_inv bytes a b s :
  slice bytes a b = Ok s ->
  0 <= a /\ a <= b /\ b <= zlength bytes /\ zlength s = b - a /\
  s = take (Z.to_nat (b - a)) (drop (Z.to_nat a) bytes).
Proof.
  unfold slice. destruct (Z.leb_spec 0 a), (Z.leb_spec a b), (Z.leb_spec b (zlength bytes));
    simpl; try done. intros [= <-]. split_and!; try done.
  unfold zlength in *. rewrite length_take, length_drop. lia.
Qed.

Lemma slice_bytes bytes a b s : Forall is_byte bytes -> slice bytes a b = Ok s -> Forall is_byte s.
Proof. intros Hb (_ & _ & _ & _ & ->)%slice_inv. by apply Forall_take, Forall_drop. Qed.

Lemma calm_slice bytes a b : 0 <= a <= b -> b <= zlength bytes -> calm (slice bytes a b).
Proof. intros. by rewrite slice_ok by lia. Qed.

Lemma index_ok bytes i :
  0 <= i < zlength bytes -> index bytes i = Ok (nth (Z.to_nat i) bytes 0).
Proof.
  intros [H1 H2]. unfold index. by rewrite (proj2 (Z.leb_le 0 i)), (proj2 (Z.ltb_lt i _)).
Qed.

Lemma index_byte bytes i b : Forall is_byte bytes -> index bytes i = Ok b -> is_byte b.
Proof.
  unfold index. destruct (Z.leb_spec 0 i), (Z.ltb_spec i (zlength bytes)); simpl; try done.
  intros Hb [= <-]. unfold zlength in *. rewrite Forall_forall in Hb. apply Hb.
  apply list_elem_of_In, nth_In. lia.
Qed.

Lemma calm_index bytes i : 0 <= i < zlength bytes -> calm (index bytes i).
Proof. intros. by rewrite index_ok. Qed.

Lemma calm_read_be n bytes a : 0 <= a -> 0 <= n -> a + n <= zlength bytes -> calm (read_be n bytes a).
Proof.
  intros. unfold read_be. apply calm_bind; [apply calm_slice; lia|]. intros s _.
  by apply calm_check.
Qed.

Lemma read_be_nonneg n bytes a v : Forall is_byte bytes -> read_be n bytes a = Ok v -> 0 <= v.
Proof.
  unfold read_be. intros Hb. destruct (slice bytes a (a + n)) as [s|] eqn:E; [|done]. simpl.
  unfold refuse. destruct (negb _); [done|]. intros [= <-].
  by apply from_be_bytes_bound, (slice_bytes bytes a (a + n)).
Qed.

Lemma chunks_length fuel n l : Forall (fun c => length c = n) (chunks_exact fuel n l).
Proof.
  revert l. induction fuel as [|fuel IH]; intros l; simpl; [constructor|].
  destruct (Nat.leb_spec n (length l)); [|constructor].
  constructor; [|apply IH]. rewrite length_take. lia.
Qed.

Lemma calm_decode_sysctls p chunks :
  Forall (fun c => length c = 3%nat) chunks -> calm (decode_sysctls p chunks).
Proof.
  intros H. revert p. induction H as [|c cs Hc _ IH]; intros p; [done|]. simpl.
  assert (Hz : zlength c = 3) by (unfold zlength; lia).
  apply calm_bind.
  - unfold decode_sysctl. apply calm_bind; [apply calm_index; lia|]. intros k _.
    apply calm_bind; [apply calm_or_journal|]. intros k' _.
    apply calm_bind; [apply calm_index; lia|]. intros o _.
    apply calm_bind; [apply calm_index; lia|]. intros a _. by apply calm_check.
  - intros change _. apply calm_bind; [apply IH|]. done.
Qed.

Lemma calm_decode_failed p chunks :
  Forall (fun c => length c = 5%nat) chunks -> calm (decode_failed_prefixes p chunks).
Proof.
  intros H. revert p. induction H as [|c cs Hc _ IH]; intros p; [done|]. simpl.
  assert (Hz : zlength c = 5) by (unfold zlength; lia).
  apply calm_bind.
  - unfold decode_failed_prefix. apply calm_bind; [apply calm_slice; lia|]. intros s _.
    apply calm_check. intros _. apply calm_bind; [apply calm_index; lia|]. intros l _.
    by apply calm_check.
  - intros prefix _. apply calm_bind; [apply IH|]. done.
Qed.

Lemma calm_decode_candidate bytes version content_len request_end phase o :
  Forall is_byte bytes -> 0 <= request_end -> content_len <= zlength bytes ->
  calm (decode_candidate bytes version content_len request_end phase o).
Proof.
  intros Hb H0 Hc. unfold decode_candidate. case_bool_decide; [by apply calm_check|].
  apply calm_check. intros H1%Z.ltb_ge. apply calm_bind; [apply calm_read_be; lia|].
  intros len Hlen%read_be_nonneg; [|done]. destruct (len =? 0); [by apply calm_check|].
  apply calm_check. intros [_ H2%Z.ltb_ge]%orb_false_iff.
  apply calm_bind; [apply calm_slice; lia|]. intros frame _.
  apply calm_bind; [apply calm_or_journal|]. intros recovery _.
  apply calm_check. intros _. by destruct (operation recovery).
Qed.

Lemma calm_decode_extension bytes version content_len request_end c :
  Forall is_byte bytes -> 0 <= request_end -> content_len <= zlength bytes ->
  (c <> None -> request_end + 4 <= content_len) ->
  calm (decode_extension bytes version content_len request_end c).
Proof.
  intros Hb H0 Hc Hcand. unfold decode_extension. case_bool_decide as Hv.
  - apply calm_check. intros _. apply calm_bind.
    { case_bool_decide; [|done]. apply calm_check. intros H1%Z.ltb_ge.
      apply calm_bind; [apply calm_read_be; lia|]. done. }
    intros offset Hoff.
    assert (Hge : 0 <= offset).
    { revert Hoff. case_bool_decide; [|by intros [= <-]; lia].
      unfold refuse. destruct (_ <? _); [done|]. simpl.
      destruct (read_be 4 bytes request_end) as [v|] eqn:E; [|done].
      apply read_be_nonneg in E; [|done]. intros [= <-]. lia. }
    apply calm_check. intros _. apply calm_check. intros H2%Z.ltb_ge.
    apply calm_bind; [apply calm_read_be; lia|]. intros count Hcount%read_be_nonneg; [|done].
    apply calm_check. intros [_ H3]%orb_false_iff. apply negb_false_iff, Z.eqb_eq in H3.
    apply calm_bind; [apply calm_slice; lia|]. intros payload _.
    apply calm_decode_failed, chunks_length.
  - case_bool_decide as Hc2; [|done]. specialize (Hcand Hc2).
    apply calm_bind; [apply calm_read_be; lia|]. intros len _. by apply calm_check.
Qed.

(** A candidate was read from past a header that fits. *)
Lemma decode_candidate_header bytes version content_len request_end phase o c co :
  decode_candidate bytes version content_len request_end phase o = Ok (Some c, co) ->
  request_end + 4 <= content_len.
Proof.
  unfold decode_candidate. case_bool_decide.
  { unfold refuse. by destruct (negb _). }
  unfold refuse at 1. destruct (Z.ltb_spec content_len (request_end + 4)); [done|]. intros _. lia.
Qed.

(** The owner of a candidate is recorded only when it differs from the record's. *)
Lemma decode_candidate_owner bytes version content_len request_end phase o c co :
  decode_candidate bytes version content_len request_end phase o = Ok (c, co) -> co <> Some o.
Proof.
  unfold decode_candidate. case_bool_decide.
  { intros (_ & _ & [= <- <-])%result_bind_Ok. done. }
  intros (_ & _ & (len & _ & H1)%result_bind_Ok)%result_bind_Ok. revert H1.
  destruct (len =? 0); [by intros (_ & _ & [= <- <-])%result_bind_Ok|].
  intros (_ & _ & (frame & _ & (rec & _ & (_ & _ & H2)%result_bind_Ok)%result_bind_Ok)
    %result_bind_Ok)%result_bind_Ok.
  revert H2. destruct (operation rec); try done. intros [= <- <-].
  case_bool_decide; congruence.
Qed.

(** ** Reading back a layout *)

Lemma zlength_app {A} (l l' : list A) : zlength (l ++ l') = zlength l + zlength l'.
Proof. unfold zlength. rewrite length_app. lia. Qed.

Lemma zlength_cons {A} (x : A) l : zlength (x :: l) = 1 + zlength l.
Proof. unfold zlength. cbn [length]. lia. Qed.

Lemma zlength_be n x : zlength (to_be_bytes n x) = Z.of_nat n.
Proof. unfold zlength. by rewrite length_to_be_bytes. Qed.

Lemma slice_at bytes pre mid post a b :
  bytes = pre ++ mid ++ post -> a = zlength pre -> b = a + zlength mid ->
  slice bytes a b = Ok mid.
Proof.
  intros -> -> ->. pose proof (zlength_nonneg pre). pose proof (zlength_nonneg mid).
  pose proof (zlength_nonneg post).
  rewrite slice_ok by (rewrite ?zlength_app; lia). f_equal. unfold zlength.
  rewrite Nat2Z.id, drop_app_length. replace (Z.to_nat _) with (length mid) by lia.
  apply take_app_length.
Qed.

Lemma index_at bytes pre b post i : bytes = pre ++ b :: post -> i = zlength pre -> index bytes i = Ok b.
Proof.
  intros -> ->. pose proof (zlength_nonneg pre). pose proof (zlength_nonneg post).
  rewrite index_ok by (rewrite zlength_app, zlength_cons; lia).
  unfold zlength. rewrite Nat2Z.id. rewrite app_nth2 by lia. by rewrite Nat.sub_diag.
Qed.

Lemma read_be_at n bytes pre x post a :
  bytes = pre ++ to_be_bytes n x ++ post -> a = zlength pre -> 0 <= x < 256 ^ Z.of_nat n ->
  read_be (Z.of_nat n) bytes a = Ok x.
Proof.
  intros Hb Ha Hx. unfold read_be.
  rewrite (slice_at _ pre (to_be_bytes n x) post) by (done || by rewrite zlength_be).
  simpl. rewrite zlength_be, Z.eqb_refl. simpl. by rewrite from_to_be_bytes_id.
Qed.

Lemma chunks_concat {A} (enc : A -> list Z) n l :
  (0 < n)%nat -> Forall (fun x => length (enc x) = n) l ->
  chunks_exact (length (concat (map enc l))) n (concat (map enc l)) = map enc l.
Proof.
  intros Hn Hl.
  assert (H : forall fuel, (length (concat (map enc l)) <= fuel)%nat ->
            chunks_exact fuel n (concat (map enc l)) = map enc l); [|by apply H].
  induction Hl as [|x l Hx Hl IH]; intros fuel Hf.
  - destruct fuel; simpl; [done|]. destruct (Nat.leb_spec n 0); [lia|done].
  - simpl in *. rewrite length_app in Hf. destruct fuel as [|fuel]; [lia|]. simpl.
    rewrite length_app. destruct (Nat.leb_spec n (length (enc x) + length (concat (map enc l)))); [|lia].
    rewrite <- Hx, take_app_length, drop_app_length. f_equal. rewrite Hx. apply IH. lia.
Qed.

(** Values the fields can hold. *)
Definition sysctl_typed (c : SysctlChange) : Prop := is_byte (original c) /\ is_byte (applied c).

Record record_typed (r : TransactionRecord) : Prop := {
  rt_owner : owner_typed (record_owner r);
  rt_declaration : declaration_typed (record_declaration r);
  rt_candidate : forall c, recovery_candidate r = Some c -> declaration_typed c;
  rt_candidate_owner : forall o, recovery_candidate_owner r = Some o -> owner_typed o;
  rt_steps : steps_wf r;
  rt_deadline : is_u 64 (drain_deadline_mono_ms r);
  rt_failed : Forall prefix_typed (failed_prefixes r);
}.

(** [windows(2)] read as a scan with the previous element. *)
Fixpoint scan_ok {A} (ok : A -> A -> bool) (previous : option A) (l : list A) : bool :=
  match l with
  | [] => true
  | x :: l => match previous with Some p => ok p x | None => true end && scan_ok ok (Some x) l
  end.

Lemma windows2_scan {A} (ok : A -> A -> bool) l : windows2_all ok l = scan_ok ok None l.
Proof.
  destruct l as [|x l]; [done|]. revert x. induction l as [|y l IH]; intros x; [done|].
  change (windows2_all ok (x :: y :: l)) with (ok x y && windows2_all ok (y :: l)).
  by rewrite IH.
Qed.

Lemma decode_sysctls_encode l p :
  existsb sysctl_value_bad l = false ->
  scan_ok (fun a b => SysctlKey_to_u8 (key a) <? SysctlKey_to_u8 (key b)) p l = true ->
  decode_sysctls p (map encode_sysctl l) = Ok l.
Proof.
  revert p. induction l as [|c l IH]; intros p; [done|]. simpl.
  intros [Hbad Hb]%orb_false_iff [Hp Hs]%andb_true_iff. unfold decode_sysctl.
  rewrite (index_at _ [] (SysctlKey_to_u8 (key c)) [original c; applied c]) by done. simpl.
  replace (SysctlKey_try_from (SysctlKey_to_u8 (key c))) with (Ok (E := NetworkError) (key c))
    by (by destruct (key c)). simpl.
  destruct c as [k o a]. simpl in *. rewrite Hbad. simpl.
  replace (match p with Some previous => SysctlKey_to_u8 k <=? SysctlKey_to_u8 (key previous)
           | None => false end) with false.
  2:{ destruct p; [|done]. apply Z.ltb_lt in Hp. symmetry. apply Z.leb_gt. lia. }
  simpl. by rewrite IH.
Qed.

Lemma decode_failed_encode l p :
  Forall prefix_typed l -> existsb (fun prefix => negb (canonical_prefix prefix)) l = false ->
  scan_ok prefix_ltb p l = true ->
  decode_failed_prefixes p (map encode_failed_prefix l) = Ok l.
Proof.
  intros Ht. revert p. induction Ht as [|q l [[Hq _] _] Ht IH]; intros p; [done|]. simpl.
  intros [Hbad Hb]%orb_false_iff [Hp Hs]%andb_true_iff. unfold decode_failed_prefix.
  assert (Hz : zlength (network q) = 4) by (unfold zlength; lia).
  unfold encode_failed_prefix.
  rewrite (slice_at _ [] (network q) [prefix_len q]) by (done || by rewrite Hz). simpl.
  rewrite Hz. simpl.
  rewrite (index_at _ (network q) (prefix_len q) []) by done. simpl.
  destruct q as [net len]. simpl in *. rewrite Hbad. simpl.
  replace (match p with Some p => bool_decide (prefix_le (mkIpv4Prefix net len) p)
           | None => false end) with false.
  2:{ destruct p as [p|]; [|done]. unfold prefix_ltb in Hp. apply bool_decide_eq_true in Hp.
      symmetry. apply bool_decide_eq_false. intros Hle. unfold prefix_le, prefix_lt in *.
      rewrite prefix_cmp_antisym, Hp in Hle. done. }
  simpl. by rewrite IH.
Qed.

Lemma completed_steps_bytes x :
  0 <= x < 64 -> exists hi lo, to_be_bytes 2 x = [hi; lo] /\ from_be_bytes [hi; lo] = x /\
    negb (Z.land x (u16_not 63) =? 0) = false.
Proof.
  intros Hx. pose proof (from_to_be_bytes_id 2 x) as H.
  eexists _, _. split_and!; [reflexivity|apply H; simpl; lia|].
  apply negb_false_iff, Z.eqb_eq.
  apply (small_cases (fun x => Z.land x (u16_not 63) = 0) 64); [|done].
  by repeat (constructor; [vm_compute; reflexivity|]).
Qed.

Section Facts.
Context (Sha256_digest : list Z -> list Z).

(** The layout of an encoded record: [D] are the deadline bytes and [rest] what follows
    the request. *)
Definition layout (M : list Z) (ph : Z) (steps : Z) (changes : list SysctlChange)
    (D request rest : list Z) : list Z :=
  M ++ [ph] ++ to_be_bytes 2 steps ++ [zlength changes] ++ concat (map encode_sysctl changes)
  ++ D ++ to_be_bytes 4 (zlength request) ++ request ++ rest.

Definition request_position (changes : list SysctlChange) (D request : list Z) : Z :=
  16 + 3 * zlength changes + zlength D + zlength request.

Lemma zlength_sysctls l : zlength (concat (map encode_sysctl l)) = 3 * zlength l.
Proof.
  induction l as [|c l IH]; [done|]. cbn [map concat]. rewrite zlength_app, IH, zlength_cons.
  unfold encode_sysctl. rewrite !zlength_cons. unfold zlength. simpl. lia.
Qed.

Lemma zlength_layout M ph steps changes D request rest :
  zlength M = 8 ->
  zlength (layout M ph steps changes D request rest) =
  request_position changes D request + zlength rest.
Proof.
  intros HM. unfold layout, request_position.
  rewrite !zlength_app, !zlength_be, zlength_sysctls, HM.
  change (zlength [ph]) with 1. change (zlength [zlength changes]) with 1. lia.
Qed.

(** Where the parts of a layout lie. *)
Ltac part_at :=
  first [ done
        | by rewrite <- !app_assoc
        | rewrite ?zlength_app, ?zlength_cons, ?zlength_be, ?zlength_sysctls; unfold zlength in *;
          cbn [length] in *; lia ].

Lemma layout_reads M ph steps changes D request rest digest :
  zlength M = 8 -> 0 <= steps < 64 -> zlength request < 2 ^ 32 ->
  let content := layout M ph steps changes D request rest in
  let bytes := content ++ digest in
  let e := 12 + zlength changes * 3 in
  slice bytes 0 8 = Ok M /\ index bytes 8 = Ok ph /\
  (exists hi lo, index bytes 9 = Ok hi /\ index bytes 10 = Ok lo /\ from_be_bytes [hi; lo] = steps) /\
  index bytes 11 = Ok (zlength changes) /\
  slice bytes 12 e = Ok (concat (map encode_sysctl changes)) /\
  slice bytes e (e + zlength D) = Ok D /\
  read_be 4 bytes (e + zlength D) = Ok (zlength request) /\
  slice bytes (e + zlength D + 4) (e + zlength D + 4 + zlength request) = Ok request.
Proof.
  intros HM Hst Hrq content bytes e. pose proof (zlength_nonneg request).
  destruct (completed_steps_bytes steps Hst) as (hi & lo & Hbe & Hfrom & _).
  set (S := concat (map encode_sysctl changes)). set (L := to_be_bytes 4 (zlength request)).
  assert (HS : zlength S = 3 * zlength changes) by apply zlength_sysctls.
  assert (HL : zlength L = 4) by apply zlength_be.
  assert (Hb : bytes = (M ++ [ph; hi; lo; zlength changes]) ++ S ++ D ++ L ++ request ++ rest ++ digest).
  { unfold bytes, content, layout. rewrite Hbe. by rewrite <- !app_assoc. }
  assert (Hhead : zlength (M ++ [ph; hi; lo; zlength changes]) = 12) by part_at.
  split_and!.
  - eapply (slice_at _ []); [rewrite Hb; by rewrite <- !app_assoc|done|by rewrite HM].
  - eapply (index_at _ M); [rewrite Hb; by rewrite <- !app_assoc|done].
  - exists hi, lo. split_and!; [| |done].
    + eapply (index_at _ (M ++ [ph])); [rewrite Hb; by rewrite <- !app_assoc|part_at].
    + eapply (index_at _ (M ++ [ph; hi])); [rewrite Hb; by rewrite <- !app_assoc|part_at].
  - eapply (index_at _ (M ++ [ph; hi; lo])); [rewrite Hb; by rewrite <- !app_assoc|part_at].
  - eapply slice_at; [exact Hb|by rewrite Hhead|unfold e; lia].
  - eapply (slice_at _ ((M ++ [ph; hi; lo; zlength changes]) ++ S));
      [rewrite Hb; by rewrite <- !app_assoc|rewrite !zlength_app; rewrite zlength_app in Hhead; unfold e; lia|done].
  - apply (read_be_at 4 _ ((M ++ [ph; hi; lo; zlength changes]) ++ S ++ D) _ (request ++ rest ++ digest));
      [rewrite Hb; by rewrite <- !app_assoc|rewrite !zlength_app; rewrite zlength_app in Hhead; unfold e; lia|by split].
  - eapply (slice_at _ ((M ++ [ph; hi; lo; zlength changes]) ++ S ++ D ++ L));
      [rewrite Hb; by rewrite <- !app_assoc|rewrite !zlength_app; rewrite zlength_app in Hhead; unfold e; lia|done].
Qed.

(** Decoding up to the request. *)
Lemma decode_layout M ph phase steps changes D request rest digest :
  M ∈ [MAGIC_V1; MAGIC_V2; MAGIC_V3; MAGIC_V4] -> decode_phase ph = Ok phase ->
  0 <= steps < 64 -> sysctls_bad changes = false ->
  zlength D = (if bool_decide (M = MAGIC_V3) then 8 else 0) ->
  zlength request < 2 ^ 32 -> zlength digest = 32 ->
  let content := layout M ph steps changes D request rest in
  let bytes := content ++ digest in
  let request_end := request_position changes D request in
  Sha256_digest content = digest ->
  decode_record Sha256_digest bytes =
    (let? deadline := (if zlength D =? 8 then read_be 8 bytes (12 + zlength changes * 3) else Ok 0) in
     check? refuse ((zlength request =? 0) || (MAX_NETD_FRAME_LEN <? zlength request)) in
     let? (o, d) := decode_prepare request in
     let? (c, co) := decode_candidate bytes M (zlength content) request_end phase o in
     let? failed := decode_extension bytes M (zlength content) request_end c in
     Ok (mkRecord o d c co phase steps changes deadline failed)).
Proof.
  intros HM Hph Hst Hsys HD Hrq Hdg content bytes request_end Hsha.
  assert (HM8 : zlength M = 8).
  { rewrite !elem_of_cons, elem_of_nil in HM. by destruct HM as [->|[->|[->|[->|[]]]]]. }
  pose proof (zlength_layout M ph steps changes D request rest HM8) as Hlen. fold content in Hlen.
  unfold request_position in Hlen. pose proof (zlength_nonneg rest).
  pose proof (zlength_nonneg changes). pose proof (zlength_nonneg D).
  pose proof (zlength_nonneg request).
  assert (Hb : zlength bytes = zlength content + 32) by (unfold bytes; rewrite zlength_app; lia).
  destruct (layout_reads M ph steps changes D request rest digest HM8 Hst Hrq)
    as (R1 & R2 & (hi & lo & R3 & R4 & Hfrom) & R5 & R6 & _ & R8 & R9).
  fold content in R1, R2, R3, R4, R5, R6, R8, R9. fold bytes in R1, R2, R3, R4, R5, R6, R8, R9.
  destruct (completed_steps_bytes steps Hst) as (_ & _ & _ & _ & Hmask).
  apply orb_false_iff in Hsys as [[H4 Hord]%orb_false_iff Hval].
  apply negb_false_iff in Hord. rewrite windows2_scan in Hord.
  unfold decode_record, HEADER_LEN, CHECKSUM_LEN.
  rewrite (proj2 (Z.ltb_ge _ _)), R1 by lia. cbn [refuse result_bind].
  rewrite bool_decide_eq_true_2 by done. cbn [negb refuse result_bind].
  replace (zlength bytes - 32) with (zlength content) by lia.
  rewrite (slice_at bytes [] content digest), (slice_at bytes content digest []) by
    (done || lia || (by rewrite app_nil_r)).
  cbn [result_bind]. rewrite bool_decide_eq_true_2, R2 by done. cbn [negb refuse result_bind].
  rewrite Hph, R3, R4, R5. cbn [result_bind]. rewrite Hfrom, Hmask, H4. cbn [refuse result_bind].
  rewrite <- HD, (proj2 (Z.ltb_ge _ _)), R6 by lia. cbn [refuse result_bind].
  rewrite (chunks_concat encode_sysctl 3), decode_sysctls_encode by
    (done || lia || by apply Forall_forall). cbn [result_bind].
  match goal with |- result_bind ?m _ = _ => destruct m as [deadline|]; [|done] end.
  cbn [result_bind]. rewrite R8. cbn [result_bind].
  destruct (refuse _) as [[]|]; [|done]. cbn [result_bind].
  rewrite (proj2 (Z.ltb_ge _ _)), R9 by lia. cbn [refuse result_bind].
  replace (12 + zlength changes * 3 + zlength D + 4 + zlength request) with request_end
    by (unfold request_end, request_position; lia). done.
Qed.


(** ** Round trip *)

Lemma prepare_request_typed o d :
  owner_typed o -> declaration_typed d -> request_typed (mkRequest 1 o (OpPrepare d)).
Proof. intros Ho Hd. split; [done|]. by split. Qed.

Lemma encode_prepare_spec o d bs :
  owner_typed o -> declaration_typed d -> encode_prepare o d = Ok bs ->
  NetdRequest_decode bs = Ok (mkRequest 1 o (OpPrepare d)) /\
  0 < zlength bs <= MAX_NETD_FRAME_LEN.
Proof.
  intros Ho Hd. unfold encode_prepare.
  destruct (NetdRequest_encode _) as [bs'|] eqn:E; [|done]. intros [= <-].
  split; [apply request_decode_encode; [by apply prepare_request_typed|done]|].
  apply encode_request_Ok in E as (_ & _ & Hf & _). unfold ensure_frame in Hf.
  case_bool_decide as Hne; [done|]. destruct (Z.ltb_spec MAX_NETD_FRAME_LEN (Z.of_nat (length bs'))); [done|].
  unfold zlength. destruct bs'; [done|]. cbn [length] in *. lia.
Qed.

Lemma decode_prepare_spec o d bs :
  NetdRequest_decode bs = Ok (mkRequest 1 o (OpPrepare d)) -> decode_prepare bs = Ok (o, d).
Proof. intros H. unfold decode_prepare. by rewrite H. Qed.

(** What survives the file: the deadline only next to a candidate, and the owner of the
    candidate only if it differs from the active owner. *)
Definition journal_view (r : TransactionRecord) : TransactionRecord :=
  match recovery_candidate r with
  | Some c =>
      let o := default (record_owner r) (recovery_candidate_owner r) in
      set_candidate (Some c) (if bool_decide (o <> record_owner r) then Some o else None) r
  | None => set_deadline 0 r
  end.

Lemma journal_view_durable r : same_durable (journal_view r) r.
Proof. unfold journal_view. destruct (recovery_candidate r) eqn:E; by repeat split. Qed.

(** The parts of a successful encoding. *)
Lemma encode_record_ok r bytes :
  encode_record Sha256_digest r = Ok bytes ->
  failed_prefixes_bad (failed_prefixes r) = false /\ sysctls_bad (sysctls r) = false /\
  candidate_bad r = false /\
  exists request recovery,
    encode_prepare (record_owner r) (record_declaration r) = Ok request /\
    encode_candidate r = Ok recovery /\
    bytes = record_content r request recovery ++ Sha256_digest (record_content r request recovery).
Proof.
  unfold encode_record. destruct (failed_prefixes_bad _); [done|].
  destruct (sysctls_bad _); [done|]. destruct (candidate_bad r); [done|].
  destruct (encode_prepare _ _) as [request|]; [|done].
  destruct (encode_candidate r) as [recovery|]; [|done]. cbn [result_bind].
  destruct (length_fits_u32 request) as [[]|]; [|done].
  destruct (length_fits_u32 (default [] recovery)) as [[]|]; [|done].
  intros [= <-]. split_and!; try done. by exists request, recovery.
Qed.

Lemma record_content_layout r request recovery :
  record_content r request recovery =
  layout (if negb (bool_decide (failed_prefixes r = [])) then MAGIC_V4
          else if bool_decide (recovery <> None) then MAGIC_V3 else MAGIC_V1)
    (phase_to_u8 (record_phase r)) (completed_steps r) (sysctls r)
    (if bool_decide (recovery_candidate r <> None)
     then to_be_bytes 8 (drain_deadline_mono_ms r) else []) request
    (match recovery with
     | Some recovery => to_be_bytes 4 (zlength recovery) ++ recovery
     | None => if negb (bool_decide (failed_prefixes r = [])) then to_be_bytes 4 0 else []
     end
     ++ (if negb (bool_decide (failed_prefixes r = []))
         then to_be_bytes 2 (zlength (failed_prefixes r))
              ++ concat (map encode_failed_prefix (failed_prefixes r))
         else [])).
Proof. reflexivity. Qed.

Lemma decode_phase_encode p : decode_phase (phase_to_u8 p) = Ok p.
Proof. by destruct p. Qed.

Definition content_version (r : TransactionRecord) : list Z :=
  if negb (bool_decide (failed_prefixes r = [])) then MAGIC_V4
  else if bool_decide (recovery_candidate r <> None) then MAGIC_V3 else MAGIC_V1.

Lemma known_version r : content_version r ∈ [MAGIC_V1; MAGIC_V2; MAGIC_V3; MAGIC_V4].
Proof.
  unfold content_version. rewrite !elem_of_cons.
  destruct (negb _); [tauto|]. destruct (bool_decide _); tauto.
Qed.

Lemma content_version_length r : zlength (content_version r) = 8.
Proof.
  unfold content_version. destruct (negb _); [done|]. by destruct (bool_decide _).
Qed.

(** The deadline read back from its eight bytes. *)
Lemma deadline_read M ph steps changes (b : bool) deadline request rest digest :
  is_u 64 deadline -> 0 <= steps < 64 -> zlength M = 8 -> zlength request < 2 ^ 32 ->
  let D := if b then to_be_bytes 8 deadline else [] in
  (if zlength D =? 8
   then read_be 8 (layout M ph steps changes D request rest ++ digest) (12 + zlength changes * 3)
   else Ok 0) = Ok (if b then deadline else 0).
Proof.
  intros Hd Hst HM Hrq D. destruct b; [|done]. unfold D at 1. rewrite zlength_be. simpl Z.eqb. cbn iota.
  destruct (layout_reads M ph steps changes D request rest digest HM Hst Hrq) as (_ & _ & _ & _ & _ & R & _).
  assert (HD : zlength D = 8) by apply zlength_be. rewrite HD in R.
  unfold read_be. rewrite R. cbn [result_bind]. rewrite HD. cbn [negb Z.eqb Pos.eqb refuse result_bind].
  unfold D. by rewrite from_to_be_bytes_id.
Qed.

(** The decoder up to the candidate, on an encoded record that does not combine a
    candidate with failed prefixes. *)
Lemma decode_content r request recovery :
  record_typed r -> (failed_prefixes r = [] \/ recovery_candidate r = None) ->
  (recovery = None <-> recovery_candidate r = None) ->
  sysctls_bad (sysctls r) = false ->
  encode_prepare (record_owner r) (record_declaration r) = Ok request ->
  let content := record_content r request recovery in
  zlength (Sha256_digest content) = 32 ->
  let bytes := content ++ Sha256_digest content in
  let deadline := if bool_decide (recovery_candidate r <> None)
                  then drain_deadline_mono_ms r else 0 in
  let D := if bool_decide (recovery_candidate r <> None)
           then to_be_bytes 8 (drain_deadline_mono_ms r) else [] in
  let request_end := request_position (sysctls r) D request in
  decode_record Sha256_digest bytes =
    (let? (c, co) := decode_candidate bytes (content_version r) (zlength content) request_end
                       (record_phase r) (record_owner r) in
     let? failed := decode_extension bytes (content_version r) (zlength content) request_end c in
     Ok (mkRecord (record_owner r) (record_declaration r) c co (record_phase r)
           (completed_steps r) (sysctls r) deadline failed)).
Proof.
  intros Ht Hor Hrec Hsys Hrq content Hdg bytes deadline D request_end.
  destruct (encode_prepare_spec _ _ _ (rt_owner r Ht) (rt_declaration r Ht) Hrq) as [Hdec Hlen].
  assert (Hver : (if negb (bool_decide (failed_prefixes r = [])) then MAGIC_V4
            else if bool_decide (recovery <> None) then MAGIC_V3 else MAGIC_V1) = content_version r).
  { unfold content_version. destruct (negb _); [done|]. by rewrite (bool_decide_ext _ _ (not_iff_compat Hrec)). }
  unfold bytes, content in *. rewrite record_content_layout in *. rewrite Hver in *. fold D.
  fold D in Hdg.
  assert (HD : zlength D = if bool_decide (content_version r = MAGIC_V3) then 8 else 0).
  { unfold D, content_version. destruct (recovery_candidate r) as [c|] eqn:Ec; simpl.
    - destruct Hor as [Hf|Hf]; [|done]. by rewrite Hf.
    - by destruct (negb _). }
  erewrite decode_layout; [|apply known_version|apply decode_phase_encode|apply Ht|done|exact HD|
    unfold MAX_NETD_FRAME_LEN in *; lia|done|done].
  replace (if zlength D =? 8 then _ else _) with (Ok deadline : Parse Z).
  2:{ symmetry. apply deadline_read; [apply Ht|apply Ht|by destruct (content_version_length r)|].
      unfold MAX_NETD_FRAME_LEN in *. lia. }
  cbn [result_bind]. rewrite (proj2 (Z.eqb_neq (zlength request) 0)), (proj2 (Z.ltb_ge _ (zlength request))) by lia.
  cbn [orb refuse result_bind]. rewrite (decode_prepare_spec _ _ _ Hdec). done.
Qed.

Lemma layout_split M ph steps changes D request rest :
  layout M ph steps changes D request rest = layout M ph steps changes D request [] ++ rest.
Proof. unfold layout. rewrite !app_nil_r. by rewrite <- !app_assoc. Qed.

(** What an encoded record looks like from the end of its request. *)
Definition tail_bytes (r : TransactionRecord) (recovery : option (list Z)) : list Z :=
  match recovery with
  | Some recovery => to_be_bytes 4 (zlength recovery) ++ recovery
  | None => if negb (bool_decide (failed_prefixes r = [])) then to_be_bytes 4 0 else []
  end
  ++ (if negb (bool_decide (failed_prefixes r = []))
      then to_be_bytes 2 (zlength (failed_prefixes r))
           ++ concat (map encode_failed_prefix (failed_prefixes r))
      else []).

Lemma content_tail r request recovery :
  (recovery = None <-> recovery_candidate r = None) ->
  let D := if bool_decide (recovery_candidate r <> None)
           then to_be_bytes 8 (drain_deadline_mono_ms r) else [] in
  exists head, record_content r request recovery = head ++ tail_bytes r recovery /\
    zlength head = request_position (sysctls r) D request.
Proof.
  intros Hrec D. rewrite record_content_layout, layout_split. eexists. split; [reflexivity|].
  fold D. rewrite zlength_layout, Z.add_0_r; [done|].
  by repeat case_match.
Qed.

Lemma candidate_none r :
  recovery_candidate r = None -> candidate_bad r = false ->
  encode_candidate r = Ok None /\ recovery_candidate_owner r = None.
Proof.
  intros Hc. unfold candidate_bad, encode_candidate. rewrite Hc.
  destruct (recovery_candidate_owner r); [|done]. by intros [_ ?]%orb_false_iff.
Qed.

(** Version 1: no candidate and no failed prefix. *)
Lemma tail_v1 r digest head :
  failed_prefixes r = [] -> recovery_candidate r = None ->
  let content := head ++ tail_bytes r None in
  decode_candidate (content ++ digest) (content_version r) (zlength content) (zlength head)
    (record_phase r) (record_owner r) = Ok (None, None) /\
  decode_extension (content ++ digest) (content_version r) (zlength content) (zlength head) None = Ok [].
Proof.
  intros Hf Hc content. unfold content, tail_bytes, content_version. rewrite Hf, Hc. simpl.
  rewrite app_nil_r. split; [|done]. unfold decode_candidate. rewrite bool_decide_eq_true_2 by done.
  by rewrite Z.eqb_refl.
Qed.

(** Version 4: failed prefixes and no candidate. *)
Lemma tail_v4 r digest head :
  record_typed r -> failed_prefixes r <> [] -> failed_prefixes_bad (failed_prefixes r) = false ->
  recovery_candidate r = None ->
  let content := head ++ tail_bytes r None in
  decode_candidate (content ++ digest) (content_version r) (zlength content) (zlength head)
    (record_phase r) (record_owner r) = Ok (None, None) /\
  decode_extension (content ++ digest) (content_version r) (zlength content) (zlength head) None =
    Ok (failed_prefixes r).
Proof.
  intros Ht Hf Hbad Hc content. set (l := failed_prefixes r) in *.
  apply orb_false_iff in Hbad as [[Hmax Hord]%orb_false_iff Hcan]. apply Z.ltb_ge in Hmax.
  apply negb_false_iff in Hord. rewrite windows2_scan in Hord. unfold MAX_FAILED_PREFIXES in *.
  assert (Hl1 : 1 <= zlength l).
  { destruct l as [|x l']; [done|]. rewrite zlength_cons. pose proof (zlength_nonneg l'). lia. }
  set (P := concat (map encode_failed_prefix l)).
  assert (Hlen5 : Forall (fun p => length (encode_failed_prefix p) = 5%nat) l).
  { eapply Forall_impl; [apply Ht|]. intros p [[Hp _] _]. unfold encode_failed_prefix.
    rewrite length_app, Hp. done. }
  assert (HP : zlength P = 5 * zlength l).
  { unfold P. clear -Hlen5. induction Hlen5 as [|p l Hp _ IH]; [done|]. cbn [map concat].
    rewrite zlength_app, IH, zlength_cons. unfold zlength at 1. lia. }
  assert (Htail : content = head ++ to_be_bytes 4 0 ++ to_be_bytes 2 (zlength l) ++ P).
  { unfold content, tail_bytes. fold l. rewrite bool_decide_eq_false_2 by done. cbn [negb].
    by rewrite <- ?app_assoc. }
  assert (Hclen : zlength content = zlength head + 6 + zlength P).
  { rewrite Htail, !zlength_app, !zlength_be. lia. }
  pose proof (zlength_nonneg head).
  assert (Hv : content_version r = MAGIC_V4).
  { unfold content_version. fold l. by rewrite bool_decide_eq_false_2. }
  rewrite Hv. split.
  - unfold decode_candidate. rewrite bool_decide_eq_false_2 by done.
    rewrite (proj2 (Z.ltb_ge _ _)) by lia. cbn [refuse result_bind].
    rewrite (read_be_at 4 _ head 0 (to_be_bytes 2 (zlength l) ++ P ++ digest));
      [done|rewrite Htail; by rewrite <- ?app_assoc|done|done].
  - unfold decode_extension. rewrite bool_decide_eq_true_2 by done. cbn [bool_decide negb].
    rewrite (bool_decide_eq_false_2 (None <> None)) by (by intros []). cbn [negb andb].
    rewrite !(proj2 (Z.ltb_ge _ _)) by lia. cbn [refuse result_bind].
    rewrite !(proj2 (Z.ltb_ge _ _)) by lia. cbn [refuse result_bind].
    rewrite (read_be_at 2 _ (head ++ to_be_bytes 4 0) (zlength l) (P ++ digest));
      [|rewrite Htail; by rewrite <- ?app_assoc|rewrite zlength_app, zlength_be; lia|simpl; lia].
    cbn [result_bind]. rewrite (proj2 (Z.eqb_neq _ 0)), (proj2 (Z.ltb_ge MAX_FAILED_PREFIXES _)) by
      (unfold MAX_FAILED_PREFIXES; lia).
    rewrite (proj2 (Z.eqb_eq _ (zlength content))) by lia. cbn [negb orb refuse result_bind].
    rewrite (slice_at _ (head ++ to_be_bytes 4 0 ++ to_be_bytes 2 (zlength l)) P digest);
      [|rewrite Htail; by rewrite <- ?app_assoc|rewrite !zlength_app, !zlength_be; lia|lia].
    cbn [result_bind]. unfold P. rewrite (chunks_concat encode_failed_prefix 5) by (done || lia).
    by apply decode_failed_encode; [apply Ht|..].
Qed.

(** Version 3: a candidate and no failed prefix. *)
Lemma candidate_some r c :
  record_typed r -> recovery_candidate r = Some c -> candidate_bad r = false ->
  forall recovery, encode_candidate r = Ok recovery ->
  let o := default (record_owner r) (recovery_candidate_owner r) in
  exists frame, recovery = Some frame /\
    NetdRequest_decode frame = Ok (mkRequest 1 o (OpPrepare c)) /\
    0 < zlength frame <= MAX_NETD_FRAME_LEN /\
    candidate_owner_bad (record_owner r) o = false /\ candidate_phase (record_phase r) = true.
Proof.
  intros Ht Hc Hbad recovery He o. unfold encode_candidate in He. rewrite Hc in He.
  destruct (encode_prepare _ c) as [frame|] eqn:Ef; [|done]. injection He as <-.
  assert (Ho : owner_typed o).
  { unfold o. destruct (recovery_candidate_owner r) eqn:Eo; simpl; [by eapply rt_candidate_owner|apply Ht]. }
  destruct (encode_prepare_spec o c frame Ho (rt_candidate r Ht c Hc) Ef) as [Hdec Hlen].
  exists frame. split_and!; try done; try apply Hlen.
  - unfold candidate_bad in Hbad. rewrite Hc in Hbad. apply orb_false_iff in Hbad as [_ Hbad].
    unfold o. destruct (recovery_candidate_owner r); simpl; [done|].
    unfold candidate_owner_bad. rewrite bool_decide_eq_true_2, Z.eqb_refl, Z.ltb_irrefl by done. done.
  - unfold candidate_bad in Hbad. rewrite Hc in Hbad. apply orb_false_iff in Hbad as [Hbad _].
    by destruct (candidate_phase _).
Qed.

Lemma tail_v3 r c frame digest head :
  failed_prefixes r = [] -> recovery_candidate r = Some c ->
  let o := default (record_owner r) (recovery_candidate_owner r) in
  NetdRequest_decode frame = Ok (mkRequest 1 o (OpPrepare c)) ->
  0 < zlength frame <= MAX_NETD_FRAME_LEN ->
  candidate_owner_bad (record_owner r) o = false -> candidate_phase (record_phase r) = true ->
  let content := head ++ tail_bytes r (Some frame) in
  decode_candidate (content ++ digest) (content_version r) (zlength content) (zlength head)
    (record_phase r) (record_owner r) =
    Ok (Some c, if bool_decide (o <> record_owner r) then Some o else None) /\
  decode_extension (content ++ digest) (content_version r) (zlength content) (zlength head) (Some c) =
    Ok [].
Proof.
  intros Hf Hc o Hdec Hlen Hob Hph content.
  assert (Htail : content = head ++ to_be_bytes 4 (zlength frame) ++ frame).
  { unfold content, tail_bytes. rewrite Hf. cbn [bool_decide negb]. by rewrite bool_decide_eq_true_2, app_nil_r. }
  assert (Hclen : zlength content = zlength head + 4 + zlength frame).
  { rewrite Htail, !zlength_app, !zlength_be. lia. }
  assert (Hv : content_version r = MAGIC_V3).
  { unfold content_version. rewrite Hf, Hc. by rewrite bool_decide_eq_true_2. }
  assert (Hread : read_be 4 (content ++ digest) (zlength head) = Ok (zlength frame)).
  { apply (read_be_at 4 _ head _ (frame ++ digest)); [rewrite Htail; by rewrite <- !app_assoc|done|].
    unfold MAX_NETD_FRAME_LEN in Hlen. simpl. lia. }
  pose proof (zlength_nonneg head). rewrite Hv. split.
  - unfold decode_candidate. rewrite bool_decide_eq_false_2 by done.
    rewrite (proj2 (Z.ltb_ge (zlength content) _)) by lia. cbn [refuse result_bind].
    rewrite Hread. cbn [result_bind]. rewrite (proj2 (Z.eqb_neq _ 0)) by lia.
    rewrite (proj2 (Z.ltb_ge MAX_NETD_FRAME_LEN _)), (proj2 (Z.ltb_ge (zlength content) _)) by lia.
    cbn [orb refuse result_bind].
    rewrite (slice_at _ (head ++ to_be_bytes 4 (zlength frame)) frame digest);
      [|rewrite Htail; by rewrite <- !app_assoc|rewrite zlength_app, zlength_be; lia|done].
    cbn [result_bind]. rewrite Hdec. cbn [or_journal result_bind owner operation].
    rewrite Hob, Hph. done.
  - unfold decode_extension. rewrite (bool_decide_eq_false_2 (MAGIC_V3 = MAGIC_V4)) by done.
    rewrite bool_decide_eq_true_2 by done. rewrite Hread. cbn [result_bind].
    by rewrite (proj2 (Z.eqb_eq _ _) (eq_sym Hclen)).
Qed.

Lemma decoded_candidate_owner bytes r :
  decode_record Sha256_digest bytes = Ok r ->
  recovery_candidate_owner r <> Some (record_owner r).
Proof.
  unfold decode_record. intros H.
  repeat (apply result_bind_Ok in H as (? & _ & H)).
  match goal with p : (LeaseOwner * PrepareDeclaration)%type |- _ => destruct p as [o d] end.
  apply result_bind_Ok in H as ([c co] & Hc & H).
  apply result_bind_Ok in H as (l & _ & [= <-]). simpl.
  by eapply decode_candidate_owner.
Qed.

(** [decode_record] never panics: on any bytes, whatever the digest function returns,
    every slice it takes and every byte it indexes is in bounds; it returns a record or
    an error. *)
Theorem decode_record_never_panics bytes :
  Forall is_byte bytes -> decode_record Sha256_digest bytes <> Err Panics.
Proof.
  intros Hb. change (calm (decode_record Sha256_digest bytes)). unfold decode_record.
  apply calm_check. intros Hlen%Z.ltb_ge. unfold HEADER_LEN, CHECKSUM_LEN in *.
  apply calm_bind; [apply calm_slice; lia|]. intros version _. apply calm_check. intros _.
  apply calm_bind; [apply calm_slice; lia|]. intros content _.
  apply calm_bind; [apply calm_slice; lia|]. intros checksum _. apply calm_check. intros _.
  apply calm_bind; [apply calm_index; lia|]. intros b8 _.
  apply calm_bind; [unfold decode_phase; enum_cases b8|]. intros phase _.
  apply calm_bind; [apply calm_index; lia|]. intros hi _.
  apply calm_bind; [apply calm_index; lia|]. intros lo _. apply calm_check. intros _.
  apply calm_bind; [apply calm_index; lia|]. intros n Hn%index_byte; [|done].
  apply calm_check. intros Hn4%Z.ltb_ge. destruct Hn as [Hn0 _].
  set (dl := if bool_decide (version = MAGIC_V3) then 8 else 0).
  assert (Hdl : dl = 0 \/ dl = 8) by (unfold dl; case_bool_decide; auto). clearbody dl.
  apply calm_check. intros Hrh%Z.ltb_ge. apply calm_bind; [apply calm_slice; lia|]. intros sb _.
  apply calm_bind; [apply calm_decode_sysctls, chunks_length|]. intros sysctls _.
  apply calm_bind; [destruct (dl =? 8) eqn:E8; [apply calm_read_be; lia|done]|]. intros deadline _.
  apply calm_bind; [apply calm_read_be; lia|]. intros rl Hrl%read_be_nonneg; [|done].
  apply calm_check. intros _. apply calm_check. intros Hre%Z.ltb_ge.
  apply calm_bind; [apply calm_slice; lia|]. intros frame _. apply calm_bind.
  { unfold decode_prepare. apply calm_bind; [apply calm_or_journal|]. intros r _.
    by destruct (operation r). }
  intros [o d] _. apply calm_bind; [apply calm_decode_candidate; [done|lia|lia]|].
  intros [c co] Hc. apply calm_bind; [|done].
  apply calm_decode_extension; [done|lia|lia|]. intros Hsome. destruct c as [c|]; [|done].
  by eapply decode_candidate_header.
Qed.

(** What decoding returns for a record that does not combine a candidate with withdrawn
    prefixes. *)
Lemma decode_encoded r bytes :
  (forall l, zlength (Sha256_digest l) = 32) ->
  record_typed r -> (failed_prefixes r = [] \/ recovery_candidate r = None) ->
  encode_record Sha256_digest r = Ok bytes ->
  decode_record Sha256_digest bytes = Ok (journal_view r).
Proof.
  intros Hsha Ht Hor He.
  apply encode_record_ok in He as (Hf & Hsys & Hc & request & recovery & Hrq & Hrec & ->).
  destruct (recovery_candidate r) as [c|] eqn:Ec.
  - destruct Hor as [Hor|Hor]; [|done].
    destruct (candidate_some r c Ht Ec Hc recovery Hrec) as (frame & -> & T1 & T2 & T3 & T4).
    assert (Hiff : Some frame = None <-> recovery_candidate r = None) by (by rewrite Ec).
    rewrite decode_content; [|done|by left|done|done|done|apply Hsha].
    destruct (content_tail r request (Some frame) Hiff) as (head & Heq & Hlen). rewrite <- Hlen, Heq.
    destruct (tail_v3 r c frame (Sha256_digest (head ++ tail_bytes r (Some frame))) head Hor Ec T1 T2 T3 T4)
      as [T5 T6].
    rewrite T5. cbn [result_bind]. rewrite T6. cbn [result_bind]. unfold journal_view. rewrite Ec.
    destruct r; simpl in *. by subst.
  - destruct (candidate_none r Ec Hc) as [Hnone Hco]. rewrite Hnone in Hrec. injection Hrec as <-.
    assert (Hiff : None (A := list Z) = None <-> recovery_candidate r = None) by (by rewrite Ec).
    rewrite decode_content; [|done|by right|done|done|done|apply Hsha].
    destruct (content_tail r request None Hiff) as (head & Heq & Hlen). rewrite <- Hlen, Heq.
    assert (Ht2 : decode_candidate ((head ++ tail_bytes r None) ++ Sha256_digest (head ++ tail_bytes r None))
        (content_version r) (zlength (head ++ tail_bytes r None)) (zlength head)
        (record_phase r) (record_owner r) = Ok (None, None) /\
      decode_extension ((head ++ tail_bytes r None) ++ Sha256_digest (head ++ tail_bytes r None))
        (content_version r) (zlength (head ++ tail_bytes r None)) (zlength head) None
      = Ok (failed_prefixes r)).
    { destruct (decide (failed_prefixes r = [])) as [E|E].
      - destruct (tail_v1 r (Sha256_digest (head ++ tail_bytes r None)) head E Ec) as [T5 T6].
        by rewrite T5, T6, E.
      - by apply tail_v4. }
    destruct Ht2 as [T5 T6]. rewrite T5. cbn [result_bind]. rewrite T6. cbn [result_bind].
    unfold journal_view. rewrite Ec. destruct r; simpl in *. by subst.
Qed.

(** A journal that cannot be read back: while a replacement is staged and some prefix
    is withdrawn, [encode_record] writes the drain deadline under the version that has
    none; with a deadline below [2^32] ms the decoder refuses every such file. *)
Theorem journal_withdrawn_replacement_unreadable r bytes :
  (forall l, zlength (Sha256_digest l) = 32) ->
  record_typed r -> failed_prefixes r <> [] -> recovery_candidate r <> None ->
  drain_deadline_mono_ms r < 2 ^ 32 ->
  encode_record Sha256_digest r = Ok bytes ->
  decode_record Sha256_digest bytes = Err (Returns NeJournal).
Proof.
  intros Hsha Ht Hf Hc Hdl He.
  apply encode_record_ok in He as (_ & Hsys & _ & request & recovery & _ & _ & ->).
  rewrite record_content_layout, (bool_decide_eq_false_2 (failed_prefixes r = [])) by done.
  rewrite (bool_decide_eq_true_2 (recovery_candidate r <> None)) by done. cbn [negb].
  set (rest := _ ++ to_be_bytes 2 _ ++ _). set (n := drain_deadline_mono_ms r) in *.
  assert (Hn : to_be_bytes 8 n = [0; 0; 0; 0] ++ to_be_bytes 4 n).
  { destruct (rt_deadline r Ht) as [Hn0 _]. fold n in Hn0. cbn [to_be_bytes app].
    rewrite !(Z.div_small n) by (simpl; lia). done. }
  assert (Hl : layout MAGIC_V4 (phase_to_u8 (record_phase r)) (completed_steps r) (sysctls r)
                 (to_be_bytes 8 n) request rest =
               layout MAGIC_V4 (phase_to_u8 (record_phase r)) (completed_steps r) (sysctls r)
                 [] [] (to_be_bytes 4 n ++ to_be_bytes 4 (zlength request) ++ request ++ rest)).
  { unfold layout. rewrite Hn. by rewrite <- !app_assoc. }
  rewrite Hl. erewrite decode_layout;
    [|rewrite !elem_of_cons; auto|apply decode_phase_encode|apply Ht|done|done|done|apply Hsha|done].
  done.
Qed.

(** C27. The journal round trip: what [encode_record] writes, [decode_record] reads back as
    [journal_view], unless the record combines a recovery candidate with withdrawn prefixes;
    then, with a drain deadline below 2^32 ms, it refuses the file. The view keeps the owner,
    the declaration, the candidate, the phase, the steps, the sysctls and the withdrawn
    prefixes; what it drops is the drain deadline of a record without candidate, and a
    candidate owner that equals the owner of the record. The latter is a field that
    [recover_orphan] compares. *)
Theorem journal_roundtrip r bytes :
  (forall l, zlength (Sha256_digest l) = 32) ->
  record_typed r -> encode_record Sha256_digest r = Ok bytes ->
  (failed_prefixes r = [] \/ recovery_candidate r = None ->
     decode_record Sha256_digest bytes = Ok (journal_view r)) /\
  same_durable (journal_view r) r /\ record_owner (journal_view r) = record_owner r /\
  (failed_prefixes r <> [] -> recovery_candidate r <> None -> drain_deadline_mono_ms r < 2 ^ 32 ->
     decode_record Sha256_digest bytes = Err (Returns NeJournal)).
Proof.
  intros Hsha Ht He. split_and!.
  - intros Hor. by apply decode_encoded.
  - apply journal_view_durable.
  - unfold journal_view. by destruct (recovery_candidate r).
  - intros. by apply (journal_withdrawn_replacement_unreadable r).
Qed.

End Facts.

(** ** Witnesses *)

(** A stand-in digest of the right length. *)
Definition sample_digest (l : list Z) : list Z := to_be_bytes 32 (from_be_bytes (take 8 (drop 8 l))).

Lemma sample_digest_length l : zlength (sample_digest l) = 32.
Proof. apply zlength_be. Qed.

Definition sample_candidate : PrepareDeclaration :=
  mkDeclaration 20002 [10; 9; 0; 1] 1400 (routes sample_declaration) (exclusions sample_declaration)
    (firewall sample_declaration).
Definition sample_record (failed : list Ipv4Prefix) : TransactionRecord :=
  mkRecord sample_owner sample_declaration (Some sample_candidate)
    (Some (mkOwner (replicate 16 7) 42 4 1000)) TpDraining 63 [mkSysctl Ipv4Forward 0 1] 5000 failed.

Lemma sample_record_typed failed : Forall prefix_typed failed -> record_typed (sample_record failed).
Proof.
  intros Hf. constructor; simpl; try done.
  - apply sample_request_typed.
  - apply sample_declaration_typed.
  - intros c [= <-]. exact sample_declaration_typed.
  - intros o [= <-]. destruct sample_request_typed as (_ & (H & _) & _). by split.
Qed.

Definition content_of (r : TransactionRecord) : list Z :=
  match encode_record sample_digest r with Ok bytes => bytes | Err _ => [] end.

Lemma decode_record_never_panics_witness :
  decode_record sample_digest [67; 78; 68; 255] <> Err Panics.
Proof.
  apply (decode_record_never_panics sample_digest [67; 78; 68; 255]).
  apply bytes_decide. vm_compute. reflexivity.
Defined.

Lemma journal_roundtrip_witness :
  decode_record sample_digest (content_of (sample_record [])) = Ok (journal_view (sample_record [])).
Proof.
  refine (proj1 (journal_roundtrip sample_digest (sample_record []) (content_of (sample_record [])) _ _ _) _).
  - exact sample_digest_length.
  - apply sample_record_typed. constructor.
  - vm_compute. reflexivity.
  - left. reflexivity.
Defined.

Lemma journal_withdrawn_replacement_unreadable_witness :
  decode_record sample_digest (content_of (sample_record [sample_prefix 10 2 16])) =
  Err (Returns NeJournal).
Proof.
  apply (journal_withdrawn_replacement_unreadable sample_digest
           (sample_record [sample_prefix 10 2 16])).
  - exact sample_digest_length.
  - apply sample_record_typed. constructor; [|constructor]. split; [|split; reflexivity || discriminate].
    split; [reflexivity|]. apply bytes_decide. reflexivity.
  - discriminate.
  - discriminate.
  - reflexivity.
  - vm_compute. reflexivity.
Defined.
