(* ===== verification/Service.v ===== *)
(** * The request service

    [NetdService] of [candy-netd/src/lib.rs]: authorisation of the peer, the session
    fence, the network controller behind it, the TUN descriptor and the liveness of the
    owner. The controller and the platform are interfaces. *)
From stdpp Require Import base tactics list numbers option sorting.
From Stdlib Require Import ZArith Lia.
From S2P Require Import Prelude Ipv4 Wire Proto Session Network.

Definition DEFAULT_DRAIN_TIMEOUT_MS : Z := 2000.
Definition MAX_DRAIN_TIMEOUT_MS : Z := 30000.

(** ** Interfaces *)

Class NetworkController (N : Type) := {
  nc_prepare : LeaseOwner -> PrepareDeclaration -> M N NetworkError unit;
  nc_commit : LeaseOwner -> M N NetworkError unit;
  nc_commit_with_drain : LeaseOwner -> Z -> Z -> M N NetworkError unit;
  nc_drain_old : LeaseOwner -> Z -> M N NetworkError unit;
  nc_set_failed_prefixes : LeaseOwner -> list Ipv4Prefix -> M N NetworkError unit;
  nc_rollback : LeaseOwner -> M N NetworkError unit;
  nc_renew_lease : LeaseOwner -> M N NetworkError unit;
  nc_update_mtu : LeaseOwner -> Z -> M N NetworkError unit;
  nc_suspend : LeaseOwner -> M N NetworkError unit;
  nc_reconfigure : LeaseOwner -> PrepareDeclaration -> M N NetworkError unit;
  nc_update_policy : LeaseOwner -> PrepareDeclaration -> M N NetworkError unit;
  nc_resume : LeaseOwner -> M N NetworkError unit;
  nc_recover_orphan : bool -> Z -> M N NetworkError bool;
  nc_retained_owner : N -> option LeaseOwner;
}.

(** [impl NetworkController for NetworkTransaction]. *)
#[export] Instance transaction_controller {W} `{!NetworkBackend W} `{!NetworkJournal W} :
  NetworkController (NetworkTransaction W) := {
  nc_prepare := prepare;
  nc_commit := commit;
  nc_commit_with_drain := commit_with_drain;
  nc_drain_old := drain_old;
  nc_set_failed_prefixes := set_failed_prefixes;
  nc_rollback := rollback;
  nc_renew_lease := renew_lease;
  nc_update_mtu := update_mtu;
  nc_suspend := suspend;
  nc_reconfigure := reconfigure;
  nc_update_policy := update_policy;
  nc_resume := resume;
  nc_recover_orphan := recover_orphan;
  nc_retained_owner := retained_owner;
}.

Inductive PlatformError : Type := PeIo | PeUnsupported | PeInvalidPeer.

(** System calls: descriptors are numbers. *)
Class Platform (P : Type) := {
  tun_create : P -> Result PlatformError Z * P;
  dup_cloexec : Z -> P -> Result unit Z * P;
  open_pidfd : Z -> P -> Result unit Z * P;
  pidfd_is_ready : Z -> P -> bool;
  kill_probe : Z -> P -> bool;
  clock_gettime : P -> option (Z * Z);
}.

(** The trait bodies a controller inherits. *)
Definition default_commit_with_drain {N} (commit : LeaseOwner -> M N NetworkError unit)
    (owner : LeaseOwner) (_ _ : Z) : M N NetworkError unit := commit owner.
Definition default_invalid_transition {N A} : M N NetworkError A := mfail NeInvalidTransition.

(** [SvPanics] is the [expect] of the prepare handler: no reply is sent. *)
Inductive ServiceError : Type :=
| SvPlatform (e : PlatformError)
| SvNetwork (e : NetworkError)
| SvPanics.

Record PeerCredentials : Type := mkPeer {
  peer_pid : Z;
  peer_uid : Z;
  peer_gid : Z;
}.

(** ** Error codes *)

Definition error_response (request_id : Z) (code : ErrorCode) : NetdResponse :=
  mkResponse request_id (RsError code).

Definition session_error_code (error : NetdSessionError) : ErrorCode :=
  match error with
  | SeGenerationConflict | SeOwnerMismatch => EcGenerationConflict
  | SeInvalidTransition | SeInvalidDeclaration => EcInvalidRequest
  end.

Definition network_error_code (error : NetworkError) : ErrorCode :=
  match error with
  | NeConflict => EcGenerationConflict
  | NeInvalidTransition => EcInvalidRequest
  | NeBackend => EcSystemFailure
  | NeBackendStage Preflight => EcPreflightFailed
  | NeBackendStage LinkPrepare => EcLinkPrepareFailed
  | NeBackendStage RoutePrepare => EcRoutePrepareFailed
  | NeBackendStage FirewallPrepare => EcFirewallPrepareFailed
  | NeBackendStage SysctlPrepare => EcSysctlPrepareFailed
  | NeBackendStage LinkActivate => EcLinkActivateFailed
  | NeBackendStage PolicyActivate => EcPolicyActivateFailed
  | NeJournal => EcSystemFailure
  | NeDrainPending => EcDrainPending
  end.

(** ** The service *)

Section Service.
Context {P N : Type} `{!Platform P} `{!NetworkController N}.

Record NetdService : Type := mkService {
  allowed_uid : Z;
  allowed_gid : Z;
  session : NetdSession;
  tun : option Z;
  owner_pidfd : option (Z * Z);
  platform : P;
  network : N;
}.

Definition SvM (A : Type) : Type := M NetdService ServiceError A.

Definition set_session (v : NetdSession) (s : NetdService) : NetdService :=
  mkService (allowed_uid s) (allowed_gid s) v (tun s) (owner_pidfd s) (platform s) (network s).
Definition set_tun (v : option Z) (s : NetdService) : NetdService :=
  mkService (allowed_uid s) (allowed_gid s) (session s) v (owner_pidfd s) (platform s) (network s).
Definition set_pidfd (v : option (Z * Z)) (s : NetdService) : NetdService :=
  mkService (allowed_uid s) (allowed_gid s) (session s) (tun s) v (platform s) (network s).

Definition with_network (allowed_uid allowed_gid : Z) (platform : P) (network : N) : NetdService :=
  mkService allowed_uid allowed_gid NetdSession_new None None platform network.

(** A call of the controller, its result in hand. *)
Definition network_call {A} (f : M N NetworkError A) : SvM (Result NetworkError A) :=
  fun s => let '(r, n) := f (network s) in
           (Ok r, mkService (allowed_uid s) (allowed_gid s) (session s) (tun s) (owner_pidfd s)
                    (platform s) n).
(** A system call. *)
Definition system_call {A} (f : P -> A * P) : SvM A :=
  fun s => let '(r, p) := f (platform s) in
           (Ok r, mkService (allowed_uid s) (allowed_gid s) (session s) (tun s) (owner_pidfd s)
                    p (network s)).

(** ** Liveness of the owner, and the clock *)

Definition monotonic_ms (p : P) : Z :=
  match clock_gettime p with
  | Some (tv_sec, tv_nsec) =>
      u64_saturating_add (Z.min (tv_sec * 1000) u64_MAX) (tv_nsec / 1000000)
  | None => 0
  end.

Definition process_is_alive (pid : Z) : SvM bool :=
  let* descriptor := system_call (open_pidfd pid) in
  let* p := gets platform in
  match descriptor with
  | Ok descriptor => mret (negb (pidfd_is_ready descriptor p))
  | Err _ => mret (kill_probe pid p)
  end.

Definition owner_is_alive (pid : Z) : SvM bool :=
  let* retained := gets owner_pidfd in
  let* p := gets platform in
  match retained with
  | Some (retained_pid, descriptor) =>
      if retained_pid =? pid then mret (negb (pidfd_is_ready descriptor p))
      else process_is_alive pid
  | None => process_is_alive pid
  end.

(** ** Recovery and shutdown *)

(** [self.tun = None; self.session = NetdSession::new(); self.owner_pidfd = None]. *)
Definition forget_tunnel (s : NetdService) : NetdService :=
  set_pidfd None (set_session NetdSession_new (set_tun None s)).

Definition service_recover_orphan (now_mono_ms : Z) : SvM bool :=
  let* n := gets network in
  let* alive := (match nc_retained_owner n with
                 | Some owner => owner_is_alive (pid owner)
                 | None => mret false
                 end) in
  let* result := network_call (nc_recover_orphan alive now_mono_ms) in
  let* recovered := lift (map_err SvNetwork result) in
  do* (if recovered : bool then modify forget_tunnel else mret tt) in
  mret recovered.

Definition shutdown : SvM bool :=
  let* n := gets network in
  match nc_retained_owner n with
  | None => mret false
  | Some owner =>
      let* result := network_call (nc_rollback owner) in
      do* lift (map_err SvNetwork result) in
      do* modify forget_tunnel in
      mret true
  end.

(** ** Requests *)

(** The outcome of one operation: the body of the reply and a descriptor, or the code of
    the error reply. *)
Definition Handled : Type := Result ErrorCode (ResponseBody * option Z).

Definition handled (body : ResponseBody) : SvM Handled := mret (Ok (body, None)).
Definition refused (code : ErrorCode) : SvM Handled := mret (Err code).

(** [if let Err(error) = self.network.op(..) { cleanup; return error }; body]. *)
Definition network_or (op : M N NetworkError unit) (on_error : NetdService -> NetdService)
    (k : SvM Handled) : SvM Handled :=
  let* result := network_call op in
  match result with
  | Ok _ => k
  | Err error => do* modify on_error in refused (network_error_code error)
  end.

Definition retain_pidfd (pid : Z) : SvM unit :=
  let* retained := gets owner_pidfd in
  if bool_decide (option_map fst retained <> Some pid) then
    let* descriptor := system_call (open_pidfd pid) in
    modify (set_pidfd match descriptor with Ok d => Some (pid, d) | Err _ => None end)
  else mret tt.

(** [self.tun.as_ref().expect("TUN retained")], then a duplicate of the descriptor. *)
Definition duplicate_tun (generation : Z) : SvM Handled :=
  let* current := gets tun in
  match current with
  | None => mfail SvPanics
  | Some descriptor =>
      let* duplicate := system_call (dup_cloexec descriptor) in
      match duplicate with
      | Ok descriptor => mret (Ok (RsPrepared generation true, Some descriptor))
      | Err _ => refused EcSystemFailure
      end
  end.

Definition handle_prepare (owner : LeaseOwner) (declaration : PrepareDeclaration) : SvM Handled :=
  let prepare_network :=
    network_or (nc_prepare owner declaration) (set_tun None)
      (do* retain_pidfd (pid owner) in duplicate_tun (generation owner)) in
  let* current := gets tun in
  match current with
  | Some _ => prepare_network
  | None =>
      let* created := system_call tun_create in
      match created with
      | Ok descriptor => do* modify (set_tun (Some descriptor)) in prepare_network
      | Err _ => refused EcSystemFailure
      end
  end.

Definition handle_commit (owner : LeaseOwner) : SvM Handled :=
  let drain_timeout_ms := Z.min DEFAULT_DRAIN_TIMEOUT_MS MAX_DRAIN_TIMEOUT_MS in
  let* p := gets platform in
  network_or (nc_commit_with_drain owner (monotonic_ms p) drain_timeout_ms) (set_tun None)
    (handled (RsCommitted (generation owner))).

Definition handle (owner : LeaseOwner) (operation : NetdOperation) (next_session : NetdSession)
  : SvM Handled :=
  let g := generation owner in
  match operation with
  | OpPrepare declaration => handle_prepare owner declaration
  | OpCommit => handle_commit owner
  | OpRollback =>
      network_or (nc_rollback owner) id
        (do* modify (set_tun None) in
         do* modify (set_pidfd None) in
         handled (RsRolledBack g))
  | OpStatus => handled (RsStatus (phase next_session) g)
  | OpLeaseRenew => network_or (nc_renew_lease owner) id (handled (RsLeaseRenewed g))
  | OpMtuUpdate mtu => network_or (nc_update_mtu owner mtu) id (handled (RsMtuUpdated g mtu))
  | OpSuspend => network_or (nc_suspend owner) id (handled (RsSuspended g))
  | OpReconfigure declaration =>
      network_or (nc_reconfigure owner declaration) id (handled (RsReconfigured g))
  | OpPolicyUpdate declaration =>
      network_or (nc_update_policy owner declaration) id (handled (RsPolicyUpdated g))
  | OpResume => network_or (nc_resume owner) id (handled (RsResumed g))
  | OpDrain now_mono_ms => network_or (nc_drain_old owner now_mono_ms) id (handled (RsDrained g))
  | OpWithdrawPrefixes prefixes =>
      network_or (nc_set_failed_prefixes owner prefixes) id
        (handled (RsPrefixesWithdrawn g (Z.of_nat (length prefixes))))
  end.

Definition authorized (s : NetdService) (request : NetdRequest) (peer : PeerCredentials) : bool :=
  (peer_uid peer =? allowed_uid s) && (peer_gid peer =? allowed_gid s)
  && (pid (owner request) =? peer_pid peer).

Definition process (request : NetdRequest) (peer : PeerCredentials)
  : SvM (NetdResponse * option Z) :=
  let id := request_id request in
  let* s := gets (fun s => s) in
  if negb (authorized s request peer)
  then mret (error_response id EcUnauthorizedPeer, None)
  else if bool_decide (operation request = OpStatus)
  then mret (mkResponse id (RsStatus (phase (session s)) (generation (owner request))), None)
  else match apply request (session s) with
       | (Err error, _) => mret (error_response id (session_error_code error), None)
       | (Ok _, next_session) =>
           let* result := handle (owner request) (operation request) next_session in
           match result with
           | Err code => mret (error_response id code, None)
           | Ok (body, transferred) =>
               do* modify (set_session next_session) in
               mret (mkResponse id body, transferred)
           end
       end.

End Service.

Arguments NetdService : clear implicits.
Arguments SvM : clear implicits.
