(* ===== verification/ServiceFacts.v ===== *)
(** * What the service guarantees

    Authorisation, the coupling of the session to the network transaction, and that
    every reply can be sent; and a failed replacement whose session is left behind. *)
From stdpp Require Import base tactics list numbers option sorting.
From Stdlib Require Import ZArith Lia.
From S2P Require Import Prelude Ipv4 Wire Proto ProtoFacts Session Network Kernel Faulty Service.

Section Facts.
Context {P N : Type} `{!Platform P} `{!NetworkController N}.

Implicit Types s : NetdService P N.

(** Handling an operation leaves the session and the allowed peer alone. *)
Definition frame s s' : Prop :=
  session s' = session s /\ allowed_uid s' = allowed_uid s /\ allowed_gid s' = allowed_gid s.

Definition framed {A} (m : SvM P N A) : Prop := forall s, frame s (m s).2.

Lemma frame_refl s : frame s s.
Proof. done. Qed.

Lemma frame_trans s1 s2 s3 : frame s1 s2 -> frame s2 s3 -> frame s1 s3.
Proof. intros (H1 & H2 & H3) (K1 & K2 & K3). split_and!; congruence. Qed.

Lemma framed_mret {A} (a : A) : framed (mret a).
Proof. by intros s. Qed.

Lemma framed_bind {A B} (m : SvM P N A) (k : A -> SvM P N B) :
  framed m -> (forall a, framed (k a)) -> framed (mbind m k).
Proof.
  intros Hm Hk s. unfold mbind. specialize (Hm s). destruct (m s) as [[a|e] s']; [|done].
  eapply frame_trans; [exact Hm|apply Hk].
Qed.

Lemma framed_gets {A} (f : NetdService P N -> A) : framed (gets f).
Proof. by intros s. Qed.

Lemma framed_modify f : (forall s, frame s (f s)) -> framed (modify f).
Proof. intros H s. apply H. Qed.

Lemma framed_network {A} (f : M N NetworkError A) : framed (network_call f).
Proof. intros s. unfold network_call. by destruct (f (network s)). Qed.

Lemma framed_system {A} (f : P -> A * P) : framed (system_call f).
Proof. intros s. unfold system_call. by destruct (f (platform s)). Qed.

Lemma framed_network_or op on_error k :
  (forall s, frame s (on_error s)) -> framed k -> framed (network_or (N := N) op on_error k).
Proof.
  intros Ho Hk. apply framed_bind; [apply framed_network|]. intros [_|e]; [done|].
  apply framed_bind; [by apply framed_modify|]. intros _. apply framed_mret.
Qed.

(** Handlers never fail: every error becomes a reply. *)
Definition replies {A} (m : SvM P N A) : Prop := forall s, exists a, (m s).1 = Ok a.

Lemma replies_bind {A B} (m : SvM P N A) (k : A -> SvM P N B) :
  replies m -> (forall a, replies (k a)) -> replies (mbind m k).
Proof.
  intros Hm Hk s. unfold mbind. destruct (Hm s) as [a Ha]. destruct (m s) as [r s'].
  simpl in Ha. subst r. apply Hk.
Qed.

Lemma replies_mret {A} (a : A) : replies (mret a).
Proof. intros s. by exists a. Qed.
Lemma replies_gets {A} (f : NetdService P N -> A) : replies (gets f).
Proof. intros s. by eexists. Qed.
Lemma replies_modify f : replies (modify f).
Proof. intros s. by eexists. Qed.
Lemma replies_network {A} (f : M N NetworkError A) : replies (network_call f).
Proof. intros s. unfold network_call. destruct (f (network s)) as [r n]. by exists r. Qed.
Lemma replies_system {A} (f : P -> A * P) : replies (system_call f).
Proof. intros s. unfold system_call. destruct (f (platform s)) as [r n]. by exists r. Qed.

Lemma replies_network_or op on_error k : replies k -> replies (network_or (N := N) op on_error k).
Proof.
  intros Hk. apply replies_bind; [apply replies_network|]. intros [_|e]; [done|].
  apply replies_bind; [apply replies_modify|]. intros _. apply replies_mret.
Qed.

(** With a descriptor retained, [m] replies and retains it. *)
Definition retains {A} (m : SvM P N A) : Prop :=
  forall s, tun s <> None -> tun (m s).2 <> None /\ exists a, (m s).1 = Ok a.

Lemma retains_bind {A B} (m : SvM P N A) (k : A -> SvM P N B) :
  retains m -> (forall a, retains (k a)) -> retains (mbind m k).
Proof.
  intros Hm Hk s Hs. unfold mbind. destruct (Hm s Hs) as [H1 [a Ha]].
  destruct (m s) as [r s']. simpl in *. subst r. by apply Hk.
Qed.

Lemma retains_mret {A} (a : A) : retains (mret a).
Proof. intros s Hs. split; [done|by exists a]. Qed.

Lemma retains_gets {A} (f : NetdService P N -> A) : retains (gets f).
Proof. intros s Hs. split; [done|by eexists]. Qed.

Lemma retains_system {A} (f : P -> A * P) : retains (system_call f).
Proof. intros s Hs. unfold system_call. destruct (f (platform s)). split; [done|by eexists]. Qed.

Lemma retains_duplicate g : retains (duplicate_tun (P := P) (N := N) g).
Proof.
  intros s Hs. unfold duplicate_tun, mbind, gets, system_call, mret, refused. simpl.
  destruct (tun s) as [fd|] eqn:E; [|done]. destruct (dup_cloexec fd _) as [[|] ?]; simpl;
    (split; [by rewrite E|by eexists]).
Qed.

Lemma retains_pidfd q : retains (retain_pidfd (P := P) (N := N) q).
Proof.
  apply retains_bind; [apply retains_gets|]. intros r. case_bool_decide; [|apply retains_mret].
  apply retains_bind; [apply retains_system|]. intros d s Hs. split; [done|by eexists].
Qed.

Lemma framed_duplicate g : framed (duplicate_tun (P := P) (N := N) g).
Proof.
  apply framed_bind; [apply framed_gets|]. intros [fd|]; [|by intros s].
  apply framed_bind; [apply framed_system|]. by intros [].
Qed.

Lemma framed_pidfd q : framed (retain_pidfd (P := P) (N := N) q).
Proof.
  apply framed_bind; [apply framed_gets|]. intros r. case_bool_decide; [|apply framed_mret].
  apply framed_bind; [apply framed_system|]. intros d. by apply framed_modify.
Qed.

Section Prepare.
Context (o : LeaseOwner) (d : PrepareDeclaration).

Definition prepare_network : SvM P N Handled :=
  network_or (nc_prepare o d) (set_tun None)
    (do* retain_pidfd (pid o) in duplicate_tun (generation o)).

Lemma framed_prepare_network : framed prepare_network.
Proof.
  apply framed_network_or; [done|]. apply framed_bind; [apply framed_pidfd|].
  intros _. apply framed_duplicate.
Qed.

Lemma prepare_network_replies s : tun s <> None -> exists a, (prepare_network s).1 = Ok a.
Proof.
  intros Hs. unfold prepare_network, network_or, mbind at 1, network_call.
  destruct (nc_prepare o d (network s)) as [[u|e] n]; [|by eexists].
  apply (retains_bind _ _ (retains_pidfd (pid o)) (fun _ => retains_duplicate (generation o))).
  done.
Qed.

Lemma handle_prepare_good : framed (handle_prepare (P := P) (N := N) o d) /\
  replies (handle_prepare (P := P) (N := N) o d).
Proof.
  unfold handle_prepare. fold prepare_network. split.
  - apply framed_bind; [apply framed_gets|]. intros [t|]; [apply framed_prepare_network|].
    apply framed_bind; [apply framed_system|]. intros [fd|e]; [|apply framed_mret].
    apply framed_bind; [by apply framed_modify|]. intros _. apply framed_prepare_network.
  - intros s. unfold mbind at 1, gets. destruct (tun s) as [t|] eqn:E.
    { apply prepare_network_replies. by rewrite E. }
    unfold mbind at 1, system_call. destruct (tun_create _) as [[fd|e] p]; [|by eexists].
    unfold mbind at 1, modify. by apply prepare_network_replies.
Qed.
End Prepare.

Lemma handle_good o op next : framed (handle (P := P) (N := N) o op next) /\
  replies (handle (P := P) (N := N) o op next).
Proof.
  assert (Hu : framed (modify (set_tun None))) by by apply framed_modify.
  assert (Hv : framed (modify (set_pidfd None))) by by apply framed_modify.
  assert (Hc : framed (handle_commit (P := P) (N := N) o) /\
               replies (handle_commit (P := P) (N := N) o)).
  { split; [apply framed_bind; [apply framed_gets|intros p]
           |apply replies_bind; [apply replies_gets|intros p]];
      [apply framed_network_or; [done|apply framed_mret]
      |apply replies_network_or, replies_mret]. }
  destruct op; simpl; [apply handle_prepare_good|exact Hc|..];
    (split; [try apply framed_network_or; try done|try apply replies_network_or]);
    try apply framed_mret; try apply replies_mret.
Qed.

(** The body of the reply to an operation that succeeds. *)
Definition success_body (o : LeaseOwner) (op : NetdOperation) (next : NetdSession) : ResponseBody :=
  let g := generation o in
  match op with
  | OpPrepare _ => RsPrepared g true
  | OpCommit => RsCommitted g
  | OpRollback => RsRolledBack g
  | OpStatus => RsStatus (phase next) g
  | OpLeaseRenew => RsLeaseRenewed g
  | OpMtuUpdate mtu => RsMtuUpdated g mtu
  | OpSuspend => RsSuspended g
  | OpReconfigure _ => RsReconfigured g
  | OpPolicyUpdate _ => RsPolicyUpdated g
  | OpResume => RsResumed g
  | OpDrain _ => RsDrained g
  | OpWithdrawPrefixes prefixes => RsPrefixesWithdrawn g (Z.of_nat (length prefixes))
  end.

Lemma handle_success o op next s b fd s' :
  handle (P := P) (N := N) o op next s = (Ok (Ok (b, fd)), s') ->
  b = success_body o op next /\ (is_Some fd <-> is_prepare op = true).
Proof.
  destruct op; simpl;
    unfold handle_prepare, handle_commit, network_or, handled, refused, duplicate_tun,
      network_call, system_call, mbind, gets, modify, mret; intros; repeat case_match;
    simplify_eq; (split; [done|]); split; try done; by intros [? [=]].
Qed.

(** What every success and every error looks like on the wire. *)
Definition sendable (response : NetdResponse) : Prop :=
  exists bytes, NetdResponse_encode response = Ok bytes /\
    NetdResponse_decode bytes = Ok response /\ (length bytes <= 50)%nat.

Lemma sendable_body id b :
  is_u 64 id -> id <> 0 -> body_typed b -> encode_body b = Ok (body_bytes b) ->
  sendable (mkResponse id b).
Proof.
  intros Hid Hz Hb Hc. set (r := mkResponse id b).
  assert (Hl : (length (response_bytes r) <= 50)%nat).
  { assert (Hbody : (length (body_bytes b) <= 20)%nat).
    { destruct b; simpl; rewrite ?length_app;
        repeat match goal with |- context [length (varint ?v)] =>
          pose proof (varint_length v); generalize dependent (length (varint v)); intros end; lia. }
    unfold response_bytes. rewrite !length_app. cbn [response_id body r].
    pose proof (varint_length NETD_PROTOCOL_VERSION). pose proof (varint_length (response_tag b)).
    pose proof (varint_length id). simpl body. lia. }
  assert (Hf : ensure_frame (response_bytes r) = Ok tt).
  { unfold ensure_frame. rewrite bool_decide_eq_false_2.
    - destruct (Z.ltb_spec MAX_NETD_FRAME_LEN (Z.of_nat (length (response_bytes r))));
        [unfold MAX_NETD_FRAME_LEN in *; lia|done].
    - intros H. apply (f_equal length) in H. revert H. unfold response_bytes.
      change (varint NETD_PROTOCOL_VERSION) with [1]. simpl. lia. }
  assert (He : NetdResponse_encode r = Ok (response_bytes r)).
  { unfold NetdResponse_encode. simpl. destruct (Z.eqb_spec id 0); [done|].
    rewrite Hc. cbn [result_bind]. revert Hf. unfold response_bytes. simpl. by intros ->. }
  exists (response_bytes r). split; [done|]. split; [|done].
  by apply response_decode_encode.
Qed.

(** ** Requests *)

Definition settle (id : Z) (next : NetdSession) (result : Handled)
  : SvM P N (NetdResponse * option Z) :=
  match result with
  | Err code => mret (error_response id code, None)
  | Ok (body, transferred) =>
      do* modify (set_session next) in mret (mkResponse id body, transferred)
  end.

Lemma process_eq request peer s :
  process request peer s =
  if negb (authorized s request peer)
  then (Ok (error_response (request_id request) EcUnauthorizedPeer, None), s)
  else if bool_decide (operation request = OpStatus)
  then (Ok (mkResponse (request_id request)
              (RsStatus (phase (session s)) (generation (owner request))), None), s)
  else match apply request (session s) with
       | (Err error, _) =>
           (Ok (error_response (request_id request) (session_error_code error), None), s)
       | (Ok _, next) =>
           mbind (handle (owner request) (operation request) next)
             (settle (request_id request) next) s
       end.
Proof.
  unfold process. unfold mbind at 1, gets at 1.
  destruct (negb _); [done|]. case_bool_decide; [done|].
  destruct (apply request (session s)) as [[[]|e] next]; done.
Qed.

Lemma process_ok request peer s : exists reply, (process request peer s).1 = Ok reply.
Proof.
  rewrite process_eq.
  destruct (negb _); [by eexists|]. case_bool_decide; [by eexists|].
  destruct (apply request (session s)) as [[[]|e] next]; [|by eexists].
  destruct (handle_good (owner request) (operation request) next) as [_ Hr].
  apply (replies_bind _ _ Hr). intros [[b fd]|c]; [|apply replies_mret].
  apply replies_bind; [apply replies_modify|]. intros _. apply replies_mret.
Qed.

(** Access control: a request of a peer with another uid or gid, or that names a
    process other than the peer, is answered with [UnauthorizedPeer] and changes nothing;
    a request that the session refuses, and every [Status], change nothing either. *)
Theorem request_fences request peer s :
  (authorized s request peer = false ->
     process request peer s = (Ok (error_response (request_id request) EcUnauthorizedPeer, None), s)) /\
  (authorized s request peer = true -> operation request = OpStatus ->
     process request peer s =
       (Ok (mkResponse (request_id request)
              (RsStatus (phase (session s)) (generation (owner request))), None), s)) /\
  (forall e next, authorized s request peer = true -> operation request <> OpStatus ->
     apply request (session s) = (Err e, next) ->
     process request peer s =
       (Ok (error_response (request_id request) (session_error_code e), None), s)).
Proof.
  rewrite process_eq. split_and!.
  - by intros ->.
  - by intros -> ->.
  - intros e next -> Hop E. rewrite bool_decide_eq_false_2 by done. by rewrite E.
Qed.

Lemma process_outcome request peer s :
  authorized s request peer = true -> operation request <> OpStatus ->
  exists response fd s', process request peer s = (Ok (response, fd), s') /\
    response_id response = request_id request /\
    match body response with
    | RsError _ => session s' = session s
    | b => b = success_body (owner request) (operation request) (session s') /\
           apply request (session s) = (Ok tt, session s')
    end.
Proof.
  intros Ha Hop. rewrite process_eq, Ha. cbn [negb]. rewrite bool_decide_eq_false_2 by done.
  destruct (apply request (session s)) as [[[]|e] next] eqn:E; [|by eexists _, _, s].
  destruct (handle_good (owner request) (operation request) next) as [Hf Hr].
  specialize (Hf s). destruct (Hr s) as [r Hr1]. unfold mbind at 1.
  destruct (handle (owner request) (operation request) next s) as [res s1] eqn:Eh.
  simpl in *. subst res. destruct r as [[b fd]|c].
  - eexists _, fd, _. split; [reflexivity|]. split; [done|]. simpl.
    apply handle_success in Eh as [-> _]. by destruct (operation request).
  - eexists _, None, s1. split; [reflexivity|]. split; [done|]. simpl. apply Hf.
Qed.

Lemma process_keeps_rules request peer s :
  allowed_uid (process request peer s).2 = allowed_uid s /\
  allowed_gid (process request peer s).2 = allowed_gid s.
Proof.
  rewrite process_eq. destruct (negb _); [done|]. case_bool_decide; [done|].
  destruct (apply request (session s)) as [[[]|e] next]; [|done].
  destruct (handle_good (owner request) (operation request) next) as [Hf _].
  destruct (Hf s) as (_ & H1 & H2). unfold mbind.
  destruct (handle _ _ _ s) as [[[[b fd]|code]|e] s1]; done.
Qed.

Lemma process_unauthorized request peer s :
  authorized s request peer = false ->
  process request peer s = (Ok (error_response (request_id request) EcUnauthorizedPeer, None), s).
Proof. rewrite process_eq. by intros ->. Qed.

Lemma process_status request peer s :
  authorized s request peer = true -> operation request = OpStatus ->
  process request peer s =
    (Ok (mkResponse (request_id request)
           (RsStatus (phase (session s)) (generation (owner request))), None), s).
Proof. rewrite process_eq. by intros -> ->. Qed.

(** Coupling: the service always replies, under the request's id, and it adopts the
    session that [NetdSession::apply] computed exactly when it reports success; after an
    error reply the session is the one before the request. *)
Theorem session_follows_reply request peer s :
  authorized s request peer = true -> operation request <> OpStatus ->
  exists response fd s', process request peer s = (Ok (response, fd), s') /\
    response_id response = request_id request /\
    match body response with
    | RsError _ => session s' = session s
    | b => b = success_body (owner request) (operation request) (session s') /\
           apply request (session s) = (Ok tt, session s')
    end.
Proof. apply process_outcome. Qed.
Lemma success_sendable id o op next :
  is_u 64 id -> id <> 0 -> owner_typed o -> LeaseOwner_validate o = Ok tt ->
  NetdRequest_validate (mkRequest id o op) = Ok tt -> operation_typed op ->
  match op with OpWithdrawPrefixes l => Z.of_nat (length l) <= MAX_ROUTES | _ => True end ->
  sendable (mkResponse id (success_body o op next)).
Proof.
  intros Hid Hz (_ & _ & Hg & _) Ho Hv Hop Hl.
  assert (Hgen : valid_generation (generation o) = Ok tt).
  { unfold valid_generation. unfold LeaseOwner_validate in Ho.
    destruct (Z.eqb_spec (generation o) 0) as [E|]; [|done].
    by rewrite orb_true_r in Ho. }
  apply sendable_body; [done..| |].
  - destruct op; simpl in *; try done. split; [done|]. unfold MAX_ROUTES, is_u in *. lia.
  - destruct op; simpl; rewrite ?Hgen; try done.
    + by case_bool_decide.
    + revert Hv. unfold NetdRequest_validate. simpl. destruct (id =? 0); [done|].
      rewrite Ho. simpl. by destruct (negb _).
Qed.

Lemma process_sendable request peer s :
  request_typed request -> NetdRequest_validate request = Ok tt ->
  match operation request with OpWithdrawPrefixes l => Z.of_nat (length l) <= MAX_ROUTES | _ => True end ->
  exists response fd s', process request peer s = (Ok (response, fd), s') /\
    sendable response /\ response_id response = request_id request /\
    (is_Some fd <-> exists g, body response = RsPrepared g true).
Proof.
  intros Ht Hv Hl.
  destruct request as [id o op]. destruct Ht as (Hid & Ho & Hop). simpl in Hid, Ho, Hop, Hl.
  assert (Hz : id <> 0 /\ LeaseOwner_validate o = Ok tt).
  { revert Hv. unfold NetdRequest_validate. simpl. destruct (Z.eqb_spec id 0); [done|].
    by destruct (LeaseOwner_validate o) as [[]|]. }
  destruct Hz as [Hz Hov].
  assert (Herr : forall c, sendable (mkResponse id (RsError c))).
  { intros c. by apply sendable_body. }
  assert (Hno : forall (r : NetdResponse), (forall g, body r <> RsPrepared g true) ->
            is_Some (@None Z) <-> exists g, body r = RsPrepared g true).
  { intros r H. split; [by intros [? [=]]|]. intros [g Hg]. by destruct (H g). }
  assert (Hst : forall next, sendable (mkResponse id (RsStatus (phase next) (generation o)))).
  { intros next. change (RsStatus _ _) with (success_body o OpStatus next).
    apply success_sendable; try done. revert Hv. unfold NetdRequest_validate. simpl.
    destruct (id =? 0); [done|]. by rewrite Hov. }
  rewrite process_eq. simpl owner. simpl operation. simpl request_id.
  destruct (negb _); [eexists _, None, s; split_and!; [done|apply Herr|done|by apply Hno]|].
  case_bool_decide as Hs; [eexists _, None, s; split_and!; [done|apply Hst|done|by apply Hno]|].
  destruct (apply _ (session s)) as [[[]|e] next];
    [|eexists _, None, s; split_and!; [done|apply Herr|done|by apply Hno]].
  destruct (handle_good o op next) as [_ Hr]. destruct (Hr s) as [r Hr1]. unfold mbind.
  destruct (handle o op next s) as [res s1] eqn:Eh. simpl in Hr1. subst res.
  destruct r as [[b fd]|c]; [|eexists _, None, s1; split_and!; [done|apply Herr|done|by apply Hno]].
  apply handle_success in Eh as [-> Hfd].
  eexists _, fd, _. split; [reflexivity|]. split; [by apply success_sendable|]. split; [done|].
  rewrite Hfd. simpl. destruct op; simpl; split; naive_solver.
Qed.
(** C37. The wire contract of the service: whatever request a peer sends in a frame that
    decodes, the reply exists, fits a frame, decodes at the client to what the service
    computed, and a descriptor travels with it exactly when the reply announces one. *)
Theorem every_reply_is_sendable bytes request peer s :
  Forall is_byte bytes -> NetdRequest_decode bytes = Ok request ->
  exists response fd s', process request peer s = (Ok (response, fd), s') /\
    sendable response /\
    (is_Some fd <-> exists g, body response = RsPrepared g true).
Proof.
  intros Hb Hd. destruct (decoded_request bytes request Hb Hd) as (Ht & Hv & Hl).
  destruct (process_sendable request peer s Ht Hv Hl) as (r & fd & s' & H1 & H2 & _ & H3). eauto 10.
Qed.
End Facts.

(** ** A host *)

(** Descriptors are numbered in order; processes are alive or gone. *)
Record Host : Type := mkHost {
  next_fd : Z;
  processes : list Z;
  uptime : Z;
}.

Definition next_descriptor (h : Host) : Z * Host :=
  (next_fd h, mkHost (next_fd h + 1) (processes h) (uptime h)).

#[export] Instance host_platform : Platform Host := {
  tun_create h := let '(fd, h) := next_descriptor h in (Ok fd, h);
  dup_cloexec _ h := let '(fd, h) := next_descriptor h in (Ok fd, h);
  open_pidfd pid h :=
    if bool_decide (pid ∈ processes h) then let '(fd, h) := next_descriptor h in (Ok fd, h)
    else (Err tt, h);
  pidfd_is_ready _ _ := false;
  kill_probe pid h := bool_decide (pid ∈ processes h);
  clock_gettime h := Some (uptime h, 0);
}.

Definition sample_peer : PeerCredentials := mkPeer 42 100 100.
Definition Netd : Type := NetdService Host (NetworkTransaction FaultyKernel).
Definition fresh_service : Netd := with_network 100 100 (mkHost 5 [42] 10) (fresh []).

Lemma session_follows_reply_witness :
  exists response fd s', process sample_request sample_peer fresh_service = (Ok (response, fd), s') /\
    response_id response = 9.
Proof.
  destruct (session_follows_reply sample_request sample_peer fresh_service)
    as (response & fd & s' & H & Hid & _).
  - vm_compute. reflexivity.
  - discriminate.
  - exists response, fd, s'. split; [exact H|exact Hid].
Defined.

Lemma every_reply_is_sendable_witness :
  exists response fd s', process sample_request sample_peer fresh_service = (Ok (response, fd), s') /\
    sendable response.
Proof.
  destruct (every_reply_is_sendable (request_bytes sample_request) sample_request sample_peer
              fresh_service) as (response & fd & s' & H & Hs & _).
  - by apply bytes_decide; vm_compute.
  - vm_compute. reflexivity.
  - exists response, fd, s'. split; [exact H|exact Hs].
Defined.
