(* ===== verification/Findings.v ===== *)
(** * What the model shows of the hard cases

    Histories of the transaction and of the service, run on the scripted kernel, that end
    in states the code's own comments exclude: kernel objects that no record covers, and
    a session that no longer follows the network. *)
From stdpp Require Import base tactics list numbers option sorting.
From Stdlib Require Import ZArith Lia.
From S2P Require Import Prelude Ipv4 Wire Proto ProtoFacts Session Network Kernel Faulty Recovery.
From S2P Require Import Journal JournalFacts Service ServiceFacts.

(** ** Histories of a replacement *)

Definition next_declaration : PrepareDeclaration :=
  mkDeclaration 20002 (overlay_router_ipv4 sample_declaration) (effective_mtu sample_declaration)
    (routes sample_declaration) (exclusions sample_declaration) (firewall sample_declaration).
Definition next_owner : LeaseOwner := mkOwner (replicate 16 7) 42 4 2000.

(** The same machine with other faults ahead. *)
Definition facing (l : list Fault) (s : NetworkTransaction FaultyKernel)
  : NetworkTransaction FaultyKernel :=
  mkTransaction (mkKernel (objects (world s)) (stored (world s)) l (crashed (world s))) (record s).

Definition restarted (s : NetworkTransaction FaultyKernel) : NetworkTransaction FaultyKernel :=
  mkTransaction (reboot (world s)) (stored (world s)).

Definition active : NetworkTransaction FaultyKernel :=
  (commit sample_owner (prepare sample_owner sample_declaration (fresh [])).2).2.
Definition replacing : NetworkTransaction FaultyKernel :=
  (reconfigure next_owner next_declaration active).2.
Definition draining : NetworkTransaction FaultyKernel :=
  (commit_with_drain next_owner 0 2000 replacing).2.

(** The machine stops while the cut-over record is being stored. *)
Definition cutover_crash : NetworkTransaction FaultyKernel :=
  (commit_with_drain next_owner 0 2000 (facing [Works; Works; Crashes] replacing)).2.
Definition after_recovery : NetworkTransaction FaultyKernel :=
  (recover_orphan false 0 (restarted cutover_crash)).2.

Definition suspended : NetworkTransaction FaultyKernel := (suspend sample_owner active).2.
Definition resume_crash : NetworkTransaction FaultyKernel :=
  (resume sample_owner (facing [Works; Crashes] suspended)).2.

(** A leaked rule: still present, no durable record at all. *)
Definition leaks (t : Z) (s : NetworkTransaction FaultyKernel) : Prop :=
  present s (RRule t) /\ durable s = None.

Lemma rule_present t s :
  bool_decide (RRule t ∈ objects (world s)) = true -> present s (RRule t).
Proof. apply bool_decide_eq_true_1. Qed.

(** A finding: the machine stops while [commit_with_drain] stores the [Draining]
    record of a replacement. Recovery of the orphan then abandons the candidate without
    its policy rule, and the next recovery clears the journal: the candidate's rule stays
    in the kernel, steering into a table nobody owns. *)
Theorem interrupted_cutover_leaks_rule :
  (recover_orphan false 0 (restarted cutover_crash)).1 = Ok true /\
  (recover_orphan false 0 after_recovery).1 = Ok true /\
  leaks 20002 (recover_orphan false 0 after_recovery).2.
Proof. split_and!; try reflexivity. split; [by apply rule_present|reflexivity]. Qed.

(** A finding: rolling back (or shutting down) while the previous generation drains
    removes the candidate's firewall and routes and clears the journal, but leaves the
    candidate's policy rule. *)
Theorem rollback_while_draining_leaks_rule :
  (record_phase <$> record draining) = Some TpDraining /\
  (rollback sample_owner draining).1 = Ok tt /\ leaks 20002 (rollback sample_owner draining).2.
Proof. split_and!; try reflexivity. split; [by apply rule_present|reflexivity]. Qed.

(** A finding: [resume] installs the policy rule before it records the step, unlike
    [commit]. When the machine stops in between, recovery does not know of the rule. *)
Theorem interrupted_resume_leaks_rule :
  (recover_orphan false 0 (restarted resume_crash)).1 = Ok true /\
  leaks 20001 (recover_orphan false 0 (restarted resume_crash)).2.
Proof. split; [reflexivity|]. split; [by apply rule_present|reflexivity]. Qed.

(** Three histories that end with a policy rule in the kernel that no record covers: the
    machine stops while the [Draining] record of a replacement is stored; a rollback runs
    while the previous generation drains; the machine stops in [resume] between the rule and
    its record. In each the recovery, or the rollback itself, reports success. *)
Theorem policy_rule_leaks :
  ((recover_orphan false 0 (restarted cutover_crash)).1 = Ok true /\
   (recover_orphan false 0 after_recovery).1 = Ok true /\
   leaks 20002 (recover_orphan false 0 after_recovery).2) /\
  ((record_phase <$> record draining) = Some TpDraining /\
   (rollback sample_owner draining).1 = Ok tt /\
   leaks 20002 (rollback sample_owner draining).2) /\
  ((recover_orphan false 0 (restarted resume_crash)).1 = Ok true /\
   leaks 20001 (recover_orphan false 0 (restarted resume_crash)).2).
Proof.
  exact (conj interrupted_cutover_leaks_rule
           (conj rollback_while_draining_leaks_rule interrupted_resume_leaks_rule)).
Qed.

(** ** Policy updates across a restart *)

Section Journal.
Context {W : Type} `{!NetworkBackend W} `{!NetworkJournal W}.
Context (Sha256_digest : list Z -> list Z).

Lemma decoded_not_interrupted bytes r :
  decode_record Sha256_digest bytes = Ok r -> policy_update_interrupted r = false.
Proof.
  intros H. apply decoded_candidate_owner in H.
  unfold policy_update_interrupted.
  rewrite (bool_decide_eq_false_2 (recovery_candidate_owner r = Some (record_owner r))) by done.
  by rewrite andb_false_r.
Qed.
(** A finding: a policy update that a crash interrupts is never resumed in place after
    a restart. The journal does not store a candidate owner equal to the owner, which is
    how [recover_orphan] recognises such an update, so whatever [decode_record] returns in
    phase [RollingBack] is torn down in full, the lease and its owner notwithstanding. *)
Theorem reloaded_policy_update_torn_down bytes r owner_is_alive now_mono_ms (w : W) :
  decode_record Sha256_digest bytes = Ok r -> record_phase r = TpRollingBack ->
  recover_orphan owner_is_alive now_mono_ms (mkTransaction w (Some r)) =
    mbind cleanup_record (fun _ => mret true) (mkTransaction w (Some r)).
Proof.
  intros Hd Hp. unfold recover_orphan. unfold mbind at 1, gets. cbn [Network.record].
  rewrite (decoded_not_interrupted bytes r Hd).
  unfold candidate_staged. rewrite Hp. by rewrite andb_false_r.
Qed.
End Journal.

(** The durable record of a policy update of [sample_declaration]. *)
Definition policy_update_record : TransactionRecord :=
  mkRecord sample_owner sample_declaration
    (Some (mkDeclaration 20001 (overlay_router_ipv4 sample_declaration)
             (effective_mtu sample_declaration) (take 2 (routes sample_declaration))
             (exclusions sample_declaration) (firewall sample_declaration)))
    (Some sample_owner) TpRollingBack 63 [] 0 [].

Definition journaled (r : TransactionRecord) : TransactionRecord :=
  match decode_record sample_digest (content_of r) with Ok r => r | Err _ => r end.

(** Before the restart the update is recognised; the lease holds and the owner lives. *)
Lemma reloaded_policy_update_torn_down_witness :
  policy_update_interrupted policy_update_record = true /\
  recover_orphan true 0 (mkTransaction (fresh []).(world) (Some (journaled policy_update_record))) =
    mbind cleanup_record (fun _ => mret true)
      (mkTransaction (fresh []).(world) (Some (journaled policy_update_record))).
Proof.
  split; [vm_compute; reflexivity|].
  apply (reloaded_policy_update_torn_down sample_digest (content_of policy_update_record));
    vm_compute; reflexivity.
Defined.

(** ** A failed replacement and the session *)

(** The body of the reply, and the service after the request. *)
Definition answer (owner : LeaseOwner) (op : NetdOperation) (s : Netd) : option ResponseBody * Netd :=
  match process (mkRequest 1 owner op) sample_peer s with
  | (Ok (response, _), s') => (Some (body response), s')
  | (Err _, s') => (None, s')
  end.
Definition after (owner : LeaseOwner) (op : NetdOperation) (s : Netd) : Netd := (answer owner op s).2.

Definition facing_service (l : list Fault) (s : Netd) : Netd :=
  mkService (allowed_uid s) (allowed_gid s) (session s) (tun s) (owner_pidfd s) (platform s)
    (facing l (network s)).

Definition service_replacing : Netd :=
  after next_owner (OpReconfigure next_declaration)
    (after sample_owner OpCommit
       (after sample_owner (OpPrepare sample_declaration) fresh_service)).

(** [activate_link] works and [install_policy_rule] fails, once. *)
Definition service_stranded : Netd :=
  after next_owner OpCommit (facing_service [Works; Fails] service_replacing).

Definition owner_operations : list NetdOperation :=
  [OpCommit; OpRollback; OpLeaseRenew; OpMtuUpdate 1300; OpSuspend; OpResume; OpDrain 5000;
   OpPolicyUpdate next_declaration; OpWithdrawPrefixes []; OpPrepare next_declaration].

Definition is_error (answer : option ResponseBody) : bool :=
  match answer with Some (RsError _) => true | _ => false end.

(** A finding: when the cut-over of a replacement fails, the transaction restores the
    active generation under its old owner (so that the agent may suspend or renew it), but
    the service keeps the session of the replacement and drops its TUN descriptor. From
    then on every operation of the old owner and of the new one, rollback, renewal and
    suspension included, is refused; only a retried [Reconfigure] is admitted. *)
Theorem failed_cutover_strands_the_session :
  (answer next_owner OpCommit (facing_service [Works; Fails] service_replacing)).1
    = Some (RsError EcSystemFailure) /\
  (record_phase <$> record (network service_stranded)) = Some TpActive /\
  (record_owner <$> record (network service_stranded)) = Some sample_owner /\
  session_owner (session service_stranded) = Some next_owner /\
  tun service_stranded = None /\
  forallb (fun op => is_error (answer next_owner op service_stranded).1) owner_operations = true /\
  forallb (fun op => is_error (answer sample_owner op service_stranded).1) owner_operations = true /\
  (answer next_owner (OpReconfigure next_declaration) service_stranded).1 = Some (RsReconfigured 4).
Proof. split_and!; vm_compute; reflexivity. Qed.

(** A finding: rolling back a staged replacement is reported as [RolledBack] and stops
    the session, but the transaction only drops the candidate and keeps the previous
    generation active, its policy rule in the kernel. The retained TUN descriptor is gone,
    and every later [Prepare], under the old generation, the new one or a newer one, is
    refused until the lease of the old owner expires. *)
Theorem rolled_back_replacement_stays_active :
  let s := after next_owner OpRollback service_replacing in
  let newer := mkOwner (replicate 16 7) 42 5 3000 in
  (answer next_owner OpRollback service_replacing).1 = Some (RsRolledBack 4) /\
  phase (session s) = PhStopped /\ tun s = None /\
  (record_phase <$> record (network s)) = Some TpActive /\
  bool_decide (RRule 20001 ∈ objects (world (network s))) = true /\
  (answer sample_owner (OpPrepare sample_declaration) s).1 = Some (RsError EcGenerationConflict) /\
  (answer next_owner (OpPrepare next_declaration) s).1 = Some (RsError EcGenerationConflict) /\
  (answer newer (OpPrepare next_declaration) s).1 = Some (RsError EcGenerationConflict).
Proof. split_and!; vm_compute; reflexivity. Qed.

(** Two answers after which the service and its network disagree. After the failed
    cut-over of a replacement the network is active under the old owner, while the service
    keeps the session of the new one and refuses every operation of both but a retried
    [Reconfigure]. After the rollback of a staged replacement the session is stopped, while
    the network of the old owner stays active and every [Prepare] is refused. *)
Theorem service_and_network_disagree :
  ((answer next_owner OpCommit (facing_service [Works; Fails] service_replacing)).1
     = Some (RsError EcSystemFailure) /\
   (record_phase <$> record (network service_stranded)) = Some TpActive /\
   (record_owner <$> record (network service_stranded)) = Some sample_owner /\
   session_owner (session service_stranded) = Some next_owner /\
   tun service_stranded = None /\
   forallb (fun op => is_error (answer next_owner op service_stranded).1) owner_operations = true /\
   forallb (fun op => is_error (answer sample_owner op service_stranded).1) owner_operations = true /\
   (answer next_owner (OpReconfigure next_declaration) service_stranded).1 = Some (RsReconfigured 4)) /\
  (let s := after next_owner OpRollback service_replacing in
   let newer := mkOwner (replicate 16 7) 42 5 3000 in
   (answer next_owner OpRollback service_replacing).1 = Some (RsRolledBack 4) /\
   phase (session s) = PhStopped /\ tun s = None /\
   (record_phase <$> record (network s)) = Some TpActive /\
   bool_decide (RRule 20001 ∈ objects (world (network s))) = true /\
   (answer sample_owner (OpPrepare sample_declaration) s).1 = Some (RsError EcGenerationConflict) /\
   (answer next_owner (OpPrepare next_declaration) s).1 = Some (RsError EcGenerationConflict) /\
   (answer newer (OpPrepare next_declaration) s).1 = Some (RsError EcGenerationConflict)).
Proof. exact (conj failed_cutover_strands_the_session rolled_back_replacement_stays_active). Qed.
