(* ===== verification/Linux.v ===== *)
(** * The Linux backend: plans, routes and policy rules

    [candy-netd/src/linux.rs]: the plan compiled from a declaration, and the netlink
    programs that add, reconcile and delete routes and policy rules. Netlink is an
    interface: requests, dumps (streams of messages that may end in an error) and error
    numbers. Route and rule messages are records of the parts the backend reads. *)
From stdpp Require Import base tactics list numbers option sorting strings pretty.
From Stdlib Require Import ZArith Lia.
From S2P Require Import Prelude Ipv4 Wire Proto Network.

#[local] Open Scope Z_scope.

(** ** Plans *)

Definition CANDY_INTERFACE_NAME : string := "candy0".
Definition CANDY_POLICY_PRIORITY_MIN : Z := 20000.

Record LinuxNetworkPlan : Type := mkPlan {
  interface_name : string;
  route_table : Z;
  policy_priority : Z;
  plan_local_prefixes : list Ipv4Prefix;
  remote_routes : list Ipv4Prefix;
  remote_egress_gateway_routes : list Ipv4Prefix;
  plan_exclusions : list UnderlayExclusion;
  nft_table_name : string;
  route_mtu : Z;
  tcp_advmss : Z;
  remote_egress : bool;
}.

(** [u32::checked_add], [u16::checked_sub], and the plain [u32] subtraction, which panics
    when it underflows. *)
Definition u32_checked_add (a b : Z) : option Z := if a + b <? 2 ^ 32 then Some (a + b) else None.
Definition u16_checked_sub (a b : Z) : option Z := if b <=? a then Some (a - b) else None.
Definition u32_sub (a b : Z) : Result Failure Z := if b <=? a then Ok (a - b) else Err Panics.

Definition or_backend {A} (o : option A) : Result Failure A := ok_or o (Returns NeBackend).

Definition kind_is (k : RouteKind) (route : RouteDeclaration) : bool :=
  bool_decide (route_kind route = k).
Definition kind_is_remote (route : RouteDeclaration) : bool :=
  kind_is Remote route || kind_is RemoteEgress route || kind_is RemoteEgressGateway route.
Definition prefixes_where (f : RouteDeclaration -> bool) (l : list RouteDeclaration)
  : list Ipv4Prefix := map route_prefix (List.filter f l).

Definition compile_fields (declaration : PrepareDeclaration) : Result Failure LinuxNetworkPlan :=
  let? offset := u32_sub (table_id declaration) CANDY_TABLE_MIN in
  let? policy_priority := or_backend (u32_checked_add CANDY_POLICY_PRIORITY_MIN offset) in
  let remote_egress :=
    existsb (fun route => kind_is RemoteEgress route || kind_is RemoteEgressGateway route)
      (routes declaration) in
  let? advmss := or_backend (u16_checked_sub (effective_mtu declaration) 40) in
  Ok (mkPlan CANDY_INTERFACE_NAME (table_id declaration) policy_priority
        (prefixes_where (kind_is Local) (routes declaration))
        (prefixes_where kind_is_remote (routes declaration))
        (prefixes_where (kind_is RemoteEgressGateway) (routes declaration))
        (exclusions declaration)
        ("candy_sdwan_" ++ pretty (table_id declaration))
        (effective_mtu declaration) advmss remote_egress).

Definition compile (declaration : PrepareDeclaration) : Result Failure LinuxNetworkPlan :=
  check? map_err (fun _ => Returns NeBackend) (PrepareDeclaration_validate declaration) in
  compile_fields declaration.

(** A declaration that no longer validates is only logged. *)
Definition compile_for_cleanup (declaration : PrepareDeclaration)
  : Result Failure LinuxNetworkPlan :=
  if negb (in_range CANDY_TABLE_MIN CANDY_TABLE_MAX (table_id declaration))
     || negb (in_range 576 1400 (effective_mtu declaration))
  then Err (Returns NeBackend)
  else compile_fields declaration.

Definition policy_selectors (self : LinuxNetworkPlan)
  : list (option Ipv4Prefix * Ipv4Prefix) :=
  flat_map (fun destination =>
    if bool_decide (destination ∈ remote_egress_gateway_routes self)
       || bool_decide (plan_local_prefixes self = [])
    then [(None, destination)]
    else map (fun source => (Some source, destination)) (plan_local_prefixes self))
  (remote_routes self).

(** [sort_unstable] and [dedup]; equal prefixes are identical, so stability is moot. *)
Definition sort_dedup (l : list Ipv4Prefix) : list Ipv4Prefix := dedup (merge_sort prefix_le l).

Definition throw_prefixes (self : LinuxNetworkPlan) : list Ipv4Prefix :=
  sort_dedup (plan_local_prefixes self ++ map exclusion_prefix (plan_exclusions self)).

Definition cleanup_throw_prefixes (self : LinuxNetworkPlan) : list Ipv4Prefix :=
  sort_dedup (throw_prefixes self ++ remote_routes self).

Definition route_cleanup_targets (self : LinuxNetworkPlan) (link_index : option Z)
  : list (Ipv4Prefix * Z) * list Ipv4Prefix :=
  (match link_index with
   | Some index => map (fun prefix => (prefix, index)) (remote_routes self)
   | None => []
   end, cleanup_throw_prefixes self).

(** ** Messages *)

Inductive RouteType : Type :=
| RtUnicast
| RtThrow
| RtUnreachable
| RtBlackHole
| RtOther (code : Z).

#[export] Instance RouteType_eq_dec : EqDecision RouteType.
Proof. solve_decision. Defined.

Inductive RouteMetric : Type :=
| MtMtu (value : Z)
| MtAdvmss (value : Z)
| MtOther (code : Z).

#[export] Instance RouteMetric_eq_dec : EqDecision RouteMetric.
Proof. solve_decision. Defined.

Inductive RouteAttribute : Type :=
| RaTable (value : Z)
| RaDestination (address : list Z)
| RaOif (value : Z)
| RaMetrics (values : list RouteMetric)
| RaOther (code : Z).

#[export] Instance RouteAttribute_eq_dec : EqDecision RouteAttribute.
Proof. solve_decision. Defined.

(** [is_static]: the protocol is [RouteProtocol::Static]; [is_link]: the scope is
    [RouteScope::Link]. *)
Record RouteMessage : Type := mkRoute {
  header_table : Z;
  is_static : bool;
  is_link : bool;
  route_type : RouteType;
  destination_prefix_length : Z;
  attributes : list RouteAttribute;
}.

#[export] Instance RouteMessage_eq_dec : EqDecision RouteMessage.
Proof. solve_decision. Defined.

(** [iter().find_map(f)]. *)
Fixpoint find_map {A B} (f : A -> option B) (l : list A) : option B :=
  match l with
  | [] => None
  | x :: rest => match f x with Some b => Some b | None => find_map f rest end
  end.

Definition table_attribute (route : RouteMessage) : option Z :=
  find_map (fun a => match a with RaTable v => Some v | _ => None end) (attributes route).
Definition oif (route : RouteMessage) : option Z :=
  find_map (fun a => match a with RaOif v => Some v | _ => None end) (attributes route).

Definition in_table (table : Z) (route : RouteMessage) : bool :=
  bool_decide (table_attribute route = Some table)
  || ((table <=? 255) && (header_table route =? table)).

Definition result_ok {E A} (r : Result E A) : option A :=
  match r with Ok a => Some a | Err _ => None end.

Definition message_prefix (route : RouteMessage) : option Ipv4Prefix :=
  match find_map (fun a => match a with RaDestination v => Some v | _ => None end)
          (attributes route) with
  | Some value => result_ok (Ipv4Prefix_new value (destination_prefix_length route))
  | None =>
      if destination_prefix_length route =? 0
      then result_ok (Ipv4Prefix_new [0; 0; 0; 0] 0) else None
  end.

(** [metrics.and_then(|values| values.iter().find_map(f))]. *)
Definition route_metric (f : RouteMetric -> option Z) (route : RouteMessage) : option Z :=
  match find_map (fun a => match a with RaMetrics l => Some l | _ => None end)
          (attributes route) with
  | Some values => find_map f values
  | None => None
  end.
Definition mtu_metric : RouteMessage -> option Z :=
  route_metric (fun m => match m with MtMtu v => Some v | _ => None end).
Definition advmss_metric : RouteMessage -> option Z :=
  route_metric (fun m => match m with MtAdvmss v => Some v | _ => None end).

Definition route_metrics_match (route : RouteMessage) (plan : LinuxNetworkPlan) : bool :=
  bool_decide (mtu_metric route = Some (route_mtu plan))
  && bool_decide (advmss_metric route = Some (tcp_advmss plan)).

Definition is_owned_residual_route (route : RouteMessage) (plan : LinuxNetworkPlan) : bool :=
  if negb (is_static route) then false
  else match message_prefix route with
       | None => false
       | Some prefix =>
           if bool_decide (route_type route = RtThrow)
           then bool_decide (prefix ∈ cleanup_throw_prefixes plan)
           else if bool_decide (route_type route = RtUnreachable)
                   || bool_decide (route_type route = RtBlackHole)
           then bool_decide (prefix ∈ remote_routes plan)
           else bool_decide (route_type route = RtUnicast) && is_link route
                && bool_decide (prefix ∈ remote_routes plan)
       end.

(** What the request builders set: table, destination, static protocol, and for a link
    route the scope, the interface and possibly metrics. *)
Record RouteRequest : Type := mkRequestRoute {
  rq_table : Z;
  rq_prefix : Ipv4Prefix;
  rq_type : RouteType;
  rq_oif : option Z;
  rq_metrics : option (Z * Z);
}.

Definition link_route (plan : LinuxNetworkPlan) (index : Z) (prefix : Ipv4Prefix) : RouteRequest :=
  mkRequestRoute (route_table plan) prefix RtUnicast (Some index)
    (Some (route_mtu plan, tcp_advmss plan)).
Definition bare_link_route (plan : LinuxNetworkPlan) (index : Z) (prefix : Ipv4Prefix)
  : RouteRequest := mkRequestRoute (route_table plan) prefix RtUnicast (Some index) None.
Definition throw_route (plan : LinuxNetworkPlan) (prefix : Ipv4Prefix) : RouteRequest :=
  mkRequestRoute (route_table plan) prefix RtThrow None None.

Inductive RuleAttribute : Type :=
| UaPriority (value : Z)
| UaTable (value : Z)
| UaSource (address : list Z)
| UaDestination (address : list Z)
| UaOther (code : Z).

#[export] Instance RuleAttribute_eq_dec : EqDecision RuleAttribute.
Proof. solve_decision. Defined.

Record RuleMessage : Type := mkRule {
  rule_table : Z;
  to_table : bool;
  src_len : Z;
  dst_len : Z;
  rule_attributes : list RuleAttribute;
}.

#[export] Instance RuleMessage_eq_dec : EqDecision RuleMessage.
Proof. solve_decision. Defined.

Definition rule_priority (rule : RuleMessage) : option Z :=
  find_map (fun a => match a with UaPriority v => Some v | _ => None end) (rule_attributes rule).
Definition rule_table_attribute (rule : RuleMessage) : option Z :=
  find_map (fun a => match a with UaTable v => Some v | _ => None end) (rule_attributes rule).
Definition effective_rule_table (rule : RuleMessage) : option Z :=
  match rule_table_attribute rule with
  | Some t => Some t
  | None => if negb (rule_table rule =? 0) then Some (rule_table rule) else None
  end.

Definition owned_rule (plan : LinuxNetworkPlan) (rule : RuleMessage) : bool :=
  bool_decide (rule_priority rule = Some (policy_priority plan))
  && bool_decide (effective_rule_table rule = Some (route_table plan)).

(** [Ipv4Prefix::new(value.octets(), len).ok()?] in a function that returns an option. *)
Definition policy_rule_selector (rule : RuleMessage) : option (option Ipv4Prefix * Ipv4Prefix) :=
  if negb (to_table rule) then None
  else
    let source := find_map (fun a => match a with UaSource v => Some v | _ => None end)
                    (rule_attributes rule) in
    let destination := find_map (fun a => match a with UaDestination v => Some v | _ => None end)
                         (rule_attributes rule) in
    source ← match source with
             | Some value => Some <$> result_ok (Ipv4Prefix_new value (src_len rule))
             | None => if src_len rule =? 0 then Some None else None
             end;
    destination ← match destination with
                  | Some value => result_ok (Ipv4Prefix_new value (dst_len rule))
                  | None => if dst_len rule =? 0
                            then result_ok (Ipv4Prefix_new [0; 0; 0; 0] 0) else None
                  end;
    Some (source, destination).

(** ** Netlink *)

(** An error number of the kernel, if the error came from it. *)
Definition NetlinkError : Type := option Z.
Definition ENOENT : Z := 2.
Definition ESRCH : Z := 3.
Definition EEXIST : Z := 17.
Definition ENODEV : Z := 19.

Definition object_missing_is_idempotent (error : NetlinkError) : bool :=
  match error with
  | Some code => bool_decide (code ∈ [ENOENT; ESRCH; ENODEV])
  | None => false
  end.
Definition route_delete_is_idempotent (error : NetlinkError) : bool :=
  object_missing_is_idempotent error.
Definition add_is_idempotent (error : NetlinkError) : bool := bool_decide (error = Some EEXIST).

Record LinkMessage : Type := mkLink {
  link_header_index : Z;
  link_is_tun : bool;
}.

(** A dump: messages, and an error when the stream breaks off. *)
Definition Stream (A : Type) : Type := list (Result NetlinkError A).

(** Netlink, and the order in which the elements of a [HashSet] are visited. *)
Class Netlink (K : Type) := {
  link_get : string -> K -> Stream LinkMessage;
  route_get : Z -> K -> Stream RouteMessage;
  route_add : RouteRequest -> M K NetlinkError unit;
  route_replace : RouteRequest -> M K NetlinkError unit;
  route_del : RouteMessage -> M K NetlinkError unit;
  route_del_request : RouteRequest -> M K NetlinkError unit;
  rule_get : K -> Stream RuleMessage;
  rule_add : Z -> Z -> option Ipv4Prefix * Ipv4Prefix -> M K NetlinkError unit;
  rule_del : RuleMessage -> M K NetlinkError unit;
  prefix_order : list Ipv4Prefix -> list Ipv4Prefix;
  selector_order : list (option Ipv4Prefix * Ipv4Prefix) -> list (option Ipv4Prefix * Ipv4Prefix);
}.

Section Backend.
Context {K : Type} `{!Netlink K}.

Definition NetM (A : Type) : Type := M K NetworkError A.

(** [.map_err(|_| NetworkError::Backend)]. *)
Definition backend_err {A} (m : M K NetlinkError A) : NetM A :=
  let* result := attempt m in lift (map_err (fun _ => NeBackend) result).
(** [if let Err(error) = m { if !idempotent(&error) { return Err(Backend) } }]. *)
Definition tolerate (idempotent : NetlinkError -> bool) (m : M K NetlinkError unit) : NetM unit :=
  let* result := attempt m in
  match result with
  | Ok _ => mret tt
  | Err error => if idempotent error then mret tt else mfail NeBackend
  end.

Fixpoint for_each {A} (f : A -> NetM unit) (l : list A) : NetM unit :=
  match l with
  | [] => mret tt
  | x :: rest => do* f x in for_each f rest
  end.

(** [while let Some(x) = stream.try_next().await.map_err(..)?], to the end. *)
Fixpoint collect {A} (stream : Stream A) : Result NetworkError (list A) :=
  match stream with
  | [] => Ok []
  | Ok x :: rest => let? l := collect rest in Ok (x :: l)
  | Err _ :: _ => Err NeBackend
  end.
(** The same loop, returning [true] at the first element that satisfies [f]. *)
Fixpoint any {A} (f : A -> bool) (stream : Stream A) : Result NetworkError bool :=
  match stream with
  | [] => Ok false
  | Ok x :: rest => if f x then Ok true else any f rest
  | Err _ :: _ => Err NeBackend
  end.

Definition plan_of (r : Result Failure LinuxNetworkPlan) : NetM LinuxNetworkPlan :=
  lift match r with
       | Ok plan => Ok plan
       | Err _ => Err NeBackend
       end.

(** ** Links *)

Definition candy_link : NetM (option LinkMessage) :=
  let* links := gets (link_get CANDY_INTERFACE_NAME) in
  match links with
  | [] => mret None
  | Err error :: _ => if object_missing_is_idempotent error then mret None else mfail NeBackend
  | Ok link :: rest =>
      match rest with
      | [] => mret (Some link)
      | _ :: _ => mfail NeBackend
      end
  end.

Definition link_index : NetM Z :=
  let* link := candy_link in
  match link with
  | None => mfail NeBackend
  | Some link => if link_is_tun link then mret (link_header_index link) else mfail NeBackend
  end.

(** ** Routes *)

Definition route_conflict (plan : LinuxNetworkPlan) : NetM bool :=
  let* routes := gets (route_get (route_table plan)) in
  lift (any (fun route => in_table (route_table plan) route && negb (is_owned_residual_route route plan)) routes).

Definition add_routes (plan : LinuxNetworkPlan) : NetM unit :=
  let* index := link_index in
  do* for_each (fun prefix => tolerate add_is_idempotent (route_add (link_route plan index prefix)))
        (remote_routes plan) in
  for_each (fun prefix => tolerate add_is_idempotent (route_add (throw_route plan prefix)))
    (throw_prefixes plan).

(** What the scan of the table collects: healthy link routes, throw routes, stale routes. *)
Record Scan : Type := mkScan {
  present_healthy : list Ipv4Prefix;
  present_throw : list Ipv4Prefix;
  stale_owned : list RouteMessage;
}.

Definition scan_route (plan : LinuxNetworkPlan) (index : Z)
    (healthy_remote expected_throw : list Ipv4Prefix) (scan : Scan) (route : RouteMessage) : Scan :=
  let '(mkScan healthy throw stale) := scan in
  if negb (in_table (route_table plan) route) || negb (is_static route) then scan
  else match message_prefix route with
       | None => scan
       | Some prefix =>
           if bool_decide (prefix ∈ healthy_remote) then
             if bool_decide (route_type route = RtUnicast) && is_link route
                && bool_decide (oif route = Some index) && route_metrics_match route plan
             then mkScan (prefix :: healthy) throw stale
             else if bool_decide (route_type route = RtThrow)
                     || bool_decide (route_type route = RtUnicast)
             then mkScan healthy throw (stale ++ [route])
             else scan
           else if bool_decide (prefix ∈ expected_throw) then
             if bool_decide (route_type route = RtThrow)
             then mkScan healthy (prefix :: throw) stale
             else if bool_decide (route_type route = RtUnicast)
             then mkScan healthy throw (stale ++ [route])
             else scan
           else scan
       end.

(** [HashSet::difference], in the order the set is visited. *)
Definition difference (expected present : list Ipv4Prefix) : list Ipv4Prefix :=
  prefix_order (List.filter (fun p => negb (bool_decide (p ∈ present))) (remove_dups expected)).

(** The stale routes that a replacement has already displaced are not deleted. *)
Definition displaced (replaced_healthy replaced_throw : list Ipv4Prefix) (route : RouteMessage)
  : bool :=
  match message_prefix route with
  | Some prefix =>
      bool_decide (route_type route = RtUnicast) && bool_decide (prefix ∈ replaced_healthy)
      || bool_decide (route_type route = RtThrow) && bool_decide (prefix ∈ replaced_throw)
  | None => false
  end.

Definition healthy_prefixes (plan : LinuxNetworkPlan) (failed : list Ipv4Prefix)
  : list Ipv4Prefix :=
  List.filter (fun p => negb (bool_decide (p ∈ failed))) (remote_routes plan).

Definition reconcile_plan_routes (plan : LinuxNetworkPlan) (failed_prefixes : list Ipv4Prefix)
  : NetM unit :=
  let* index := link_index in
  let healthy_remote := healthy_prefixes plan failed_prefixes in
  let expected_throw := throw_prefixes plan ++ failed_prefixes in
  let* stream := gets (route_get (route_table plan)) in
  let* found := lift (collect stream) in
  let scan := fold_left (scan_route plan index healthy_remote expected_throw) found
                (mkScan [] [] []) in
  let replaced_healthy := difference healthy_remote (present_healthy scan) in
  let replaced_throw := difference expected_throw (present_throw scan) in
  do* for_each (fun p => backend_err (route_replace (link_route plan index p)))
        replaced_healthy in
  do* for_each (fun p => backend_err (route_replace (throw_route plan p))) replaced_throw in
  for_each (fun route =>
    if displaced replaced_healthy replaced_throw route then mret tt
    else tolerate route_delete_is_idempotent (route_del route)) (stale_owned scan).

(** The second filter of [delete_routes]. *)
Definition deletable (plan : LinuxNetworkPlan) (throw_set : list Ipv4Prefix)
    (route : RouteMessage) : bool :=
  in_table (route_table plan) route
  && (bool_decide (route_type route = RtThrow) || bool_decide (route_type route = RtUnreachable)
      || bool_decide (route_type route = RtBlackHole))
  && is_static route
  && match message_prefix route with
     | Some value =>
         if bool_decide (route_type route = RtThrow) then bool_decide (value ∈ throw_set)
         else bool_decide (value ∈ remote_routes plan)
     | None => false
     end.

(** Each message of the dump is deleted, if it matches, before the next is read. *)
Fixpoint delete_stream (f : RouteMessage -> bool) (stream : Stream RouteMessage) : NetM unit :=
  match stream with
  | [] => mret tt
  | Err _ :: _ => mfail NeBackend
  | Ok route :: rest =>
      do* (if f route then tolerate route_delete_is_idempotent (route_del route) else mret tt) in
      delete_stream f rest
  end.

Definition delete_routes (plan : LinuxNetworkPlan) : NetM unit :=
  let* link := candy_link in
  let* index := (match link with
                 | Some link =>
                     if link_is_tun link then mret (Some (link_header_index link))
                     else mfail NeBackend
                 | None => mret None
                 end) in
  let '(link_routes, throw_routes) := route_cleanup_targets plan index in
  do* for_each (fun '(prefix, index) =>
        tolerate route_delete_is_idempotent (route_del_request (bare_link_route plan index prefix)))
        link_routes in
  let* stream := gets (route_get (route_table plan)) in
  delete_stream (deletable plan throw_routes) stream.

Definition scoped_to_failed (declaration : PrepareDeclaration) (prefixes : list Ipv4Prefix)
  : PrepareDeclaration :=
  set_routes (List.filter (fun route => bool_decide (route_prefix route ∈ prefixes))
                (routes declaration)) declaration.

Definition linux_withdraw_prefixes (declaration : PrepareDeclaration)
    (prefixes : list Ipv4Prefix) : NetM unit :=
  let scoped := scoped_to_failed declaration prefixes in
  if bool_decide (routes scoped = []) then mret tt
  else
    let* plan := plan_of (compile scoped) in
    do* delete_routes plan in
    for_each (fun prefix => tolerate add_is_idempotent (route_add (throw_route plan prefix)))
      prefixes.

(** ** Policy rules *)

Definition rules_conflict (plan : LinuxNetworkPlan) : NetM bool :=
  let* rules := gets rule_get in
  lift (any (fun rule => bool_decide (rule_priority rule = Some (policy_priority plan))
                         || bool_decide (rule_table_attribute rule = Some (route_table plan)))
          rules).

Definition find_policy_rules (plan : LinuxNetworkPlan) : NetM (list RuleMessage) :=
  let* stream := gets rule_get in
  let* rules := lift (collect stream) in
  mret (List.filter (owned_rule plan) rules).

Definition add_policy_rule (plan : LinuxNetworkPlan)
    (selector : option Ipv4Prefix * Ipv4Prefix) : NetM unit :=
  tolerate add_is_idempotent (rule_add (route_table plan) (policy_priority plan) selector).

(** The rules kept (an expected selector, the first time it occurs) and the stale ones. *)
Definition sort_rule (expected : list (option Ipv4Prefix * Ipv4Prefix))
    (acc : list (option Ipv4Prefix * Ipv4Prefix) * list RuleMessage) (rule : RuleMessage)
  : list (option Ipv4Prefix * Ipv4Prefix) * list RuleMessage :=
  let '(present, stale) := acc in
  match policy_rule_selector rule with
  | Some value =>
      if bool_decide (value ∈ expected) && negb (bool_decide (value ∈ present))
      then (value :: present, stale) else (present, stale ++ [rule])
  | None => (present, stale ++ [rule])
  end.

Definition reconcile_policy_rules (plan : LinuxNetworkPlan) : NetM unit :=
  let expected := policy_selectors plan in
  let* rules := find_policy_rules plan in
  let '(present, stale) := fold_left (sort_rule expected) rules ([], []) in
  do* for_each (add_policy_rule plan)
        (selector_order (List.filter (fun v => negb (bool_decide (v ∈ present)))
                           (remove_dups expected))) in
  for_each (fun rule => tolerate object_missing_is_idempotent (rule_del rule)) stale.

Definition linux_install_policy_rule (declaration : PrepareDeclaration) : NetM unit :=
  let* plan := plan_of (compile declaration) in reconcile_policy_rules plan.

(** Every rule is tried; one failure fails the call. *)
Fixpoint delete_rules (failed : bool) (rules : list RuleMessage) : NetM bool :=
  match rules with
  | [] => mret failed
  | rule :: rest =>
      let* result := attempt (rule_del rule) in delete_rules (failed || is_err result) rest
  end.

Definition linux_remove_policy_rule (declaration : PrepareDeclaration) : NetM unit :=
  let* plan := plan_of (compile_for_cleanup declaration) in
  let* rules := find_policy_rules plan in
  let* failed := delete_rules false rules in
  if failed : bool then mfail NeBackend else mret tt.

Definition linux_prepare_routes (declaration : PrepareDeclaration) : NetM unit :=
  let* plan := plan_of (compile declaration) in add_routes plan.
Definition linux_reconcile_routes (declaration : PrepareDeclaration)
    (failed_prefixes : list Ipv4Prefix) : NetM unit :=
  let* plan := plan_of (compile declaration) in reconcile_plan_routes plan failed_prefixes.
Definition linux_remove_routes (declaration : PrepareDeclaration) : NetM unit :=
  let* plan := plan_of (compile_for_cleanup declaration) in delete_routes plan.

End Backend.

Arguments NetM : clear implicits.
