(* ===== verification/LinuxFacts.v ===== *)
(** * What the Linux backend guarantees

    The bounds of compiled plans, and, against the documented behaviour of netlink
    ([NetlinkLaws]): exact route tables after a reconciliation, policy rules replaced
    without a gap, and cleanup that removes all that preflight tolerates and nothing else. *)
From stdpp Require Import base tactics list numbers option sorting strings pretty sets.
From Stdlib Require Import ZArith Lia.
From S2P Require Import Prelude Ipv4 Wire Proto ProtoFacts Network Linux.

#[local] Open Scope Z_scope.

(** ** Netlink, as documented *)

(** A message that a request produced, as a dump shows it. *)
Definition realizes (rq : RouteRequest) (r : RouteMessage) : Prop :=
  in_table (rq_table rq) r = true /\ message_prefix r = Some (rq_prefix rq) /\
  is_static r = true /\ route_type r = rq_type rq /\
  match rq_oif rq with Some i => is_link r = true /\ oif r = Some i | None => True end /\
  match rq_metrics rq with
  | Some (mtu, advmss) => mtu_metric r = Some mtu /\ advmss_metric r = Some advmss
  | None => True
  end.

(** A route in the place of another: same table, same destination. *)
Definition placed (t : Z) (p : Ipv4Prefix) (r : RouteMessage) : Prop :=
  in_table t r = true /\ message_prefix r = Some p.

(** A rule that steers a selector into a table. *)
Definition steers (t priority : Z) (selector : option Ipv4Prefix * Ipv4Prefix)
    (u : RuleMessage) : Prop :=
  rule_priority u = Some priority /\ effective_rule_table u = Some t /\
  policy_rule_selector u = Some selector.

(** The kernel's routes are a set of messages, its rules a list. A call that fails may
    have had its effect. *)
Class NetlinkLaws (K : Type) `{!Netlink K} := {
  held : K -> RouteMessage -> Prop;
  rules : K -> list RuleMessage;
  (* only one route is in place for a destination of a table *)
  unique (k : K) (t : Z) : Prop := forall p x y,
    held k x -> held k y -> placed t p x -> placed t p y -> x = y;
  route_get_sound k t r : Ok r ∈ route_get t k -> held k r;
  route_get_complete k t r :
    (forall e, Err e ∉ route_get t k) -> held k r -> in_table t r = true -> Ok r ∈ route_get t k;
  route_replace_spec rq k res k' :
    route_replace rq k = (res, k') -> unique k (rq_table rq) ->
    (res <> Ok tt /\ forall x, held k' x <-> held k x) \/
    (exists r, realizes rq r /\
       forall x, held k' x <-> x = r \/ (held k x /\ ~ placed (rq_table rq) (rq_prefix rq) x));
  route_add_spec rq k res k' :
    route_add rq k = (res, k') ->
    (res <> Ok tt /\ forall x, held k' x <-> held k x) \/
    (exists r, realizes rq r /\ forall x, held k' x <-> x = r \/ held k x);
  route_del_spec r k res k' :
    route_del r k = (res, k') ->
    (res <> Ok tt /\ (forall x, held k' x <-> held k x) /\
       (forall e, res = Err e -> object_missing_is_idempotent e = true -> ~ held k r)) \/
    (exists y, held k y /\ (held k r -> y = r) /\ route_type y = route_type r /\
       is_static y = is_static r /\ message_prefix y = message_prefix r /\
       (forall t, in_table t y = in_table t r) /\
       forall x, held k' x <-> held k x /\ x <> y);
  route_del_request_spec rq k res k' :
    route_del_request rq k = (res, k') ->
    (res <> Ok tt /\ (forall x, held k' x <-> held k x) /\
       (forall e, res = Err e -> object_missing_is_idempotent e = true ->
          forall x, held k x -> ~ realizes rq x)) \/
    (exists y, held k y /\ realizes rq y /\ forall x, held k' x <-> held k x /\ x <> y);
  rule_get_sound k l : collect (rule_get k) = Ok l -> l = rules k;
  rule_add_spec t priority selector k res k' :
    rule_add t priority selector k = (res, k') ->
    (rules k' = rules k /\ (res = Ok tt \/ res = Err (Some EEXIST) ->
       exists u, u ∈ rules k /\ steers t priority selector u)) \/
    (exists u, steers t priority selector u /\ rules k' ≡ₚ u :: rules k);
  rule_del_spec u k res k' :
    rule_del u k = (res, k') ->
    (res <> Ok tt /\ rules k' = rules k /\
       (forall e, res = Err e -> object_missing_is_idempotent e = true -> u ∉ rules k)) \/
    (rules k ≡ₚ u :: rules k');
  prefix_order_perm l : prefix_order l ≡ₚ l;
  selector_order_perm l : selector_order l ≡ₚ l;
}.

(** ** Plans *)

Lemma validate_bounds d :
  PrepareDeclaration_validate d = Ok tt ->
  CANDY_TABLE_MIN <= table_id d <= CANDY_TABLE_MAX /\ 576 <= effective_mtu d <= 1400.
Proof.
  unfold PrepareDeclaration_validate. destruct (declaration_bounds_bad d) eqn:E; [done|]. intros _.
  apply bounds_ok in E. tauto.
Qed.

(** Plans: a declaration compiles exactly when it validates, and never panics; the
    rule priority is the table number, inside the range reserved for Candy, and the
    clamped segment size leaves room for the headers. *)
Theorem compile_spec d :
  (PrepareDeclaration_validate d <> Ok tt -> compile d = Err (Returns NeBackend)) /\
  (PrepareDeclaration_validate d = Ok tt ->
   exists plan, compile d = Ok plan /\ compile_for_cleanup d = Ok plan /\
     route_table plan = table_id d /\ policy_priority plan = table_id d /\
     20000 <= policy_priority plan <= 20999 /\
     tcp_advmss plan = effective_mtu d - 40 /\ 536 <= tcp_advmss plan <= 1360 /\
     (forall p, p ∈ plan_local_prefixes plan <->
        exists r, r ∈ routes d /\ route_prefix r = p /\ route_kind r = Local) /\
     (forall p, p ∈ remote_routes plan <->
        exists r, r ∈ routes d /\ route_prefix r = p /\ route_kind r <> Local)).
Proof.
  unfold compile. destruct (PrepareDeclaration_validate d) as [[]|e] eqn:E; simpl; [|done].
  split; [done|]. intros _. apply validate_bounds in E as [H1 H2].
  unfold CANDY_TABLE_MIN, CANDY_TABLE_MAX in *.
  assert (Hc : compile_fields d = Ok (mkPlan CANDY_INTERFACE_NAME (table_id d) (table_id d)
        (prefixes_where (kind_is Local) (routes d)) (prefixes_where kind_is_remote (routes d))
        (prefixes_where (kind_is RemoteEgressGateway) (routes d)) (exclusions d)
        ("candy_sdwan_" ++ pretty (table_id d)) (effective_mtu d) (effective_mtu d - 40)
        (existsb (fun r => kind_is RemoteEgress r || kind_is RemoteEgressGateway r) (routes d)))).
  { unfold compile_fields, u32_sub, u32_checked_add, u16_checked_sub, CANDY_TABLE_MIN,
      CANDY_POLICY_PRIORITY_MIN.
    destruct (Z.leb_spec 20000 (table_id d)); [|lia]. simpl.
    replace (20000 + (table_id d - 20000)) with (table_id d) by lia.
    destruct (Z.ltb_spec (table_id d) (2 ^ 32)); [|lia]. simpl.
    destruct (Z.leb_spec 40 (effective_mtu d)); [|lia]. done. }
  rewrite Hc. eexists. split; [reflexivity|]. split.
  { unfold compile_for_cleanup, in_range, CANDY_TABLE_MIN, CANDY_TABLE_MAX.
    destruct (Z.leb_spec 20000 (table_id d)), (Z.leb_spec (table_id d) 20999),
      (Z.leb_spec 576 (effective_mtu d)), (Z.leb_spec (effective_mtu d) 1400); try lia. done. }
  cbn [route_table policy_priority tcp_advmss plan_local_prefixes remote_routes].
  split_and!; [done|done|lia|lia|done|lia|lia|..];
    intros p; unfold prefixes_where; rewrite list_elem_of_In, List.in_map_iff; setoid_rewrite List.filter_In;
    setoid_rewrite <- list_elem_of_In; split.
  - intros (r & <- & Hr & Hk). exists r. by apply bool_decide_eq_true_1 in Hk.
  - intros (r & Hr & <- & Hk). exists r. split_and!; [done..|]. by apply bool_decide_eq_true_2.
  - intros (r & <- & Hr & Hk). exists r. split_and!; [done..|]. intros Hl. revert Hk.
    unfold kind_is_remote, kind_is. by rewrite Hl.
  - intros (r & Hr & <- & Hk). exists r. split_and!; [done..|].
    unfold kind_is_remote, kind_is. by destruct (route_kind r).
Qed.

Section Backend.
Context {K : Type} `{!Netlink K} `{!NetlinkLaws K}.

(** ** Loops and errors *)

(** An invariant of the elements visited so far. *)
Lemma wp_for_each {A} (I : list A -> K -> Prop) (f : A -> NetM K unit) l
    (Q : Result NetworkError unit -> K -> Prop) k :
  I [] k ->
  (forall done x rest k, l = done ++ x :: rest -> I done k ->
     wp (f x) (fun r k' => match r with Ok _ => I (done ++ [x]) k' | Err e => Q (Err e) k' end) k) ->
  (forall k, I l k -> Q (Ok tt) k) ->
  wp (for_each f l) Q k.
Proof.
  intros H0 Hstep Hend.
  assert (Hgen : forall rest d k, l = d ++ rest -> I d k -> wp (for_each f rest) Q k).
  { induction rest as [|x rest IH]; intros d k' Hl HI; simpl.
    - apply wp_mret, Hend. by rewrite app_nil_r in Hl; subst.
    - apply wp_mbind. eapply wp_mono; [by apply (Hstep d x rest)|].
      intros [[]|e] k1; [|done]. apply IH. by rewrite <- app_assoc. }
  by apply (Hgen l [] k).
Qed.

Lemma wp_backend_err {A} (m : M K NetlinkError A) (Q : Result NetworkError A -> K -> Prop) k :
  wp m (fun (r : Result NetlinkError A) k' => Q (map_err (fun _ => NeBackend) r) k') k ->
  wp (backend_err m) Q k.
Proof. unfold backend_err. intros H. by apply wp_mbind, wp_attempt. Qed.

Lemma wp_tolerate (f : NetlinkError -> bool) (m : M K NetlinkError unit) (Q : Result NetworkError unit -> K -> Prop) k :
  wp m (fun (r : Result NetlinkError unit) k' => match r with
                    | Ok _ => Q (Ok tt) k'
                    | Err e => if f e then Q (Ok tt) k' else Q (Err NeBackend) k'
                    end) k ->
  wp (tolerate f m) Q k.
Proof.
  unfold tolerate. intros H. apply wp_mbind, wp_attempt. eapply wp_mono; [exact H|].
  intros [[]|e] k'; [done|]. by destruct (f e).
Qed.

(** Reading the links changes nothing. *)
Lemma candy_link_state k : (candy_link k).2 = k.
Proof.
  unfold candy_link, mbind, gets. simpl. repeat case_match; done.
Qed.

Lemma link_index_state k : (link_index k).2 = k.
Proof.
  unfold link_index, mbind. pose proof (candy_link_state k) as H.
  destruct (candy_link k) as [[[l|]|e] k']; simpl in *; [by case_match|done..].
Qed.

Lemma collect_Ok {A} (stream : Stream A) l : collect stream = Ok l -> stream = map Ok l.
Proof.
  revert l. induction stream as [|[x|e] rest IH]; intros l; simpl; [by intros [= <-]| |done].
  destruct (collect rest) as [l'|]; simpl; [|done]. intros [= <-]. simpl. f_equal. by apply IH.
Qed.

Lemma dump_found k t l r :
  collect (route_get t k) = Ok l ->
  (r ∈ l -> held k r) /\ (held k r -> in_table t r = true -> r ∈ l).
Proof.
  intros Hl%collect_Ok. split.
  - intros Hr. apply (route_get_sound k t). rewrite Hl. by apply list_elem_of_fmap_2.
  - intros Hr Ht. assert (Hin : Ok r ∈ route_get t k).
    { apply route_get_complete; [|done..]. rewrite Hl. intros e He.
      apply list_elem_of_fmap in He as (? & [=] & _). }
    rewrite Hl in Hin. apply list_elem_of_fmap in Hin as (r' & [= <-] & ?). done.
Qed.

(** ** Route tables *)

Section Reconcile.
Context (plan : LinuxNetworkPlan) (failed : list Ipv4Prefix).

#[local] Abbreviation T := (route_table plan).
#[local] Abbreviation H := (healthy_prefixes plan failed).
#[local] Abbreviation E := (throw_prefixes plan ++ failed).

(** What reconciliation wants to find for a destination. *)
Definition good_link (index : Z) (r : RouteMessage) : Prop :=
  is_static r = true /\ route_type r = RtUnicast /\ is_link r = true /\ oif r = Some index /\
  route_metrics_match r plan = true.
Definition good_throw (r : RouteMessage) : Prop := is_static r = true /\ route_type r = RtThrow.

(** The routes of other tables and of other destinations. *)
Definition foreign (r : RouteMessage) : Prop :=
  forall p, p ∈ H ++ E -> ~ placed T p r.
Definition foreign_kept (k k' : K) : Prop := forall r, foreign r -> held k' r <-> held k r.

Lemma link_realized index p r : realizes (link_route plan index p) r -> placed T p r /\ good_link index r.
Proof.
  intros (H1 & H2 & H3 & H4 & [H5 H6] & H7 & H8). simpl in *.
  split; [by split|]. split_and!; try done. unfold route_metrics_match.
  rewrite H7, H8. by rewrite !bool_decide_eq_true_2.
Qed.

Lemma throw_realized p r : realizes (throw_route plan p) r -> placed T p r /\ good_throw r.
Proof. intros (H1 & H2 & H3 & H4 & _). by split. Qed.

Lemma placed_fun t p q r : placed t p r -> placed t q r -> p = q.
Proof. intros [_ H1] [_ H2]. congruence. Qed.

(** A replacement puts one route in place of all others, or does nothing. *)
Lemma wp_replace rq k (Q : Result NetlinkError unit -> K -> Prop) :
  unique k (rq_table rq) ->
  (forall e k', unique k' (rq_table rq) -> (forall x, held k' x <-> held k x) -> Q (Err e) k') ->
  (forall res k' r, realizes rq r -> unique k' (rq_table rq) ->
     (forall x, held k' x <-> x = r \/ (held k x /\ ~ placed (rq_table rq) (rq_prefix rq) x)) ->
     Q res k') ->
  wp (route_replace rq) Q k.
Proof.
  intros Hu Hsame Hset. apply wp_intro. intros res k' Hrun.
  destruct (route_replace_spec rq k res k' Hrun Hu) as [[Hn Hs]|(r & Hr & Hh)].
  - destruct res as [[]|e]; [done|]. apply Hsame; [|done]. intros p x y Hx%Hs Hy%Hs. by apply Hu.
  - apply (Hset res k' r Hr); [|done]. pose proof Hr as (Ht & Hp & _).
    intros p x y [->|[Hx Hnx]]%Hh [->|[Hy Hny]]%Hh Px Py; [done|..|by eapply Hu].
    + destruct Hny. destruct Py as [Py1 Py2]. split; [done|]. destruct Px. congruence.
    + destruct Hnx. destruct Px as [Px1 Px2]. split; [done|]. destruct Py. congruence.
Qed.

Lemma wp_replace_all (f : Ipv4Prefix -> RouteRequest) l k0 :
  (forall p, rq_table (f p) = T /\ rq_prefix (f p) = p) -> unique k0 T ->
  wp (for_each (fun p => backend_err (route_replace (f p))) l)
    (fun res k => unique k T /\
       (forall x, (forall p, p ∈ l -> ~ placed T p x) -> held k x <-> held k0 x) /\
       (res = Ok tt -> forall p, p ∈ l -> exists r, held k r /\ realizes (f p) r)) k0.
Proof.
  intros Hf Hu. apply (wp_for_each (fun done k => unique k T /\
    (forall x, (forall p, p ∈ done -> ~ placed T p x) -> held k x <-> held k0 x) /\
    (forall p, p ∈ done -> exists r, held k r /\ realizes (f p) r))).
  - split; [done|]. split; [done|]. by intros p ?%elem_of_nil.
  - intros done p rest k -> (Hk & Hrest & Hdone). destruct (Hf p) as [Hft Hfp].
    apply wp_backend_err, wp_replace; rewrite Hft, ?Hfp; [done|..].
    + intros e k' Hk' Hs. simpl. split_and!; [done| |done].
      intros x Hx. rewrite Hs. apply Hrest. intros q Hq. apply Hx. set_solver.
    + intros res k' r Hr Hk' Hh.
      assert (Hother : forall x, (forall q, q ∈ done ++ [p] -> ~ placed T q x) ->
                held k' x <-> held k0 x).
      { intros x Hx. rewrite Hh, <- Hrest by set_solver. split; [|set_solver].
        intros [->|[? _]]; [|done]. destruct (Hx p); [set_solver|].
        destruct Hr as (H1 & H2 & _). rewrite Hft in H1. rewrite Hfp in H2. by split. }
      destruct res as [[]|e]; simpl.
      * split; [done|]. split; [done|]. intros q Hq. destruct (decide (q = p)) as [->|Hne].
        { exists r. split; [apply Hh; by left|done]. }
        destruct (Hdone q) as (rq & H1 & H2); [set_solver|]. exists rq. split; [|done].
        apply Hh. right. split; [done|]. intros [_ Hp]. destruct H2 as (_ & H2 & _).
        destruct (Hf q) as [_ Hq']. congruence.
      * split_and!; [done| |done]. intros x Hx. apply Hother. intros q Hq. apply Hx. set_solver.
  - intros k (H1 & H2 & H3). split_and!; [done|done|]. intros _. done.
Qed.

Lemma elem_of_difference_list p l l' : p ∈ difference l l' <-> p ∈ l /\ p ∉ l'.
Proof.
  unfold difference. rewrite (prefix_order_perm (K := K)).
  rewrite list_elem_of_In, List.filter_In, <- list_elem_of_In, elem_of_remove_dups.
  by rewrite negb_true_iff, bool_decide_eq_false.
Qed.

(** What the scan has collected comes from the dump. *)
Record scan_sound (index : Z) (found : list RouteMessage) (scan : Scan) : Prop := {
  scan_healthy p : p ∈ present_healthy scan ->
    (p ∈ H) /\ exists r, (r ∈ found) /\ placed T p r /\ good_link index r;
  scan_throw p : p ∈ present_throw scan ->
    (p ∈ E) /\ (p ∉ H) /\ exists r, (r ∈ found) /\ placed T p r /\ good_throw r;
  scan_stale r : r ∈ stale_owned scan ->
    r ∈ found /\ exists p, placed T p r /\
      ((p ∈ H /\ ~ good_link index r /\ (route_type r = RtThrow \/ route_type r = RtUnicast)) \/
       (p ∉ H /\ p ∈ E /\ route_type r = RtUnicast));
}.

Lemma scan_step index found scan r :
  scan_sound index found scan ->
  scan_sound index (found ++ [r]) (scan_route plan index H E scan r).
Proof.
  intros [H1 H2 H3].
  assert (Hw : scan_sound index (found ++ [r]) scan).
  { split.
    - intros p Hp. apply H1 in Hp as (? & x & ? & ?). set_solver.
    - intros p Hp. apply H2 in Hp as (? & ? & x & ? & ?). set_solver.
    - intros x Hx. apply H3 in Hx as (? & Hx). split; [set_solver|exact Hx]. }
  unfold scan_route. destruct scan as [healthy throw stale]. simpl in *.
  destruct (in_table T r) eqn:Et; [|done]. destruct (is_static r) eqn:Es; [simpl|done].
  destruct (message_prefix r) as [p|] eqn:Ep; [|done].
  assert (Hpl : placed T p r) by done. destruct Hw as [W1 W2 W3]. simpl in *.
  case_bool_decide as HH.
  - destruct (bool_decide (route_type r = RtUnicast) && is_link r
      && bool_decide (oif r = Some index) && route_metrics_match r plan) eqn:Eg.
    + rewrite !andb_true_iff, !bool_decide_eq_true in Eg. destruct_and!.
      split; simpl; [|done|done]. intros q [->|Hq]%elem_of_cons; [|by apply W1].
      split; [done|]. exists r. split; [set_solver|]. split; [done|]. by split_and!.
    + destruct (bool_decide (route_type r = RtThrow) || bool_decide (route_type r = RtUnicast))
        eqn:Eo; [|by split].
      split; simpl; [done|done|]. intros x [Hx| ->%list_elem_of_singleton]%elem_of_app; [by apply W3|].
      split; [set_solver|]. exists p. split; [done|]. left. split; [done|]. split.
      * intros (G1 & G2 & G3 & G4 & G5). rewrite G2, G3, G4, G5 in Eg.
        by rewrite !bool_decide_eq_true_2 in Eg.
      * rewrite orb_true_iff, !bool_decide_eq_true in Eo. done.
  - case_bool_decide as HE; [|by split]. case_bool_decide as Ht.
    + split; simpl; [done| |done]. intros q [->|Hq]%elem_of_cons; [|by apply W2].
      split_and!; [done|done|]. exists r. split; [set_solver|]. by split.
    + case_bool_decide; [|by split]. split; simpl; [done|done|].
      intros x [Hx| ->%list_elem_of_singleton]%elem_of_app; [by apply W3|].
      split; [set_solver|]. exists p. split; [done|]. by right.
Qed.

Lemma scan_all index found :
  scan_sound index found (fold_left (scan_route plan index H E) found (mkScan [] [] [])).
Proof.
  induction found as [|r found IH] using rev_ind.
  - simpl. split; simpl; set_solver.
  - rewrite fold_left_app. simpl. by apply scan_step.
Qed.

(** No deletion of the stale routes has an effect: a replacement has displaced them. *)
Lemma wp_delete_stale index found replaced_healthy replaced_throw k0 k :
  let scan := fold_left (scan_route plan index H E) found (mkScan [] [] []) in
  unique k0 T -> (forall r, r ∈ found -> held k0 r) -> unique k T ->
  replaced_healthy = difference H (present_healthy scan) ->
  replaced_throw = difference E (present_throw scan) ->
  (forall p, p ∈ replaced_throw -> exists r, held k r /\ placed T p r /\ good_throw r) ->
  (forall p, p ∈ replaced_healthy -> p ∉ replaced_throw ->
     exists r, held k r /\ placed T p r /\ good_link index r) ->
  wp (for_each (fun route =>
        if displaced replaced_healthy replaced_throw route then mret tt
        else tolerate route_delete_is_idempotent (route_del route)) (stale_owned scan))
    (fun _ k' => forall x, held k' x <-> held k x) k.
Proof.
  intros scan Hu0 Hfound Hu Hrh Hrt Hthrow Hlink.
  pose proof (scan_all index found) as [S1 S2 S3]. fold scan in S1, S2, S3.
  apply (wp_for_each (fun _ k' => forall x, held k' x <-> held k x)); [done| |by intros].
  intros done_ r rest k1 Hl Hsame.
  destruct (displaced replaced_healthy replaced_throw r) eqn:Hd; [by apply wp_mret|].
  assert (Hr : r ∈ stale_owned scan) by (rewrite Hl; set_solver).
  apply S3 in Hr as (Hr & p & Hp & Hcase). apply Hfound in Hr.
  unfold displaced in Hd. rewrite (proj2 Hp) in Hd.
  (* nothing of the same type is in place for this destination *)
  assert (Hnone : forall y, held k y -> placed T p y -> route_type y = route_type r -> False).
  { intros y Hy Py Hty. destruct Hcase as [(HH & Hbad & Hor)|(HnH & HE & Hun)].
    - assert (Hrep : p ∈ replaced_healthy).
      { rewrite Hrh. apply elem_of_difference_list. split; [done|]. intros Hpres.
        destruct (S1 p Hpres) as (_ & x & Hx & Px & Gx). apply Hbad.
        by rewrite (Hu0 p r x Hr (Hfound x Hx) Hp Px). }
      destruct Hor as [Ht|Ht]; rewrite Ht in Hd, Hty.
      + assert (Hnt : p ∉ replaced_throw).
        { intros Hin. by rewrite (bool_decide_eq_true_2 (p ∈ replaced_throw)) in Hd. }
        destruct (Hlink p Hrep Hnt) as (x & Hx & Px & (_ & Gx & _)).
        rewrite (Hu p y x Hy Hx Py Px) in Hty. congruence.
      + by rewrite (bool_decide_eq_true_2 (p ∈ replaced_healthy)) in Hd.
    - assert (Hrep : p ∈ replaced_throw).
      { rewrite Hrt. apply elem_of_difference_list. split; [done|]. intros Hpres.
        destruct (S2 p Hpres) as (_ & _ & x & Hx & Px & Gx).
        rewrite (Hu0 p r x Hr (Hfound x Hx) Hp Px) in Hun. destruct Gx. congruence. }
      destruct (Hthrow p Hrep) as (x & Hx & Px & (_ & Gx)).
      rewrite (Hu p y x Hy Hx Py Px) in Hty. congruence. }
  apply wp_tolerate, wp_intro. intros res k2 Hrun.
  assert (Hk2 : forall x, held k2 x <-> held k x).
  { destruct (route_del_spec r k1 res k2 Hrun) as [(_ & Hs & _)|(y & Hy & _ & H1 & _ & H2 & H3 & _)].
    - intros x. by rewrite Hs.
    - exfalso. apply (Hnone y); [by apply Hsame| |done]. destruct Hp as [P1 P2].
      split; [by rewrite H3|by rewrite H2]. }
  destruct res as [[]|e]; [done|]. by case_match.
Qed.

(** The table after a reconciliation that succeeds. *)
Definition reconciled (index : Z) (k : K) : Prop :=
  unique k T /\
  (forall p, p ∈ E -> exists r, held k r /\ placed T p r /\ good_throw r) /\
  (forall p, p ∈ H -> p ∉ E -> exists r, held k r /\ placed T p r /\ good_link index r).

Lemma wp_reconcile k index :
  unique k T -> (link_index k).1 = Ok index ->
  wp (reconcile_plan_routes plan failed)
    (fun res k' => foreign_kept k k' /\ (res = Ok tt -> reconciled index k')) k.
Proof.
  intros Hu Hli. unfold reconcile_plan_routes. apply wp_mbind, wp_intro.
  intros r0 k0 Hrun. pose proof (link_index_state k) as Hst. rewrite Hrun in Hli, Hst.
  simpl in Hli, Hst. subst r0 k0. apply wp_mbind, wp_gets, wp_mbind, wp_lift.
  destruct (collect (route_get T k)) as [found|e] eqn:Hc; [|by split].
  set (scan := fold_left _ found _).
  set (rh := difference H (present_healthy scan)). set (rt := difference E (present_throw scan)).
  pose proof (scan_all index found) as [S1 S2 _]. fold scan in S1, S2.
  assert (Hforeign : forall (l : list Ipv4Prefix) x, (forall p, p ∈ l -> p ∈ H ++ E) -> foreign x ->
            forall p, p ∈ l -> ~ placed T p x) by set_solver.
  assert (Hin1 : forall p, p ∈ rh -> p ∈ H ++ E).
  { intros p [? _]%elem_of_difference_list. set_solver. }
  assert (Hin2 : forall p, p ∈ rt -> p ∈ H ++ E).
  { intros p [? _]%elem_of_difference_list. set_solver. }
  apply wp_mbind. eapply wp_mono; [by apply wp_replace_all|].
  intros res1 k1 (Hu1 & Hk1 & Hr1).
  assert (Hf1 : foreign_kept k k1) by (intros x Hx; apply Hk1; by eapply Hforeign).
  destruct res1 as [[]|e]; [|by split]. specialize (Hr1 eq_refl).
  apply wp_mbind. eapply wp_mono; [by apply wp_replace_all|].
  intros res2 k2 (Hu2 & Hk2 & Hr2).
  assert (Hf2 : foreign_kept k k2).
  { intros x Hx. rewrite Hk2 by (by eapply Hforeign). by apply Hf1. }
  destruct res2 as [[]|e]; [|by split]. specialize (Hr2 eq_refl).
  assert (Hthrow : forall p, p ∈ rt -> exists r, held k2 r /\ placed T p r /\ good_throw r).
  { intros p Hp. destruct (Hr2 p Hp) as (r & Hr & Hz). exists r.
    split; [done|]. by apply throw_realized. }
  assert (Hlink : forall p, p ∈ rh -> p ∉ rt ->
            exists r, held k2 r /\ placed T p r /\ good_link index r).
  { intros p Hp Hn. destruct (Hr1 p Hp) as (r & Hr & Hz). apply link_realized in Hz as [Pz Gz].
    exists r. split; [|done]. apply Hk2; [|done]. intros q Hq Hpl.
    by rewrite (placed_fun T p q r Pz Hpl) in Hn. }
  assert (Hkept : forall p r, p ∉ rh -> p ∉ rt -> r ∈ found -> placed T p r -> held k2 r).
  { intros p r Hn1 Hn2 Hr Hp. apply Hk2; [intros q Hq Hpl; by rewrite (placed_fun T p q r Hp Hpl) in Hn2|].
    apply Hk1; [intros q Hq Hpl; by rewrite (placed_fun T p q r Hp Hpl) in Hn1|].
    by apply (dump_found k T found). }
  eapply wp_mono; [eapply (wp_delete_stale index found rh rt k); try done|].
  { intros r. by apply (dump_found k T found). }
  intros res k3 Hk3. cbv beta in Hk3. split; [intros x Hx; rewrite Hk3; by apply Hf2|]. intros _. split_and!.
  - intros p x y Hx%Hk3 Hy%Hk3. by apply Hu2.
  - intros p Hp. destruct (decide (p ∈ present_throw scan)) as [Hin|Hin].
    + destruct (S2 p Hin) as (_ & HnH & r & Hr & Pr & Gr). exists r. split; [|done].
      apply Hk3, (Hkept p); [|by intros [_ ?]%elem_of_difference_list|done..].
      by intros [? _]%elem_of_difference_list.
    + destruct (Hthrow p) as (r & Hr & Hrest); [by apply elem_of_difference_list|].
      exists r. split; [by apply Hk3|done].
  - intros p HpH HpE. assert (Hn2 : p ∉ rt) by (by intros [? _]%elem_of_difference_list).
    destruct (decide (p ∈ present_healthy scan)) as [Hin|Hin].
    + destruct (S1 p Hin) as (_ & r & Hr & Pr & Gr). exists r. split; [|done].
      apply Hk3, (Hkept p); [by intros [_ ?]%elem_of_difference_list|done..].
    + destruct (Hlink p) as (r & Hr & Hrest); [by apply elem_of_difference_list|done|].
      exists r. split; [by apply Hk3|done].
Qed.
End Reconcile.

(** ** Policy rules *)

Section Rules.
Context (plan : LinuxNetworkPlan).

#[local] Abbreviation own := (owned_rule plan).
#[local] Abbreviation expected := (policy_selectors plan).

Lemma filter_split (f : RuleMessage -> bool) l :
  l ≡ₚ List.filter f l ++ List.filter (fun u => negb (f u)) l.
Proof.
  induction l as [|u l IH]; simpl; [done|]. destruct (f u); simpl.
  - by constructor.
  - rewrite <- Permutation_middle. by constructor.
Qed.

Lemma filter_perm (f : RuleMessage -> bool) l l' : l ≡ₚ l' -> List.filter f l ≡ₚ List.filter f l'.
Proof.
  induction 1 as [|u l1 l2 _ IH|u v l|? ? ? _ IH1 _ IH2]; simpl.
  - done.
  - destruct (f u); by rewrite ?IH.
  - destruct (f u), (f v); try done. constructor.
  - by rewrite IH1.
Qed.

Lemma filter_all (f : RuleMessage -> bool) l : Forall (fun u => f u = true) l -> List.filter f l = l.
Proof. induction 1 as [|u l Hu _ IH]; simpl; [done|]. by rewrite Hu, IH. Qed.

Lemma filter_none (f : RuleMessage -> bool) l : Forall (fun u => f u = false) l -> List.filter f l = [].
Proof. induction 1 as [|u l Hu _ IH]; simpl; [done|]. by rewrite Hu. Qed.

Lemma filter_Forall (f : RuleMessage -> bool) l : Forall (fun u => f u = true) (List.filter f l).
Proof. apply Forall_forall. intros u. rewrite list_elem_of_In, List.filter_In. tauto. Qed.

(** The rules of the dump are kept, once per expected selector, or stale. *)
Record sorted_rules (found : list RuleMessage) (present : list (option Ipv4Prefix * Ipv4Prefix))
    (stale kept : list RuleMessage) : Prop := {
  sorted_perm : found ≡ₚ kept ++ stale;
  sorted_kept : map policy_rule_selector kept ≡ₚ map Some present;
  sorted_nodup : NoDup present;
  sorted_present v : v ∈ present -> v ∈ expected;
  sorted_all u v : u ∈ found -> policy_rule_selector u = Some v -> v ∈ expected -> v ∈ present;
}.

Lemma sort_rules found :
  exists present stale kept, fold_left (sort_rule expected) found ([], []) = (present, stale) /\
    sorted_rules found present stale kept.
Proof.
  induction found as [|u found IH] using rev_ind.
  { exists [], [], []. split; [done|]. split; simpl; [done|done|constructor|by intros v ?%elem_of_nil|].
    by intros u v ?%elem_of_nil. }
  destruct IH as (present & stale & kept & Hf & [H1 H2 H3 H4 H5]).
  rewrite fold_left_app, Hf. simpl.
  assert (Hstale : (forall v, policy_rule_selector u = Some v -> v ∈ expected -> v ∈ present) ->
            sorted_rules (found ++ [u]) present (stale ++ [u]) kept).
  { intros Hu. split; [by rewrite H1, (app_assoc kept)|done|done|done|].
    intros x v [Hx| ->%list_elem_of_singleton]%elem_of_app; [by apply H5|by apply Hu]. }
  destruct (policy_rule_selector u) as [v|] eqn:Ev.
  2:{ exists present, (stale ++ [u]), kept. split; [done|]. by apply Hstale. }
  destruct (bool_decide (v ∈ expected) && negb (bool_decide (v ∈ present))) eqn:E.
  - rewrite andb_true_iff, negb_true_iff, bool_decide_eq_true, bool_decide_eq_false in E.
    destruct E as [E1 E2]. exists (v :: present), stale, (u :: kept). split; [done|]. split.
    + rewrite H1, <- Permutation_cons_append. done.
    + simpl. by rewrite Ev, H2.
    + by constructor.
    + intros w [->|?]%elem_of_cons; [done|by apply H4].
    + intros x w [Hx| ->%list_elem_of_singleton]%elem_of_app Hw Hex.
      * right. by apply (H5 x).
      * rewrite Ev in Hw. simplify_eq. left.
  - exists present, (stale ++ [u]), kept. split; [done|]. apply Hstale. intros w [= <-] Hex.
    rewrite andb_false_iff, negb_false_iff, bool_decide_eq_true, bool_decide_eq_false in E. tauto.
Qed.

Lemma steers_owned v u :
  steers (route_table plan) (policy_priority plan) v u ->
  own u = true /\ policy_rule_selector u = Some v.
Proof.
  intros (H1 & H2 & H3). split; [|done]. unfold owned_rule. by rewrite !bool_decide_eq_true_2.
Qed.

(** Rules that steer exactly these selectors. *)
Definition steer_all (l : list (option Ipv4Prefix * Ipv4Prefix)) (us : list RuleMessage) : Prop :=
  Forall2 (steers (route_table plan) (policy_priority plan)) l us.

Lemma steer_all_owned l us :
  steer_all l us -> Forall (fun u => own u = true) us /\ map policy_rule_selector us = map Some l.
Proof.
  induction 1 as [|v u l us [Ho Hs]%steers_owned _ [IH1 IH2]]; [done|].
  split; [by constructor|]. simpl. by rewrite Hs, IH2.
Qed.

(** The missing selectors are added; what was there stays. *)
Lemma wp_add_rules l k0 present stale kept :
  sorted_rules (List.filter own (rules k0)) present stale kept ->
  NoDup l -> (forall v, v ∈ l -> (v ∈ expected) /\ (v ∉ present)) ->
  wp (for_each (add_policy_rule plan) l)
    (fun res k => exists done us, steer_all done us /\ (rules k ≡ₚ us ++ rules k0) /\
       (res = Ok tt -> done ≡ₚ l)) k0.
Proof.
  intros [H1 _ _ _ H5] Hnd Hl.
  apply (wp_for_each (fun done k => exists us, steer_all done us /\ (rules k ≡ₚ us ++ rules k0))).
  - exists []. split; [constructor|done].
  - intros done v rest k -> (us & Hus & Hk). apply wp_tolerate, wp_intro. intros res k' Hrun.
    apply rule_add_spec in Hrun as [[Hsame Hex]|(u & Hu & Hk')].
    + assert (Hno : ~ exists u, u ∈ rules k /\ steers (route_table plan) (policy_priority plan) v u).
      { intros (u & Hin & Hst). pose proof (steers_owned v u Hst) as [Ho Hs].
        rewrite Hk in Hin. apply elem_of_app in Hin as [Hin|Hin].
        - apply steer_all_owned in Hus as [_ Hm].
          assert (Hv : Some v ∈ map policy_rule_selector us)
            by (rewrite <- Hs; by apply list_elem_of_fmap_2).
          rewrite Hm in Hv. apply list_elem_of_fmap in Hv as (? & [= <-] & Hv).
          apply NoDup_app in Hnd as (_ & Hd & _). apply (Hd v Hv). left.
        - destruct (Hl v) as [Hve Hvp]; [set_solver|]. apply Hvp, (H5 u); [|done..].
          rewrite list_elem_of_In, List.filter_In, <- list_elem_of_In. done. }
      assert (Hres : res <> Ok tt /\ res <> Err (Some EEXIST)).
      { split; intros ->; apply Hno, Hex; auto. }
      destruct Hres as [Hr1 Hr2]. destruct res as [[]|e]; [done|].
      unfold add_is_idempotent. case_bool_decide; [by subst|].
      exists done, us. rewrite Hsame. done.
    + assert (Hgo : exists us', steer_all (done ++ [v]) us' /\ (rules k' ≡ₚ us' ++ rules k0)).
      { exists (us ++ [u]). split; [apply Forall2_app; [done|]; constructor; [done|constructor]|].
        rewrite Hk', Hk, <- app_assoc. simpl. by rewrite <- Permutation_middle. }
      destruct res as [[]|e]; [done|]. case_match; [done|].
      destruct Hgo as (us' & ? & ?). by exists (done ++ [v]), us'.
  - intros k (us & ? & ?). exists l, us. done.
Qed.

(** Stale rules are deleted, each of its copies once. *)
Lemma wp_delete_stale_rules stale others k0 :
  rules k0 ≡ₚ stale ++ others ->
  wp (for_each (fun u => tolerate object_missing_is_idempotent (rule_del u)) stale)
    (fun res k => exists rest, (rest ⊆+ stale) /\ (rules k ≡ₚ rest ++ others) /\
       (res = Ok tt -> rest = [])) k0.
Proof.
  intros H0.
  apply (wp_for_each (fun done k => forall rest, stale = done ++ rest -> rules k ≡ₚ rest ++ others)).
  - by intros rest ->.
  - intros done u rest k -> Hk. specialize (Hk (u :: rest) eq_refl). simpl in Hk.
    assert (Hsub : rest ⊆+ done ++ u :: rest) by (apply submseteq_inserts_l, submseteq_cons, reflexivity).
    apply wp_tolerate, wp_intro. intros res k' Hrun.
    assert (Hgo : rules k' ≡ₚ rest ++ others ->
              forall rest', done ++ u :: rest = (done ++ [u]) ++ rest' -> rules k' ≡ₚ rest' ++ others).
    { intros Hp rest'. rewrite <- app_assoc. by intros [= <-]%app_inv_head. }
    apply rule_del_spec in Hrun as [(Hn & Hs & Hm)|Hp].
    + destruct res as [[]|e]; [done|]. destruct (object_missing_is_idempotent e) eqn:Ee.
      * destruct (Hm e eq_refl Ee). rewrite Hk. left.
      * exists (u :: rest). split; [apply submseteq_inserts_l; reflexivity|]. by rewrite Hs.
    + assert (Hk' : rules k' ≡ₚ rest ++ others).
      { apply (Permutation_cons_inv (a := u)). by rewrite <- Hp. }
      destruct res as [[]|e]; [by apply Hgo|]. case_match; [by apply Hgo|]. by exists rest.
  - intros k Hk. exists []. split; [apply submseteq_nil_l|]. split; [|done].
    apply Hk. by rewrite app_nil_r.
Qed.

Lemma wp_policy_rules k :
  wp (reconcile_policy_rules plan)
    (fun res k' =>
       (List.filter (fun u => negb (own u)) (rules k') ≡ₚ
          List.filter (fun u => negb (own u)) (rules k)) /\
       (forall v u, v ∈ expected -> u ∈ rules k -> own u = true -> policy_rule_selector u = Some v ->
          exists u', u' ∈ rules k' /\ own u' = true /\ policy_rule_selector u' = Some v) /\
       (res = Ok tt -> map policy_rule_selector (List.filter own (rules k'))
                         ≡ₚ map Some (remove_dups expected))) k.
Proof.
  unfold reconcile_policy_rules, find_policy_rules.
  apply wp_mbind, wp_mbind, wp_gets, wp_mbind, wp_lift.
  destruct (collect (rule_get k)) as [found|e] eqn:Hc; [|by split_and!; eauto].
  apply rule_get_sound in Hc as ->. apply wp_mret.
  destruct (sort_rules (List.filter own (rules k))) as (present & stale & kept & Hf & Hs).
  rewrite Hf. pose proof Hs as [S1 S2 S3 S4 S5].
  set (others := List.filter (fun u => negb (own u)) (rules k)).
  assert (Hall : rules k ≡ₚ kept ++ stale ++ others).
  { rewrite (filter_split own (rules k)) at 1. by rewrite S1, <- app_assoc. }
  assert (Hown : Forall (fun u => own u = true) (kept ++ stale)).
  { apply (Permutation_Forall S1), filter_Forall. }
  apply Forall_app in Hown as [Hkept Hstale].
  (* every outcome leaves added rules, the kept ones, some stale ones and the others *)
  assert (Hout : forall l us rest k', steer_all l us -> rest ⊆+ stale ->
            rules k' ≡ₚ us ++ kept ++ rest ++ others ->
            (List.filter (fun u => negb (own u)) (rules k') ≡ₚ others) /\
            (forall v u, v ∈ expected -> u ∈ rules k -> own u = true ->
               policy_rule_selector u = Some v ->
               exists u', u' ∈ rules k' /\ own u' = true /\ policy_rule_selector u' = Some v) /\
            (List.filter own (rules k') ≡ₚ us ++ kept ++ rest)).
  { intros l us rest k' [Hus _]%steer_all_owned Hrest Hk'.
    assert (Hrown : Forall (fun u => own u = true) rest).
    { apply submseteq_Permutation in Hrest as (more & Hp). rewrite Hp in Hstale.
      by apply Forall_app in Hstale as [? _]. }
    assert (Hn : forall us', Forall (fun u => own u = true) us' ->
              List.filter (fun u => negb (own u)) us' = []).
    { intros us' Hus'. apply filter_none. eapply Forall_impl; [exact Hus'|].
      intros u Hu. cbv beta in Hu |- *. by rewrite Hu. }
    split_and!.
    - rewrite (filter_perm _ _ _ Hk'), !List.filter_app, !Hn by done. simpl.
      rewrite filter_all by apply filter_Forall. done.
    - intros v u Hv Hu Ho Hsel.
      assert (Hp : Some v ∈ map policy_rule_selector kept).
      { rewrite S2. apply list_elem_of_fmap_2, (S5 u); [|done..].
        rewrite list_elem_of_In, List.filter_In, <- list_elem_of_In. done. }
      apply list_elem_of_fmap in Hp as (u' & Hsel' & Hu'). exists u'. split_and!; [|by
        apply (proj1 (Forall_forall _ _) Hkept)|done].
      rewrite Hk'. set_solver.
    - rewrite (filter_perm _ _ _ Hk'), !List.filter_app.
      rewrite (filter_all own us), (filter_all own kept), (filter_all own rest) by done.
      rewrite (filter_none own others); [by rewrite app_nil_r|].
      eapply Forall_impl; [apply filter_Forall|]. intros u. cbv beta. by rewrite negb_true_iff. }
  set (missing := selector_order _).
  assert (Hmiss : forall v, v ∈ missing <-> (v ∈ expected) /\ (v ∉ present)).
  { intros v. unfold missing. rewrite (selector_order_perm (K := K)).
    rewrite list_elem_of_In, List.filter_In, <- list_elem_of_In, elem_of_remove_dups.
    by rewrite negb_true_iff, bool_decide_eq_false. }
  assert (Hnd : NoDup missing).
  { unfold missing. rewrite (selector_order_perm (K := K)). apply NoDup_ListNoDup.
    apply List.NoDup_filter, NoDup_ListNoDup, NoDup_remove_dups. }
  apply wp_mbind. eapply wp_mono; [by apply (wp_add_rules missing k present stale kept); [..|apply Hmiss]|].
  intros res1 k1 (l1 & us & Hus & Hk1 & Hl1).
  assert (Hk1' : rules k1 ≡ₚ us ++ kept ++ stale ++ others) by (by rewrite Hk1, Hall).
  destruct res1 as [[]|e].
  2:{ destruct (Hout l1 us stale k1) as (? & ? & _); [done..|]. split_and!; done. }
  specialize (Hl1 eq_refl).
  eapply wp_mono; [apply (wp_delete_stale_rules stale (us ++ kept ++ others))|].
  { rewrite Hk1'. solve_Permutation. }
  intros res2 k2 (rest & Hrest & Hk2 & Hr2).
  destruct (Hout l1 us rest k2 Hus Hrest) as (O1 & O2 & O3); [rewrite Hk2; solve_Permutation|].
  split_and!; [done|done|]. intros Hres. rewrite (Permutation_map _ O3), (Hr2 Hres), app_nil_r.
  rewrite map_app, S2. apply steer_all_owned in Hus as [_ ->]. rewrite <- map_app.
  apply Permutation_map. rewrite Hl1. apply NoDup_Permutation.
  - apply NoDup_app. split_and!; [done| |done]. by intros v [_ ?]%Hmiss.
  - apply NoDup_remove_dups.
  - intros v. rewrite elem_of_app, elem_of_remove_dups, Hmiss. split; [intros [[]|]; auto|].
    intros Hv. destruct (decide (v ∈ present)); auto.
Qed.
End Rules.

(** ** Cleanup *)

Section Cleanup.
Context (plan : LinuxNetworkPlan).

#[local] Abbreviation T := (route_table plan).

(** The routes that preflight tolerates in the table. *)
Definition residual (r : RouteMessage) : Prop :=
  in_table T r = true /\ is_owned_residual_route r plan = true.

Lemma residual_link index p r :
  p ∈ remote_routes plan -> realizes (bare_link_route plan index p) r -> residual r.
Proof.
  intros Hp (H1 & H2 & H3 & H4 & [H5 _] & _). split; [done|]. unfold is_owned_residual_route.
  simpl in *. rewrite H2, H3, H4, H5. simpl. by rewrite bool_decide_eq_true_2.
Qed.

Lemma deletable_residual r : deletable plan (cleanup_throw_prefixes plan) r = true -> residual r.
Proof.
  unfold deletable, residual, is_owned_residual_route. rewrite !andb_true_iff.
  intros [[[H1 H2] H3] H4]. split; [done|]. rewrite H3. simpl.
  destruct (message_prefix r) as [p|]; [|done]. case_bool_decide as Ht; [done|].
  simpl in H2. by rewrite H2.
Qed.

Lemma residual_cases r :
  residual r ->
  deletable plan (cleanup_throw_prefixes plan) r = true \/
  (route_type r = RtUnicast /\ forall i, oif r = Some i ->
     exists p, p ∈ remote_routes plan /\ realizes (bare_link_route plan i p) r).
Proof.
  intros [H1 H2]. unfold is_owned_residual_route, deletable in *. rewrite H1.
  destruct (is_static r) eqn:Es; [simpl in *|done].
  destruct (message_prefix r) as [p|] eqn:Ep; [|done].
  destruct (bool_decide (route_type r = RtThrow)) eqn:Et; [by left|]. simpl.
  destruct (bool_decide (route_type r = RtUnreachable) || bool_decide (route_type r = RtBlackHole));
    [by left|].
  right. rewrite !andb_true_iff, !bool_decide_eq_true in H2. destruct H2 as [[Hu Hl] Hp].
  split; [done|]. intros i Hi. exists p. by split_and!.
Qed.

(** Only residual routes disappear. *)
Definition only_residual_lost (k k' : K) : Prop :=
  (forall x, held k' x -> held k x) /\ (forall x, held k x -> ~ residual x -> held k' x).

Lemma only_residual_refl k : only_residual_lost k k.
Proof. by split. Qed.

Lemma only_residual_same k k1 k2 :
  only_residual_lost k k1 -> (forall x, held k2 x <-> held k1 x) -> only_residual_lost k k2.
Proof. intros [H1 H2] Hs. split; intros x; rewrite Hs; auto. Qed.

Lemma only_residual_drop k k1 k2 y :
  only_residual_lost k k1 -> residual y -> (forall x, held k2 x <-> held k1 x /\ x <> y) ->
  only_residual_lost k k2.
Proof.
  intros [H1 H2] Hy Hs. split; intros x; rewrite Hs; [by intros [? _]; apply H1|].
  intros Hx Hn. split; [by apply H2|]. by intros ->.
Qed.

Lemma unique_sub k k' : unique k T -> (forall x, held k' x -> held k x) -> unique k' T.
Proof. intros Hu Hs p x y Hx Hy. apply Hu; by apply Hs. Qed.

Lemma wp_delete_links index l k :
  unique k T -> (forall p, p ∈ l -> p ∈ remote_routes plan) ->
  wp (for_each (fun '(p, index) => tolerate route_delete_is_idempotent
        (route_del_request (bare_link_route plan index p))) (map (fun p => (p, index)) l))
    (fun res k' => only_residual_lost k k' /\
       (res = Ok tt -> forall p x, p ∈ l -> held k' x -> ~ realizes (bare_link_route plan index p) x)) k.
Proof.
  intros Hu Hl.
  apply (wp_for_each (fun done k' => only_residual_lost k k' /\
    forall p x, (p, index) ∈ done -> held k' x -> ~ realizes (bare_link_route plan index p) x)).
  - split; [apply only_residual_refl|]. by intros p x ?%elem_of_nil.
  - intros done [p i] rest k1 Hsplit [Hlost Hdone].
    assert (Hp : (p, i) ∈ map (fun p => (p, index)) l) by (rewrite Hsplit; set_solver).
    apply list_elem_of_fmap in Hp as (? & [= <- ->] & Hp).
    apply wp_tolerate, wp_intro. intros res k2 Hrun.
    apply route_del_request_spec in Hrun as [(Hn & Hs & Hm)|(y & Hy & Hr & Hh)].
    + assert (Hlost2 : only_residual_lost k k2) by by eapply only_residual_same.
      destruct res as [[]|e]; [done|]. destruct (route_delete_is_idempotent e) eqn:Ee; [|by split].
      split; [done|]. intros q x [Hq|Hq]%elem_of_app Hx%Hs; [by apply Hdone|].
      apply list_elem_of_singleton in Hq as [= ->]. by apply (Hm e).
    + assert (Hlost2 : only_residual_lost k k2).
      { eapply only_residual_drop; [done| |done]. by eapply residual_link; [apply Hl|]. }
      assert (Hgo : only_residual_lost k k2 /\ forall q x, (q, index) ∈ done ++ [(p, index)] ->
                held k2 x -> ~ realizes (bare_link_route plan index q) x).
      { split; [done|]. intros q x [Hq|Hq]%elem_of_app [Hx Hxy]%Hh; [by apply Hdone|].
        apply list_elem_of_singleton in Hq as [= ->]. intros Hrx. apply Hxy.
        destruct Hr as (R1 & R2 & _), Hrx as (X1 & X2 & _).
        apply (Hu p); [by apply (proj1 Hlost)..|by split|by split]. }
      destruct res as [[]|e]; [done|]. case_match; [done|]. by split.
  - intros k' [H1 H2]. split; [done|]. intros _ p x Hp. apply H2. by apply (list_elem_of_fmap_2 (fun p => (p, index))).
Qed.

Lemma wp_delete_stream stream k0 k :
  only_residual_lost k0 k ->
  wp (delete_stream (deletable plan (cleanup_throw_prefixes plan)) stream)
    (fun res k' => only_residual_lost k0 k' /\ (forall x, held k' x -> held k x) /\
       (res = Ok tt -> (forall e, Err e ∉ stream) /\
          forall r, Ok r ∈ stream -> deletable plan (cleanup_throw_prefixes plan) r = true ->
            ~ held k' r)) k.
Proof.
  revert k. induction stream as [|[r|e] rest IH]; intros k Hk; simpl.
  - apply wp_mret. split_and!; [done|done|]. intros _. split; intros ? ?%elem_of_nil; done.
  - apply wp_mbind.
    assert (Hcont : forall k1, only_residual_lost k0 k1 -> (forall x, held k1 x -> held k x) ->
              (deletable plan (cleanup_throw_prefixes plan) r = true -> ~ held k1 r) ->
              wp (delete_stream (deletable plan (cleanup_throw_prefixes plan)) rest)
                (fun res k' => only_residual_lost k0 k' /\ (forall x, held k' x -> held k x) /\
                   (res = Ok tt -> (forall e, Err e ∉ Ok r :: rest) /\
                      forall r', Ok r' ∈ Ok r :: rest ->
                        deletable plan (cleanup_throw_prefixes plan) r' = true -> ~ held k' r')) k1).
    { intros k1 Hk1 Hsub Hr. eapply wp_mono; [by apply IH|].
      intros res k2 (H1 & H2 & H3). split_and!; [done|auto|]. intros Hres.
      destruct (H3 Hres) as [H4 H5]. split.
      - intros e [[=]|He]%elem_of_cons. by apply (H4 e).
      - intros r' [[= ->]|Hr']%elem_of_cons Hd; [|by apply H5].
        intros Hh. by apply Hr; [|apply H2]. }
    destruct (deletable plan (cleanup_throw_prefixes plan) r) eqn:Hd.
    2:{ apply wp_mret, Hcont; [done|done|by intros]. }
    apply wp_tolerate, wp_intro. intros res k1 Hrun.
    apply route_del_spec in Hrun as [(Hn & Hs & Hm)|(y & Hy & Hyr & Y1 & Y2 & Y3 & Y4 & Hh)].
    + assert (Hk1 : only_residual_lost k0 k1) by by eapply only_residual_same.
      assert (Hsub : forall x, held k1 x -> held k x) by (intros x; by rewrite Hs).
      destruct res as [[]|e]; [done|]. destruct (route_delete_is_idempotent e) eqn:Ee; [|by split_and!].
      apply Hcont; [done|done|]. intros _ Hr%Hs. by apply (Hm e).
    + assert (Hyd : residual y).
      { apply deletable_residual. revert Hd. unfold deletable. by rewrite Y1, Y2, Y3, Y4. }
      assert (Hk1 : only_residual_lost k0 k1) by by eapply only_residual_drop.
      assert (Hsub : forall x, held k1 x -> held k x) by (intros x; rewrite Hh; tauto).
      assert (Hr : true = true -> ~ held k1 r).
      { intros _ [Hr1 Hr2]%Hh. by rewrite Hyr in Hr2. }
      destruct res as [[]|e]; [by apply Hcont|]. case_match; [by apply Hcont|by split_and!].
  - apply wp_mfail. split_and!; done.
Qed.

Lemma wp_delete_routes k link :
  unique k T -> candy_link k = (Ok link, k) ->
  wp (delete_routes plan)
    (fun res k' => only_residual_lost k k' /\
       (res = Ok tt -> forall r, held k' r -> residual r ->
          route_type r = RtUnicast /\
          forall l, link = Some l -> oif r <> Some (link_header_index l))) k.
Proof.
  intros Hu Hlink. unfold delete_routes. apply wp_mbind, wp_intro. intros r0 k0 Hrun.
  rewrite Hlink in Hrun. injection Hrun as <- <-.
  (* the two loops, for the link routes of the interface *)
  assert (Hloops : forall targets : list (Ipv4Prefix * Z),
    wp (for_each (fun '(p, index) => tolerate route_delete_is_idempotent
          (route_del_request (bare_link_route plan index p))) targets)
      (fun res k' => only_residual_lost k k' /\ (res = Ok tt -> forall r p i, held k' r ->
         (p, i) ∈ targets -> ~ realizes (bare_link_route plan i p) r)) k ->
    (forall l, link = Some l -> targets = map (fun p => (p, link_header_index l)) (remote_routes plan)) ->
    wp (do* for_each (fun '(p, index) => tolerate route_delete_is_idempotent
          (route_del_request (bare_link_route plan index p))) targets in
        let* stream := gets (route_get T) in
        delete_stream (deletable plan (cleanup_throw_prefixes plan)) stream)
      (fun res k' => only_residual_lost k k' /\
         (res = Ok tt -> forall r, held k' r -> residual r ->
            route_type r = RtUnicast /\
            forall l, link = Some l -> oif r <> Some (link_header_index l))) k).
  { intros targets Hw Ht. apply wp_mbind. eapply wp_mono; [exact Hw|].
    intros res1 k1 [Hk1 Hr1]. destruct res1 as [[]|e]; [|by split]. specialize (Hr1 eq_refl).
    apply wp_mbind, wp_gets. eapply wp_mono; [by apply (wp_delete_stream _ k)|].
    intros res2 k2 (H1 & H2 & H3). split; [done|]. intros Hres r Hr Hres_r.
    destruct (H3 Hres) as [H4 H5].
    destruct (residual_cases r Hres_r) as [Hd|[Hun Hoif]].
    - destruct (H5 r); [|done..]. apply route_get_complete; [done|by apply H2|apply Hres_r].
    - split; [done|]. intros l Hl Ho. destruct (Hoif _ Ho) as (p & Hp & Hz).
      apply (Hr1 r p (link_header_index l)); [by apply H2| |done].
      rewrite (Ht l Hl). by apply (list_elem_of_fmap_2 (fun p => (p, link_header_index l))). }
  unfold route_cleanup_targets. destruct link as [l|].
  - destruct (link_is_tun l); [|by split].
    apply wp_mbind, wp_mret, Hloops; [|by intros ? [= <-]].
    eapply wp_mono; [by apply (wp_delete_links (link_header_index l) (remote_routes plan))|].
    intros res k' [H1 H2]. split; [done|]. intros Hres r p i Hr Hin.
    apply list_elem_of_fmap in Hin as (q & [= -> ->] & Hq). by apply (H2 Hres).
  - apply wp_mbind, wp_mret, Hloops; [|done]. simpl. apply wp_mret.
    split; [apply only_residual_refl|]. by intros _ r p i _ ?%elem_of_nil.
Qed.
End Cleanup.

(** ** What the backend guarantees *)

(** Route reconciliation: when every destination of the table holds at most one route,
    a call that succeeds leaves the exact table: a throw route for every local prefix,
    underlay exclusion and failed prefix, a link route through the tunnel with the plan's
    metrics for every other remote prefix. Whatever its outcome, the call leaves the
    routes of every other destination and of every other table as they were (so the route
    of a prefix that a new declaration no longer names stays installed). *)
Theorem reconcile_routes_exact plan failed k index res k' :
  unique k (route_table plan) -> (link_index k).1 = Ok index ->
  reconcile_plan_routes plan failed k = (res, k') ->
  (forall r, (forall p, p ∈ healthy_prefixes plan failed ++ throw_prefixes plan ++ failed ->
                ~ placed (route_table plan) p r) -> held k' r <-> held k r) /\
  (res = Ok tt ->
   unique k' (route_table plan) /\
   (forall p, p ∈ throw_prefixes plan ++ failed ->
      exists r, held k' r /\ placed (route_table plan) p r /\ is_static r = true /\
        route_type r = RtThrow) /\
   (forall p, p ∈ remote_routes plan -> p ∉ throw_prefixes plan ++ failed ->
      exists r, held k' r /\ placed (route_table plan) p r /\ is_static r = true /\
        route_type r = RtUnicast /\ is_link r = true /\ oif r = Some index /\
        route_metrics_match r plan = true)).
Proof.
  intros Hu Hl Hrun. destruct (wp_run _ _ _ _ _ (wp_reconcile plan failed k index Hu Hl) Hrun)
    as [Hf Hok]. split; [exact Hf|]. intros Hres. destruct (Hok Hres) as (H1 & H2 & H3).
  split_and!; [done|exact H2|]. intros p Hp Hn. apply H3; [|done].
  unfold healthy_prefixes. rewrite list_elem_of_In, List.filter_In, <- list_elem_of_In.
  split; [done|]. rewrite negb_true_iff, bool_decide_eq_false. set_solver.
Qed.

(** Policy rules: a reconciliation that succeeds leaves exactly one rule of the plan's
    priority and table per expected selector. Whatever its outcome, rules of others stay,
    and no selector that was steered before is without a rule afterwards: new rules are
    added before stale ones are removed. *)
Theorem policy_rules_without_gap plan k res k' :
  reconcile_policy_rules plan k = (res, k') ->
  (List.filter (fun u => negb (owned_rule plan u)) (rules k') ≡ₚ
     List.filter (fun u => negb (owned_rule plan u)) (rules k)) /\
  (forall v u, v ∈ policy_selectors plan -> u ∈ rules k -> owned_rule plan u = true ->
     policy_rule_selector u = Some v ->
     exists u', u' ∈ rules k' /\ owned_rule plan u' = true /\ policy_rule_selector u' = Some v) /\
  (res = Ok tt ->
     map policy_rule_selector (List.filter (owned_rule plan) (rules k'))
       ≡ₚ map Some (remove_dups (policy_selectors plan))).
Proof. intros Hrun. exact (wp_run _ _ _ _ _ (wp_policy_rules plan k) Hrun). Qed.

(** Cleanup matches preflight: [delete_routes] never removes a route that preflight would
    not tolerate as a residue of the plan, and when it succeeds the only residues left are
    link routes of other interfaces, or of an interface that is gone. *)
Theorem cleanup_covers_preflight plan k link res k' :
  unique k (route_table plan) -> candy_link k = (Ok link, k) ->
  delete_routes plan k = (res, k') ->
  (forall r, held k' r -> held k r) /\
  (forall r, held k r ->
     ~ (in_table (route_table plan) r = true /\ is_owned_residual_route r plan = true) -> held k' r) /\
  (res = Ok tt -> forall r, held k' r -> in_table (route_table plan) r = true ->
     is_owned_residual_route r plan = true ->
     route_type r = RtUnicast /\ forall l, link = Some l -> oif r <> Some (link_header_index l)).
Proof.
  intros Hu Hl Hrun. destruct (wp_run _ _ _ _ _ (wp_delete_routes plan k link Hu Hl) Hrun)
    as [[H1 H2] H3]. split_and!; [done|exact H2|]. intros Hres r Hr Ht Ho. by apply H3.
Qed.
End Backend.
