(* ===== verification/LinuxTables.v ===== *)
(** * A kernel that obeys the netlink laws

    Links, routes and rules as lists, with the answers netlink documents; the witnesses of
    the backend's theorems run on it, and so does a residue that prepare leaves. *)
From stdpp Require Import base tactics list numbers option sorting strings pretty sets.
From Stdlib Require Import ZArith Lia.
From S2P Require Import Prelude Ipv4 Wire Proto ProtoFacts Network Linux LinuxFacts.

#[local] Open Scope Z_scope.

Record Tables : Type := mkTables {
  links : list LinkMessage;
  route_list : list RouteMessage;
  rule_list : list RuleMessage;
}.

Definition with_routes (l : list RouteMessage) (k : Tables) : Tables :=
  mkTables (links k) l (rule_list k).
Definition with_rules (l : list RuleMessage) (k : Tables) : Tables :=
  mkTables (links k) (route_list k) l.

Definition EINVAL : NetlinkError := Some 22.

(** The message a dump shows for a route that was requested. *)
Definition message_of (rq : RouteRequest) : RouteMessage :=
  mkRoute 252 true (bool_decide (is_Some (rq_oif rq))) (rq_type rq) (prefix_len (rq_prefix rq))
    ([RaTable (rq_table rq); RaDestination (network (rq_prefix rq))]
     ++ match rq_oif rq with Some i => [RaOif i] | None => [] end
     ++ match rq_metrics rq with Some (m, a) => [RaMetrics [MtMtu m; MtAdvmss a]] | None => [] end).

Definition rule_of (t priority : Z) (selector : option Ipv4Prefix * Ipv4Prefix) : RuleMessage :=
  mkRule 0 true (match selector.1 with Some s => prefix_len s | None => 0 end)
    (prefix_len selector.2)
    ([UaPriority priority; UaTable t]
     ++ match selector.1 with Some s => [UaSource (network s)] | None => [] end
     ++ [UaDestination (network selector.2)]).

#[export] Instance placed_dec t p r : Decision (placed t p r).
Proof. unfold placed. apply _. Defined.
#[export] Instance realizes_dec rq r : Decision (realizes rq r).
Proof. unfold realizes. destruct (rq_oif rq), (rq_metrics rq) as [[]|]; apply _. Defined.
#[export] Instance steers_dec t priority selector u : Decision (steers t priority selector u).
Proof. unfold steers. apply _. Defined.

Definition drop_route (y : RouteMessage) (k : Tables) : Tables :=
  with_routes (filter (fun x => x <> y) (route_list k)) k.

(** The list without the first copy of [u]. *)
Fixpoint remove_rule (u : RuleMessage) (l : list RuleMessage) : option (list RuleMessage) :=
  match l with
  | [] => None
  | v :: rest =>
      if bool_decide (v = u) then Some rest
      else match remove_rule u rest with Some rest => Some (v :: rest) | None => None end
  end.

Lemma remove_rule_spec u l :
  match remove_rule u l with Some l' => l ≡ₚ u :: l' | None => u ∉ l end.
Proof.
  induction l as [|v l IH]; simpl; [apply not_elem_of_nil|].
  case_bool_decide as Hv; [by subst|]. destruct (remove_rule u l) as [l'|].
  - by rewrite IH, (Permutation_swap u v).
  - apply not_elem_of_cons. by split.
Qed.

#[export] Instance tables_netlink : Netlink Tables := {
  link_get _ k := map Ok (links k);
  route_get t k := map Ok (filter (fun r => in_table t r = true) (route_list k));
  route_add rq k :=
    if bool_decide (Exists (placed (rq_table rq) (rq_prefix rq)) (route_list k))
    then (Err (Some EEXIST), k)
    else if bool_decide (realizes rq (message_of rq))
    then (Ok tt, with_routes (message_of rq :: route_list k) k) else (Err EINVAL, k);
  route_replace rq k :=
    if bool_decide (realizes rq (message_of rq))
    then (Ok tt, with_routes (message_of rq ::
            filter (fun x => ~ placed (rq_table rq) (rq_prefix rq) x) (route_list k)) k)
    else (Err EINVAL, k);
  route_del r k :=
    if bool_decide (r ∈ route_list k) then (Ok tt, drop_route r k) else (Err (Some ESRCH), k);
  route_del_request rq k :=
    match filter (realizes rq) (route_list k) with
    | y :: _ => (Ok tt, drop_route y k)
    | [] => (Err (Some ESRCH), k)
    end;
  rule_get k := map Ok (rule_list k);
  rule_add t priority selector k :=
    if bool_decide (Exists (steers t priority selector) (rule_list k)) then (Err (Some EEXIST), k)
    else if bool_decide (steers t priority selector (rule_of t priority selector))
    then (Ok tt, with_rules (rule_of t priority selector :: rule_list k) k) else (Err EINVAL, k);
  rule_del u k :=
    match remove_rule u (rule_list k) with
    | Some l => (Ok tt, with_rules l k)
    | None => (Err (Some ESRCH), k)
    end;
  prefix_order l := l;
  selector_order l := l;
}.

Lemma drop_route_held y k x : x ∈ route_list (drop_route y k) <-> x ∈ route_list k /\ x <> y.
Proof. simpl. rewrite list_elem_of_filter. tauto. Qed.

#[export] Instance tables_laws : NetlinkLaws Tables.
Proof.
  refine {| held k r := r ∈ route_list k; rules := rule_list |}; simpl.
  - intros k t r (r' & [= <-] & Hr)%list_elem_of_fmap. by apply list_elem_of_filter in Hr as [_ ?].
  - intros k t r _ Hr Ht. apply (list_elem_of_fmap_2 Ok), list_elem_of_filter. done.
  - intros rq k res k' Hrun _. case_bool_decide as Hr; simplify_eq.
    + right. exists (message_of rq). split; [done|]. intros x. simpl.
      rewrite elem_of_cons, list_elem_of_filter. tauto.
    + by left.
  - intros rq k res k' Hrun. case_bool_decide; [simplify_eq; by left|].
    case_bool_decide; simplify_eq; [|by left]. right. exists (message_of rq). split; [done|].
    intros x. simpl. by rewrite elem_of_cons.
  - intros r k res k' Hrun. case_bool_decide as Hr; simplify_eq; [|left; by split_and!].
    right. exists r. split_and!; try done. intros x. apply drop_route_held.
  - intros rq k res k' Hrun. destruct (filter (realizes rq) (route_list k)) as [|y l] eqn:Hf;
      injection Hrun as <- <-.
    + left. split_and!; try done. intros e _ _ x Hx Hz.
      assert (Hin : x ∈ filter (realizes rq) (route_list k)) by by apply list_elem_of_filter.
      rewrite Hf in Hin. by apply elem_of_nil in Hin.
    + right. exists y. assert (Hin : y ∈ filter (realizes rq) (route_list k)) by (rewrite Hf; left).
      apply list_elem_of_filter in Hin as [Hz Hy]. split_and!; try done. intros x. apply drop_route_held.
  - intros k l Hl%collect_Ok. revert l Hl. induction (rule_list k) as [|u us IH]; intros [|u' l]; try done.
    simpl. intros [= -> Hl]. f_equal. by apply IH.
  - intros t priority selector k res k' Hrun. case_bool_decide as He; simplify_eq.
    { left. split; [done|]. intros _. by apply Exists_exists in He as (u & ? & ?); exists u. }
    case_bool_decide; simplify_eq; [right; by eexists|]. left. split; [done|]. by intros [|[=]].
  - intros u k res k' Hrun. pose proof (remove_rule_spec u (rule_list k)) as Hu.
    destruct (remove_rule u (rule_list k)) as [l|]; simplify_eq; [by right|].
    left. by split_and!.
  - done.
  - done.
Defined.

(** ** Witnesses *)

Definition plan_or_default (d : PrepareDeclaration) : LinuxNetworkPlan :=
  match compile d with
  | Ok plan => plan
  | Err _ => mkPlan "" 0 0 [] [] [] [] "" 0 0 false
  end.
Definition sample_plan : LinuxNetworkPlan := plan_or_default sample_declaration.

(** A remote prefix of the sample, withdrawn by an earlier run. *)
Definition withdrawn : Ipv4Prefix := sample_prefix 10 2 16.
Definition residue : RouteMessage := message_of (throw_route sample_plan withdrawn).
Definition residual_tables : Tables := mkTables [mkLink 7 true] [residue] [].

Lemma residual_unique : unique residual_tables (route_table sample_plan).
Proof.
  intros p x y Hx Hy _ _. change (x ∈ [residue]) in Hx. change (y ∈ [residue]) in Hy.
  apply list_elem_of_singleton in Hx, Hy. by subst.
Qed.

Lemma compile_spec_witness :
  exists plan, compile sample_declaration = Ok plan /\ 20000 <= policy_priority plan <= 20999.
Proof.
  destruct (proj2 (compile_spec sample_declaration)) as (plan & H & _ & _ & _ & Hp & _).
  - vm_compute. reflexivity.
  - exists plan. split; [exact H|exact Hp].
Defined.

Lemma reconcile_routes_exact_witness :
  exists r, held (reconcile_plan_routes sample_plan [] residual_tables).2 r /\
    placed 20001 withdrawn r /\ route_type r = RtUnicast /\ oif r = Some 7.
Proof.
  destruct (reconcile_routes_exact sample_plan [] residual_tables 7 (Ok tt)
    (reconcile_plan_routes sample_plan [] residual_tables).2) as [_ H].
  - exact residual_unique.
  - vm_compute. reflexivity.
  - vm_compute. reflexivity.
  - destruct H as (_ & _ & H); [reflexivity|]. destruct (H withdrawn) as (r & H1 & H2 & _ & H3 & _ & H4 & _).
    + apply (bool_decide_eq_true_1 (withdrawn ∈ remote_routes sample_plan)). vm_compute. reflexivity.
    + apply (bool_decide_eq_false_1 (withdrawn ∈ throw_prefixes sample_plan ++ [])).
      vm_compute. reflexivity.
    + exists r. split; [exact H1|]. split; [exact H2|]. split; [exact H3|exact H4].
Defined.

(** Two rules of the table: one expected selector, one stale. *)
Definition ruled_tables : Tables :=
  mkTables [mkLink 7 true] []
    [rule_of 20001 20001 (None, withdrawn); rule_of 20001 20001 (Some (sample_prefix 10 1 16), withdrawn)].

Lemma policy_rules_without_gap_witness :
  map policy_rule_selector
    (List.filter (owned_rule sample_plan) (rules (reconcile_policy_rules sample_plan ruled_tables).2))
  ≡ₚ map Some (remove_dups (policy_selectors sample_plan)).
Proof.
  destruct (policy_rules_without_gap sample_plan ruled_tables (Ok tt)
    (reconcile_policy_rules sample_plan ruled_tables).2) as (_ & _ & H).
  - vm_compute. reflexivity.
  - apply H. reflexivity.
Defined.

Lemma cleanup_covers_preflight_witness :
  forallb (fun r => negb (is_owned_residual_route r sample_plan))
    (route_list (delete_routes sample_plan residual_tables).2) = true /\
  (held (delete_routes sample_plan residual_tables).2 residue -> route_type residue = RtUnicast).
Proof.
  split; [vm_compute; reflexivity|]. intros Hr.
  destruct (cleanup_covers_preflight sample_plan residual_tables (Some (mkLink 7 true)) (Ok tt)
    (delete_routes sample_plan residual_tables).2) as (_ & _ & H).
  - exact residual_unique.
  - vm_compute. reflexivity.
  - vm_compute. reflexivity.
  - apply (H eq_refl residue Hr); vm_compute; reflexivity.
Defined.

(** ** A residue that preparation keeps *)

(** A finding: preflight tolerates the throw route that an earlier run left for a remote
    prefix, and [prepare_routes] reports success, but it only adds routes and takes
    "exists" for done: the throw route stays and the prefix bypasses the tunnel until a
    reconciliation. *)
Theorem prepare_keeps_residual_throw :
  (route_conflict sample_plan residual_tables).1 = Ok false /\
  (rules_conflict sample_plan residual_tables).1 = Ok false /\
  (linux_prepare_routes sample_declaration residual_tables).1 = Ok tt /\
  bool_decide (withdrawn ∈ remote_routes sample_plan) = true /\
  map route_type (filter (fun r => message_prefix r = Some withdrawn)
    (route_list (linux_prepare_routes sample_declaration residual_tables).2)) = [RtThrow] /\
  map route_type (filter (fun r => message_prefix r = Some withdrawn)
    (route_list (linux_reconcile_routes sample_declaration [] residual_tables).2)) = [RtUnicast].
Proof. split_and!; vm_compute; reflexivity. Qed.
