(* ===== verification/Client.v ===== *)
(** * The client of netd

    [NetdClient] of [candy-netd-client/src/lib.rs], over an interface for the socket, and
    [serve_authenticated_once] of [candy-netd/src/lib.rs] as one implementation of that
    interface: a peer connected to the service, one request at a time. *)
From stdpp Require Import base tactics list numbers option sorting.
From Stdlib Require Import ZArith Lia.
From S2P Require Import Prelude Ipv4 Wire Proto Session Network Service.

Inductive IpcError : Type :=
| IeIo
| IeSocket
| IeFrameLength
| IeProtocol (e : NetdProtocolError)
| IeDescriptorMismatch
| IeRequestIdExhausted
| IeRemote (code : ErrorCode)
| IeUnexpectedResponse
| IeInvalidTransition.

Inductive ClientPhase : Type := CpStopped | CpPrepared | CpActive | CpSuspended.

#[export] Instance ClientPhase_eq_dec : EqDecision ClientPhase.
Proof. solve_decision. Defined.

(** ** Frames on a socket *)

(** Connecting, and sending one frame for one frame and descriptors in return. *)
Class Socket (S : Type) := {
  connect : M S IpcError unit;
  converse : list Z -> M S IpcError (list Z * list Z);
}.

Definition expects_descriptor (body : ResponseBody) : bool :=
  match body with RsPrepared _ true => true | _ => false end.

(** The length check of [send_frame]. *)
Definition check_frame (payload : list Z) : Result IpcError unit :=
  if bool_decide (payload = []) || (MAX_NETD_FRAME_LEN <? Z.of_nat (length payload))
  then Err IeFrameLength else Ok tt.

(** [send_response]: the frame and the descriptors that leave with it. *)
Definition send_response (response : NetdResponse) (descriptor : option Z)
  : Result IpcError (list Z * list Z) :=
  if negb (Bool.eqb (expects_descriptor (body response)) (bool_decide (is_Some descriptor)))
  then Err IeDescriptorMismatch
  else
    let? payload := map_err IeProtocol (NetdResponse_encode response) in
    check? check_frame payload in
    Ok (payload, match descriptor with Some fd => [fd] | None => [] end).

(** [recv_response]; [descriptors.pop()] of at most one. *)
Definition recv_response (frame descriptors : list Z) : Result IpcError (NetdResponse * option Z) :=
  let? response := map_err IeProtocol (NetdResponse_decode frame) in
  if (1 <? Z.of_nat (length descriptors))
     || negb (Bool.eqb (expects_descriptor (body response)) (Z.of_nat (length descriptors) =? 1))
  then Err IeDescriptorMismatch
  else Ok (response, last descriptors).

(** ** The client *)

Section Client.
Context {S : Type} `{!Socket S}.

Record NetdClient : Type := mkClient {
  client_owner : LeaseOwner;
  next_request_id : option Z;
  client_phase : ClientPhase;
  socket : S;
}.

Definition ClientM (A : Type) : Type := M NetdClient IpcError A.

Definition NetdClient_new (owner : LeaseOwner) (s : S) : NetdClient :=
  mkClient owner (Some 1) CpStopped s.

Definition set_client_owner (v : LeaseOwner) (c : NetdClient) : NetdClient :=
  mkClient v (next_request_id c) (client_phase c) (socket c).
Definition set_next_id (v : option Z) (c : NetdClient) : NetdClient :=
  mkClient (client_owner c) v (client_phase c) (socket c).
Definition set_client_phase (v : ClientPhase) (c : NetdClient) : NetdClient :=
  mkClient (client_owner c) (next_request_id c) v (socket c).
Definition set_owner_generation (g : Z) (o : LeaseOwner) : LeaseOwner :=
  mkOwner (instance_id o) (pid o) g (lease_deadline_mono_ms o).

Definition on_socket {A} (m : M S IpcError A) : ClientM A :=
  fun c => let '(r, s) := m (socket c) in
           (r, mkClient (client_owner c) (next_request_id c) (client_phase c) s).

Definition u64_checked_add (a b : Z) : option Z := if a + b <? 2 ^ 64 then Some (a + b) else None.

Definition exchange (operation : NetdOperation) : ClientM (ResponseBody * option Z) :=
  let* c := gets id in
  let* request_id := lift (ok_or (next_request_id c) IeRequestIdExhausted) in
  let request := mkRequest request_id (client_owner c) operation in
  do* on_socket connect in
  let* payload := lift (map_err IeProtocol (NetdRequest_encode request)) in
  do* lift (check_frame payload) in
  let* received := on_socket (converse payload) in
  let* reply := lift (recv_response received.1 received.2) in
  let '(response, descriptor) := reply in
  do* modify (set_next_id (u64_checked_add request_id 1)) in
  if negb (response_id response =? request_id) then mfail IeUnexpectedResponse
  else match body response with
       | RsError code =>
           if bool_decide (is_Some descriptor) then mfail IeDescriptorMismatch
           else mfail (IeRemote code)
       | body => mret (body, descriptor)
       end.

Definition exchange_generation (operation : NetdOperation)
    (select : ResponseBody -> option Z) : ClientM Z :=
  let* reply := exchange operation in
  let '(body, descriptor) := reply in
  if bool_decide (is_Some descriptor) then mfail IeDescriptorMismatch
  else
    let* g := lift (ok_or (select body) IeUnexpectedResponse) in
    let* c := gets id in
    if negb (g =? generation (client_owner c)) then mfail IeUnexpectedResponse else mret g.

(** [if !phases.contains(self.phase) { return Err(InvalidTransition) }]. *)
Definition in_phase (phases : list ClientPhase) : ClientM unit :=
  let* c := gets id in
  if bool_decide (client_phase c ∈ phases) then mret tt else mfail IeInvalidTransition.

Definition client_prepare (declaration : PrepareDeclaration) : ClientM (Z * Z) :=
  do* in_phase [CpStopped] in
  let* reply := exchange (OpPrepare declaration) in
  let '(body, descriptor) := reply in
  match body with
  | RsPrepared g true =>
      let* c := gets id in
      if negb (g =? generation (client_owner c)) then mfail IeUnexpectedResponse
      else
        let* tun := lift (ok_or descriptor IeDescriptorMismatch) in
        do* modify (set_client_phase CpPrepared) in
        mret (g, tun)
  | _ => mfail IeUnexpectedResponse
  end.

Definition client_commit : ClientM Z :=
  do* in_phase [CpPrepared] in
  let* g := exchange_generation OpCommit
              (fun body => match body with RsCommitted g => Some g | _ => None end) in
  do* modify (set_client_phase CpActive) in
  mret g.

Definition client_rollback : ClientM Z :=
  do* in_phase [CpPrepared; CpActive; CpSuspended] in
  let* g := exchange_generation OpRollback
              (fun body => match body with RsRolledBack g => Some g | _ => None end) in
  do* modify (set_client_phase CpStopped) in
  mret g.

Definition client_set_failed_prefixes (prefixes : list Ipv4Prefix) : ClientM Z :=
  do* in_phase [CpActive; CpSuspended] in
  exchange_generation (OpWithdrawPrefixes prefixes)
    (fun body => match body with RsPrefixesWithdrawn g _ => Some g | _ => None end).

Definition client_renew_lease (deadline : Z) : ClientM Z :=
  let* c := gets id in
  if bool_decide (client_phase c = CpStopped) || (deadline =? 0) then mfail IeInvalidTransition
  else
    let previous := lease_deadline_mono_ms (client_owner c) in
    do* modify (fun c => set_client_owner (set_lease_deadline deadline (client_owner c)) c) in
    let* result := attempt (exchange_generation OpLeaseRenew
                     (fun body => match body with RsLeaseRenewed g => Some g | _ => None end)) in
    do* (if is_err result
         then modify (fun c => set_client_owner (set_lease_deadline previous (client_owner c)) c)
         else mret tt) in
    lift result.

Definition client_update_mtu (mtu : Z) : ClientM Z :=
  do* in_phase [CpActive] in
  let* reply := exchange (OpMtuUpdate mtu) in
  let '(body, descriptor) := reply in
  if bool_decide (is_Some descriptor) then mfail IeDescriptorMismatch
  else match body with
       | RsMtuUpdated g effective_mtu =>
           let* c := gets id in
           if negb (g =? generation (client_owner c)) then mfail IeUnexpectedResponse
           else mret effective_mtu
       | _ => mfail IeUnexpectedResponse
       end.

Definition client_update_policy (declaration : PrepareDeclaration) : ClientM Z :=
  do* in_phase [CpActive; CpSuspended] in
  exchange_generation (OpPolicyUpdate declaration)
    (fun body => match body with RsPolicyUpdated g => Some g | _ => None end).

Definition client_suspend : ClientM Z :=
  do* in_phase [CpActive] in
  let* g := exchange_generation OpSuspend
              (fun body => match body with RsSuspended g => Some g | _ => None end) in
  do* modify (set_client_phase CpSuspended) in
  mret g.

(** The owner of the client, under another generation and deadline. *)
Definition move_owner (g deadline : Z) : ClientM unit :=
  modify (fun c => set_client_owner
            (set_owner_generation g (set_lease_deadline deadline (client_owner c))) c).

Definition reconfigured_generation (body : ResponseBody) : option Z :=
  match body with RsReconfigured g => Some g | _ => None end.

(** Whether the [Status] exchange shows the suspended session of [g]. *)
Definition shows_suspended (g : Z) (result : Result IpcError (ResponseBody * option Z)) : bool :=
  match result with
  | Ok (RsStatus PhSuspended observed, None) => observed =? g
  | _ => false
  end.

Definition reconfigure_with_owner (declaration : PrepareDeclaration) (g deadline : Z) : ClientM Z :=
  do* in_phase [CpSuspended; CpActive] in
  if (g =? 0) || (deadline =? 0) then mfail IeInvalidTransition
  else
    let* c := gets id in
    let previous := client_owner c in
    do* move_owner g deadline in
    let* result := attempt (exchange_generation (OpReconfigure declaration) reconfigured_generation) in
    match result with
    | Ok v => mret v
    | Err e =>
        let* observed := attempt (exchange OpStatus) in
        if shows_suspended g observed then mret g
        else
          do* move_owner (generation previous) (lease_deadline_mono_ms previous) in
          mfail e
    end.

Definition client_reconfigure (declaration : PrepareDeclaration) : ClientM Z :=
  let* c := gets id in
  reconfigure_with_owner declaration (generation (client_owner c))
    (lease_deadline_mono_ms (client_owner c)).

Definition prepare_replacement_with_owner (declaration : PrepareDeclaration) (g deadline : Z)
  : ClientM Z :=
  do* in_phase [CpActive] in
  let* c := gets id in
  let previous := client_owner c in
  do* move_owner g deadline in
  let* result := attempt (exchange_generation (OpReconfigure declaration) reconfigured_generation) in
  do* (if is_err result then move_owner (generation previous) (lease_deadline_mono_ms previous)
       else mret tt) in
  lift result.

Definition commit_replacement : ClientM Z :=
  do* in_phase [CpActive] in
  exchange_generation OpCommit
    (fun body => match body with RsCommitted g => Some g | _ => None end).

Definition client_drain_old (now_mono_ms : Z) : ClientM Z :=
  do* in_phase [CpActive] in
  exchange_generation (OpDrain now_mono_ms)
    (fun body => match body with RsDrained g => Some g | _ => None end).

Definition client_resume : ClientM Z :=
  do* in_phase [CpSuspended] in
  let* g := exchange_generation OpResume
              (fun body => match body with RsResumed g => Some g | _ => None end) in
  do* modify (set_client_phase CpActive) in
  mret g.

Definition client_status : ClientM (SessionPhase * Z) :=
  let* reply := exchange OpStatus in
  let '(body, descriptor) := reply in
  if bool_decide (is_Some descriptor) then mfail IeDescriptorMismatch
  else match body with
       | RsStatus phase g =>
           let* c := gets id in
           if negb (g =? generation (client_owner c)) then mfail IeUnexpectedResponse
           else mret (phase, g)
       | _ => mfail IeUnexpectedResponse
       end.

(** [impl Drop for NetdClient]: a last rollback, its outcome ignored. *)
Definition client_drop (c : NetdClient) : NetdClient :=
  if bool_decide (client_phase c = CpStopped) then c else (client_rollback c).2.

End Client.

Arguments NetdClient : clear implicits.
Arguments ClientM : clear implicits.

(** ** The service behind the socket *)

Section Served.
Context {P N : Type} `{!Platform P} `{!NetworkController N}.

(** The service and the credentials of the peer connected to it. *)
Record Connected : Type := mkConnected {
  peer : PeerCredentials;
  service : NetdService P N;
}.

(** [serve_authenticated_once]: an error leaves the client without a reply. *)
Definition serve_authenticated_once (frame : list Z) (peer : PeerCredentials)
  : SvM P N (Result IpcError (list Z * list Z)) :=
  match NetdRequest_decode frame with
  | Err e => mret (Err (IeProtocol e))
  | Ok request =>
      let* reply := process request peer in
      let '(response, descriptor) := reply in
      mret (send_response response descriptor)
  end.

#[export] Instance served_socket : Socket Connected := {
  connect := mret tt;
  converse frame := fun s =>
    let '(r, service) := serve_authenticated_once frame (peer s) (service s) in
    (match r with Ok (Ok reply) => Ok reply | _ => Err IeIo end, mkConnected (peer s) service);
}.
End Served.

Arguments Connected : clear implicits.
