(* ===== verification/ClientFacts.v ===== *)
(** * The client and the service together

    What an exchange over the socket of a running service amounts to; the lockstep of the
    client's phase with the session of netd; and a reconfiguration that netd refuses and
    the client reports as done. *)
From stdpp Require Import relations base tactics list numbers option sorting sets.
From Stdlib Require Import ZArith Lia.
From S2P Require Import Prelude Ipv4 Wire Proto ProtoFacts Session Network Kernel Faulty Recovery.
From S2P Require Import Service ServiceFacts Client.

(** ** Exchanges *)

Definition id_ok (id : option Z) : Prop := forall n, id = Some n -> 1 <= n < 2 ^ 64.

Lemma check_frame_ok payload : ensure_frame payload = Ok tt -> check_frame payload = Ok tt.
Proof. unfold ensure_frame, check_frame. by destruct (_ || _). Qed.

Lemma next_id_ok id : 1 <= id < 2 ^ 64 -> id_ok (u64_checked_add id 1).
Proof. unfold u64_checked_add. intros H n. destruct (Z.ltb_spec (id + 1) (2 ^ 64)); [|done]. intros [= <-]. lia. Qed.

Section Facts.
Context {P N : Type} `{!Platform P} `{!NetworkController N}.

#[local] Abbreviation Client := (NetdClient (Connected P N)).
Implicit Types c : Client.

Definition netd (c : Client) : NetdService P N := service (socket c).
Definition netd_session (c : Client) : NetdSession := session (netd c).

Definition client_request (id : Z) (op : NetdOperation) (c : Client) : NetdRequest :=
  mkRequest id (client_owner c) op.

(** What a body and a descriptor become at the client. *)
Definition received (response : NetdResponse) (fd : option Z)
  : Result IpcError (ResponseBody * option Z) :=
  match body response with
  | RsError code => Err (IeRemote code)
  | b => Ok (b, fd)
  end.

Lemma expects_iff b : expects_descriptor b = true <-> exists g, b = RsPrepared g true.
Proof. destruct b; simpl; try (by split; [|intros [? [=]]]). destruct tun_fd_attached; naive_solver. Qed.

Lemma recv_sent (response : NetdResponse) (fd : option Z) bytes :
  NetdResponse_decode bytes = Ok response ->
  (is_Some fd <-> exists g, body response = RsPrepared g true) ->
  recv_response bytes (match fd with Some fd => [fd] | None => [] end) = Ok (response, fd).
Proof.
  intros Hd Hfd. unfold recv_response. rewrite Hd. simpl. destruct fd as [fd|]; simpl.
  - destruct (proj1 Hfd) as [g Hg]; [by eexists|]. by rewrite Hg.
  - destruct (expects_descriptor (body response)) eqn:E; [|done].
    apply expects_iff, Hfd in E. by destruct E.
Qed.

Lemma send_replied (response : NetdResponse) (fd : option Z) bytes :
  NetdResponse_encode response = Ok bytes ->
  (is_Some fd <-> exists g, body response = RsPrepared g true) ->
  send_response response fd = Ok (bytes, match fd with Some fd => [fd] | None => [] end).
Proof.
  intros He Hfd. unfold send_response.
  assert (Hb : expects_descriptor (body response) = bool_decide (is_Some fd)).
  { case_bool_decide as H.
    - by apply expects_iff, Hfd.
    - apply not_true_iff_false. by rewrite expects_iff, <- Hfd. }
  rewrite Hb, Bool.eqb_reflx, He. simpl. apply encode_response_Ok in He as [_ Hf].
  by rewrite (check_frame_ok bytes Hf).
Qed.

(** One exchange: the service processes the request, and the client sees its reply. *)
Lemma exchange_served op c n bytes :
  next_request_id c = Some n -> request_typed (client_request n op c) ->
  NetdRequest_encode (client_request n op c) = Ok bytes ->
  exists response fd s',
    process (client_request n op c) (peer (socket c)) (netd c) = (Ok (response, fd), s') /\
    exchange op c = (received response fd,
      mkClient (client_owner c) (u64_checked_add n 1) (client_phase c)
        (mkConnected (peer (socket c)) s')).
Proof.
  intros Hid Ht He. destruct c as [o nid ph [pr s]]. simpl in *. subst nid.
  unfold client_request, netd in *. simpl in *.
  pose proof (request_decode_encode _ _ Ht He) as Hd.
  pose proof (proj1 (encode_request_Ok _ _) He) as (Hv & _ & Hf & Hl).
  destruct (process_sendable _ pr s Ht Hv Hl)
    as (response & fd & s' & Hp & (reply & Hre & Hrd & _) & Hri & Hfd).
  exists response, fd, s'. split; [exact Hp|].
  unfold exchange, mbind, gets, lift, id, on_socket, modify. simpl. rewrite He. simpl.
  rewrite (check_frame_ok bytes Hf).
  unfold serve_authenticated_once. rewrite Hd. unfold mbind. rewrite Hp. simpl.
  rewrite (send_replied response fd reply Hre Hfd). simpl.
  rewrite (recv_sent response fd reply Hrd Hfd). simpl. rewrite Hri, Z.eqb_refl. simpl.
  unfold received. destruct (body response) eqn:Eb; try done.
  destruct fd as [fd|]; [|done]. destruct (proj1 Hfd) as [g Hg]; [by eexists|]. congruence.
Qed.

(** ** Outcomes of an exchange *)

Lemma owner_payload_length o op :
  match op with OpPrepare _ | OpReconfigure _ | OpPolicyUpdate _ | OpWithdrawPrefixes _ => False | _ => True end ->
  length (instance_id o) = 16%nat -> forall n,
  (length (request_bytes (mkRequest n o op)) <= 80)%nat.
Proof.
  intros Hop Hi n. unfold request_bytes. simpl. rewrite !length_app, Hi.
  pose proof (varint_length NETD_PROTOCOL_VERSION). pose proof (varint_length (operation_tag op)).
  pose proof (varint_length n). pose proof (varint_length (pid o)).
  pose proof (varint_length (generation o)). pose proof (varint_length (lease_deadline_mono_ms o)).
  assert (length (encode_operation op) <= 10)%nat by (destruct op; simpl; try done; try lia; apply varint_length).
  lia.
Qed.

(** A status request of a valid owner can always be sent. *)
Lemma status_encodes n o :
  n <> 0 -> owner_typed o -> LeaseOwner_validate o = Ok tt ->
  NetdRequest_encode (mkRequest n o OpStatus) = Ok (request_bytes (mkRequest n o OpStatus)).
Proof.
  intros Hn ((Hi & _) & _) Ho. apply encode_request_Ok. split_and!; [|done| |done].
  - unfold NetdRequest_validate. simpl. destruct (Z.eqb_spec n 0); [done|]. by rewrite Ho.
  - pose proof (owner_payload_length o OpStatus I Hi n) as Hl. unfold ensure_frame.
    rewrite bool_decide_eq_false_2.
    + destruct (Z.ltb_spec MAX_NETD_FRAME_LEN (Z.of_nat (length (request_bytes (mkRequest n o OpStatus)))));
        [unfold MAX_NETD_FRAME_LEN in *; lia|done].
    + intros H. apply (f_equal length) in H. revert H. unfold request_bytes.
      change (varint NETD_PROTOCOL_VERSION) with [1]. simpl. lia.
Qed.

Lemma reconfigure_eq d g deadline c :
  client_phase c = CpSuspended \/ client_phase c = CpActive -> g <> 0 -> deadline <> 0 ->
  reconfigure_with_owner d g deadline c =
    let c1 := set_client_owner (set_owner_generation g
                (set_lease_deadline deadline (client_owner c))) c in
    match exchange_generation (OpReconfigure d) reconfigured_generation c1 with
    | (Ok v, c2) => (Ok v, c2)
    | (Err e, c2) =>
        let '(observed, c3) := exchange OpStatus c2 in
        if shows_suspended g observed then (Ok g, c3)
        else (Err e, set_client_owner (set_owner_generation (generation (client_owner c))
                (set_lease_deadline (lease_deadline_mono_ms (client_owner c)) (client_owner c3))) c3)
    end.
Proof.
  intros Hp Hg Hd. unfold reconfigure_with_owner, in_phase, mbind, gets, attempt, move_owner, modify.
  unfold id. rewrite bool_decide_eq_true_2 by (destruct Hp as [->| ->]; set_solver).
  unfold mret. rewrite (proj2 (Z.eqb_neq g 0)), (proj2 (Z.eqb_neq deadline 0)) by done.
  cbn -[exchange_generation exchange].
  destruct (exchange_generation _ _ _) as [[v|e] c2]; [done|].
  destruct (exchange OpStatus c2) as [observed c3]. by destruct (shows_suspended g observed).
Qed.

(** A finding: netd answers [Status] with the generation of the requester, not with its
    own, so the check by which [reconfigure_with_owner] detects a reconfiguration that was
    committed but not acknowledged always succeeds on a suspended session. Whatever error
    netd answers to the [Reconfigure], the client reports the new generation as done and
    moves its owner to it, while the session of netd keeps the old one. *)
Theorem refused_reconfiguration_reported_done c d g deadline n bytes code fd s1 :
  let o := set_owner_generation g (set_lease_deadline deadline (client_owner c)) in
  let request := mkRequest n o (OpReconfigure d) in
  client_phase c = CpSuspended -> phase (netd_session c) = PhSuspended ->
  next_request_id c = Some n -> n + 1 < 2 ^ 64 -> deadline <> 0 ->
  authorized (netd c) request (peer (socket c)) = true ->
  request_typed request -> NetdRequest_encode request = Ok bytes ->
  process request (peer (socket c)) (netd c) = (Ok (mkResponse n (RsError code), fd), s1) ->
  exists c', reconfigure_with_owner d g deadline c = (Ok g, c') /\
    client_owner c' = o /\ client_phase c' = CpSuspended /\ netd_session c' = netd_session c.
Proof.
  intros o request Hph Hss Hid Hn Hdl Ha Ht He Hp.
  destruct (proj1 (encode_request_Ok _ _) He) as (Hv & _).
  assert (Hnz : n <> 0 /\ LeaseOwner_validate o = Ok tt).
  { revert Hv. unfold NetdRequest_validate. simpl. destruct (Z.eqb_spec n 0); [done|].
    by destruct (LeaseOwner_validate o) as [[]|]. }
  destruct Hnz as [Hnz Hov].
  assert (Hg : g <> 0).
  { intros ->. revert Hov. unfold LeaseOwner_validate. simpl. by rewrite orb_true_r. }
  destruct (process_outcome request (peer (socket c)) (netd c) Ha) as (r0 & fd0 & s0 & Hp0 & _ & Hs0).
  { done. }
  rewrite Hp in Hp0. injection Hp0 as <- <- <-. simpl in Hs0.
  set (c1 := set_client_owner o c).
  destruct (exchange_served (OpReconfigure d) c1 n bytes) as (r1 & fd1 & s1' & Hp1 & Hx1);
    [done|exact Ht|exact He|].
  change (process request (peer (socket c)) (netd c) = (Ok (r1, fd1), s1')) in Hp1.
  rewrite Hp in Hp1. injection Hp1 as <- <- <-. unfold received in Hx1. simpl in Hx1.
  set (c2 := mkClient o (u64_checked_add n 1) (client_phase c) (mkConnected (peer (socket c)) s1)).
  change (exchange (OpReconfigure d) c1 = (Err (IeRemote code), c2)) in Hx1.
  assert (Hid2 : next_request_id c2 = Some (n + 1)).
  { simpl. unfold u64_checked_add. by destruct (Z.ltb_spec (n + 1) (2 ^ 64)); [|lia]. }
  destruct Ht as ((Hn0 & _) & Hot & _). change (0 <= n) in Hn0. simpl in Hot.
  assert (Ht2 : request_typed (client_request (n + 1) OpStatus c2)) by (split; [change (is_u 64 (n + 1)); split; lia|done]).
  assert (He2 := status_encodes (n + 1) o ltac:(lia) Hot Hov).
  destruct (exchange_served OpStatus c2 (n + 1) _ Hid2 Ht2 He2) as (r2 & fd2 & s2 & Hp2 & Hx2).
  assert (Ha2 : authorized (netd c2) (client_request (n + 1) OpStatus c2) (peer (socket c2)) = true).
  { revert Ha. unfold authorized, netd. simpl.
    pose proof (process_keeps_rules request (peer (socket c)) (netd c)) as [H1 H2].
    rewrite Hp in H1, H2. simpl in H1, H2. by rewrite H1, H2. }
  rewrite process_status in Hp2 by done. injection Hp2 as <- <- <-.
  exists (mkClient o (u64_checked_add (n + 1) 1) (client_phase c) (mkConnected (peer (socket c)) s1)).
  split; [|split_and!; [done|done|unfold netd_session at 1; simpl; exact Hs0]].
  rewrite reconfigure_eq by auto. unfold exchange_generation, mbind.
  fold o. fold c1. rewrite Hx1, Hx2. unfold received. cbn [body]. simpl.
  unfold netd at 1. simpl. rewrite Hs0. fold (netd_session c). rewrite Hss.
  unfold shows_suspended. by rewrite Z.eqb_refl.
Qed.

(** ** Lockstep *)

(** The session phase that a phase of the client stands for: an active client may have a
    replacement staged or draining. *)
Definition in_step (p : ClientPhase) (s : NetdSession) : Prop :=
  match p with
  | CpStopped => phase s = PhStopped /\ replacement_pending s = false
  | CpPrepared => phase s = PhPrepared /\ replacement_pending s = false
  | CpActive =>
      (phase s = PhActive /\ replacement_pending s = false) \/
      ((phase s = PhPrepared \/ phase s = PhDraining) /\ replacement_pending s = true)
  | CpSuspended => phase s = PhSuspended /\ replacement_pending s = false
  end.

Definition client_typed (c : Client) : Prop :=
  id_ok (next_request_id c) /\ owner_typed (client_owner c).

Definition locked (c : Client) : Prop :=
  client_typed c /\ in_step (client_phase c) (netd_session c).

Definition moved (op : NetdOperation) (s s' : NetdSession) : Prop :=
  exists o n, apply (mkRequest n o op) s = (Ok tt, s').

(** The phase after each operation that succeeds. *)
Lemma moved_transition op s s' :
  moved op s s' -> exists o s1, phase s1 = phase s /\
    replacement_pending s1 = replacement_pending s /\ transition o op s1 s'.
Proof.
  intros (o & n & (s1 & (_ & f & _ & ->) & H)%apply_ok). exists o, (apply_fence f (mkRequest n o op) s).
  split_and!; [by destruct f|by destruct f|exact H].
Qed.

Ltac step_phase :=
  intros s s' Hs (o & s1 & E1 & E2 & Ht)%moved_transition; simpl in Hs; rewrite <- E1, <- E2 in Hs;
  clear E1 E2; inversion Ht; subst; simpl in *; intuition (congruence || auto).

Lemma step_prepare d : forall s s', in_step CpStopped s -> moved (OpPrepare d) s s' -> in_step CpPrepared s'.
Proof. step_phase. Qed.
Lemma step_commit : forall s s', in_step CpPrepared s -> moved OpCommit s s' -> in_step CpActive s'.
Proof. step_phase. Qed.
Lemma step_rollback : forall s s', moved OpRollback s s' -> in_step CpStopped s'.
Proof.
  intros s s' (o & s1 & E1 & E2 & Ht)%moved_transition. by inversion Ht; subst.
Qed.
Lemma step_suspend : forall s s', in_step CpActive s -> moved OpSuspend s s' -> in_step CpSuspended s'.
Proof. step_phase. Qed.
Lemma step_resume : forall s s', in_step CpSuspended s -> moved OpResume s s' -> in_step CpActive s'.
Proof. step_phase. Qed.

(** The operations that leave the phase of the client. *)
Definition phase_neutral (op : NetdOperation) : bool :=
  match op with
  | OpLeaseRenew | OpMtuUpdate _ | OpPolicyUpdate _ | OpWithdrawPrefixes _ => true
  | _ => false
  end.

Lemma step_neutral op p : phase_neutral op = true ->
  forall s s', in_step p s -> moved op s s' -> in_step p s'.
Proof. intros Hn. destruct op; try done; destruct p; step_phase. Qed.

Lemma step_reconfigure d p : p = CpActive \/ p = CpSuspended ->
  forall s s', in_step p s -> moved (OpReconfigure d) s s' -> in_step p s'.
Proof. intros [->| ->]; step_phase. Qed.

Lemma step_commit_replacement :
  forall s s', in_step CpActive s -> moved OpCommit s s' -> in_step CpActive s'.
Proof. step_phase. Qed.
Lemma step_drain now :
  forall s s', in_step CpActive s -> moved (OpDrain now) s s' -> in_step CpActive s'.
Proof. step_phase. Qed.

(** Every outcome of an exchange. *)
Lemma exchange_outcome op c :
  client_typed c -> operation_typed op ->
  exists r c', exchange op c = (r, c') /\ client_typed c' /\
    client_owner c' = client_owner c /\ client_phase c' = client_phase c /\
    match r with
    | Ok (b, fd) =>
        if bool_decide (op = OpStatus) then netd_session c' = netd_session c
        else b = success_body (client_owner c) op (netd_session c') /\
             (is_Some fd <-> is_prepare op = true) /\ moved op (netd_session c) (netd_session c')
    | Err _ => netd_session c' = netd_session c
    end.
Proof.
  intros [Hid Ho] Hop. destruct (next_request_id c) as [n|] eqn:Hn.
  2:{ exists (Err IeRequestIdExhausted), c. split; [|by split_and!; [split; [rewrite Hn|]|..]].
      unfold exchange, mbind, gets, lift, id. by rewrite Hn. }
  pose proof (Hid n eq_refl) as Hn1.
  assert (Ht : request_typed (client_request n op c)) by (split; [split; simpl; lia|by split]).
  destruct (NetdRequest_encode (client_request n op c)) as [bytes|e] eqn:He.
  - destruct (exchange_served op c n bytes Hn Ht He) as (response & fd & s' & Hp & Hx).
    exists (received response fd). eexists. split; [exact Hx|].
    split; [split; [by apply next_id_ok|done]|]. split; [done|]. split; [done|].
    unfold netd_session, netd at 1 2 3. simpl.
    destruct (authorized (netd c) (client_request n op c) (peer (socket c))) eqn:Ha.
    2:{ rewrite process_unauthorized in Hp by done. by injection Hp as <- <- <-. }
    destruct (decide (op = OpStatus)) as [->|Hns].
    { rewrite process_status in Hp by done. by injection Hp as <- <- <-. }
    pose proof (proj1 (encode_request_Ok _ _) He) as (Hv & _ & _ & Hl).
    destruct (process_outcome (client_request n op c) (peer (socket c)) (netd c) Ha Hns)
      as (r0 & fd0 & s0 & Hp0 & _ & Hs0).
    destruct (process_sendable _ (peer (socket c)) (netd c) Ht Hv Hl)
      as (r1 & fd1 & s1 & Hp1 & _ & _ & Hfd).
    rewrite Hp in Hp0, Hp1. injection Hp0 as <- <- <-. injection Hp1 as <- <- <-.
    rewrite bool_decide_eq_false_2 by done. unfold received.
    assert (Hsucc : forall b, body response = b -> (forall code, b <> RsError code) ->
              b = success_body (client_owner c) op (session s') ->
              is_Some fd <-> is_prepare op = true).
    { intros b Hb _ Hsb. rewrite Hfd, Hb, Hsb. destruct op; simpl; split; naive_solver. }
    destruct (body response) eqn:Eb; try exact Hs0;
      (destruct Hs0 as [Hb Hm]; split; [exact Hb|]; split; [by apply (Hsucc _ eq_refl)|];
       by exists (client_owner c), n).
  - exists (Err (IeProtocol e)). exists c. split; [|by split_and!; [split; [rewrite Hn|]|..]].
    unfold exchange, mbind, gets, lift, id, on_socket. rewrite Hn. cbn -[NetdRequest_encode].
    destruct c as [o nid ph [pr s]]. simpl in *. subst nid. unfold client_request in He. simpl in He.
    by rewrite He.
Qed.

(** A method that leaves the client locked, whatever it returns. *)
Definition keeps_lock {A} (m : ClientM (Connected P N) A) : Prop :=
  forall c, locked c -> locked (m c).2.

Lemma locked_same c c' :
  in_step (client_phase c) (netd_session c) -> client_typed c' ->
  client_phase c' = client_phase c -> netd_session c' = netd_session c -> locked c'.
Proof. intros Hl Hc Hp Hs. split; [done|]. by rewrite Hp, Hs. Qed.

(** The outcome of [exchange_generation] for an operation whose reply [select] knows. *)
Lemma exchange_generation_outcome op select c :
  client_typed c -> operation_typed op -> op <> OpStatus -> is_prepare op = false ->
  (forall o next, select (success_body o op next) = Some (generation o)) ->
  exists r c', exchange_generation op select c = (r, c') /\ client_typed c' /\
    client_owner c' = client_owner c /\ client_phase c' = client_phase c /\
    match r with
    | Ok g => g = generation (client_owner c) /\ moved op (netd_session c) (netd_session c')
    | Err _ => netd_session c' = netd_session c
    end.
Proof.
  intros Hc Hop Hns Hnp Hsel.
  destruct (exchange_outcome op c Hc Hop) as (r & c' & Hx & Hc' & Hco & Hcp & Hr).
  rewrite bool_decide_eq_false_2 in Hr by done.
  unfold exchange_generation, mbind. rewrite Hx. destruct r as [[b fd]|e]; [|by exists (Err e), c'].
  destruct Hr as (-> & Hfd & Hm). destruct fd as [fd|].
  { rewrite Hnp in Hfd. by discriminate (proj1 Hfd (mk_is_Some _ _ eq_refl)). }
  rewrite bool_decide_eq_false_2 by (by intros []). unfold lift, ok_or. rewrite Hsel.
  unfold gets, id. rewrite Hco, Z.eqb_refl. by exists (Ok (generation (client_owner c))), c'.
Qed.

(** The common shape: a phase check, an exchange, a new phase. *)
Lemma lock_method phases op select p :
  operation_typed op -> op <> OpStatus -> is_prepare op = false ->
  (forall o next, select (success_body o op next) = Some (generation o)) ->
  (forall q s s', q ∈ phases -> in_step q s -> moved op s s' -> in_step p s') ->
  keeps_lock (do* in_phase phases in
              let* g := exchange_generation op select in
              do* modify (set_client_phase p) in mret g).
Proof.
  intros Hop Hns Hnp Hsel Hstep c [Hc Hl].
  destruct (exchange_generation_outcome op select c Hc Hop Hns Hnp Hsel)
    as (r & c' & Hx & Hc' & Hco & Hcp & Hr).
  unfold in_phase, mbind, gets, id. destruct (bool_decide (client_phase c ∈ phases)) eqn:Hq; [|done].
  apply bool_decide_eq_true in Hq. simpl. rewrite Hx. destruct r as [g|e]; simpl.
  - destruct Hr as [_ Hm]. split; [done|]. by apply (Hstep (client_phase c) (netd_session c)).
  - split; [done|]. by rewrite Hcp, Hr.
Qed.

Lemma lock_method_same phases op select :
  operation_typed op -> op <> OpStatus -> is_prepare op = false ->
  (forall o next, select (success_body o op next) = Some (generation o)) ->
  (forall q s s', q ∈ phases -> in_step q s -> moved op s s' -> in_step q s') ->
  keeps_lock (do* in_phase phases in exchange_generation op select).
Proof.
  intros Hop Hns Hnp Hsel Hstep c [Hc Hl].
  destruct (exchange_generation_outcome op select c Hc Hop Hns Hnp Hsel)
    as (r & c' & Hx & Hc' & Hco & Hcp & Hr).
  unfold in_phase, mbind, gets, id. destruct (bool_decide (client_phase c ∈ phases)) eqn:Hq; [|done].
  apply bool_decide_eq_true in Hq. simpl. rewrite Hx. simpl. split; [done|]. rewrite Hcp.
  destruct r as [g|e]; [|by rewrite Hr]. destruct Hr as [_ Hm]. by apply (Hstep _ (netd_session c)).
Qed.

Lemma lock_prepare d : declaration_typed d -> keeps_lock (client_prepare d).
Proof.
  intros Hd c [Hc Hl]. unfold client_prepare, in_phase, mbind, gets, id.
  destruct (bool_decide (client_phase c ∈ [CpStopped])) eqn:Hq; [|done].
  apply bool_decide_eq_true, list_elem_of_singleton in Hq. simpl.
  destruct (exchange_outcome (OpPrepare d) c Hc Hd) as (r & c' & Hx & Hc' & Hco & Hcp & Hr).
  rewrite Hx. simpl in Hr. destruct r as [[b fd]|e]; [|by apply (locked_same c)].
  destruct Hr as (-> & Hfd & Hm). simpl. rewrite Hco, Z.eqb_refl. simpl.
  destruct fd as [fd|]; [|by destruct (proj2 Hfd eq_refl)]. split; [done|].
  rewrite Hq in Hl. by apply (step_prepare d (netd_session c)).
Qed.

Lemma lock_renew deadline : is_u 64 deadline -> keeps_lock (client_renew_lease deadline).
Proof.
  intros Hd c [Hc Hl]. unfold client_renew_lease, mbind, gets, id.
  destruct (_ || _); [done|]. unfold modify, attempt.
  set (c1 := set_client_owner _ c).
  assert (Hc1 : client_typed c1).
  { destruct Hc as [? (? & ? & ? & _)]. by split. }
  destruct (exchange_generation_outcome OpLeaseRenew
    (fun body => match body with RsLeaseRenewed g => Some g | _ => None end) c1 Hc1 I)
    as (r & c' & Hx & Hc' & Hco & Hcp & Hr); try done.
  rewrite Hx. destruct r as [g|e]; simpl.
  - split; [done|]. rewrite Hcp. destruct Hr as [_ Hm]. by apply (step_neutral OpLeaseRenew _ eq_refl (netd_session c)).
  - split; [|change (in_step (client_phase c') (netd_session c')); rewrite Hcp, Hr; exact Hl].
    split; [apply Hc'|]. simpl. destruct Hc as [_ (H1 & H2 & H3 & H4)].
    destruct Hc' as [_ (K1 & K2 & K3 & K4)]. by split.
Qed.

Lemma lock_mtu mtu : is_u 16 mtu -> keeps_lock (client_update_mtu mtu).
Proof.
  intros Hm c [Hc Hl]. unfold client_update_mtu, in_phase, mbind, gets, id.
  destruct (bool_decide _); [|done]. simpl.
  destruct (exchange_outcome (OpMtuUpdate mtu) c Hc Hm) as (r & c' & Hx & Hc' & Hco & Hcp & Hr).
  rewrite Hx. simpl in Hr. destruct r as [[b fd]|e]; [|by apply (locked_same c)].
  destruct Hr as (-> & Hfd & Hmv).
  assert (Hgood : locked c').
  { split; [done|]. rewrite Hcp. by apply (step_neutral (OpMtuUpdate mtu) _ eq_refl (netd_session c)). }
  simpl. repeat case_match; exact Hgood.
Qed.

Lemma lock_status : keeps_lock client_status.
Proof.
  intros c [Hc Hl]. unfold client_status, mbind, gets, id.
  destruct (exchange_outcome OpStatus c Hc I) as (r & c' & Hx & Hc' & Hco & Hcp & Hr).
  assert (Hgood : locked c').
  { split; [done|]. rewrite Hcp. destruct r as [[b fd]|e]; simpl in Hr; by rewrite Hr. }
  rewrite Hx. destruct r as [[b fd]|e]; [|exact Hgood]. repeat case_match; simplify_eq; exact Hgood.
Qed.

Lemma move_owner_typed g deadline c :
  is_u 64 g -> is_u 64 deadline -> client_typed c -> client_typed
    (set_client_owner (set_owner_generation g (set_lease_deadline deadline (client_owner c))) c).
Proof. intros Hg Hd [Hi (H1 & H2 & _ & _)]. by split. Qed.

Lemma lock_reconfigure d g deadline :
  declaration_typed d -> is_u 64 g -> is_u 64 deadline ->
  keeps_lock (reconfigure_with_owner d g deadline).
Proof.
  intros Hd Hg Hdl c [Hc Hl].
  destruct (decide (client_phase c = CpSuspended \/ client_phase c = CpActive)) as [Hp|Hp].
  2:{ unfold reconfigure_with_owner, in_phase, mbind, gets, id.
      by rewrite bool_decide_eq_false_2 by set_solver. }
  destruct (decide (g = 0 \/ deadline = 0)) as [Hz|Hz].
  { unfold reconfigure_with_owner, in_phase, mbind, gets, id.
    rewrite bool_decide_eq_true_2 by set_solver. unfold mret.
    assert (H : (g =? 0) || (deadline =? 0) = true)
      by (destruct Hz as [->| ->]; by rewrite ?orb_true_r).
    rewrite H. done. }
  rewrite reconfigure_eq by tauto. cbv zeta. set (c1 := set_client_owner _ c).
  assert (Hc1 : client_typed c1) by by apply move_owner_typed.
  destruct (exchange_generation_outcome (OpReconfigure d) reconfigured_generation c1 Hc1 Hd)
    as (r & c2 & Hx & Hc2 & Hco & Hcp & Hr); try done.
  rewrite Hx. destruct r as [v|e]; simpl.
  { split; [done|]. rewrite Hcp. destruct Hr as [_ Hm].
    apply (step_reconfigure d (client_phase c) ltac:(tauto) (netd_session c)); done. }
  destruct (exchange_outcome OpStatus c2 Hc2 I) as (r3 & c3 & Hx3 & Hc3 & Hco3 & Hcp3 & Hr3).
  rewrite Hx3. assert (Hs : netd_session c3 = netd_session c).
  { destruct r3 as [[b fd]|e3]; simpl in Hr3; by rewrite Hr3, Hr. }
  assert (Hin : in_step (client_phase c3) (netd_session c3)) by (rewrite Hcp3, Hcp, Hs; exact Hl).
  destruct (shows_suspended g r3); [by split|]. split; [|exact Hin].
  destruct Hc as [_ (_ & _ & H3 & H4)]. by apply move_owner_typed.
Qed.

Lemma lock_replacement d g deadline :
  declaration_typed d -> is_u 64 g -> is_u 64 deadline ->
  keeps_lock (prepare_replacement_with_owner d g deadline).
Proof.
  intros Hd Hg Hdl c [Hc Hl]. unfold prepare_replacement_with_owner, in_phase, mbind, gets, id.
  destruct (bool_decide (client_phase c ∈ [CpActive])) eqn:Hq; [|done].
  apply bool_decide_eq_true, list_elem_of_singleton in Hq. unfold move_owner, modify, attempt, mret.
  set (c1 := set_client_owner _ c). assert (Hc1 : client_typed c1) by by apply move_owner_typed.
  destruct (exchange_generation_outcome (OpReconfigure d) reconfigured_generation c1 Hc1 Hd)
    as (r & c2 & Hx & Hc2 & Hco & Hcp & Hr); try done.
  rewrite Hx. destruct r as [v|e]; simpl.
  - split; [done|]. rewrite Hcp. destruct Hr as [_ Hm].
    apply (step_reconfigure d (client_phase c) ltac:(tauto) (netd_session c)); done.
  - destruct Hc as [_ (_ & _ & H3 & H4)]. split; [by apply move_owner_typed|].
    change (in_step (client_phase c2) (netd_session c2)). rewrite Hcp, Hr. exact Hl.
Qed.

(** What the runtime may do with its client. *)
Inductive client_step : Client -> Client -> Prop :=
| cs_prepare c d : declaration_typed d -> client_step c (client_prepare d c).2
| cs_commit c : client_step c (client_commit c).2
| cs_rollback c : client_step c (client_rollback c).2
| cs_failed c l : Forall prefix_ok l -> client_step c (client_set_failed_prefixes l c).2
| cs_renew c deadline : is_u 64 deadline -> client_step c (client_renew_lease deadline c).2
| cs_mtu c mtu : is_u 16 mtu -> client_step c (client_update_mtu mtu c).2
| cs_policy c d : declaration_typed d -> client_step c (client_update_policy d c).2
| cs_suspend c : client_step c (client_suspend c).2
| cs_reconfigure c d g deadline : declaration_typed d -> is_u 64 g -> is_u 64 deadline ->
    client_step c (reconfigure_with_owner d g deadline c).2
| cs_replacement c d g deadline : declaration_typed d -> is_u 64 g -> is_u 64 deadline ->
    client_step c (prepare_replacement_with_owner d g deadline c).2
| cs_commit_replacement c : client_step c (commit_replacement c).2
| cs_drain c now : is_u 64 now -> client_step c (client_drain_old now c).2
| cs_resume c : client_step c (client_resume c).2
| cs_status c : client_step c (client_status c).2
| cs_drop c : client_step c (client_drop c).

Lemma lock_rollback : keeps_lock client_rollback.
Proof.
  refine (lock_method [CpPrepared; CpActive; CpSuspended] OpRollback _ CpStopped I _ _ _ _); try done.
  intros q s s' _ _. apply step_rollback.
Qed.

Lemma locked_step c c' : client_step c c' -> locked c -> locked c'.
Proof.
  destruct 1; intros Hl.
  - by apply lock_prepare.
  - refine (lock_method [CpPrepared] OpCommit _ CpActive I _ _ _ _ c Hl); try done.
    intros q s s' ->%list_elem_of_singleton. apply step_commit.
  - by apply lock_rollback.
  - refine (lock_method_same [CpActive; CpSuspended] (OpWithdrawPrefixes l) _ _ _ _ _ _ c Hl); try done.
    intros q s s' _. by apply step_neutral.
  - by apply lock_renew.
  - by apply lock_mtu.
  - refine (lock_method_same [CpActive; CpSuspended] (OpPolicyUpdate d) _ _ _ _ _ _ c Hl); try done.
    intros q s s' _. by apply step_neutral.
  - refine (lock_method [CpActive] OpSuspend _ CpSuspended I _ _ _ _ c Hl); try done.
    intros q s s' ->%list_elem_of_singleton. apply step_suspend.
  - by apply lock_reconfigure.
  - by apply lock_replacement.
  - refine (lock_method_same [CpActive] OpCommit _ I _ _ _ _ c Hl); try done.
    intros q s s' ->%list_elem_of_singleton. apply step_commit_replacement.
  - refine (lock_method_same [CpActive] (OpDrain now) _ _ _ _ _ _ c Hl); try done.
    intros q s s' ->%list_elem_of_singleton. apply step_drain.
  - refine (lock_method [CpSuspended] OpResume _ CpActive I _ _ _ _ c Hl); try done.
    intros q s s' ->%list_elem_of_singleton. apply step_resume.
  - by apply lock_status.
  - unfold client_drop. case_bool_decide; [exact Hl|by apply lock_rollback].
Qed.

(** Lockstep: however a client and the netd it is connected to are driven, by any
    sequence of client calls that succeed or fail in any way the network controller and
    the platform decide, the phase of the client stands for the phase of netd's session;
    in particular a stopped client means a stopped session without a replacement. *)
Theorem client_lockstep o pr uid gid (p : P) (n : N) c :
  owner_typed o ->
  rtc client_step (NetdClient_new o (mkConnected pr (with_network uid gid p n))) c ->
  in_step (client_phase c) (netd_session c) /\ client_typed c.
Proof.
  intros Ho Hsteps.
  assert (Hl : locked c); [|by destruct Hl].
  refine (rtc_ind_l (fun c0 => locked c0 -> locked c) c _ _ _ Hsteps _).
  - done.
  - intros c1 c2 Hs _ IH Hl. by apply IH, (locked_step c1).
  - split; [split; [intros k [= <-]; lia|done]|done].
Qed.
End Facts.

(** ** A concrete pair *)

Definition connected_client (s : Netd) : NetdClient (Connected Host (NetworkTransaction FaultyKernel)) :=
  NetdClient_new sample_owner (mkConnected sample_peer s).

(** The declaration under another routing table, which a suspended session refuses. *)
Definition moved_declaration : PrepareDeclaration :=
  mkDeclaration 20002 (overlay_router_ipv4 sample_declaration) (effective_mtu sample_declaration)
    (routes sample_declaration) (exclusions sample_declaration) (firewall sample_declaration).

Definition prepared_client := (client_prepare sample_declaration (connected_client fresh_service)).2.
Definition suspended_client := (client_suspend (client_commit prepared_client).2).2.

Lemma client_lockstep_witness :
  phase (netd_session suspended_client) = PhSuspended /\
  in_step (client_phase suspended_client) (netd_session suspended_client).
Proof.
  split; [vm_compute; reflexivity|].
  assert (Ho : owner_typed sample_owner) by apply sample_request_typed.
  refine (proj1 (client_lockstep sample_owner sample_peer 100 100 (mkHost 5 [42] 10) (fresh [])
    suspended_client Ho _)).
  exact (rtc_l _ _ _ _ (cs_prepare _ _ sample_declaration_typed)
    (rtc_l _ _ _ _ (cs_commit _) (rtc_l _ _ _ _ (cs_suspend _) (rtc_refl _ _)))).
Defined.

Definition refused_owner : LeaseOwner :=
  set_owner_generation 4 (set_lease_deadline 2000 sample_owner).
Definition refused_request : NetdRequest := mkRequest 4 refused_owner (OpReconfigure moved_declaration).

(** netd refuses to move a suspended session to another table; the client reports it done
    under generation 4, while the session stays with generation 3. *)
Lemma refused_reconfiguration_reported_done_witness :
  exists c', reconfigure_with_owner moved_declaration 4 2000 suspended_client = (Ok 4, c') /\
    session_owner (netd_session c') = Some sample_owner.
Proof.
  destruct (refused_reconfiguration_reported_done suspended_client moved_declaration 4 2000 4
    (request_bytes refused_request) EcInvalidRequest None
    (process refused_request sample_peer (netd suspended_client)).2)
    as (c' & Hr & _ & _ & Hs); try (vm_compute; reflexivity).
  - discriminate.
  - split; [by vm_compute|]. split; [apply sample_request_typed|]. apply sample_declaration_typed.
  - exists c'. split; [exact Hr|]. rewrite Hs. vm_compute. reflexivity.
Defined.
