(* ===== verification/InfraProto.v ===== *)
(** * The infrastructure protocol

    Version 2 of the wire protocol, [candy-netd-proto/src/v2.rs]: the identities of the
    infrastructure and of a forwarding owner, the operations, their validation, and the
    version byte around a JSON document; and the clock of [candy-netd/src/v2/clock.rs].
    Strings are lists of the bytes of their UTF-8 form. The JSON encoder and decoder are
    parameters. *)
From stdpp Require Import base tactics list numbers option sorting.
From Stdlib Require Import ZArith Lia.
From S2P Require Import Prelude Ipv4 Wire Proto.

(** [VERSION] of v2. *)
Definition INFRA_VERSION : Z := 2.

Definition zeros (n : nat) : list Z := replicate n 0.

Record InfraSpec : Type := mkInfraSpec {
  infra_id : list Z;
  infra_generation : Z;
  netns_device : Z;
  netns_inode : Z;
  spec_overlay_router_ipv4 : list Z;
  spec_mtu : Z;
}.

#[export] Instance InfraSpec_eq_dec : EqDecision InfraSpec.
Proof. solve_decision. Defined.

Definition InfraSpec_validate (self : InfraSpec) : Result NetdProtocolError unit :=
  if bool_decide (infra_id self = zeros 16)
     || (infra_generation self =? 0)
     || (netns_inode self =? 0)
     || negb (in_range 576 1400 (spec_mtu self))
     || bool_decide (spec_overlay_router_ipv4 self = zeros 4)
     || (224 <=? nth 0 (spec_overlay_router_ipv4 self) 0)
  then Err InvalidDeclaration else Ok tt.

Record ForwardOwner : Type := mkForwardOwner {
  domain_id : list Z;
  signed_generation : Z;
  worker_epoch : Z;
  fencing_token : Z;
  auth_deadline_mono_ms : Z;
  forward_lease_deadline_mono_ms : Z;
}.

#[export] Instance ForwardOwner_eq_dec : EqDecision ForwardOwner.
Proof. solve_decision. Defined.

Definition ForwardOwner_validate (self : ForwardOwner) : Result NetdProtocolError unit :=
  if bool_decide (domain_id self = zeros 16)
     || (signed_generation self =? 0)
     || (worker_epoch self =? 0)
     || (fencing_token self =? 0)
     || (auth_deadline_mono_ms self =? 0)
     || (forward_lease_deadline_mono_ms self =? 0)
     || (auth_deadline_mono_ms self <? forward_lease_deadline_mono_ms self)
  then Err InvalidOwner else Ok tt.

Record ForwardAuthority : Type := mkForwardAuthority {
  transaction_id : list Z;
  authority_revision : Z;
  signed_control_hash : list Z;
  declaration_hash : list Z;
  snapshot_closure_hash : list Z;
  authority_io_epoch : Z;
  authority_io_pid : Z;
  authority_io_start_ticks : Z;
  candidate_pid : Z;
  candidate_start_ticks : Z;
}.

#[export] Instance ForwardAuthority_eq_dec : EqDecision ForwardAuthority.
Proof. solve_decision. Defined.

(** [byte.is_ascii_digit() || (b'a'..=b'f').contains(&byte)]. *)
Definition is_hex_digit (byte : Z) : bool := in_range 48 57 byte || in_range 97 102 byte.

Definition is_hex (value : list Z) (length : Z) : bool :=
  (Z.of_nat (List.length value) =? length) && forallb is_hex_digit value.

Definition ForwardAuthority_validate (self : ForwardAuthority) : Result NetdProtocolError unit :=
  if negb (is_hex (transaction_id self) 32)
     || (authority_revision self =? 0)
     || negb (is_hex (signed_control_hash self) 64)
     || negb (is_hex (declaration_hash self) 64)
     || negb (is_hex (snapshot_closure_hash self) 64)
     || (authority_io_epoch self =? 0)
     || (authority_io_pid self =? 0)
     || (authority_io_start_ticks self =? 0)
     || (candidate_pid self =? 0)
     || (candidate_start_ticks self =? 0)
  then Err InvalidOwner else Ok tt.

Record ForwardAuthorityReceipt : Type := mkReceipt {
  receipt_authority : ForwardAuthority;
  owner_active : bool;
  authorization_deadline_mono_ms : Z;
  packet_proof_reported_mono_ms : Z;
}.

#[export] Instance ForwardAuthorityReceipt_eq_dec : EqDecision ForwardAuthorityReceipt.
Proof. solve_decision. Defined.

(** ** Operations *)

Inductive Operation : Type :=
| Capabilities
| InDomain (domain_id infra_id : list Z) (operation : Operation)
| InfraEnsure (spec : InfraSpec)
| InfraStatus
| InfraAcquireIoFd (infra_id : list Z) (generation io_epoch : Z)
| InfraReleaseIo (infra_id : list Z) (generation io_epoch : Z)
| InfraRetire (infra_id : list Z) (generation : Z)
| ForwardPrepare (infra_id : list Z) (infra_generation : Z) (owner : ForwardOwner)
    (declaration : PrepareDeclaration)
| ForwardCommit (owner : ForwardOwner)
| ForwardAuthorize (owner : ForwardOwner) (authority : ForwardAuthority)
| ForwardCommitAuthorized (owner : ForwardOwner) (receipt : ForwardAuthorityReceipt)
| ForwardRevoke (owner : ForwardOwner)
| ForwardGuard (owner : ForwardOwner)
| ForwardLeaseRenew (owner : ForwardOwner)
| ForwardFailedPrefixes (owner : ForwardOwner) (failure_revision : Z)
    (failed_prefixes : list Ipv4Prefix)
| ForwardPolicyUpdate (owner : ForwardOwner) (policy_revision policy_generation : Z)
    (authorization_snapshot_sha256 : list Z) (declaration : PrepareDeclaration)
| ForwardStatus.

Record Request : Type := mkInfraRequest {
  infra_request_id : Z;
  caller_instance_id : list Z;
  caller_pid : Z;
  infra_operation : Operation;
}.

Definition is_in_domain (operation : Operation) : bool :=
  match operation with InDomain _ _ _ => true | _ => false end.

(** [for prefix in prefixes { Ipv4Prefix::new(prefix.network, prefix.prefix_len)?; }]. *)
Fixpoint check_prefixes (prefixes : list Ipv4Prefix) : Result NetdProtocolError unit :=
  match prefixes with
  | [] => Ok tt
  | prefix :: rest =>
      check? Ipv4Prefix_new (network prefix) (prefix_len prefix) in check_prefixes rest
  end.

Definition all_prefixes (declaration : PrepareDeclaration) : list Ipv4Prefix :=
  map route_prefix (routes declaration) ++ map exclusion_prefix (exclusions declaration).

(** The loop over the failed prefixes: each canonical, none twice. *)
Fixpoint check_unique_prefixes (unique prefixes : list Ipv4Prefix)
  : Result NetdProtocolError unit :=
  match prefixes with
  | [] => Ok tt
  | prefix :: rest =>
      check? Ipv4Prefix_new (network prefix) (prefix_len prefix) in
      if bool_decide (prefix ∈ unique) then Err InvalidDeclaration
      else check_unique_prefixes (prefix :: unique) rest
  end.

Definition refuse_request (b : bool) (e : NetdProtocolError) : Result NetdProtocolError unit :=
  if b then Err e else Ok tt.

(** [Request::validate] of the request with these fields. *)
Fixpoint validate_operation (id : Z) (caller : list Z) (pid : Z) (operation : Operation)
  : Result NetdProtocolError unit :=
  check? refuse_request ((id =? 0) || bool_decide (caller = zeros 16) || (pid =? 0))
           InvalidRequest in
  match operation with
  | InDomain domain infra operation =>
      check? refuse_request (bool_decide (domain = zeros 16) || bool_decide (infra = zeros 16)
                             || is_in_domain operation) InvalidRequest in
      validate_operation id caller pid operation
  | InfraEnsure spec => InfraSpec_validate spec
  | InfraAcquireIoFd infra generation io_epoch | InfraReleaseIo infra generation io_epoch =>
      refuse_request (bool_decide (infra = zeros 16) || (generation =? 0) || (io_epoch =? 0))
        InvalidRequest
  | InfraRetire infra generation =>
      refuse_request (bool_decide (infra = zeros 16) || (generation =? 0)) InvalidRequest
  | ForwardPrepare infra generation owner declaration =>
      check? refuse_request (bool_decide (infra = zeros 16) || (generation =? 0))
               InvalidRequest in
      check? ForwardOwner_validate owner in
      check? PrepareDeclaration_validate declaration in
      check_prefixes (all_prefixes declaration)
  | ForwardPolicyUpdate owner revision generation hash declaration =>
      check? ForwardOwner_validate owner in
      check? refuse_request ((revision =? 0) || (generation =? 0) || negb (is_hex hash 64))
               InvalidDeclaration in
      check? PrepareDeclaration_validate declaration in
      check_prefixes (all_prefixes declaration)
  | ForwardCommit owner | ForwardRevoke owner | ForwardGuard owner | ForwardLeaseRenew owner =>
      ForwardOwner_validate owner
  | ForwardAuthorize owner authority =>
      check? ForwardOwner_validate owner in ForwardAuthority_validate authority
  | ForwardCommitAuthorized owner receipt =>
      check? ForwardOwner_validate owner in
      check? ForwardAuthority_validate (receipt_authority receipt) in
      refuse_request (negb (owner_active receipt)
                      || negb (authorization_deadline_mono_ms receipt
                               =? auth_deadline_mono_ms owner)
                      || (packet_proof_reported_mono_ms receipt =? 0)) InvalidOwner
  | ForwardFailedPrefixes owner revision failed =>
      check? ForwardOwner_validate owner in
      check? refuse_request ((revision =? 0) || (MAX_ROUTES <? Z.of_nat (length failed)))
               InvalidDeclaration in
      check_unique_prefixes [] failed
  | Capabilities | InfraStatus | ForwardStatus => Ok tt
  end.

Definition Request_validate (self : Request) : Result NetdProtocolError unit :=
  validate_operation (infra_request_id self) (caller_instance_id self) (caller_pid self)
    (infra_operation self).

Inductive Phase : Type := Preparing | Prepared | Active | Guarded | Revoked.

#[export] Instance Phase_eq_dec : EqDecision Phase.
Proof. solve_decision. Defined.

(** [Body]; the text of an error beyond its code is left out. *)
Inductive Body : Type :=
| BCapabilities (version : Z) (independent_infrastructure multi_domain : bool)
| BInfraStatus (spec : option InfraSpec) (ifindex io_epoch : option Z)
| BIoFd (spec : InfraSpec) (ifindex io_epoch : Z)
| BForwardStatus (owner : option ForwardOwner) (phase : option Phase)
    (candidate_owner : option ForwardOwner) (last_fencing_token failure_revision : Z)
    (failed_prefixes : list Ipv4Prefix) (pending_failure_revision : option Z)
    (pending_failed_prefixes : option (list Ipv4Prefix)) (active_policy_revision : Z)
    (active_policy_generation : option Z) (active_policy_hash : option (list Z))
    (pending_policy_revision : option Z)
| BAck
| BError (code : list Z).

(** ** Frames *)

Section Frames.
Context {T : Type} (to_vec : T -> option (list Z)) (from_slice : list Z -> option T).

Definition infra_encode (value : T) : Result NetdProtocolError (list Z) :=
  let? json := ok_or (to_vec value) InvalidRequest in
  let bytes := INFRA_VERSION :: json in
  if MAX_NETD_FRAME_LEN <? Z.of_nat (length bytes) then Err InvalidRequest else Ok bytes.

Definition infra_decode (bytes : list Z) : Result NetdProtocolError T :=
  match bytes with
  | version :: json =>
      if negb (version =? INFRA_VERSION) then Err UnsupportedVersion
      else if MAX_NETD_FRAME_LEN <? Z.of_nat (length bytes) then Err InvalidRequest
      else ok_or (from_slice json) InvalidRequest
  | [] => Err UnsupportedVersion
  end.
End Frames.

Section Requests.
Context (to_vec : Request -> option (list Z)) (from_slice : list Z -> option Request).

Definition Request_encode (self : Request) : Result NetdProtocolError (list Z) :=
  check? Request_validate self in infra_encode to_vec self.

Definition Request_decode (bytes : list Z) : Result NetdProtocolError Request :=
  let? request := infra_decode from_slice bytes in
  check? Request_validate request in
  Ok request.
End Requests.

(** ** The clock *)

(** [timespec_ms] on [i64] values; [None] is the [InvalidData] error. *)
Definition timespec_ms (seconds nanos : Z) : option Z :=
  if negb (in_range 0 999999999 nanos) then None
  else if seconds <? 0 then None
  else
    let millis := seconds * 1000 in
    if 2 ^ 64 <=? millis then None
    else
      let total := millis + nanos / 1000000 in
      if 2 ^ 64 <=? total then None else Some total.

(** [a.saturating_sub(b)] on [u64]. *)
Definition u64_saturating_sub (a b : Z) : Z := Z.max (a - b) 0.

Definition proof_is_fresh (now reported : Z) : bool :=
  (reported <=? u64_saturating_add now 50) && (u64_saturating_sub now reported <=? 5000).

Definition owner_is_live (owner : ForwardOwner) (now : Z) : bool :=
  now <? Z.min (auth_deadline_mono_ms owner) (forward_lease_deadline_mono_ms owner).
