(* ===== verification/Infra.v ===== *)
(** * The infrastructure service

    [InfrastructureService] of [candy-netd/src/v2.rs]: one TUN device that outlives its
    users, the single holder of its queue, and forwarding under fenced, expiring owners,
    all of it behind a durable state. The kernel, the host and the JSON encoding of the
    journal are interfaces; they act on one world of type [W]. *)
From stdpp Require Import base tactics list numbers option sorting strings.
From Stdlib Require Import ZArith Lia.
From S2P Require Import Prelude Ipv4 Wire Proto Network Service InfraProto.

#[local] Open Scope Z_scope.

Definition MAX_INFRASTRUCTURE_JOURNAL_BYTES : Z := 2 * MAX_NETD_FRAME_LEN + 65536.

(** ** The durable state *)

Record PendingPolicy : Type := mkPendingPolicy {
  cancelled : bool;
  revision : Z;
  pending_generation : Z;
  authorization_snapshot_sha256 : list Z;
  pending_declaration : PrepareDeclaration;
}.

#[export] Instance PendingPolicy_eq_dec : EqDecision PendingPolicy.
Proof. solve_decision. Defined.

Record ForwardRecord : Type := mkForwardRecord {
  forward_owner : ForwardOwner;
  forward_declaration : PrepareDeclaration;
  forward_phase : Phase;
  failure_revision : Z;
  forward_failed_prefixes : list Ipv4Prefix;
  pending_failed_prefixes : option (list Ipv4Prefix);
  pending_failure_revision : option Z;
  authority : option ForwardAuthority;
  policy_revision : Z;
  policy_generation : option Z;
  policy_hash : option (list Z);
  pending_policy : option PendingPolicy;
}.

#[export] Instance ForwardRecord_eq_dec : EqDecision ForwardRecord.
Proof. solve_decision. Defined.

Record IoOwner : Type := mkIoOwner {
  io_instance_id : list Z;
  io_pid : Z;
  io_epoch : Z;
  io_boot_id : list Z;
  start_ticks : option Z;
}.

#[export] Instance IoOwner_eq_dec : EqDecision IoOwner.
Proof. solve_decision. Defined.

Record State : Type := mkState {
  boot_id : list Z;
  spec : option InfraSpec;
  ifindex : option Z;
  ownership_marker : option (list Z);
  creation_pending : bool;
  administrator : option (list Z);
  io_owner : option IoOwner;
  last_io_epoch : Z;
  forward : option ForwardRecord;
  candidate : option ForwardRecord;
  last_fencing_token : Z;
  state_sysctls : list SysctlChange;
}.

#[export] Instance State_eq_dec : EqDecision State.
Proof. solve_decision. Defined.

Definition State_default : State := mkState [] None None None false None None 0 None None 0 [].

(** Field updates. *)
Definition set_forward (f : option ForwardRecord) (s : State) : State :=
  mkState (boot_id s) (spec s) (ifindex s) (ownership_marker s) (creation_pending s)
    (administrator s) (io_owner s) (last_io_epoch s) f (candidate s) (last_fencing_token s)
    (state_sysctls s).
Definition set_forward_candidate (c : option ForwardRecord) (s : State) : State :=
  mkState (boot_id s) (spec s) (ifindex s) (ownership_marker s) (creation_pending s)
    (administrator s) (io_owner s) (last_io_epoch s) (forward s) c (last_fencing_token s)
    (state_sysctls s).
Definition set_fencing_token (t : Z) (s : State) : State :=
  mkState (boot_id s) (spec s) (ifindex s) (ownership_marker s) (creation_pending s)
    (administrator s) (io_owner s) (last_io_epoch s) (forward s) (candidate s) t
    (state_sysctls s).
Definition set_state_sysctls (l : list SysctlChange) (s : State) : State :=
  mkState (boot_id s) (spec s) (ifindex s) (ownership_marker s) (creation_pending s)
    (administrator s) (io_owner s) (last_io_epoch s) (forward s) (candidate s)
    (last_fencing_token s) l.
Definition set_io_owner (o : option IoOwner) (epoch : Z) (s : State) : State :=
  mkState (boot_id s) (spec s) (ifindex s) (ownership_marker s) (creation_pending s)
    (administrator s) o epoch (forward s) (candidate s) (last_fencing_token s)
    (state_sysctls s).
(** The creation finished under this index, in this boot. *)
Definition set_created (index : Z) (boot : list Z) (s : State) : State :=
  mkState boot (spec s) (Some index) (ownership_marker s) false (administrator s) (io_owner s)
    (last_io_epoch s) (forward s) (candidate s) (last_fencing_token s) (state_sysctls s).
(** The creation intended under this marker, in this boot. *)
Definition set_creation_intent (sp : option InfraSpec) (index : option Z) (marker : list Z)
    (admin : option (list Z)) (io : option IoOwner) (boot : list Z) (s : State) : State :=
  mkState boot sp index (Some marker) true admin io (last_io_epoch s) (forward s) (candidate s)
    (last_fencing_token s) (state_sysctls s).

Definition set_forward_phase (p : Phase) (f : ForwardRecord) : ForwardRecord :=
  mkForwardRecord (forward_owner f) (forward_declaration f) p (failure_revision f)
    (forward_failed_prefixes f) (pending_failed_prefixes f) (pending_failure_revision f)
    (authority f) (policy_revision f) (policy_generation f) (policy_hash f) (pending_policy f).
Definition set_forward_owner (o : ForwardOwner) (f : ForwardRecord) : ForwardRecord :=
  mkForwardRecord o (forward_declaration f) (forward_phase f) (failure_revision f)
    (forward_failed_prefixes f) (pending_failed_prefixes f) (pending_failure_revision f)
    (authority f) (policy_revision f) (policy_generation f) (policy_hash f) (pending_policy f).
Definition set_authority (a : option ForwardAuthority) (f : ForwardRecord) : ForwardRecord :=
  mkForwardRecord (forward_owner f) (forward_declaration f) (forward_phase f)
    (failure_revision f) (forward_failed_prefixes f) (pending_failed_prefixes f)
    (pending_failure_revision f) a (policy_revision f) (policy_generation f) (policy_hash f)
    (pending_policy f).
Definition set_failures (rev : Z) (failed : list Ipv4Prefix)
    (pending : option (list Ipv4Prefix)) (pending_rev : option Z) (f : ForwardRecord)
  : ForwardRecord :=
  mkForwardRecord (forward_owner f) (forward_declaration f) (forward_phase f) rev failed pending
    pending_rev (authority f) (policy_revision f) (policy_generation f) (policy_hash f)
    (pending_policy f).
Definition set_pending_policy (p : option PendingPolicy) (f : ForwardRecord) : ForwardRecord :=
  mkForwardRecord (forward_owner f) (forward_declaration f) (forward_phase f)
    (failure_revision f) (forward_failed_prefixes f) (pending_failed_prefixes f)
    (pending_failure_revision f) (authority f) (policy_revision f) (policy_generation f)
    (policy_hash f) p.
(** The policy in force. *)
Definition set_policy (d : PrepareDeclaration) (rev generation : Z) (hash : list Z)
    (failed : list Ipv4Prefix) (pending : option PendingPolicy) (f : ForwardRecord)
  : ForwardRecord :=
  mkForwardRecord (forward_owner f) d (forward_phase f) (failure_revision f) failed
    (pending_failed_prefixes f) (pending_failure_revision f) (authority f) rev
    (Some generation) (Some hash) pending.
Definition cancel (p : PendingPolicy) : PendingPolicy :=
  mkPendingPolicy true (revision p) (pending_generation p) (authorization_snapshot_sha256 p)
    (pending_declaration p).

(** The record of a new owner. *)
Definition new_forward (owner : ForwardOwner) (d : PrepareDeclaration) (p : Phase)
  : ForwardRecord :=
  mkForwardRecord owner d p 0 [] None None None 0 None None None.

(** ** Errors *)

(** [io::Error]. *)
Inductive IoError : Type := IoFailed.

#[export] Instance IoError_eq_dec : EqDecision IoError.
Proof. solve_decision. Defined.

(** [IxPanics] is an [unwrap] of a missing value. A repair that fails keeps both of its
    causes; in the source they are rendered as text. *)
Inductive InfrastructureError : Type :=
| IxRejected (code : string)
| IxJournal (e : IoError)
| IxBackend (e : NetworkError)
| IxPlatform (e : PlatformError)
| IxTransition (stage : string) (cause : NetworkError)
| IxRepairPending (commit recovery : InfrastructureError)
| IxResourceBudget (resource : string) (required allowed : Z)
| IxPanics.

(** The code of the reply in [serve_once]. *)
Definition infra_error_code (error : InfrastructureError) : string :=
  match error with
  | IxRejected code => code
  | IxTransition _ _ => "forward_transition_failed"
  | IxRepairPending _ _ => "forward_repair_pending"
  | _ => "infra_system_failure"
  end.

(** ** The checks of the journal *)

Definition is_remote_kind (route : RouteDeclaration) : bool :=
  bool_decide (route_kind route = Remote).

(** The signed remote prefixes, which alone may fail. *)
Definition authorized_prefixes (declaration : PrepareDeclaration) : list Ipv4Prefix :=
  map route_prefix (List.filter is_remote_kind (routes declaration)).

Fixpoint failed_prefixes_unique (authorized unique failed : list Ipv4Prefix) : bool :=
  match failed with
  | [] => true
  | prefix :: rest =>
      if bool_decide (prefix ∈ unique) || negb (bool_decide (prefix ∈ authorized)) then false
      else failed_prefixes_unique authorized (prefix :: unique) rest
  end.

Definition validate_failed_prefixes (declaration : PrepareDeclaration)
    (failed : list Ipv4Prefix) : Result InfrastructureError unit :=
  if failed_prefixes_unique (authorized_prefixes declaration) [] failed then Ok tt
  else Err (IxRejected "invalid_failed_prefix").

Definition validate_live_policy_identity (previous target : PrepareDeclaration)
  : Result InfrastructureError unit :=
  if negb (table_id previous =? table_id target)
     || negb (bool_decide (overlay_router_ipv4 previous = overlay_router_ipv4 target))
     || negb (effective_mtu previous =? effective_mtu target)
     || negb (bool_decide (exclusions previous = exclusions target))
     || negb (bool_decide (firewall previous = firewall target))
  then Err (IxRejected "infra_policy_attribute_conflict") else Ok tt.

Definition valid_policy_hash (value : list Z) : bool := is_hex value 64.

Definition io_error {A} : Result IoError A := Err IoFailed.
Definition or_io {E A} (r : Result E A) : Result IoError A := map_err (fun _ => IoFailed) r.
Definition io_refuse (b : bool) : Result IoError unit := if b then io_error else Ok tt.

Definition metadata_valid (f : ForwardRecord) : bool :=
  match policy_generation f, policy_hash f with
  | None, None => policy_revision f =? 0
  | Some generation, Some hash =>
      (0 <? policy_revision f) && (signed_generation (forward_owner f) <=? generation)
      && valid_policy_hash hash
  | _, _ => false
  end.

(** The generation of the policy in force. *)
Definition current_generation (f : ForwardRecord) : Z :=
  default (signed_generation (forward_owner f)) (policy_generation f).

Definition check_pending_policy (has_candidate : bool) (f : ForwardRecord)
  : Result IoError unit :=
  match pending_policy f with
  | None => Ok tt
  | Some pending =>
      check? or_io (PrepareDeclaration_validate (pending_declaration pending)) in
      check? or_io (validate_live_policy_identity (forward_declaration f)
                      (pending_declaration pending)) in
      io_refuse ((revision pending <=? policy_revision f)
                 || (pending_generation pending <? current_generation f)
                 || negb (valid_policy_hash (authorization_snapshot_sha256 pending))
                 || bool_decide (pending_failed_prefixes f <> None)
                 || has_candidate
                 || negb (bool_decide (forward_phase f = Active)))
  end.

Definition check_forward (has_candidate : bool) (f : ForwardRecord) : Result IoError unit :=
  check? or_io (ForwardOwner_validate (forward_owner f)) in
  check? or_io (PrepareDeclaration_validate (forward_declaration f)) in
  check? or_io (validate_failed_prefixes (forward_declaration f) (forward_failed_prefixes f)) in
  check? match pending_failed_prefixes f with
         | Some pending => or_io (validate_failed_prefixes (forward_declaration f) pending)
         | None => Ok tt
         end in
  check? io_refuse (negb (metadata_valid f)) in
  check? check_pending_policy has_candidate f in
  io_refuse (xorb (bool_decide (pending_failed_prefixes f <> None))
                  (bool_decide (pending_failure_revision f <> None))
             || match pending_failure_revision f with
                | Some revision => revision <=? failure_revision f
                | None => false
                end).

Definition check_state (s : State) : Result IoError unit :=
  check? match spec s with Some spec => or_io (InfraSpec_validate spec) | None => Ok tt end in
  let has_candidate := bool_decide (candidate s <> None) in
  check? match forward s with Some f => check_forward has_candidate f | None => Ok tt end in
  match candidate s with Some f => check_forward has_candidate f | None => Ok tt end.

(** ** Interfaces *)

Record Envelope : Type := mkEnvelope {
  schema_version : Z;
  sha256 : list Z;
  envelope_state : State;
}.

(** The JSON documents of the journal and SHA-256 in hexadecimal. *)
Class JournalFormat := {
  state_to_vec : State -> option (list Z);
  envelope_to_vec : Envelope -> option (list Z);
  envelope_from_slice : list Z -> option Envelope;
  declaration_to_vec : PrepareDeclaration -> option (list Z);
  hex_digest : list Z -> list Z;
}.

(** The [ErrorKind] of a failed read, as far as it matters. *)
Inductive ReadError : Type := ReadNotFound | ReadFailed.

(** The machine beside the network: files, processes, namespaces, descriptors. *)
Class InfraHost (W : Type) := {
  current_boot_id : W -> Result IoError (list Z);
  read_proc_stat : Z -> W -> Result ReadError (list Z);
  kill_says_alive : Z -> W -> bool;
  netns_metadata : W -> Result IoError (Z * Z);
  random_nonce : M W IoError (list Z);
  dup_descriptor : Z -> M W IoError Z;
  create_exclusive : M W PlatformError Z;
  enable_persistence : Z -> M W PlatformError unit;
  create_persistent : M W PlatformError Z;
  read_journal : W -> Result IoError (option (list Z));
  (** The file system calls of a store: the temporary file beside the journal, its name and the
      directory. *)
  create_temporary : M W IoError unit;
  write_temporary : list Z -> M W IoError unit;
  sync_temporary : M W IoError unit;
  rename_temporary : M W IoError unit;
  sync_directory : M W IoError unit;
  remove_temporary : M W IoError unit;
}.

(** [InfrastructureJournal::store], of these bytes: whatever step fails, the temporary file is
    removed as far as it can be, and the error is that of the step. *)
Definition write_journal `{!InfraHost W} (bytes : list Z) : M W IoError unit := fun w =>
  let '(r, w) :=
    (do* create_temporary in
     do* write_temporary bytes in
     do* sync_temporary in
     do* rename_temporary in
     sync_directory) w in
  match r with
  | Ok _ => (r, w)
  | Err _ => (r, (remove_temporary w).2)
  end.

(** *** The process table

    A [String] is the list of its characters. *)

(** [char::is_whitespace]. *)
Definition is_whitespace (c : Z) : bool :=
  in_range 9 13 c || (c =? 32) || (c =? 133) || (c =? 160) || (c =? 5760)
  || in_range 8192 8202 c || (c =? 8232) || (c =? 8233) || (c =? 8239) || (c =? 8287)
  || (c =? 12288).

Definition flush_word (word : list Z) (words : list (list Z)) : list (list Z) :=
  match word with [] => words | _ => rev word :: words end.

(** [str::split_whitespace]; [word] holds the current word reversed. *)
Fixpoint split_whitespace (word text : list Z) : list (list Z) :=
  match text with
  | [] => flush_word word []
  | c :: rest =>
      if is_whitespace c then flush_word word (split_whitespace [] rest)
      else split_whitespace (c :: word) rest
  end.

(** [text.rsplit_once(separator)], the second part. *)
Fixpoint after_last (separator : Z) (text : list Z) : option (list Z) :=
  match text with
  | [] => None
  | c :: rest =>
      match after_last separator rest with
      | Some suffix => Some suffix
      | None => if c =? separator then Some rest else None
      end
  end.

Fixpoint parse_digits (value : Z) (digits : list Z) : option Z :=
  match digits with
  | [] => Some value
  | c :: rest =>
      if negb (in_range 48 57 c) then None
      else
        let value := value * 10 + (c - 48) in
        if 2 ^ 64 <=? value then None else parse_digits value rest
  end.

(** [text.parse::<u64>()]. *)
Definition parse_u64 (text : list Z) : option Z :=
  match text with
  | [] => None
  | c :: rest =>
      if (c =? 43) && negb (bool_decide (rest = [])) then parse_digits 0 rest
      else parse_digits 0 text
  end.

(** State and start time in the text of [/proc/<pid>/stat]. *)
Definition process_fields (stat : list Z) : option (Z * Z) :=
  match after_last 41 stat with
  | None => None
  | Some suffix =>
      match split_whitespace [] suffix with
      | (state :: _) :: fields =>
          match nth_error fields 18 with
          | Some field =>
              match parse_u64 field with Some ticks => Some (state, ticks) | None => None end
          | None => None
          end
      | _ => None
      end
  end.

Definition linux_process_identity {W} `{!InfraHost W} (pid : Z) (w : W)
  : Result ReadError (Z * Z) :=
  let? stat := read_proc_stat pid w in
  ok_or (process_fields stat) ReadFailed.

Class InfrastructureBackend (W : Type) := {
  update_live_policy : PrepareDeclaration -> PrepareDeclaration -> list Ipv4Prefix -> WorldM W unit;
  discard_live_policy : PrepareDeclaration -> PrepareDeclaration -> WorldM W unit;
  interface_identity : WorldM W (option Z);
  interface_ownership_marker : WorldM W (option (list Z));
  stamp_infrastructure_ownership : list Z -> WorldM W unit;
  ensure_infrastructure : InfraSpec -> WorldM W Z;
  retire_infrastructure : WorldM W unit;
  reject_forwarding : PrepareDeclaration -> WorldM W unit;
  guard_forwarding : PrepareDeclaration -> WorldM W unit;
  restore_forwarding_with_failures : PrepareDeclaration -> list Ipv4Prefix -> WorldM W unit;
  update_failed_forward_prefixes :
    PrepareDeclaration -> list Ipv4Prefix -> list Ipv4Prefix -> WorldM W unit;
  validate_forwarding_replacement : PrepareDeclaration -> PrepareDeclaration -> WorldM W unit;
  retire_forwarding : PrepareDeclaration -> WorldM W unit;
  remove_stale_forwarding : PrepareDeclaration -> PrepareDeclaration -> WorldM W unit;
}.

(** ** The journal file *)

Section Journal.
Context `{!JournalFormat}.

Definition or_failed {A} (o : option A) : Result IoError A := ok_or o IoFailed.

Definition state_hash (s : State) : Result IoError (list Z) :=
  let? bytes := or_failed (state_to_vec s) in Ok (hex_digest bytes).

(** [InfrastructureJournal::load], of what the file holds. *)
Definition load_journal (file : option (list Z)) : Result IoError State :=
  match file with
  | None => Ok State_default
  | Some bytes =>
      check? io_refuse (MAX_INFRASTRUCTURE_JOURNAL_BYTES <? Z.of_nat (length bytes)) in
      let? envelope := or_failed (envelope_from_slice bytes) in
      check? io_refuse (negb (schema_version envelope =? 2)) in
      let? hash := state_hash (envelope_state envelope) in
      check? io_refuse (negb (bool_decide (hash = sha256 envelope))) in
      check? check_state (envelope_state envelope) in
      Ok (envelope_state envelope)
  end.

(** [InfrastructureJournal::store], up to the bytes of the file. *)
Definition journal_bytes (s : State) : Result IoError (list Z) :=
  let? hash := state_hash s in
  let? bytes := or_failed (envelope_to_vec (mkEnvelope 2 hash s)) in
  check? io_refuse (MAX_INFRASTRUCTURE_JOURNAL_BYTES <? Z.of_nat (length bytes)) in
  Ok bytes.
End Journal.

(** ** The service *)

Section Infra.
Context {W : Type} `{!NetworkBackend W} `{!InfrastructureBackend W} `{!InfraHost W}
  `{!JournalFormat}.

Record InfrastructureService : Type := mkInfra {
  infra_allowed_uid : Z;
  infra_allowed_gid : Z;
  infra_world : W;
  state : State;
  lifecycle_fd : option Z;
  restart_recovery_pending : bool;
}.

Definition InfraM (A : Type) : Type := M InfrastructureService InfrastructureError A.

Definition set_world (w : W) (s : InfrastructureService) : InfrastructureService :=
  mkInfra (infra_allowed_uid s) (infra_allowed_gid s) w (state s) (lifecycle_fd s)
    (restart_recovery_pending s).
Definition set_state (v : State) (s : InfrastructureService) : InfrastructureService :=
  mkInfra (infra_allowed_uid s) (infra_allowed_gid s) (infra_world s) v (lifecycle_fd s)
    (restart_recovery_pending s).
Definition set_lifecycle (v : option Z) (s : InfrastructureService) : InfrastructureService :=
  mkInfra (infra_allowed_uid s) (infra_allowed_gid s) (infra_world s) (state s) v
    (restart_recovery_pending s).
Definition set_restart (v : bool) (s : InfrastructureService) : InfrastructureService :=
  mkInfra (infra_allowed_uid s) (infra_allowed_gid s) (infra_world s) (state s)
    (lifecycle_fd s) v.

Definition InfrastructureService_new (uid gid : Z) (w : W)
  : Result InfrastructureError InfrastructureService :=
  let? file := map_err IxJournal (read_journal w) in
  let? s := map_err IxJournal (load_journal file) in
  Ok (mkInfra uid gid w s None true).

Definition reject {A} (code : string) : InfraM A := mfail (IxRejected code).
Definition rejected {A} (code : string) : Result InfrastructureError A := Err (IxRejected code).

(** Calls of the world, with the error they become. *)
Definition on_world {E A} (wrap : E -> InfrastructureError) (f : M W E A) : InfraM A :=
  fun s => let '(r, w) := f (infra_world s) in (map_err wrap r, set_world w s).
Definition backend {A} (f : WorldM W A) : InfraM A := on_world IxBackend f.
Definition backend_stage {A} (stage : BackendStage) (f : WorldM W A) : InfraM A :=
  on_world (fun _ => IxBackend (NeBackendStage stage)) f.
Definition transition {A} (stage : string) (f : WorldM W A) : InfraM A :=
  on_world (IxTransition stage) f.
Definition factory {A} (f : M W PlatformError A) : InfraM A := on_world IxPlatform f.
Definition host {A} (f : M W IoError A) : InfraM A := on_world IxJournal f.
Definition host_read {A} (f : W -> Result IoError A) : InfraM A :=
  fun s => (map_err IxJournal (f (infra_world s)), s).

Definition persist (s : State) : InfraM unit :=
  let* bytes := lift (map_err IxJournal (journal_bytes s)) in
  do* host (write_journal bytes) in
  modify (set_state s).

Definition unwrap {A} (o : option A) : InfraM A := lift (ok_or o IxPanics).

Definition ensure_live (owner : ForwardOwner) (now : Z) : Result InfrastructureError unit :=
  if owner_is_live owner now then Ok tt else rejected "forward_owner_expired".

(** [same_owner]: the retained record, when it is the owner's. *)
Definition same_owner (record : option ForwardRecord) (owner : ForwardOwner)
  : Result InfrastructureError ForwardRecord :=
  let? current := ok_or record (IxRejected "forward_missing") in
  if negb (bool_decide (forward_owner current = owner)) then rejected "stale_forward_owner"
  else Ok current.

(** ** Processes *)

Definition io_owner_alive (o : IoOwner) (w : W) : bool :=
  let boot_changed :=
    match current_boot_id w with
    | Ok id => negb (bool_decide (id = io_boot_id o))
    | Err _ => false
    end in
  if boot_changed then false
  else match linux_process_identity (io_pid o) w with
       | Ok (st, ticks) =>
           if (st =? 90) || (st =? 88) || negb (bool_decide (Some ticks = start_ticks o))
           then false else kill_says_alive (io_pid o) w
       | Err ReadNotFound => false
       | Err ReadFailed => true
       end.

Definition io_alive (o : option IoOwner) : InfraM bool :=
  gets (fun s => match o with Some o => io_owner_alive o (infra_world s) | None => false end).

Definition business_process_epoch_alive (pid ticks : Z) (w : W) : Result IoError bool :=
  match linux_process_identity pid w with
  | Ok (st, current) =>
      Ok (negb ((st =? 90) || (st =? 88) || (st =? 120)) && (current =? ticks))
  | Err ReadNotFound => Ok false
  | Err ReadFailed => io_error
  end.

Definition process_start_ticks (pid : Z) (w : W) : Result IoError (option Z) :=
  match linux_process_identity pid w with
  | Ok (_, ticks) => Ok (Some ticks)
  | _ => io_error
  end.

(** ["candy-infra-v2:"] and the nonce in hexadecimal. *)
Definition hex_digit (x : Z) : Z := if x <? 10 then 48 + x else 87 + x.
Definition hex_byte (b : Z) : list Z := [hex_digit (b / 16); hex_digit (b mod 16)].
Definition MARKER_PREFIX : list Z :=
  [99; 97; 110; 100; 121; 45; 105; 110; 102; 114; 97; 45; 118; 50; 58].
Definition new_ownership_marker : InfraM (list Z) :=
  let* nonce := host random_nonce in
  mret (MARKER_PREFIX ++ flat_map hex_byte nonce).

(** ** Identity of the infrastructure *)

Definition ensure_administrator (request : Request) : InfraM unit :=
  let* s := gets state in
  if negb (bool_decide (administrator s = Some (caller_instance_id request)))
  then reject "infra_owner_conflict" else mret tt.

Definition verify_device_ownership : InfraM unit :=
  let* s := gets state in
  if bool_decide (ownership_marker s = None) then reject "infra_ownership_conflict"
  else
    let* marker := backend interface_ownership_marker in
    if negb (bool_decide (marker = ownership_marker s)) then reject "infra_ownership_conflict"
    else mret tt.

Definition identity (id : list Z) (generation : Z) : InfraM InfraSpec :=
  let* s := gets state in
  let* sp := lift (ok_or (spec s) (IxRejected "infra_missing")) in
  if negb (bool_decide (infra_id sp = id)) || negb (infra_generation sp =? generation)
  then reject "infra_generation_conflict"
  else
    let* index := backend interface_identity in
    if negb (bool_decide (index = ifindex s)) then reject "infra_identity_conflict"
    else do* verify_device_ownership in mret sp.

(** [self.identity(spec.infra_id, spec.generation)] of the retained infrastructure. *)
Definition retained_identity (sp : InfraSpec) : InfraM InfraSpec :=
  identity (infra_id sp) (infra_generation sp).

Definition check_namespace (sp : InfraSpec) : InfraM unit :=
  let* namespace := host_read netns_metadata in
  if negb (netns_device sp =? namespace.1) || negb (netns_inode sp =? namespace.2)
  then reject "infra_namespace_conflict" else mret tt.

(** The device: created and stamped, or recognised and opened. *)
Definition create_or_open_device (marker : list Z) : InfraM unit :=
  let* index := backend interface_identity in
  match index with
  | None =>
      let* descriptor := factory create_exclusive in
      do* modify (set_lifecycle (Some descriptor)) in
      let* result := attempt (backend (stamp_infrastructure_ownership marker)) in
      match result with
      | Err error => do* modify (set_lifecycle None) in mfail error
      | Ok _ => mret tt
      end
  | Some _ =>
      do* verify_device_ownership in
      let* fd := gets lifecycle_fd in
      match fd with
      | None =>
          let* descriptor := factory create_persistent in
          modify (set_lifecycle (Some descriptor))
      | Some _ => mret tt
      end
  end.

Definition complete_creation : InfraM unit :=
  let* s := gets state in
  if negb (creation_pending s) then mret tt
  else
    let* sp := lift (ok_or (spec s) (IxRejected "infra_intent_invalid")) in
    let* marker := lift (ok_or (ownership_marker s) (IxRejected "infra_intent_invalid")) in
    do* check_namespace sp in
    do* create_or_open_device marker in
    do* verify_device_ownership in
    let* fd := gets lifecycle_fd in
    let* fd := unwrap fd in
    do* factory (enable_persistence fd) in
    let* index := backend (ensure_infrastructure sp) in
    let* next := gets state in
    let* boot := host_read current_boot_id in
    persist (set_created index boot next).

(** ** Forwarding changes in the kernel *)

Definition is_local_kind (route : RouteDeclaration) : bool :=
  bool_decide (route_kind route = Local).
Definition without_local (d : PrepareDeclaration) : PrepareDeclaration :=
  mkDeclaration (table_id d) (overlay_router_ipv4 d) (effective_mtu d)
    (List.filter (fun route => negb (is_local_kind route)) (routes d)) (exclusions d) (firewall d).

Definition fence_policy_intent (f : ForwardRecord) : InfraM unit :=
  do* backend (reject_forwarding (forward_declaration f)) in
  do* match pending_policy f with
      | Some pending =>
          let remote := without_local (pending_declaration pending) in
          if bool_decide (routes remote = []) then mret tt
          else backend (reject_forwarding remote)
      | None => mret tt
      end in
  do* backend (remove_firewall (forward_declaration f)) in
  match pending_policy f with
  | Some pending =>
      backend (discard_live_policy (forward_declaration f) (pending_declaration pending))
  | None => mret tt
  end.

(** The failures that the pending declaration still knows as something other than local. *)
Definition retained_failures (target : PrepareDeclaration) (failed : list Ipv4Prefix)
  : list Ipv4Prefix :=
  List.filter (fun prefix =>
    existsb (fun route => bool_decide (route_prefix route = prefix) && negb (is_local_kind route))
      (routes target)) failed.

Definition reconcile_live_policy (now : Z) : InfraM unit :=
  let* s := gets state in
  let* f := lift (ok_or (forward s) (IxRejected "forward_missing")) in
  do* lift (ensure_live (forward_owner f) now) in
  if negb (bool_decide (forward_phase f = Active)) || bool_decide (candidate s <> None)
     || bool_decide (pending_failed_prefixes f <> None)
  then reject "forward_policy_repair_pending"
  else
    let* pending := lift (ok_or (pending_policy f) (IxRejected "forward_policy_intent_missing")) in
    if cancelled pending then reject "forward_policy_cancelled"
    else
      let* sp := lift (ok_or (spec s) (IxRejected "infra_missing")) in
      do* retained_identity sp in
      let failed := retained_failures (pending_declaration pending) (forward_failed_prefixes f) in
      do* transition "live_policy_routes_firewall"
            (update_live_policy (forward_declaration f) (pending_declaration pending) failed) in
      let* next := gets state in
      let* current := unwrap (forward next) in
      persist (set_forward (Some (set_policy (pending_declaration pending) (revision pending)
        (pending_generation pending) (authorization_snapshot_sha256 pending) failed None
        current)) next).

Definition install_replacement (previous candidate : ForwardRecord) (l : list SysctlChange)
  : InfraM unit :=
  let guarded := bool_decide (forward_phase previous = Guarded) in
  do* (if guarded then transition "guard_previous" (guard_forwarding (forward_declaration previous))
       else transition "guard_previous" (reject_forwarding (forward_declaration previous))) in
  do* (if guarded then mret tt
       else transition "guard_candidate" (reject_forwarding (forward_declaration candidate))) in
  do* transition "remove_previous_firewall" (remove_firewall (forward_declaration previous)) in
  do* transition "candidate_sysctls" (prepare_sysctls (forward_declaration candidate) l) in
  do* transition "candidate_firewall" (prepare_firewall (forward_declaration candidate)) in
  do* transition "remove_previous_routes"
        (remove_stale_forwarding (forward_declaration previous) (forward_declaration candidate)) in
  transition "candidate_routes"
    (restore_forwarding_with_failures (forward_declaration candidate)
       (forward_failed_prefixes candidate)).

(** [self.state.boot_id == current_boot_id()?], evaluated only behind the other conjuncts. *)
Definition in_this_boot (b : bool) : InfraM bool :=
  if negb b then mret false
  else
    let* s := gets state in
    let* boot := host_read current_boot_id in
    mret (bool_decide (boot_id s = boot)).

Definition rollback_replacement (previous candidate : ForwardRecord) (now : Z) : InfraM unit :=
  let live := owner_is_live (forward_owner previous) now in
  let was p := bool_decide (forward_phase previous = p) in
  let* guarded_live := in_this_boot (was Guarded && live) in
  do* (if guarded_live : bool then backend (guard_forwarding (forward_declaration previous))
       else
         do* backend (reject_forwarding (forward_declaration candidate)) in
         backend (reject_forwarding (forward_declaration previous))) in
  do* backend (remove_firewall (forward_declaration candidate)) in
  let* old_live := in_this_boot ((was Active || was Guarded) && live) in
  do* (if old_live : bool then backend (prepare_firewall (forward_declaration previous))
       else mret tt) in
  let retained := if old_live : bool then previous else set_forward_phase Revoked previous in
  do* backend (remove_stale_forwarding (forward_declaration candidate)
                 (forward_declaration previous)) in
  do* (if old_live : bool
       then backend (restore_forwarding_with_failures (forward_declaration previous)
                       (forward_failed_prefixes previous))
       else mret tt) in
  let* next := gets state in
  persist (set_forward_candidate None (set_forward (Some retained) next)).

(** ** Recovery *)

Definition owner_live_now (now : Z) (f : ForwardRecord) : bool :=
  owner_is_live (forward_owner f) now.

(** A candidate whose commit was interrupted is rolled back; one that only waits is dropped
    after a restart or when it expired. *)
Definition recover_candidate (now : Z) : InfraM bool :=
  let* s := gets state in
  match candidate s with
  | None => mret false
  | Some c =>
      if bool_decide (forward_phase c = Preparing) then
        let* previous := lift (ok_or (forward s) (IxRejected "forward_missing")) in
        do* rollback_replacement previous c now in mret true
      else
        let* restarted := gets restart_recovery_pending in
        if restarted || negb (owner_live_now now c)
        then do* persist (set_forward_candidate None s) in mret true
        else mret false
  end.

Definition revoke_fenced (s : State) : InfraM unit :=
  let* f := unwrap (forward s) in
  persist (set_forward (Some (set_pending_policy None (set_forward_phase Revoked f))) s).

Definition policy_cancelled (s : State) : bool :=
  match forward s with
  | Some f => match pending_policy f with Some p => cancelled p | None => false end
  | None => false
  end.

Definition recover_cancelled : InfraM bool :=
  let* s := gets state in
  if negb (policy_cancelled s) then mret false
  else
    let* f := unwrap (forward s) in
    do* fence_policy_intent f in
    let* next := gets state in
    do* revoke_fenced next in
    mret true.

Definition policy_due (now : Z) (s : State) : bool :=
  match forward s with
  | Some f => bool_decide (pending_policy f <> None) && bool_decide (forward_phase f = Active)
              && owner_live_now now f
  | None => false
  end.

Definition recover_policy (now : Z) : InfraM bool :=
  let* s := gets state in
  let* due := in_this_boot (policy_due now s) in
  if negb due then mret false
  else let* result := attempt (reconcile_live_policy now) in mret (is_ok result).

Definition recover_failed_prefixes (now : Z) : InfraM bool :=
  let* s := gets state in
  match forward s with
  | None => mret false
  | Some f =>
      let* due := in_this_boot (bool_decide (forward_phase f = Active) && owner_live_now now f) in
      match due, pending_failed_prefixes f with
      | true, Some target =>
          let* sp := unwrap (spec s) in
          do* retained_identity sp in
          let* result := attempt (backend (update_failed_forward_prefixes
                           (forward_declaration f) (forward_failed_prefixes f) target)) in
          if is_err result then mret false
          else
            let* next := gets state in
            let* retained := unwrap (forward next) in
            let* rev := unwrap (pending_failure_revision retained) in
            do* persist (set_forward (Some (set_failures rev target None None retained)) next) in
            mret true
      | _, _ => mret false
      end
  end.

(** The forwarding owner: fenced when it expired, when the machine rebooted, or when its
    preparation was interrupted by a restart. *)
Definition fence_owner (f : ForwardRecord) : InfraM unit :=
  let f := match pending_policy f with
           | Some pending => set_pending_policy (Some (cancel pending)) f
           | None => f
           end in
  do* (if bool_decide (pending_policy f <> None)
       then let* s := gets state in persist (set_forward (Some f) s)
       else mret tt) in
  do* fence_policy_intent f in
  let* next := gets state in
  let* current := unwrap (forward next) in
  let current := set_pending_policy None (set_forward_phase Revoked current) in
  persist (set_forward (Some (set_failures (failure_revision current)
    (forward_failed_prefixes current) None None current)) next).

Definition recover_owner (now : Z) (recovered : bool) : InfraM bool :=
  let* s := gets state in
  let* restarted := gets restart_recovery_pending in
  let settle (r : bool) : InfraM bool := do* modify (set_restart false) in mret r in
  match forward s with
  | None => settle recovered
  | Some f =>
      if bool_decide (forward_phase f = Revoked) then settle recovered
      else
        let ambiguous_preparation := restarted &&
          (bool_decide (forward_phase f = Preparing) || bool_decide (forward_phase f = Prepared)) in
        let* boot := host_read current_boot_id in
        let boot_changed := negb (bool_decide (boot_id s = boot)) in
        if bool_decide (forward_phase f = Guarded) && negb boot_changed && owner_live_now now f
        then do* backend (guard_forwarding (forward_declaration f)) in settle true
        else if negb ambiguous_preparation && negb boot_changed && owner_live_now now f
        then settle recovered
        else do* fence_owner f in settle true
  end.

Definition recover_expired (now : Z) : InfraM bool :=
  do* complete_creation in
  let* r1 := recover_candidate now in
  let* r2 := recover_cancelled in
  let* r3 := recover_policy now in
  let* r4 := recover_failed_prefixes now in
  recover_owner now (r1 || r2 || r3 || r4).

(** ** Requests *)

(** How an operation ends: with its own reply, or by persisting [next] and acknowledging. *)
Inductive Outcome : Type :=
| Replies (body : Body) (descriptor : option Z)
| Persists (next : State).

Definition owned_by (owner : ForwardOwner) (record : option ForwardRecord)
  : option ForwardRecord :=
  match record with
  | Some r => if bool_decide (forward_owner r = owner) then Some r else None
  | None => None
  end.

(** The candidate of the owner, or else its forwarding record. *)
Definition record_of (owner : ForwardOwner) (s : State) : option ForwardRecord :=
  match owned_by owner (candidate s) with
  | Some r => Some r
  | None => owned_by owner (forward s)
  end.

(** The proof that an authorised commit carries: [ForwardCommitAuthorized] becomes
    [ForwardCommit]. *)
Definition authenticate_commit (request : Request) (now : Z) : InfraM (Operation * bool) :=
  match infra_operation request with
  | ForwardCommitAuthorized owner receipt =>
      do* ensure_administrator request in
      let* s := gets state in
      let* current := lift (ok_or (record_of owner s) (IxRejected "forward_authority_missing")) in
      let* io := lift (ok_or (io_owner s) (IxRejected "io_owner_missing")) in
      let* w := gets infra_world in
      let a := receipt_authority receipt in
      let stale :=
        negb (bool_decide (authority current = Some a))
        || negb (authority_io_epoch a =? io_epoch io)
        || negb (authority_io_pid a =? io_pid io)
        || negb (bool_decide (Some (authority_io_start_ticks a) = start_ticks io))
        || negb (io_owner_alive io w)
        || negb (owner_active receipt)
        || negb (authorization_deadline_mono_ms receipt =? auth_deadline_mono_ms owner)
        || negb (proof_is_fresh now (packet_proof_reported_mono_ms receipt)) in
      if stale then reject "forward_authority_receipt_mismatch"
      else
        let* alive := host_read (business_process_epoch_alive (candidate_pid a)
                                   (candidate_start_ticks a)) in
        if negb alive then reject "forward_authority_receipt_mismatch"
        else mret (ForwardCommit owner, true)
  | operation => mret (operation, false)
  end.

Definition is_prepare_or_commit (operation : Operation) : bool :=
  match operation with ForwardPrepare _ _ _ _ | ForwardCommit _ => true | _ => false end.
Definition is_route_transaction (operation : Operation) : bool :=
  match operation with
  | ForwardPrepare _ _ _ _ | ForwardCommit _ | ForwardGuard _
  | ForwardFailedPrefixes _ _ _ => true
  | _ => false
  end.

(** Route transactions wait for a pending repair. *)
Definition refuse_during_repair (operation : Operation) : InfraM unit :=
  let* s := gets state in
  match forward s with
  | Some f =>
      if bool_decide (pending_failed_prefixes f <> None) && is_prepare_or_commit operation
      then reject "forward_prefix_repair_pending"
      else if bool_decide (pending_policy f <> None) && is_route_transaction operation
      then reject "forward_policy_repair_pending"
      else mret tt
  | None => mret tt
  end.

Definition infra_status (s : State) : Outcome :=
  Replies (BInfraStatus (spec s) (ifindex s) (io_epoch <$> io_owner s)) None.

(** [InfraEnsure] when the interface of the retained infrastructure is gone. *)
Definition repair_infrastructure : InfraM Outcome :=
  let* next := gets state in
  let* alive := io_alive (io_owner next) in
  if alive : bool then reject "io_owner_alive"
  else
    let* next :=
      match forward next with
      | Some f =>
          do* backend (reject_forwarding (forward_declaration f)) in
          do* backend (remove_firewall (forward_declaration f)) in
          mret (set_forward (Some (set_forward_phase Revoked f)) next)
      | None => mret next
      end in
    let* marker := new_ownership_marker in
    let* boot := host_read current_boot_id in
    do* persist (set_creation_intent (spec next) None marker (administrator next) None boot
                   (set_forward_candidate None next)) in
    do* complete_creation in
    let* next := gets state in
    do* unwrap (ifindex next) in
    mret (Replies (BInfraStatus (spec next) (ifindex next) None) None).

Definition infra_ensure (request : Request) (sp : InfraSpec) : InfraM Outcome :=
  do* check_namespace sp in
  let* next := gets state in
  match spec next with
  | Some existing =>
      do* ensure_administrator request in
      if negb (bool_decide (existing = sp)) then reject "infra_generation_conflict"
      else
        let* index := backend interface_identity in
        if bool_decide (index = None) then repair_infrastructure
        else do* retained_identity sp in mret (infra_status next)
  | None =>
      let* index := backend interface_identity in
      if bool_decide (index <> None) then reject "infra_unowned_interface"
      else
        let* marker := new_ownership_marker in
        let* boot := host_read current_boot_id in
        do* persist (set_creation_intent (Some sp) (ifindex next) marker
                       (Some (caller_instance_id request)) (io_owner next) boot next) in
        do* complete_creation in
        let* s := gets state in
        mret (Replies (BInfraStatus (spec s) (ifindex s) None) None)
  end.

Definition acquire_io (request : Request) (id : list Z) (generation epoch : Z) : InfraM Outcome :=
  let* sp := identity id generation in
  let* next := gets state in
  let* alive := io_alive (io_owner next) in
  if alive : bool then reject "io_owner_alive"
  else if epoch <=? last_io_epoch next then reject "stale_io_epoch"
  else
    let* fd := gets lifecycle_fd in
    do* match fd with
        | None => let* fd := factory create_persistent in modify (set_lifecycle (Some fd))
        | Some _ => mret tt
        end in
    let* fd := gets lifecycle_fd in
    let* fd := unwrap fd in
    let* descriptor := host (dup_descriptor fd) in
    let* boot := host_read current_boot_id in
    let* ticks := host_read (process_start_ticks (caller_pid request)) in
    do* persist (set_io_owner (Some (mkIoOwner (caller_instance_id request) (caller_pid request)
                   epoch boot ticks)) epoch next) in
    let* index := gets (fun s => ifindex (state s)) in
    let* index := unwrap index in
    mret (Replies (BIoFd sp index epoch) (Some descriptor)).

Definition release_io (request : Request) (id : list Z) (generation epoch : Z) : InfraM Outcome :=
  do* identity id generation in
  do* ensure_administrator request in
  let* next := gets state in
  let* alive := io_alive (io_owner next) in
  let held := match io_owner next with Some o => io_epoch o =? epoch | None => false end in
  if held && negb alive then mret (Persists (set_io_owner None (last_io_epoch next) next))
  else reject "io_owner_alive".

Definition infra_retire (request : Request) (id : list Z) (generation : Z) : InfraM Outcome :=
  do* ensure_administrator request in
  do* identity id generation in
  let* next := gets state in
  let* alive := io_alive (io_owner next) in
  if alive : bool then reject "io_owner_alive"
  else
    do* match forward next with
        | Some f =>
            if negb (bool_decide (forward_phase f = Revoked)) then reject "forwarding_active"
            else
              do* backend (retire_forwarding (forward_declaration f)) in
              backend (restore_sysctls (forward_declaration f) (state_sysctls next))
        | None => mret tt
        end in
    do* backend retire_infrastructure in
    do* modify (set_lifecycle None) in
    do* persist State_default in
    mret (Replies BAck None).

(** *** Forwarding *)

(** The retained record refuses the new owner or declaration. *)
Definition prepare_is_stale (previous : ForwardRecord) (last_token : Z) (retry : bool)
    (owner : ForwardOwner) (declaration : PrepareDeclaration) : bool :=
  (signed_generation owner <? signed_generation (forward_owner previous))
  || ((signed_generation owner =? signed_generation (forward_owner previous))
      && negb (bool_decide (declaration = forward_declaration previous)))
  || (worker_epoch owner <? worker_epoch (forward_owner previous))
  || ((fencing_token owner <=? Z.max (fencing_token (forward_owner previous)) last_token)
      && negb retry).

Definition replaceable (p : Phase) : bool :=
  match p with Active | Guarded | Revoked => true | Preparing | Prepared => false end.

Definition shared_policy_differs (previous declaration : PrepareDeclaration) : bool :=
  negb (table_id previous =? table_id declaration)
  || negb (Bool.eqb (require_ipv4_forwarding (firewall previous))
             (require_ipv4_forwarding (firewall declaration)))
  || negb (Bool.eqb (manage_rp_filter (firewall previous))
             (manage_rp_filter (firewall declaration))).

(** The first preparation, or its retry: intent first, then the kernel. *)
Definition prepare_initial (owner : ForwardOwner) (declaration : PrepareDeclaration)
    (next : State) : InfraM Outcome :=
  let next := set_fencing_token (fencing_token owner)
                (set_forward (Some (new_forward owner declaration Preparing)) next) in
  do* persist next in
  do* backend_stage SysctlPrepare (prepare_sysctls declaration (state_sysctls next)) in
  do* backend_stage RoutePrepare (reject_forwarding declaration) in
  do* backend (remove_firewall declaration) in
  do* backend_stage FirewallPrepare (prepare_firewall declaration) in
  mret (Persists (set_forward (Some (new_forward owner declaration Prepared)) next)).

Definition prepare_against (previous : ForwardRecord) (owner : ForwardOwner)
    (declaration : PrepareDeclaration) (next : State) : InfraM Outcome :=
  if bool_decide (forward_owner previous = owner)
     && bool_decide (forward_declaration previous = declaration)
     && bool_decide (forward_phase previous = Prepared)
  then mret (Replies BAck None)
  else if negb (bool_decide (domain_id (forward_owner previous) = domain_id owner))
  then reject "unsupported_multi_domain"
  else
    let retry_preparation := bool_decide (forward_owner previous = owner)
                             && bool_decide (forward_phase previous = Preparing) in
    if prepare_is_stale previous (last_fencing_token next) retry_preparation owner declaration
    then reject "stale_forward_owner"
    else if negb (replaceable (forward_phase previous)) && negb retry_preparation
    then reject "forward_preparation_pending"
    else if shared_policy_differs (forward_declaration previous) declaration
    then reject "infra_policy_attribute_conflict"
    else if negb retry_preparation then
      do* backend (validate_forwarding_replacement (forward_declaration previous) declaration) in
      do* persist (set_fencing_token (fencing_token owner)
                     (set_forward_candidate (Some (new_forward owner declaration Prepared)) next)) in
      mret (Replies BAck None)
    else prepare_initial owner declaration next.

Definition forward_prepare (request : Request) (id : list Z) (generation : Z)
    (owner : ForwardOwner) (declaration : PrepareDeclaration) (now : Z) : InfraM Outcome :=
  do* ensure_administrator request in
  let* sp := identity id generation in
  do* lift (ensure_live owner now) in
  if negb (bool_decide (overlay_router_ipv4 declaration = spec_overlay_router_ipv4 sp))
     || negb (effective_mtu declaration =? spec_mtu sp)
  then reject "infra_config_conflict"
  else
    let* next := gets state in
    match candidate next with
    | Some c =>
        if bool_decide (forward_owner c = owner)
           && bool_decide (forward_declaration c = declaration)
        then mret (Replies BAck None)
        else reject "forward_candidate_pending"
    | None =>
        match forward next with
        | Some previous => prepare_against previous owner declaration next
        | None =>
            let* changes := backend_stage Preflight (preflight declaration) in
            prepare_initial owner declaration (set_state_sysctls changes next)
        end
    end.

Definition forward_authorize (request : Request) (owner : ForwardOwner) (a : ForwardAuthority)
    (now : Z) : InfraM Outcome :=
  do* ensure_administrator request in
  do* lift (ensure_live owner now) in
  let* next := gets state in
  let* io := lift (ok_or (io_owner next) (IxRejected "io_owner_missing")) in
  let* w := gets infra_world in
  if negb (authority_io_pid a =? io_pid io) || negb (authority_io_epoch a =? io_epoch io)
     || negb (bool_decide (Some (authority_io_start_ticks a) = start_ticks io))
     || negb (io_owner_alive io w)
  then reject "forward_authority_io_mismatch"
  else
    let is_candidate := bool_decide (owned_by owner (candidate next) <> None) in
    let* current := lift (same_owner (if is_candidate then candidate next else forward next) owner) in
    let* json := lift (ok_or (declaration_to_vec (forward_declaration current))
                         (IxJournal IoFailed)) in
    if negb (bool_decide (forward_phase current = Prepared))
       || negb (bool_decide (declaration_hash a = hex_digest json))
       || match authority current with
          | Some old => negb (bool_decide (old = a))
          | None => false
          end
    then reject "forward_authority_conflict"
    else
      let current := Some (set_authority (Some a) current) in
      mret (Persists (if is_candidate then set_forward_candidate current next
                      else set_forward current next)).

(** An owner handoff that changes nothing in the kernel. *)
Definition same_policy (previous c : ForwardRecord) : bool :=
  bool_decide (forward_phase previous = Active)
  && bool_decide (forward_declaration c = forward_declaration previous)
  && bool_decide (forward_failed_prefixes c = forward_failed_prefixes previous)
  && bool_decide (pending_failed_prefixes previous = None)
  && bool_decide (pending_failed_prefixes c = None).

(** A failed cut-over is rolled back; if that fails too, both errors are reported. *)
Definition roll_back_after {A} (error : InfrastructureError) (previous c : ForwardRecord)
    (now : Z) : InfraM A :=
  let* recovery := attempt (rollback_replacement previous c now) in
  match recovery with
  | Err recovery => mfail (IxRepairPending error recovery)
  | Ok _ => mfail error
  end.

Definition commit_replacement_of (c : ForwardRecord) (next : State) (now : Z) : InfraM Outcome :=
  let* previous := lift (ok_or (forward next) (IxRejected "forward_missing")) in
  let preparing := set_forward_phase Preparing c in
  let active := set_forward_phase Active c in
  let next := set_forward_candidate (Some preparing) next in
  let committed := set_forward_candidate None (set_forward (Some active) next) in
  do* backend (validate_forwarding_replacement (forward_declaration previous)
                 (forward_declaration c)) in
  if same_policy previous c then
    do* persist committed in mret (Replies BAck None)
  else
    do* persist next in
    let* result := attempt (install_replacement previous preparing (state_sysctls next)) in
    match result with
    | Err error => roll_back_after error previous preparing now
    | Ok _ =>
        let* stored := attempt (persist committed) in
        match stored with
        | Err error => roll_back_after error previous active now
        | Ok _ => mret (Replies BAck None)
        end
    end.

Definition commit_current (owner : ForwardOwner) (next : State) : InfraM Outcome :=
  let* current := lift (same_owner (forward next) owner) in
  if bool_decide (forward_phase current = Active) then mret (Replies BAck None)
  else if negb (bool_decide (forward_phase current = Prepared)) then reject "invalid_forward_phase"
  else
    let* restored := attempt (backend (restore_forwarding_with_failures
                       (forward_declaration current) (forward_failed_prefixes current))) in
    match restored with
    | Err error => do* backend (reject_forwarding (forward_declaration current)) in mfail error
    | Ok _ => mret (Persists (set_forward (Some (set_forward_phase Active current)) next))
    end.

Definition forward_commit (request : Request) (owner : ForwardOwner) (authenticated : bool)
    (now : Z) : InfraM Outcome :=
  do* ensure_administrator request in
  do* lift (ensure_live owner now) in
  let* next := gets state in
  let* sp := lift (ok_or (spec next) (IxRejected "infra_missing")) in
  do* retained_identity sp in
  let bound := match record_of owner next with
               | Some r => bool_decide (authority r <> None)
               | None => false
               end in
  if bound && negb authenticated then reject "forward_authority_receipt_required"
  else match owned_by owner (candidate next) with
       | Some c => commit_replacement_of c next now
       | None => commit_current owner next
       end.

Definition forward_guard (request : Request) (owner : ForwardOwner) (now : Z) : InfraM Outcome :=
  do* ensure_administrator request in
  do* lift (ensure_live owner now) in
  let* next := gets state in
  let* current := lift (same_owner (forward next) owner) in
  if bool_decide (forward_phase current = Guarded) then mret (Replies BAck None)
  else if negb (bool_decide (forward_phase current = Active)) then reject "invalid_forward_phase"
  else
    do* persist (set_forward (Some (set_forward_phase Guarded current)) next) in
    do* backend (guard_forwarding (forward_declaration current)) in
    mret (Replies BAck None).

Definition revoke_current (owner : ForwardOwner) (next : State) : InfraM Outcome :=
  let* current := lift (same_owner (forward next) owner) in
  let cancelled_record :=
    match pending_policy current with
    | Some pending => set_pending_policy (Some (cancel pending)) current
    | None => current
    end in
  let next := set_forward (Some cancelled_record) next in
  do* (if bool_decide (pending_policy current <> None) then persist next else mret tt) in
  do* fence_policy_intent cancelled_record in
  let revoked := set_pending_policy None (set_failures (failure_revision current)
                   (forward_failed_prefixes current) None None
                   (set_forward_phase Revoked cancelled_record)) in
  mret (Persists (set_forward_candidate None (set_forward (Some revoked) next))).

Definition forward_revoke (request : Request) (owner : ForwardOwner) (now : Z) : InfraM Outcome :=
  do* ensure_administrator request in
  let* next := gets state in
  match owned_by owner (candidate next) with
  | Some c =>
      do* (if bool_decide (forward_phase c = Preparing) then
             let* previous := unwrap (forward next) in
             rollback_replacement previous c now
           else persist (set_forward_candidate None next)) in
      mret (Replies BAck None)
  | None => revoke_current owner next
  end.

Definition renewal_is_stale (current : ForwardRecord) (owner : ForwardOwner) : bool :=
  let o := forward_owner current in
  negb (bool_decide (domain_id o = domain_id owner))
  || negb (signed_generation o =? signed_generation owner)
  || negb (worker_epoch o =? worker_epoch owner)
  || negb (fencing_token o =? fencing_token owner)
  || negb (auth_deadline_mono_ms o =? auth_deadline_mono_ms owner)
  || (auth_deadline_mono_ms o <? forward_lease_deadline_mono_ms owner)
  || (forward_lease_deadline_mono_ms owner <? forward_lease_deadline_mono_ms o)
  || bool_decide (forward_phase current = Revoked).

Definition forward_lease_renew (request : Request) (owner : ForwardOwner) (now : Z)
  : InfraM Outcome :=
  do* ensure_administrator request in
  do* lift (ensure_live owner now) in
  let* next := gets state in
  let* current := lift (ok_or (forward next) (IxRejected "forward_missing")) in
  if renewal_is_stale current owner then reject "stale_forward_owner"
  else mret (Persists (set_forward (Some (set_forward_owner owner current)) next)).

(** The kernel update of an active record: intent, routes, result. [put] stores the record
    where it came from. *)
Definition publish_failures (put : ForwardRecord -> State) (current : ForwardRecord) (rev : Z)
    (target : list Ipv4Prefix) : InfraM Outcome :=
  let next := put (set_failures (failure_revision current) (forward_failed_prefixes current)
                     (Some target) (Some rev) current) in
  do* persist next in
  do* transition "failed_prefix_routes" (update_failed_forward_prefixes
        (forward_declaration current) (forward_failed_prefixes current) target) in
  let* f := unwrap (forward next) in
  do* persist (set_forward (Some (set_failures rev target None None f)) next) in
  mret (Replies BAck None).

Definition forward_failed (request : Request) (owner : ForwardOwner) (rev : Z)
    (failed : list Ipv4Prefix) (now : Z) : InfraM Outcome :=
  do* ensure_administrator request in
  do* lift (ensure_live owner now) in
  let* next := gets state in
  let* sp := lift (ok_or (spec next) (IxRejected "infra_missing")) in
  do* retained_identity sp in
  let is_candidate := bool_decide (owned_by owner (candidate next) <> None) in
  let* current := lift (same_owner (if is_candidate then candidate next else forward next) owner) in
  do* lift (validate_failed_prefixes (forward_declaration current) failed) in
  let target := merge_sort prefix_le failed in
  let latest_revision := default (failure_revision current) (pending_failure_revision current) in
  let latest_prefixes :=
    default (forward_failed_prefixes current) (pending_failed_prefixes current) in
  let put (r : ForwardRecord) := if is_candidate then set_forward_candidate (Some r) next
                                 else set_forward (Some r) next in
  if (rev <? latest_revision)
     || ((rev =? latest_revision) && negb (bool_decide (target = latest_prefixes)))
  then reject "stale_failure_revision"
  else if bool_decide (pending_failed_prefixes current <> None)
  then reject "forward_prefix_repair_pending"
  else if rev =? latest_revision then mret (Replies BAck None)
  else if bool_decide (forward_phase current = Prepared) then
    do* persist (put (set_failures rev target (pending_failed_prefixes current)
                        (pending_failure_revision current) current)) in
    mret (Replies BAck None)
  else if negb (bool_decide (forward_phase current = Active)) then reject "forward_not_active"
  else if bool_decide (forward_failed_prefixes current = target) then
    do* persist (put (set_failures rev target (pending_failed_prefixes current)
                        (pending_failure_revision current) current)) in
    mret (Replies BAck None)
  else publish_failures put current rev target.

Definition policy_is_stale (current : ForwardRecord) (rev generation : Z) (hash : list Z)
    (declaration : PrepareDeclaration) : bool :=
  (rev <? policy_revision current)
  || (generation <? current_generation current)
  || ((rev =? policy_revision current)
      && (negb (bool_decide (forward_declaration current = declaration))
          || negb (bool_decide (policy_generation current = Some generation))
          || negb (bool_decide (policy_hash current = Some hash)))).

Definition forward_policy_update (request : Request) (owner : ForwardOwner) (rev generation : Z)
    (hash : list Z) (declaration : PrepareDeclaration) (now : Z) : InfraM Outcome :=
  do* ensure_administrator request in
  do* lift (ensure_live owner now) in
  let* next := gets state in
  let* sp := lift (ok_or (spec next) (IxRejected "infra_missing")) in
  do* retained_identity sp in
  if bool_decide (candidate next <> None) then reject "forward_candidate_pending"
  else
    let* current := lift (same_owner (forward next) owner) in
    if negb (bool_decide (forward_phase current = Active)) then reject "forward_not_active"
    else if bool_decide (pending_failed_prefixes current <> None)
    then reject "forward_prefix_repair_pending"
    else if bool_decide (pending_policy current <> None)
    then reject "forward_policy_repair_pending"
    else
      do* lift (validate_live_policy_identity (forward_declaration current) declaration) in
      if policy_is_stale current rev generation hash declaration
      then reject "stale_policy_revision"
      else if rev =? policy_revision current then mret (Replies BAck None)
      else if bool_decide (forward_declaration current = declaration) then
        do* persist (set_forward (Some (set_policy declaration rev generation hash
                       (forward_failed_prefixes current) None current)) next) in
        mret (Replies BAck None)
      else
        do* backend (validate_forwarding_replacement (forward_declaration current) declaration) in
        do* persist (set_forward (Some (set_pending_policy
              (Some (mkPendingPolicy false rev generation hash declaration)) current)) next) in
        do* reconcile_live_policy now in
        mret (Replies BAck None).

Definition forward_status (s : State) : Outcome :=
  Replies (BForwardStatus
    (forward_owner <$> forward s) (forward_phase <$> forward s) (forward_owner <$> candidate s)
    (last_fencing_token s)
    (default 0 (failure_revision <$> forward s))
    (default [] (forward_failed_prefixes <$> forward s))
    (forward s ≫= pending_failure_revision)
    (forward s ≫= pending_failed_prefixes)
    (default 0 (policy_revision <$> forward s))
    (forward s ≫= policy_generation)
    (forward s ≫= policy_hash)
    (forward s ≫= fun f => revision <$> pending_policy f)) None.

(** *** The dispatcher *)

Definition handle_operation (request : Request) (operation : Operation) (authenticated : bool)
    (now : Z) : InfraM Outcome :=
  match operation with
  | InDomain _ _ _ => reject "domain_router_required"
  | Capabilities | ForwardCommitAuthorized _ _ => mfail IxPanics
  | InfraStatus => let* s := gets state in mret (infra_status s)
  | InfraEnsure sp => infra_ensure request sp
  | InfraAcquireIoFd id generation epoch => acquire_io request id generation epoch
  | InfraReleaseIo id generation epoch => release_io request id generation epoch
  | InfraRetire id generation => infra_retire request id generation
  | ForwardPrepare id generation owner declaration =>
      forward_prepare request id generation owner declaration now
  | ForwardAuthorize owner a => forward_authorize request owner a now
  | ForwardCommit owner => forward_commit request owner authenticated now
  | ForwardGuard owner => forward_guard request owner now
  | ForwardRevoke owner => forward_revoke request owner now
  | ForwardLeaseRenew owner => forward_lease_renew request owner now
  | ForwardFailedPrefixes owner rev failed => forward_failed request owner rev failed now
  | ForwardPolicyUpdate owner rev generation hash declaration =>
      forward_policy_update request owner rev generation hash declaration now
  | ForwardStatus => let* s := gets state in mret (forward_status s)
  end.

(** A change that cannot be made durable leaves the retained declaration fenced. *)
Definition finish (outcome : Outcome) : InfraM (Body * option Z) :=
  match outcome with
  | Replies body descriptor => mret (body, descriptor)
  | Persists next =>
      let* result := attempt (persist next) in
      match result with
      | Err error =>
          let* s := gets state in
          do* match forward s with
              | Some f =>
                  if bool_decide (forward_phase f = Guarded)
                  then ignore (backend (guard_forwarding (forward_declaration f)))
                  else ignore (backend (reject_forwarding (forward_declaration f)))
              | None => mret tt
              end in
          mfail error
      | Ok _ => mret (BAck, None)
      end
  end.

Definition is_capabilities (operation : Operation) : bool :=
  match operation with Capabilities => true | _ => false end.

Definition infra_process (request : Request) (peer : PeerCredentials) (now : Z)
  : InfraM (Body * option Z) :=
  do* lift (map_err (fun _ => IxRejected "invalid_request") (Request_validate request)) in
  let* s := gets id in
  if negb (peer_uid peer =? infra_allowed_uid s) || negb (peer_gid peer =? infra_allowed_gid s)
     || negb (peer_pid peer =? caller_pid request)
  then reject "unauthorized_peer"
  else if is_capabilities (infra_operation request)
  then mret (BCapabilities 2 true false, None)
  else
    do* recover_expired now in
    let* normalized := authenticate_commit request now in
    let '(operation, authenticated) := normalized in
    do* refuse_during_repair operation in
    let* outcome := handle_operation request operation authenticated now in
    finish outcome.

(** [serve_once], from the request received to the response sent. *)
Definition infra_serve (request : Request) (peer : PeerCredentials) (now : Z)
    (s : InfrastructureService) : (Body * option Z) * InfrastructureService :=
  match infra_process request peer now s with
  | (Ok reply, s) => (reply, s)
  | (Err error, s) => ((BError (bytes_of (infra_error_code error)),
                         None), s)
  end.
End Infra.

Arguments InfrastructureService : clear implicits.
Arguments InfraM : clear implicits.
