(* ===== verification/ProcessFacts.v ===== *)
(** * The identity of a process

    What the service reads of [/proc/<pid>/stat]: the state and the start time, whatever
    characters the name of the process contains. *)
From stdpp Require Import base tactics list numbers option sorting strings.
From Stdlib Require Import ZArith Lia.
From S2P Require Import Prelude Ipv4 Wire Proto Network Service InfraProto Infra.

#[local] Open Scope Z_scope.

Lemma after_last_none sep l : sep ∉ l -> after_last sep l = None.
Proof.
  induction l as [|c l IH]; [done|]. intros [Hc Hl]%not_elem_of_cons. simpl. rewrite (IH Hl).
  destruct (Z.eqb_spec c sep); [congruence|done].
Qed.

Lemma after_last_app sep a l : sep ∉ l -> after_last sep (a ++ sep :: l) = Some l.
Proof.
  intros Hl. induction a as [|c a IH]; simpl; [|by rewrite IH].
  by rewrite after_last_none, Z.eqb_refl.
Qed.

(** A word: characters without a space, at least one. *)
Definition is_word (l : list Z) : Prop := l <> [] /\ Forall (fun c => is_whitespace c = false) l.

Lemma split_word word l rest :
  Forall (fun c => is_whitespace c = false) l ->
  split_whitespace word (l ++ rest) = split_whitespace (rev l ++ word) rest.
Proof.
  intros Hl. revert word. induction Hl as [|c l Hc Hl IH]; intros word; [done|]. simpl.
  rewrite Hc, IH. by rewrite <- (assoc_L app).
Qed.

Lemma flush_rev l words : l <> [] -> flush_word (rev l) words = l :: words.
Proof.
  intros Hl. unfold flush_word. destruct (rev l) as [|c r] eqn:E.
  - destruct Hl. by rewrite <- (rev_involutive l), E.
  - by rewrite <- E, rev_involutive.
Qed.

(** Words, each preceded by a space. *)
Definition spaced (words : list (list Z)) : list Z := flat_map (cons 32) words.

Lemma split_spaced words word :
  Forall is_word words ->
  split_whitespace word (spaced words) = flush_word word words.
Proof.
  intros Hw. revert word. induction Hw as [|w words [Hn Hw] Hws IH]; intros word; simpl; [done|].
  f_equal. rewrite split_word by done. rewrite app_nil_r, IH. by apply flush_rev.
Qed.

(** Whatever the name of a process contains, brackets and spaces included, its state and
    start time are read from the first and the twentieth field after the last closing
    bracket. *)
Theorem process_fields_of_stat name state fields ticks value rest :
  is_whitespace state = false -> length fields = 18%nat -> Forall is_word (fields ++ ticks :: rest) ->
  41 ∉ spaced ([state] :: fields ++ ticks :: rest) ->
  parse_u64 ticks = Some value ->
  process_fields (name ++ 41 :: spaced ([state] :: fields ++ ticks :: rest)) = Some (state, value).
Proof.
  intros Hs Hlen Hw Hno Hp. unfold process_fields. rewrite after_last_app by done.
  rewrite split_spaced.
  2:{ constructor; [|done]. split; [done|]. by repeat constructor. }
  simpl flush_word. cbv iota. rewrite nth_error_app2 by lia. rewrite Hlen. simpl. by rewrite Hp.
Qed.

Lemma process_fields_of_stat_witness :
  (* 7 (a) b) S 0 .. 0 42 9 *)
  process_fields ([55; 32; 40; 97; 41; 32; 98] ++ 41 ::
    spaced ([83] :: replicate 18 [48] ++ [52; 50] :: [[57]])) = Some (83, 42).
Proof.
  apply process_fields_of_stat; [done|done| | |done].
  - repeat constructor; done.
  - apply (bool_decide_unpack _). by vm_compute.
Defined.
