(* ===== verification/InfraContract.v ===== *)
(** * What the machine promises to the infrastructure service

    The contract between [InfrastructureService] and the machine: which destinations the
    kernel may steer into the tunnel after each call, what the journal file holds, and
    that a boot keeps its identifier. A call that fails may have had any part of its
    effect, so a crash is a machine on which every later call fails. A store of the journal
    may fail after it has replaced the file, when the directory does not sync: then the file
    holds what the service does not believe, and [unsynced] says so until a store succeeds. *)
From stdpp Require Import base tactics list numbers option sorting strings.
From Stdlib Require Import ZArith Lia.
From S2P Require Import Prelude Ipv4 Wire Proto Network Service InfraProto Infra.

(** ** Destinations *)

(** A set of destinations: tables and prefixes. *)
Definition Nets : Type := Z -> Ipv4Prefix -> Prop.

Definition no_nets : Nets := fun _ _ => False.
Definition net_union (X Y : Nets) : Nets := fun t p => X t p \/ Y t p.
Definition net_minus (X Y : Nets) : Nets := fun t p => X t p /\ ~ Y t p.
Definition net_sub (X Y : Nets) : Prop := forall t p, X t p -> Y t p.

Lemma net_sub_refl X : net_sub X X.
Proof. by intros t p. Qed.
Lemma net_sub_none X : net_sub no_nets X.
Proof. by intros t p []. Qed.
#[export] Hint Resolve net_sub_refl net_sub_none : core.

(** The destinations a declaration steers into the tunnel, and all it has an entry for. *)
Definition steered (d : PrepareDeclaration) : Nets := fun t p =>
  t = table_id d /\ exists r, r ∈ routes d /\ route_kind r <> Local /\ p = route_prefix r.
Definition declared (d : PrepareDeclaration) : Nets := fun t p =>
  t = table_id d /\ p ∈ all_prefixes d.

Lemma steered_declared d : net_sub (steered d) (declared d).
Proof.
  intros t p (-> & r & Hr & _ & ->). split; [done|]. unfold all_prefixes.
  rewrite elem_of_app. left. by apply list_elem_of_In, in_map, list_elem_of_In.
Qed.

(** ** The contract *)

Section Specs.
Context {W E A : Type} (steers : W -> Nets) (file : W -> option (list Z)) (unsynced : W -> bool)
  (boot : W -> Result IoError (list Z)).

(** [f] steers at most [added] anew and, when it succeeds, nothing of [removed]. *)
Definition spec_change (added removed : Nets) (f : M W E A) : Prop :=
  forall w, let '(r, w') := f w in
    file w' = file w /\ unsynced w' = unsynced w /\ boot w' = boot w /\
    net_sub (steers w') (net_union (steers w) added) /\
    (is_ok r = true -> net_sub (steers w') (net_minus (net_union (steers w) added) removed)).
End Specs.

Class InfraMachine (W : Type) `{!NetworkBackend W} `{!InfrastructureBackend W} `{!InfraHost W} := {
  steers : W -> Nets;
  file : W -> option (list Z);
  (** The temporary file beside it. *)
  temporary : W -> option (list Z);
  (** The last store that replaced the file could not sync the directory. *)
  unsynced : W -> bool;

  read_journal_spec w o : read_journal w = Ok o -> o = file w;
  create_temporary_change :
    spec_change steers file unsynced current_boot_id no_nets no_nets create_temporary;
  create_temporary_empty w r w' : create_temporary w = (Ok r, w') -> temporary w' = Some [];
  write_temporary_change bytes :
    spec_change steers file unsynced current_boot_id no_nets no_nets (write_temporary bytes);
  write_temporary_appends bytes w r w' : write_temporary bytes w = (Ok r, w') ->
    temporary w' = (fun l => l ++ bytes) <$> temporary w;
  sync_temporary_change :
    spec_change steers file unsynced current_boot_id no_nets no_nets sync_temporary;
  sync_temporary_keeps w r w' : sync_temporary w = (Ok r, w') -> temporary w' = temporary w;
  (** A rename has happened exactly if it succeeds. *)
  rename_temporary_spec w : let '(r, w') := rename_temporary w in
    match r with
    | Ok _ => file w' = temporary w
    | Err _ => file w' = file w /\ unsynced w' = unsynced w
    end /\ current_boot_id w' = current_boot_id w /\ net_sub (steers w') (steers w);
  sync_directory_spec w : let '(r, w') := sync_directory w in
    file w' = file w /\ unsynced w' = negb (is_ok r) /\
    current_boot_id w' = current_boot_id w /\ net_sub (steers w') (steers w);
  remove_temporary_change :
    spec_change steers file unsynced current_boot_id no_nets no_nets remove_temporary;

  preflight_change d : spec_change steers file unsynced current_boot_id no_nets no_nets (preflight d);
  prepare_sysctls_change d l :
    spec_change steers file unsynced current_boot_id no_nets no_nets (prepare_sysctls d l);
  restore_sysctls_change d l :
    spec_change steers file unsynced current_boot_id no_nets no_nets (restore_sysctls d l);
  remove_firewall_change d :
    spec_change steers file unsynced current_boot_id no_nets no_nets (remove_firewall d);
  prepare_firewall_change d :
    spec_change steers file unsynced current_boot_id no_nets no_nets (prepare_firewall d);

  (** The update publishes the target and then removes what only the previous policy had. *)
  update_live_policy_change previous target failed :
    spec_change steers file unsynced current_boot_id (steered target)
      (net_union (net_minus (declared target) (steered target))
                 (net_minus (declared previous) (declared target)))
      (update_live_policy previous target failed);
  discard_live_policy_change previous target :
    spec_change steers file unsynced current_boot_id no_nets no_nets (discard_live_policy previous target);
  interface_ownership_marker_change :
    spec_change steers file unsynced current_boot_id no_nets no_nets interface_ownership_marker;
  stamp_change m :
    spec_change steers file unsynced current_boot_id no_nets no_nets (stamp_infrastructure_ownership m);
  ensure_infrastructure_change sp :
    spec_change steers file unsynced current_boot_id no_nets no_nets (ensure_infrastructure sp);
  retire_infrastructure_change :
    spec_change steers file unsynced current_boot_id no_nets no_nets retire_infrastructure;
  reject_forwarding_change d :
    spec_change steers file unsynced current_boot_id no_nets (steered d) (reject_forwarding d);
  guard_forwarding_change d :
    spec_change steers file unsynced current_boot_id no_nets no_nets (guard_forwarding d);
  restore_forwarding_change d failed :
    spec_change steers file unsynced current_boot_id (steered d) (net_minus (declared d) (steered d))
      (restore_forwarding_with_failures d failed);
  update_failed_change d previous failed :
    spec_change steers file unsynced current_boot_id (steered d) no_nets
      (update_failed_forward_prefixes d previous failed);
  validate_replacement_change previous c :
    spec_change steers file unsynced current_boot_id no_nets no_nets
      (validate_forwarding_replacement previous c);
  retire_forwarding_change d :
    spec_change steers file unsynced current_boot_id no_nets no_nets (retire_forwarding d);
  remove_stale_change old retained :
    spec_change steers file unsynced current_boot_id no_nets (net_minus (declared old) (declared retained))
      (remove_stale_forwarding old retained);

  interface_identity_change :
    spec_change steers file unsynced current_boot_id no_nets no_nets interface_identity;
  (** No route leads into an interface that does not exist. *)
  missing_interface_steers_nothing w w' :
    interface_identity w = (Ok None, w') -> net_sub (steers w') no_nets;

  random_nonce_change : spec_change steers file unsynced current_boot_id no_nets no_nets random_nonce;
  dup_descriptor_change fd :
    spec_change steers file unsynced current_boot_id no_nets no_nets (dup_descriptor fd);
  create_exclusive_change :
    spec_change steers file unsynced current_boot_id no_nets no_nets create_exclusive;
  enable_persistence_change fd :
    spec_change steers file unsynced current_boot_id no_nets no_nets (enable_persistence fd);
  create_persistent_change :
    spec_change steers file unsynced current_boot_id no_nets no_nets create_persistent;
}.

(** The documents of the journal read back as they were written. *)
Class JournalFormatLaws `{!JournalFormat} := {
  envelope_roundtrip e bytes :
    envelope_to_vec e = Some bytes -> envelope_from_slice bytes = Some e;
}.

Create HintDb infra.
#[export] Hint Resolve preflight_change prepare_sysctls_change restore_sysctls_change
  remove_firewall_change prepare_firewall_change update_live_policy_change
  discard_live_policy_change interface_ownership_marker_change stamp_change
  ensure_infrastructure_change retire_infrastructure_change reject_forwarding_change
  guard_forwarding_change restore_forwarding_change update_failed_change
  validate_replacement_change retire_forwarding_change remove_stale_change
  interface_identity_change random_nonce_change dup_descriptor_change
  create_exclusive_change enable_persistence_change create_persistent_change : infra.

(** ** Assertions on a running service *)

Section At.
Context {W : Type} `{!NetworkBackend W} `{!InfrastructureBackend W} `{!InfraHost W}
  `{!JournalFormat} `{!InfraMachine W}.

(** The journal file holds this state. *)
Definition journal_holds (w : W) (s : State) : Prop :=
  match file w with
  | None => s = State_default
  | Some bytes => journal_bytes s = Ok bytes
  end.

(** The file holds it, unless the last store left the directory unsynced. *)
Definition durable (w : W) (s : State) : Prop := unsynced w = false -> journal_holds w s.

(** In boot [b], the service is in state [s], durably, and the kernel steers within [X]. *)
Definition At (b : Result IoError (list Z)) (s : State) (X : Nets)
    (S : InfrastructureService W) : Prop :=
  state S = s /\ durable (infra_world S) s /\ current_boot_id (infra_world S) = b /\
  net_sub (steers (infra_world S)) X.

Lemma durable_kept w w' s :
  file w' = file w -> unsynced w' = unsynced w -> durable w s -> durable w' s.
Proof. unfold durable, journal_holds. by intros -> ->. Qed.

Lemma At_weaken b s X Y S : At b s X S -> net_sub X Y -> At b s Y S.
Proof.
  intros (Hs & Hj & Hb & HX) HXY. split_and!; try done. intros t p Ht. by apply HXY, HX.
Qed.

Lemma At_state b s X S : At b s X S -> state S = s.
Proof. by intros []. Qed.

Lemma At_lifecycle b s X S v : At b s X S -> At b s X (set_lifecycle v S).
Proof. done. Qed.
Lemma At_restart b s X S v : At b s X S -> At b s X (set_restart v S).
Proof. done. Qed.

(** *** Rules for calls *)

Lemma wp_on_world {E A} (wrap : E -> InfrastructureError) (f : M W E A) added removed b s X S
    (Q : Result InfrastructureError A -> InfrastructureService W -> Prop) :
  spec_change steers file unsynced current_boot_id added removed f -> At b s X S ->
  (forall a S', At b s (net_minus (net_union X added) removed) S' -> Q (Ok a) S') ->
  (forall e S', At b s (net_union X added) S' -> Q (Err (wrap e)) S') ->
  wp (on_world wrap f) Q S.
Proof.
  intros Hf (Hs & Hj & Hb & HX) HOk HErr. unfold wp, on_world. specialize (Hf (infra_world S)).
  destruct (f (infra_world S)) as [r w']. destruct Hf as (Hfile & Hsync & Hboot & Hsub & Hok).
  assert (Hj' : durable w' s) by (by apply (durable_kept (infra_world S))).
  destruct r as [a|e]; simpl.
  - apply HOk. split_and!; [done|done|by rewrite <- Hb|]. intros t p Ht.
    destruct (Hok eq_refl t p Ht) as [[K|K] Hn]; split; try done; [left; by apply HX|by right].
  - apply HErr. split_and!; [done|done|by rewrite <- Hb|]. intros t p Ht.
    destruct (Hsub t p Ht) as [K|K]; [left; by apply HX|by right].
Qed.

(** A call that steers nothing new. *)
Lemma wp_quiet {E A} (wrap : E -> InfrastructureError) (f : M W E A) removed b s X S
    (Q : Result InfrastructureError A -> InfrastructureService W -> Prop) :
  spec_change steers file unsynced current_boot_id no_nets removed f -> At b s X S ->
  (forall a S', At b s (net_minus X removed) S' -> Q (Ok a) S') ->
  (forall e S', At b s X S' -> Q (Err (wrap e)) S') ->
  wp (on_world wrap f) Q S.
Proof.
  intros Hf HA HOk HErr. refine (wp_on_world wrap f _ _ b s X S Q Hf HA _ _).
  - intros a S' HA'. apply HOk. refine (At_weaken _ _ _ _ _ HA' _). unfold net_minus, net_union, no_nets.
    intros t p. tauto.
  - intros e S' HA'. apply HErr. refine (At_weaken _ _ _ _ _ HA' _). unfold net_union, no_nets.
    intros t p. tauto.
Qed.

(** A call that only keeps. *)
Lemma wp_keep {E A} (wrap : E -> InfrastructureError) (f : M W E A) removed b s X S
    (Q : Result InfrastructureError A -> InfrastructureService W -> Prop) :
  spec_change steers file unsynced current_boot_id no_nets removed f -> At b s X S ->
  (forall a S', At b s X S' -> Q (Ok a) S') ->
  (forall e S', At b s X S' -> Q (Err (wrap e)) S') ->
  wp (on_world wrap f) Q S.
Proof.
  intros Hf HA HOk HErr. refine (wp_quiet wrap f _ b s X S Q Hf HA _ HErr).
  intros a S' HA'. apply HOk. refine (At_weaken _ _ _ _ _ HA' _). by intros t p [].
Qed.

Lemma wp_interface_identity b s X S
    (Q : Result InfrastructureError (option Z) -> InfrastructureService W -> Prop) :
  At b s X S ->
  (forall S', At b s no_nets S' -> Q (Ok None) S') ->
  (forall i S', At b s X S' -> Q (Ok (Some i)) S') ->
  (forall e S', At b s X S' -> Q (Err (IxBackend e)) S') ->
  wp (backend interface_identity) Q S.
Proof.
  intros (Hs & Hj & Hb & HX) HN HS HE. unfold wp, backend, on_world.
  pose proof (interface_identity_change (infra_world S)) as Hf.
  pose proof (missing_interface_steers_nothing (infra_world S)) as Hn.
  destruct (interface_identity (infra_world S)) as [r w'].
  destruct Hf as (Hfile & Hsync & Hboot & Hsub & _).
  assert (HA : At b s X (set_world w' S)).
  { split_and!; [done|by apply (durable_kept (infra_world S))|by rewrite <- Hb|].
    intros t p Ht. destruct (Hsub t p Ht) as [K|[]]. by apply HX. }
  destruct r as [[i|]|e]; simpl; [by apply HS| |by apply HE]. apply HN.
  destruct HA as (? & ? & ? & ?). split_and!; try done. by apply Hn.
Qed.

(** *** A store of the journal *)

(** What one of its steps leaves alone. *)
Definition untouched (w w' : W) : Prop :=
  current_boot_id w' = current_boot_id w /\ net_sub (steers w') (steers w).

Lemma untouched_trans w1 w2 w3 : untouched w1 w2 -> untouched w2 w3 -> untouched w1 w3.
Proof. intros [H1 H2] [H3 H4]. split; [congruence|]. intros t p Ht. by apply H2, H4. Qed.

Lemma calm_step {A} (f : M W IoError A) w r w' :
  spec_change steers file unsynced current_boot_id no_nets no_nets f -> f w = (r, w') ->
  untouched w w' /\ file w' = file w /\ unsynced w' = unsynced w.
Proof.
  intros Hf E. specialize (Hf w). rewrite E in Hf. destruct Hf as (H1 & H2 & H3 & H4 & _).
  split_and!; [|done..]. split; [done|]. intros t p Ht. by destruct (H4 t p Ht) as [|[]].
Qed.

(** A store that succeeds replaces the file durably. One that fails leaves the file as it was,
    or replaced and unsynced. *)
Lemma write_journal_outcome bytes w :
  let '(r, w') := write_journal bytes w in
  untouched w w' /\
  match r with
  | Ok _ => file w' = Some bytes /\ unsynced w' = false
  | Err _ => file w' = file w /\ unsynced w' = unsynced w \/
             file w' = Some bytes /\ unsynced w' = true
  end.
Proof.
  unfold write_journal, mbind.
  assert (Hrm : forall w1 (P : W -> Prop), untouched w w1 -> P w1 ->
    (forall w2, file w2 = file w1 -> unsynced w2 = unsynced w1 -> P w1 -> P w2) ->
    untouched w (remove_temporary w1).2 /\ P (remove_temporary w1).2).
  { intros w1 P U HP Hk. destruct (remove_temporary w1) as [r2 w2] eqn:E.
    apply (calm_step _ _ _ _ remove_temporary_change) in E as (U2 & F & S).
    split; [by eapply untouched_trans|by eapply Hk]. }
  set (kept w1 := file w1 = file w /\ unsynced w1 = unsynced w \/
                  file w1 = Some bytes /\ unsynced w1 = true).
  assert (Hk : forall w1 w2, file w2 = file w1 -> unsynced w2 = unsynced w1 -> kept w1 -> kept w2)
    by (unfold kept; by intros w1 w2 -> ->).
  destruct (create_temporary w) as [[[]|e] w1] eqn:E1;
    destruct (calm_step _ _ _ _ create_temporary_change E1) as (U1 & F1 & S1);
    [|by apply (Hrm w1 kept); [done|by left|eauto]].
  apply create_temporary_empty in E1.
  destruct (write_temporary bytes w1) as [[[]|e] w2] eqn:E2;
    destruct (calm_step _ _ _ _ (write_temporary_change bytes) E2) as (U2 & F2 & S2);
    pose proof (untouched_trans _ _ _ U1 U2) as V2; rewrite F1 in F2; rewrite S1 in S2;
    [|by apply (Hrm w2 kept); [done|by left|eauto]].
  apply write_temporary_appends in E2. rewrite E1 in E2. simpl in E2.
  destruct (sync_temporary w2) as [[[]|e] w3] eqn:E3;
    destruct (calm_step _ _ _ _ sync_temporary_change E3) as (U3 & F3 & S3);
    pose proof (untouched_trans _ _ _ V2 U3) as V3; rewrite F2 in F3; rewrite S2 in S3;
    [|by apply (Hrm w3 kept); [done|by left|eauto]].
  apply sync_temporary_keeps in E3. rewrite E2 in E3.
  pose proof (rename_temporary_spec w3) as H4.
  destruct (rename_temporary w3) as [[[]|e] w4]; destruct H4 as [H4 U4];
    pose proof (untouched_trans _ _ _ V3 U4) as V4;
    [|apply (Hrm w4 kept); [done| |eauto]; left; destruct H4; split; congruence].
  rewrite E3 in H4. pose proof (sync_directory_spec w4) as H5.
  destruct (sync_directory w4) as [[[]|e] w5]; destruct H5 as (F5 & S5 & U5);
    pose proof (untouched_trans _ _ _ V4 U5) as V5; simpl in S5.
  - split_and!; [done|congruence|done].
  - apply (Hrm w5 kept); [done| |eauto]. right. split; [congruence|done].
Qed.

Lemma wp_persist b s s' X S
    (Q : Result InfrastructureError unit -> InfrastructureService W -> Prop) :
  At b s X S ->
  (forall S', At b s' X S' -> Q (Ok tt) S') ->
  (forall S', At b s X S' -> Q (Err (IxJournal IoFailed)) S') ->
  wp (persist s') Q S.
Proof.
  intros (Hs & Hj & Hb & HX) HOk HErr. unfold persist. apply wp_mbind, wp_lift.
  destruct (journal_bytes s') as [bytes|[]] eqn:Hbytes; simpl; [|by apply HErr].
  apply wp_mbind. unfold wp, host, on_world.
  pose proof (write_journal_outcome bytes (infra_world S)) as Hw.
  destruct (write_journal bytes (infra_world S)) as [r w']. destruct Hw as ([Hboot Hsub] & Hfile).
  assert (HX' : net_sub (steers w') X) by (intros t p Ht; by apply HX, Hsub).
  destruct r as [[]|[]]; simpl in *.
  - destruct Hfile as [Hfile Hsync]. apply HOk. split_and!; [done| |by rewrite <- Hb|done]. intros _.
    unfold journal_holds. simpl. by rewrite Hfile.
  - apply HErr. split_and!; [done| |by rewrite <- Hb|done].
    destruct Hfile as [[Hfile Hsync]|[_ Hsync]]; [by apply (durable_kept (infra_world S))|].
    intros Hn. simpl in Hn. congruence.
Qed.

Lemma wp_host_read {A} (f : W -> Result IoError A) b s X S
    (Q : Result InfrastructureError A -> InfrastructureService W -> Prop) :
  At b s X S ->
  (forall a S', At b s X S' -> f (infra_world S) = Ok a -> Q (Ok a) S') ->
  (forall S', At b s X S' -> Q (Err (IxJournal IoFailed)) S') ->
  wp (host_read f) Q S.
Proof.
  intros HA HOk HErr. unfold wp, host_read.
  destruct (f (infra_world S)) as [a|[]] eqn:Hf; simpl; [by apply HOk|by apply HErr].
Qed.

Lemma wp_gets_state b s X S (Q : Result InfrastructureError State -> InfrastructureService W -> Prop) :
  At b s X S -> Q (Ok s) S -> wp (gets state) Q S.
Proof. intros HA HQ. apply wp_gets. by rewrite (At_state _ _ _ _ HA). Qed.

Lemma wp_modify_lifecycle v b s X S
    (Q : Result InfrastructureError unit -> InfrastructureService W -> Prop) :
  At b s X S -> (forall S', At b s X S' -> lifecycle_fd S' = v -> Q (Ok tt) S') ->
  wp (modify (set_lifecycle v)) Q S.
Proof. intros HA HQ. apply wp_modify, HQ; [by apply At_lifecycle|done]. Qed.
End At.
