(* ===== verification/InfraFacts.v ===== *)
(** * What the infrastructure service guarantees

    The invariant of the durable state and of the kernel behind it: well-formed states, what
    a state covers, the changes that keep both, and the recovery sweep, after which the
    kernel steers only what a live, unrevoked owner covers. *)
From stdpp Require Import relations base tactics list numbers option sorting strings.
From Stdlib Require Import ZArith Lia.
From S2P Require Import Prelude Ipv4 Wire Proto Network Service InfraProto Infra InfraContract.

(** ** Well-formed states *)

(** Prefixes that may be recorded as failed. *)
Definition failed_strict (d : PrepareDeclaration) (l : list Ipv4Prefix) : Prop :=
  NoDup l /\ forall p, p ∈ l -> p ∈ authorized_prefixes d.
(** What is left of it after a policy update: no failed prefix is local. *)
Definition failed_weak (d : PrepareDeclaration) (l : list Ipv4Prefix) : Prop :=
  NoDup l /\ forall p, p ∈ l -> steered d (table_id d) p.

Definition pending_ok (has_candidate : bool) (f : ForwardRecord) : Prop :=
  match pending_policy f with
  | None => True
  | Some p =>
      PrepareDeclaration_validate (pending_declaration p) = Ok tt /\
      validate_live_policy_identity (forward_declaration f) (pending_declaration p) = Ok tt /\
      policy_revision f < revision p /\ current_generation f <= pending_generation p /\
      valid_policy_hash (authorization_snapshot_sha256 p) = true /\
      pending_failed_prefixes f = None /\ has_candidate = false /\
      (forward_phase f = Active \/ forward_phase f = Revoked)
  end.

Definition revisions_ok (f : ForwardRecord) : Prop :=
  match pending_failed_prefixes f, pending_failure_revision f with
  | None, None => True
  | Some l, Some r => failed_strict (forward_declaration f) l /\ failure_revision f < r
  | _, _ => False
  end.

Definition forward_ok (has_candidate : bool) (f : ForwardRecord) : Prop :=
  ForwardOwner_validate (forward_owner f) = Ok tt /\
  PrepareDeclaration_validate (forward_declaration f) = Ok tt /\
  failed_weak (forward_declaration f) (forward_failed_prefixes f) /\
  metadata_valid f = true /\ pending_ok has_candidate f /\ revisions_ok f.

(** The owner [b] comes after the owner [a]. *)
Definition advances (a b : ForwardOwner) : Prop :=
  domain_id a = domain_id b /\ signed_generation a <= signed_generation b /\
  worker_epoch a <= worker_epoch b /\ fencing_token a < fencing_token b.
(** The same grant, its lease at most extended. *)
Definition same_grant (a b : ForwardOwner) : Prop :=
  domain_id a = domain_id b /\ signed_generation a = signed_generation b /\
  worker_epoch a = worker_epoch b /\ fencing_token a = fencing_token b /\
  auth_deadline_mono_ms a = auth_deadline_mono_ms b /\
  forward_lease_deadline_mono_ms a <= forward_lease_deadline_mono_ms b.

Definition candidate_ok (last : Z) (f c : ForwardRecord) : Prop :=
  forward_ok true c /\ (forward_phase c = Prepared \/ forward_phase c = Preparing) /\
  failed_strict (forward_declaration c) (forward_failed_prefixes c) /\
  pending_policy c = None /\ pending_failed_prefixes c = None /\
  table_id (forward_declaration f) = table_id (forward_declaration c) /\
  advances (forward_owner f) (forward_owner c) /\
  fencing_token (forward_owner c) <= last /\ replaceable (forward_phase f) = true.

Definition has_candidate (s : State) : bool := bool_decide (candidate s <> None).

Definition retained_ok (s : State) (f : ForwardRecord) : Prop :=
  spec s <> None /\ forward_ok (has_candidate s) f /\
  fencing_token (forward_owner f) <= last_fencing_token s /\
  (replaceable (forward_phase f) = false ->
     last_fencing_token s = fencing_token (forward_owner f)).

Record state_ok (s : State) : Prop := {
  so_spec sp : spec s = Some sp -> InfraSpec_validate sp = Ok tt;
  so_creation : creation_pending s = true -> spec s <> None /\ ownership_marker s <> None;
  so_index : spec s <> None -> creation_pending s = true \/ ifindex s <> None;
  so_forward f : forward s = Some f -> retained_ok s f;
  so_none : forward s = None -> candidate s = None /\ last_fencing_token s = 0;
  so_candidate c : candidate s = Some c ->
    exists f, forward s = Some f /\ candidate_ok (last_fencing_token s) f c;
}.

(** ** Coverage *)

Definition pending_nets (f : ForwardRecord) : Nets := fun t p =>
  match pending_policy f with Some q => steered (pending_declaration q) t p | None => False end.

(** What the kernel may steer in state [s]: the policy of the owner and the one about to
    replace it; during a cut-over, both policies. *)
Definition coverage (s : State) : Nets := fun t p =>
  match forward s with
  | None => False
  | Some f =>
      (forward_phase f <> Revoked /\
       (steered (forward_declaration f) t p \/ pending_nets f t p)) \/
      match candidate s with
      | Some c => forward_phase c = Preparing /\
          (steered (forward_declaration c) t p \/ steered (forward_declaration f) t p)
      | None => False
      end
  end.

(** No interrupted work: the device exists, no cut-over is open. *)
Definition settled (s : State) : Prop :=
  creation_pending s = false /\
  forall c, candidate s = Some c -> forward_phase c <> Preparing.

(** The owner, unless revoked, is live. *)
Definition owner_live (now : Z) (s : State) : Prop :=
  forall f, forward s = Some f -> forward_phase f <> Revoked ->
    owner_is_live (forward_owner f) now = true.

(** Tokens, epochs and owners only advance. *)
Definition keeps (s s' : State) : Prop :=
  last_fencing_token s <= last_fencing_token s' /\ last_io_epoch s <= last_io_epoch s' /\
  forall f, forward s = Some f -> exists f', forward s' = Some f' /\
    (same_grant (forward_owner f) (forward_owner f') \/
     advances (forward_owner f) (forward_owner f')).

Lemma same_grant_refl a : same_grant a a.
Proof. by split_and!. Qed.

Lemma keeps_refl s : keeps s s.
Proof. split_and!; [done|done|]. intros f Hf. exists f. split; [done|left; apply same_grant_refl]. Qed.

Lemma keeps_trans s1 s2 s3 : keeps s1 s2 -> keeps s2 s3 -> keeps s1 s3.
Proof.
  intros (H1 & H2 & H3) (K1 & K2 & K3). split_and!; [lia|lia|]. intros f Hf.
  destruct (H3 f Hf) as (f' & Hf' & HR). destruct (K3 f' Hf') as (f'' & Hf'' & KR).
  exists f''. split; [done|]. unfold same_grant, advances in *.
  destruct HR as [HR|HR], KR as [KR|KR]; destruct_and!;
    [left|right|right|right]; split_and!; (congruence || lia).
Qed.

(** The forwarding records are as they were. *)
Definition same_forwarding (s s' : State) : Prop :=
  forward s' = forward s /\ candidate s' = candidate s.

Lemma coverage_same s s' : same_forwarding s s' -> coverage s' = coverage s.
Proof. intros [H1 H2]. unfold coverage. by rewrite H1, H2. Qed.

Lemma owner_live_same now s s' : forward s' = forward s -> owner_live now s -> owner_live now s'.
Proof. unfold owner_live. by intros ->. Qed.

(** ** The checks of the code *)

Lemma refuse_request_Ok b e : refuse_request b e = Ok tt <-> b = false.
Proof. by destruct b. Qed.

Lemma failed_prefixes_unique_iff authorized unique failed :
  failed_prefixes_unique authorized unique failed = true <->
  NoDup failed /\ (forall p, p ∈ failed -> (p ∉ unique) /\ p ∈ authorized).
Proof.
  revert unique. induction failed as [|p l IH]; intros unique; simpl.
  { split; [|done]. intros _. split; [constructor|]. by intros p ?%elem_of_nil. }
  destruct (bool_decide (p ∈ unique)) eqn:Hu; simpl;
    [apply bool_decide_eq_true in Hu|apply bool_decide_eq_false in Hu].
  { split; [done|]. intros [_ H]. destruct (H p) as [Hn _]; [by left|done]. }
  destruct (bool_decide (p ∈ authorized)) eqn:Ha; simpl;
    [apply bool_decide_eq_true in Ha|apply bool_decide_eq_false in Ha].
  2:{ split; [done|]. intros [_ H]. by destruct (H p) as [_ Hn]; [left|]. }
  rewrite IH, NoDup_cons. setoid_rewrite elem_of_cons. split.
  - intros [Hnd H]. split_and!; [|done|].
    + intros Hp. destruct (H p Hp) as [Hn _]. apply Hn. by left.
    + intros q [->|Hq]; [done|]. destruct (H q Hq) as [Hn Hqa]. split; [|done]. tauto.
  - intros [[Hp Hnd] H]. split; [done|]. intros q Hq. destruct (H q) as [Hn Hqa]; [by right|].
    split; [|done]. intros [->|?]; [done|done].
Qed.

Lemma validate_failed_iff d l : validate_failed_prefixes d l = Ok tt <-> failed_strict d l.
Proof.
  unfold validate_failed_prefixes, failed_strict.
  pose proof (failed_prefixes_unique_iff (authorized_prefixes d) [] l) as H.
  destruct (failed_prefixes_unique _ _ _).
  - split; [|done]. intros _. destruct (proj1 H eq_refl) as [H1 H2]. split; [done|]. naive_solver.
  - split; [done|]. intros [H1 H2]. assert (false = true); [|done]. apply H. split; [done|].
    intros p Hp. split; [by intros ?%elem_of_nil|auto].
Qed.

Lemma failed_strict_weak d l : failed_strict d l -> failed_weak d l.
Proof.
  intros [Hn H]. split; [done|]. intros p Hp. apply H in Hp. split; [done|].
  unfold authorized_prefixes in Hp. apply list_elem_of_fmap in Hp as (r & -> & Hr).
  apply list_elem_of_In, filter_In in Hr as [Hr Hk]. exists r.
  split; [by apply list_elem_of_In|]. split; [|done].
  unfold is_remote_kind in Hk. apply bool_decide_eq_true in Hk. congruence.
Qed.

Lemma failed_strict_sorted d l : failed_strict d l -> failed_strict d (merge_sort prefix_le l).
Proof.
  intros [Hn H]. pose proof (merge_sort_Permutation prefix_le l) as Hp. split.
  - by rewrite Hp.
  - intros p. rewrite Hp. apply H.
Qed.

Lemma identity_same a b : validate_live_policy_identity a b = Ok tt ->
  table_id a = table_id b /\ overlay_router_ipv4 a = overlay_router_ipv4 b /\
  effective_mtu a = effective_mtu b /\ exclusions a = exclusions b /\ firewall a = firewall b.
Proof.
  unfold validate_live_policy_identity. destruct (_ || _) eqn:E; [done|]. intros _.
  apply orb_false_iff in E as [E H5]. apply orb_false_iff in E as [E H4].
  apply orb_false_iff in E as [E H3]. apply orb_false_iff in E as [H1 H2].
  apply negb_false_iff in H1, H2, H3, H4, H5. apply Z.eqb_eq in H1, H3.
  apply bool_decide_eq_true in H2, H4, H5. done.
Qed.

Lemma NoDup_List_filter {A} (f : A -> bool) (l : list A) : NoDup l -> NoDup (List.filter f l).
Proof.
  induction 1 as [|x l Hx Hl IH]; simpl; [constructor|]. destruct (f x); [|done].
  constructor; [|done]. intros H. apply Hx. apply list_elem_of_In in H.
  apply filter_In in H as [H _]. by apply list_elem_of_In.
Qed.

Lemma retained_failures_weak target l : NoDup l -> failed_weak target (retained_failures target l).
Proof.
  intros Hn. unfold retained_failures. split.
  - by apply NoDup_List_filter.
  - intros p Hp. apply list_elem_of_In, filter_In in Hp as [_ Hp].
    apply existsb_exists in Hp as (r & Hr & Hb). apply andb_true_iff in Hb as [Hb Hk].
    apply bool_decide_eq_true in Hb. split; [done|]. exists r. split; [by apply list_elem_of_In|].
    split; [|done]. intros Hl. unfold is_local_kind in Hk. by rewrite bool_decide_eq_true_2 in Hk.
Qed.

(** The journal accepts a well-formed state, two cases apart: a failed prefix that a policy
    update turned from remote into something else, and a policy that is still pending after
    its owner was revoked. *)
Definition forward_loads (f : ForwardRecord) : Prop :=
  failed_strict (forward_declaration f) (forward_failed_prefixes f) /\
  (pending_policy f <> None -> forward_phase f <> Revoked).

Lemma check_pending_policy_ok h f :
  pending_ok h f -> (pending_policy f <> None -> forward_phase f <> Revoked) ->
  check_pending_policy h f = Ok tt.
Proof.
  unfold pending_ok, check_pending_policy. destruct (pending_policy f) as [p|]; [|done].
  intros (H1 & H2 & H3 & H4 & H5 & H6 & H7 & H8) Hr. rewrite H1, H2, H5, H6, H7. simpl.
  assert (Hp : forward_phase f = Active) by (destruct H8; [done|by destruct Hr]).
  rewrite Hp. rewrite (proj2 (Z.leb_gt _ _)), (proj2 (Z.ltb_ge _ _)) by lia. done.
Qed.

Lemma check_forward_ok h f : forward_ok h f -> forward_loads f -> check_forward h f = Ok tt.
Proof.
  intros (H1 & H2 & _ & H4 & H5 & H6) [L1 L2]. unfold check_forward.
  rewrite H1, H2, H4, (proj2 (validate_failed_iff _ _) L1), (check_pending_policy_ok h f H5 L2).
  unfold revisions_ok in H6. simpl.
  destruct (pending_failed_prefixes f) as [l|], (pending_failure_revision f) as [r|]; try done.
  destruct H6 as [Hl Hr]. rewrite (proj2 (validate_failed_iff _ _) Hl). simpl.
  by rewrite (proj2 (Z.leb_gt _ _)) by lia.
Qed.

Lemma check_state_ok s :
  state_ok s -> (forall f, forward s = Some f -> forward_loads f) -> check_state s = Ok tt.
Proof.
  intros Hs HL. unfold check_state. fold (has_candidate s).
  assert (H1 : match spec s with Some sp => or_io (InfraSpec_validate sp) | None => Ok tt end = Ok tt).
  { destruct (spec s) as [sp|] eqn:E; [|done]. by rewrite (so_spec s Hs sp E). }
  rewrite H1. simpl. destruct (forward s) as [f|] eqn:Ef.
  - destruct (so_forward s Hs f Ef) as (_ & Hf & _). rewrite (check_forward_ok _ _ Hf (HL f eq_refl)).
    simpl. destruct (candidate s) as [c|] eqn:Ec; [|done].
    destruct (so_candidate s Hs c Ec) as (f' & _ & Hc & _ & Hst & Hpp & _).
    unfold has_candidate. rewrite Ec. simpl.
    apply check_forward_ok; [exact Hc|]. split; [done|]. by rewrite Hpp.
  - simpl. destruct (so_none s Hs Ef) as [Hn _]. by rewrite Hn.
Qed.

(** What the validation of a request establishes. *)
Definition request_facts (op : Operation) : Prop :=
  match op with
  | InfraEnsure sp => InfraSpec_validate sp = Ok tt
  | ForwardPrepare _ _ o d =>
      ForwardOwner_validate o = Ok tt /\ PrepareDeclaration_validate d = Ok tt
  | ForwardLeaseRenew o => ForwardOwner_validate o = Ok tt
  | ForwardPolicyUpdate _ rev _ hash d =>
      rev <> 0 /\ valid_policy_hash hash = true /\ PrepareDeclaration_validate d = Ok tt
  | _ => True
  end.

Lemma validated_request r : Request_validate r = Ok tt -> request_facts (infra_operation r).
Proof.
  destruct r as [i c p op]. unfold Request_validate. simpl. intros H.
  destruct op; try done; simpl in H; apply result_bind_Ok in H as ([] & _ & H); try exact H.
  - apply result_bind_Ok in H as ([] & _ & H). apply result_bind_Ok in H as ([] & Ho & H).
    by apply result_bind_Ok in H as ([] & Hd & _).
  - apply result_bind_Ok in H as ([] & Ho & H). apply result_bind_Ok in H as ([] & Hb & H).
    apply result_bind_Ok in H as ([] & Hd & _). apply refuse_request_Ok in Hb.
    apply orb_false_iff in Hb as [Hb Hh]. apply orb_false_iff in Hb as [Hr _].
    apply Z.eqb_neq in Hr. apply negb_false_iff in Hh. done.
Qed.

(** ** Changes of a well-formed state *)

(** A forwarding record under a new phase, with its pending repairs kept or dropped. *)
Lemma coverage_weaken f s X :
  forward s = Some f -> forward_phase f <> Revoked ->
  net_sub X (net_union (steered (forward_declaration f)) (pending_nets f)) ->
  net_sub X (coverage s).
Proof. intros Hf Hp HX t p Ht. unfold coverage. rewrite Hf. left. split; [done|]. by apply HX. Qed.

Lemma coverage_settled s : settled s -> forall t p, coverage s t p ->
  exists f, forward s = Some f /\ forward_phase f <> Revoked /\
    (steered (forward_declaration f) t p \/ pending_nets f t p).
Proof.
  intros [_ Hs] t p. unfold coverage. destruct (forward s) as [f|]; [|done].
  intros [[Hp HX]|HX]; [by exists f|]. destruct (candidate s) as [c|]; [|done].
  by destruct (Hs c eq_refl (proj1 HX)).
Qed.

Lemma forward_ok_candidate h f :
  forward_ok true f -> pending_policy f = None /\ forward_ok h f.
Proof.
  intros (H1 & H2 & H3 & H4 & H5 & H6). assert (Hp : pending_policy f = None).
  { unfold pending_ok in H5. destruct (pending_policy f); [|done].
    by destruct H5 as (_ & _ & _ & _ & _ & _ & [=] & _). }
  split; [done|]. split_and!; try done. unfold pending_ok. by rewrite Hp.
Qed.

Lemma forward_ok_no_pending h h' f :
  pending_policy f = None -> forward_ok h f -> forward_ok h' f.
Proof.
  intros Hp (H1 & H2 & H3 & H4 & _ & H6). split_and!; try done. unfold pending_ok. by rewrite Hp.
Qed.

Lemma forward_ok_new h o d ph :
  ForwardOwner_validate o = Ok tt -> PrepareDeclaration_validate d = Ok tt ->
  forward_ok h (new_forward o d ph).
Proof.
  intros. split_and!; try done. split; [constructor|]. simpl. by intros p ?%elem_of_nil.
Qed.

(** A new phase for a record without a pending policy. *)
Lemma forward_ok_phase h h' f ph :
  forward_ok h f -> pending_policy f = None -> forward_ok h' (set_forward_phase ph f).
Proof.
  intros (H1 & H2 & H3 & H4 & _ & H6) Hp. split_and!; try done.
  unfold pending_ok. simpl. by rewrite Hp.
Qed.

(** Revoking keeps a record well-formed, its pending repairs kept or dropped. *)
Lemma forward_ok_revoked h f :
  forward_ok h f -> forward_ok h (set_forward_phase Revoked f).
Proof.
  intros (H1 & H2 & H3 & H4 & H5 & H6). split_and!; try done.
  unfold pending_ok in *. simpl. destruct (pending_policy f); [|done]. intuition.
Qed.

Lemma forward_ok_drop_policy h h' f : forward_ok h f -> forward_ok h' (set_pending_policy None f).
Proof. intros (H1 & H2 & H3 & H4 & _ & H6). by split_and!. Qed.

Lemma forward_ok_cancel h f p :
  forward_ok h f -> pending_policy f = Some p ->
  forward_ok h (set_pending_policy (Some (cancel p)) f).
Proof.
  intros (H1 & H2 & H3 & H4 & H5 & H6) Hp. split_and!; try done.
  unfold pending_ok in *. rewrite Hp in H5. exact H5.
Qed.

Lemma forward_ok_drop_failures h f :
  forward_ok h f -> forward_ok h
    (set_failures (failure_revision f) (forward_failed_prefixes f) None None f).
Proof.
  intros (H1 & H2 & H3 & H4 & H5 & H6). split_and!; try done. unfold pending_ok in *. simpl.
  destruct (pending_policy f); [|done]. intuition.
Qed.

(** A record with other failures, no repair of prefixes pending. *)
Lemma forward_ok_failures h f rev l :
  forward_ok h f -> failed_weak (forward_declaration f) l ->
  forward_ok h (set_failures rev l None None f).
Proof.
  intros (H1 & H2 & _ & H4 & H5 & _) Hl. split_and!; try done. unfold pending_ok in *. simpl.
  destruct (pending_policy f); [|done]. intuition.
Qed.

Lemma forward_ok_publishing h f rev l :
  forward_ok h f -> pending_policy f = None -> failed_strict (forward_declaration f) l ->
  failure_revision f < rev ->
  forward_ok h (set_failures (failure_revision f) (forward_failed_prefixes f) (Some l) (Some rev) f).
Proof.
  intros (H1 & H2 & H3 & H4 & _ & _) Hp Hl Hr. split_and!; try done.
  unfold pending_ok. simpl. by rewrite Hp.
Qed.

Lemma metadata_generation f :
  metadata_valid f = true -> signed_generation (forward_owner f) <= current_generation f.
Proof.
  unfold metadata_valid, current_generation. destruct (policy_generation f), (policy_hash f);
    simpl; lia.
Qed.

Lemma metadata_revision f : metadata_valid f = true -> 0 <= policy_revision f.
Proof.
  unfold metadata_valid. destruct (policy_generation f), (policy_hash f); lia.
Qed.

(** A new policy in force. *)
Lemma forward_ok_policy h f d rev generation hash l :
  forward_ok h f -> PrepareDeclaration_validate d = Ok tt -> failed_weak d l ->
  policy_revision f < rev -> current_generation f <= generation ->
  valid_policy_hash hash = true -> pending_failed_prefixes f = None ->
  forward_ok h (set_policy d rev generation hash l None f).
Proof.
  intros (H1 & H2 & H3 & H4 & H5 & H6) Hd Hl Hr Hg Hh Hpf.
  pose proof (metadata_generation f H4). pose proof (metadata_revision f H4).
  split_and!; try done.
  - unfold metadata_valid. simpl. rewrite Hh, (proj2 (Z.ltb_lt _ _)), (proj2 (Z.leb_le _ _)) by lia. done.
  - unfold revisions_ok in *. simpl. by rewrite Hpf in *.
Qed.

(** *** States *)

Definition put_forward (f : ForwardRecord) (s : State) : State := set_forward (Some f) s.

Lemma state_ok_forward s f f' :
  state_ok s -> forward s = Some f -> forward_ok (has_candidate s) f' ->
  same_grant (forward_owner f) (forward_owner f') ->
  (replaceable (forward_phase f') = false -> replaceable (forward_phase f) = false) ->
  table_id (forward_declaration f) = table_id (forward_declaration f') ->
  state_ok (set_forward (Some f') s) /\ keeps s (set_forward (Some f') s).
Proof.
  intros Hs Hf Hf' Hg Hr Ht. destruct (so_forward s Hs f Hf) as (Hsp & _ & Htk & Hl).
  destruct Hg as (G1 & G2 & G3 & G4 & G5 & G6). split.
  - split; simpl; try apply Hs; [| |].
    + intros f'' [= <-]. split_and!; [done|exact Hf'|simpl; lia|]. simpl. intros Hr'.
      rewrite (Hl (Hr Hr')). lia.
    + done.
    + intros c Hc. exists f'. split; [done|].
      destruct (so_candidate s Hs c Hc) as (f0 & Hf0 & Hc1 & Hc2 & Hc3 & Hc4 & Hc5 & Hc6 & Hc7 & Hc8 & Hc9).
      rewrite Hf in Hf0. injection Hf0 as <-. split_and!; try done; [congruence| |].
      * destruct Hc7 as (A1 & A2 & A3 & A4). split_and!; (congruence || lia).
      * destruct (replaceable (forward_phase f')); [done|]. by rewrite Hr in Hc9.
  - split_and!; [done|done|]. intros f0 Hf0. rewrite Hf in Hf0. injection Hf0 as <-.
    exists f'. split; [done|]. left. by split_and!.
Qed.

Lemma state_ok_no_candidate s :
  state_ok s -> state_ok (set_forward_candidate None s) /\ keeps s (set_forward_candidate None s).
Proof.
  intros Hs. split; [|exact (keeps_refl s)]. split; simpl; try apply Hs; [| |done].
  - intros f Hf. destruct (so_forward s Hs f Hf) as (Hsp & Hfo & Htk & Hl). split_and!; try done.
    unfold has_candidate in *. simpl. destruct (candidate s); [|exact Hfo].
    by apply (forward_ok_candidate false) in Hfo as [_ ?].
  - intros Hn. split; [done|]. by apply Hs.
Qed.

Lemma state_ok_candidate s f c c' :
  state_ok s -> forward s = Some f -> candidate s = Some c ->
  candidate_ok (last_fencing_token s) f c' ->
  state_ok (set_forward_candidate (Some c') s) /\ keeps s (set_forward_candidate (Some c') s).
Proof.
  intros Hs Hf Hc Hc'. split; [|exact (keeps_refl s)]. split; simpl; try apply Hs.
  - intros f0 Hf0. destruct (so_forward s Hs f0 Hf0) as (Hsp & Hfo & Htk & Hl). split_and!; try done.
    unfold has_candidate in *. simpl. by rewrite Hc in Hfo.
  - by rewrite Hf.
  - intros c0 [= <-]. by exists f.
Qed.

(** A candidate under a new token. *)
Lemma state_ok_stage s f c :
  state_ok s -> forward s = Some f -> candidate s = None -> pending_policy f = None ->
  candidate_ok (fencing_token (forward_owner c)) f c ->
  last_fencing_token s < fencing_token (forward_owner c) ->
  let s' := set_fencing_token (fencing_token (forward_owner c)) (set_forward_candidate (Some c) s) in
  state_ok s' /\ keeps s s'.
Proof.
  intros Hs Hf Hn Hp Hc Hlt. simpl. destruct (so_forward s Hs f Hf) as (Hsp & Hfo & Htk & Hl). split.
  - split; simpl; try apply Hs.
    + intros f0 Hf0. rewrite Hf in Hf0. injection Hf0 as <-.
      split_and!; [done| |simpl; lia|].
      * by apply (forward_ok_no_pending (has_candidate s)).
      * intros Hr. destruct Hc as (_ & _ & _ & _ & _ & _ & _ & _ & Hre). congruence.
    + by rewrite Hf.
    + intros c0 [= <-]. by exists f.
  - split_and!; [simpl; lia|done|]. intros f0 Hf0. rewrite Hf in Hf0. injection Hf0 as <-.
    exists f. split; [done|left; apply same_grant_refl].
Qed.

(** The candidate takes over. *)
Lemma state_ok_commit s f c :
  state_ok s -> forward s = Some f -> candidate s = Some c ->
  let s' := set_forward_candidate None (set_forward (Some (set_forward_phase Active c)) s) in
  state_ok s' /\ keeps s s'.
Proof.
  intros Hs Hf Hc. simpl. destruct (so_forward s Hs f Hf) as (Hsp & Hfo & Htk & Hl).
  destruct (so_candidate s Hs c Hc) as (f0 & Hf0 & Hc1 & Hc2 & Hc3 & Hc4 & Hc5 & Hc6 & Hc7 & Hc8 & Hc9).
  rewrite Hf in Hf0. injection Hf0 as <-. split.
  - split; simpl; try apply Hs; [|done|done].
    intros f0 [= <-]. split_and!; [done| |done|done].
    by apply (forward_ok_phase true).
  - split_and!; [done|done|]. intros f0 Hf0. rewrite Hf in Hf0. injection Hf0 as <-.
    exists (set_forward_phase Active c). split; [done|by right].
Qed.

(** A first preparation, or its retry. *)
Lemma state_ok_prepare s o d ph :
  state_ok s -> spec s <> None -> candidate s = None ->
  ForwardOwner_validate o = Ok tt -> PrepareDeclaration_validate d = Ok tt ->
  last_fencing_token s <= fencing_token o ->
  (forall f, forward s = Some f -> forward_owner f = o) ->
  let s' := set_fencing_token (fencing_token o) (set_forward (Some (new_forward o d ph)) s) in
  state_ok s' /\ keeps s s'.
Proof.
  intros Hs Hsp Hn Ho Hd Hl Hf. simpl. split.
  - split; simpl; try apply Hs; [|done|].
    + intros f [= <-]. split_and!; [done| |done|done]. by apply forward_ok_new.
    + rewrite Hn. done.
  - split_and!; [done|done|]. intros f Hf'. exists (new_forward o d ph). split; [done|].
    rewrite <- (Hf f Hf'). left. apply same_grant_refl.
Qed.

(** Fields beside forwarding. *)
Lemma state_ok_created s i bt :
  state_ok s -> state_ok (set_created i bt s) /\ keeps s (set_created i bt s).
Proof. intros Hs. split; [|exact (keeps_refl s)]. split; simpl; try apply Hs; [done|]. intros _. by right. Qed.

Lemma state_ok_io s o e :
  last_io_epoch s <= e -> state_ok s -> state_ok (set_io_owner o e s) /\ keeps s (set_io_owner o e s).
Proof.
  intros He Hs. split; [by split; simpl; apply Hs|]. split_and!; [done|done|].
  intros f Hf. exists f. split; [done|left; apply same_grant_refl].
Qed.

Lemma state_ok_sysctls s l :
  state_ok s -> state_ok (set_state_sysctls l s) /\ keeps s (set_state_sysctls l s).
Proof. intros Hs. split; [by split; simpl; apply Hs|exact (keeps_refl s)]. Qed.

Lemma state_ok_intent s sp i marker admin io bt :
  state_ok s -> InfraSpec_validate sp = Ok tt ->
  state_ok (set_creation_intent (Some sp) i marker admin io bt s) /\
  keeps s (set_creation_intent (Some sp) i marker admin io bt s).
Proof.
  intros Hs Hsp. split; [|exact (keeps_refl s)]. split; simpl; try apply Hs.
  - by intros ? [= <-].
  - done.
  - intros _. by left.
  - intros f Hf. destruct (so_forward s Hs f Hf) as (_ & H). by split.
Qed.

Lemma state_ok_default : state_ok State_default.
Proof. by split. Qed.

(** The destinations of two policies during a cut-over. *)
Definition both (a c : PrepareDeclaration) : Nets := net_union (steered a) (steered c).

Ltac nets := unfold both, net_sub, net_union, net_minus, no_nets in *; intros; naive_solver.

(** ** Running the service *)

Definition not_panic {A} (r : Result InfrastructureError A) : Prop := r <> Err IxPanics.

Ltac rules := cbv beta iota.
(** A call that steers nothing new, the service otherwise unchanged. *)
Ltac keep_call :=
  match goal with
  | HA : At ?b ?s ?X ?S |- wp _ _ ?S =>
      refine (wp_keep _ _ _ b s X S _ _ HA _ _);
      [solve [eauto with infra]| |]; clear HA; intros ? ? HA; rules
  end.
(** A call whose success narrows what is steered. *)
Ltac narrow_call :=
  match goal with
  | HA : At ?b ?s ?X ?S |- wp _ _ ?S =>
      refine (wp_quiet _ _ _ b s X S _ _ HA _ _);
      [solve [eauto with infra]| |]; clear HA; intros ? ? HA; rules
  end.
(** Any call. *)
Ltac change_call :=
  match goal with
  | HA : At ?b ?s ?X ?S |- wp _ _ ?S =>
      refine (wp_on_world _ _ _ _ b s X S _ _ HA _ _);
      [solve [eauto with infra]| |]; clear HA; intros ? ? HA; rules
  end.
Ltac get_state :=
  match goal with
  | HA : At ?b ?s ?X ?S |- wp (gets state) _ ?S => refine (wp_gets_state b s X S _ HA _); rules
  end.
Ltac read_host :=
  match goal with
  | HA : At ?b ?s ?X ?S |- wp (host_read _) _ ?S =>
      refine (wp_host_read _ b s X S _ HA _ _);
      [clear HA; let HR := fresh "HR" in intros ? ? HA HR|clear HA; intros ? HA]; rules
  end.
Ltac store_state :=
  match goal with
  | HA : At ?b ?s ?X ?S |- wp (persist ?s') _ ?S =>
      refine (wp_persist b s s' X S _ HA _ _); clear HA; intros ? HA; rules
  end.
(** The steps without a choice of rule. *)
Ltac go1 :=
  match goal with
  | |- wp (mbind _ _) _ _ => apply wp_mbind
  | |- wp (attempt _) _ _ => apply wp_attempt
  | |- wp (ignore _) _ _ => apply wp_ignore
  | |- wp (mret _) _ _ => apply wp_mret; rules
  | |- wp (mfail _) _ _ => apply wp_mfail; rules
  | |- wp (reject _) _ _ => apply wp_mfail; rules
  | |- wp (gets state) _ _ => get_state
  end.
Ltac go := repeat go1.
Ltac fin := split_and!; try done; try (intros ? [= <-]; by split_and!); unfold not_panic; try congruence.

(** An error that leaves the state. *)
Ltac err_exit :=
  rules; cbn [is_ok]; split; [unfold not_panic; congruence|];
  refine (At_weaken _ _ _ _ _ ltac:(eassumption) _); try assumption.

Section Run.
Context {W : Type} `{!NetworkBackend W} `{!InfrastructureBackend W} `{!InfraHost W}
  `{!JournalFormat} `{!InfraMachine W}.
Implicit Types S : InfrastructureService W.

(** *** Calls that leave the state *)

(** [m] leaves state and kernel as they are, and succeeds only when [P] holds. *)
Definition observes {A} (m : InfraM W A) (s : State) (P : A -> Prop) : Prop :=
  forall b X S, At b s X S ->
    wp m (fun r S' => At b s X S' /\ not_panic r /\ forall a, r = Ok a -> P a) S.

Lemma wp_observes {A} (m : InfraM W A) s P b X S
    (Q : Result InfrastructureError A -> InfrastructureService W -> Prop) :
  observes m s P -> At b s X S ->
  (forall a S', At b s X S' -> P a -> Q (Ok a) S') ->
  (forall e S', At b s X S' -> e <> IxPanics -> Q (Err e) S') ->
  wp m Q S.
Proof.
  intros Hm HA HOk HErr. refine (wp_mono _ _ _ _ (Hm b X S HA) _). intros r S' (HA' & Hp & HP).
  destruct r as [a|e]; [by apply HOk, HP|]. apply HErr; [done|]. intros ->. by apply Hp.
Qed.

Lemma observes_lift {A} (r : Result InfrastructureError A) s :
  not_panic r -> observes (lift r) s (fun a => r = Ok a).
Proof. intros Hr b X S HA. apply wp_lift. by split_and!. Qed.

Lemma observes_administrator request s : observes (ensure_administrator request) s (fun _ => True).
Proof. intros b X S HA. unfold ensure_administrator. go. destruct (negb _); go; by split_and!. Qed.

Lemma observes_ownership s :
  observes verify_device_ownership s (fun _ => ownership_marker s <> None).
Proof.
  intros b X S HA. unfold verify_device_ownership. go.
  destruct (bool_decide (ownership_marker s = None)) eqn:E; go; [by split_and!|].
  apply bool_decide_eq_false in E. keep_call; [|by split_and!].
  destruct (negb _); go; by split_and!.
Qed.

Lemma observes_namespace sp s : observes (check_namespace sp) s (fun _ => True).
Proof.
  intros b X S HA. unfold check_namespace. go. read_host; [|by split_and!].
  destruct (_ || _); go; by split_and!.
Qed.

Lemma observes_identity i g s :
  observes (identity i g) s (fun sp => spec s = Some sp /\ infra_id sp = i /\ infra_generation sp = g).
Proof.
  intros b X S HA. unfold identity. go. apply wp_lift.
  destruct (spec s) as [sp|] eqn:Hsp; simpl; [|by split_and!].
  destruct (_ || _) eqn:E; go; [by split_and!|].
  apply orb_false_iff in E as [E1 E2]. apply negb_false_iff in E1, E2.
  apply bool_decide_eq_true in E1. apply Z.eqb_eq in E2.
  apply wp_interface_identity with b s X; [done|..].
  - intros S' HA'. assert (HA'' : At b s X S') by (refine (At_weaken _ _ _ _ _ HA' _); by intros ? ? []).
    clear HA HA'. destruct (negb _); go; [by split_and!|].
    refine (wp_observes _ s _ b X S' _ (observes_ownership s) HA'' _ _); intros; go; fin.
  - intros i0 S' HA'. clear HA. destruct (negb _); go; [by split_and!|].
    refine (wp_observes _ s _ b X S' _ (observes_ownership s) HA' _ _); intros; go; fin.
  - intros e S' HA'. by split_and!.
Qed.

Lemma observes_boot c s b X S :
  At b s X S -> wp (in_this_boot c) (fun r S' => At b s X S' /\ not_panic r /\
    forall a, r = Ok a -> a = c && bool_decide (b = Ok (boot_id s))) S.
Proof.
  intros HA. unfold in_this_boot. destruct c; simpl.
  2:{ go. split_and!; try done. by intros a [= <-]. }
  go. assert (Hb : current_boot_id (infra_world S) = b) by apply HA. read_host; [|by split_and!].
  go. split_and!; try done. intros r [= <-]. subst b. rewrite HR.
  apply bool_decide_ext. split; [by intros ->|by intros [= ->]].
Qed.

Lemma wp_boot c s b X S
    (Q : Result InfrastructureError bool -> InfrastructureService W -> Prop) :
  At b s X S ->
  (forall S', At b s X S' -> Q (Ok (c && bool_decide (b = Ok (boot_id s)))) S') ->
  (forall e S', At b s X S' -> e <> IxPanics -> Q (Err e) S') ->
  wp (in_this_boot c) Q S.
Proof.
  intros HA HOk HErr. refine (wp_mono _ _ _ _ (observes_boot c s b X S HA) _).
  intros r S' (HA' & Hp & HP). destruct r as [a|e].
  - rewrite (HP a eq_refl). by apply HOk.
  - apply HErr; [done|]. intros ->. by apply Hp.
Qed.

(** *** Creation of the device *)

Lemma lifecycle_on_world {E A} (wrap : E -> InfrastructureError) (f : M W E A) S :
  lifecycle_fd (on_world wrap f S).2 = lifecycle_fd S.
Proof. unfold on_world. by destruct (f (infra_world S)). Qed.

Lemma lifecycle_ownership S : lifecycle_fd (verify_device_ownership S).2 = lifecycle_fd S.
Proof.
  unfold verify_device_ownership, mbind, gets, reject, mfail. simpl.
  destruct (bool_decide _); [done|]. unfold backend.
  pose proof (lifecycle_on_world IxBackend interface_ownership_marker S) as H0.
  destruct (on_world _ _ S) as [[a|e] S1]; simpl in *; [|done]. by destruct (negb _).
Qed.

Lemma wp_lifecycle {A} (m : InfraM W A) Q S :
  lifecycle_fd (m S).2 = lifecycle_fd S ->
  wp m (fun r S' => lifecycle_fd S' = lifecycle_fd S -> Q r S') S -> wp m Q S.
Proof. unfold wp. auto. Qed.

(** The device is opened: only then is its ownership verified. *)
Lemma create_or_open_ok marker s b X S :
  At b s X S -> wp (create_or_open_device marker) (fun r S' => At b s X S' /\ not_panic r /\
    (is_ok r = true -> lifecycle_fd S' <> None)) S.
Proof.
  intros HA. unfold create_or_open_device. go.
  refine (wp_interface_identity b s X S _ HA _ _ _); rules.
  - intros S' HA'. assert (HA'' : At b s X S') by (refine (At_weaken _ _ _ _ _ HA' _); by intros ? ? []).
    clear HA HA'. go. keep_call; [|fin]. go.
    refine (wp_modify_lifecycle _ b s X _ _ HA'' _). rules. clear HA''. intros S1 HA Hl. go.
    apply wp_lifecycle; [apply lifecycle_on_world|]. keep_call.
    + intros Hl'. go. split_and!; [done|done|]. intros _. simpl in Hl'. by rewrite Hl', Hl.
    + intros Hl'. go. refine (wp_modify_lifecycle _ b s X _ _ HA _). rules. intros. go. fin.
  - intros i S' HA'. clear HA. go.
    refine (wp_observes _ s _ b X S' _ (observes_ownership s) HA' _ _); rules; clear HA'; [|intros; fin].
    intros _ S1 HA _. go. apply wp_gets. rules. destruct (lifecycle_fd S1) as [fd|] eqn:Hfd; go.
    + split_and!; [done|done|]. intros _. by rewrite Hfd.
    + keep_call; [|fin]. refine (wp_modify_lifecycle _ b s X _ _ HA _). rules. intros S2 HA2 Hl.
      split_and!; [done|done|]. intros _. by rewrite Hl.
  - intros e S' HA'. fin.
Qed.

Lemma complete_creation_ok b s X S :
  At b s X S -> state_ok s ->
  wp complete_creation (fun r S' => not_panic r /\
    exists s', At b s' X S' /\ (s' = s \/ exists i bt, s' = set_created i bt s) /\
      (is_ok r = true -> creation_pending s' = false /\ (creation_pending s = true -> ifindex s' <> None))) S.
Proof.
  intros HA Hs. unfold complete_creation. go.
  destruct (creation_pending s) eqn:Hc; simpl.
  2:{ go. split; [done|]. exists s. split_and!; [done|by left|]. by rewrite Hc. }
  destruct (so_creation s Hs Hc) as [Hsp Hm].
  destruct (spec s) as [sp|] eqn:Esp; [|done]. destruct (ownership_marker s) as [marker|] eqn:Em; [|done].
  assert (Hbad : forall A (e : InfrastructureError) S', At b s X S' -> e <> IxPanics ->
            not_panic (Err e : Result _ A) /\ exists s', At b s' X S' /\
              (s' = s \/ exists i bt, s' = set_created i bt s) /\
              (is_ok (Err e : Result InfrastructureError A) = true ->
                 creation_pending s' = false /\ (true = true -> ifindex s' <> None))).
  { intros A e S' HA' He. split; [intros [=]; by subst|]. exists s. split_and!; [done|by left|done]. }
  go. apply wp_lift. simpl. go. apply wp_lift. simpl. go.
  refine (wp_observes _ s _ b X S _ (observes_namespace sp s) HA _ _); rules; clear HA; [|by intros; apply Hbad].
  intros _ S1 HA _. go.
  refine (wp_mono _ _ _ _ (create_or_open_ok marker s b X S1 HA) _). clear HA.
  intros [[]|e] S2 (HA & Hp & Hl); [|apply Hbad; [done|]; intros ->; by apply Hp]. specialize (Hl eq_refl).
  go. apply wp_lifecycle; [apply lifecycle_ownership|].
  refine (wp_observes _ s _ b X S2 _ (observes_ownership s) HA _ _); rules; clear HA; [|by intros; apply Hbad].
  intros _ S3 HA _ Hl3. go. apply wp_gets. rules. rewrite Hl3. go. unfold unwrap. apply wp_lift.
  destruct (lifecycle_fd S2) as [fd|]; [|done]. simpl. go.
  keep_call; [|by apply Hbad]. go. keep_call; [|by apply Hbad]. go. read_host; [|by apply Hbad].
  store_state; [|by apply Hbad]. split; [done|]. eexists. split; [exact HA|]. split; [right; eauto|].
  intros _. done.
Qed.

(** *** Kernel changes *)

(** Removing what only [c] declares, then restoring [a], leaves only what [a] steers. *)
Lemma narrowed_to a c X :
  table_id a = table_id c -> net_sub X (both a c) ->
  net_sub (net_minus (net_union (net_minus X (net_minus (declared c) (declared a))) (steered a))
             (net_minus (declared a) (steered a))) (steered a).
Proof.
  intros Ht HX t p [[[H1 H2]|H1] H3]; [|done].
  destruct (HX t p H1) as [Ha|Hc]; [done|].
  destruct (decide (p ∈ all_prefixes a)) as [Hin|Hin].
  - assert (Hd : declared a t p) by (split; [by rewrite Ht; apply Hc|done]).
    assert (Hn : ~ ~ steered a t p) by (intros Hn; apply H3; by split).
    unfold steered in *. destruct Hc as (-> & _).
    destruct (decide (Exists (fun r => route_kind r <> Local /\ p = route_prefix r) (routes a))) as [He|He].
    + apply Exists_exists in He as (r & Hr & Hk & Hp). split; [done|]. by exists r.
    + destruct Hn. intros (_ & r & Hr & Hk & Hp). apply He, Exists_exists. by exists r.
  - destruct H2. split; [by apply steered_declared|]. intros [_ Hin']. done.
Qed.

(** The states a rolled-back cut-over may end in. *)
Definition rolled_back (now : Z) (b : Result IoError (list Z)) (s : State)
    (previous : ForwardRecord) S' : Prop :=
  exists f' X', At b (set_forward_candidate None (set_forward (Some f') s)) X' S' /\
    ((f' = previous /\ owner_is_live (forward_owner previous) now = true /\
      forward_phase previous <> Revoked /\
      net_sub X' (steered (forward_declaration previous))) \/
     (f' = set_forward_phase Revoked previous /\ net_sub X' no_nets)).

Lemma rollback_ok now b s X S previous c :
  At b s X S ->
  table_id (forward_declaration previous) = table_id (forward_declaration c) ->
  net_sub X (both (forward_declaration previous) (forward_declaration c)) ->
  wp (rollback_replacement previous c now) (fun r S' => not_panic r /\
    if is_ok r then rolled_back now b s previous S'
    else At b s (both (forward_declaration previous) (forward_declaration c)) S') S.
Proof.
  intros HA Ht HX. unfold rollback_replacement. cbv zeta. go.
  assert (Hbad : forall (e : InfrastructureError) Y S', At b s Y S' -> e <> IxPanics ->
    net_sub Y (both (forward_declaration previous) (forward_declaration c)) ->
    not_panic (Err e : Result _ unit) /\
    if is_ok (Err e : Result InfrastructureError unit) then rolled_back now b s previous S'
    else At b s (both (forward_declaration previous) (forward_declaration c)) S').
  { intros e Y S' HA' He HY. split; [intros [=]; by subst|]. by apply (At_weaken _ _ Y). }
  set (live := owner_is_live _ now). set (same := bool_decide (b = Ok (boot_id s))).
  refine (wp_boot _ s b X S _ HA _ _); rules; clear HA; [|intros; by apply (Hbad _ X)].
  intros S1 HA. fold same. set (gl := _ && live && same). go.
  set (ol := (bool_decide (forward_phase previous = Active)
              || bool_decide (forward_phase previous = Guarded)) && live && same).
  assert (Hgl : gl = true -> ol = true).
  { unfold gl, ol. destruct (bool_decide (forward_phase previous = Guarded)), live, same; simpl;
      rewrite ?orb_true_r; done. }
  assert (Hrest : forall Y S2, At b s Y S2 ->
    net_sub Y (both (forward_declaration previous) (forward_declaration c)) ->
    (ol = false -> net_sub Y no_nets) ->
    wp (do* backend (remove_firewall (forward_declaration c)) in
        let* old_live := in_this_boot ((bool_decide (forward_phase previous = Active)
          || bool_decide (forward_phase previous = Guarded)) && live) in
        do* (if old_live : bool then backend (prepare_firewall (forward_declaration previous))
             else mret tt) in
        do* backend (remove_stale_forwarding (forward_declaration c) (forward_declaration previous)) in
        do* (if old_live : bool
             then backend (restore_forwarding_with_failures (forward_declaration previous)
                             (forward_failed_prefixes previous))
             else mret tt) in
        let* next := gets state in
        persist (set_forward_candidate None (set_forward
          (Some (if old_live : bool then previous else set_forward_phase Revoked previous)) next)))
      (fun r S' => not_panic r /\
        if is_ok r then rolled_back now b s previous S'
        else At b s (both (forward_declaration previous) (forward_declaration c)) S') S2).
  { clear S X HX S1 HA. intros X S HA HX Hnone. go.
    keep_call; [|by apply (Hbad _ X)]. go.
    refine (wp_boot _ s b X _ _ HA _ _); rules; clear HA; [|intros; by apply (Hbad _ X)].
    intros S1 HA. fold same. fold ol. go. destruct ol eqn:Eol.
    - keep_call; [|by apply (Hbad _ X)]. go. narrow_call; [|by apply (Hbad _ X)].
      go. change_call; [|eapply Hbad; [exact HA|done|nets]]. go. store_state.
      + split; [done|]. exists previous. eexists. split; [exact HA|]. left. split; [done|].
        unfold ol in Eol. apply andb_true_iff in Eol as [Eol _].
        apply andb_true_iff in Eol as [Ep Eol]. split; [done|]. split; [|by apply narrowed_to].
        intros Hr. by rewrite Hr in Ep.
      + eapply Hbad; [exact HA|done|]. pose proof (narrowed_to _ _ X Ht HX). nets.
    - go. narrow_call; [|by apply (Hbad _ X)]. go. specialize (Hnone eq_refl). store_state.
      + split; [done|]. eexists _, _. split; [exact HA|]. right. split; [done|]. nets.
      + eapply Hbad; [exact HA|done|nets]. }
  destruct gl eqn:Egl.
  - keep_call; [|by apply (Hbad _ X)]. refine (wp_mono _ _ _ _ (Hrest X _ HA HX _) _); [|done].
    intros Hf. by rewrite Hgl in Hf.
  - go. narrow_call; [|by apply (Hbad _ X)]. go. narrow_call; [|eapply Hbad; [exact HA|done|nets]].
    refine (wp_mono _ _ _ _ (Hrest _ _ HA _ _) _); [nets|nets|done].
Qed.

Lemma install_ok b s X S previous c l :
  At b s X S ->
  table_id (forward_declaration previous) = table_id (forward_declaration c) ->
  net_sub X (both (forward_declaration previous) (forward_declaration c)) ->
  wp (install_replacement previous c l) (fun r S' => not_panic r /\
    if is_ok r then At b s (steered (forward_declaration c)) S'
    else At b s (both (forward_declaration previous) (forward_declaration c)) S') S.
Proof.
  intros HA Ht HX. unfold install_replacement. cbv zeta. go.
  assert (Hbad : forall (e : InfrastructureError) Y S', At b s Y S' -> e <> IxPanics ->
    net_sub Y (both (forward_declaration previous) (forward_declaration c)) ->
    not_panic (Err e : Result _ unit) /\
    if is_ok (Err e : Result InfrastructureError unit)
    then At b s (steered (forward_declaration c)) S'
    else At b s (both (forward_declaration previous) (forward_declaration c)) S').
  { intros e Y S' HA' He HY. split; [intros [=]; by subst|]. by apply (At_weaken _ _ Y). }
  assert (Hrest : forall Y S2, At b s Y S2 ->
    net_sub Y (both (forward_declaration previous) (forward_declaration c)) ->
    wp (do* transition "remove_previous_firewall" (remove_firewall (forward_declaration previous)) in
        do* transition "candidate_sysctls" (prepare_sysctls (forward_declaration c) l) in
        do* transition "candidate_firewall" (prepare_firewall (forward_declaration c)) in
        do* transition "remove_previous_routes"
              (remove_stale_forwarding (forward_declaration previous) (forward_declaration c)) in
        transition "candidate_routes" (restore_forwarding_with_failures (forward_declaration c)
          (forward_failed_prefixes c)))
      (fun r S' => not_panic r /\
        if is_ok r then At b s (steered (forward_declaration c)) S'
        else At b s (both (forward_declaration previous) (forward_declaration c)) S') S2).
  { clear S X HX HA. intros X S HA HX. go.
    keep_call; [|by apply (Hbad _ X)]. go. keep_call; [|by apply (Hbad _ X)]. go.
    keep_call; [|by apply (Hbad _ X)]. go. narrow_call; [|by apply (Hbad _ X)]. change_call.
    - split; [done|]. refine (At_weaken _ _ _ _ _ HA _). apply narrowed_to; [done|nets].
    - eapply Hbad; [exact HA|done|nets]. }
  destruct (bool_decide (forward_phase previous = Guarded)).
  - keep_call; [|by apply (Hbad _ X)]. apply wp_mbind, wp_mret. rules. by apply (Hrest X).
  - narrow_call; [|by apply (Hbad _ X)]. go. narrow_call; [|eapply Hbad; [exact HA|done|nets]].
    refine (Hrest _ _ HA _). nets.
Qed.

Lemma steered_without_local d t p : steered (without_local d) t p <-> steered d t p.
Proof.
  unfold steered. simpl. split; intros (-> & r & Hr & Hk & ->); (split; [done|]); exists r.
  - apply list_elem_of_In, filter_In in Hr as [Hr _]. by rewrite list_elem_of_In.
  - split; [|done]. apply list_elem_of_In, filter_In. split; [by apply list_elem_of_In|].
    unfold is_local_kind. by rewrite bool_decide_eq_false_2.
Qed.

Lemma fence_ok b s X S f :
  At b s X S -> net_sub X (net_union (steered (forward_declaration f)) (pending_nets f)) ->
  wp (fence_policy_intent f) (fun r S' => not_panic r /\
    if is_ok r then At b s no_nets S' else At b s X S') S.
Proof.
  intros HA HX. unfold fence_policy_intent. go.
  assert (Hbad : forall (e : InfrastructureError) Y S', At b s Y S' -> e <> IxPanics ->
    net_sub Y X -> not_panic (Err e : Result _ unit) /\
    if is_ok (Err e : Result InfrastructureError unit) then At b s no_nets S' else At b s X S').
  { intros e Y S' HA' He HY. split; [intros [=]; by subst|]. by apply (At_weaken _ _ Y). }
  narrow_call; [|by split]. go.
  unfold pending_nets in HX. destruct (pending_policy f) as [q|].
  - case_bool_decide as Hr.
    + go. keep_call; [|eapply Hbad; [exact HA|done|nets]]. keep_call; [|eapply Hbad; [exact HA|done|nets]].
      split; [done|]. refine (At_weaken _ _ _ _ _ HA _). intros t p [H1 H2].
      destruct (HX t p H1) as [H3|H3]; [done|]. apply steered_without_local in H3.
      destruct H3 as (_ & r & Hin & _). rewrite Hr in Hin. by apply elem_of_nil in Hin.
    + narrow_call; [|eapply Hbad; [exact HA|done|nets]]. go.
      keep_call; [|eapply Hbad; [exact HA|done|nets]]. keep_call; [|eapply Hbad; [exact HA|done|nets]].
      split; [done|]. refine (At_weaken _ _ _ _ _ HA _). intros t p [[H1 H2] H3].
      destruct (HX t p H1) as [H4|H4]; [done|]. apply H3. by apply steered_without_local.
  - go. keep_call; [|eapply Hbad; [exact HA|done|nets]]. go.
    split; [done|]. refine (At_weaken _ _ _ _ _ HA _). nets.
Qed.

(** The published policy. *)
Definition published (f : ForwardRecord) (q : PendingPolicy) : ForwardRecord :=
  set_policy (pending_declaration q) (revision q) (pending_generation q)
    (authorization_snapshot_sha256 q)
    (retained_failures (pending_declaration q) (forward_failed_prefixes f)) None f.

Lemma live_policy_narrowed a d X :
  table_id a = table_id d -> net_sub X (both a d) ->
  net_sub (net_minus (net_union X (steered d))
    (net_union (net_minus (declared d) (steered d)) (net_minus (declared a) (declared d)))) (steered d).
Proof.
  intros Ht HX t p [H1 H2].
  refine (narrowed_to d a X _ _ t p _); [done|nets|].
  unfold net_minus, net_union in *. split; [|tauto]. destruct H1 as [H1|H1]; [left|by right].
  split; [done|]. tauto.
Qed.

Lemma reconcile_live_ok now b s X S f :
  At b s X S -> state_ok s -> forward s = Some f -> net_sub X (coverage s) -> settled s ->
  wp (reconcile_live_policy now) (fun r S' => not_panic r /\
    if is_ok r then exists q, pending_policy f = Some q /\ forward_phase f = Active /\
      pending_failed_prefixes f = None /\ candidate s = None /\
      At b (set_forward (Some (published f q)) s) (steered (pending_declaration q)) S'
    else At b s (coverage s) S') S.
Proof.
  intros HA Hs Hf HX Hset. unfold reconcile_live_policy. go. rewrite Hf. apply wp_lift. simpl. go.
  apply wp_lift. unfold ensure_live. destruct (owner_is_live _ _); [|err_exit].
  destruct (_ || _) eqn:E; go; [err_exit|].
  apply orb_false_iff in E as [E E3]. apply orb_false_iff in E as [E1 E2].
  apply negb_false_iff, bool_decide_eq_true in E1. apply bool_decide_eq_false in E2, E3.
  assert (Hc : candidate s = None) by (destruct (candidate s); [by destruct E2|done]).
  assert (Hpf : pending_failed_prefixes f = None)
    by (destruct (pending_failed_prefixes f); [by destruct E3|done]).
  apply wp_lift. destruct (pending_policy f) as [q|] eqn:Hq; simpl; [|err_exit].
  destruct (cancelled q); go; [err_exit|].
  apply wp_lift. destruct (spec s) as [sp|]; simpl; [|err_exit]. go.
  refine (wp_observes _ s _ b X S _ (observes_identity _ _ s) HA _ _); rules; clear HA;
    [|intros; err_exit].
  intros _ S1 HA _. go.
  destruct (so_forward s Hs f Hf) as (_ & Hfo & _).
  assert (Ht : table_id (forward_declaration f) = table_id (pending_declaration q)).
  { destruct Hfo as (_ & _ & _ & _ & Hp & _). unfold pending_ok in Hp. rewrite Hq in Hp.
    destruct Hp as (_ & Hi & _). by apply identity_same in Hi as (Hi & _). }
  assert (Hcov : net_sub X (both (forward_declaration f) (pending_declaration q))).
  { intros t p Htp. apply HX in Htp. apply coverage_settled in Htp as (f0 & Hf0 & _ & Htp); [|done].
    rewrite Hf in Hf0. injection Hf0 as <-. unfold pending_nets in Htp. by rewrite Hq in Htp. }
  assert (Hwide : forall Y, net_sub Y (net_union X (steered (pending_declaration q))) ->
            net_sub Y (coverage s)).
  { intros Y HY t p Htp. destruct (HY t p Htp) as [Hx|Hx]; [by apply HX|].
    unfold coverage. rewrite Hf. left. split; [congruence|]. right. unfold pending_nets. by rewrite Hq. }
  change_call; [|err_exit; apply Hwide; nets]. go. rewrite Hf.
  apply wp_lift. simpl. store_state.
  - split; [done|]. exists q. split_and!; try done. refine (At_weaken _ _ _ _ _ HA _).
    by apply live_policy_narrowed.
  - err_exit. apply Hwide. nets.
Qed.

(** *** Recovery *)

Lemma not_panic_err {A B} e :
  not_panic (Err e : Result InfrastructureError A) -> not_panic (Err e : Result InfrastructureError B).
Proof. unfold not_panic. congruence. Qed.

(** A step from [s] ends in a well-formed state that covers the kernel and only advances;
    when it succeeds, in one that satisfies [P]. *)
Definition fine {A} (b : Result IoError (list Z)) (s : State) (P : State -> Prop)
    (r : Result InfrastructureError A) S' : Prop :=
  not_panic r /\ exists s', At b s' (coverage s') S' /\ state_ok s' /\ keeps s s' /\
    (is_ok r = true -> P s').

Lemma fine_here {A} b s X S (P : State -> Prop) (r : Result InfrastructureError A) :
  At b s X S -> net_sub X (coverage s) -> state_ok s -> not_panic r -> (is_ok r = true -> P s) ->
  fine b s P r S.
Proof.
  intros HA HX Hs Hr HP. split; [done|]. exists s. split_and!; [|done|apply keeps_refl|done].
  by apply (At_weaken _ _ X).
Qed.

Lemma fine_at {A} b s s' X S (P : State -> Prop) (r : Result InfrastructureError A) :
  At b s' X S -> net_sub X (coverage s') -> state_ok s' -> keeps s s' -> not_panic r ->
  (is_ok r = true -> P s') -> fine b s P r S.
Proof.
  intros HA HX Hs Hk Hr HP. split; [done|]. exists s'. split_and!; try done.
  by apply (At_weaken _ _ X).
Qed.

Lemma fine_weaken {A B} b s s' (P P' : State -> Prop) (r : Result InfrastructureError A)
    (r' : Result InfrastructureError B) S :
  keeps s s' -> fine b s' P r S -> not_panic r' -> (is_ok r' = true -> is_ok r = true) ->
  (forall s'', P s'' -> P' s'') -> fine b s P' r' S.
Proof.
  intros Hk (_ & s'' & HA & Hs & Hk' & HP) Hn Hr HPP. split; [done|]. exists s''.
  split_and!; try done; [by apply (keeps_trans _ s')|auto].
Qed.

(** Sequencing: what follows starts from the state reached. *)
Lemma fine_bind {A B} (m : InfraM W A) (k : A -> InfraM W B) b s (P P' : State -> Prop) S :
  wp m (fine b s P) S ->
  (forall a s' S', At b s' (coverage s') S' -> state_ok s' -> keeps s s' -> P s' ->
     wp (k a) (fine b s' P') S') ->
  wp (mbind m k) (fine b s P') S.
Proof.
  intros Hm Hk. apply wp_mbind. refine (wp_mono _ _ _ _ Hm _).
  intros [a|e] S' (Hn & s' & HA & Hs & Hkp & HP).
  - refine (wp_mono _ _ _ _ (Hk a s' S' HA Hs Hkp (HP eq_refl)) _). intros r S'' Hf.
    refine (fine_weaken _ _ _ _ _ _ _ _ Hkp Hf _ _ _); [by destruct Hf|done|done].
  - split; [intros [=]; subst; by apply Hn|]. exists s'. by split_and!.
Qed.

Lemma coverage_cutover s f c :
  forward s = Some f -> candidate s = Some c -> forward_phase c = Preparing ->
  net_sub (both (forward_declaration f) (forward_declaration c)) (coverage s).
Proof.
  intros Hf Hc Hp t p Ht. unfold coverage. rewrite Hf, Hc. right. split; [done|]. destruct Ht; auto.
Qed.

Lemma coverage_both s f c :
  state_ok s -> forward s = Some f -> candidate s = Some c ->
  net_sub (coverage s) (both (forward_declaration f) (forward_declaration c)).
Proof.
  intros Hs Hf Hc t p Ht. unfold coverage in Ht. rewrite Hf, Hc in Ht.
  destruct (so_forward s Hs f Hf) as (_ & Hfo & _). unfold has_candidate in Hfo. rewrite Hc in Hfo.
  apply (forward_ok_candidate false) in Hfo as [Hq _]. unfold pending_nets in Ht. rewrite Hq in Ht.
  unfold both, net_union. tauto.
Qed.

(** The state after a rollback. *)
Lemma rolled_back_fine {A} now b s previous c S' (P : State -> Prop)
    (r : Result InfrastructureError A) :
  state_ok s -> forward s = Some previous -> candidate s = Some c -> not_panic r ->
  rolled_back now b s previous S' ->
  (forall s', candidate s' = None -> creation_pending s' = creation_pending s ->
     owner_live now s' -> P s') -> fine b s P r S'.
Proof.
  intros Hs Hf Hc Hn (f' & X' & HA & Hcase) HP.
  destruct (so_forward s Hs previous Hf) as (_ & Hfo & _).
  destruct (state_ok_no_candidate s Hs) as [Hs1 Hk1].
  assert (Hf' : forward_ok (has_candidate (set_forward_candidate None s)) f' /\
    same_grant (forward_owner previous) (forward_owner f') /\
    (replaceable (forward_phase f') = false -> replaceable (forward_phase previous) = false) /\
    table_id (forward_declaration previous) = table_id (forward_declaration f')).
  { unfold has_candidate in Hfo. rewrite Hc in Hfo.
    apply (forward_ok_candidate false) in Hfo as [Hq Hfo].
    destruct Hcase as [(-> & _)|(-> & _)]; split_and!; try done; try apply same_grant_refl.
    by apply (forward_ok_phase false). }
  destruct Hf' as (F1 & F2 & F3 & F4).
  destruct (state_ok_forward _ previous f' Hs1 Hf F1 F2 F3 F4) as [Hs2 Hk2].
  refine (fine_at b s _ X' S' P r HA _ Hs2 (keeps_trans _ _ _ Hk1 Hk2) Hn _).
  - unfold coverage. simpl. intros t p Ht. left.
    destruct Hcase as [(-> & _ & Hp & HX)|(-> & HX)]; [|by destruct (HX t p Ht)].
    split; [done|]. left. by apply HX.
  - intros _. apply HP; [done|done|]. intros f0 [= <-] Hp.
    destruct Hcase as [(-> & Hl & _)|(-> & _)]; [done|]. by destruct Hp.
Qed.

Lemma recover_candidate_ok now b s S :
  At b s (coverage s) S -> state_ok s -> creation_pending s = false ->
  wp (recover_candidate now) (fine b s settled) S.
Proof.
  intros HA Hs Hcp. unfold recover_candidate. go. destruct (candidate s) as [c|] eqn:Hc.
  2:{ go. apply (fine_here b s (coverage s)); try done. intros _. split; [done|]. by rewrite Hc. }
  destruct (so_candidate s Hs c Hc) as (f & Hf & Hco).
  destruct Hco as (_ & Hph & _ & _ & _ & Ht & _).
  case_bool_decide as Hp.
  - go. rewrite Hf. apply wp_lift. simpl. go.
    refine (wp_mono _ _ _ _ (rollback_ok now b s _ S f c HA Ht (coverage_both s f c Hs Hf Hc)) _).
    intros [[]|e] S' [Hn HR]; go.
    + refine (rolled_back_fine now b s f c S' _ _ Hs Hf Hc _ HR _); [done|].
      intros s' Hn' Hcp' _. split; [congruence|]. by rewrite Hn'.
    + refine (fine_here b s _ S' _ _ HR _ Hs _ _);
        [by apply coverage_cutover|by apply (not_panic_err e Hn)|done].
  - go. apply wp_gets. rules. destruct (_ || _).
    + go. store_state.
      * go. destruct (state_ok_no_candidate s Hs) as [Hs' Hk].
        refine (fine_at b s _ _ _ _ _ HA _ Hs' Hk _ _); [|done|intros _; split; done].
        intros t p Htp. unfold coverage in *. simpl. rewrite Hf, Hc in *.
        destruct Htp as [Htp|[Htp _]]; [by left|done].
      * apply (fine_here b s (coverage s)); done.
    + go. apply (fine_here b s (coverage s)); try done. intros _. split; [done|].
      intros c0 Hc0. rewrite Hc in Hc0. injection Hc0 as <-. done.
Qed.

Lemma coverage_of s f :
  settled s -> forward s = Some f ->
  net_sub (coverage s) (net_union (steered (forward_declaration f)) (pending_nets f)).
Proof.
  intros Hset Hf t p Ht. apply coverage_settled in Ht as (f0 & Hf0 & _ & Ht); [|done].
  rewrite Hf in Hf0. by injection Hf0 as <-.
Qed.

(** Fencing the retained record, with its pending repairs dropped. *)
Lemma revoke_ok s f f' :
  state_ok s -> forward s = Some f -> forward_ok (has_candidate s) f' ->
  forward_owner f' = forward_owner f -> forward_declaration f' = forward_declaration f ->
  forward_phase f' = Revoked ->
  state_ok (set_forward (Some f') s) /\ keeps s (set_forward (Some f') s).
Proof.
  intros Hs Hf Hf' Ho Hd Hp. apply (state_ok_forward s f); try done.
  - rewrite Ho. apply same_grant_refl.
  - by rewrite Hp.
  - by rewrite Hd.
Qed.

Lemma recover_cancelled_ok b s S :
  At b s (coverage s) S -> state_ok s -> settled s ->
  wp recover_cancelled (fine b s settled) S.
Proof.
  intros HA Hs Hset. unfold recover_cancelled. go. unfold policy_cancelled.
  destruct (forward s) as [f|] eqn:Hf; simpl.
  2:{ go. by apply (fine_here b s (coverage s)). }
  destruct (match pending_policy f with Some p => cancelled p | None => false end) eqn:Hcan; simpl.
  2:{ go. by apply (fine_here b s (coverage s)). }
  go. apply wp_lift. simpl. go.
  refine (wp_mono _ _ _ _ (fence_ok b s _ S f HA (coverage_of s f Hset Hf)) _). clear HA.
  intros [[]|e] S1 [Hn HA]; cbn [is_ok] in HA; go.
  - unfold revoke_fenced. rewrite Hf. go. apply wp_lift. simpl.
    destruct (so_forward s Hs f Hf) as (_ & Hfo & _).
    destruct (revoke_ok s f (set_pending_policy None (set_forward_phase Revoked f)) Hs Hf) as [Hs' Hk];
      [by eapply forward_ok_drop_policy, forward_ok_revoked|done..|].
    store_state; go.
    + by refine (fine_at b s _ no_nets _ _ _ HA _ Hs' Hk _ _).
    + by refine (fine_here b s _ _ _ _ HA _ Hs _ _).
  - apply (fine_here b s (coverage s)); try done. by apply (not_panic_err e Hn).
Qed.

Lemma published_ok s f q :
  state_ok s -> forward s = Some f -> pending_policy f = Some q ->
  pending_failed_prefixes f = None ->
  state_ok (set_forward (Some (published f q)) s) /\ keeps s (set_forward (Some (published f q)) s).
Proof.
  intros Hs Hf Hq Hpf. destruct (so_forward s Hs f Hf) as (_ & Hfo & _).
  pose proof Hfo as (H1 & H2 & H3 & H4 & H5 & H6). unfold pending_ok in H5. rewrite Hq in H5.
  destruct H5 as (Q1 & Q2 & Q3 & Q4 & Q5 & _).
  apply (state_ok_forward s f); try done.
  - apply forward_ok_policy; try done. apply retained_failures_weak. apply H3.
  - by apply identity_same in Q2 as (-> & _).
Qed.

(** A publication of the pending policy keeps the service fine, whether it works or not. *)
Lemma wp_reconcile_live {A} now b s S (P : State -> Prop)
    (k : Result InfrastructureError unit -> Result InfrastructureError A) :
  At b s (coverage s) S -> state_ok s -> settled s ->
  (forall r, not_panic r -> not_panic (k r)) ->
  (forall s', settled s' -> (forward s' = forward s \/
     exists f q, forward s = Some f /\ forward s' = Some (published f q)) -> P s') ->
  wp (reconcile_live_policy now) (fun r S' => fine b s P (k r) S') S.
Proof.
  intros HA Hs Hset Hk HP. destruct (forward s) as [f|] eqn:Hf.
  - refine (wp_mono _ _ _ _ (reconcile_live_ok now b s _ S f HA Hs Hf (net_sub_refl _) Hset) _).
    clear HA. intros r S' [Hn Hr]. apply Hk in Hn. destruct (is_ok r).
    + destruct Hr as (q & Hq & Hp & Hpf & Hc & HA).
      destruct (published_ok s f q Hs Hf Hq Hpf) as [Hs' Hkp].
      refine (fine_at b s _ _ S' _ _ HA _ Hs' Hkp Hn _).
      * apply (coverage_weaken (published f q)); [done|simpl; congruence|]. simpl. nets.
      * intros _. apply HP; [by destruct Hset|]. right. by exists f, q.
    + refine (fine_here b s _ S' _ _ Hr _ Hs Hn _); [done|]. intros _. apply HP; [done|by left].
  - unfold reconcile_live_policy. go. rewrite Hf. apply wp_lift. simpl.
    apply (fine_here b s (coverage s)); try done; [by apply Hk|]. intros _. apply HP; auto.
Qed.

Lemma recover_policy_ok now b s S :
  At b s (coverage s) S -> state_ok s -> settled s ->
  wp (recover_policy now) (fine b s settled) S.
Proof.
  intros HA Hs Hset. unfold recover_policy. go.
  refine (wp_boot _ s b _ S _ HA _ _); rules; clear HA.
  2:{ intros. apply (fine_here b s (coverage s)); try done. unfold not_panic. congruence. }
  intros S1 HA. destruct (negb _); go.
  - by apply (fine_here b s (coverage s)).
  - refine (wp_mono _ _ _ _ (wp_reconcile_live now b s S1 settled (fun r => Ok (is_ok r)) HA Hs Hset _ _) _);
      [done|done|]. intros r S' Hr. by go.
Qed.

Lemma settled_forward f s : settled s -> settled (set_forward f s).
Proof. done. Qed.

Lemma coverage_active f s :
  forward s = Some f -> forward_phase f <> Revoked ->
  net_sub (steered (forward_declaration f)) (coverage s).
Proof. intros Hf Hp. apply (coverage_weaken f); [done|done|nets]. Qed.

Lemma recover_failed_ok now b s S :
  At b s (coverage s) S -> state_ok s -> settled s ->
  wp (recover_failed_prefixes now) (fine b s settled) S.
Proof.
  intros HA Hs Hset. unfold recover_failed_prefixes. go. destruct (forward s) as [f|] eqn:Hf.
  2:{ go. by apply (fine_here b s (coverage s)). }
  destruct (so_forward s Hs f Hf) as (Hsp & Hfo & _). go.
  refine (wp_boot _ s b _ S _ HA _ _); rules; clear HA.
  2:{ intros. apply (fine_here b s (coverage s)); try done. unfold not_panic. congruence. }
  intros S1 HA.
  destruct (bool_decide (forward_phase f = Active)) eqn:Hp; simpl.
  2:{ go. by apply (fine_here b s (coverage s)). }
  apply bool_decide_eq_true in Hp.
  destruct (owner_live_now now f && _); [|go; by apply (fine_here b s (coverage s))].
  destruct (pending_failed_prefixes f) as [target|] eqn:Hpf;
    [|go; by apply (fine_here b s (coverage s))].
  go. destruct (spec s) as [sp|] eqn:Hspec; [|done]. apply wp_lift. simpl. go.
  refine (wp_observes _ s _ b _ S1 _ (observes_identity _ _ s) HA _ _); rules; clear HA.
  2:{ intros. apply (fine_here b s (coverage s)); try done. unfold not_panic. congruence. }
  intros _ S2 HA _. go.
  assert (Hwide : net_sub (net_union (coverage s) (steered (forward_declaration f))) (coverage s)).
  { pose proof (coverage_active f s Hf) as Hca. rewrite Hp in Hca. specialize (Hca ltac:(done)). nets. }
  change_call; simpl; go; [|by refine (fine_here b s _ _ _ _ HA _ Hs _ _)].
  rewrite Hf. apply wp_lift. simpl. go.
  pose proof Hfo as (H1 & H2 & H3 & H4 & H5 & H6). unfold revisions_ok in H6. rewrite Hpf in H6.
  destruct (pending_failure_revision f) as [rev|] eqn:Hrev; [|done]. destruct H6 as [Hst Hlt].
  apply wp_lift. simpl. go.
  assert (Hcov : forall Y, net_sub Y (net_union (coverage s) (steered (forward_declaration f))) ->
            net_sub Y (coverage s)) by (intros Y HY t p Ht; by apply Hwide, HY).
  store_state; go.
  - destruct (state_ok_forward s f (set_failures rev target None None f) Hs Hf) as [Hs' Hk]; try done.
    { apply forward_ok_failures; [done|]. by apply failed_strict_weak. }
    refine (fine_at b s _ _ _ _ _ HA _ Hs' Hk _ _); [|done|done].
    intros t p Ht. specialize (Hcov _ (fun _ _ H => proj1 H) t p Ht). unfold coverage in *.
    rewrite Hf in Hcov. exact Hcov.
  - refine (fine_here b s _ _ _ _ HA _ Hs _ _); [|done|done]. apply Hcov. nets.
Qed.

Lemma fence_owner_ok b s S f (P : State -> Prop) :
  At b s (coverage s) S -> state_ok s -> settled s -> forward s = Some f ->
  (forall s' f', settled s' -> forward s' = Some f' -> forward_phase f' = Revoked -> P s') ->
  wp (fence_owner f) (fine b s P) S.
Proof.
  intros HA Hs Hset Hf HP. destruct (so_forward s Hs f Hf) as (_ & Hfo & _).
  unfold fence_owner. cbv zeta.
  assert (Hrest : forall s1 f1 S1, At b s1 (coverage s1) S1 -> state_ok s1 -> settled s1 ->
    forward s1 = Some f1 -> keeps s s1 ->
    wp (do* fence_policy_intent f1 in
        let* next := gets state in
        let* current := unwrap (forward next) in
        persist (set_forward (Some (set_failures
          (failure_revision (set_pending_policy None (set_forward_phase Revoked current)))
          (forward_failed_prefixes (set_pending_policy None (set_forward_phase Revoked current)))
          None None (set_pending_policy None (set_forward_phase Revoked current)))) next))
      (fine b s P) S1).
  { clear S HA. intros s1 f1 S HA Hs1 Hset1 Hf1 Hk1. go.
    refine (wp_mono _ _ _ _ (fence_ok b s1 _ S f1 HA (coverage_of s1 f1 Hset1 Hf1)) _). clear HA.
    intros [[]|e] S1 [Hn HA]; cbn [is_ok] in HA; go; [|by refine (fine_at b s s1 _ _ _ _ HA _ Hs1 Hk1 Hn _)].
    rewrite Hf1. apply wp_lift. simpl.
    destruct (so_forward s1 Hs1 f1 Hf1) as (_ & Hfo1 & _).
    set (f2 := set_failures _ _ None None _).
    destruct (revoke_ok s1 f1 f2 Hs1 Hf1) as [Hs2 Hk2]; try done.
    { refine (forward_ok_drop_failures _ (set_pending_policy None (set_forward_phase Revoked f1)) _).
      by eapply forward_ok_drop_policy, forward_ok_revoked. }
    store_state.
    - refine (fine_at b s _ _ _ _ _ HA _ Hs2 (keeps_trans _ _ _ Hk1 Hk2) _ _); [done|done|].
      intros _. by apply (HP _ f2).
    - by refine (fine_at b s s1 _ _ _ _ HA _ Hs1 Hk1 _ _). }
  destruct (pending_policy f) as [q|] eqn:Hq.
  - rewrite bool_decide_eq_true_2 by done. apply wp_mbind. go.
    set (f1 := set_pending_policy (Some (cancel q)) f).
    destruct (state_ok_forward s f f1 Hs Hf) as [Hs1 Hk1]; try done.
    { by apply forward_ok_cancel. }
    store_state; [|by refine (fine_here b s _ _ _ _ HA _ Hs _ _)].
    apply (Hrest (set_forward (Some f1) s) f1); try done.
    refine (At_weaken _ _ _ _ _ HA _). intros t p Ht.
    apply coverage_settled in Ht as (f0 & Hf0 & Hp & Ht); [|done].
    rewrite Hf in Hf0. injection Hf0 as <-.
    refine (coverage_weaken f1 (set_forward (Some f1) s) (net_union (steered (forward_declaration f)) (pending_nets f))
              eq_refl Hp _ t p Ht).
    unfold pending_nets. rewrite Hq. done.
  - rewrite bool_decide_eq_false_2 by (rewrite Hq; tauto). apply wp_mbind, wp_mret. rules.
    by apply (Hrest s f); try apply keeps_refl.
Qed.

Definition settled_live (now : Z) (s : State) : Prop := settled s /\ owner_live now s.

Lemma recover_owner_ok now b r s S :
  At b s (coverage s) S -> state_ok s -> settled s ->
  wp (recover_owner now r) (fine b s (settled_live now)) S.
Proof.
  intros HA Hs Hset. unfold recover_owner. cbv zeta. go. apply wp_gets. rules.
  assert (Hsettle : forall r S1, At b s (coverage s) S1 -> owner_live now s ->
    wp (do* modify (set_restart false) in mret r : InfraM W bool) (fine b s (settled_live now)) S1).
  { intros r0 S1 HA1 Hl. go. apply wp_modify. go.
    refine (fine_here b s _ _ _ _ (At_restart _ _ _ _ false HA1) _ Hs _ _); done. }
  destruct (forward s) as [f|] eqn:Hf.
  2:{ apply Hsettle; [done|]. intros f Hf'. by rewrite Hf in Hf'. }
  case_bool_decide as Hr.
  { apply Hsettle; [done|]. intros f0 Hf0 Hp. rewrite Hf in Hf0. by injection Hf0 as <-. }
  go. read_host; [|by refine (fine_here b s _ _ _ _ HA _ Hs _ _)].
  destruct (owner_live_now now f) eqn:Hl.
  - assert (Hlive : owner_live now s).
    { intros f0 Hf0 _. rewrite Hf in Hf0. by injection Hf0 as <-. }
    rewrite !andb_true_r. destruct (_ && _).
    + go. keep_call; [by apply Hsettle|by refine (fine_here b s _ _ _ _ HA _ Hs _ _)].
    + destruct (_ && _); [by apply Hsettle|]. apply wp_mbind.
      refine (wp_mono _ _ _ _ (fence_owner_ok b s _ f (settled_live now) HA Hs Hset Hf _) _).
      * intros s' f' Hset' Hf' Hrv. split; [done|]. intros f0 Hf0 Hp. rewrite Hf' in Hf0.
        by injection Hf0 as <-.
      * intros [[]|e] S1 (Hn & s' & HA' & Hs' & Hk & HP).
        -- go. apply wp_modify. go. split; [done|]. exists s'. split_and!; try done; intros _; by apply HP.
        -- split; [by apply (not_panic_err e Hn)|]. by exists s'.
  - rewrite !andb_false_r. apply wp_mbind.
    refine (wp_mono _ _ _ _ (fence_owner_ok b s _ f (settled_live now) HA Hs Hset Hf _) _).
    * intros s' f' Hset' Hf' Hrv. split; [done|]. intros f0 Hf0 Hp. rewrite Hf' in Hf0.
      by injection Hf0 as <-.
    * intros [[]|e] S1 (Hn & s' & HA' & Hs' & Hk & HP).
      -- go. apply wp_modify. go. split; [done|]. exists s'. split_and!; try done; intros _; by apply HP.
      -- split; [by apply (not_panic_err e Hn)|]. by exists s'.
Qed.

Lemma recover_expired_ok now b s S :
  At b s (coverage s) S -> state_ok s ->
  wp (recover_expired now) (fine b s (settled_live now)) S.
Proof.
  intros HA Hs. unfold recover_expired.
  refine (fine_bind _ _ b s (fun s' => creation_pending s' = false) _ S _ _).
  { refine (wp_mono _ _ _ _ (complete_creation_ok b s _ S HA Hs) _).
    intros r S' (Hn & s' & HA' & Hcase & Hok).
    assert (Hs' : state_ok s' /\ keeps s s' /\ coverage s' = coverage s).
    { destruct Hcase as [->|(i & bt & ->)]; [split; [done|]; split; [apply keeps_refl|done]|].
      destruct (state_ok_created s i bt Hs). by split_and!. }
    destruct Hs' as (Hs' & Hk & Hcov). refine (fine_at b s s' _ S' _ r HA' _ Hs' Hk Hn _).
    - by rewrite Hcov.
    - intros Hr. by apply Hok. }
  clear S HA. intros _ s1 S1 HA1 Hs1 _ Hc1.
  refine (fine_bind _ _ b s1 settled _ S1 (recover_candidate_ok now b s1 S1 HA1 Hs1 Hc1) _).
  intros r1 s2 S2 HA2 Hs2 _ Hset2.
  refine (fine_bind _ _ b s2 settled _ S2 (recover_cancelled_ok b s2 S2 HA2 Hs2 Hset2) _).
  intros r2 s3 S3 HA3 Hs3 _ Hset3.
  refine (fine_bind _ _ b s3 settled _ S3 (recover_policy_ok now b s3 S3 HA3 Hs3 Hset3) _).
  intros r3 s4 S4 HA4 Hs4 _ Hset4.
  refine (fine_bind _ _ b s4 settled _ S4 (recover_failed_ok now b s4 S4 HA4 Hs4 Hset4) _).
  intros r4 s5 S5 HA5 Hs5 _ Hset5. by apply recover_owner_ok.
Qed.
End Run.
