(* ===== verification/InfraHandlers.v ===== *)
(** * The operations of the infrastructure service

    Every operation preserves the invariant of [InfraFacts], whatever fails on the way, and
    so does a request as a whole. *)
From stdpp Require Import relations base tactics list numbers option sorting strings.
From Stdlib Require Import ZArith Lia.
From S2P Require Import Prelude Ipv4 Wire Proto Network Service InfraProto Infra InfraContract.
From S2P Require Import InfraFacts.

Section Handlers.
Context {W : Type} `{!NetworkBackend W} `{!InfrastructureBackend W} `{!InfraHost W}
  `{!JournalFormat} `{!InfraMachine W}.
Implicit Types S : InfrastructureService W.

(** An issued descriptor carries an epoch beyond all earlier ones. *)
Definition epoch_fresh (s s' : State) (body : Body) : Prop :=
  match body with
  | BIoFd _ _ e => last_io_epoch s < e /\ last_io_epoch s' = e
  | _ => True
  end.

(** Retirement alone discards the state. *)
Definition is_retire (op : Operation) : bool :=
  match op with InfraRetire _ _ => true | _ => false end.

(** Whether the operation is a retirement. *)
Context (retires : bool).

(** The state after an operation: of the same history, or a retired one. *)
Definition follows (s s' : State) : Prop :=
  keeps s s' \/ (retires = true /\ s' = State_default).

(** What an operation leaves behind. *)
Definition handled (now : Z) (b : Result IoError (list Z)) (s : State)
    (r : Result InfrastructureError Outcome) S' : Prop :=
  not_panic r /\ exists s' X, At b s' X S' /\ net_sub X (coverage s') /\ state_ok s' /\
    follows s s' /\
    match r with
    | Ok (Replies body _) => settled_live now s' /\ epoch_fresh s s' body
    | Ok (Persists next) => keeps s s' /\ state_ok next /\ keeps s next /\
        net_sub X (coverage next) /\ settled_live now next
    | Err _ => True
    end.

Lemma handled_err now b s s' X S e :
  At b s' X S -> net_sub X (coverage s') -> state_ok s' -> keeps s s' -> e <> IxPanics ->
  handled now b s (Err e) S.
Proof. intros. split; [unfold not_panic; congruence|]. exists s', X. split_and!; auto. by left. Qed.

Lemma handled_reply now b s s' X S body fd :
  At b s' X S -> net_sub X (coverage s') -> state_ok s' -> follows s s' ->
  settled_live now s' -> epoch_fresh s s' body -> handled now b s (Ok (Replies body fd)) S.
Proof. intros. split; [done|]. exists s', X. by split_and!. Qed.

Lemma handled_persists now b s s' X S next :
  At b s' X S -> net_sub X (coverage s') -> state_ok s' -> keeps s s' ->
  state_ok next -> keeps s next -> net_sub X (coverage next) -> settled_live now next ->
  handled now b s (Ok (Persists next)) S.
Proof. intros. split; [done|]. exists s', X. split_and!; auto. by left. Qed.

(** The situation in which an operation starts. *)
Definition ready (now : Z) (b : Result IoError (list Z)) (s : State) S : Prop :=
  At b s (coverage s) S /\ state_ok s /\ settled_live now s.

(** The checks of the arguments. *)
Lemma observes_live o now s :
  observes (W := W) (lift (ensure_live o now)) s (fun _ => owner_is_live o now = true).
Proof.
  intros b X S HA. apply wp_lift. unfold ensure_live, rejected. by destruct (owner_is_live o now).
Qed.

Lemma observes_same_owner r o s :
  observes (W := W) (lift (same_owner r o)) s (fun f => r = Some f /\ forward_owner f = o).
Proof.
  intros b X S HA. apply wp_lift. unfold same_owner, rejected.
  destruct r as [f|]; simpl; [|by split_and!]. destruct (bool_decide _) eqn:E; simpl; [|by split_and!].
  apply bool_decide_eq_true in E. split_and!; try done. by intros f' [= <-].
Qed.

Lemma observes_present {A} (o : option A) code s :
  observes (W := W) (lift (ok_or o (IxRejected code))) s (fun a => o = Some a).
Proof. intros b X S HA. apply wp_lift. destruct o as [a|]; simpl; split_and!; try done. by intros ? [= <-]. Qed.

(** An error that leaves the state. *)
Ltac err :=
  match goal with
  | HA : At ?b ?s _ ?S, Hs : state_ok ?s |- handled _ ?b ?s (Err _) ?S =>
      refine (handled_err _ b s s _ S _ HA _ Hs (keeps_refl s) _);
      [auto; try solve [nets]|unfold not_panic in *; congruence]
  end.
(** An acknowledgement that leaves the state. *)
Ltac ack :=
  match goal with
  | HA : At ?b ?s _ ?S, Hs : state_ok ?s, Hl : settled_live ?now ?s
    |- handled ?now ?b ?s (Ok (Replies _ _)) ?S =>
      refine (handled_reply now b s s _ S _ _ HA _ Hs (or_introl (keeps_refl s)) Hl _);
      [auto; try solve [nets]|exact I]
  end.
(** A check that keeps state and kernel; its failure is an [err]. *)
Ltac check_with L :=
  match goal with
  | HA : At ?b ?s ?X ?S |- wp _ _ ?S =>
      refine (wp_observes _ s _ b X S _ L HA _ _); rules; clear HA;
      [|intros ? ? HA ?; err]
  end.

(** The next condition of the code. *)
Ltac branch := match goal with |- wp (if ?c then _ else _) _ _ => destruct c eqn:? end.

Lemma ready_settled now b s S : ready now b s S -> settled s.
Proof. by intros (_ & _ & ? & _). Qed.

(** The retained infrastructure has an index. *)
Lemma ready_index s : state_ok s -> settled s -> spec s <> None -> ifindex s <> None.
Proof.
  intros Hs [Hc _] Hsp. destruct (so_index s Hs Hsp) as [Hi|Hi]; [|done]. by rewrite Hc in Hi.
Qed.

Lemma coverage_nothing s :
  settled s -> (forall f, forward s = Some f -> forward_phase f = Revoked) ->
  net_sub (coverage s) no_nets.
Proof.
  intros Hset Hr t p Ht. apply coverage_settled in Ht as (f & Hf & Hp & _); [|done].
  by destruct Hp; apply Hr.
Qed.

(** *** Infrastructure *)

Lemma acquire_handled now b s S request id generation epoch :
  ready now b s S -> wp (acquire_io request id generation epoch) (handled now b s) S.
Proof.
  intros (HA & Hs & Hsl). unfold acquire_io. go. check_with (observes_identity id generation s).
  intros sp S1 HA (Hsp & _ & _). go. apply wp_gets. rules. branch.
  { go. err. }
  destruct (Z.leb_spec epoch (last_io_epoch s)) as [He|He]; [go; err|]. go.
  apply wp_gets. rules. go.
  assert (Hrest : forall S2 fd, At b s (coverage s) S2 -> lifecycle_fd S2 = Some fd ->
    wp (let* fd := gets lifecycle_fd in
        let* fd := unwrap fd in
        let* descriptor := host (dup_descriptor fd) in
        let* boot := host_read current_boot_id in
        let* ticks := host_read (process_start_ticks (caller_pid request)) in
        do* persist (set_io_owner (Some (mkIoOwner (caller_instance_id request) (caller_pid request)
                       epoch boot ticks)) epoch s) in
        let* index := gets (fun s => ifindex (state s)) in
        let* index := unwrap index in
        mret (Replies (BIoFd sp index epoch) (Some descriptor))) (handled now b s) S2).
  { clear HA. intros S2 fd HA Hfd. go. apply wp_gets. rules. rewrite Hfd. go. apply wp_lift. simpl. go.
    keep_call; [|err]. go. read_host; [|err]. go. read_host; [|err]. go. store_state; [|err]. go.
    apply wp_gets. rules. rewrite (At_state _ _ _ _ HA). simpl. go. apply wp_lift.
    pose proof (ready_index s Hs (proj1 Hsl) ltac:(congruence)) as Hi.
    destruct (ifindex s) as [i|]; [|done]. simpl. go.
    match type of HA with At _ (set_io_owner ?o _ _) _ _ =>
      destruct (state_ok_io s o epoch ltac:(lia) Hs) as [Hs' Hk] end.
    refine (handled_reply now b s _ _ _ _ _ HA _ Hs' (or_introl Hk) _ _); [done|done|].
    split; [lia|done]. }
  destruct (lifecycle_fd S1) as [fd|] eqn:Hfd.
  - go. by apply (Hrest S1 fd).
  - go. keep_call; [|err].
    match goal with HA : At ?b ?s ?X ?S |- _ => refine (wp_modify_lifecycle _ b s X S _ HA _) end.
    rules. clear HA. intros S2 HA Hl. by eapply Hrest.
Qed.

Lemma release_handled now b s S request id generation epoch :
  ready now b s S -> wp (release_io request id generation epoch) (handled now b s) S.
Proof.
  intros (HA & Hs & Hsl). unfold release_io. go. check_with (observes_identity id generation s).
  intros sp S1 HA _. go. check_with (observes_administrator request s). intros _ S2 HA _. go.
  apply wp_gets. rules. destruct (_ && _); go; [|err].
  destruct (state_ok_io s None (last_io_epoch s) ltac:(lia) Hs) as [Hs' Hk].
  by refine (handled_persists now b s s _ _ _ HA _ Hs (keeps_refl s) Hs' Hk _ _).
Qed.

Lemma retire_handled now b s S request id generation :
  ready now b s S -> retires = true -> wp (infra_retire request id generation) (handled now b s) S.
Proof.
  intros (HA & Hs & Hsl) Hret. unfold infra_retire. go. check_with (observes_administrator request s).
  intros _ S1 HA _. go. check_with (observes_identity id generation s). intros sp S2 HA _. go.
  apply wp_gets. rules. branch; [go; err|]. go.
  assert (Hrest : forall S3, At b s (coverage s) S3 ->
    (forall f, forward s = Some f -> forward_phase f = Revoked) ->
    wp (do* backend retire_infrastructure in
        do* modify (set_lifecycle None) in
        do* persist State_default in
        mret (Replies BAck None)) (handled now b s) S3).
  { clear HA. intros S3 HA Hr. go. keep_call; [|err]. go. apply wp_modify. go.
    apply (At_lifecycle _ _ _ _ None) in HA. store_state; [|err]. go.
    refine (handled_reply now b s State_default _ _ _ _ HA _ state_ok_default (or_intror (conj Hret eq_refl)) _ _); [| |done].
    - intros t p Ht. by apply (coverage_nothing s (proj1 Hsl) Hr) in Ht.
    - split; [split; [done|by intros c]|by intros f]. }
  destruct (forward s) as [f|] eqn:Hf.
  - destruct (bool_decide (forward_phase f = Revoked)) eqn:Hr; simpl; [|go; err].
    apply bool_decide_eq_true in Hr. go. keep_call; [|err]. keep_call; [|err].
    apply Hrest; [done|]. by intros f0 [= <-].
  - apply wp_mret. rules. by apply Hrest.
Qed.

(** The creation that an operation completes before it replies. *)
Definition created (now : Z) (b : Result IoError (list Z)) (s : State) (X : Nets) S' : Prop :=
  exists s', At b s' X S' /\ net_sub X (coverage s') /\ state_ok s' /\ keeps s s' /\
    settled_live now s' /\ ifindex s' <> None.

Lemma creation_handled now b s s1 X S :
  At b s1 X S -> net_sub X (coverage s1) -> state_ok s1 -> keeps s s1 ->
  creation_pending s1 = true -> candidate s1 = None -> owner_live now s1 ->
  wp complete_creation (fun r S' => match r with
    | Ok _ => created now b s X S'
    | Err e => handled now b s (Err e) S'
    end) S.
Proof.
  intros HA HX Hs1 Hk Hcp Hc Hl.
  refine (wp_mono _ _ _ _ (complete_creation_ok b s1 _ S HA Hs1) _). clear HA.
  intros r S' (Hn & s' & HA & Hcase & Hok).
  assert (Hs' : state_ok s' /\ keeps s s' /\ coverage s' = coverage s1 /\ candidate s' = None /\
                forward s' = forward s1).
  { destruct Hcase as [->|(i & bt & ->)]; [done|].
    destruct (state_ok_created s1 i bt Hs1) as [Ho Hk2]. split_and!; try done; by apply (keeps_trans _ s1). }
  destruct Hs' as (Hs' & Hk' & Hcov & Hc' & Hf'). rewrite <- Hcov in HX.
  destruct r as [[]|e].
  - destruct (Hok eq_refl) as [Hc1 Hi]. specialize (Hi Hcp). exists s'.
    assert (Hsl : settled_live now s').
    { split; [split; [done|by rewrite Hc']|]. by apply (owner_live_same now s1). }
    by repeat (split; [done|]).
  - refine (handled_err now b s s' _ _ _ HA HX Hs' Hk' _). unfold not_panic in Hn. congruence.
Qed.

Lemma repair_handled now b s sp S :
  At b s no_nets S -> state_ok s -> settled s -> spec s = Some sp ->
  wp repair_infrastructure (handled now b s) S.
Proof.
  intros HA Hs Hset Hsp. unfold repair_infrastructure. go. apply wp_gets. rules.
  branch; [go; err|].
  assert (Hrest : forall s1 S1, At b s no_nets S1 -> state_ok s1 -> keeps s s1 -> spec s1 = Some sp ->
    candidate s1 = None -> owner_live now s1 ->
    wp (let* marker := new_ownership_marker in
        let* boot := host_read current_boot_id in
        do* persist (set_creation_intent (spec s1) None marker (administrator s1) None boot s1) in
        do* complete_creation in
        let* next := gets state in
        do* unwrap (ifindex next) in
        mret (Replies (BInfraStatus (spec next) (ifindex next) None) None)) (handled now b s) S1).
  { clear HA. intros s1 S1 HA Hs1 Hk Hsp1 Hc Hl. unfold new_ownership_marker. go.
    keep_call; [|err]. go. read_host; [|err]. go. rewrite Hsp1.
    match goal with |- wp (persist ?s') _ _ => set (s2 := s') end.
    destruct (state_ok_intent s1 sp None (MARKER_PREFIX ++ flat_map hex_byte a) (administrator s1)
                None a0 Hs1 (so_spec s Hs sp Hsp)) as [Hs2 Hk2].
    store_state; [|err]. go.
    refine (wp_mono _ _ _ _ (creation_handled now b s s2 _ _ HA _ Hs2 (keeps_trans _ _ _ Hk Hk2)
                               eq_refl Hc Hl) _); [done|]. clear HA.
    intros [[]|e] S2 Hr; [|exact Hr]. destruct Hr as (s' & HA & HX & Hs' & Hk' & Hsl & Hi). go.
    destruct (ifindex s') as [i|] eqn:Ei; [|done]. apply wp_lift. simpl. go.
    by refine (handled_reply now b s s' _ _ _ _ HA HX Hs' (or_introl Hk') Hsl _). }
  destruct (state_ok_no_candidate s Hs) as [Hs0 Hk0]. go. destruct (forward s) as [f|] eqn:Hf.
  - go. keep_call; [|err]. go. keep_call; [|err]. apply wp_mret. rules.
    destruct (so_forward _ Hs0 f Hf) as (_ & Hfo & _).
    destruct (revoke_ok _ f (set_forward_phase Revoked f) Hs0 Hf) as [Hs1 Hk1]; try done.
    { by apply forward_ok_revoked. }
    apply (Hrest (set_forward (Some (set_forward_phase Revoked f)) (set_forward_candidate None s)));
      try done. by intros f0 [= <-].
  - apply wp_mret. rules. apply (Hrest (set_forward_candidate None s)); try done. intros f Hf'. simpl in Hf'. congruence.
Qed.

Lemma ensure_handled now b s S request sp :
  ready now b s S -> InfraSpec_validate sp = Ok tt ->
  wp (infra_ensure request sp) (handled now b s) S.
Proof.
  intros (HA & Hs & Hsl) Hv. unfold infra_ensure. go. check_with (observes_namespace sp s).
  intros _ S1 HA _. go. destruct (spec s) as [existing|] eqn:Hsp.
  - go. check_with (observes_administrator request s). intros _ S2 HA _.
    branch; [go; err|]. go.
    refine (wp_interface_identity b s _ _ _ HA _ _ _); rules; clear HA.
    + intros S3 HA. rewrite bool_decide_eq_true_2 by done.
      by apply (repair_handled now b s existing _ HA Hs (proj1 Hsl)).
    + intros i S3 HA. rewrite bool_decide_eq_false_2 by done. unfold retained_identity. go.
      check_with (observes_identity (infra_id sp) (infra_generation sp) s). intros _ S4 HA _. go. unfold infra_status. ack.
    + intros e S3 HA. err.
  - go. refine (wp_interface_identity b s _ _ _ HA _ _ _); rules; clear HA.
    2:{ intros i S3 HA. rewrite bool_decide_eq_true_2 by done. go. err. }
    2:{ intros e S3 HA. err. }
    intros S3 HA. rewrite bool_decide_eq_false_2 by tauto. unfold new_ownership_marker. go.
    keep_call; [|err]. go. read_host; [|err]. go.
    assert (Hf : forward s = None).
    { destruct (forward s) as [f|] eqn:Hf; [|done].
      by destruct (so_forward s Hs f Hf) as [Hn _]. }
    match goal with |- wp (persist ?s') _ _ => set (s2 := s') end.
    destruct (state_ok_intent s sp (ifindex s) (MARKER_PREFIX ++ flat_map hex_byte a)
                (Some (caller_instance_id request)) (io_owner s) a0 Hs Hv) as [Hs2 Hk2].
    store_state; [|err]. go.
    assert (Hl : owner_live now s2) by (intros f Hf'; simpl in Hf'; congruence).
    refine (wp_mono _ _ _ _ (creation_handled now b s s2 _ _ HA _ Hs2 Hk2 eq_refl _ Hl) _);
      [done|by apply Hs|]. clear HA.
    intros [[]|e] S4 Hr; [|exact Hr]. destruct Hr as (s' & HA & HX & Hs' & Hk' & Hsl' & Hi). go.
    by refine (handled_reply now b s s' _ _ _ _ HA HX Hs' (or_introl Hk') Hsl' _).
Qed.

(** *** Preparation *)

Lemma settled_live_new now s o d ph :
  creation_pending s = false -> candidate s = None -> owner_is_live o now = true ->
  settled_live now (set_fencing_token (fencing_token o) (set_forward (Some (new_forward o d ph)) s)).
Proof.
  intros Hc Hn Hl. split; [split; [done|simpl; by rewrite Hn]|]. by intros f [= <-] _.
Qed.

Lemma prepare_initial_handled now b s s1 S o d :
  At b s (coverage s) S -> state_ok s -> settled s ->
  state_ok s1 -> keeps s s1 -> creation_pending s1 = creation_pending s ->
  spec s1 <> None -> candidate s1 = None ->
  ForwardOwner_validate o = Ok tt -> PrepareDeclaration_validate d = Ok tt ->
  owner_is_live o now = true -> last_fencing_token s1 <= fencing_token o ->
  (forall f, forward s1 = Some f -> forward_owner f = o) ->
  net_sub (coverage s) (steered d) ->
  wp (prepare_initial o d s1) (handled now b s) S.
Proof.
  intros HA Hs Hset Hs1 Hk1 Hcp Hsp Hn Ho Hd Hl Ht Hown Hcov. unfold prepare_initial. cbv zeta. go.
  destruct (state_ok_prepare s1 o d Preparing Hs1 Hsp Hn Ho Hd Ht Hown) as [Hs2 Hk2].
  destruct (state_ok_prepare s1 o d Prepared Hs1 Hsp Hn Ho Hd Ht Hown) as [Hs3 Hk3].
  apply (keeps_trans _ _ _ Hk1) in Hk2, Hk3.
  set (s2 := set_fencing_token _ (set_forward (Some (new_forward o d Preparing)) _)) in *.
  set (s3 := set_fencing_token _ (set_forward (Some (new_forward o d Prepared)) _)) in *.
  assert (Hc2 : net_sub (coverage s) (coverage s2)).
  { intros t p Htp. apply (coverage_active (new_forward o d Preparing) s2); [done|done|]. by apply Hcov. }
  assert (Hc3 : net_sub (coverage s) (coverage s3)).
  { intros t p Htp. apply (coverage_active (new_forward o d Prepared) s3); [done|done|]. by apply Hcov. }
  store_state; [|err]. go.
  assert (Hbad : forall e X S', At b s2 X S' -> net_sub X (coverage s) -> e <> IxPanics ->
            handled now b s (Err e) S').
  { intros e X S1 HA1 HX He. refine (handled_err now b s s2 X S1 e HA1 _ Hs2 Hk2 He).
    intros t p Htp. by apply Hc2, HX. }
  keep_call; [|by eapply Hbad]. go. narrow_call; [|by eapply Hbad]. go.
  keep_call; [|eapply Hbad; [exact HA|nets|done]]. go.
  keep_call; [|eapply Hbad; [exact HA|nets|done]]. go.
  refine (handled_persists now b s s2 _ _ s3 HA _ Hs2 Hk2 Hs3 Hk3 _ _).
  - intros t p [Htp _]. by apply Hc2.
  - intros t p [Htp _]. by apply Hc3.
  - apply settled_live_new; [|done|done]. rewrite Hcp. apply Hset.
Qed.

Lemma prepare_not_stale previous last retry o d :
  prepare_is_stale previous last retry o d = false ->
  signed_generation (forward_owner previous) <= signed_generation o /\
  (signed_generation (forward_owner previous) = signed_generation o ->
     d = forward_declaration previous) /\
  worker_epoch (forward_owner previous) <= worker_epoch o /\
  (retry = false -> fencing_token (forward_owner previous) < fencing_token o /\
                    last < fencing_token o).
Proof.
  unfold prepare_is_stale. intros Hst. apply orb_false_iff in Hst as [Hst H4].
  apply orb_false_iff in Hst as [Hst H3]. apply orb_false_iff in Hst as [H1 H2].
  apply Z.ltb_ge in H1, H3. split_and!; [done| |done|].
  - intros Heq. rewrite Heq, Z.eqb_refl in H2. simpl in H2. apply negb_false_iff in H2.
    by apply bool_decide_eq_true in H2.
  - intros ->. simpl in H4. rewrite andb_true_r in H4. apply Z.leb_gt in H4. lia.
Qed.

(** The retained record of a route transaction has no repair pending. *)
Definition no_repair (s : State) : Prop :=
  forall f, forward s = Some f -> pending_policy f = None.

Lemma replacement_candidate_ok s f o d :
  retained_ok s f -> ForwardOwner_validate o = Ok tt -> PrepareDeclaration_validate d = Ok tt ->
  domain_id (forward_owner f) = domain_id o ->
  signed_generation (forward_owner f) <= signed_generation o ->
  worker_epoch (forward_owner f) <= worker_epoch o ->
  fencing_token (forward_owner f) < fencing_token o ->
  shared_policy_differs (forward_declaration f) d = false ->
  replaceable (forward_phase f) = true ->
  candidate_ok (fencing_token o) f (new_forward o d Prepared).
Proof.
  intros Hf Ho Hd Hdom Hg Hw Ht Hsh Hr. split_and!; try done.
  - by apply forward_ok_new.
  - by left.
  - split; [constructor|]. simpl. by intros p ?%elem_of_nil.
  - unfold shared_policy_differs in Hsh. simpl. lia.
Qed.

Lemma prepare_against_handled now b s S previous o d :
  At b s (coverage s) S -> state_ok s -> settled_live now s -> no_repair s ->
  forward s = Some previous -> candidate s = None ->
  ForwardOwner_validate o = Ok tt -> PrepareDeclaration_validate d = Ok tt ->
  owner_is_live o now = true ->
  wp (prepare_against previous o d s) (handled now b s) S.
Proof.
  intros HA Hs Hsl Hnr Hf Hc Ho Hd Hl. destruct (so_forward s Hs previous Hf) as (Hspn & Hfo & Hft & Hlast).
  pose proof (Hnr previous Hf) as Hq.
  unfold prepare_against. cbv zeta. branch; [go; ack|]. branch; [go; err|].
  apply negb_false_iff, bool_decide_eq_true in Heqb1.
  set (retry := bool_decide _ && bool_decide _). branch; [go; err|]. branch; [go; err|].
  branch; [go; err|]. apply prepare_not_stale in Heqb2 as (Hg & Hgd & Hw & Htok).
  destruct retry eqn:Hretry; simpl.
  - subst retry. apply andb_true_iff in Hretry as [Hro Hrp]. apply bool_decide_eq_true in Hro, Hrp.
    assert (Hdd : d = forward_declaration previous) by (apply Hgd; congruence).
    refine (prepare_initial_handled now b s s S o d HA Hs (proj1 Hsl) Hs (keeps_refl s) eq_refl
              Hspn Hc Ho Hd Hl _ _ _).
    + rewrite Hlast by (by rewrite Hrp). rewrite Hro. lia.
    + intros f0 Hf0. congruence.
    + rewrite Hdd. intros t p Ht. apply (coverage_of s previous) in Ht; [|apply Hsl|done].
      destruct Ht as [Ht|Ht]; [done|]. unfold pending_nets in Ht. by rewrite Hq in Ht.
  - destruct (Htok eq_refl) as [Ht1 Ht2]. simpl in Heqb3. rewrite andb_true_r in Heqb3.
    apply negb_false_iff in Heqb3. go. keep_call; [|err]. go.
    destruct (state_ok_stage s previous (new_forward o d Prepared) Hs Hf Hc Hq) as [Hs' Hk]; [|done|].
    { by apply (replacement_candidate_ok s). }
    store_state; [|err]. go.
    refine (handled_reply now b s _ _ _ _ _ HA _ Hs' (or_introl Hk) _ _); [| |done].
    + intros t p. unfold coverage. simpl. rewrite Hf, Hc. intros [Ht|[]]. by left.
    + split; [split; [apply Hsl|by intros c [= <-]]|]. apply Hsl.
Qed.

Lemma prepare_handled now b s S request id generation o d :
  ready now b s S -> no_repair s ->
  ForwardOwner_validate o = Ok tt -> PrepareDeclaration_validate d = Ok tt ->
  0 <= fencing_token o ->
  wp (forward_prepare request id generation o d now) (handled now b s) S.
Proof.
  intros (HA & Hs & Hsl) Hnr Ho Hd H0. unfold forward_prepare. go.
  check_with (observes_administrator request s). intros _ S1 HA _. go.
  check_with (observes_identity id generation s). intros sp S2 HA (Hsp & _). go.
  check_with (observes_live o now s). intros _ S3 HA Hl.
  branch; [go; err|]. go. assert (Hspn : spec s <> None) by congruence.
  destruct (candidate s) as [c|] eqn:Hc.
  { branch; go; [ack|err]. }
  destruct (forward s) as [f|] eqn:Hf.
  - by apply prepare_against_handled.
  - go. keep_call; [|err]. destruct (so_none s Hs Hf) as [_ Hz].
    destruct (state_ok_sysctls s a Hs) as [Hs1 Hk1].
    apply prepare_initial_handled; try done.
    + apply Hsl.
    + simpl. by rewrite Hz.
    + simpl. congruence.
    + intros t p. unfold coverage. by rewrite Hf.
Qed.

(** *** The owner's operations *)

(** A change of the retained record, made durable at the end. *)
Lemma persists_forward now b s S f f' :
  At b s (coverage s) S -> state_ok s -> settled_live now s -> forward s = Some f ->
  forward_ok (has_candidate s) f' -> same_grant (forward_owner f) (forward_owner f') ->
  (replaceable (forward_phase f') = false -> replaceable (forward_phase f) = false) ->
  forward_phase f' <> Revoked -> forward_phase f <> Revoked ->
  owner_is_live (forward_owner f') now = true ->
  forward_declaration f' = forward_declaration f -> pending_policy f' = pending_policy f ->
  handled now b s (Ok (Persists (set_forward (Some f') s))) S.
Proof.
  intros HA Hs Hsl Hf Hfo Hg Hr Hp' Hp Hl Hd Hq.
  destruct (state_ok_forward s f f' Hs Hf Hfo Hg Hr) as [Hs' Hk]; [by rewrite Hd|].
  refine (handled_persists now b s s _ S _ HA _ Hs (keeps_refl s) Hs' Hk _ _); [done| |].
  - intros t p Ht. unfold coverage in *. rewrite Hf in Ht. simpl. unfold pending_nets in *.
    rewrite Hd, Hq. destruct Ht as [[_ Ht]|Ht]; [by left|by right].
  - split; [apply Hsl|]. by intros f0 [= <-].
Qed.

Lemma authorize_handled now b s S request o a :
  ready now b s S -> wp (forward_authorize request o a now) (handled now b s) S.
Proof.
  intros (HA & Hs & Hsl). unfold forward_authorize. go.
  check_with (observes_administrator request s). intros _ S1 HA _. go.
  check_with (observes_live o now s). intros _ S2 HA Hl. go.
  check_with (observes_present (io_owner s) "io_owner_missing" s). intros io S3 HA Hio. go.
  apply wp_gets. rules. branch; [go; err|]. cbv zeta. go.
  set (is_candidate := bool_decide _).
  check_with (observes_same_owner (if is_candidate then candidate s else forward s) o s).
  intros f S4 HA (Hf & Hfo). go. apply wp_lift.
  destruct (declaration_to_vec _) as [json|]; simpl; [|err]. branch; go; [err|].
  apply orb_false_iff in Heqb1 as [Hb _]. apply orb_false_iff in Hb as [Hb _].
  apply negb_false_iff, bool_decide_eq_true in Hb.
  destruct is_candidate.
  - destruct (so_candidate s Hs f Hf) as (f0 & Hf0 & Hc).
    destruct (state_ok_candidate s f0 f (set_authority (Some a) f) Hs Hf0 Hf Hc) as [Hs' Hk].
    refine (handled_persists now b s s _ _ _ HA _ Hs (keeps_refl s) Hs' Hk _ _); [done| |].
    + intros t p. unfold coverage. simpl. by rewrite Hf, Hf0.
    + split; [split; [apply Hsl|]|apply Hsl]. intros c [= <-]. simpl. congruence.
  - destruct (so_forward s Hs f Hf) as (_ & Hfok & _).
    apply (persists_forward now b s S4 f); try done; simpl; congruence.
Qed.

Lemma guard_handled now b s S request o :
  ready now b s S -> no_repair s -> wp (forward_guard request o now) (handled now b s) S.
Proof.
  intros (HA & Hs & Hsl) Hnr. unfold forward_guard. go.
  check_with (observes_administrator request s). intros _ S1 HA _. go.
  check_with (observes_live o now s). intros _ S2 HA Hl. go.
  check_with (observes_same_owner (forward s) o s). intros f S3 HA (Hf & Hfo).
  branch; [go; ack|]. branch; [go; err|]. go.
  apply negb_false_iff, bool_decide_eq_true in Heqb1.
  destruct (so_forward s Hs f Hf) as (_ & Hfok & _).
  destruct (state_ok_forward s f (set_forward_phase Guarded f) Hs Hf) as [Hs' Hk]; try done.
  { by apply (forward_ok_phase (has_candidate s)), Hnr. }
  store_state; [|err].
  assert (HX : net_sub (coverage s) (coverage (set_forward (Some (set_forward_phase Guarded f)) s))).
  { intros t p. unfold coverage. simpl. rewrite Hf. intros [[_ Ht]|Ht]; [by left|by right]. }
  go. keep_call; [|by refine (handled_err now b s _ _ _ _ HA HX Hs' Hk _)]. go.
  refine (handled_reply now b s _ _ _ _ _ HA HX Hs' (or_introl Hk) _ _); [|done].
  split; [apply Hsl|]. intros f0 [= <-] _. simpl. by rewrite Hfo.
Qed.

Lemma renew_handled now b s S request o :
  ready now b s S -> ForwardOwner_validate o = Ok tt ->
  wp (forward_lease_renew request o now) (handled now b s) S.
Proof.
  intros (HA & Hs & Hsl) Ho. unfold forward_lease_renew. go.
  check_with (observes_administrator request s). intros _ S1 HA _. go.
  check_with (observes_live o now s). intros _ S2 HA Hl. go.
  check_with (observes_present (forward s) "forward_missing" s). intros f S3 HA Hf.
  branch; go; [err|]. unfold renewal_is_stale in Heqb0.
  repeat (apply orb_false_iff in Heqb0 as [Heqb0 ?]). repeat match goal with
    | Hb : negb _ = false |- _ => apply negb_false_iff in Hb
    | Hb : (_ =? _) = true |- _ => apply Z.eqb_eq in Hb
    | Hb : (_ <? _) = false |- _ => apply Z.ltb_ge in Hb
    | Hb : bool_decide _ = true |- _ => apply bool_decide_eq_true in Hb
    | Hb : bool_decide _ = false |- _ => apply bool_decide_eq_false in Hb
    end.
  destruct (so_forward s Hs f Hf) as (_ & (F1 & F2 & F3 & F4 & F5 & F6) & _).
  assert (Hg : current_generation (set_forward_owner o f) = current_generation f)
    by (unfold current_generation; simpl; congruence).
  apply (persists_forward now b s S3 f); try done.
  split_and!; try done.
  - unfold metadata_valid in *. simpl. by replace (signed_generation o) with (signed_generation (forward_owner f)).
  - unfold pending_ok in *. rewrite Hg. exact F5.
Qed.

(** Withdrawn: what is steered is removed before the record is dropped. *)
Lemma revoke_current_handled now b s S o :
  ready now b s S -> wp (revoke_current o s) (handled now b s) S.
Proof.
  intros (HA & Hs & Hsl). unfold revoke_current. go.
  check_with (observes_same_owner (forward s) o s). intros f S1 HA (Hf & Hfo). cbv zeta.
  destruct (so_forward s Hs f Hf) as (_ & Hfok & _).
  set (f1 := match pending_policy f with Some q => _ | None => _ end).
  assert (Hf1 : forward_ok (has_candidate s) f1 /\ forward_owner f1 = forward_owner f /\
    forward_declaration f1 = forward_declaration f /\ forward_phase f1 = forward_phase f /\
    pending_nets f1 = pending_nets f /\ (pending_policy f = None -> f1 = f)).
  { subst f1. unfold pending_nets. destruct (pending_policy f) as [q|] eqn:Hq; [|by rewrite Hq].
    split_and!; try done. by apply forward_ok_cancel. }
  destruct Hf1 as (H1 & H2 & H3 & H4 & H5 & H6).
  set (s1 := set_forward (Some f1) s).
  destruct (state_ok_forward s f f1 Hs Hf H1) as [Hs1 Hk1]; try congruence.
  { rewrite H2. apply same_grant_refl. }
  assert (HX : net_sub (coverage s) (coverage s1)).
  { intros t p. unfold coverage. simpl. by rewrite Hf, H3, H4, H5. }
  assert (Hset1 : settled s1) by apply Hsl.
  set (f2 := set_pending_policy None _).
  destruct (state_ok_forward s1 f1 f2 Hs1 eq_refl) as [Hs2 Hk2]; try done.
  { refine (forward_ok_drop_policy (has_candidate s) _
      (set_failures _ _ None None (set_forward_phase Revoked f1)) _).
    apply forward_ok_failures; [by apply forward_ok_revoked|].
    simpl. rewrite H3. apply Hfok. }
  destruct (state_ok_no_candidate _ Hs2) as [Hs3 Hk3].
  assert (Hrest : forall S2, At b s1 (coverage s) S2 ->
    wp (do* fence_policy_intent f1 in
        mret (Persists (set_forward_candidate None (set_forward (Some f2) s1))))
      (handled now b s) S2).
  { clear HA. intros S2 HA. go.
    refine (wp_mono _ _ _ _ (fence_ok b s1 _ S2 f1 HA _) _).
    { rewrite H3, H5. apply coverage_of; [apply Hsl|done]. }
    clear HA. intros [[]|e] S3 [Hn HA]; cbn [is_ok] in HA; go.
    - refine (handled_persists now b s s1 _ S3 _ HA _ Hs1 Hk1 Hs3 _ _ _); [done| |done|].
      + apply (keeps_trans _ _ _ Hk1), (keeps_trans _ _ _ Hk2), Hk3.
      + split; [split; [apply Hsl|done]|]. by intros f0 [= <-].
    - refine (handled_err now b s s1 _ S3 e HA HX Hs1 Hk1 _). unfold not_panic in Hn. congruence. }
  destruct (bool_decide (pending_policy f <> None)) eqn:Hq.
  - apply wp_mbind. store_state; [|err]. by apply Hrest.
  - apply wp_mbind, wp_mret. rules. apply Hrest. apply bool_decide_eq_false in Hq.
    assert (Hff : f1 = f) by (apply H6; destruct (pending_policy f); [by destruct Hq|done]).
    unfold s1. rewrite Hff. destruct HA as (E1 & E2 & E3 & E4).
    assert (Hss : set_forward (Some f) s = s) by (rewrite <- Hf; by destruct s).
    by rewrite Hss.
Qed.

Lemma revoke_handled now b s S request o :
  ready now b s S -> wp (forward_revoke request o now) (handled now b s) S.
Proof.
  intros (HA & Hs & Hsl). unfold forward_revoke. go.
  check_with (observes_administrator request s). intros _ S1 HA _. go.
  destruct (owned_by o (candidate s)) as [c|] eqn:Hc; [|by apply revoke_current_handled].
  unfold owned_by in Hc. destruct (candidate s) as [c'|] eqn:Hc'; [|done].
  destruct (bool_decide _) in Hc; [|done]. injection Hc as ->.
  rewrite bool_decide_eq_false_2 by (by apply Hsl). destruct (state_ok_no_candidate s Hs) as [Hs' Hk].
  apply wp_mbind. store_state; [|err]. go.
  refine (handled_reply now b s _ _ _ _ _ HA _ Hs' (or_introl Hk) _ _); [| |done].
  - intros t p. unfold coverage. simpl. rewrite Hc'. destruct (forward s); [|done].
    intros [Ht|[Ht _]]; [by left|]. by apply (proj1 Hsl) in Ht.
  - split; [split; [apply Hsl|done]|apply Hsl].
Qed.

(** *** Failed prefixes *)

Lemma revisions_none f :
  revisions_ok f -> pending_failed_prefixes f = None -> pending_failure_revision f = None.
Proof.
  unfold revisions_ok. intros Hr Hp. rewrite Hp in Hr. by destruct (pending_failure_revision f).
Qed.

(** New failures in force, without a change of the kernel. *)
Lemma record_failures_handled now b s S put f rev target :
  At b s (coverage s) S -> state_ok s -> settled_live now s ->
  failed_strict (forward_declaration f) target -> pending_failed_prefixes f = None ->
  (put = (fun r => set_forward_candidate (Some r) s) /\ candidate s = Some f \/
   put = (fun r => set_forward (Some r) s) /\ forward s = Some f) ->
  wp (do* persist (put (set_failures rev target (pending_failed_prefixes f)
                          (pending_failure_revision f) f)) in
      mret (Replies BAck None)) (handled now b s) S.
Proof.
  intros HA Hs Hsl Ht Hpf Hput. go.
  destruct Hput as [[-> Hc]|[-> Hf]].
  - destruct (so_candidate s Hs f Hc) as (f0 & Hf0 & Hco).
    pose proof Hco as (H1 & H2 & H3 & H4 & H5 & H6 & H7 & H8 & H9).
    assert (Hr : pending_failure_revision f = None) by (apply revisions_none; [apply H1|done]).
    rewrite Hpf, Hr.
    destruct (state_ok_candidate s f0 f (set_failures rev target None None f) Hs Hf0 Hc) as [Hs' Hk].
    { split_and!; try done. apply forward_ok_failures; [done|]. by apply failed_strict_weak. }
    store_state; [|err]. go. refine (handled_reply now b s _ _ _ _ _ HA _ Hs' (or_introl Hk) _ _); [| |done].
    + intros t p. unfold coverage. simpl. by rewrite Hc, Hf0.
    + split; [split; [apply Hsl|]|apply Hsl]. intros c [= <-]. simpl. by apply (proj1 Hsl).
  - destruct (so_forward s Hs f Hf) as (_ & Hfok & _).
    assert (Hr : pending_failure_revision f = None) by (apply revisions_none; [apply Hfok|done]).
    rewrite Hpf, Hr.
    destruct (state_ok_forward s f (set_failures rev target None None f) Hs Hf) as [Hs' Hk]; try done.
    { apply forward_ok_failures; [done|]. by apply failed_strict_weak. }
    store_state; [|err]. go. refine (handled_reply now b s _ _ _ _ _ HA _ Hs' (or_introl Hk) _ _); [| |done].
    + intros t p. unfold coverage. simpl. by rewrite Hf.
    + split; [apply Hsl|]. intros f0 [= <-] Hp. simpl. by apply (proj2 Hsl).
Qed.

Lemma publish_failures_handled now b s S f rev target :
  At b s (coverage s) S -> state_ok s -> settled_live now s -> no_repair s ->
  forward s = Some f -> forward_phase f = Active ->
  failed_strict (forward_declaration f) target -> failure_revision f < rev ->
  wp (publish_failures (fun r => set_forward (Some r) s) f rev target) (handled now b s) S.
Proof.
  intros HA Hs Hsl Hnr Hf Hp Ht Hrev. unfold publish_failures. cbv zeta. go.
  destruct (so_forward s Hs f Hf) as (_ & Hfok & _).
  set (f1 := set_failures _ _ (Some target) (Some rev) f). set (s1 := set_forward (Some f1) s).
  destruct (state_ok_forward s f f1 Hs Hf) as [Hs1 Hk1]; try done.
  { apply forward_ok_publishing; try done. by apply Hnr. }
  store_state; [|err]. go.
  assert (HX : net_sub (coverage s) (coverage s1)).
  { intros t p. unfold coverage. simpl. by rewrite Hf. }
  assert (HY : net_sub (steered (forward_declaration f)) (coverage s1)).
  { apply (coverage_active f1); [done|]. simpl. congruence. }
  change_call; [|refine (handled_err now b s s1 _ _ _ HA _ Hs1 Hk1 _); [nets|done]].
  go. apply wp_lift. simpl. go.
  destruct (state_ok_forward s1 f1 (set_failures rev target None None f1) Hs1 eq_refl) as [Hs2 Hk2]; try done.
  { apply forward_ok_failures; [|by apply failed_strict_weak].
    by destruct (so_forward s1 Hs1 f1 eq_refl) as (_ & ? & _). }
  store_state; [|refine (handled_err now b s s1 _ _ _ HA _ Hs1 Hk1 _); [nets|done]]. go.
  refine (handled_reply now b s _ _ _ _ _ HA _ Hs2 (or_introl (keeps_trans _ _ _ Hk1 Hk2)) _ _); [| |done].
  - assert (HZ : net_sub (coverage s1) (coverage (set_forward (Some (set_failures rev target None None f1)) s1)))
      by (intros t p Htp; exact Htp). nets.
  - split; [apply Hsl|]. intros f0 [= <-] Hph. simpl. by apply (proj2 Hsl).
Qed.

Lemma failed_handled now b s S request o rev failed :
  ready now b s S -> no_repair s ->
  wp (forward_failed request o rev failed now) (handled now b s) S.
Proof.
  intros (HA & Hs & Hsl) Hnr. unfold forward_failed. go.
  check_with (observes_administrator request s). intros _ S1 HA _. go.
  check_with (observes_live o now s). intros _ S2 HA Hl. go.
  check_with (observes_present (spec s) "infra_missing" s). intros sp S3 HA Hsp. go.
  check_with (observes_identity (infra_id sp) (infra_generation sp) s). intros _ S4 HA _. cbv zeta.
  set (is_candidate := bool_decide _). go.
  check_with (observes_same_owner (if is_candidate then candidate s else forward s) o s).
  intros f S5 HA (Hf & Hfo). go. apply wp_lift.
  destruct (validate_failed_prefixes _ failed) as [[]|e] eqn:Hv.
  2:{ assert (e <> IxPanics) by (unfold validate_failed_prefixes in Hv; destruct (failed_prefixes_unique _ _ _); congruence). err. }
  apply validate_failed_iff, failed_strict_sorted in Hv. set (target := merge_sort _ _) in *.
  branch; [go; err|]. branch; [go; err|]. apply bool_decide_eq_false in Heqb1.
  assert (Hpf : pending_failed_prefixes f = None)
    by (destruct (pending_failed_prefixes f); [by destruct Heqb1|done]).
  branch; [go; ack|].
  assert (Hrecord : wp (do* persist (if is_candidate
        then set_forward_candidate (Some (set_failures rev target (pending_failed_prefixes f)
               (pending_failure_revision f) f)) s
        else set_forward (Some (set_failures rev target (pending_failed_prefixes f)
               (pending_failure_revision f) f)) s) in
      mret (Replies BAck None)) (handled now b s) S5).
  { destruct is_candidate.
    - apply (record_failures_handled now b s S5 (fun r => set_forward_candidate (Some r) s) f); auto.
    - apply (record_failures_handled now b s S5 (fun r => set_forward (Some r) s) f); auto. }
  branch; [exact Hrecord|]. branch; [go; err|]. branch; [exact Hrecord|].
  apply negb_false_iff, bool_decide_eq_true in Heqb4. clearbody is_candidate. destruct is_candidate.
  { destruct (so_candidate s Hs f Hf) as (_ & _ & _ & [Hp|Hp] & _); congruence. }
  assert (Hr : pending_failure_revision f = None).
  { destruct (so_forward s Hs f Hf) as (_ & Hfok & _). apply revisions_none; [apply Hfok|done]. }
  rewrite Hr in *. simpl in *. apply publish_failures_handled; try done.
  apply orb_false_iff in Heqb0 as [Hlt _]. apply Z.ltb_ge in Hlt. apply Z.eqb_neq in Heqb2. lia.
Qed.

(** *** Policy updates *)

Lemma policy_not_stale f rev generation hash d :
  policy_is_stale f rev generation hash d = false ->
  policy_revision f <= rev /\ current_generation f <= generation.
Proof.
  unfold policy_is_stale. intros Hst. apply orb_false_iff in Hst as [Hst _].
  apply orb_false_iff in Hst as [H1 H2]. apply Z.ltb_ge in H1, H2. done.
Qed.

Lemma policy_handled now b s S request o rev generation hash d :
  ready now b s S -> valid_policy_hash hash = true -> PrepareDeclaration_validate d = Ok tt ->
  wp (forward_policy_update request o rev generation hash d now) (handled now b s) S.
Proof.
  intros (HA & Hs & Hsl) Hh Hd. unfold forward_policy_update. go.
  check_with (observes_administrator request s). intros _ S1 HA _. go.
  check_with (observes_live o now s). intros _ S2 HA Hl. go.
  check_with (observes_present (spec s) "infra_missing" s). intros sp S3 HA Hsp. go.
  check_with (observes_identity (infra_id sp) (infra_generation sp) s). intros _ S4 HA _.
  branch; [go; err|]. go. apply bool_decide_eq_false in Heqb0.
  assert (Hc : candidate s = None) by (destruct (candidate s); [by destruct Heqb0|done]).
  check_with (observes_same_owner (forward s) o s). intros f S5 HA (Hf & Hfo).
  branch; [go; err|]. apply negb_false_iff, bool_decide_eq_true in Heqb1.
  branch; [go; err|]. apply bool_decide_eq_false in Heqb2.
  assert (Hpf : pending_failed_prefixes f = None)
    by (destruct (pending_failed_prefixes f); [by destruct Heqb2|done]).
  branch; [go; err|]. apply bool_decide_eq_false in Heqb3.
  assert (Hq : pending_policy f = None)
    by (destruct (pending_policy f); [by destruct Heqb3|done]).
  go. apply wp_lift. destruct (validate_live_policy_identity _ d) as [[]|e] eqn:Hv.
  2:{ assert (e <> IxPanics) by (unfold validate_live_policy_identity, rejected in Hv; destruct (_ || _); congruence). err. }
  branch; [go; err|]. apply policy_not_stale in Heqb4 as [Hr Hg].
  branch; [go; ack|]. apply Z.eqb_neq in Heqb4.
  destruct (so_forward s Hs f Hf) as (_ & Hfok & _).
  pose proof (identity_same _ _ Hv) as (Htab & _). branch.
  - apply bool_decide_eq_true in Heqb5. go.
    destruct (state_ok_forward s f (set_policy d rev generation hash (forward_failed_prefixes f) None f)
                Hs Hf) as [Hs' Hk]; try done.
    { apply forward_ok_policy; try done; [|lia]. rewrite <- Heqb5. apply Hfok. }
    store_state; [|err]. go. refine (handled_reply now b s _ _ _ _ _ HA _ Hs' (or_introl Hk) _ _); [| |done].
    + intros t p. unfold coverage. simpl. rewrite Hf, Hc. unfold pending_nets. rewrite Hq, Heqb5. simpl. tauto.
    + split; [apply Hsl|]. intros f0 [= <-] Hp. simpl. by apply (proj2 Hsl).
  - go. keep_call; [|err]. go.
    set (q := mkPendingPolicy false rev generation hash d).
    set (f1 := set_pending_policy (Some q) f). set (s1 := set_forward (Some f1) s).
    destruct (state_ok_forward s f f1 Hs Hf) as [Hs1 Hk1]; try done.
    { destruct Hfok as (F1 & F2 & F3 & F4 & F5 & F6). split_and!; try done.
      unfold pending_ok. simpl. unfold has_candidate. rewrite Hc. split_and!; try done; [lia|by left]. }
    store_state; [|err]. go.
    assert (HX : net_sub (coverage s) (coverage s1)).
    { intros t p. unfold coverage. simpl. rewrite Hf, Hc. unfold pending_nets. rewrite Hq. simpl. tauto. }
    refine (wp_mono _ _ _ _ (reconcile_live_ok now b s1 _ _ f1 HA Hs1 eq_refl HX _) _); [apply Hsl|].
    clear HA. intros [[]|e] S8 [Hn Hpub]; cbn [is_ok] in Hpub; go.
    + destruct Hpub as (q' & [= <-] & Hp1 & _ & _ & HA).
      destruct (published_ok s1 f1 q Hs1 eq_refl eq_refl Hpf) as [Hs2 Hk2].
      refine (handled_reply now b s _ _ _ _ _ HA _ Hs2 (or_introl (keeps_trans _ _ _ Hk1 Hk2)) _ _); [| |done].
      * apply (coverage_active (published f1 q)); [done|]. simpl in *. congruence.
      * split; [apply Hsl|]. intros f0 [= <-] Hp. simpl. by apply (proj2 Hsl).
    + refine (handled_err now b s s1 _ _ _ Hpub _ Hs1 Hk1 _); [done|]. unfold not_panic in Hn. congruence.
Qed.

(** *** Commit *)

Lemma fine_handled_err {A} now b s s1 (P : State -> Prop) e S :
  fine b s1 P (Err e : Result InfrastructureError A) S -> keeps s s1 -> e <> IxPanics ->
  handled now b s (Err e) S.
Proof.
  intros (_ & s' & HA & Hs' & Hk' & _) Hk He.
  refine (handled_err now b s s' _ S e HA _ Hs' _ He); [done|]. by apply (keeps_trans _ s1).
Qed.

(** During a cut-over, a failure undoes it, or leaves it to the recovery. *)
Lemma roll_back_handled now b s s2 S error previous c c' :
  At b s2 (both (forward_declaration previous) (forward_declaration c)) S ->
  state_ok s2 -> keeps s s2 -> forward s2 = Some previous -> candidate s2 = Some c ->
  forward_phase c = Preparing -> forward_declaration c' = forward_declaration c ->
  error <> IxPanics ->
  wp (roll_back_after error previous c' now) (handled now b s) S.
Proof.
  intros HA Hs2 Hk Hf Hc Hp Hd He. unfold roll_back_after. go.
  destruct (so_candidate s2 Hs2 c Hc) as (f & Hf' & Hco). rewrite Hf in Hf'. injection Hf' as <-.
  destruct Hco as (_ & _ & _ & _ & _ & Ht & _). rewrite <- Hd in HA, Ht.
  refine (wp_mono _ _ _ _ (rollback_ok now b s2 _ S previous c' HA Ht _) _); [done|]. clear HA.
  intros r S' [Hn HR]. destruct r as [[]|e]; go.
  - refine (fine_handled_err (A := unit) now b s s2 (fun _ => True) error S' _ Hk He).
    refine (rolled_back_fine now b s2 previous c S' _ _ Hs2 Hf Hc _ HR _); [|done].
    unfold not_panic. congruence.
  - refine (handled_err now b s s2 _ S' _ HR _ Hs2 Hk _); [|done].
    rewrite Hd. by apply coverage_cutover.
Qed.

Lemma commit_replacement_handled now b s S c :
  ready now b s S -> candidate s = Some c -> owner_is_live (forward_owner c) now = true ->
  wp (commit_replacement_of c s now) (handled now b s) S.
Proof.
  intros (HA & Hs & Hsl) Hc Hl. destruct (so_candidate s Hs c Hc) as (f & Hf & Hco).
  pose proof Hco as (C1 & C2 & C3 & C4 & C5 & C6 & C7 & C8 & C9).
  unfold commit_replacement_of. go. apply wp_lift. rewrite Hf. cbn [ok_or]. cbv zeta. go.
  keep_call; [|err].
  pose proof (coverage_both s f c Hs Hf Hc) as Hboth.
  destruct (state_ok_commit s f c Hs Hf Hc) as [Hs3 Hk3].
  set (preparing := set_forward_phase Preparing c) in *.
  set (s2 := set_forward_candidate (Some preparing) s) in *.
  replace (set_forward_candidate None (set_forward (Some (set_forward_phase Active c)) s2))
    with (set_forward_candidate None (set_forward (Some (set_forward_phase Active c)) s)) by done.
  set (s3 := set_forward_candidate None _) in *.
  assert (Hlive3 : settled_live now s3).
  { split; [split; [apply Hsl|done]|]. by intros f0 [= <-]. }
  assert (Hcov3 : net_sub (steered (forward_declaration c)) (coverage s3))
    by by apply (coverage_active (set_forward_phase Active c)).
  destruct (same_policy f c) eqn:Hsame.
  - unfold same_policy in Hsame. repeat (apply andb_true_iff in Hsame as [Hsame ?]).
    match goal with Hd : bool_decide (forward_declaration _ = _) = true |- _ =>
      apply bool_decide_eq_true in Hd; rename Hd into Hdd end.
    go. store_state; [|err]. go.
    refine (handled_reply now b s s3 _ _ _ _ HA _ Hs3 (or_introl Hk3) Hlive3 _); [|done].
    rewrite <- Hdd in Hboth. unfold both in Hboth. nets.
  - go. destruct (state_ok_candidate s f c preparing Hs Hf Hc) as [Hs2 Hk2].
    { split_and!; try done; [|by right]. by apply (forward_ok_phase true). }
    store_state; [|err]. go. apply (At_weaken _ _ _ _ _ HA) in Hboth as HA2. clear HA.
    refine (wp_mono _ _ _ _ (install_ok b s2 _ _ f preparing _ HA2 C6 _) _); [done|]. clear HA2.
    intros r S2 [Hn Hi]. destruct r as [[]|e]; cbn [is_ok] in Hi.
    + go. rename Hi into HA. store_state.
      * go. by refine (handled_reply now b s s3 _ _ _ _ HA Hcov3 Hs3 (or_introl Hk3) Hlive3 _).
      * apply (roll_back_handled now b s s2 _ _ f preparing); try done.
        refine (At_weaken _ _ _ _ _ HA _). unfold both. nets.
    + apply (roll_back_handled now b s s2 _ _ f preparing); try done. unfold not_panic in Hn. congruence.
Qed.

Lemma commit_current_handled now b s S o :
  ready now b s S -> no_repair s -> owner_is_live o now = true ->
  wp (commit_current o s) (handled now b s) S.
Proof.
  intros (HA & Hs & Hsl) Hnr Hl. unfold commit_current. go.
  check_with (observes_same_owner (forward s) o s). intros f S1 HA (Hf & Hfo).
  branch; [go; ack|]. branch; [go; err|]. apply negb_false_iff, bool_decide_eq_true in Heqb1. go.
  assert (HY : net_sub (steered (forward_declaration f)) (coverage s)).
  { apply (coverage_active f); [done|]. congruence. }
  destruct (so_forward s Hs f Hf) as (_ & Hfok & _).
  change_call; go.
  - assert (HA' : At b s (coverage s) S') by (refine (At_weaken _ _ _ _ _ HA _); nets).
    apply (persists_forward now b s S' f); try done; try (simpl; congruence).
    by apply (forward_ok_phase (has_candidate s)), Hnr.
  - assert (HA' : At b s (coverage s) S') by (refine (At_weaken _ _ _ _ _ HA _); nets). clear HA.
    keep_call; [|err]. go. err.
Qed.

Lemma commit_handled now b s S request o authenticated :
  ready now b s S -> no_repair s ->
  wp (forward_commit request o authenticated now) (handled now b s) S.
Proof.
  intros (HA & Hs & Hsl) Hnr. unfold forward_commit. go.
  check_with (observes_administrator request s). intros _ S1 HA _. go.
  check_with (observes_live o now s). intros _ S2 HA Hl. go.
  check_with (observes_present (spec s) "infra_missing" s). intros sp S3 HA Hsp. go.
  check_with (observes_identity (infra_id sp) (infra_generation sp) s). intros _ S4 HA _. cbv zeta.
  branch; [go; err|]. destruct (owned_by o (candidate s)) as [c|] eqn:Hc.
  - unfold owned_by in Hc. destruct (candidate s) as [c'|] eqn:Hc'; [|done].
    destruct (bool_decide _) eqn:Ho in Hc; [|done]. injection Hc as ->.
    apply bool_decide_eq_true in Ho. apply commit_replacement_handled; [done|done|congruence].
  - by apply commit_current_handled.
Qed.

(** *** The dispatcher *)

(** Tokens are unsigned. *)
Definition typed_operation (op : Operation) : Prop :=
  match op with ForwardPrepare _ _ o _ => 0 <= fencing_token o | _ => True end.

(** An operation as the dispatcher receives it. *)
Definition dispatched (op : Operation) : Prop :=
  request_facts op /\ typed_operation op /\ is_capabilities op = false /\
  (forall o r, op <> ForwardCommitAuthorized o r).

Lemma operation_handled now b s S request op authenticated :
  ready now b s S -> dispatched op -> (is_route_transaction op = true -> no_repair s) ->
  (is_retire op = true -> retires = true) ->
  wp (handle_operation request op authenticated now) (handled now b s) S.
Proof.
  intros Hr (Hfacts & Ht & Hcap & Hauth) Hnr Hret. pose proof Hr as (HA & Hs & Hsl).
  destruct op; simpl in Hfacts, Ht, Hnr; unfold handle_operation; try done.
  - go. err.
  - by apply ensure_handled.
  - go. unfold infra_status. ack.
  - by apply acquire_handled.
  - by apply release_handled.
  - by apply retire_handled; auto.
  - destruct Hfacts. by apply prepare_handled; auto.
  - by apply commit_handled; auto.
  - by apply authorize_handled.
  - by edestruct Hauth.
  - by apply revoke_handled.
  - by apply guard_handled; auto.
  - by apply renew_handled.
  - by apply failed_handled; auto.
  - destruct Hfacts as (_ & Hh & Hd). by apply policy_handled.
  - go. unfold forward_status. ack.
Qed.

(** The commit of an authorised receipt is a commit. *)
Lemma observes_authenticate request now s :
  request_facts (infra_operation request) -> typed_operation (infra_operation request) ->
  is_capabilities (infra_operation request) = false ->
  observes (authenticate_commit request now) s (fun oa => dispatched oa.1 /\
    (is_retire oa.1 = true -> is_retire (infra_operation request) = true)).
Proof.
  intros Hf Ht Hcap b X S HA. unfold authenticate_commit.
  destruct (infra_operation request) eqn:Hop;
    try (go; split_and!; try done; intros oa [= <-]; split_and!; (done || congruence)).
  go. refine (wp_observes _ s _ b X S _ (observes_administrator request s) HA _ _); rules; clear HA;
    [|intros; go; fin]. intros _ S1 HA _. go.
  refine (wp_observes _ s _ b X S1 _ (observes_present (record_of owner s) "forward_authority_missing" s) HA _ _);
    rules; clear HA; [|intros; go; fin]. intros f S2 HA _. go.
  refine (wp_observes _ s _ b X S2 _ (observes_present (io_owner s) "io_owner_missing" s) HA _ _);
    rules; clear HA; [|intros; go; fin]. intros io S3 HA _. go. apply wp_gets. rules. cbv zeta.
  branch; [go; by split_and!|]. go. read_host; [|by split_and!]. branch; go; [by split_and!|].
  split_and!; try done. intros oa [= <-]. by split_and!.
Qed.

Lemma observes_repair op s :
  observes (W := W) (refuse_during_repair op) s (fun _ => is_route_transaction op = true -> no_repair s).
Proof.
  intros b X S HA. unfold refuse_during_repair. go. unfold no_repair.
  destruct (forward s) as [f|] eqn:Hf; [|go; by split_and!].
  branch; [go; by split_and!|]. branch; go; split_and!; try done.
  intros _ _ Hrt f0 [= <-]. rewrite Hrt, andb_true_r in Heqb1. apply bool_decide_eq_false in Heqb1.
  destruct (pending_policy f); [by destruct Heqb1|done].
Qed.

(** What a request leaves behind: a state of the same history that covers the kernel and,
    when the reply is positive and the request not a mere probe, has a live owner and no interrupted work. *)
Definition processed (probe : bool) (now : Z) (b : Result IoError (list Z)) (s : State)
    (r : Result InfrastructureError (Body * option Z)) S' : Prop :=
  not_panic r /\ exists s', At b s' (coverage s') S' /\ state_ok s' /\
    follows s s' /\
    forall body fd, r = Ok (body, fd) -> probe = true \/
      (settled_live now s' /\ epoch_fresh s s' body).

(** A change that could not be stored is withdrawn from the kernel, or stays guarded. *)
Lemma finish_processed now b s o S :
  handled now b s (Ok o) S -> wp (finish o) (processed false now b s) S.
Proof.
  intros (_ & s' & X & HA & HX & Hs & Hk & Ho). destruct o as [body fd|next]; simpl.
  - go. split; [done|]. exists s'. split_and!; [by apply (At_weaken _ _ X)|done|done|].
    intros body' fd' [= -> ->]. by right.
  - destruct Ho as (Hk' & Hn & Hkn & HXn & Hsl). go. store_state.
    + go. split; [done|]. exists next. split_and!; [by apply (At_weaken _ _ X)|done|by left|].
      intros body fd [= <- <-]. by right.
    + go.
      assert (Hbad : forall Y S1, At b s' Y S1 -> net_sub Y X ->
        processed false now b s (Err (IxJournal IoFailed)) S1).
      { clear HA. intros Y S1 HA HY. split; [done|]. exists s'. split_and!; [|done|done|done].
        refine (At_weaken _ _ _ _ _ HA _). nets. }
      destruct (forward s') as [f|]; [|go; by eapply Hbad].
      branch; go; keep_call; go; by eapply Hbad.
Qed.

Lemma request_processed now b s S request peer :
  At b s (coverage s) S -> state_ok s -> typed_operation (infra_operation request) ->
  (is_retire (infra_operation request) = true -> retires = true) ->
  wp (infra_process request peer now)
    (processed (is_capabilities (infra_operation request)) now b s) S.
Proof.
  intros HA Hs Ht Hret. unfold infra_process. go.
  assert (Hstay : forall S1 e, At b s (coverage s) S1 -> e <> IxPanics ->
            processed (is_capabilities (infra_operation request)) now b s (Err e) S1).
  { intros S1 e HA1 He. split; [unfold not_panic; congruence|]. exists s. split_and!; [done|done| |done].
    left. apply keeps_refl. }
  apply wp_lift. destruct (Request_validate request) as [[]|e] eqn:Hv; simpl; [|by apply Hstay].
  go. apply wp_gets. rules. branch; [go; by apply Hstay|].
  destruct (is_capabilities (infra_operation request)) eqn:Hcap.
  { clear Hstay. go. split; [done|]. exists s. split_and!; [done|done|left; apply keeps_refl|].
    intros body fd [= <- <-]. by left. }
  go. refine (wp_mono _ _ _ _ (recover_expired_ok now b s S HA Hs) _). clear HA.
  intros [r|e] S1 (Hn & s1 & HA & Hs1 & Hk1 & Hsl).
  2:{ split; [by apply (not_panic_err e Hn)|]. exists s1. split_and!; [done|done|by left|done]. }
  specialize (Hsl eq_refl). clear Hstay. go.
  assert (Hlater : forall r S', processed false now b s1 r S' -> processed false now b s r S').
  { intros r' S' (Hn' & s' & HA' & Hs' & Hk' & Hok). split; [done|]. exists s'. split_and!; [done|done| |].
    - destruct Hk' as [Hk'|Hk']; [left; by apply (keeps_trans _ s1)|by right].
    - intros body fd Hr. destruct (Hok body fd Hr) as [Hc|[Hs2 He]]; [by left|right]. split; [done|].
      destruct body; simpl in *; try done. destruct Hk1 as (_ & Hio & _). lia. }
  assert (Hstay : forall S1 e, At b s1 (coverage s1) S1 -> e <> IxPanics ->
            processed false now b s (Err e) S1).
  { intros S2 e HA1 He. split; [unfold not_panic; congruence|]. exists s1. by split_and!; [| |left|]. }
  refine (wp_observes _ s1 _ b _ S1 _
            (observes_authenticate request now s1 (validated_request request Hv) Ht Hcap) HA _ _);
    rules; clear HA; [|intros; by apply Hstay].
  intros [op authenticated] S2 HA [Hd Hret']. go.
  refine (wp_observes _ s1 _ b _ S2 _ (observes_repair op s1) HA _ _);
    rules; clear HA; [|intros; by apply Hstay].
  intros _ S3 HA Hnr. go.
  refine (wp_mono _ _ _ _ (operation_handled now b s1 S3 request op authenticated _ Hd Hnr _) _); [done|auto|].
  intros [o|e] S4 Hh.
  - refine (wp_mono _ _ _ _ (finish_processed now b s1 o S4 Hh) _). apply Hlater.
  - destruct Hh as (Hn' & s' & X & HA' & HX & Hs' & Hk' & _). apply Hlater.
    split; [by apply (not_panic_err e Hn')|]. exists s'. split_and!; try done. by apply (At_weaken _ _ X).
Qed.
End Handlers.
