(* ===== verification/InfraHistory.v ===== *)
(** * Histories of the infrastructure service

    A life of the service: requests and recovery sweeps in any order, changes of the
    machine by others, crashes and restarts. A crash in the middle of an operation is a
    machine on which every later call fails, followed by a restart; one between the rename of a
    store and the sync of the directory leaves the file as one before the rename or after the
    sync does. A restart presumes that the last store which replaced the journal did not report
    an error; [InfraScenarios.late_store_strands_routes] shows what a restart after such an
    error can do. *)
From stdpp Require Import base tactics list numbers option sorting strings.
From Stdlib Require Import ZArith Lia.
From S2P Require Import Prelude Ipv4 Wire Proto Network Service InfraProto Infra InfraContract.
From S2P Require Import InfraFacts InfraHandlers.

Section Histories.
Context {W : Type} `{!NetworkBackend W} `{!InfrastructureBackend W} `{!InfraHost W}
  `{!JournalFormat} `{!InfraMachine W}.
Implicit Types S : InfrastructureService W.

(** The machine [w'] comes after [w]: the journal file is kept and no route is added. *)
Definition machine_after (w w' : W) : Prop :=
  file w' = file w /\ unsynced w' = unsynced w /\ net_sub (steers w') (steers w).

Inductive life : InfrastructureService W -> Prop :=
| life_start uid gid w S :
    file w = None -> net_sub (steers w) no_nets ->
    InfrastructureService_new uid gid w = Ok S -> life S
| life_request S request peer now :
    life S -> typed_operation (infra_operation request) ->
    life (infra_process request peer now S).2
| life_sweep S now : life S -> life (recover_expired now S).2
| life_machine S w : life S -> machine_after (infra_world S) w -> life (set_world w S)
| life_restart S uid gid w S' :
    life S -> unsynced (infra_world S) = false -> machine_after (infra_world S) w ->
    InfrastructureService_new uid gid w = Ok S' -> life S'.

(** ** The invariant *)

Definition sound S : Prop :=
  let s := state S in
  At (current_boot_id (infra_world S)) s (coverage s) S /\ state_ok s.

Lemma sound_at b s S : At b s (coverage s) S -> state_ok s -> sound S.
Proof.
  intros (E & Hj & Hb & HX) Hs. unfold sound. rewrite E. by split_and!.
Qed.

Lemma sound_machine S w : sound S -> machine_after (infra_world S) w -> sound (set_world w S).
Proof.
  intros [(_ & Hj & _ & HX) Hs] (Hf & Hu & Hr). split; [|exact Hs]. split_and!; try done.
  - by apply (durable_kept (infra_world S)).
  - intros t p Ht. by apply HX, Hr.
Qed.

Lemma sound_sweep S now :
  sound S -> let '(r, S') := recover_expired now S in
    sound S' /\ not_panic r /\ keeps (state S) (state S') /\
    (is_ok r = true -> settled_live now (state S')).
Proof.
  intros [HA Hs]. pose proof (recover_expired_ok now _ _ S HA Hs) as Hr. unfold wp in Hr.
  destruct (recover_expired now S) as [r S']. simpl in Hr.
  destruct Hr as (Hn & s' & HA' & Hs' & Hk & Hok). pose proof (At_state _ _ _ _ HA') as E.
  split; [by apply (sound_at (current_boot_id (infra_world S)) s')|]. rewrite E. by split_and!.
Qed.

Lemma sound_request S request peer now :
  sound S -> typed_operation (infra_operation request) ->
  let '(r, S') := infra_process request peer now S in
    sound S' /\ not_panic r /\ follows (is_retire (infra_operation request)) (state S) (state S') /\
    forall body fd, r = Ok (body, fd) -> is_capabilities (infra_operation request) = true \/
      (settled_live now (state S') /\ epoch_fresh (state S) (state S') body).
Proof.
  intros [HA Hs] Ht. pose proof (request_processed _ now _ _ S request peer HA Hs Ht id) as Hr. unfold wp in Hr.
  destruct (infra_process request peer now S) as [r S']. simpl in Hr.
  destruct Hr as (Hn & s' & HA' & Hs' & Hk & Hok). pose proof (At_state _ _ _ _ HA') as E.
  split; [by apply (sound_at (current_boot_id (infra_world S)) s')|]. rewrite E. by split_and!.
Qed.

Context `{!JournalFormatLaws}.

(** What a service starts from. *)
Lemma loaded_state file s :
  load_journal file = Ok s ->
  match file with
  | None => s = State_default
  | Some bytes => forall s0, journal_bytes s0 = Ok bytes -> s = s0
  end.
Proof.
  destruct file as [bytes|]; simpl; [|by intros [= <-]]. intros Hl s0 Hb.
  unfold journal_bytes in Hb. apply result_bind_Ok in Hb as (hash & Hhash & Hb).
  apply result_bind_Ok in Hb as (bytes' & Hbytes & Hb). apply result_bind_Ok in Hb as ([] & _ & Hb).
  injection Hb as ->. unfold or_failed, ok_or in Hbytes.
  destruct (envelope_to_vec _) as [bytes'|] eqn:He; [|done]. injection Hbytes as ->.
  apply envelope_roundtrip in He. rewrite He in Hl.
  apply result_bind_Ok in Hl as ([] & _ & Hl). simpl in Hl.
  apply result_bind_Ok in Hl as (hash' & _ & Hl). apply result_bind_Ok in Hl as ([] & _ & Hl).
  apply result_bind_Ok in Hl as ([] & _ & Hl). by injection Hl as <-.
Qed.

Lemma new_loads uid gid w S :
  InfrastructureService_new uid gid w = Ok S ->
  infra_world S = w /\ load_journal (file w) = Ok (state S).
Proof.
  unfold InfrastructureService_new. intros Hn.
  apply result_bind_Ok in Hn as (o & Ho & Hn). apply result_bind_Ok in Hn as (s & Hs & Hn).
  injection Hn as <-. split; [done|]. simpl.
  destruct (read_journal w) as [o'|] eqn:Hr; [|done]. injection Ho as ->.
  apply read_journal_spec in Hr as ->. by destruct (load_journal _) as [s'|]; [injection Hs as ->|].
Qed.

Lemma sound_start uid gid w S :
  file w = None -> net_sub (steers w) no_nets ->
  InfrastructureService_new uid gid w = Ok S -> sound S.
Proof.
  intros Hf Hst Hn. apply new_loads in Hn as [Hw Hl]. apply loaded_state in Hl. rewrite Hf in Hl.
  unfold sound. cbv zeta. rewrite Hl. split; [|apply state_ok_default].
  unfold At. rewrite Hw. split_and!; [done|by intros _; unfold journal_holds; rewrite Hf|done|].
  intros t p Ht. by apply Hst in Ht.
Qed.

Lemma sound_restart S uid gid w S' :
  sound S -> unsynced (infra_world S) = false -> machine_after (infra_world S) w ->
  InfrastructureService_new uid gid w = Ok S' -> sound S' /\ state S' = state S.
Proof.
  intros [(_ & Hj & _ & HX) Hs] Hd (Hf & Hu & Hr) Hn. specialize (Hj Hd). apply new_loads in Hn as [Hw Hl]. apply loaded_state in Hl.
  unfold journal_holds in Hj. rewrite Hf in Hl.
  assert (E : state S' = state S) by (destruct (file (infra_world S)); [by apply Hl|congruence]).
  split; [|done]. unfold sound. cbv zeta. rewrite E. split; [|done].
  unfold At. rewrite Hw. split_and!; [done| |done|].
  - intros _. unfold journal_holds. by rewrite Hf.
  - intros t p Ht. by apply HX, Hr.
Qed.

Lemma life_sound S : life S -> sound S.
Proof.
  induction 1 as [uid gid w S Hf Hst Hn|S request peer now _ IH Ht|S now _ IH|S w _ IH Hw
                 |S uid gid w S' _ IH Hd Hw Hn].
  - by apply (sound_start uid gid w).
  - pose proof (sound_request S request peer now IH Ht) as Hr.
    destruct (infra_process request peer now S). apply Hr.
  - pose proof (sound_sweep S now IH) as Hr. destruct (recover_expired now S). apply Hr.
  - by apply sound_machine.
  - by apply (sound_restart S uid gid w).
Qed.

(** ** The theorems *)

(** The service answered a request other than [Capabilities] without an error, or finished a
    recovery sweep. *)
Inductive served (now : Z) S : InfrastructureService W -> Prop :=
| served_request request peer body fd S' :
    typed_operation (infra_operation request) -> is_capabilities (infra_operation request) = false ->
    infra_process request peer now S = (Ok (body, fd), S') -> served now S S'
| served_sweep r S' : recover_expired now S = (Ok r, S') -> served now S S'.


Lemma served_settled now S S' :
  life S -> served now S S' -> sound S' /\ settled_live now (state S').
Proof.
  intros HS [request peer body fd S1 Ht Hc Hr|r S1 Hr]; apply life_sound in HS.
  - pose proof (sound_request S request peer now HS Ht) as Hp. rewrite Hr in Hp.
    destruct Hp as (Hs & _ & _ & Hok). split; [done|].
    destruct (Hok body fd eq_refl) as [Hc'|[Hsl _]]; [congruence|done].
  - pose proof (sound_sweep S now HS) as Hp. rewrite Hr in Hp.
    destruct Hp as (Hs & _ & _ & Hok). split; [done|]. by apply Hok.
Qed.

(** C2. Steering under a live authority: after every answered request and every finished
    recovery sweep, whatever requests, failures and crashes came before, the kernel steers
    only destinations of the policy of a live, unrevoked owner, or of the policy about to
    replace it. The one history left out is a restart from a journal whose last store had
    reported an error although it had replaced the file: the machine of that moment is
    [unsynced]. *)
Theorem steering_under_live_authority now S S' t p :
  life S -> served now S S' -> steers (infra_world S') t p ->
  exists f, forward (state S') = Some f /\ forward_phase f <> Revoked /\
    owner_is_live (forward_owner f) now = true /\
    (steered (forward_declaration f) t p \/
     exists q, pending_policy f = Some q /\ steered (pending_declaration q) t p).
Proof.
  intros HS Hsv Ht. destruct (served_settled now S S' HS Hsv) as [[(_ & _ & _ & HX) _] [Hset Hl]].
  apply HX, coverage_settled in Ht as (f & Hf & Hp & Ht); [|done]. exists f.
  split_and!; [done|done|by apply Hl|]. unfold pending_nets in Ht.
  destruct (pending_policy f) as [q|]; [|tauto]. destruct Ht as [Ht|Ht]; [by left|right; by exists q].
Qed.

(** C10. In every state of a life, in the middle of repairs and after every failure, the state
    is well-formed and the kernel steers only what the state covers: the policies of an
    unrevoked owner and of an open cut-over. And the journal file holds the state, except
    after a store that replaced the file and then failed to sync the directory, until the
    next store succeeds. *)
Theorem journal_covers_kernel S :
  life S ->
  (unsynced (infra_world S) = false -> journal_holds (infra_world S) (state S)) /\
  state_ok (state S) /\
  net_sub (steers (infra_world S)) (coverage (state S)).
Proof. intros HS. apply life_sound in HS as [(_ & Hj & _ & HX) Hs]. done. Qed.

(** C31. No request and no sweep reaches a panic: every [unwrap] of the service finds its
    value. *)
Theorem service_never_panics S request peer now :
  life S -> typed_operation (infra_operation request) ->
  (infra_process request peer now S).1 <> Err IxPanics /\
  (recover_expired now S).1 <> Err IxPanics.
Proof.
  intros HS Ht. apply life_sound in HS. split.
  - pose proof (sound_request S request peer now HS Ht) as Hr.
    destruct (infra_process request peer now S). apply Hr.
  - pose proof (sound_sweep S now HS) as Hr. destruct (recover_expired now S). apply Hr.
Qed.

(** C29. Fencing: a request never lowers the fencing token or the I/O epoch and never
    replaces the owner by an earlier one, unless it retires the infrastructure; a descriptor
    is issued under an epoch beyond all earlier ones. *)
Theorem fencing_advances S request peer now r S' :
  life S -> typed_operation (infra_operation request) ->
  infra_process request peer now S = (r, S') ->
  (keeps (state S) (state S') \/
   is_retire (infra_operation request) = true /\ state S' = State_default) /\
  (forall sp index epoch fd, r = Ok (BIoFd sp index epoch, fd) ->
     is_capabilities (infra_operation request) = false ->
     last_io_epoch (state S) < epoch /\ last_io_epoch (state S') = epoch).
Proof.
  intros HS Ht Hr. apply life_sound in HS.
  pose proof (sound_request S request peer now HS Ht) as Hp. rewrite Hr in Hp.
  destruct Hp as (_ & _ & Hk & Hok). split; [done|]. intros sp index epoch fd Hb Hc.
  destruct (Hok _ _ Hb) as [Hc'|[_ He]]; [congruence|exact He].
Qed.

(** The file of a life loads as its state. *)
Lemma holds_loads w s :
  journal_holds w s -> check_state s = Ok tt -> load_journal (file w) = Ok s.
Proof.
  unfold journal_holds. destruct (file w) as [bytes|]; [|by intros ->].
  intros Hb Hc. unfold journal_bytes in Hb.
  destruct (state_hash s) as [hash|] eqn:Hhash; [|done]. simpl in Hb.
  destruct (envelope_to_vec _) as [bytes'|] eqn:He; [|done]. simpl in Hb.
  destruct (_ <? _) eqn:Hlen; [done|]. simpl in Hb. injection Hb as ->.
  apply envelope_roundtrip in He. simpl. rewrite Hlen. simpl. rewrite He. simpl. rewrite Hhash. simpl.
  rewrite bool_decide_eq_true_2 by done. simpl. by rewrite Hc.
Qed.

(** C39. The journal reloads: a restart in a state of a life whose last store did not fail in
    its directory sync reads back exactly that state, unless a failed prefix is no longer a
    remote prefix of the policy or a policy is pending for a revoked owner. *)
Theorem journal_reloads S uid gid w :
  life S -> unsynced (infra_world S) = false -> (forall f, forward (state S) = Some f -> forward_loads f) ->
  machine_after (infra_world S) w -> read_journal w = Ok (file w) ->
  InfrastructureService_new uid gid w = Ok (mkInfra uid gid w (state S) None true).
Proof.
  intros HS Hd Hl [Hf _] Hr. apply life_sound in HS as [(_ & Hj & _ & _) Hs].
  unfold InfrastructureService_new. rewrite Hr. simpl. rewrite Hf.
  by rewrite (holds_loads _ _ (Hj Hd) (check_state_ok _ Hs Hl)).
Qed.
End Histories.
