(* ===== verification/InfraMachine.v ===== *)
(** * A machine for the infrastructure service

    A concrete machine that obeys the contract of [InfraContract]: a device that may be
    absent, routes that exist only with their device, a journal file, and documents written
    as token lists in place of JSON. The witnesses and the failures that the service does
    not survive run on it. *)
From stdpp Require Import base tactics list numbers option sorting strings.
From Stdlib Require Import ZArith Lia.
From S2P Require Import Prelude Ipv4 Wire Proto Network Service InfraProto Infra InfraContract.

#[local] Open Scope Z_scope.

(** ** Documents *)

Class Tokens (A : Type) := {
  put : A -> list Z;
  take_tokens : list Z -> option (A * list Z);
  take_put a l : take_tokens (put a ++ l) = Some (a, l);
}.

#[export] Program Instance tokens_Z : Tokens Z := {
  put z := [z];
  take_tokens l := match l with z :: l => Some (z, l) | [] => None end;
}.
Next Obligation. done. Qed.

#[export] Program Instance tokens_prod {A B} `{!Tokens A} `{!Tokens B} : Tokens (A * B) := {
  put ab := put ab.1 ++ put ab.2;
  take_tokens l :=
    match take_tokens l with
    | Some (a, l) => match take_tokens l with Some (b, l) => Some ((a, b), l) | None => None end
    | None => None
    end;
}.
Next Obligation. intros A B HA HB [a b] l. simpl. by rewrite <- app_assoc, take_put, take_put. Qed.

(** A type read through another one. *)
Program Definition tokens_iso {A B} `{!Tokens B} (f : A -> B) (g : B -> A)
    (gf : forall a, g (f a) = a) : Tokens A := {|
  put a := put (f a);
  take_tokens l := match take_tokens l with Some (b, l) => Some (g b, l) | None => None end;
|}.
Next Obligation. intros A B HB f g gf a l. simpl. by rewrite take_put, gf. Qed.

Fixpoint take_many {A} `{!Tokens A} (n : nat) (l : list Z) : option (list A * list Z) :=
  match n with
  | O => Some ([], l)
  | Datatypes.S n =>
      match take_tokens l with
      | Some (a, l) =>
          match take_many n l with Some (x, l) => Some (a :: x, l) | None => None end
      | None => None
      end
  end.

Lemma take_many_put {A} `{!Tokens A} (x : list A) l :
  take_many (length x) (flat_map put x ++ l) = Some (x, l).
Proof. induction x as [|a x IH]; simpl; [done|]. by rewrite <- app_assoc, take_put, IH. Qed.

#[export] Program Instance tokens_list {A} `{!Tokens A} : Tokens (list A) := {
  put x := Z.of_nat (length x) :: flat_map put x;
  take_tokens l := match l with n :: l => take_many (Z.to_nat n) l | [] => None end;
}.
Next Obligation. intros A HA x l. simpl. by rewrite Nat2Z.id, take_many_put. Qed.

#[export] Program Instance tokens_option {A} `{!Tokens A} : Tokens (option A) := {
  put o := match o with Some a => 1 :: put a | None => [0] end;
  take_tokens l :=
    match l with
    | n :: l =>
        if n =? 1
        then match take_tokens l with Some (a, l) => Some (Some a, l) | None => None end
        else Some (None, l)
    | [] => None
    end;
}.
Next Obligation. intros A HA [a|] l; simpl; [by rewrite take_put|done]. Qed.

(** The fields of a record, in order. *)
Ltac record f g := by refine (tokens_iso f g _); intros [].

#[export] Instance tokens_bool : Tokens bool.
Proof. record (fun b : bool => if b then 1 else 0) (fun z => z =? 1). Defined.
#[export] Instance tokens_prefix : Tokens Ipv4Prefix.
Proof. record (fun x => (Ipv4.network x, prefix_len x)) (fun '(a, b) => mkIpv4Prefix a b). Defined.
#[export] Instance tokens_kind : Tokens RouteKind.
Proof.
  record RouteKind_to_u64 (fun z => match RouteKind_try_from z with Ok k => k | Err _ => Local end).
Defined.
#[export] Instance tokens_route : Tokens RouteDeclaration.
Proof. record (fun x => (route_prefix x, route_kind x)) (fun '(a, b) => mkRoute a b). Defined.
#[export] Instance tokens_underlay : Tokens UnderlayKind.
Proof.
  record UnderlayKind_to_u64
    (fun z => match UnderlayKind_try_from z with Ok k => k | Err _ => CloudApi end).
Defined.
#[export] Instance tokens_exclusion : Tokens UnderlayExclusion.
Proof. record (fun x => (exclusion_prefix x, exclusion_kind x)) (fun '(a, b) => mkExclusion a b). Defined.
#[export] Instance tokens_firewall : Tokens FirewallPolicy.
Proof.
  record (fun x => (allow_forward x, clamp_tcp_mss x, (require_ipv4_forwarding x, manage_rp_filter x)))
    (fun '(a, b, (c, d)) => mkFirewall a b c d).
Defined.
#[export] Instance tokens_declaration : Tokens PrepareDeclaration.
Proof.
  record (fun x => (table_id x, overlay_router_ipv4 x, effective_mtu x,
                    (routes x, exclusions x, firewall x)))
    (fun '(a, b, c, (d, e, f)) => mkDeclaration a b c d e f).
Defined.
#[export] Instance tokens_owner : Tokens ForwardOwner.
Proof.
  record (fun x => (domain_id x, signed_generation x, worker_epoch x,
            (fencing_token x, auth_deadline_mono_ms x, forward_lease_deadline_mono_ms x)))
    (fun '(a, b, c, (d, e, f)) => mkForwardOwner a b c d e f).
Defined.
#[export] Instance tokens_authority : Tokens ForwardAuthority.
Proof.
  record (fun x => (transaction_id x, authority_revision x, signed_control_hash x,
            declaration_hash x, snapshot_closure_hash x, (authority_io_epoch x, authority_io_pid x,
            authority_io_start_ticks x, candidate_pid x, candidate_start_ticks x)))
    (fun '(a, b, c, d, e, (f, g, h, i, j)) => mkForwardAuthority a b c d e f g h i j).
Defined.
#[export] Instance tokens_policy : Tokens PendingPolicy.
Proof.
  record (fun x => (cancelled x, revision x, pending_generation x,
            (authorization_snapshot_sha256 x, pending_declaration x)))
    (fun '(a, b, c, (d, e)) => mkPendingPolicy a b c d e).
Defined.
#[export] Instance tokens_phase : Tokens Phase.
Proof.
  record (fun p => match p with Preparing => 0 | Prepared => 1 | Active => 2 | Guarded => 3 | Revoked => 4 end)
    (fun z => match z with 0 => Preparing | 1 => Prepared | 2 => Active | 3 => Guarded | _ => Revoked end).
Defined.
#[export] Instance tokens_forward : Tokens ForwardRecord.
Proof.
  record (fun x => (forward_owner x, forward_declaration x, forward_phase x, failure_revision x,
            forward_failed_prefixes x, pending_failed_prefixes x, (pending_failure_revision x,
            authority x, policy_revision x, policy_generation x, policy_hash x, pending_policy x)))
    (fun '(a, b, c, d, e, f, (g, h, i, j, k, l)) => mkForwardRecord a b c d e f g h i j k l).
Defined.
#[export] Instance tokens_io : Tokens IoOwner.
Proof.
  record (fun x => (io_instance_id x, io_pid x, io_epoch x, (io_boot_id x, start_ticks x)))
    (fun '(a, b, c, (d, e)) => mkIoOwner a b c d e).
Defined.
#[export] Instance tokens_spec : Tokens InfraSpec.
Proof.
  record (fun x => (infra_id x, infra_generation x, netns_device x,
            (netns_inode x, spec_overlay_router_ipv4 x, spec_mtu x)))
    (fun '(a, b, c, (d, e, f)) => mkInfraSpec a b c d e f).
Defined.
#[export] Instance tokens_sysctl_key : Tokens SysctlKey.
Proof.
  record (fun k => match k with Ipv4Forward => 0 | AllRpFilter => 1 | CandyRpFilter => 2
                   | CandyDisableIpv6 => 3 end)
    (fun z => match z with 0 => Ipv4Forward | 1 => AllRpFilter | 2 => CandyRpFilter
              | _ => CandyDisableIpv6 end).
Defined.
#[export] Instance tokens_sysctl : Tokens SysctlChange.
Proof. record (fun x => (key x, original x, applied x)) (fun '(a, b, c) => mkSysctl a b c). Defined.
#[export] Instance tokens_state : Tokens State.
Proof.
  record (fun x => (boot_id x, spec x, ifindex x, ownership_marker x, creation_pending x,
            administrator x, (io_owner x, last_io_epoch x, forward x, candidate x,
            last_fencing_token x, state_sysctls x)))
    (fun '(a, b, c, d, e, f, (g, h, i, j, k, l)) => mkState a b c d e f g h i j k l).
Defined.
#[export] Instance tokens_envelope : Tokens Envelope.
Proof.
  record (fun x => (schema_version x, sha256 x, envelope_state x)) (fun '(a, b, c) => mkEnvelope a b c).
Defined.

(** A document is a token list without a rest. *)
Definition to_tokens {A} `{!Tokens A} (a : A) : option (list Z) := Some (put a).
Definition of_tokens {A} `{!Tokens A} (l : list Z) : option A :=
  match take_tokens l with Some (a, []) => Some a | _ => None end.

Lemma tokens_roundtrip {A} `{!Tokens A} (a : A) l : to_tokens a = Some l -> of_tokens l = Some a.
Proof. intros [= <-]. unfold of_tokens. by rewrite <- (app_nil_r (put a)), take_put. Qed.

(** The digest: 64 digits, of the length of the document. *)
#[export] Instance token_format : JournalFormat := {
  state_to_vec := to_tokens;
  envelope_to_vec := to_tokens;
  envelope_from_slice := of_tokens;
  declaration_to_vec := to_tokens;
  hex_digest bytes := replicate 64 (48 + Z.of_nat (length bytes) mod 10);
}.

#[export] Instance token_format_laws : JournalFormatLaws.
Proof. split. intros e bytes. apply tokens_roundtrip. Qed.

(** ** The machine *)

Record Machine : Type := mkMachine {
  m_routes : list (Z * Ipv4Prefix);
  m_file : option (list Z);
  m_boot : list Z;
  (** The device: its index and its mark. *)
  m_device : option (Z * option (list Z));
  (** The writes that still work, when the machine is about to fail. *)
  m_left : option nat;
  (** When no write works any more, no sync of a directory does. *)
  m_late : bool;
  m_temporary : option (list Z);
  m_unsynced : bool;
}.

Definition with_routes (l : list (Z * Ipv4Prefix)) (w : Machine) : Machine :=
  mkMachine l (m_file w) (m_boot w) (m_device w) (m_left w) (m_late w) (m_temporary w) (m_unsynced w).
Definition with_file (o : option (list Z)) (w : Machine) : Machine :=
  mkMachine (m_routes w) o (m_boot w) (m_device w) (m_left w) (m_late w) (m_temporary w) (m_unsynced w).
Definition with_device (o : option (Z * option (list Z))) (w : Machine) : Machine :=
  mkMachine (m_routes w) (m_file w) (m_boot w) o (m_left w) (m_late w) (m_temporary w) (m_unsynced w).
Definition with_left (o : option nat) (late : bool) (w : Machine) : Machine :=
  mkMachine (m_routes w) (m_file w) (m_boot w) (m_device w) o late (m_temporary w) (m_unsynced w).
Definition with_temporary (o : option (list Z)) (w : Machine) : Machine :=
  mkMachine (m_routes w) (m_file w) (m_boot w) (m_device w) (m_left w) (m_late w) o (m_unsynced w).
Definition with_unsynced (v : bool) (w : Machine) : Machine :=
  mkMachine (m_routes w) (m_file w) (m_boot w) (m_device w) (m_left w) (m_late w) (m_temporary w) v.

(** A write of the machine, which may be its last. *)
Definition act {E} (e : E) (f : Machine -> Machine) : M Machine E unit := fun w =>
  match m_left w with
  | Some O => (Err e, w)
  | Some (Datatypes.S n) => (Ok tt, f (with_left (Some n) (m_late w) w))
  | None => (Ok tt, f w)
  end.

Definition installed (d : PrepareDeclaration) (failed : list Ipv4Prefix) : list (Z * Ipv4Prefix) :=
  map (fun r => (table_id d, route_prefix r))
    (List.filter (fun r => negb (is_local_kind r) && negb (bool_decide (route_prefix r ∈ failed)))
       (routes d)).
Definition entries (d : PrepareDeclaration) : list (Z * Ipv4Prefix) :=
  map (pair (table_id d)) (all_prefixes d).

(** Routes removed and routes added. *)
Definition edit (gone new : list (Z * Ipv4Prefix)) : WorldM Machine unit :=
  act NeBackend (fun w => with_routes (filter (fun x => x ∉ gone) (m_routes w) ++ new) w).

Definition quiet : WorldM Machine unit := mret tt.

#[export] Instance machine_network : NetworkBackend Machine := {
  preflight _ := mret [];
  prepare_link _ := quiet; prepare_routes _ := quiet; reconcile_routes _ _ := quiet;
  prepare_firewall _ := quiet; replace_firewall _ _ := quiet; prepare_sysctls _ _ := quiet;
  activate_link _ := quiet; update_link_mtu _ _ := quiet; install_policy_rule _ := quiet;
  remove_policy_rule _ := quiet; deactivate_link _ := quiet; remove_firewall _ := quiet;
  remove_routes _ := quiet; backend_withdraw_prefixes _ _ := quiet; remove_link _ := quiet;
  restore_sysctls _ _ := quiet;
}.

#[export] Instance machine_infrastructure : InfrastructureBackend Machine := {
  update_live_policy previous target failed :=
    edit (entries target ++ entries previous) (installed target failed);
  discard_live_policy _ _ := quiet;
  interface_identity := fun w => (Ok (fst <$> m_device w), w);
  interface_ownership_marker := fun w => (Ok (m_device w ≫= snd), w);
  stamp_infrastructure_ownership m :=
    act NeBackend (fun w => with_device (d ← m_device w; Some (d.1, Some m)) w);
  ensure_infrastructure _ := fun w =>
    (match m_device w with Some d => Ok d.1 | None => Err NeBackend end, w);
  retire_infrastructure := act NeBackend (with_device None);
  reject_forwarding d := edit (installed d []) [];
  guard_forwarding _ := quiet;
  restore_forwarding_with_failures d failed := edit (entries d) (installed d failed);
  update_failed_forward_prefixes d _ failed := edit (installed d []) (installed d failed);
  validate_forwarding_replacement _ _ := quiet;
  retire_forwarding d := edit (entries d) [];
  remove_stale_forwarding old retained := edit (filter (fun x => x ∉ entries retained) (entries old)) [];
}.

(** The temporary file can always be written; the rename is the write that may be the last. *)
Definition machine_rename : M Machine IoError unit :=
  act IoFailed (fun w => with_temporary None (with_file (m_temporary w) w)).

Definition machine_sync : M Machine IoError unit := fun w =>
  if m_late w && bool_decide (m_left w = Some O) then (Err IoFailed, with_unsynced true w)
  else (Ok tt, with_unsynced false w).

(** A running process that started at tick 42. *)
Definition running_stat : list Z :=
  [55; 32; 40; 97; 41; 32; 83; 32] ++ flat_map (fun _ => [48; 32]) (seq 0 18) ++ [52; 50].

#[export] Instance machine_host : InfraHost Machine := {|
  current_boot_id w := Ok (m_boot w);
  read_proc_stat _ _ := Ok running_stat;
  kill_says_alive _ _ := true;
  netns_metadata _ := Ok (4, 1000);
  random_nonce := mret [17; 34];
  dup_descriptor fd := mret fd;
  create_exclusive := fun w =>
    match m_device w with
    | None => (Ok 3, with_routes [] (with_device (Some (7, None)) w))
    | Some _ => (Err PeIo, w)
    end;
  enable_persistence _ := mret tt;
  create_persistent := mret 3;
  read_journal w := Ok (m_file w);
  create_temporary := fun w => (Ok tt, with_temporary (Some []) w);
  write_temporary bytes := fun w => (Ok tt, with_temporary ((fun l => l ++ bytes) <$> m_temporary w) w);
  sync_temporary := mret tt;
  rename_temporary := machine_rename;
  sync_directory := machine_sync;
  remove_temporary := fun w => (Ok tt, with_temporary None w);
|}.

(** ** The contract *)

Definition machine_steers (w : Machine) : Nets := fun t p =>
  m_device w <> None /\ (t, p) ∈ m_routes w.

#[local] Abbreviation change := (spec_change machine_steers m_file m_unsynced (fun w => Ok (m_boot w))).

(** A call that adds no route and keeps the file. *)
Lemma change_calm {E A} (f : M Machine E A) :
  (forall w, let w' := (f w).2 in m_file w' = m_file w /\ m_unsynced w' = m_unsynced w /\
     m_boot w' = m_boot w /\ net_sub (machine_steers w') (machine_steers w)) ->
  change no_nets no_nets f.
Proof.
  intros H w. specialize (H w). destruct (f w) as [r w']. destruct H as (H1 & H0 & H2 & H3).
  simpl in *. split_and!; [done|done|by rewrite H2| |];
    unfold net_sub, net_union, net_minus, no_nets in *; naive_solver.
Qed.

Lemma change_edit gone new (added removed : Nets) :
  (forall t p, (t, p) ∈ new -> added t p /\ ~ removed t p) ->
  (forall t p, removed t p -> (t, p) ∈ gone) ->
  change added removed (edit gone new).
Proof.
  intros Hnew Hgone w. unfold edit, act.
  assert (Hsub : forall w0, m_device w0 = m_device w -> m_routes w0 = m_routes w ->
    forall t p, machine_steers (with_routes (filter (fun x => x ∉ gone) (m_routes w0) ++ new) w0) t p ->
      net_minus (net_union (machine_steers w) added) removed t p).
  { intros w0 Ed Er t p [Hd Hin]. simpl in *. rewrite Ed in Hd. rewrite Er in Hin.
    apply elem_of_app in Hin as [Hin|Hin].
    - apply list_elem_of_filter in Hin as [Hg Hin]. split; [by left|]. intros Hr. by apply Hg, Hgone.
    - destruct (Hnew t p Hin). split; [by right|done]. }
  destruct (m_left w) as [[|n]|].
  - split_and!; try done. intros t p Ht. by left.
  - split_and!; try done; intros t p Ht.
    + by destruct (Hsub (with_left (Some n) (m_late w) w) eq_refl eq_refl t p Ht).
    + intros Ht'. by apply (Hsub (with_left (Some n) (m_late w) w)).
  - split_and!; try done; intros t p Ht.
    + by destruct (Hsub w eq_refl eq_refl t p Ht).
    + intros Ht'. by apply (Hsub w).
Qed.

Lemma installed_steered d failed t p : (t, p) ∈ installed d failed -> steered d t p.
Proof.
  intros Hin. apply list_elem_of_In, in_map_iff in Hin as (r & [= <- <-] & Hr).
  apply filter_In in Hr as [Hr Hb]. split; [done|]. exists r. split; [by apply list_elem_of_In|].
  split; [|done]. apply andb_true_iff in Hb as [Hb _]. intros Hl. unfold is_local_kind in Hb.
  by rewrite bool_decide_eq_true_2 in Hb.
Qed.

Lemma steered_installed d t p : steered d t p -> (t, p) ∈ installed d [].
Proof.
  intros (-> & r & Hr & Hk & ->). apply list_elem_of_In, in_map_iff. exists r. split; [done|].
  apply filter_In. split; [by apply list_elem_of_In|]. unfold is_local_kind.
  rewrite bool_decide_eq_false_2 by done. rewrite bool_decide_eq_false_2 by apply not_elem_of_nil. done.
Qed.

Lemma entries_declared d t p : (t, p) ∈ entries d <-> declared d t p.
Proof.
  unfold entries, declared. rewrite list_elem_of_In, in_map_iff. split.
  - intros (q & [= <- <-] & Hq). split; [done|by apply list_elem_of_In].
  - intros [-> Hq]. exists p. split; [done|by apply list_elem_of_In].
Qed.

Lemma change_act {E} (e : E) f :
  (forall w, m_file (f w) = m_file w /\ m_unsynced (f w) = m_unsynced w /\
     m_boot (f w) = m_boot w /\ net_sub (machine_steers (f w)) (machine_steers w)) ->
  change no_nets no_nets (act e f).
Proof.
  intros H. apply change_calm. intros w. unfold act.
  destruct (m_left w) as [[|n]|]; simpl; [done| |apply H].
  destruct (H (with_left (Some n) (m_late w) w)) as (H0 & H1 & H2 & H3). done.
Qed.

#[export] Instance machine_contract : @InfraMachine Machine _ _ (machine_host).
Proof.
  refine (@Build_InfraMachine Machine _ _ machine_host machine_steers m_file m_temporary m_unsynced
    _ _ _ _ _ _ _ _ _ _ _ _ _ _ _ _ _ _ _ _ _ _ _ _ _ _ _ _ _ _ _ _ _ _ _);
    try (intros; apply change_calm; done).
  - by intros w o [= <-].
  - by intros w r w' [= _ <-].
  - by intros bytes w r w' [= _ <-].
  - by intros w r w' [= _ <-].
  - intros w. simpl. unfold machine_rename, act. destruct (m_left w) as [[|n]|]; simpl; by split_and!.
  - intros w. simpl. unfold machine_sync. destruct (_ && _); simpl; by split_and!.
  - intros previous target failed. apply change_edit.
    + intros t p Hin. apply installed_steered in Hin as Hst. split; [done|].
      apply steered_declared in Hst as Hd. unfold net_union, net_minus. tauto.
    + intros t p Hr. apply elem_of_app. rewrite !entries_declared. unfold net_union, net_minus in Hr. tauto.
  - intros m. apply change_act. intros w. split_and!; try done. intros t p [Hd Hin]. split; [|done].
    simpl in Hd. by destruct (m_device w).
  - apply change_act. intros w. split_and!; try done. by intros t p [].
  - intros d. apply change_edit.
    + by intros t p ?%elem_of_nil.
    + apply steered_installed.
  - intros d failed. apply change_edit.
    + intros t p Hin. apply installed_steered in Hin. unfold net_minus. tauto.
    + intros t p [Hr _]. by apply entries_declared.
  - intros d previous failed. apply change_edit; [|done].
    intros t p Hin. apply installed_steered in Hin. unfold no_nets. tauto.
  - intros d. apply change_edit; [|done]. by intros t p ?%elem_of_nil.
  - intros old retained. apply change_edit.
    + by intros t p ?%elem_of_nil.
    + intros t p [Ho Hr]. apply list_elem_of_filter. by rewrite !entries_declared.
  - intros w w' [= Hd <-]. intros t p [Hn _]. by destruct (m_device w).
  - apply change_calm. intros w. simpl. destruct (m_device w); [done|]. split_and!; try done.
    intros t p [_ Hin]. by apply elem_of_nil in Hin.
Defined.
