(* ===== verification/InfraScenarios.v ===== *)
(** * The infrastructure service at work

    Concrete lives on the machine of [InfraMachine]: the witnesses of the theorems on
    histories, and three ways in which the journal or the routes outlive their owner. *)
From stdpp Require Import base tactics list numbers option sorting strings.
From Stdlib Require Import ZArith Lia.
From S2P Require Import Prelude Ipv4 Wire Proto ProtoFacts Network Service InfraProto Infra.
From S2P Require Import InfraContract InfraFacts InfraHandlers InfraHistory InfraMachine.

#[local] Open Scope Z_scope.

(** ** Requests *)

Definition host_id : list Z := replicate 16 7.
Definition agent : list Z := replicate 16 8.
Definition domain : list Z := replicate 16 9.
Definition peer : PeerCredentials := mkPeer 42 0 0.
Definition sample_spec : InfraSpec := mkInfraSpec host_id 1 4 1000 [10; 9; 0; 1] 1400.
Definition ask (op : Operation) : Request := mkInfraRequest 1 agent 42 op.

(** Owners of ascending tokens, their leases until 5000. *)
Definition owner (token : Z) : ForwardOwner := mkForwardOwner domain token token token 9000 5000.
Definition prepare_with (token : Z) : Request :=
  ask (ForwardPrepare host_id 1 (owner token) sample_declaration).

(** The sample with its remote prefix turned into a gateway. *)
Definition gateway_declaration : PrepareDeclaration :=
  mkDeclaration 20001 [10; 9; 0; 1] 1400
    [mkRoute (sample_prefix 0 0 0) RemoteEgress; mkRoute (sample_prefix 10 1 16) Local;
     mkRoute (sample_prefix 10 2 16) RemoteEgressGateway]
    [mkExclusion (sample_prefix 172 16 12) HubEndpoint]
    (mkFirewall true true true false).
Definition snapshot : list Z := replicate 64 48.
Definition update : Request :=
  ask (ForwardPolicyUpdate (owner 1) 1 1 snapshot gateway_declaration).

(** ** Running *)

Definition bare : Machine := mkMachine [] None [1] None None false None false.
Definition fresh (w : Machine) : InfrastructureService Machine :=
  mkInfra 0 0 w State_default None true.

(** A request at time 100. *)
Definition request (r : Request) (S : InfrastructureService Machine) : InfrastructureService Machine :=
  (infra_process r peer 100 S).2.

Definition requests (l : list Request) (S : InfrastructureService Machine)
  : InfrastructureService Machine := fold_left (fun S r => request r S) l S.

Lemma life_fresh : life (fresh bare).
Proof. by apply (life_start 0 0 bare); [|intros t p []|]. Qed.

Lemma life_requests l S :
  life S -> Forall (fun r => typed_operation (infra_operation r)) l -> life (requests l S).
Proof.
  intros HS Hl. revert S HS. induction Hl as [|r l Hr Hl IH]; intros S HS; [done|]. simpl.
  apply IH. by apply life_request.
Qed.

(** The same machine with other prospects. *)
Definition failing (left : option nat) (late : bool) (S : InfrastructureService Machine) :=
  set_world (with_left left late (infra_world S)) S.

Lemma life_failing left late S : life S -> life (failing left late S).
Proof. intros HS. by apply life_machine; [|split_and!]. Qed.

Definition unplugged (S : InfrastructureService Machine) :=
  set_world (with_device None (infra_world S)) S.

Lemma life_unplugged S : life S -> life (unplugged S).
Proof. intros HS. apply life_machine; [done|]. split_and!; [done..|]. by intros t p []. Qed.

(** *** Stages of a life *)

Definition prepared : InfrastructureService Machine :=
  requests [ask (InfraEnsure sample_spec); prepare_with 1] (fresh bare).
Definition active : InfrastructureService Machine :=
  request (ask (ForwardCommit (owner 1))) prepared.

Lemma life_prepared : life prepared.
Proof. apply life_requests; [apply life_fresh|]. by repeat constructor. Qed.

Lemma life_active : life active.
Proof. apply life_request; [apply life_prepared|done]. Qed.

(** The reply of a request, computed. *)
Lemma replied r S reply :
  (infra_process r peer 100 S).1 = reply -> infra_process r peer 100 S = (reply, request r S).
Proof. intros <-. apply surjective_pairing. Qed.

Lemma steering_under_live_authority_witness :
  steers (infra_world active) 20001 (sample_prefix 10 2 16) /\
  exists f, forward (state active) = Some f /\ forward_phase f <> Revoked /\
    owner_is_live (forward_owner f) 100 = true /\
    (steered (forward_declaration f) 20001 (sample_prefix 10 2 16) \/
     exists q, pending_policy f = Some q /\
       steered (pending_declaration q) 20001 (sample_prefix 10 2 16)).
Proof.
  assert (Hst : steers (infra_world active) 20001 (sample_prefix 10 2 16)).
  { split; [by vm_compute|]. apply (bool_decide_unpack _). by vm_compute. }
  split; [exact Hst|].
  refine (steering_under_live_authority 100 prepared active _ _ life_prepared _ Hst).
  refine (served_request _ _ (ask (ForwardCommit (owner 1))) peer BAck None _ I eq_refl _).
  apply replied. by vm_compute.
Defined.

Lemma journal_covers_kernel_witness :
  (unsynced (infra_world active) = false -> journal_holds (infra_world active) (state active)) /\
  state_ok (state active) /\
  net_sub (steers (infra_world active)) (coverage (state active)).
Proof. apply journal_covers_kernel, life_active. Defined.

Lemma service_never_panics_witness :
  (infra_process (ask (ForwardRevoke (owner 1))) peer 100 active).1 <> Err IxPanics /\
  (recover_expired 100 active).1 <> Err IxPanics.
Proof. apply service_never_panics; [apply life_active|exact I]. Defined.

Definition acquire : Request := ask (InfraAcquireIoFd host_id 1 5).

Lemma fencing_advances_witness :
  (keeps (state active) (state (request acquire active)) \/
   is_retire (infra_operation acquire) = true /\
   state (request acquire active) = State_default) /\
  last_io_epoch (state active) < 5 /\ last_io_epoch (state (request acquire active)) = 5.
Proof.
  assert (Hr : (infra_process acquire peer 100 active).1 = Ok (BIoFd sample_spec 7 5, Some 3))
    by by vm_compute.
  destruct (fencing_advances active acquire peer 100 _ _ life_active I (replied _ _ _ Hr)) as [Hk He].
  split; [exact Hk|]. by apply (He sample_spec 7 5 (Some 3)).
Defined.

Lemma journal_reloads_witness :
  InfrastructureService_new 0 0 (infra_world active)
  = Ok (mkInfra 0 0 (infra_world active) (state active) None true).
Proof.
  apply (journal_reloads active 0 0 (infra_world active) life_active); [by vm_compute| |by split_and!|done].
  assert (Hf : exists f, forward (state active) = Some f /\ forward_failed_prefixes f = [] /\
                 pending_policy f = None) by (eexists; split; [vm_compute; reflexivity|done]).
  destruct Hf as (f & Hf & Hn & Hq). intros f' Hf'. rewrite Hf in Hf'. injection Hf' as <-.
  unfold forward_loads. rewrite Hn, Hq. clear. split; [split; [constructor|]|].
  - intros p Hp. by apply elem_of_nil in Hp.
  - intros Hn. by destruct Hn.
Defined.

(** ** Journals and routes that outlive their owner *)

(** The remote prefix failed; then the policy made it a gateway. *)
Definition failed_gateway : InfrastructureService Machine :=
  requests [ask (ForwardFailedPrefixes (owner 1) 1 [sample_prefix 10 2 16]); update] active.

(** A policy update failed half-way, the device vanished, and the agent ensured it again. *)
Definition repaired : InfrastructureService Machine :=
  request (ask (InfraEnsure sample_spec))
    (failing None false (unplugged (request update (failing (Some 1%nat) false active)))).

(** Two lives after which the service cannot start again, because the journal it wrote
    is refused when it is read: a policy update that turns a failed remote prefix into a
    gateway keeps it as failed, and the repair of a vanished device revokes the owner with
    his policy still pending. *)
Theorem journal_left_unreadable :
  (life failed_gateway /\
   InfrastructureService_new 0 0 (infra_world failed_gateway) = Err (IxJournal IoFailed)) /\
  (life repaired /\
   InfrastructureService_new 0 0 (infra_world repaired) = Err (IxJournal IoFailed)).
Proof.
  split; split.
  - apply life_requests; [apply life_active|]. by repeat constructor.
  - by vm_compute.
  - apply life_request; [|exact I]. apply life_failing, life_unplugged, life_request; [|exact I].
    apply life_failing, life_active.
  - by vm_compute.
Qed.

(** A revocation whose store replaces the file and then fails to sync the directory, on a
    machine that then recovers and fails again in the middle of a commit. *)
Definition lately (left : nat) (late : bool) (r : Request) (S : InfrastructureService Machine)
  : InfrastructureService Machine := request r (failing (Some left) late S).
Definition outlived : InfrastructureService Machine :=
  lately 1 false (ask (ForwardCommit (owner 1))) (lately 2 true (ask (ForwardRevoke (owner 1))) prepared).

Lemma life_lately left late r S :
  life S -> typed_operation (infra_operation r) -> life (lately left late r S).
Proof. intros HS Hr. by apply life_request, Hr; apply life_failing. Qed.

(** A store that replaces the file but reports an error leaves the memory behind the disk:
    after such a revocation, a commit installs the routes of an owner that the journal holds
    as revoked, and when the service is restarted then, no recovery removes them. *)
Theorem late_store_strands_routes :
  life outlived /\ unsynced (infra_world outlived) = true /\
  exists S S',
    InfrastructureService_new 0 0 (with_left None false (infra_world outlived)) = Ok S /\
    recover_expired 10000 S = (Ok false, S') /\
    forward_phase <$> forward (state S') = Some Revoked /\
    steers (infra_world S') 20001 (sample_prefix 10 2 16).
Proof.
  split; [apply life_lately, I; apply life_lately, I; apply life_prepared|].
  split; [by vm_compute|].
  eexists. eexists. split; [vm_compute; reflexivity|]. split; [vm_compute; reflexivity|].
  split; [vm_compute; reflexivity|]. split; [by vm_compute|]. apply (bool_decide_unpack _). by vm_compute.
Qed.
