(* ===== verification/InfraFrames.v ===== *)
(** * Frames of the infrastructure protocol

    Round trip of its requests, and the separation of the two protocol versions. *)
From stdpp Require Import base tactics list numbers option sorting.
From Stdlib Require Import ZArith Lia.
From S2P Require Import Prelude Ipv4 Wire Proto ProtoFacts InfraProto.

#[local] Open Scope Z_scope.

(** A frame of the second version is not one of the first. *)
Lemma version_two_refused json :
  Z.of_nat (length (INFRA_VERSION :: json)) <= MAX_NETD_FRAME_LEN ->
  NetdRequest_decode (INFRA_VERSION :: json) = Err UnsupportedVersion.
Proof.
  intros Hlen. unfold NetdRequest_decode, ensure_frame.
  rewrite bool_decide_eq_false_2 by done. rewrite (proj2 (Z.ltb_ge _ _)) by done. reflexivity.
Qed.

Lemma version_one_frame r bs :
  NetdRequest_encode r = Ok bs -> exists rest, bs = NETD_PROTOCOL_VERSION :: rest.
Proof.
  unfold NetdRequest_encode. intros Hr. apply result_bind_Ok in Hr as ([] & _ & Hr).
  destruct (match operation r with OpWithdrawPrefixes _ => _ | _ => _ end); [done|].
  apply result_bind_Ok in Hr as ([] & _ & Hr). injection Hr as <-. by eexists.
Qed.

Section Requests.
Context (to_vec : Request -> option (list Z)) (from_slice : list Z -> option Request).

(** The two protocol versions share a socket: a request of the second version decodes to
    itself, provided the JSON documents do, and to nothing under the first version; a request
    of the first version decodes to nothing under the second. *)
Theorem infra_frames r1 r bs1 bs :
  (forall r json, to_vec r = Some json -> from_slice json = Some r) ->
  Request_encode to_vec r = Ok bs -> NetdRequest_encode r1 = Ok bs1 ->
  Request_decode from_slice bs = Ok r /\ NetdRequest_decode bs = Err UnsupportedVersion /\
  Request_decode from_slice bs1 = Err UnsupportedVersion.
Proof.
  intros Hjson Hr Hr1. unfold Request_encode in Hr. apply result_bind_Ok in Hr as ([] & Hv & Hr).
  unfold infra_encode in Hr. apply result_bind_Ok in Hr as (json & Hj & Hr).
  destruct (MAX_NETD_FRAME_LEN <? _) eqn:Hlen in Hr; [done|]. injection Hr as <-.
  unfold ok_or in Hj. destruct (to_vec r) as [json'|] eqn:Hto; [|done]. injection Hj as ->.
  split_and!.
  - unfold Request_decode, infra_decode. rewrite Z.eqb_refl. simpl negb. cbv iota. rewrite Hlen.
    rewrite (Hjson _ _ Hto). simpl. by rewrite Hv.
  - apply version_two_refused. by apply Z.ltb_ge.
  - by destruct (version_one_frame r1 bs1 Hr1) as (rest & ->).
Qed.
End Requests.

(** A request and its document. *)
Definition status : Request := mkInfraRequest 1 (replicate 16 8) 42 InfraStatus.
Definition is_status (r : Request) : bool :=
  match infra_operation r with InfraStatus => true | _ => false end
  && (infra_request_id r =? 1) && (caller_pid r =? 42)
  && bool_decide (caller_instance_id r = replicate 16 8).
Definition document (r : Request) : option (list Z) := if is_status r then Some [123; 125] else None.
Definition parse (json : list Z) : option Request :=
  if bool_decide (json = [123; 125]) then Some status else None.

Lemma parse_document r json : document r = Some json -> parse json = Some r.
Proof.
  unfold document, is_status. destruct r as [i c p op]. simpl.
  destruct op; simpl; try done. destruct (Z.eqb_spec i 1) as [->|]; [|done].
  destruct (Z.eqb_spec p 42) as [->|]; [|done]. simpl.
  case_bool_decide as Hc; [|done]. subst c. by intros [= <-].
Qed.

Lemma infra_frames_witness :
  exists bs1 bs, NetdRequest_encode sample_request = Ok bs1 /\
    Request_encode document status = Ok bs /\
    Request_decode parse bs = Ok status /\ NetdRequest_decode bs = Err UnsupportedVersion /\
    Request_decode parse bs1 = Err UnsupportedVersion.
Proof.
  eexists. eexists. split; [vm_compute; reflexivity|]. split; [vm_compute; reflexivity|].
  apply (infra_frames document parse sample_request); [apply parse_document| |]; by vm_compute.
Defined.
