(* ===== verification/Domains.v ===== *)
(** * The domain router

    [MultiDomainService] of [candy-netd/src/v2/domains.rs]: one worker thread per routing
    domain, each with its own namespace, journal and [InfrastructureService]; a front that
    admits requests within fixed budgets; and the reservation of I/O processes across the
    domains. Threads interleave between their critical sections: each section is one
    function on the shared state ([do_route], [do_enter], ..., [work]), and [DomainSteps]
    runs the sections of all threads in any order. A poisoned lock does not occur, since no
    section panics. *)
From stdpp Require Import base tactics list numbers option gmap strings.
From Stdlib Require Import ZArith Lia.
From S2P Require Import Prelude Ipv4 Wire Proto Network Service InfraProto Infra.

#[local] Open Scope Z_scope.

(** ** Configuration and budgets *)

Record DomainConfig : Type := mkDomainConfig {
  cfg_domain_id : list Z;
  cfg_infra_id : list Z;
  namespace_path : list Z;
  journal_path : list Z;
  cfg_table_id : Z;
}.

Record DomainBudgets : Type := mkBudgets {
  max_domains : Z;
  front_control_threads : Z;
  max_control_threads : Z;
  thread_stack_bytes : Z;
  max_total_stack_bytes : Z;
  max_pending_control_requests : Z;
  max_pending_control_bytes : Z;
  max_reserved_fds : Z;
}.

Record DomainsConfig : Type := mkDomains {
  budgets : DomainBudgets;
  cfg_domains : list DomainConfig;
}.

Definition MIN_CONTROL_THREAD_STACK_BYTES : Z := 256 * 1024.
Definition RESERVED_DOMAIN_FDS : Z := 12.
Definition CONTROL_FD_SAFETY_MARGIN : Z := 8.
Definition FRONT_REQUEST_BYTES : Z := 4 * MAX_NETD_FRAME_LEN.

Definition budget (resource : string) (required allowed : Z) : Result InfrastructureError unit :=
  if allowed <? required then Err (IxResourceBudget resource required allowed) else Ok tt.

(** The metadata of an open namespace file: owner, permissions, file system, identity. *)
Record NamespaceFile : Type := mkNamespaceFile {
  ns_uid : Z;
  ns_mode : Z;
  ns_magic : Z;
  ns_identity : Z * Z;
}.

(** What the router asks of the host. [in_domain] is the machine as the thread of a domain
    finds it: its namespace, and its journal. *)
Class DomainHost (W : Type) := {
  open_descriptors : W -> Result IoError Z;
  nofile_soft_limit : W -> Result IoError Z;
  process_namespace : Z -> W -> Result IoError (Z * Z);
  thread_namespace : W -> Result IoError (Z * Z);
  open_namespace : list Z -> W -> Result IoError NamespaceFile;
  is_absolute : list Z -> bool;
  canonical_journal : list Z -> W -> Result IoError (list Z);
  (** [None] if the lock file is unsafe or the lock is taken. *)
  lock_journal : list Z -> W -> Result IoError (option W);
  in_domain : DomainConfig -> W -> W;
  journal_opens : DomainConfig -> W -> Result IoError unit;
  (** [thread::Builder::spawn], [setns] and the namespace found afterwards. *)
  spawn_in_domain : DomainConfig -> W -> Result IoError (Z * Z);
  backend_starts : W -> Result NetworkError unit;
}.

(** Memory sizes of the target: the width of [usize], [size_of] and [Vec::capacity]. *)
Class Layout := {
  usize_bits : Z;
  size_of_request : Z;
  size_of_route : Z;
  size_of_exclusion : Z;
  size_of_prefix : Z;
  capacity : forall {A}, list A -> Z;
}.

Section Budgets.
Context `{!Layout}.

(** [checked_add], [checked_sub] and [checked_mul] on [usize]. *)
Definition usize (v : Z) : option Z := if (0 <=? v) && (v <? 2 ^ usize_bits) then Some v else None.
Definition checked_add (a b : Z) : option Z := usize (a + b).
Definition checked_sub (a b : Z) : option Z := usize (a - b).
Definition checked_mul (a b : Z) : option Z := usize (a * b).
Definition saturating_mul (a b : Z) : Z := Z.min (a * b) (2 ^ usize_bits - 1).

(** The number of descriptors that [budgets_admit] reserves. *)
Definition reserved_descriptors (self : DomainBudgets) (domains descriptors : Z) : option Z :=
  let pending := Z.min (max_pending_control_requests self) (saturating_mul domains 2) in
  v ← checked_mul domains RESERVED_DOMAIN_FDS;
  v ← checked_add descriptors v;
  twice ← checked_mul pending 2;
  v ← checked_add v twice;
  v ← checked_add v CONTROL_FD_SAFETY_MARGIN;
  checked_add v (max_pending_control_requests self).

Definition overflow {A} (o : option A) : Result InfrastructureError A :=
  ok_or o (IxRejected "domain_resource_budget_invalid").

Definition budgets_admit {W} `{!DomainHost W} (self : DomainBudgets) (domains : Z) (w : W)
  : Result InfrastructureError unit :=
  check? budget "domains" domains (max_domains self) in
  check? budget "minimum_front_control_threads" 2 (front_control_threads self) in
  let? threads := overflow (checked_add domains (front_control_threads self)) in
  check? budget "control_threads" threads (max_control_threads self) in
  check? budget "minimum_thread_stack_bytes" MIN_CONTROL_THREAD_STACK_BYTES
           (thread_stack_bytes self) in
  let? stack_bytes := overflow (checked_mul threads (thread_stack_bytes self)) in
  check? budget "total_thread_stack_bytes" stack_bytes (max_total_stack_bytes self) in
  check? budget "pending_control_requests" (front_control_threads self)
           (max_pending_control_requests self) in
  let? front := overflow (checked_mul (front_control_threads self) FRONT_REQUEST_BYTES) in
  check? budget "pending_control_bytes" front (max_pending_control_bytes self) in
  let? open := map_err IxJournal (open_descriptors w) in
  let? descriptors := overflow (reserved_descriptors self domains open) in
  check? budget "reserved_fds" descriptors (max_reserved_fds self) in
  let? soft_limit := map_err IxJournal (nofile_soft_limit w) in
  budget "rlimit_nofile_soft" descriptors soft_limit.

Definition validate_resource_admission {W} `{!DomainHost W} (self : DomainsConfig) (w : W)
  : Result InfrastructureError unit :=
  if bool_decide (cfg_domains self = []) then Err (IxRejected "domain_configuration_empty")
  else budgets_admit (budgets self) (Z.of_nat (length (cfg_domains self))) w.

(** ** Domains *)

Record DomainIdentity : Type := mkIdentity {
  config : DomainConfig;
  id_netns_device : Z;
  id_netns_inode : Z;
}.

Definition identity_conflict : Result InfrastructureError unit :=
  Err (IxRejected "domain_identity_conflict").
Definition refuse_identity (b : bool) : Result InfrastructureError unit :=
  if b then identity_conflict else Ok tt.

Definition foreign_infra (self : DomainIdentity) (infra : list Z) : bool :=
  negb (bool_decide (infra = cfg_infra_id (config self))).
Definition foreign_owner (self : DomainIdentity) (owner : ForwardOwner) : bool :=
  negb (bool_decide (domain_id owner = cfg_domain_id (config self))).
Definition foreign_table (self : DomainIdentity) (declaration : PrepareDeclaration) : bool :=
  negb (table_id declaration =? cfg_table_id (config self)).

(** [DomainIdentity::validate_operation]. *)
Definition scope_operation (self : DomainIdentity) (operation : Operation)
  : Result InfrastructureError unit :=
  match operation with
  | InfraEnsure spec =>
      refuse_identity (foreign_infra self (infra_id spec)
                       || negb (netns_device spec =? id_netns_device self)
                       || negb (netns_inode spec =? id_netns_inode self))
  | InfraAcquireIoFd infra _ _ | InfraReleaseIo infra _ _ | InfraRetire infra _ =>
      refuse_identity (foreign_infra self infra)
  | ForwardPrepare infra _ owner declaration =>
      refuse_identity (foreign_infra self infra || foreign_owner self owner
                       || foreign_table self declaration)
  | ForwardPolicyUpdate owner _ _ _ declaration =>
      refuse_identity (foreign_owner self owner || foreign_table self declaration)
  | ForwardCommit owner | ForwardAuthorize owner _ | ForwardCommitAuthorized owner _
  | ForwardRevoke owner | ForwardGuard owner | ForwardLeaseRenew owner
  | ForwardFailedPrefixes owner _ _ => refuse_identity (foreign_owner self owner)
  | InDomain _ _ _ => identity_conflict
  | Capabilities | InfraStatus | ForwardStatus => Ok tt
  end.

Definition validate_record (self : DomainIdentity) (generation : Z) (record : ForwardRecord)
  : Result InfrastructureError unit :=
  check? match pending_policy record with
         | Some pending =>
             scope_operation self (ForwardPolicyUpdate (forward_owner record) (revision pending)
               (pending_generation pending) (authorization_snapshot_sha256 pending)
               (pending_declaration pending))
         | None => Ok tt
         end in
  scope_operation self (ForwardPrepare (cfg_infra_id (config self)) generation
                          (forward_owner record) (forward_declaration record)).

Definition validate_option {A} (check : A -> Result InfrastructureError unit) (o : option A)
  : Result InfrastructureError unit :=
  match o with Some a => check a | None => Ok tt end.

(** [DomainIdentity::validate_journal]. *)
Definition validate_journal (self : DomainIdentity) (state : State)
  : Result InfrastructureError unit :=
  let generation := match spec state with Some spec => infra_generation spec | None => 1 end in
  check? validate_option (fun spec => scope_operation self (InfraEnsure spec)) (spec state) in
  check? validate_option (validate_record self generation) (forward state) in
  validate_option (validate_record self generation) (candidate state).

(** The memory a queued request keeps. *)
Definition request_queue_bytes (request : Request) : Result InfrastructureError Z :=
  let invalid := IxRejected "domain_control_budget_invalid" in
  let declared (d : PrepareDeclaration) :=
    bytes ← checked_mul (capacity (routes d)) size_of_route;
    exclusions ← checked_mul (capacity (exclusions d)) size_of_exclusion;
    checked_add bytes exclusions in
  let authorized (a : ForwardAuthority) :=
    Some (capacity (transaction_id a) + capacity (signed_control_hash a)
          + capacity (declaration_hash a) + capacity (snapshot_closure_hash a)) in
  let? heap :=
    match infra_operation request with
    | ForwardPrepare _ _ _ d | ForwardPolicyUpdate _ _ _ _ d => ok_or (declared d) invalid
    | ForwardFailedPrefixes _ _ failed =>
        ok_or (checked_mul (capacity failed) size_of_prefix) invalid
    | ForwardAuthorize _ a => ok_or (authorized a) invalid
    | ForwardCommitAuthorized _ receipt => ok_or (authorized (receipt_authority receipt)) invalid
    | InDomain _ _ _ => Err (IxRejected "domain_scope_nested")
    | _ => Ok 0
    end in
  let? heap :=
    match infra_operation request with
    | ForwardPolicyUpdate _ _ _ hash _ => ok_or (checked_add heap (capacity hash)) invalid
    | _ => Ok heap
    end in
  ok_or (checked_add size_of_request heap) invalid.
End Budgets.

(** ** The shared state

    An [Arc<ControlLease>] is an index into [leases], which counts its clones. *)

Record PendingBudget : Type := mkPending {
  pending_requests : Z;
  pending_bytes : Z;
}.

Record ControlLease : Type := mkLease {
  lease_bytes : Z;
  lease_holders : Z;
}.

Record IoBinding : Type := mkBinding {
  binding_owner : IoOwner;
  binding_token : Z;
}.

#[export] Instance IoBinding_eq_dec : EqDecision IoBinding.
Proof. solve_decision. Defined.

Record IoRollback : Type := mkRollback {
  rollback_domain : list Z;
  rollback_token : Z;
  rollback_previous : option IoBinding;
}.

Record Shared : Type := mkShared {
  limits : DomainBudgets;
  pending : PendingBudget;
  leases : list ControlLease;
  io_bindings : gmap (list Z) IoBinding;
  next_binding_token : Z;
}.

Definition set_pending (p : PendingBudget) (s : Shared) : Shared :=
  mkShared (limits s) p (leases s) (io_bindings s) (next_binding_token s).
Definition set_leases (l : list ControlLease) (s : Shared) : Shared :=
  mkShared (limits s) (pending s) l (io_bindings s) (next_binding_token s).
Definition set_bindings (b : gmap (list Z) IoBinding) (s : Shared) : Shared :=
  mkShared (limits s) (pending s) (leases s) b (next_binding_token s).
Definition set_token (t : Z) (s : Shared) : Shared :=
  mkShared (limits s) (pending s) (leases s) (io_bindings s) t.

Section Sections.
Context `{!Layout}.

Definition SharedM (A : Type) : Type := M Shared InfrastructureError A.
Definition deny {A} (code : string) : SharedM A := mfail (IxRejected code).
Definition in_range_of {A} (o : option A) : SharedM A :=
  lift (ok_or o (IxRejected "domain_control_budget_invalid")).

(** [ControlBudget::reserve]: a lease with one holder. *)
Definition reserve (bytes : Z) : SharedM nat :=
  let* s := gets id in
  let* requests := in_range_of (checked_add (pending_requests (pending s)) 1) in
  let* total := in_range_of (checked_add (pending_bytes (pending s)) bytes) in
  do* lift (budget "pending_control_requests" requests
              (max_pending_control_requests (limits s))) in
  do* lift (budget "pending_control_bytes" total (max_pending_control_bytes (limits s))) in
  do* modify (set_pending (mkPending requests total)) in
  do* modify (set_leases (leases s ++ [mkLease bytes 1])) in
  mret (length (leases s)).

Definition get_lease (l : nat) (s : Shared) : ControlLease :=
  default (mkLease 0 0) (leases s !! l).
Definition put_lease (l : nat) (lease : ControlLease) (s : Shared) : Shared :=
  set_leases (<[l := lease]> (leases s)) s.

(** [ControlPermit::resize]. *)
Definition resize (l : nat) (bytes : Z) : SharedM unit :=
  let* s := gets id in
  let lease := get_lease l s in
  let* total := in_range_of (value ← checked_sub (pending_bytes (pending s)) (lease_bytes lease);
                             checked_add value bytes) in
  do* lift (budget "pending_control_bytes" total (max_pending_control_bytes (limits s))) in
  do* modify (set_pending (mkPending (pending_requests (pending s)) total)) in
  modify (put_lease l (mkLease bytes (lease_holders lease))).

(** [ControlPermit::clone]. *)
Definition clone_permit (l : nat) (s : Shared) : Shared :=
  let lease := get_lease l s in
  put_lease l (mkLease (lease_bytes lease) (lease_holders lease + 1)) s.

(** [drop(permit)]: the last holder returns the lease to the budget. *)
Definition drop_permit (l : nat) (s : Shared) : Shared :=
  let lease := get_lease l s in
  let s := put_lease l (mkLease (lease_bytes lease) (lease_holders lease - 1)) s in
  if lease_holders lease =? 1 then
    set_pending (mkPending (pending_requests (pending s) - 1)
                   (pending_bytes (pending s) - lease_bytes lease)) s
  else s.

Definition drop_optional (l : option nat) (s : Shared) : Shared :=
  match l with Some l => drop_permit l s | None => s end.

(** *** I/O bindings *)

Section Bindings.
Context {W : Type} `{!InfraHost W}.

Definition same_process (a b : IoOwner) : bool :=
  bool_decide (io_instance_id a = io_instance_id b)
  || ((io_pid a =? io_pid b) && bool_decide (start_ticks a = start_ticks b)
      && bool_decide (io_boot_id a = io_boot_id b)).

Definition conflicts_with (domain : list Z) (owner : IoOwner) (w : W)
    (entry : list Z * IoBinding) : bool :=
  negb (bool_decide (entry.1 = domain)) && io_owner_alive (binding_owner entry.2) w
  && same_process (binding_owner entry.2) owner.

Definition validate_io_binding (bindings : gmap (list Z) IoBinding) (domain : list Z)
    (owner : IoOwner) (w : W) : Result InfrastructureError unit :=
  if existsb (conflicts_with domain owner w) (map_to_list bindings)
  then Err (IxRejected "domain_io_owner_conflict")
  else if match bindings !! domain with
          | Some binding => io_owner_alive (binding_owner binding) w
          | None => false
          end
  then Err (IxRejected "io_owner_alive") else Ok tt.

(** [next_binding_token.fetch_update(..)]. *)
Definition draw_token : SharedM Z :=
  let* token := gets next_binding_token in
  if 2 ^ 64 <=? token + 1 then deny "domain_io_binding_unavailable"
  else do* modify (set_token (token + 1)) in mret token.

(** The reservation, under the lock of the bindings. *)
Definition reserve_binding (domain : list Z) (owner : IoOwner) (token : Z) (w : W)
  : SharedM IoRollback :=
  let* bindings := gets io_bindings in
  do* lift (validate_io_binding bindings domain owner w) in
  do* modify (set_bindings (<[domain := mkBinding owner token]> bindings)) in
  mret (mkRollback domain token (bindings !! domain)).
End Bindings.

(** [IoRollback::apply]. *)
Definition apply_rollback (rollback : IoRollback) (s : Shared) : Shared :=
  match io_bindings s !! rollback_domain rollback with
  | Some binding =>
      if binding_token binding =? rollback_token rollback then
        set_bindings (match rollback_previous rollback with
                      | Some previous => <[rollback_domain rollback := previous]> (io_bindings s)
                      | None => delete (rollback_domain rollback) (io_bindings s)
                      end) s
      else s
  | None => s
  end.

Definition apply_optional (rollback : option IoRollback) (s : Shared) : Shared :=
  match rollback with Some rollback => apply_rollback rollback s | None => s end.
End Sections.

(** ** Threads *)

Definition ProcessResult : Type := Result InfrastructureError (Body * option Z).

(** A request that passed the checks of [process_admitted]: its worker, the operation
    unwrapped, the I/O process it would bind, and the permit its front thread holds. *)
Record Call : Type := mkCall {
  call_worker : nat;
  call_request : Request;
  call_peer : PeerCredentials;
  call_now : Z;
  call_owner : option IoOwner;
  call_front : option nat;
}.

(** [DomainRequest]; [msg_client] stands for its reply channel, [msg_domain] for the worker
    whose in-flight mark its [_domain_permit] clears. *)
Record Message : Type := mkMessage {
  msg_request : Request;
  msg_peer : PeerCredentials;
  msg_now : Z;
  msg_client : nat;
  msg_permit : nat;
  msg_domain : nat;
  msg_rollback : option IoRollback;
}.

(** A guard value about to be dropped. *)
Inductive Release : Type :=
| FreeDomain (k : nat)
| ReturnPermit (l : nat).

#[export] Instance Release_eq_dec : EqDecision Release.
Proof. solve_decision. Defined.

(** Where a client's thread stands. A front client holds a second permit, for its response,
    from [Picked] to [Done]. In [Leaving] the values still in scope are dropped one by one. *)
Inductive Client : Type :=
| Dispatching (permit : nat)
| Queued (permit : nat)
| Picked (permit : nat)
| Received (front : option nat) (request : Request) (peer : PeerCredentials) (now : Z)
| Routed (call : Call)
| Entered (call : Call)
| Charged (call : Call) (permit : nat)
| Drawn (call : Call) (permit : nat) (owner : IoOwner) (token : Z)
| Bound (call : Call) (permit : nat) (rollback : option IoRollback)
| Awaiting (front : option nat) (rollback : option IoRollback)
| Leaving (front : option nat) (drops : list Release) (rollback : option IoRollback)
    (result : ProcessResult)
| Done (front : option nat) (result : ProcessResult)
| Gone.

(** Where a worker's thread stands, between the statements of [run_domain]. *)
Inductive Stage : Type :=
| Idle
| Serving (message : Message)
| Served (message : Message) (result : ProcessResult)
| Rolled (message : Message) (result : ProcessResult)
| Released (message : Message) (result : ProcessResult)
| Freed (message : Message) (result : ProcessResult)
| Sweeping.

Section Router.
Context {W : Type} `{!NetworkBackend W} `{!InfrastructureBackend W} `{!InfraHost W}
  `{!DomainHost W} `{!JournalFormat} `{!Layout}.

Record Worker : Type := mkWorker {
  w_identity : DomainIdentity;
  w_inflight : bool;
  w_queue : option Message;
  w_stage : Stage;
  w_service : InfrastructureService W;
}.

Definition with_inflight (b : bool) (w : Worker) : Worker :=
  mkWorker (w_identity w) b (w_queue w) (w_stage w) (w_service w).
Definition with_queue (q : option Message) (w : Worker) : Worker :=
  mkWorker (w_identity w) (w_inflight w) q (w_stage w) (w_service w).
Definition with_stage (st : Stage) (w : Worker) : Worker :=
  mkWorker (w_identity w) (w_inflight w) (w_queue w) st (w_service w).
Definition with_service (S : InfrastructureService W) (w : Worker) : Worker :=
  mkWorker (w_identity w) (w_inflight w) (w_queue w) (w_stage w) S.

Record MultiDomainService : Type := mkMulti {
  multi_allowed_uid : Z;
  multi_allowed_gid : Z;
  shared : Shared;
  workers : list Worker;
  clients : list Client;
  front_attached : bool;
  host_world : W;
}.

Definition set_shared (s : Shared) (m : MultiDomainService) : MultiDomainService :=
  mkMulti (multi_allowed_uid m) (multi_allowed_gid m) s (workers m) (clients m)
    (front_attached m) (host_world m).
Definition set_workers (l : list Worker) (m : MultiDomainService) : MultiDomainService :=
  mkMulti (multi_allowed_uid m) (multi_allowed_gid m) (shared m) l (clients m)
    (front_attached m) (host_world m).
Definition set_clients (l : list Client) (m : MultiDomainService) : MultiDomainService :=
  mkMulti (multi_allowed_uid m) (multi_allowed_gid m) (shared m) (workers m) l
    (front_attached m) (host_world m).
Definition set_attached (b : bool) (m : MultiDomainService) : MultiDomainService :=
  mkMulti (multi_allowed_uid m) (multi_allowed_gid m) (shared m) (workers m) (clients m) b
    (host_world m).
Definition set_host (w : W) (m : MultiDomainService) : MultiDomainService :=
  mkMulti (multi_allowed_uid m) (multi_allowed_gid m) (shared m) (workers m) (clients m)
    (front_attached m) w.
Definition set_worker (k : nat) (w : Worker) (m : MultiDomainService) : MultiDomainService :=
  set_workers (<[k := w]> (workers m)) m.
Definition set_client (i : nat) (c : Client) (m : MultiDomainService) : MultiDomainService :=
  set_clients (<[i := c]> (clients m)) m.
Definition add_client (c : Client) (m : MultiDomainService) : MultiDomainService :=
  set_clients (clients m ++ [c]) m.

(** *** [MultiDomainService::new] *)

(** A domain that passed the checks, with the canonical path of its journal. *)
Record Startup : Type := mkStartup {
  prepared : list (DomainIdentity * list Z);
  startup_bindings : gmap (list Z) IoBinding;
}.

Definition seen {A} `{!EqDecision A} (f : DomainIdentity * list Z -> A) (a : A) (st : Startup)
  : bool := bool_decide (a ∈ map f (prepared st)).

Definition configuration_invalid (domain : DomainConfig) (st : Startup) : bool :=
  bool_decide (cfg_domain_id domain = replicate 16 0)
  || bool_decide (cfg_infra_id domain = replicate 16 0)
  || (cfg_table_id domain <? CANDY_TABLE_MIN) || (CANDY_TABLE_MAX <? cfg_table_id domain)
  || negb (is_absolute (namespace_path domain)) || negb (is_absolute (journal_path domain))
  || seen (fun p => cfg_domain_id (config p.1)) (cfg_domain_id domain) st
  || seen (fun p => cfg_infra_id (config p.1)) (cfg_infra_id domain) st.

Definition NSFS_MAGIC : Z := 0x6e736673.

Definition namespace_conflict (file : NamespaceFile) (current : Z * Z) (st : Startup) : bool :=
  negb (ns_uid file =? 0) || negb (Z.land (ns_mode file) 18 =? 0)
  || negb (ns_magic file =? NSFS_MAGIC) || bool_decide (ns_identity file = current)
  || seen (fun p => (id_netns_device p.1, id_netns_inode p.1)) (ns_identity file) st.

Definition load_domain_journal (domain : DomainConfig) (w : W) : Result InfrastructureError State :=
  check? map_err IxJournal (journal_opens domain w) in
  let? file := map_err IxJournal (read_journal (in_domain domain w)) in
  map_err IxJournal (load_journal file).

(** The live I/O owner of the journal is bound again, under token zero. *)
Definition bind_retained (domain : list Z) (owner : option IoOwner) (w : W)
    (bindings : gmap (list Z) IoBinding)
  : Result InfrastructureError (gmap (list Z) IoBinding) :=
  match owner with
  | Some owner =>
      if io_owner_alive owner w then
        check? validate_io_binding bindings domain owner w in
        Ok (<[domain := mkBinding owner 0]> bindings)
      else Ok bindings
  | None => Ok bindings
  end.

Definition prepare_domain (current : Z * Z) (domain : DomainConfig) (st : Startup) (w : W)
  : Result InfrastructureError (Startup * W) :=
  if configuration_invalid domain st then rejected "domain_configuration_invalid"
  else
    let? file := map_err IxJournal (open_namespace (namespace_path domain) w) in
    if namespace_conflict file current st then rejected "domain_namespace_conflict"
    else
      let? canonical := map_err IxJournal (canonical_journal (journal_path domain) w) in
      if seen snd canonical st then rejected "domain_journal_conflict"
      else
        let identity := mkIdentity domain (ns_identity file).1 (ns_identity file).2 in
        let? state := load_domain_journal domain w in
        check? validate_journal identity state in
        let? bindings := bind_retained (cfg_domain_id domain) (io_owner state) w
                           (startup_bindings st) in
        let? locked := map_err IxJournal (lock_journal (journal_path domain) w) in
        let? w := ok_or locked (IxRejected "domain_journal_busy") in
        Ok (mkStartup (prepared st ++ [(identity, canonical)]) bindings, w).

Fixpoint prepare_domains (current : Z * Z) (l : list DomainConfig) (st : Startup) (w : W)
  : Result InfrastructureError (Startup * W) :=
  match l with
  | [] => Ok (st, w)
  | domain :: l =>
      let? next := prepare_domain current domain st w in
      prepare_domains current l next.1 next.2
  end.

(** The thread of a domain up to [run_domain]. *)
Definition start_worker (uid gid : Z) (identity : DomainIdentity) (w : W)
  : Result InfrastructureError Worker :=
  let? actual := map_err IxJournal (spawn_in_domain (config identity) w) in
  if negb (bool_decide (actual = (id_netns_device identity, id_netns_inode identity)))
  then rejected "domain_namespace_conflict"
  else
    check? map_err IxBackend (backend_starts w) in
    let? service := InfrastructureService_new uid gid (in_domain (config identity) w) in
    Ok (mkWorker identity false None Idle service).

Fixpoint start_workers (uid gid : Z) (l : list DomainIdentity) (w : W)
  : Result InfrastructureError (list Worker) :=
  match l with
  | [] => Ok []
  | identity :: l =>
      let? worker := start_worker uid gid identity w in
      let? rest := start_workers uid gid l w in
      Ok (worker :: rest)
  end.

Definition MultiDomainService_new (uid gid : Z) (domains : DomainsConfig) (w : W)
  : Result InfrastructureError MultiDomainService :=
  if bool_decide (cfg_domains domains = []) then rejected "domain_configuration_empty"
  else
    check? validate_resource_admission domains w in
    let? current := map_err IxJournal (thread_namespace w) in
    let? startup := prepare_domains current (cfg_domains domains) (mkStartup [] ∅) w in
    let '(st, w) := startup in
    let? workers := start_workers uid gid (map fst (prepared st)) w in
    Ok (mkMulti uid gid
          (mkShared (budgets domains) (mkPending 0 0) [] (startup_bindings st) 1)
          workers [] false w).

(** *** The sections of [process_admitted] *)

(** [self.domains.get(&domain_id)]. *)
Fixpoint find_worker (domain : list Z) (l : list Worker) : option (nat * Worker) :=
  match l with
  | [] => None
  | w :: rest =>
      if bool_decide (cfg_domain_id (config (w_identity w)) = domain) then Some (O, w)
      else match find_worker domain rest with Some (k, w) => Some (Datatypes.S k, w) | None => None end
  end.

Definition requested_owner (request : Request) (operation : Operation) (w : W)
  : Result InfrastructureError (option IoOwner) :=
  match operation with
  | InfraAcquireIoFd _ _ epoch =>
      let? boot := map_err IxJournal (current_boot_id w) in
      let? ticks := map_err IxJournal (process_start_ticks (caller_pid request) w) in
      Ok (Some (mkIoOwner (caller_instance_id request) (caller_pid request) epoch boot ticks))
  | _ => Ok None
  end.

(** What the checks before the worker decide: a reply, or a call. *)
Inductive Routing : Type :=
| Answer (result : ProcessResult)
| Forward (call : Call).

Definition admit_owner (worker : Worker) (domain : list Z) (request : Request)
    (owner : option IoOwner) (m : MultiDomainService) : Result InfrastructureError unit :=
  match owner with
  | None => Ok tt
  | Some owner =>
      check? validate_io_binding (io_bindings (shared m)) domain owner (host_world m) in
      let? namespace := map_err IxJournal (process_namespace (caller_pid request) (host_world m)) in
      if negb (namespace.1 =? id_netns_device (w_identity worker))
         || negb (namespace.2 =? id_netns_inode (w_identity worker))
      then Err (IxRejected "domain_io_namespace_conflict") else Ok tt
  end.

Definition route_scoped (front : option nat) (request : Request) (peer : PeerCredentials)
    (now : Z) (domain infra : list Z) (operation : Operation) (m : MultiDomainService)
  : Result InfrastructureError Call :=
  let? found := ok_or (find_worker domain (workers m)) (IxRejected "domain_unknown") in
  let '(k, worker) := found in
  check? refuse_identity (foreign_infra (w_identity worker) infra) in
  check? scope_operation (w_identity worker) operation in
  let? owner := requested_owner request operation (host_world m) in
  check? admit_owner worker domain request owner m in
  Ok (mkCall k (mkInfraRequest (infra_request_id request) (caller_instance_id request)
                  (caller_pid request) operation) peer now owner front).

Definition route (front : option nat) (request : Request) (peer : PeerCredentials) (now : Z)
    (m : MultiDomainService) : Routing :=
  if negb (is_ok (Request_validate request)) then Answer (Err (IxRejected "invalid_request"))
  else if negb (peer_uid peer =? multi_allowed_uid m) || negb (peer_gid peer =? multi_allowed_gid m)
          || negb (peer_pid peer =? caller_pid request)
  then Answer (Err (IxRejected "unauthorized_peer"))
  else
    match infra_operation request with
    | Capabilities => Answer (Ok (BCapabilities 2 true true, None))
    | InDomain domain infra operation =>
        match route_scoped front request peer now domain infra operation m with
        | Ok call => Forward call
        | Err error => Answer (Err error)
        end
    | _ => Answer (Err (IxRejected "domain_scope_required"))
    end.


(** The response that [serve_once] and [serve_admitted] send. *)
Definition domain_error_code (error : InfrastructureError) : string :=
  match error with
  | IxRejected code => code
  | IxResourceBudget _ _ _ => "domain_resource_budget_exceeded"
  | _ => "domain_system_failure"
  end.
Definition domain_reply (result : ProcessResult) : Body * option Z :=
  match result with
  | Ok reply => reply
  | Err error => (BError (bytes_of (domain_error_code error)), None)
  end.

(** The permit a front client passes to [process_admitted]. *)
Definition admitted_permit (front : option nat) : list Release :=
  match front with Some l => [ReturnPermit l] | None => [] end.

Definition do_route (i : nat) (front : option nat) (request : Request) (peer : PeerCredentials)
    (now : Z) (m : MultiDomainService) : MultiDomainService :=
  set_client i (match route front request peer now m with
                | Answer result => Leaving front (admitted_permit front) None result
                | Forward call => Routed call
                end) m.

Definition update_worker (k : nat) (f : Worker -> Worker) (m : MultiDomainService)
  : MultiDomainService :=
  match workers m !! k with Some w => set_worker k (f w) m | None => m end.

(** [compare_exchange(false, true)] on the in-flight mark. *)
Definition do_enter (i : nat) (call : Call) (m : MultiDomainService) : MultiDomainService :=
  match workers m !! call_worker call with
  | Some w =>
      if w_inflight w then
        set_client i (Leaving (call_front call) (admitted_permit (call_front call)) None
                        (Err (IxRejected "domain_worker_busy"))) m
      else set_client i (Entered call) (set_worker (call_worker call) (with_inflight true w) m)
  | None => m
  end.

(** The memory of the request is charged to the permit of the front client, or to a new one. *)
Definition charge (call : Call) (bytes : Z) : SharedM nat :=
  match call_front call with
  | Some l => do* resize l (Z.max bytes FRONT_REQUEST_BYTES) in mret l
  | None => reserve bytes
  end.

Definition do_charge (i : nat) (call : Call) (m : MultiDomainService) : MultiDomainService :=
  let k := call_worker call in
  match request_queue_bytes (call_request call) with
  | Err error =>
      set_client i (Leaving (call_front call)
                      (FreeDomain k :: admitted_permit (call_front call)) None (Err error)) m
  | Ok bytes =>
      let '(result, s) := charge call bytes (shared m) in
      set_client i (match result with
                    | Ok l => Charged call l
                    | Err error =>
                        Leaving (call_front call)
                          (admitted_permit (call_front call) ++ [FreeDomain k]) None (Err error)
                    end) (set_shared s m)
  end.

(** How a call ends that holds a permit and the in-flight mark. *)
Definition refused (call : Call) (l : nat) (rollback : option IoRollback)
    (error : InfrastructureError) : Client :=
  Leaving (call_front call) [ReturnPermit l; FreeDomain (call_worker call)] rollback (Err error).

Definition do_draw (i : nat) (call : Call) (l : nat) (m : MultiDomainService)
  : MultiDomainService :=
  match call_owner call with
  | None => set_client i (Bound call l None) m
  | Some owner =>
      let '(result, s) := draw_token (shared m) in
      set_client i (match result with
                    | Ok token => Drawn call l owner token
                    | Err error => refused call l None error
                    end) (set_shared s m)
  end.

Definition do_bind (i : nat) (call : Call) (l : nat) (owner : IoOwner) (token : Z)
    (m : MultiDomainService) : MultiDomainService :=
  match workers m !! call_worker call with
  | Some w =>
      let domain := cfg_domain_id (config (w_identity w)) in
      let '(result, s) := reserve_binding domain owner token (host_world m) (shared m) in
      set_client i (match result with
                    | Ok rollback => Bound call l (Some rollback)
                    | Err error => refused call l None error
                    end) (set_shared s m)
  | None => m
  end.

(** [try_send] on the channel of capacity one. A refused message is dropped field by field. *)
Definition do_send (i : nat) (call : Call) (l : nat) (rollback : option IoRollback)
    (m : MultiDomainService) : MultiDomainService :=
  match workers m !! call_worker call with
  | Some w =>
      match w_queue w with
      | Some _ => set_client i (refused call l rollback (IxRejected "domain_worker_busy")) m
      | None =>
          let message := mkMessage (call_request call) (call_peer call) (call_now call) i l
                           (call_worker call) rollback in
          set_client i (Awaiting (call_front call) rollback)
            (set_worker (call_worker call) (with_queue (Some message) w) m)
      end
  | None => m
  end.

Definition do_release (r : Release) (m : MultiDomainService) : MultiDomainService :=
  match r with
  | FreeDomain k => update_worker k (with_inflight false) m
  | ReturnPermit l => set_shared (drop_permit l (shared m)) m
  end.

Definition is_pending_error (error : InfrastructureError) : bool :=
  match error with
  | IxRejected code => bool_decide (code = "domain_operation_pending")
  | _ => false
  end.

(** The results after which [process_admitted] undoes its reservation. *)
Definition undoes (result : ProcessResult) : bool :=
  match result with Ok _ => false | Err error => negb (is_pending_error error) end.

Definition do_leave (i : nat) (front : option nat) (drops : list Release)
    (rollback : option IoRollback) (result : ProcessResult) (m : MultiDomainService)
  : MultiDomainService :=
  match drops with
  | r :: drops => do_release r (set_client i (Leaving front drops rollback result) m)
  | [] =>
      set_client i (Done front result)
        (if undoes result then set_shared (apply_optional rollback (shared m)) m else m)
  end.

Definition do_finish (i : nat) (front : option nat) (m : MultiDomainService)
  : MultiDomainService :=
  set_client i Gone (set_shared (drop_optional front (shared m)) m).

(** The next section of a client's thread, where the state determines it. *)
Definition advance (i : nat) (c : Client) (m : MultiDomainService) : MultiDomainService :=
  match c with
  | Received front request peer now => do_route i front request peer now m
  | Routed call => do_enter i call m
  | Entered call => do_charge i call m
  | Charged call l => do_draw i call l m
  | Drawn call l owner token => do_bind i call l owner token m
  | Bound call l rollback => do_send i call l rollback m
  | Leaving front drops rollback result => do_leave i front drops rollback result m
  | Done front _ => do_finish i front m
  | Dispatching _ | Queued _ | Picked _ | Awaiting _ _ | Gone => m
  end.

(** [recv_timeout] of a client gives up; the operation goes on. *)
Definition do_timeout (i : nat) (front : option nat) (rollback : option IoRollback)
    (m : MultiDomainService) : MultiDomainService :=
  set_client i (Leaving front [] rollback (Err (IxRejected "domain_operation_pending"))) m.

(** *** The front *)

Definition is_queued (c : Client) : bool := match c with Queued _ => true | _ => false end.

Definition front_of (c : Client) : option nat :=
  match c with
  | Picked l => Some l
  | Received front _ _ _ | Awaiting front _ | Leaving front _ _ _ | Done front _ => front
  | Routed call | Entered call | Charged call _ | Drawn call _ _ _ | Bound call _ _ =>
      call_front call
  | Dispatching _ | Queued _ | Gone => None
  end.
(** A front thread runs this client. *)
Definition is_running (c : Client) : bool := bool_decide (is_Some (front_of c)).

Definition count {A} (f : A -> bool) (l : list A) : Z := Z.of_nat (length (filter (fun a => f a = true) l)).

(** [FrontDispatcher::new] and its drop: one ingress pool per service. *)
Definition attach_front (m : MultiDomainService)
  : Result InfrastructureError unit * MultiDomainService :=
  if front_attached m then (Err (IxRejected "domain_front_already_attached"), m)
  else (Ok tt, set_attached true m).
Definition detach_front (m : MultiDomainService) : MultiDomainService := set_attached false m.

(** [FrontDispatcher::dispatch]: the reservation first. *)
Definition dispatch (m : MultiDomainService)
  : Result InfrastructureError unit * MultiDomainService :=
  match reserve FRONT_REQUEST_BYTES (shared m) with
  | (Ok l, s) => (Ok tt, add_client (Dispatching l) (set_shared s m))
  | (Err error, s) => (Err error, set_shared s m)
  end.

(** The rest of it: the socket is prepared, and the request enters the queue if there is
    room. *)
Definition do_submit (i l : nat) (ready : bool) (m : MultiDomainService) : MultiDomainService :=
  let room := count is_queued (clients m) <? front_control_threads (limits (shared m)) in
  set_client i (if ready && room then Queued l
                else Leaving None [ReturnPermit l] None (Err (IxRejected "domain_front_busy"))) m.

(** The oldest queued request. *)
Fixpoint next_queued (l : list Client) : option (nat * nat) :=
  match l with
  | [] => None
  | Queued permit :: _ => Some (O, permit)
  | _ :: rest => match next_queued rest with
                 | Some (i, permit) => Some (Datatypes.S i, permit)
                 | None => None
                 end
  end.

(** A front thread takes it and clones the permit for the response. *)
Definition do_pick (i l : nat) (m : MultiDomainService) : MultiDomainService :=
  set_client i (Picked l) (set_shared (clone_permit l (shared m)) m).

(** What the front thread reads from the socket. *)
Definition do_receive (i l : nat) (received : option (Request * PeerCredentials * Z))
    (m : MultiDomainService) : MultiDomainService :=
  set_client i (match received with
                | Some (request, peer, now) => Received (Some l) request peer now
                | None => Leaving (Some l) [ReturnPermit l] None (Err (IxJournal IoFailed))
                end) m.

(** *** The workers: [run_domain] *)

Definition set_stage (k : nat) (st : Stage) (m : MultiDomainService) : MultiDomainService :=
  update_worker k (with_stage st) m.

(** The reply reaches a client that still waits for it. *)
Definition answer (message : Message) (result : ProcessResult) (m : MultiDomainService)
  : MultiDomainService :=
  match clients m !! msg_client message with
  | Some (Awaiting front rollback) =>
      set_client (msg_client message) (Leaving front [] rollback result) m
  | _ => m
  end.

Definition process_message (message : Message) (w : Worker) : Worker :=
  let '(result, service) :=
    infra_process (msg_request message) (msg_peer message) (msg_now message) (w_service w) in
  with_stage (Served message result) (with_service service w).

Definition work (k : nat) (now : option Z) (m : MultiDomainService) : MultiDomainService :=
  match workers m !! k with
  | None => m
  | Some w =>
      match w_stage w with
      | Idle =>
          match w_queue w with
          | Some message => set_worker k (with_stage (Serving message) (with_queue None w)) m
          | None => set_stage k Sweeping m
          end
      | Serving message => set_worker k (process_message message w) m
      | Served message result =>
          set_stage k (Rolled message result)
            (if is_ok result then m
             else set_shared (apply_optional (msg_rollback message) (shared m)) m)
      | Rolled message result =>
          set_stage k (Released message result)
            (set_shared (drop_permit (msg_permit message) (shared m)) m)
      | Released message result =>
          set_stage k (Freed message result) (do_release (FreeDomain (msg_domain message)) m)
      | Freed message result => set_stage k Sweeping (answer message result m)
      | Sweeping =>
          let service := match now with
                         | Some now => (recover_expired now (w_service w)).2
                         | None => w_service w
                         end in
          set_worker k (with_stage Idle (with_service service w)) m
      end
  end.
End Router.

Arguments Worker : clear implicits.
Arguments MultiDomainService : clear implicits.
