(* ===== verification/DomainSteps.v ===== *)
(** * Runs of the domain router

    Any thread may take its next section; requests arrive, sockets fail, clients give up
    waiting, and the machine changes, at any time. *)
From stdpp Require Import base tactics list numbers option gmap strings.
From Stdlib Require Import ZArith Lia.
From S2P Require Import Prelude Ipv4 Wire Proto Network Service InfraProto Infra InfraContract.
From S2P Require Import InfraHandlers InfraHistory Domains.

#[local] Open Scope Z_scope.

(** Whether the process of an I/O owner runs. The probe [io_owner_alive] never misses one
    that does; it may report a process that has ended. *)
Class ProcessTable (W : Type) `{!InfraHost W} := {
  runs : IoOwner -> W -> Prop;
  runs_alive : forall o w, runs o w -> io_owner_alive o w = true;
}.

(** The operation inside the domain scope. *)
Definition unscoped (request : Request) : Operation :=
  match infra_operation request with
  | InDomain _ _ operation => operation
  | operation => operation
  end.

(** The drops, messages and rollbacks that threads hold. *)
Definition stage_message (st : Stage) : option Message :=
  match st with
  | Serving message | Served message _ | Rolled message _ | Released message _
  | Freed message _ => Some message
  | Idle | Sweeping => None
  end.

Definition client_rollback (c : Client) : option IoRollback :=
  match c with
  | Bound _ _ rollback | Awaiting _ rollback | Leaving _ _ rollback _ => rollback
  | _ => None
  end.

Section Steps.
Context {W : Type} `{!NetworkBackend W} `{!InfrastructureBackend W} `{!InfraHost W}
  `{!DomainHost W} `{!JournalFormat} `{!Layout} `{!InfraMachine W} `{!ProcessTable W}.

Definition worker_messages (w : Worker W) : list Message :=
  option_list (w_queue w) ++ option_list (stage_message (w_stage w)).

Definition rollbacks (m : MultiDomainService W) : list IoRollback :=
  omap client_rollback (clients m)
  ++ omap msg_rollback (mjoin (map worker_messages (workers m))).

(** The owners that the router has bound or may bind again. *)
Definition known (o : IoOwner) (m : MultiDomainService W) : Prop :=
  (exists d b, io_bindings (shared m) !! d = Some b /\ binding_owner b = o) \/
  (exists rb b, rb ∈ rollbacks m /\ rollback_previous rb = Some b /\ binding_owner b = o).

Definition is_front (c : Client) : bool :=
  is_running c || match c with Dispatching _ | Queued _ => true | _ => false end.

(** One section of one thread ([step_submit] to [step_work]), an arrival, or a change of the
    machine. An owner read from a process names it for ever: if the process has ended, no
    other runs under that identity ([step_host]). *)
Inductive step (m : MultiDomainService W) : MultiDomainService W -> Prop :=
| step_open request peer now :
    typed_operation (unscoped request) ->
    step m (add_client (Received None request peer now) m)
| step_attach : step m (attach_front m).2
| step_detach :
    front_attached m = true -> count is_front (clients m) = 0 -> step m (detach_front m)
| step_dispatch : front_attached m = true -> step m (dispatch m).2
| step_submit i l ready :
    clients m !! i = Some (Dispatching l) -> step m (do_submit i l ready m)
| step_pick i l :
    next_queued (clients m) = Some (i, l) ->
    count is_running (clients m) < front_control_threads (limits (shared m)) ->
    step m (do_pick i l m)
| step_receive i l received :
    clients m !! i = Some (Picked l) ->
    (forall request peer now, received = Some (request, peer, now) ->
       typed_operation (unscoped request)) ->
    step m (do_receive i l received m)
| step_advance i c : clients m !! i = Some c -> step m (advance i c m)
| step_timeout i front rollback :
    clients m !! i = Some (Awaiting front rollback) -> step m (do_timeout i front rollback m)
| step_work k now : step m (work k now m)
| step_host w :
    (forall o, known o m -> runs o w -> runs o (host_world m)) -> step m (set_host w m)
| step_machine k worker w :
    workers m !! k = Some worker -> machine_after (infra_world (w_service worker)) w ->
    step m (set_worker k (with_service (set_world w (w_service worker)) worker) m).

(** The states a router reaches after [new]. *)
Inductive reachable (m0 : MultiDomainService W) : MultiDomainService W -> Prop :=
| reach_start : reachable m0 m0
| reach_step m m' : reachable m0 m -> step m m' -> reachable m0 m'.
End Steps.

(** ** What a routed call is *)

Section Routes.
Context {W : Type} `{!NetworkBackend W} `{!InfrastructureBackend W} `{!InfraHost W}
  `{!DomainHost W} `{!JournalFormat} `{!Layout}.
Implicit Types (m : MultiDomainService W) (w : Worker W).

Definition domain_of w : list Z := cfg_domain_id (config (w_identity w)).

Lemma find_worker_Some domain (l : list (Worker W)) k w :
  find_worker domain l = Some (k, w) -> l !! k = Some w /\ domain_of w = domain.
Proof.
  revert k. induction l as [|w' l IH]; intros k; simpl; [done|].
  case_bool_decide as Hd; [by intros [= <- <-]|].
  destruct (find_worker domain l) as [[k' w'']|]; [|done]. intros [= <- <-]. by apply IH.
Qed.

(** The inner request and everything [process_admitted] has checked of it. *)
Definition routed_call m (front : option nat) (request : Request) (peer : PeerCredentials)
    (now : Z) (call : Call) : Prop :=
  exists domain infra operation w,
    infra_operation request = InDomain domain infra operation /\
    workers m !! call_worker call = Some w /\ domain_of w = domain /\
    cfg_infra_id (config (w_identity w)) = infra /\
    scope_operation (w_identity w) operation = Ok tt /\
    requested_owner request operation (host_world m) = Ok (call_owner call) /\
    call = mkCall (call_worker call)
             (mkInfraRequest (infra_request_id request) (caller_instance_id request)
                (caller_pid request) operation) peer now (call_owner call) front.

Lemma route_Forward front request peer now m call :
  route front request peer now m = Forward call -> routed_call m front request peer now call.
Proof.
  unfold route. do 2 (case_match; [done|]).
  destruct (infra_operation request) as [|domain infra operation| | | | | | | | | | | | | | |] eqn:Hop; try done.
  destruct (route_scoped _ _ _ _ _ _ _ _) as [c|] eqn:Hr; [|done]. intros [= ->].
  unfold route_scoped in Hr.
  apply result_bind_Ok in Hr as ([k w] & Hw & Hr). unfold ok_or in Hw.
  destruct (find_worker domain (workers m)) as [[k' w']|] eqn:Hfind; [|done].
  injection Hw as -> ->. apply find_worker_Some in Hfind as [Hk Hd].
  apply result_bind_Ok in Hr as ([] & Hinfra & Hr). apply result_bind_Ok in Hr as ([] & Hscope & Hr).
  apply result_bind_Ok in Hr as (owner & Howner & Hr). apply result_bind_Ok in Hr as ([] & _ & Hr).
  injection Hr as <-. exists domain, infra, operation, w. split_and!; try done.
  unfold refuse_identity, foreign_infra in Hinfra. by case_bool_decide.
Qed.
End Routes.
