(* ===== verification/DomainLedger.v ===== *)
(** * The ledgers of the domain router

    Every permit and every in-flight mark is held by exactly the threads that will drop it:
    [held] counts the holders among clients and workers, [ledger] is what the shared state
    records. They agree in every reachable state, which gives the budget its meaning. *)
From stdpp Require Import base tactics list numbers option gmap strings.
From Stdlib Require Import ZArith Lia.
From S2P Require Import Prelude Ipv4 Wire Proto Network Service InfraProto Infra InfraContract.
From S2P Require Import InfraHandlers InfraHistory Domains DomainSteps.

#[local] Open Scope Z_scope.

(** ** Sums *)

Fixpoint zsum {A} (f : A -> Z) (l : list A) : Z :=
  match l with [] => 0 | a :: l => f a + zsum f l end.

Lemma zsum_app {A} (f : A -> Z) l1 l2 : zsum f (l1 ++ l2) = zsum f l1 + zsum f l2.
Proof. induction l1 as [|a l1 IH]; simpl; lia. Qed.

Lemma zsum_insert {A} (f : A -> Z) l i x y :
  l !! i = Some x -> zsum f (<[i := y]> l) = zsum f l - f x + f y.
Proof.
  revert i. induction l as [|a l IH]; intros [|i] Hl; simplify_eq/=; [lia|].
  specialize (IH i Hl). lia.
Qed.

Lemma zsum_nonneg {A} (f : A -> Z) l : (forall a, 0 <= f a) -> 0 <= zsum f l.
Proof. intros Hf. induction l as [|a l IH]; simpl; [lia|]. specialize (Hf a). lia. Qed.

Lemma zsum_lookup {A} (f : A -> Z) l i x :
  (forall a, 0 <= f a) -> l !! i = Some x -> f x <= zsum f l.
Proof.
  intros Hf. revert i. induction l as [|a l IH]; intros [|i] Hl; simplify_eq/=.
  - pose proof (zsum_nonneg f l Hf). lia.
  - specialize (IH i Hl). specialize (Hf a). lia.
Qed.

Lemma zsum_lookup_two {A} (f : A -> Z) l i j x y :
  (forall a, 0 <= f a) -> i <> j -> l !! i = Some x -> l !! j = Some y -> f x + f y <= zsum f l.
Proof.
  intros Hf. revert i j. induction l as [|a l IH]; intros [|i] [|j] Hij Hi Hj; simplify_eq/=.
  - pose proof (zsum_lookup f l j y Hf Hj). lia.
  - pose proof (zsum_lookup f l i x Hf Hi). lia.
  - specialize (IH i j ltac:(congruence) Hi Hj). specialize (Hf a). lia.
Qed.

Lemma zsum_zero {A} (f : A -> Z) l : Forall (fun a => f a = 0) l -> zsum f l = 0.
Proof. induction 1; simpl; lia. Qed.

(** ** Who holds what *)

Section Counting.
Context {R : Type} `{!EqDecision R}.
Implicit Types (r : R).

Definition one (r r' : R) : Z := if decide (r = r') then 1 else 0.
Definition occurrences (r : R) (l : list R) : Z := zsum (one r) l.

Lemma one_nonneg r r' : 0 <= one r r'.
Proof. unfold one. destruct (decide _); lia. Qed.
Lemma one_same r : one r r = 1.
Proof. unfold one. by rewrite decide_True. Qed.
Lemma occurrences_nonneg r l : 0 <= occurrences r l.
Proof. apply zsum_nonneg, one_nonneg. Qed.
Lemma occurrences_app r l1 l2 : occurrences r (l1 ++ l2) = occurrences r l1 + occurrences r l2.
Proof. apply zsum_app. Qed.

Lemma sum_nonneg {A} r (t : A -> list R) l : 0 <= zsum (fun a => occurrences r (t a)) l.
Proof. apply zsum_nonneg. intros a. apply occurrences_nonneg. Qed.
Lemma sum_lookup {A} r (t : A -> list R) l i x :
  l !! i = Some x -> occurrences r (t x) <= zsum (fun a => occurrences r (t a)) l.
Proof. apply (zsum_lookup (fun a => occurrences r (t a))). intros a. apply occurrences_nonneg. Qed.
Lemma sum_lookup_two {A} r (t : A -> list R) l i j x y :
  i <> j -> l !! i = Some x -> l !! j = Some y ->
  occurrences r (t x) + occurrences r (t y) <= zsum (fun a => occurrences r (t a)) l.
Proof. apply (zsum_lookup_two (fun a => occurrences r (t a))). intros a. apply occurrences_nonneg. Qed.
End Counting.

#[export] Hint Resolve one_nonneg occurrences_nonneg : core.

(** The tokens a client's thread will drop: its permits and an in-flight mark. *)
Definition client_tokens (c : Client) : list Release :=
  let front := admitted_permit in
  match c with
  | Dispatching l | Queued l => [ReturnPermit l]
  | Picked l => [ReturnPermit l; ReturnPermit l]
  | Received f _ _ _ => front f ++ front f
  | Routed call => front (call_front call) ++ front (call_front call)
  | Entered call =>
      FreeDomain (call_worker call) :: front (call_front call) ++ front (call_front call)
  | Charged call l | Drawn call l _ _ | Bound call l _ =>
      FreeDomain (call_worker call) :: ReturnPermit l :: front (call_front call)
  | Awaiting f _ => front f
  | Leaving f drops _ _ => drops ++ front f
  | Done f _ => front f
  | Gone => []
  end.

Definition message_tokens (message : Message) : list Release :=
  [FreeDomain (msg_domain message); ReturnPermit (msg_permit message)].

Definition stage_tokens (st : Stage) : list Release :=
  match st with
  | Serving message | Served message _ | Rolled message _ => message_tokens message
  | Released message _ => [FreeDomain (msg_domain message)]
  | Freed _ _ | Idle | Sweeping => []
  end.

(** What of a lease counts against the budget. *)
Definition live_lease (lease : ControlLease) : Z := if 0 <? lease_holders lease then 1 else 0.
Definition live_bytes (lease : ControlLease) : Z :=
  if 0 <? lease_holders lease then lease_bytes lease else 0.

(** The pending totals are those of the leases somebody holds, and within the budget. *)
Definition balanced (s : Shared) : Prop :=
  pending_requests (pending s) = zsum live_lease (leases s) /\
  pending_bytes (pending s) = zsum live_bytes (leases s) /\
  Forall (fun lease => 0 <= lease_bytes lease /\ 0 <= lease_holders lease) (leases s) /\
  pending_requests (pending s) <= max_pending_control_requests (limits s) /\
  pending_bytes (pending s) <= max_pending_control_bytes (limits s).

Definition holders (s : Shared) (l : nat) : Z :=
  match leases s !! l with Some lease => lease_holders lease | None => 0 end.

Lemma balanced_free s :
  balanced s -> (forall l, holders s l = 0) -> pending s = mkPending 0 0.
Proof.
  intros (Hreq & Hbytes & _ & _ & _) Hz.
  assert (Hdead : Forall (fun lease => lease_holders lease = 0) (leases s)).
  { apply Forall_lookup_2. intros l lease Hl. specialize (Hz l). unfold holders in Hz. by rewrite Hl in Hz. }
  assert (zsum live_lease (leases s) = 0 /\ zsum live_bytes (leases s) = 0) as [E1 E2].
  { clear -Hdead. induction Hdead as [|lease l Hl _ IH]; [done|]. simpl.
    unfold live_lease at 1, live_bytes at 1. rewrite Hl. simpl. lia. }
  destruct (pending s) as [requests bytes]. simpl in *. f_equal; lia.
Qed.

Lemma balanced_nonneg s : balanced s -> 0 <= pending_requests (pending s) /\ 0 <= pending_bytes (pending s).
Proof.
  intros (-> & -> & Hall & _ & _). induction Hall as [|lease l Hl _ IH]; simpl; [lia|].
  unfold live_lease at 1, live_bytes at 1. case_match; lia.
Qed.

(** The rest of the shared state. *)
Definition same_rest (s s' : Shared) : Prop :=
  limits s' = limits s /\ io_bindings s' = io_bindings s /\
  next_binding_token s' = next_binding_token s.

Lemma budget_Ok resource required allowed u :
  budget resource required allowed = Ok u -> required <= allowed.
Proof. unfold budget. destruct (Z.ltb_spec allowed required); [done|intros; lia]. Qed.

Section Operations.
Context `{!Layout}.

Lemma usize_Some v x : usize v = Some x -> x = v /\ 0 <= v < 2 ^ usize_bits.
Proof.
  unfold usize. destruct (Z.leb_spec 0 v), (Z.ltb_spec v (2 ^ usize_bits)); simpl; try done.
  by intros [= <-].
Qed.

(** A section that refuses leaves the shared state as it is. *)
Lemma reserve_spec bytes s r s' :
  reserve bytes s = (r, s') -> 0 <= bytes -> balanced s ->
  match r with
  | Ok l => l = length (leases s) /\ leases s' = leases s ++ [mkLease bytes 1] /\
            same_rest s s' /\ balanced s'
  | Err _ => s' = s
  end.
Proof.
  unfold reserve, gets, modify, in_range_of, lift, mbind, mret. simpl. intros Hr Hb Hs.
  destruct (checked_add _ 1) as [n|] eqn:Hn; simpl in Hr; [|by simplify_eq].
  destruct (checked_add _ bytes) as [v|] eqn:Hv; simpl in Hr; [|by simplify_eq].
  apply usize_Some in Hn as [-> _]. apply usize_Some in Hv as [-> _].
  destruct (budget _ _ _) as [[]|] eqn:H1 in Hr; simpl in Hr; [|by simplify_eq].
  destruct (budget _ _ _) as [[]|] eqn:H2 in Hr; simpl in Hr; [|by simplify_eq].
  apply budget_Ok in H1. apply budget_Ok in H2. simplify_eq. simpl.
  destruct Hs as (Hreq & Hbytes & Hall & _ & _). split_and!; [done|done|done|].
  unfold balanced. simpl. rewrite !zsum_app. unfold live_lease at 2, live_bytes at 2. simpl.
  split_and!; [lia|lia| |lia|lia]. apply Forall_app_2; [done|]. constructor; [simpl; lia|done].
Qed.

Lemma reserve_same bytes s r s' :
  reserve bytes s = (r, s') -> same_rest s s' /\ match r with Ok _ => True | Err _ => s' = s end.
Proof.
  unfold reserve, gets, modify, in_range_of, lift, mbind, mret. simpl. intros Hr.
  repeat (case_match; simplify_eq/=; try done).
Qed.

Lemma holders_lookup s l :
  0 < holders s l -> exists lease, leases s !! l = Some lease /\ 0 < lease_holders lease.
Proof. unfold holders. destruct (leases s !! l) as [lease|]; [eauto|lia]. Qed.

Lemma get_lease_lookup s l lease : leases s !! l = Some lease -> get_lease l s = lease.
Proof. unfold get_lease. by intros ->. Qed.

Lemma resize_spec l bytes s r s' :
  resize l bytes s = (r, s') -> 0 <= bytes -> 0 < holders s l -> balanced s ->
  match r with
  | Ok _ => (forall l', holders s' l' = holders s l') /\ same_rest s s' /\ balanced s'
  | Err _ => s' = s
  end.
Proof.
  unfold resize, gets, modify, in_range_of, lift, mbind, mret. simpl. intros Hr Hb Hl Hs.
  apply holders_lookup in Hl as (lease & Hl & Hh). rewrite (get_lease_lookup _ _ _ Hl) in Hr.
  destruct (checked_sub _ _) as [n|] eqn:Hn; simpl in Hr; [|by simplify_eq].
  destruct (checked_add _ _) as [v|] eqn:Hv; simpl in Hr; [|by simplify_eq].
  apply usize_Some in Hn as [-> _]. apply usize_Some in Hv as [-> _].
  destruct (budget _ _ _) as [[]|] eqn:H2 in Hr; simpl in Hr; [|by simplify_eq].
  apply budget_Ok in H2. simplify_eq. simpl.
  destruct Hs as (Hreq & Hbytes & Hall & Hlim & _). split_and!.
  - intros l'. unfold holders. simpl. destruct (decide (l = l')) as [<-|].
    + rewrite list_lookup_insert_eq by (by eapply lookup_lt_Some). by rewrite Hl.
    + by rewrite list_lookup_insert_ne.
  - done.
  - assert ((0 <? lease_holders lease) = true) as Hlt by lia.
    unfold balanced. simpl. rewrite !(zsum_insert _ _ _ _ _ Hl).
    unfold live_lease at 2 3, live_bytes at 2 3. simpl. rewrite Hlt. simpl.
    split_and!; [lia|lia| |lia|lia]. apply Forall_insert; [done|]. simpl. lia.
Qed.

Lemma put_holders s l lease n :
  leases s !! l = Some lease -> forall l',
  holders (put_lease l (mkLease (lease_bytes lease) n) s) l'
  = if decide (l = l') then n else holders s l'.
Proof.
  intros Hl l'. unfold holders. simpl. destruct (decide (l = l')) as [<-|].
  - by rewrite list_lookup_insert_eq by (by eapply lookup_lt_Some).
  - by rewrite list_lookup_insert_ne.
Qed.

Lemma clone_spec l s :
  0 < holders s l -> balanced s ->
  (forall l', holders (clone_permit l s) l' = holders s l' + one (ReturnPermit l') (ReturnPermit l))
  /\ same_rest s (clone_permit l s) /\ balanced (clone_permit l s).
Proof.
  intros Hh (Hreq & Hbytes & Hall & Hlim & Hlim'). apply holders_lookup in Hh as (lease & Hl & Hh).
  unfold clone_permit. rewrite (get_lease_lookup _ _ _ Hl). split_and!.
  - intros l'. rewrite (put_holders _ _ _ _ Hl). unfold one.
    destruct (decide (l = l')) as [->|]; [|rewrite decide_False by congruence; lia].
    rewrite decide_True by done. unfold holders. by rewrite Hl.
  - done.
  - assert ((0 <? lease_holders lease) = true) as Hlt by lia.
    assert ((0 <? lease_holders lease + 1) = true) as Hlt' by lia.
    unfold balanced. simpl. rewrite !(zsum_insert _ _ _ _ _ Hl).
    unfold live_lease at 2 3, live_bytes at 2 3. simpl. rewrite Hlt, Hlt'. simpl.
    split_and!; [lia|lia| |lia|lia]. apply Forall_insert; [done|]. simpl.
    apply (Forall_lookup_1 _ _ _ _ Hall) in Hl. lia.
Qed.

Lemma drop_spec l s :
  0 < holders s l -> balanced s ->
  (forall l', holders (drop_permit l s) l' = holders s l' - one (ReturnPermit l') (ReturnPermit l))
  /\ same_rest s (drop_permit l s) /\ balanced (drop_permit l s).
Proof.
  intros Hh (Hreq & Hbytes & Hall & Hlim & Hlim'). apply holders_lookup in Hh as (lease & Hl & Hh).
  pose proof (Forall_lookup_1 _ _ _ _ Hall Hl) as [Hb _].
  assert ((0 <? lease_holders lease) = true) as Hlt by lia.
  unfold drop_permit. cbv zeta. rewrite (get_lease_lookup _ _ _ Hl). split_and!.
  - intros l'. transitivity (holders (put_lease l (mkLease (lease_bytes lease)
      (lease_holders lease - 1)) s) l'); [by destruct (_ =? 1)|].
    rewrite (put_holders _ _ _ _ Hl). unfold one. destruct (decide (l = l')) as [->|].
    + rewrite decide_True by done. unfold holders. by rewrite Hl.
    + rewrite decide_False by congruence. lia.
  - by destruct (_ =? 1).
  - assert (Hall' : Forall (fun lease => 0 <= lease_bytes lease /\ 0 <= lease_holders lease)
      (<[l := mkLease (lease_bytes lease) (lease_holders lease - 1)]> (leases s)))
      by (apply Forall_insert; [done|simpl; lia]).
    unfold balanced. destruct (Z.eqb_spec (lease_holders lease) 1) as [E|E]; simpl;
      rewrite !(zsum_insert _ _ _ _ _ Hl); unfold live_lease at 2 3, live_bytes at 2 3; simpl;
      rewrite Hlt.
    + rewrite E in Hall' |- *. simpl in *. split_and!; [lia|lia|done|lia|lia].
    + assert ((0 <? lease_holders lease - 1) = true) as -> by lia.
      split_and!; [lia|lia|done|lia|lia].
Qed.
Lemma holders_push s s' bytes l :
  leases s' = leases s ++ [mkLease bytes 1] ->
  holders s' l = holders s l + one (ReturnPermit l) (ReturnPermit (length (leases s))).
Proof.
  intros Hl. unfold holders, one. rewrite Hl. destruct (decide (l = length (leases s))) as [->|Hne].
  - rewrite decide_True by done. rewrite lookup_app_r, Nat.sub_diag by lia. simpl.
    rewrite lookup_ge_None_2 by lia. done.
  - rewrite decide_False by congruence. destruct (decide (l < length (leases s))%nat).
    + rewrite lookup_app_l by done. lia.
    + rewrite !lookup_ge_None_2; [done| |rewrite length_app; simpl]; lia.
Qed.

Lemma request_queue_bytes_nonneg request bytes :
  request_queue_bytes request = Ok bytes -> 0 <= bytes.
Proof.
  unfold request_queue_bytes. cbv zeta. intros Hq.
  apply result_bind_Ok in Hq as (h1 & _ & Hq). apply result_bind_Ok in Hq as (h2 & _ & Hq).
  unfold ok_or in Hq. destruct (checked_add _ _) as [v|] eqn:Hv; [|done].
  apply usize_Some in Hv as [-> Hv]. injection Hq as <-. lia.
Qed.

End Operations.

(** ** Counting over all threads *)

Section Holding.
Context {W : Type} `{!NetworkBackend W} `{!InfrastructureBackend W} `{!InfraHost W}.
Context {R : Type} `{!EqDecision R}.
Variables (ct : Client -> list R) (wt : Worker W -> list R).
Implicit Types (m : MultiDomainService W) (w : Worker W) (r : R).

(** How many threads hold [r], by what clients and workers hold. *)
Definition holding (r : R) m : Z :=
  zsum (fun c => occurrences r (ct c)) (clients m) + zsum (fun w => occurrences r (wt w)) (workers m).

Lemma holding_set_client r m i c c' :
  clients m !! i = Some c ->
  holding r (set_client i c' m) = holding r m - occurrences r (ct c) + occurrences r (ct c').
Proof. intros Hc. unfold holding. simpl. rewrite (zsum_insert _ _ _ _ _ Hc). lia. Qed.

Lemma holding_add_client r m c : holding r (add_client c m) = holding r m + occurrences r (ct c).
Proof. unfold holding. simpl. rewrite zsum_app. simpl. lia. Qed.

Lemma holding_set_worker r m k w w' :
  workers m !! k = Some w ->
  holding r (set_worker k w' m) = holding r m - occurrences r (wt w) + occurrences r (wt w').
Proof. intros Hw. unfold holding. simpl. rewrite (zsum_insert _ _ _ _ _ Hw). lia. Qed.

Lemma holding_set_shared r m s : holding r (set_shared s m) = holding r m.
Proof. done. Qed.

Lemma holding_nonneg r m : 0 <= holding r m.
Proof.
  unfold holding. pose proof (sum_nonneg r ct (clients m)). pose proof (sum_nonneg r wt (workers m)). lia.
Qed.

Lemma holding_client_worker r m i c k w :
  clients m !! i = Some c -> workers m !! k = Some w ->
  occurrences r (ct c) + occurrences r (wt w) <= holding r m.
Proof.
  intros Hc Hw. unfold holding.
  pose proof (sum_lookup r ct _ _ _ Hc). pose proof (sum_lookup r wt _ _ _ Hw). lia.
Qed.

Lemma holding_two_clients r m i j c c' :
  i <> j -> clients m !! i = Some c -> clients m !! j = Some c' ->
  occurrences r (ct c) + occurrences r (ct c') <= holding r m.
Proof.
  intros Hij Hc Hc'. unfold holding. pose proof (sum_lookup_two r ct _ _ _ _ _ Hij Hc Hc').
  pose proof (sum_nonneg r wt (workers m)). lia.
Qed.

Lemma holding_two_workers r m i j w w' :
  i <> j -> workers m !! i = Some w -> workers m !! j = Some w' ->
  occurrences r (wt w) + occurrences r (wt w') <= holding r m.
Proof.
  intros Hij Hw Hw'. unfold holding. pose proof (sum_lookup_two r wt _ _ _ _ _ Hij Hw Hw').
  pose proof (sum_nonneg r ct (clients m)). lia.
Qed.

Lemma holding_client r m i c : clients m !! i = Some c -> occurrences r (ct c) <= holding r m.
Proof.
  intros Hc. unfold holding. pose proof (sum_lookup r ct _ _ _ Hc).
  pose proof (sum_nonneg r wt (workers m)). lia.
Qed.

Lemma holding_worker r m k w : workers m !! k = Some w -> occurrences r (wt w) <= holding r m.
Proof.
  intros Hw. unfold holding. pose proof (sum_lookup r wt _ _ _ Hw).
  pose proof (sum_nonneg r ct (clients m)). lia.
Qed.
End Holding.

Section Ledger.
Context {W : Type} `{!NetworkBackend W} `{!InfrastructureBackend W} `{!InfraHost W}
  `{!DomainHost W} `{!JournalFormat} `{!Layout} `{!InfraMachine W} `{!ProcessTable W}.
Implicit Types (m : MultiDomainService W) (w : Worker W).

Definition worker_tokens w : list Release :=
  match w_queue w with Some message => message_tokens message | None => [] end
  ++ stage_tokens (w_stage w).

(** How many threads hold a permit or an in-flight mark. *)
Abbreviation held := (holding client_tokens worker_tokens).

Definition busy w : Z := if w_inflight w then 1 else 0.

(** How many the shared state says there are. *)
Definition ledger (r : Release) m : Z :=
  match r with
  | ReturnPermit l => holders (shared m) l
  | FreeDomain k => match workers m !! k with Some w => busy w | None => 0 end
  end.

Definition accounted m : Prop := (forall r, held r m = ledger r m) /\ balanced (shared m).

Lemma ledger_set_client r m i c : ledger r (set_client i c m) = ledger r m.
Proof. done. Qed.
Lemma ledger_add_client r m c : ledger r (add_client c m) = ledger r m.
Proof. done. Qed.

Lemma ledger_set_worker r m k w w' :
  workers m !! k = Some w ->
  ledger r (set_worker k w' m) = ledger r m + (busy w' - busy w) * one r (FreeDomain k).
Proof.
  intros Hw. destruct r as [k'|l]; simpl; [|unfold one; rewrite decide_False by done; lia].
  unfold one. destruct (decide (k = k')) as [->|].
  - rewrite list_lookup_insert_eq by (by eapply lookup_lt_Some). rewrite Hw, decide_True by done. lia.
  - rewrite list_lookup_insert_ne by done. rewrite decide_False by congruence. lia.
Qed.

(** A new shared state that differs in one permit. *)
Lemma ledger_set_shared r m s l d :
  (forall l', holders s l' = holders (shared m) l' + d * one (ReturnPermit l') (ReturnPermit l)) ->
  ledger r (set_shared s m) = ledger r m + d * one r (ReturnPermit l).
Proof.
  intros Hs. destruct r as [k|l']; simpl; [|apply Hs].
  unfold one. rewrite decide_False by done. lia.
Qed.

(** The in-flight mark is one: nobody holds it twice. *)
Lemma mark_held_once k m : accounted m -> held (FreeDomain k) m <= 1.
Proof.
  intros [Hh _]. rewrite Hh. simpl. destruct (workers m !! k) as [w|]; [|lia].
  unfold busy. destruct (w_inflight w); lia.
Qed.

Lemma mark_held k m :
  accounted m -> 0 < held (FreeDomain k) m ->
  exists w, workers m !! k = Some w /\ w_inflight w = true.
Proof.
  intros [Hh _]. rewrite Hh. simpl. destruct (workers m !! k) as [w|]; [|lia].
  unfold busy. destruct (w_inflight w) eqn:E; [by exists w|lia].
Qed.

Lemma permit_held l m : accounted m -> 0 < held (ReturnPermit l) m -> 0 < holders (shared m) l.
Proof. intros [Hh _]. by rewrite Hh. Qed.

(** ** Every section keeps the ledger *)

Lemma accounted_change m m' :
  accounted m -> (forall r, held r m' - held r m = ledger r m' - ledger r m) ->
  balanced (shared m') -> accounted m'.
Proof. intros [Hh _] Hd Hb. split; [|done]. intros r. specialize (Hd r). rewrite Hh in Hd. lia. Qed.

(** Counts both sides of [accounted_change]. *)
Ltac tally :=
  intros ?; rewrite ?ledger_set_client, ?ledger_add_client;
  unfold occurrences; simpl; rewrite ?zsum_app; simpl; lia.

Lemma accounted_set_client m i c c' :
  accounted m -> clients m !! i = Some c ->
  (forall r, occurrences r (client_tokens c') = occurrences r (client_tokens c)) ->
  accounted (set_client i c' m).
Proof.
  intros Hm Hc Ht. apply (accounted_change m); [done| |apply Hm].
  intros r. rewrite (holding_set_client _ _ _ _ _ _ _ Hc), ledger_set_client, Ht. lia.
Qed.

Lemma accounted_set_worker m k w w' :
  accounted m -> workers m !! k = Some w -> w_inflight w' = w_inflight w ->
  (forall r, occurrences r (worker_tokens w') = occurrences r (worker_tokens w)) ->
  accounted (set_worker k w' m).
Proof.
  intros Hm Hw Hi Ht. apply (accounted_change m); [done| |apply Hm].
  intros r. rewrite (holding_set_worker _ _ _ _ _ _ _ Hw), (ledger_set_worker _ _ _ _ _ Hw), Ht.
  unfold busy. rewrite Hi. lia.
Qed.

(** A change of the shared state that no permit is concerned in. *)
Lemma accounted_set_shared m s :
  accounted m -> leases s = leases (shared m) -> pending s = pending (shared m) ->
  limits s = limits (shared m) -> accounted (set_shared s m).
Proof.
  intros Hm Hl Hp Hli. apply (accounted_change m); [done| |].
  - intros r. rewrite holding_set_shared. destruct r as [k|l]; simpl; [lia|]. unfold holders. rewrite Hl. lia.
  - destruct Hm as [_ Hb]. unfold balanced in *. simpl. by rewrite Hl, Hp, Hli.
Qed.

Ltac unfold_tokens := unfold occurrences; simpl; rewrite ?zsum_app; simpl.

Lemma accounted_route m i front request peer now :
  accounted m -> clients m !! i = Some (Received front request peer now) ->
  accounted (do_route i front request peer now m).
Proof.
  intros Hm Hc. unfold do_route. apply (accounted_set_client _ _ _ _ Hm Hc). intros r.
  destruct (route _ _ _ _ _) as [result|call] eqn:Hr; [done|].
  apply route_Forward in Hr as (? & ? & ? & ? & _ & _ & _ & _ & _ & _ & ->). done.
Qed.

Lemma accounted_enter m i call :
  accounted m -> clients m !! i = Some (Routed call) -> accounted (do_enter i call m).
Proof.
  intros Hm Hc. unfold do_enter. destruct (workers m !! call_worker call) as [w|] eqn:Hw; [|done].
  destruct (w_inflight w) eqn:Hi; [by apply (accounted_set_client _ _ _ _ Hm Hc)|].
  apply (accounted_change m); [done| |apply Hm]. intros r. rewrite ledger_set_client.
  rewrite (holding_set_client _ _ _ (set_worker _ _ m) _ _ _ Hc), (holding_set_worker _ _ _ _ _ _ _ Hw),
    (ledger_set_worker _ _ _ _ _ Hw).
  unfold busy. rewrite Hi. unfold worker_tokens. unfold_tokens. lia.
Qed.

(** A section that changes a client and the shared state. *)
Lemma accounted_both m i c c' s :
  accounted m -> clients m !! i = Some c -> balanced s ->
  (forall l, occurrences (ReturnPermit l) (client_tokens c') - occurrences (ReturnPermit l) (client_tokens c)
             = holders s l - holders (shared m) l) ->
  (forall k, occurrences (FreeDomain k) (client_tokens c') = occurrences (FreeDomain k) (client_tokens c)) ->
  accounted (set_client i c' (set_shared s m)).
Proof.
  intros Hm Hc Hs Hl Hk. apply (accounted_change m); [done| |done]. intros r.
  rewrite ledger_set_client, (holding_set_client _ _ _ (set_shared s m) _ _ _ Hc), holding_set_shared.
  destruct r as [k|l]; simpl; [rewrite Hk; lia|]. specialize (Hl l). lia.
Qed.

Lemma accounted_charge m i call :
  accounted m -> clients m !! i = Some (Entered call) -> accounted (do_charge i call m).
Proof.
  intros Hm Hc. unfold do_charge. cbv zeta.
  destruct (request_queue_bytes (call_request call)) as [bytes|error] eqn:Hbytes;
    [|apply (accounted_set_client _ _ _ _ Hm Hc); intros r; unfold_tokens; lia].
  apply request_queue_bytes_nonneg in Hbytes. pose proof Hm as [_ Hb].
  destruct (charge call bytes (shared m)) as [result s] eqn:Hs. unfold charge in Hs.
  destruct (call_front call) as [l|] eqn:Hf.
  - unfold mbind, mret in Hs. destruct (resize _ _ _) as [r s'] eqn:Hr.
    assert (0 < holders (shared m) l).
    { apply permit_held; [done|]. pose proof (holding_client client_tokens worker_tokens (ReturnPermit l) _ _ _ Hc) as Hh.
      revert Hh. unfold client_tokens. rewrite Hf. unfold_tokens. rewrite one_same.
      pose proof (one_nonneg (ReturnPermit l) (FreeDomain (call_worker call))). lia. }
    apply resize_spec in Hr; [|unfold FRONT_REQUEST_BYTES; lia|done|done].
    destruct r as [[]|error]; simplify_eq.
    + destruct Hr as (Hh & _ & Hb').
      apply (accounted_both _ _ _ _ _ Hm Hc Hb'); intros; unfold client_tokens; rewrite Hf;
        unfold_tokens; rewrite ?Hh; lia.
    + apply (accounted_both _ _ _ _ _ Hm Hc Hb); intros; unfold client_tokens; rewrite Hf;
        unfold_tokens; lia.
  - apply reserve_spec in Hs; [|done|done]. destruct result as [l|error].
    + destruct Hs as (-> & Hl & _ & Hb').
      apply (accounted_both _ _ _ _ _ Hm Hc Hb'); intros; unfold client_tokens; rewrite Hf;
        unfold_tokens; [rewrite (holders_push _ _ _ _ Hl)|]; unfold one; simpl; lia.
    + subst s. apply (accounted_both _ _ _ _ _ Hm Hc Hb); intros; unfold client_tokens; rewrite Hf;
        unfold_tokens; lia.
Qed.

(** Client sections that refuse: the mark and the permit are now among the drops. *)
Lemma refused_tokens r call l rollback error :
  occurrences r (client_tokens (refused call l rollback error))
  = occurrences r (client_tokens (Bound call l rollback)).
Proof. unfold_tokens. lia. Qed.

Lemma draw_token_shared s r s' :
  draw_token s = (r, s') ->
  s' = s \/ s' = set_token (next_binding_token s + 1) s.
Proof.
  unfold draw_token, gets, modify, deny, mfail, mbind, mret. simpl.
  destruct (_ <=? _); intros [= _ <-]; auto.
Qed.

Lemma reserve_binding_shared domain owner token (w : W) s r s' :
  reserve_binding domain owner token w s = (r, s') ->
  match r with
  | Ok rollback =>
      validate_io_binding (io_bindings s) domain owner w = Ok tt /\
      rollback = mkRollback domain token (io_bindings s !! domain) /\
      s' = set_bindings (<[domain := mkBinding owner token]> (io_bindings s)) s
  | Err _ => s' = s
  end.
Proof.
  unfold reserve_binding, gets, modify, lift, mbind, mret. simpl.
  destruct (validate_io_binding _ _ _ _) as [[]|error] eqn:Hv; simpl; by intros [= <- <-].
Qed.

Lemma apply_rollback_rest rollback s :
  leases (apply_rollback rollback s) = leases s /\ pending (apply_rollback rollback s) = pending s /\
  limits (apply_rollback rollback s) = limits s /\
  next_binding_token (apply_rollback rollback s) = next_binding_token s.
Proof. unfold apply_rollback. repeat case_match; done. Qed.

Lemma apply_optional_rest rollback s :
  leases (apply_optional rollback s) = leases s /\ pending (apply_optional rollback s) = pending s /\
  limits (apply_optional rollback s) = limits s /\
  next_binding_token (apply_optional rollback s) = next_binding_token s.
Proof. destruct rollback; [apply apply_rollback_rest|done]. Qed.

Lemma accounted_draw m i call l :
  accounted m -> clients m !! i = Some (Charged call l) -> accounted (do_draw i call l m).
Proof.
  intros Hm Hc. unfold do_draw. destruct (call_owner call) as [owner|];
    [|by apply (accounted_set_client _ _ _ _ Hm Hc)].
  destruct (draw_token (shared m)) as [result s] eqn:Hs. apply draw_token_shared in Hs.
  apply (accounted_set_client _ _ (Charged call l)); [|done|destruct result; [done|intros r; apply refused_tokens]].
  destruct Hs as [-> | ->]; by apply accounted_set_shared.
Qed.

Lemma accounted_bind m i call l owner token :
  accounted m -> clients m !! i = Some (Drawn call l owner token) ->
  accounted (do_bind i call l owner token m).
Proof.
  intros Hm Hc. unfold do_bind. destruct (workers m !! call_worker call) as [w|] eqn:Hw; [|done].
  cbv zeta. destruct (reserve_binding _ _ _ _ _) as [result s] eqn:Hs. apply reserve_binding_shared in Hs.
  apply (accounted_set_client _ _ (Drawn call l owner token));
    [|done|destruct result; [done|intros r; apply refused_tokens]].
  destruct result as [rollback|]; [destruct Hs as (_ & _ & ->)|subst s]; by apply accounted_set_shared.
Qed.

Lemma accounted_send m i call l rollback :
  accounted m -> clients m !! i = Some (Bound call l rollback) ->
  accounted (do_send i call l rollback m).
Proof.
  intros Hm Hc. unfold do_send. destruct (workers m !! call_worker call) as [w|] eqn:Hw; [|done].
  destruct (w_queue w) as [message|] eqn:Hq.
  - apply (accounted_set_client _ _ _ _ Hm Hc). intros r. apply refused_tokens.
  - cbv zeta. apply (accounted_change m); [done| |apply Hm]. intros r. rewrite ledger_set_client.
    rewrite (holding_set_client _ _ _ (set_worker _ _ m) _ _ _ Hc), (holding_set_worker _ _ _ _ _ _ _ Hw),
      (ledger_set_worker _ _ _ _ _ Hw).
    unfold busy, worker_tokens. simpl. rewrite Hq. unfold_tokens. lia.
Qed.

Lemma release_effect m m1 r :
  accounted m -> 0 < held r m -> shared m1 = shared m -> workers m1 = workers m ->
  balanced (shared (do_release r m1)) /\
  forall r', held r' (do_release r m1) = held r' m1 /\
             ledger r' (do_release r m1) = ledger r' m1 - one r' r.
Proof.
  intros Hm Hr Hs Hw. destruct r as [k|l]; simpl.
  - apply mark_held in Hr as (w & Hk & Hi); [|done]. unfold update_worker. rewrite <- Hw in Hk. rewrite Hk.
    split; [simpl; rewrite Hs; apply Hm|]. intros r'.
    rewrite (holding_set_worker _ _ _ _ _ _ _ Hk), (ledger_set_worker _ _ _ _ _ Hk).
    unfold busy, worker_tokens. simpl. rewrite Hi. lia.
  - apply permit_held in Hr; [|done]. rewrite <- Hs in Hr.
    pose proof (drop_spec l (shared m1) Hr) as Hd. destruct Hd as (Hh & _ & Hb); [rewrite Hs; apply Hm|].
    split; [done|]. intros r'. rewrite holding_set_shared. split; [done|].
    rewrite (ledger_set_shared _ _ _ l (-1)); [lia|]. intros l'. rewrite Hh. lia.
Qed.

Lemma accounted_leave m i front drops rollback result :
  accounted m -> clients m !! i = Some (Leaving front drops rollback result) ->
  accounted (do_leave i front drops rollback result m).
Proof.
  intros Hm Hc. destruct drops as [|r drops]; simpl.
  - apply (accounted_set_client _ _ (Leaving front [] rollback result)); [|by destruct (undoes result)|done].
    destruct (undoes result); [|done].
    pose proof (apply_optional_rest rollback (shared m)) as (Hl & Hp & Hli & _). by apply accounted_set_shared.
  - assert (0 < held r m) as Hr.
    { pose proof (holding_client client_tokens worker_tokens r _ _ _ Hc) as Hh. revert Hh. unfold_tokens. rewrite one_same.
      pose proof (occurrences_nonneg r drops). pose proof (occurrences_nonneg r (admitted_permit front)).
      unfold occurrences in *. lia. }
    destruct (release_effect m (set_client i (Leaving front drops rollback result) m) r Hm Hr)
      as [Hb He]; [done..|].
    apply (accounted_change m); [done| |done]. intros r'. destruct (He r') as [-> ->].
    rewrite ledger_set_client, (holding_set_client _ _ _ _ _ _ _ Hc). unfold_tokens. lia.
Qed.

Lemma accounted_finish m i front result :
  accounted m -> clients m !! i = Some (Done front result) -> accounted (do_finish i front m).
Proof.
  intros Hm Hc. unfold do_finish. destruct front as [l|]; simpl;
    [|apply (accounted_set_client _ _ (Done None result)); [|done|done]; by apply accounted_set_shared].
  assert (0 < holders (shared m) l) as Hl.
  { apply permit_held; [done|]. pose proof (holding_client client_tokens worker_tokens (ReturnPermit l) _ _ _ Hc) as Hh.
    revert Hh. unfold_tokens. rewrite one_same. lia. }
  destruct (drop_spec l (shared m) Hl) as (Hh & _ & Hb); [apply Hm|].
  apply (accounted_both _ _ _ _ _ Hm Hc Hb); intros x; unfold_tokens; [rewrite Hh; lia|].
  unfold one. simpl. lia.
Qed.

Lemma accounted_advance m i c :
  accounted m -> clients m !! i = Some c -> accounted (advance i c m).
Proof.
  intros Hm Hc. destruct c; simpl; try done.
  - by apply accounted_route.
  - by apply accounted_enter.
  - by apply accounted_charge.
  - by apply accounted_draw.
  - by apply accounted_bind.
  - by apply accounted_send.
  - by apply accounted_leave.
  - by eapply accounted_finish.
Qed.

Lemma next_queued_Some l i permit : next_queued l = Some (i, permit) -> l !! i = Some (Queued permit).
Proof.
  revert i. induction l as [|c l IH]; intros i; simpl; [done|].
  destruct c; try (destruct (next_queued l) as [[j p]|]; [|done]; intros [= <- <-]; by apply IH).
  by intros [= <- <-].
Qed.

Lemma accounted_pick m i l :
  accounted m -> clients m !! i = Some (Queued l) -> accounted (do_pick i l m).
Proof.
  intros Hm Hc. unfold do_pick.
  assert (0 < holders (shared m) l) as Hl.
  { apply permit_held; [done|]. pose proof (holding_client client_tokens worker_tokens (ReturnPermit l) _ _ _ Hc) as Hh.
    revert Hh. unfold_tokens. rewrite one_same. lia. }
  destruct (clone_spec l (shared m) Hl) as (Hh & _ & Hb); [apply Hm|].
  apply (accounted_both _ _ _ _ _ Hm Hc Hb); intros x; unfold_tokens; [rewrite Hh; lia|].
  unfold one. simpl. lia.
Qed.

Lemma set_shared_id m : set_shared (shared m) m = m.
Proof. by destruct m. Qed.

(** A refused request leaves no trace. *)
Lemma dispatch_cases m :
  (dispatch m).2 = m \/
  exists l s, reserve FRONT_REQUEST_BYTES (shared m) = (Ok l, s) /\
    (dispatch m).2 = add_client (Dispatching l) (set_shared s m).
Proof.
  unfold dispatch. destruct (reserve _ _) as [[l|error] s] eqn:Hr; [right; eauto|left]. simpl.
  apply reserve_same in Hr as [_ ->]. apply set_shared_id.
Qed.

Lemma accounted_dispatch m : accounted m -> accounted (dispatch m).2.
Proof.
  intros Hm. destruct (dispatch_cases m) as [->|(l & s & Hr & ->)]; [done|]. apply reserve_spec in Hr as (-> & Hl & _ & Hb);
    [|unfold FRONT_REQUEST_BYTES, MAX_NETD_FRAME_LEN; lia|apply Hm].
  apply (accounted_change m); [done| |done]. intros r. rewrite holding_add_client, ledger_add_client, holding_set_shared.
  rewrite (ledger_set_shared _ _ _ (length (leases (shared m))) 1); [unfold_tokens; lia|].
  intros l'. rewrite (holders_push _ _ _ _ Hl). lia.
Qed.

Lemma accounted_answer m message result :
  accounted m -> accounted (answer message result m).
Proof.
  intros Hm. unfold answer. destruct (clients m !! msg_client message) as [c|] eqn:Hc; [|done].
  destruct c; try done. by apply (accounted_set_client _ _ _ _ Hm Hc).
Qed.

Lemma workers_answer m message result : workers (answer message result m) = workers m.
Proof. unfold answer. by repeat case_match. Qed.

Lemma accounted_stage m k w st :
  accounted m -> workers m !! k = Some w ->
  (forall r, occurrences r (stage_tokens st) = occurrences r (stage_tokens (w_stage w))) ->
  accounted (set_stage k st m).
Proof.
  intros Hm Hw Ht. unfold set_stage, update_worker. rewrite Hw.
  apply (accounted_set_worker _ _ _ _ Hm Hw); [done|]. intros r.
  unfold worker_tokens. simpl. unfold occurrences in *. by rewrite !zsum_app, Ht.
Qed.

(** A worker drops a token of its message and moves on. *)
Lemma accounted_drop_stage m k w st r :
  accounted m -> workers m !! k = Some w ->
  (forall r', occurrences r' (stage_tokens (w_stage w))
              = one r' r + occurrences r' (stage_tokens st)) ->
  accounted (set_stage k st (do_release r m)).
Proof.
  intros Hm Hw Ht.
  assert (Ho : forall r', occurrences r' (worker_tokens w)
               = one r' r + occurrences r' (worker_tokens (with_stage st w))).
  { intros r'. unfold worker_tokens. simpl. specialize (Ht r'). unfold occurrences in *.
    rewrite !zsum_app, Ht. lia. }
  assert (0 < held r m) as Hr.
  { pose proof (holding_worker client_tokens worker_tokens r _ _ _ Hw) as Hh. rewrite Ho, one_same in Hh.
    pose proof (occurrences_nonneg r (worker_tokens (with_stage st w))). lia. }
  destruct (release_effect m m r Hm Hr) as [Hb He]; [done..|].
  assert (exists w', workers (do_release r m) !! k = Some w' /\
            worker_tokens w' = worker_tokens w /\ w_queue w' = w_queue w) as (w' & Hw' & Hwt & Hwq).
  { destruct r as [k'|l]; simpl; [|by exists w]. unfold update_worker.
    destruct (workers m !! k') as [w0|] eqn:Hk'; [|by exists w]. simpl.
    destruct (decide (k' = k)) as [->|]; [|exists w; by rewrite list_lookup_insert_ne].
    rewrite list_lookup_insert_eq by (by eapply lookup_lt_Some). simplify_eq. by eexists. }
  unfold set_stage, update_worker. rewrite Hw'.
  apply (accounted_change m); [done| |done]. intros r'. destruct (He r') as [Hh Hl].
  rewrite (holding_set_worker _ _ _ _ _ _ _ Hw'), (ledger_set_worker _ _ _ _ _ Hw'), Hh, Hl.
  unfold busy. simpl. rewrite Hwt, Ho. unfold worker_tokens. simpl. rewrite Hwq. lia.
Qed.

Lemma accounted_work m k now : accounted m -> accounted (work k now m).
Proof.
  intros Hm. unfold work. destruct (workers m !! k) as [w|] eqn:Hw; [|done].
  destruct (w_stage w) as [|message|message result|message result|message result|message result|] eqn:Hst.
  - destruct (w_queue w) as [message|] eqn:Hq.
    + apply (accounted_set_worker _ _ _ _ Hm Hw); [done|]. intros r.
      unfold worker_tokens. simpl. by rewrite Hq, Hst.
    + apply (accounted_stage _ _ _ _ Hm Hw). by rewrite Hst.
  - apply (accounted_set_worker _ _ _ _ Hm Hw); unfold process_message;
      destruct (infra_process _ _ _ _) as [result service]; [done|]. intros r.
    unfold worker_tokens. simpl. by rewrite Hst.
  - assert (accounted (if is_ok result then m
             else set_shared (apply_optional (msg_rollback message) (shared m)) m)) as Hm'.
    { destruct (is_ok result); [done|].
      pose proof (apply_optional_rest (msg_rollback message) (shared m)) as (Hl & Hp & Hli & _).
      by apply accounted_set_shared. }
    apply (accounted_stage _ k w _ Hm'); [by destruct (is_ok result)|]. by rewrite Hst.
  - apply (accounted_drop_stage _ _ _ _ (ReturnPermit (msg_permit message)) Hm Hw). rewrite Hst.
    intros r. unfold_tokens. lia.
  - apply (accounted_drop_stage _ _ _ _ (FreeDomain (msg_domain message)) Hm Hw). rewrite Hst.
    intros r. unfold_tokens. lia.
  - apply (accounted_stage _ k w); [by apply accounted_answer|by rewrite workers_answer|by rewrite Hst].
  - cbv zeta. apply (accounted_set_worker _ _ _ _ Hm Hw); [done|]. intros r.
    unfold worker_tokens. simpl. by rewrite Hst.
Qed.

Lemma accounted_step m m' : accounted m -> step m m' -> accounted m'.
Proof.
  intros Hm Hs. destruct Hs as [request peer now _| |_ _|_|i l ready Hc|i l Hq _|i l received Hc _
    |i c Hc|i front rollback Hc|k now|w _|k worker w Hw _].
  - apply (accounted_change m); [done| |apply Hm]. intros r. rewrite holding_add_client, ledger_add_client.
    unfold_tokens. lia.
  - unfold attach_front. destruct (front_attached m); [done|].
    by apply (accounted_change m); [done|intros r; unfold holding, ledger; simpl; lia|apply Hm].
  - by apply (accounted_change m); [done|intros r; unfold holding, ledger; simpl; lia|apply Hm].
  - by apply accounted_dispatch.
  - unfold do_submit. cbv zeta. apply (accounted_set_client _ _ _ _ Hm Hc). intros r. by case_match.
  - apply accounted_pick; [done|]. by apply next_queued_Some.
  - unfold do_receive. apply (accounted_set_client _ _ _ _ Hm Hc). intros r. by repeat case_match.
  - by apply accounted_advance.
  - unfold do_timeout. by apply (accounted_set_client _ _ _ _ Hm Hc).
  - by apply accounted_work.
  - by apply (accounted_change m); [done|intros r; unfold holding, ledger; simpl; lia|apply Hm].
  - by apply (accounted_set_worker _ _ _ _ Hm Hw).
Qed.
End Ledger.
