(* ===== verification/DomainBindings.v ===== *)
(** * Reservations of I/O processes

    While an acquisition is under way its caller is bound to the domain; what a failed
    acquisition displaced comes back, and nothing else does. The argument is in the style of
    Owicki and Gries: an assertion for every section of a client's and of a worker's thread,
    kept by the sections of all other threads. *)
From stdpp Require Import base tactics list numbers option gmap strings.
From Stdlib Require Import ZArith Lia.
From S2P Require Import Prelude Ipv4 Wire Proto Network Service InfraProto Infra InfraContract.
From S2P Require Import InfraHandlers InfraHistory Domains DomainSteps DomainLedger.

#[local] Open Scope Z_scope.

(** ** What the assertions speak of *)

(** The I/O process that an acquisition asks to bind. *)
Definition owner_of_request (request : Request) (owner : option IoOwner) : Prop :=
  match infra_operation request with
  | InfraAcquireIoFd _ _ epoch =>
      exists o, owner = Some o /\ io_instance_id o = caller_instance_id request /\
        io_pid o = caller_pid request /\ io_epoch o = epoch
  | _ => owner = None
  end.

(** The state the assertions depend on; [env_pending] are the rollbacks of operations that
    may still be undone, [env_dead] the owners whose process has ended. *)
Record Env : Type := mkEnv {
  env_ids : list (list Z);
  env_bindings : gmap (list Z) IoBinding;
  env_next : Z;
  env_pending : IoRollback -> Prop;
  env_dead : IoOwner -> Prop;
}.

(** The domain is bound under another token, and no undo brings this one back. *)
Definition stale (E : Env) (d : list Z) (t : Z) : Prop :=
  (forall b, env_bindings E !! d = Some b -> binding_token b <> t) /\
  (forall rb p, env_pending E rb -> rollback_domain rb = d -> rollback_previous rb = Some p ->
     binding_token p <> t).

(** The request's caller is bound to the domain. *)
Definition reserved (E : Env) (d : list Z) (request : Request) (rollback : option IoRollback)
  : Prop :=
  match rollback with
  | None => owner_of_request request None
  | Some rb =>
      rollback_domain rb = d /\
      (exists o, owner_of_request request (Some o) /\
         env_bindings E !! d = Some (mkBinding o (rollback_token rb))) /\
      (forall p, rollback_previous rb = Some p ->
         binding_token p <> rollback_token rb /\ binding_token p < env_next E /\
         env_dead E (binding_owner p))
  end.

Definition call_ok (E : Env) (call : Call) : Prop :=
  (exists d, env_ids E !! call_worker call = Some d) /\
  owner_of_request (call_request call) (call_owner call).

Definition call_domain (E : Env) (call : Call) : list Z :=
  default [] (env_ids E !! call_worker call).

Definition client_ok (E : Env) (c : Client) : Prop :=
  match c with
  | Routed call | Entered call | Charged call _ => call_ok E call
  | Drawn call _ owner token =>
      call_ok E call /\ call_owner call = Some owner /\ stale E (call_domain E call) token
  | Bound call _ rollback =>
      call_ok E call /\ reserved E (call_domain E call) (call_request call) rollback
  | Leaving _ _ (Some rb) result =>
      undoes result = true -> stale E (rollback_domain rb) (rollback_token rb)
  | _ => True
  end.

Definition undone (E : Env) (d : list Z) (message : Message) (result : ProcessResult) : Prop :=
  is_ok result = false -> forall rb, msg_rollback message = Some rb ->
    rollback_domain rb = d /\ stale E d (rollback_token rb).

Definition stage_ok (E : Env) (d : list Z) (st : Stage) : Prop :=
  match st with
  | Serving message | Served message _ =>
      reserved E d (msg_request message) (msg_rollback message)
  | Rolled message result | Released message result | Freed message result =>
      undone E d message result
  | Idle | Sweeping => True
  end.

(** The tokens a thread may still compare with the bindings. *)
Definition rollback_tokens (rollback : option IoRollback) : list Z :=
  match rollback with Some rb => [rollback_token rb] | None => [] end.

Definition client_draws (c : Client) : list Z :=
  match c with
  | Drawn _ _ _ token => [token]
  | Bound _ _ rollback => rollback_tokens rollback
  | Leaving _ _ rollback result => if undoes result then rollback_tokens rollback else []
  | _ => []
  end.

Definition message_draws (message : option Message) : list Z :=
  match message with Some message => rollback_tokens (msg_rollback message) | None => [] end.

(** The rollback of an operation that may still be undone. *)
Definition client_pending (c : Client) : option IoRollback :=
  match c with Bound _ _ rollback => rollback | _ => None end.

Definition stage_pending (st : Stage) : option IoRollback :=
  match st with Serving message | Served message _ => msg_rollback message | _ => None end.

(** A client that has sent its message knows the rollback the worker has. *)
Definition awaits (c : option Client) (rollback : option IoRollback) : Prop :=
  match c with
  | Some (Awaiting _ rollback') => rollback' = rollback
  | Some (Leaving _ _ _ _) | Some (Done _ _) | Some Gone => True
  | _ => False
  end.

Lemma elem_option_list {A} (a : A) o : a ∈ option_list o <-> o = Some a.
Proof. destruct o; simpl; [rewrite list_elem_of_singleton|rewrite elem_of_nil]; naive_solver. Qed.

(** ** Interference *)

(** Nothing that concerns the assertions: tokens may be drawn, rollbacks settle. *)
Record env_le (E E' : Env) : Prop := {
  le_ids : env_ids E' = env_ids E;
  le_bindings : env_bindings E' = env_bindings E;
  le_next : env_next E <= env_next E';
  le_pending : forall rb, env_pending E' rb -> env_pending E rb;
  le_dead : forall rb p, env_pending E rb -> rollback_previous rb = Some p ->
    env_dead E (binding_owner p) -> env_dead E' (binding_owner p);
}.

(** The binding of the domain [d] changes, by a thread that has the token [t]. *)
Record env_shifts (d : list Z) (t : Z) (E E' : Env) : Prop := {
  sh_ids : env_ids E' = env_ids E;
  sh_next : env_next E' = env_next E;
  sh_dead : env_dead E' = env_dead E;
  sh_bindings : forall d', d' <> d -> env_bindings E' !! d' = env_bindings E !! d';
  sh_stale : forall d' t', t' <> t -> stale E d' t' -> stale E' d' t';
}.

Lemma stale_le E E' d t : env_le E E' -> stale E d t -> stale E' d t.
Proof.
  intros HE [Hb Hp]. split.
  - rewrite (le_bindings _ _ HE). apply Hb.
  - intros rb p Hrb. apply Hp. by apply (le_pending _ _ HE).
Qed.

Lemma reserved_le E E' d request rollback :
  env_le E E' -> (forall rb, rollback = Some rb -> env_pending E rb) ->
  reserved E d request rollback -> reserved E' d request rollback.
Proof.
  intros HE Hrb. destruct rollback as [rb|]; [|done]. intros (Hd & (o & Ho & Hb) & Hp). split_and!.
  - done.
  - exists o. by rewrite (le_bindings _ _ HE).
  - intros p Hrp. destruct (Hp p Hrp) as (Ht & Hlt & Hdead). pose proof (le_next _ _ HE).
    split_and!; [done|lia|]. apply (le_dead _ _ HE rb); auto.
Qed.

Lemma call_ok_ids E E' call : env_ids E' = env_ids E -> call_ok E call -> call_ok E' call.
Proof. unfold call_ok. by intros ->. Qed.

Lemma client_ok_le E E' c :
  env_le E E' -> (forall rb, client_pending c = Some rb -> env_pending E rb) ->
  client_ok E c -> client_ok E' c.
Proof.
  intros HE Hp. pose proof (le_ids _ _ HE) as Hids.
  destruct c as [| | | |call|call|call l|call l o t|call l rollback|f rollback|f drops [rb|] result| |];
    simpl; try done; try by apply call_ok_ids.
  - intros (Hc & Ho & Hs). split_and!; [by apply (call_ok_ids E)|done|].
    unfold call_domain. rewrite Hids. by apply (stale_le E).
  - intros (Hc & Hr). split; [by apply (call_ok_ids E)|]. unfold call_domain. rewrite Hids.
    by apply (reserved_le E).
  - intros Hs Hu. apply (stale_le E); auto.
Qed.

Lemma stage_ok_le E E' d st :
  env_le E E' -> (forall rb, stage_pending st = Some rb -> env_pending E rb) ->
  stage_ok E d st -> stage_ok E' d st.
Proof.
  intros HE Hp. destruct st; simpl; try done; try by apply reserved_le.
  all: intros Hu He rb Hrb; destruct (Hu He rb Hrb); split; [done|by apply (stale_le E)].
Qed.

Lemma reserved_shifts d t E E' d' request rollback :
  env_shifts d t E E' -> d' <> d -> reserved E d' request rollback -> reserved E' d' request rollback.
Proof.
  intros HE Hd. destruct rollback as [rb|]; [|done]. intros (Hrd & (o & Ho & Hb) & Hp). split_and!.
  - done.
  - exists o. split; [done|]. by rewrite (sh_bindings _ _ _ _ HE).
  - by rewrite (sh_next _ _ _ _ HE), (sh_dead _ _ _ _ HE).
Qed.

Lemma client_ok_shifts d t E E' c :
  env_shifts d t E E' -> t ∉ client_draws c ->
  (forall call l rollback, c = Bound call l rollback -> call_domain E call <> d) ->
  client_ok E c -> client_ok E' c.
Proof.
  intros HE Ht Hd. pose proof (sh_ids _ _ _ _ HE) as Hids.
  destruct c as [| | | |call|call|call l|call l o t'|call l rollback|f rollback|f drops [rb|] result| |];
    simpl in *; try done; try by apply call_ok_ids.
  - intros (Hc & Ho & Hs). split_and!; [by apply (call_ok_ids E)|done|].
    unfold call_domain. rewrite Hids. apply (sh_stale _ _ _ _ HE); [set_solver|done].
  - intros (Hc & Hr). split; [by apply (call_ok_ids E)|]. unfold call_domain. rewrite Hids.
    apply (reserved_shifts d t E); [done|by eapply Hd|done].
  - intros Hs Hu. rewrite Hu in Ht. apply (sh_stale _ _ _ _ HE); [set_solver|auto].
Qed.

Lemma undone_shifts d t E E' d' message result :
  env_shifts d t E E' -> t ∉ rollback_tokens (msg_rollback message) ->
  undone E d' message result -> undone E' d' message result.
Proof.
  intros HE Ht Hu He rb Hrb. destruct (Hu He rb Hrb) as [Hd Hs]. split; [done|].
  apply (sh_stale _ _ _ _ HE); [|done]. rewrite Hrb in Ht. set_solver.
Qed.

Lemma stage_ok_shifts d t E E' d' st :
  env_shifts d t E E' -> t ∉ message_draws (stage_message st) ->
  (match st with Serving _ | Served _ _ => d' <> d | _ => True end) ->
  stage_ok E d' st -> stage_ok E' d' st.
Proof.
  intros HE Ht Hd. destruct st; simpl in *; try done; try by apply (reserved_shifts d t).
  all: by apply (undone_shifts d t).
Qed.

(** A reservation shifts the bindings, and so does an undo. *)
Lemma bind_shifts E E' d t o :
  env_ids E' = env_ids E -> env_next E' = env_next E -> env_dead E' = env_dead E ->
  env_bindings E' = <[d := mkBinding o t]> (env_bindings E) ->
  (forall rb, env_pending E' rb ->
     env_pending E rb \/ rb = mkRollback d t (env_bindings E !! d)) ->
  env_shifts d t E E'.
Proof.
  intros Hids Hnext Hdead Hb Hp. split; try done.
  - intros d' Hd. rewrite Hb. by rewrite lookup_insert_ne.
  - intros d' t' Ht [H1 H2]. split.
    + intros b. rewrite Hb. destruct (decide (d = d')) as [->|].
      * rewrite lookup_insert_eq. intros [= <-]. simpl. congruence.
      * rewrite lookup_insert_ne by done. apply H1.
    + intros rb p Hrb. destruct (Hp rb Hrb) as [Hrb' | ->]; [by apply H2|]. simpl.
      intros <-. apply H1.
Qed.

Lemma undo_shifts E E' s rb :
  env_ids E' = env_ids E -> env_next E' = env_next E -> env_dead E' = env_dead E ->
  env_bindings E = io_bindings s -> env_bindings E' = io_bindings (apply_rollback rb s) ->
  (forall rb', env_pending E' rb' -> env_pending E rb') -> env_pending E rb ->
  env_shifts (rollback_domain rb) (rollback_token rb) E E'.
Proof.
  intros Hids Hnext Hdead Hb Hb' Hp Hrb.
  assert (Hcase : env_bindings E' = env_bindings E \/
    env_bindings E' = match rollback_previous rb with
                      | Some previous => <[rollback_domain rb := previous]> (env_bindings E)
                      | None => delete (rollback_domain rb) (env_bindings E)
                      end).
  { rewrite Hb', Hb. unfold apply_rollback. destruct (io_bindings s !! _) as [b|]; [|auto].
    destruct (_ =? _); [|auto]. simpl. auto. }
  split; try done.
  - intros d' Hd. destruct Hcase as [-> | ->]; [done|].
    destruct (rollback_previous rb); by rewrite ?lookup_insert_ne, ?lookup_delete_ne.
  - intros d' t' Ht [H1 H2]. split; [|intros rb' p Hrb'; apply H2; by apply Hp].
    intros b. destruct Hcase as [-> | ->]; [apply H1|].
    destruct (decide (rollback_domain rb = d')) as [Hd|Hd].
    + destruct (rollback_previous rb) as [p|] eqn:Hprev; rewrite Hd.
      * rewrite lookup_insert_eq. intros [= <-]. by apply (H2 rb).
      * by rewrite lookup_delete_eq.
    + destruct (rollback_previous rb); rewrite ?lookup_insert_ne, ?lookup_delete_ne by done; apply H1.
Qed.

Section Bindings.
Context {W : Type} `{!NetworkBackend W} `{!InfrastructureBackend W} `{!InfraHost W}
  `{!DomainHost W} `{!JournalFormat} `{!Layout} `{!InfraMachine W} `{!ProcessTable W}.
Implicit Types (m : MultiDomainService W) (w : Worker W).

Definition worker_draws w : list Z := message_draws (w_queue w) ++ message_draws (stage_message (w_stage w)).
Abbreviation drawn := (holding client_draws worker_draws).

Definition worker_ok (E : Env) (w : Worker W) : Prop :=
  (forall message, w_queue w = Some message ->
     reserved E (domain_of w) (msg_request message) (msg_rollback message)) /\
  stage_ok E (domain_of w) (w_stage w).

Definition worker_pending w : list IoRollback :=
  option_list (w_queue w ≫= msg_rollback) ++ option_list (stage_pending (w_stage w)).

Definition pends m (rb : IoRollback) : Prop :=
  (exists i c, clients m !! i = Some c /\ client_pending c = Some rb) \/
  (exists k w, workers m !! k = Some w /\ rb ∈ worker_pending w).

Definition env m : Env :=
  mkEnv (map domain_of (workers m)) (io_bindings (shared m)) (next_binding_token (shared m))
    (pends m) (fun o => ~ runs o (host_world m)).

(** No process that runs is bound to two domains. *)
Definition exclusive m : Prop :=
  forall d1 d2 b1 b2, d1 <> d2 ->
    io_bindings (shared m) !! d1 = Some b1 -> io_bindings (shared m) !! d2 = Some b2 ->
    runs (binding_owner b1) (host_world m) -> runs (binding_owner b2) (host_world m) ->
    same_process (binding_owner b1) (binding_owner b2) = false.

Record bindings_ok m : Prop := {
  bok_clients : forall i c, clients m !! i = Some c -> client_ok (env m) c;
  bok_workers : forall k w, workers m !! k = Some w -> worker_ok (env m) w;
  bok_messages : forall k w message, workers m !! k = Some w -> message ∈ worker_messages w ->
    msg_domain message = k /\ awaits (clients m !! msg_client message) (msg_rollback message);
  bok_draws : forall t, drawn t m <= 1 /\
    (0 < drawn t m -> 1 <= t < next_binding_token (shared m));
  bok_bindings : forall d b, io_bindings (shared m) !! d = Some b ->
    binding_token b < next_binding_token (shared m);
  bok_next : 1 <= next_binding_token (shared m);
  bok_ids : NoDup (map domain_of (workers m));
  bok_exclusive : exclusive m;
}.

(** ** Frames *)

Lemma worker_ok_le E E' w :
  env_le E E' -> (forall rb, rb ∈ worker_pending w -> env_pending E rb) ->
  worker_ok E w -> worker_ok E' w.
Proof.
  intros HE Hp [Hq Hs]. split.
  - intros message Hm. apply (reserved_le E); [done| |by apply Hq].
    intros rb Hrb. apply Hp. unfold worker_pending. rewrite Hm. simpl. rewrite Hrb. set_solver.
  - apply (stage_ok_le E); [done| |done].
    intros rb Hrb. apply Hp. unfold worker_pending. rewrite Hrb. set_solver.
Qed.

Lemma ids_lookup m k d :
  env_ids (env m) !! k = Some d <-> exists w, workers m !! k = Some w /\ domain_of w = d.
Proof.
  simpl. change (map domain_of (workers m)) with (domain_of <$> workers m).
  rewrite list_lookup_fmap, fmap_Some. naive_solver.
Qed.

Lemma call_domain_worker m call w :
  workers m !! call_worker call = Some w -> call_domain (env m) call = domain_of w.
Proof.
  intros Hw. unfold call_domain.
  assert (env_ids (env m) !! call_worker call = Some (domain_of w)) as -> by (apply ids_lookup; eauto).
  done.
Qed.

Lemma domains_distinct m k k' w w' :
  bindings_ok m -> workers m !! k = Some w -> workers m !! k' = Some w' -> k <> k' ->
  domain_of w <> domain_of w'.
Proof.
  intros Hm Hw Hw' Hk Hd. apply Hk. apply (NoDup_lookup _ _ _ (domain_of w) (bok_ids _ Hm));
    apply (ids_lookup m); eauto.
Qed.

Lemma insert_cases {A} (l : list A) i j x y :
  <[i := x]> l !! j = Some y -> (j <> i /\ l !! j = Some y) \/ (j = i /\ y = x).
Proof. intros Hj. apply list_lookup_insert_Some in Hj. naive_solver. Qed.

(** The client of a message moves on. *)
Lemma awaits_insert m i c c' j rb :
  clients m !! i = Some c -> (awaits (Some c) rb -> awaits (Some c') rb) ->
  awaits (clients m !! j) rb -> awaits (<[i := c']> (clients m) !! j) rb.
Proof.
  intros Hc Ha Haw. destruct (decide (i = j)) as [<-|Hne]; [|by rewrite list_lookup_insert_ne].
  rewrite list_lookup_insert_eq by (by eapply lookup_lt_Some). apply Ha. by rewrite Hc in Haw.
Qed.

(** Steps that leave the bindings alone. What a thread asserts anew it asserts of the old
    state, about rollbacks that were pending there. *)
Lemma bok_frame m m' :
  bindings_ok m -> env_le (env m) (env m') ->
  (forall i c, clients m' !! i = Some c ->
     client_ok (env m) c /\ forall rb, client_pending c = Some rb -> pends m rb) ->
  (forall k w, workers m' !! k = Some w ->
     worker_ok (env m) w /\ forall rb, rb ∈ worker_pending w -> pends m rb) ->
  (forall k w message, workers m' !! k = Some w -> message ∈ worker_messages w ->
     msg_domain message = k /\ awaits (clients m' !! msg_client message) (msg_rollback message)) ->
  (forall t, drawn t m' <= 1 /\ (0 < drawn t m' -> 1 <= t < next_binding_token (shared m'))) ->
  (forall d b, io_bindings (shared m) !! d = Some b ->
     runs (binding_owner b) (host_world m') -> runs (binding_owner b) (host_world m)) ->
  bindings_ok m'.
Proof.
  intros Hm HE Hc Hw Hmsg Ht Hruns.
  pose proof (le_ids _ _ HE) as Hids. pose proof (le_bindings _ _ HE) as Hb. simpl in Hids, Hb.
  pose proof (le_next _ _ HE) as Hn. simpl in Hn. split.
  - intros i c Hi. destruct (Hc i c Hi). by apply (client_ok_le (env m)).
  - intros k w Hk. destruct (Hw k w Hk). by apply (worker_ok_le (env m)).
  - done.
  - done.
  - intros d b. rewrite Hb. intros Hd. pose proof (bok_bindings _ Hm _ _ Hd). lia.
  - pose proof (bok_next _ Hm). lia.
  - rewrite Hids. apply Hm.
  - intros d1 d2 b1 b2 Hd. rewrite Hb. intros Hone Htwo R1 R2. apply (bok_exclusive _ Hm d1 d2); eauto.
Qed.

Lemma client_frame m i c :
  bindings_ok m -> clients m !! i = Some c ->
  client_ok (env m) c /\ forall rb, client_pending c = Some rb -> pends m rb.
Proof. intros Hm Hi. split; [by apply (bok_clients _ Hm i)|]. intros rb Hrb. left. eauto. Qed.

Lemma worker_frame m k w :
  bindings_ok m -> workers m !! k = Some w ->
  worker_ok (env m) w /\ forall rb, rb ∈ worker_pending w -> pends m rb.
Proof. intros Hm Hk. split; [by apply (bok_workers _ Hm k)|]. intros rb Hrb. right. eauto. Qed.

(** A client moves on, and at most the token counter of the shared state. *)
Lemma bok_client m i c c' s :
  bindings_ok m -> clients m !! i = Some c ->
  io_bindings s = io_bindings (shared m) ->
  next_binding_token (shared m) <= next_binding_token s ->
  client_ok (env m) c' -> (forall rb, client_pending c' = Some rb -> client_pending c = Some rb) ->
  (forall rb, awaits (Some c) rb -> awaits (Some c') rb) ->
  (forall t, occurrences t (client_draws c') <= occurrences t (client_draws c) \/
     (next_binding_token (shared m) <= t < next_binding_token s /\ client_draws c' = [t])) ->
  bindings_ok (set_client i c' (set_shared s m)).
Proof.
  intros Hm Hc Hb Hn Hok Hp Ha Ht. pose proof (bok_next _ Hm).
  apply (bok_frame m); simpl.
  - done.
  - split; simpl; try done.
    intros rb [(j & c0 & Hj & Hrb)|Hrb]; [|by right]. left.
    apply insert_cases in Hj as [[_ Hj']|[-> ->]]; eauto.
  - intros j c0 Hj. apply insert_cases in Hj as [[_ Hj']|[-> ->]]; [by apply (client_frame m j)|].
    split; [done|]. intros rb Hrb. left. eauto.
  - intros k w Hk. by apply (worker_frame m k).
  - intros k w message Hk Hmsg. destruct (bok_messages _ Hm _ _ _ Hk Hmsg) as [Hd Haw]. split; [done|].
    by apply (awaits_insert m i c); [|apply Ha|].
  - intros t. rewrite (holding_set_client _ _ _ (set_shared s m) _ _ _ Hc), holding_set_shared.
    pose proof (bok_draws _ Hm t) as [Hone Htwo]. pose proof (holding_client client_draws worker_draws t _ _ _ Hc).
    destruct (Ht t) as [Hle|[Hrange ->]].
    + split; [lia|]. intros. assert (0 < drawn t m) as Hpos by lia. specialize (Htwo Hpos). lia.
    + unfold occurrences. simpl. rewrite one_same.
      assert (drawn t m = 0) by (pose proof (holding_nonneg client_draws worker_draws t m);
        destruct (decide (0 < drawn t m)); [specialize (Htwo ltac:(done)); lia|lia]).
      pose proof (occurrences_nonneg t (client_draws c)). unfold occurrences in *. lia.
  - done.
Qed.

Lemma insert_ids (l : list (Worker W)) k w w' :
  l !! k = Some w -> domain_of w' = domain_of w ->
  map domain_of (<[k := w']> l) = map domain_of l.
Proof.
  revert k. induction l as [|w0 l IH]; intros [|k] Hk Hd; simplify_eq/=; [by rewrite Hd|].
  f_equal. by apply IH.
Qed.

(** A worker moves on. *)
Lemma bok_worker m k w w' :
  bindings_ok m -> workers m !! k = Some w ->
  domain_of w' = domain_of w -> worker_ok (env m) w' ->
  (forall rb, rb ∈ worker_pending w' -> rb ∈ worker_pending w) ->
  (forall message, message ∈ worker_messages w' -> message ∈ worker_messages w) ->
  (forall t, occurrences t (worker_draws w') <= occurrences t (worker_draws w)) ->
  bindings_ok (set_worker k w' m).
Proof.
  intros Hm Hk Hd Hok Hp Hmsg Ht.
  apply (bok_frame m); simpl.
  - done.
  - split; simpl; try done.
    + by apply (insert_ids _ _ w).
    + intros rb [Hrb|(j & w0 & Hj & Hrb)]; [by left|]. right.
      apply insert_cases in Hj as [[_ Hj']|[-> ->]]; eauto.
  - intros i c Hi. by apply (client_frame m i).
  - intros j w0 Hj. apply insert_cases in Hj as [[_ Hj']|[-> ->]]; [by apply (worker_frame m j)|].
    split; [done|]. intros rb Hrb. right. eauto.
  - intros j w0 message Hj Hm0. apply insert_cases in Hj as [[_ Hj']|[-> ->]]; eapply (bok_messages _ Hm); eauto.
  - intros t. rewrite (holding_set_worker _ _ _ _ _ _ _ Hk). pose proof (bok_draws _ Hm t) as [Hone Htwo].
    specialize (Ht t). split; [lia|]. intros. apply Htwo. lia.
  - done.
Qed.

Lemma bok_client_only m i c c' :
  bindings_ok m -> clients m !! i = Some c ->
  client_ok (env m) c' -> (forall rb, client_pending c' = Some rb -> client_pending c = Some rb) ->
  (forall rb, awaits (Some c) rb -> awaits (Some c') rb) ->
  (forall t, occurrences t (client_draws c') <= occurrences t (client_draws c)) ->
  bindings_ok (set_client i c' m).
Proof.
  intros Hm Hc Hok Hp Ha Ht. rewrite <- (set_shared_id m).
  apply (bok_client m i c); auto. done.
Qed.

Lemma bok_shared m s :
  bindings_ok m -> io_bindings s = io_bindings (shared m) ->
  next_binding_token s = next_binding_token (shared m) -> bindings_ok (set_shared s m).
Proof.
  intros Hm Hb Hn. apply (bok_frame m); simpl.
  - done.
  - split; simpl; try done. rewrite Hn. lia.
  - intros i c Hi. by apply (client_frame m i).
  - intros k w Hk. by apply (worker_frame m k).
  - apply Hm.
  - rewrite Hn. apply (bok_draws _ Hm).
  - done.
Qed.

Lemma bok_add_client m c :
  bindings_ok m -> client_ok (env m) c -> client_pending c = None -> client_draws c = [] ->
  bindings_ok (add_client c m).
Proof.
  intros Hm Hok Hp Ht.
  assert (Hlook : forall j c0, (clients m ++ [c]) !! j = Some c0 -> clients m !! j = Some c0 \/ c0 = c).
  { intros j c0 Hj. apply lookup_app_Some in Hj as [Hj|[_ Hj]]; [by left|].
    apply list_lookup_singleton_Some in Hj. naive_solver. }
  apply (bok_frame m); simpl.
  - done.
  - split; simpl; try done. intros rb [(j & c0 & Hj & Hrb)|Hrb]; [|by right]. left.
    destruct (Hlook _ _ Hj) as [Hj'| ->]; [eauto|congruence].
  - intros j c0 Hj. destruct (Hlook _ _ Hj) as [Hj'| ->]; [by apply (client_frame m j)|].
    split; [done|]. by rewrite Hp.
  - intros k w Hk. by apply (worker_frame m k).
  - intros k w message Hk Hmsg. destruct (bok_messages _ Hm _ _ _ Hk Hmsg) as [Hd Haw]. split; [done|].
    destruct (clients m !! msg_client message) as [c0|] eqn:Hc0; [|done].
    by rewrite (lookup_app_l_Some _ _ _ _ Hc0).
  - intros t. rewrite holding_add_client, Ht. unfold occurrences. simpl. rewrite Z.add_0_r.
    apply (bok_draws _ Hm).
  - done.
Qed.

Lemma bok_stage m k w st :
  bindings_ok m -> workers m !! k = Some w ->
  stage_ok (env m) (domain_of w) st -> 
  (forall rb, stage_pending st = Some rb -> stage_pending (w_stage w) = Some rb) ->
  (forall message, stage_message st = Some message -> stage_message (w_stage w) = Some message) ->
  bindings_ok (set_stage k st m).
Proof.
  intros Hm Hk Hok Hp Hmsg. unfold set_stage, update_worker. rewrite Hk.
  apply (bok_worker m k w); [done|done|done| | | |].
  - split; [apply (bok_workers _ Hm _ _ Hk)|done].
  - intros rb. unfold worker_pending. simpl. rewrite !elem_of_app, !elem_option_list. naive_solver.
  - intros message. unfold worker_messages. simpl. rewrite !elem_of_app, !elem_option_list. naive_solver.
  - intros t. unfold worker_draws, occurrences. simpl. rewrite !zsum_app.
    destruct (stage_message st) as [message|]; simpl;
      [rewrite (Hmsg message) by done; simpl; lia|].
    pose proof (occurrences_nonneg t (message_draws (stage_message (w_stage w)))). unfold occurrences in *. lia.
Qed.

Lemma bok_release m r : bindings_ok m -> bindings_ok (do_release r m).
Proof.
  intros Hm. destruct r as [k|l]; simpl.
  - unfold update_worker. destruct (workers m !! k) as [w|] eqn:Hk; [|done].
    apply (bok_worker m k w); try done. apply (bok_workers _ Hm _ _ Hk).
  - apply bok_shared; [done| |]; unfold drop_permit; by case_match.
Qed.

(** *** Sections of a client *)

Lemma bok_leaves m i c front drops result :
  bindings_ok m -> clients m !! i = Some c ->
  bindings_ok (set_client i (Leaving front drops None result) m).
Proof.
  intros Hm Hc. apply (bok_client_only _ _ _ _ Hm Hc); try done.
  intros t. simpl. assert ((if undoes result then @nil Z else []) = []) as -> by by destruct (undoes result).
  auto.
Qed.

Lemma requested_owner_spec request operation (w : W) owner :
  requested_owner request operation w = Ok owner ->
  owner_of_request (mkInfraRequest (infra_request_id request) (caller_instance_id request)
    (caller_pid request) operation) owner.
Proof.
  unfold requested_owner, owner_of_request. simpl. destruct operation; try (by intros [= <-]).
  intros Hr. apply result_bind_Ok in Hr as (boot & _ & Hr). apply result_bind_Ok in Hr as (ticks & _ & Hr).
  injection Hr as <-. by eexists.
Qed.

Lemma bok_route m i front request peer now :
  bindings_ok m -> clients m !! i = Some (Received front request peer now) ->
  bindings_ok (do_route i front request peer now m).
Proof.
  intros Hm Hc. unfold do_route. destruct (route _ _ _ _ _) as [result|call] eqn:Hr.
  - apply (bok_leaves _ _ _ _ _ _ Hm Hc).
  - apply route_Forward in Hr as (domain & infra & operation & w & Hop & Hw & _ & _ & _ & Ho & Hcall).
    apply (bok_client_only _ _ _ _ Hm Hc); try done. split.
    + exists (domain_of w). apply (ids_lookup m). eauto.
    + rewrite Hcall. simpl. by apply (requested_owner_spec _ _ (host_world m)).
Qed.

Lemma bok_enter m i call :
  bindings_ok m -> clients m !! i = Some (Routed call) -> bindings_ok (do_enter i call m).
Proof.
  intros Hm Hc. unfold do_enter. destruct (workers m !! call_worker call) as [w|] eqn:Hw; [|done].
  destruct (w_inflight w); [by apply (bok_leaves _ _ _ _ _ _ Hm Hc)|].
  apply (bok_client_only _ _ (Routed call)); try done.
  - apply (bok_worker _ _ w); try done. apply (bok_workers _ Hm _ _ Hw).
  - apply (call_ok_ids (env m)); [|apply (bok_clients _ Hm _ _ Hc)].
    by apply (insert_ids _ _ w).
Qed.

Lemma charge_rest call bytes s r s' :
  charge call bytes s = (r, s') ->
  io_bindings s' = io_bindings s /\ next_binding_token s' = next_binding_token s.
Proof.
  unfold charge, resize, reserve, in_range_of, lift, gets, modify, mbind, mret.
  intros Hc. repeat (case_match; simplify_eq/=; try done).
Qed.

Lemma bok_charge m i call :
  bindings_ok m -> clients m !! i = Some (Entered call) -> bindings_ok (do_charge i call m).
Proof.
  intros Hm Hc. unfold do_charge. cbv zeta.
  destruct (request_queue_bytes _) as [bytes|]; [|by apply (bok_leaves _ _ _ _ _ _ Hm Hc)].
  destruct (charge call bytes (shared m)) as [result s] eqn:Hs. apply charge_rest in Hs as [Hb Hn].
  assert (bindings_ok (set_shared s m)) as Hm' by by apply bok_shared.
  destruct result as [l|error]; [|by apply (bok_leaves _ _ (Entered call))].
  apply (bok_client_only _ _ (Entered call)); try done.
  apply (call_ok_ids (env m)); [done|]. apply (bok_clients _ Hm _ _ Hc).
Qed.

(** *** The in-flight mark keeps reservations apart *)

Abbreviation marks := (holding client_tokens worker_tokens).

(** A thread with the mark of worker [k], against all others. *)
Lemma mark_client_worker m i c k w :
  accounted m -> clients m !! i = Some c -> workers m !! k = Some w -> forall k',
  0 < occurrences (FreeDomain k') (client_tokens c) ->
  0 < occurrences (FreeDomain k') (worker_tokens w) -> False.
Proof.
  intros Ha Hc Hw k' H1' H2'. pose proof (mark_held_once k' m Ha).
  pose proof (holding_client_worker client_tokens worker_tokens (FreeDomain k') _ _ _ _ _ Hc Hw). lia.
Qed.

Lemma mark_clients m i j c c' k :
  accounted m -> i <> j -> clients m !! i = Some c -> clients m !! j = Some c' ->
  0 < occurrences (FreeDomain k) (client_tokens c) ->
  0 < occurrences (FreeDomain k) (client_tokens c') -> False.
Proof.
  intros Ha Hij Hc Hc' H1' H2'. pose proof (mark_held_once k m Ha).
  pose proof (holding_two_clients client_tokens worker_tokens (FreeDomain k) _ _ _ _ _ Hij Hc Hc'). lia.
Qed.

Lemma mark_head k (r : list Release) : 0 < occurrences (FreeDomain k) (FreeDomain k :: r).
Proof.
  pose proof (occurrences_nonneg (FreeDomain k) r). unfold occurrences in *. simpl. rewrite one_same. lia.
Qed.

(** The message of an operation in flight carries the mark of its worker. *)
Lemma queue_mark m k w message :
  bindings_ok m -> workers m !! k = Some w -> w_queue w = Some message ->
  0 < occurrences (FreeDomain k) (worker_tokens w).
Proof.
  intros Hm Hk Hq. unfold worker_tokens. rewrite Hq.
  assert (message ∈ worker_messages w) as Hin.
  { unfold worker_messages. rewrite Hq. simpl. set_solver. }
  destruct (bok_messages _ Hm _ _ _ Hk Hin) as [<- _]. apply mark_head.
Qed.

Lemma stage_mark m k w :
  bindings_ok m -> workers m !! k = Some w ->
  (match w_stage w with Serving _ | Served _ _ | Rolled _ _ => True | _ => False end) ->
  0 < occurrences (FreeDomain k) (stage_tokens (w_stage w)).
Proof.
  intros Hm Hk Hst.
  assert (forall message, stage_message (w_stage w) = Some message -> msg_domain message = k) as Hd.
  { intros message Hmsg. apply (bok_messages _ Hm _ _ message Hk).
    unfold worker_messages. rewrite Hmsg, elem_of_app. right. simpl. set_solver. }
  destruct (w_stage w); try done; simpl in *; rewrite <- (Hd message) by done; apply mark_head.
Qed.

Lemma worker_tokens_stage r w :
  occurrences r (stage_tokens (w_stage w)) <= occurrences r (worker_tokens w).
Proof.
  unfold worker_tokens. rewrite occurrences_app.
  pose proof (occurrences_nonneg r match w_queue w with Some message => message_tokens message | None => [] end).
  lia.
Qed.

(** Where a rollback may still be undone, its domain's mark is held, and the domain is bound
    as the assertions say. *)
Lemma pends_reserved m rb :
  bindings_ok m -> pends m rb ->
  exists request, reserved (env m) (rollback_domain rb) request (Some rb).
Proof.
  intros Hm [(i & c & Hc & Hrb)|(k & w & Hw & Hrb)].
  - destruct c; simplify_eq/=. destruct (bok_clients _ Hm _ _ Hc) as [_ Hr].
    exists (call_request call). destruct Hr as (Hd & Hr). split; [done|]. by rewrite Hd.
  - destruct (bok_workers _ Hm _ _ Hw) as [Hq Hst]. unfold worker_pending in Hrb.
    apply elem_of_app in Hrb as [Hrb|Hrb]; apply elem_option_list in Hrb.
    + apply bind_Some in Hrb as (message & Hmsg & Hrb). pose proof (Hq _ Hmsg) as Hr.
      exists (msg_request message). rewrite Hrb in Hr. destruct Hr as (Hd & Hr). split; [done|]. by rewrite Hd.
    + destruct (w_stage w); simplify_eq/=; (exists (msg_request message); rewrite Hrb in Hst;
        destruct Hst as (Hd & Hr); split; [done|]; by rewrite Hd).
Qed.

Lemma bok_draw m i call l :
  bindings_ok m -> clients m !! i = Some (Charged call l) -> bindings_ok (do_draw i call l m).
Proof.
  intros Hm Hc. pose proof (bok_clients _ Hm _ _ Hc) as Hcall. simpl in Hcall.
  unfold do_draw. destruct (call_owner call) as [owner|] eqn:Ho.
  - unfold draw_token, gets, modify, deny, mfail, mbind, mret. simpl.
    destruct (_ <=? _); [rewrite set_shared_id; by apply (bok_leaves _ _ _ _ _ _ Hm Hc)|].
    apply (bok_client m i (Charged call l)); simpl; try done; [lia| |].
    + split_and!; [done|done|]. split.
      * intros b Hb. pose proof (bok_bindings _ Hm _ _ Hb). lia.
      * intros rb p Hrb _ Hp. destruct (pends_reserved m rb Hm Hrb) as (request & _ & _ & Hr).
        destruct (Hr p Hp) as (_ & Hlt & _). simpl in Hlt. lia.
    + intros t. destruct (decide (t = next_binding_token (shared m))) as [->|Hne]; [right; split; [lia|done]|].
      left. unfold occurrences. simpl. unfold one. rewrite decide_False by congruence. lia.
  - apply (bok_client_only _ _ _ _ Hm Hc); try done. split; [done|]. simpl.
    destruct Hcall as [_ Hcall]. by rewrite Ho in Hcall.
Qed.

Lemma validate_io_binding_Ok bindings d owner (w : W) :
  validate_io_binding bindings d owner w = Ok tt ->
  (forall d' b, d' <> d -> bindings !! d' = Some b -> io_owner_alive (binding_owner b) w = true ->
     same_process (binding_owner b) owner = false) /\
  (forall b, bindings !! d = Some b -> io_owner_alive (binding_owner b) w = false).
Proof.
  unfold validate_io_binding. destruct (existsb _ _) eqn:He; [done|]. intros Hv. split.
  - intros d' b Hd Hb Ha. destruct (same_process (binding_owner b) owner) eqn:Hs; [|done].
    assert (existsb (conflicts_with d owner w) (map_to_list bindings) = true) as Ht; [|congruence].
    apply existsb_exists. exists (d', b). split.
    + apply list_elem_of_In. by apply elem_of_map_to_list.
    + unfold conflicts_with. simpl. by rewrite bool_decide_eq_false_2, Ha, Hs.
  - intros b Hb. rewrite Hb in Hv. by destruct (io_owner_alive _ _).
Qed.

Lemma same_process_sym a b : same_process a b = same_process b a.
Proof.
  unfold same_process. rewrite (Z.eqb_sym (io_pid a)).
  assert (Hsym : forall (A : Type) (eqA : EqDecision A) (x y : A), bool_decide (x = y) = bool_decide (y = x))
    by (intros; apply bool_decide_ext; naive_solver).
  by rewrite (Hsym _ _ (io_instance_id a)), (Hsym _ _ (start_ticks a)), (Hsym _ _ (io_boot_id a)).
Qed.

Lemma worker_ok_shifts d t E E' w :
  env_shifts d t E E' -> t ∉ worker_draws w ->
  (w_queue w <> None -> domain_of w <> d) ->
  (match w_stage w with Serving _ | Served _ _ => domain_of w <> d | _ => True end) ->
  worker_ok E w -> worker_ok E' w.
Proof.
  intros HE Ht Hq Hst [Ho1 Ho2]. unfold worker_draws in Ht. split.
  - intros message Hmsg. apply (reserved_shifts d t E); [done|apply Hq; congruence|by apply Ho1].
  - apply (stage_ok_shifts d t E); [done|set_solver|done|done].
Qed.

Lemma occurrences_elem (t : Z) l : t ∈ l -> 0 < occurrences t l.
Proof.
  intros Hin. unfold occurrences. induction l as [|x l IH]; [set_solver|]. simpl.
  pose proof (occurrences_nonneg t l). unfold occurrences in *. pose proof (one_nonneg t x).
  apply elem_of_cons in Hin as [->|Hin]; [rewrite one_same; lia|]. specialize (IH Hin). lia.
Qed.

(** A token that a thread holds, no other holds. *)
Lemma draw_clients m i j c c' t :
  bindings_ok m -> i <> j -> clients m !! i = Some c -> clients m !! j = Some c' ->
  t ∈ client_draws c -> t ∉ client_draws c'.
Proof.
  intros Hm Hij Hc Hc' Ht Ht'. apply occurrences_elem in Ht, Ht'. destruct (bok_draws _ Hm t) as [Hone _].
  pose proof (holding_two_clients client_draws worker_draws t _ _ _ _ _ Hij Hc Hc'). lia.
Qed.

Lemma draw_client_worker m i k c w t :
  bindings_ok m -> clients m !! i = Some c -> workers m !! k = Some w ->
  t ∈ client_draws c -> t ∈ worker_draws w -> False.
Proof.
  intros Hm Hc Hw Ht Ht'. apply occurrences_elem in Ht, Ht'. destruct (bok_draws _ Hm t) as [Hone _].
  pose proof (holding_client_worker client_draws worker_draws t _ _ _ _ _ Hc Hw). lia.
Qed.

Lemma draw_workers m k k' w w' t :
  bindings_ok m -> k <> k' -> workers m !! k = Some w -> workers m !! k' = Some w' ->
  t ∈ worker_draws w -> t ∉ worker_draws w'.
Proof.
  intros Hm Hk Hw Hw' Ht Ht'. apply occurrences_elem in Ht, Ht'. destruct (bok_draws _ Hm t) as [Hone _].
  pose proof (holding_two_workers client_draws worker_draws t _ _ _ _ _ Hk Hw Hw'). lia.
Qed.

(** Any other bound client is of another domain. *)
Lemma bound_elsewhere m j call l rollback k w :
  bindings_ok m -> clients m !! j = Some (Bound call l rollback) -> workers m !! k = Some w ->
  call_worker call <> k -> call_domain (env m) call <> domain_of w.
Proof.
  intros Hm Hc Hw Hk. destruct (bok_clients _ Hm _ _ Hc) as [[[d Hd] _] _].
  apply (ids_lookup m) in Hd as (w' & Hw' & <-). rewrite (call_domain_worker _ _ _ Hw').
  by apply (domains_distinct m (call_worker call) k).
Qed.

(** While a client holds the mark of [k], the worker [k] has no operation to undo. *)
Lemma worker_elsewhere m i c k k' w w' :
  accounted m -> bindings_ok m -> clients m !! i = Some c ->
  0 < occurrences (FreeDomain k) (client_tokens c) ->
  workers m !! k = Some w -> workers m !! k' = Some w' ->
  (w_queue w' <> None -> domain_of w' <> domain_of w) /\
  (match w_stage w' with Serving _ | Served _ _ => domain_of w' <> domain_of w | _ => True end).
Proof.
  intros Ha Hm Hc Hmark Hw Hw'.
  assert (Hother : 0 < occurrences (FreeDomain k') (worker_tokens w') -> domain_of w' <> domain_of w).
  { intros Hpos. destruct (decide (k' = k)) as [->|Hne]; [|by apply (domains_distinct m k' k)].
    exfalso. by apply (mark_client_worker m i c k w' Ha Hc Hw' k). }
  split.
  - intros Hq. apply Hother. destruct (w_queue w') as [message|] eqn:Hmsg; [|done].
    by apply (queue_mark m k' w' message).
  - destruct (w_stage w') eqn:Hst; try done; apply Hother;
      (assert (Hs : 0 < occurrences (FreeDomain k') (stage_tokens (w_stage w')));
        [apply (stage_mark m); try done; by rewrite Hst
        |pose proof (worker_tokens_stage (FreeDomain k') w'); lia]).
Qed.

(** The reservation itself. *)
Lemma bok_reserve m i call l owner token w :
  accounted m -> bindings_ok m -> clients m !! i = Some (Drawn call l owner token) ->
  workers m !! call_worker call = Some w ->
  validate_io_binding (io_bindings (shared m)) (domain_of w) owner (host_world m) = Ok tt ->
  let rb := mkRollback (domain_of w) token (io_bindings (shared m) !! domain_of w) in
  bindings_ok (set_client i (Bound call l (Some rb))
    (set_shared (set_bindings (<[domain_of w := mkBinding owner token]> (io_bindings (shared m)))
       (shared m)) m)).
Proof.
  intros Ha Hm Hc Hw Hv rb. set (m' := set_client _ _ _).
  apply validate_io_binding_Ok in Hv as [Hothers Hown].
  pose proof (bok_clients _ Hm _ _ Hc) as (Hcall & Howner & [Hst1 Hst2]).
  rewrite (call_domain_worker _ _ _ Hw) in Hst1, Hst2. simpl in Hst1.
  destruct (bok_draws _ Hm token) as [_ Hrange].
  pose proof (holding_client client_draws worker_draws token _ _ _ Hc) as Hheld.
  unfold occurrences in Hheld. simpl in Hheld. rewrite one_same in Hheld. specialize (Hrange ltac:(lia)).
  assert (HE : env_shifts (domain_of w) token (env m) (env m')).
  { apply bind_shifts with (o := owner); try done. intros rb' [(j & c & Hj & Hrb)|Hrb].
    - apply insert_cases in Hj as [[_ Hj']|[-> ->]]; [left; left; eauto|]. simplify_eq/=. by right.
    - left. by right. }
  split.
  - intros j c Hj. apply insert_cases in Hj as [[Hne Hj']|[-> ->]].
    + apply (client_ok_shifts _ _ _ _ _ HE); [|intros call' l' rb' ->|by apply (bok_clients _ Hm j)].
      * apply (draw_clients m i j _ _ _ Hm (not_eq_sym Hne) Hc Hj'). simpl. set_solver.
      * apply (bound_elsewhere _ _ _ _ _ _ _ Hm Hj' Hw). intros Hk.
        apply (mark_clients m i j _ _ (call_worker call) Ha (not_eq_sym Hne) Hc Hj'); [apply mark_head|].
        simpl. rewrite Hk. apply mark_head.
    + split; [done|]. change (call_domain (env m') call) with (call_domain (env m) call).
      rewrite (call_domain_worker _ _ _ Hw). split_and!; [done| |].
      * exists owner. split; [|simpl; by rewrite lookup_insert_eq].
        destruct Hcall as [_ Hcall]. by rewrite Howner in Hcall.
      * intros p Hp. simpl in Hp. split_and!; [by apply Hst1|by apply (bok_bindings _ Hm (domain_of w))|].
        intros Hr. apply runs_alive in Hr. simpl in Hr. specialize (Hown _ Hp). congruence.
  - intros k w' Hk. destruct (worker_elsewhere m i _ (call_worker call) k w w' Ha Hm Hc) as [Hq Hs];
      [apply mark_head|done..|].
    apply (worker_ok_shifts _ _ _ _ _ HE); [|done|done|by apply (bok_workers _ Hm k)].
    intros Ht. apply (draw_client_worker m i k _ _ token Hm Hc Hk); [simpl; set_solver|done].
  - intros k w' message Hk Hmsg. destruct (bok_messages _ Hm _ _ _ Hk Hmsg) as [Hd Haw]. split; [done|].
    by apply (awaits_insert m i _ _ _ _ Hc).
  - intros t. unfold m'. rewrite (holding_set_client _ _ _ (set_shared _ m) _ _ _ Hc), holding_set_shared.
    simpl. pose proof (bok_draws _ Hm t). lia.
  - intros d b. simpl. destruct (decide (domain_of w = d)) as [->|Hne].
    + rewrite lookup_insert_eq. intros [= <-]. simpl. lia.
    + rewrite lookup_insert_ne by done. apply (bok_bindings _ Hm).
  - apply (bok_next _ Hm).
  - apply (bok_ids _ Hm).
  - intros d1 d2 b1 b2 Hd. simpl. rewrite !lookup_insert_Some.
    intros [[<- <-]|[_ Hb1]] [[<- <-]|[_ Hb2]] R1 R2; simpl in *; try done.
    + rewrite same_process_sym. apply (Hothers d2); [done|done|by apply runs_alive].
    + apply (Hothers d1); [done|done|by apply runs_alive].
    + by apply (bok_exclusive _ Hm d1 d2).
Qed.

Lemma bok_bind m i call l owner token :
  accounted m -> bindings_ok m -> clients m !! i = Some (Drawn call l owner token) ->
  bindings_ok (do_bind i call l owner token m).
Proof.
  intros Ha Hm Hc. unfold do_bind. destruct (workers m !! call_worker call) as [w|] eqn:Hw; [|done].
  cbv zeta. destruct (reserve_binding _ _ _ _ _) as [[rb|error] s] eqn:Hs;
    apply reserve_binding_shared in Hs.
  - destruct Hs as (Hv & -> & ->). by apply (bok_reserve m i call l owner token w).
  - subst s. rewrite set_shared_id. by apply (bok_leaves _ _ _ _ _ _ Hm Hc).
Qed.

(** The message takes the reservation over; the queue is free, since the mark is ours. *)
Lemma send_queue_free m i call l rollback w :
  accounted m -> bindings_ok m -> clients m !! i = Some (Bound call l rollback) ->
  workers m !! call_worker call = Some w -> w_queue w = None.
Proof.
  intros Ha Hm Hc Hw. destruct (w_queue w) as [message|] eqn:Hq; [|done]. exfalso.
  apply (mark_client_worker m i _ _ w Ha Hc Hw (call_worker call)); [apply mark_head|].
  by apply (queue_mark m _ _ message).
Qed.

Lemma bok_send m i call l rollback :
  accounted m -> bindings_ok m -> clients m !! i = Some (Bound call l rollback) ->
  bindings_ok (do_send i call l rollback m).
Proof.
  intros Ha Hm Hc. unfold do_send. destruct (workers m !! call_worker call) as [w|] eqn:Hw; [|done].
  rewrite (send_queue_free m i call l rollback w Ha Hm Hc Hw). cbv zeta.
  pose proof (send_queue_free m i call l rollback w Ha Hm Hc Hw) as Hq.
  set (message := mkMessage _ _ _ _ _ _ _). set (w' := with_queue (Some message) w).
  pose proof (bok_clients _ Hm _ _ Hc) as [Hcall Hr]. rewrite (call_domain_worker _ _ _ Hw) in Hr.
  assert (Hpend : forall rb, rollback = Some rb -> pends m rb).
  { intros rb ->. left. eexists _, _. split; [exact Hc|done]. }
  assert (Hwp : forall rb, rb ∈ worker_pending w' -> rb ∈ worker_pending w \/ rollback = Some rb).
  { intros rb. unfold worker_pending. simpl. rewrite Hq. simpl.
    rewrite !elem_of_app, !elem_option_list. naive_solver. }
  apply (bok_frame m); simpl.
  - done.
  - split; simpl; try done; [by apply (insert_ids _ _ w)|].
    intros rb [(j & c & Hj & Hrb)|(k & w0 & Hk & Hrb)].
    + apply insert_cases in Hj as [[_ Hj']|[-> ->]]; [|done]. left. eauto.
    + apply insert_cases in Hk as [[_ Hk']|[-> ->]]; [right; eauto|].
      destruct (Hwp _ Hrb) as [Hrb'|Hrb']; [right; eauto|auto].
  - intros j c Hj. apply insert_cases in Hj as [[_ Hj']|[-> ->]]; [by apply (client_frame m j)|done].
  - intros k w0 Hk. apply insert_cases in Hk as [[_ Hk']|[-> ->]]; [by apply (worker_frame m k)|].
    split.
    + destruct (bok_workers _ Hm _ _ Hw) as [_ Hst]. split; [|done]. by intros message' [= <-].
    + intros rb Hrb. destruct (Hwp _ Hrb) as [Hrb'|Hrb']; [right; eauto|auto].
  - assert (Hold : forall k w0 message0, workers m !! k = Some w0 -> message0 ∈ worker_messages w0 ->
      msg_domain message0 = k /\
      awaits (<[i := Awaiting (call_front call) rollback]> (clients m) !! msg_client message0)
        (msg_rollback message0)).
    { intros k w0 message0 Hk Hmsg. destruct (bok_messages _ Hm _ _ _ Hk Hmsg) as [Hd Haw]. split; [done|].
      by apply (awaits_insert m i _ _ _ _ Hc). }
    intros k w0 message0 Hk Hmsg. apply insert_cases in Hk as [[_ Hk']|[-> ->]]; [by apply (Hold k w0)|].
    unfold worker_messages in Hmsg. simpl in Hmsg. apply elem_of_cons in Hmsg as [->|Hmsg].
    + split; [done|]. simpl. by rewrite list_lookup_insert_eq by (by eapply lookup_lt_Some).
    + apply (Hold _ w); [done|]. unfold worker_messages. by rewrite Hq.
  - intros t. rewrite (holding_set_client _ _ _ (set_worker _ _ m) _ _ _ Hc), (holding_set_worker _ _ _ _ _ _ _ Hw).
    pose proof (bok_draws _ Hm t) as Ht. unfold worker_draws, occurrences in *. simpl. rewrite Hq.
    simpl. rewrite !zsum_app. lia.
  - done.
Qed.

(** A client never undoes anything: by the time it could, its worker has done so. *)
Lemma apply_rollback_stale m rb :
  stale (env m) (rollback_domain rb) (rollback_token rb) ->
  apply_rollback rb (shared m) = shared m.
Proof.
  intros [Hb _]. unfold apply_rollback. destruct (io_bindings (shared m) !! _) as [b|] eqn:He; [|done].
  specialize (Hb b He). destruct (Z.eqb_spec (binding_token b) (rollback_token rb)); done.
Qed.

Lemma leaving_undoes_nothing m i front rollback result :
  bindings_ok m -> clients m !! i = Some (Leaving front [] rollback result) ->
  undoes result = true -> apply_optional rollback (shared m) = shared m.
Proof.
  intros Hm Hc Hu. destruct rollback as [rb|]; [|done]. apply apply_rollback_stale.
  by apply (bok_clients _ Hm _ _ Hc).
Qed.

Lemma bok_leave m i front drops rollback result :
  bindings_ok m -> clients m !! i = Some (Leaving front drops rollback result) ->
  bindings_ok (do_leave i front drops rollback result m).
Proof.
  intros Hm Hc. destruct drops as [|r drops]; simpl.
  - assert ((if undoes result then set_shared (apply_optional rollback (shared m)) m else m) = m) as ->.
    { destruct (undoes result) eqn:Hu; [|done].
      rewrite (leaving_undoes_nothing m i front rollback result) by done. apply set_shared_id. }
    by apply (bok_client_only _ _ _ _ Hm Hc).
  - apply bok_release, (bok_client_only _ _ _ _ Hm Hc); try done. apply (bok_clients _ Hm _ _ Hc).
Qed.

Lemma bok_finish m i front result :
  bindings_ok m -> clients m !! i = Some (Done front result) -> bindings_ok (do_finish i front m).
Proof.
  intros Hm Hc. unfold do_finish. apply (bok_client_only _ _ (Done front result)); try done.
  destruct front as [l|]; apply bok_shared; try done; simpl; unfold drop_permit; by case_match.
Qed.

Lemma bok_advance m i c :
  accounted m -> bindings_ok m -> clients m !! i = Some c -> bindings_ok (advance i c m).
Proof.
  intros Ha Hm Hc. destruct c; simpl; try done.
  - by apply bok_route.
  - by apply bok_enter.
  - by apply bok_charge.
  - by apply bok_draw.
  - by apply bok_bind.
  - by apply bok_send.
  - by apply bok_leave.
  - by eapply bok_finish.
Qed.

(** *** Sections of a worker *)

Lemma bok_reply m k w message result :
  bindings_ok m -> workers m !! k = Some w -> w_stage w = Freed message result ->
  bindings_ok (set_stage k Sweeping (answer message result m)).
Proof.
  intros Hm Hk Hst.
  assert (Hquiet : bindings_ok (set_stage k Sweeping m)).
  { by apply (bok_stage m k w). }
  unfold answer. destruct (clients m !! msg_client message) as [c|] eqn:Hc; [|done].
  destruct c as [| | | | | | | | |front rollback| | |]; try done.
  set (j := msg_client message) in *. set (c' := Leaving front [] rollback result).
  assert (Hin : message ∈ worker_messages w).
  { unfold worker_messages. rewrite Hst, elem_of_app. right. simpl. set_solver. }
  destruct (bok_messages _ Hm _ _ _ Hk Hin) as [_ Haw]. unfold awaits in Haw. fold j in Haw.
  rewrite Hc in Haw. subst rollback.
  unfold set_stage, update_worker. simpl. rewrite Hk. set (w' := with_stage Sweeping w).
  assert (Hwp : forall rb, rb ∈ worker_pending w' -> rb ∈ worker_pending w).
  { intros rb. unfold worker_pending. simpl. rewrite !elem_of_app. simpl. set_solver. }
  apply (bok_frame m); simpl.
  - done.
  - split; simpl; try done; [by apply (insert_ids _ _ w)|].
    intros rb [(j0 & c0 & Hj & Hrb)|(k0 & w0 & Hk0 & Hrb)].
    + apply insert_cases in Hj as [[_ Hj']|[-> ->]]; [|done]. left. eauto.
    + apply insert_cases in Hk0 as [[_ Hk']|[-> ->]]; right; eauto.
  - intros j0 c0 Hj. apply insert_cases in Hj as [[_ Hj']|[-> ->]]; [by apply (client_frame m j0)|].
    split; [|done]. unfold c'. simpl. destruct (msg_rollback message) as [rb|] eqn:Hrb; [|done].
    intros Hu. destruct (bok_workers _ Hm _ _ Hk) as [_ Hs]. rewrite Hst in Hs.
    destruct (Hs ltac:(by destruct result) rb Hrb) as [-> Hstale]. done.
  - intros k0 w0 Hk0. apply insert_cases in Hk0 as [[_ Hk']|[-> ->]]; [by apply (worker_frame m k0)|].
    split; [|intros rb Hrb; right; eauto]. destruct (bok_workers _ Hm _ _ Hk) as [Hq _]. done.
  - intros k0 w0 message0 Hk0 Hmsg.
    assert (Hold : exists w1, workers m !! k0 = Some w1 /\ message0 ∈ worker_messages w1).
    { apply insert_cases in Hk0 as [[_ Hk']|[-> ->]]; [eauto|]. exists w. split; [done|].
      unfold worker_messages in *. simpl in Hmsg. rewrite elem_of_app in *. set_solver. }
    destruct Hold as (w1 & Hk1 & Hin1). destruct (bok_messages _ Hm _ _ _ Hk1 Hin1) as [Hd Haw].
    split; [done|]. by apply (awaits_insert m j _ _ _ _ Hc).
  - intros t. rewrite (holding_set_worker _ _ _ (set_client j c' m) _ _ _ Hk),
      (holding_set_client _ _ _ _ _ _ _ Hc). pose proof (bok_draws _ Hm t) as Ht.
    unfold worker_draws, occurrences in *. simpl. rewrite Hst. simpl. rewrite !zsum_app. simpl.
    pose proof (occurrences_nonneg t (rollback_tokens (msg_rollback message))).
    unfold occurrences in *. destruct (undoes result); simpl; lia.
  - done.
Qed.

Lemma apply_rollback_bindings rb s b :
  io_bindings s !! rollback_domain rb = Some b -> binding_token b = rollback_token rb ->
  (forall d, d <> rollback_domain rb ->
     io_bindings (apply_rollback rb s) !! d = io_bindings s !! d) /\
  io_bindings (apply_rollback rb s) !! rollback_domain rb = rollback_previous rb.
Proof.
  intros Hb Ht. unfold apply_rollback. rewrite Hb, Ht, Z.eqb_refl. simpl. split.
  - intros d Hd. destruct (rollback_previous rb); by rewrite ?lookup_insert_ne, ?lookup_delete_ne.
  - destruct (rollback_previous rb); by rewrite ?lookup_insert_eq, ?lookup_delete_eq.
Qed.

Lemma stage_marked m k w :
  bindings_ok m -> workers m !! k = Some w ->
  (match w_stage w with Serving _ | Served _ _ => True | _ => False end) ->
  0 < occurrences (FreeDomain k) (worker_tokens w).
Proof.
  intros Hm Hk Hst. pose proof (worker_tokens_stage (FreeDomain k) w).
  pose proof (stage_mark m k w Hm Hk) as Hs. destruct (w_stage w); try done; specialize (Hs I); lia.
Qed.

Lemma serving_queue_free m k w :
  accounted m -> bindings_ok m -> workers m !! k = Some w ->
  (match w_stage w with Serving _ | Served _ _ => True | _ => False end) -> w_queue w = None.
Proof.
  intros Ha Hm Hk Hst. destruct (w_queue w) as [message|] eqn:Hq; [|done]. exfalso.
  assert (message ∈ worker_messages w) as Hin by (unfold worker_messages; rewrite Hq; simpl; set_solver).
  destruct (bok_messages _ Hm _ _ _ Hk Hin) as [Hd _]. pose proof (mark_held_once k m Ha).
  pose proof (holding_worker client_tokens worker_tokens (FreeDomain k) _ _ _ Hk) as Hh.
  assert (worker_tokens w = message_tokens message ++ stage_tokens (w_stage w)) as E
    by (unfold worker_tokens; by rewrite Hq).
  rewrite E, occurrences_app in Hh. unfold message_tokens in Hh. rewrite Hd in Hh.
  pose proof (mark_head k [ReturnPermit (msg_permit message)]).
  pose proof (stage_mark m k w Hm Hk) as Hs. destruct (w_stage w); try done; specialize (Hs I); lia.
Qed.

(** While a worker has its mark, no rollback of another thread concerns its domain. *)
Lemma pends_elsewhere m k w rb :
  accounted m -> bindings_ok m -> workers m !! k = Some w ->
  0 < occurrences (FreeDomain k) (worker_tokens w) ->
  (exists i c, clients m !! i = Some c /\ client_pending c = Some rb) \/
  (exists k' w', k' <> k /\ workers m !! k' = Some w' /\ rb ∈ worker_pending w') ->
  rollback_domain rb <> domain_of w.
Proof.
  intros Ha Hm Hk Hmark [(i & c & Hc & Hrb)|(k' & w' & Hne & Hk' & Hrb)].
  - destruct c as [| | | | | | | |call l rollback| | | |]; try done. simpl in Hrb. subst rollback.
    destruct (bok_clients _ Hm _ _ Hc) as [_ (Hd & _)]. rewrite Hd.
    apply (bound_elsewhere m i call l _ k w Hm Hc Hk). intros Hcall.
    apply (mark_client_worker m i _ k w Ha Hc Hk k); [simpl; rewrite Hcall; apply mark_head|done].
  - assert (rollback_domain rb = domain_of w') as ->; [|by apply (domains_distinct m k' k)].
    destruct (bok_workers _ Hm _ _ Hk') as [Hq Hs]. unfold worker_pending in Hrb.
    apply elem_of_app in Hrb as [Hin|Hin]; apply elem_option_list in Hin.
    + apply bind_Some in Hin as (message & Hmsg & Hin). specialize (Hq _ Hmsg).
      rewrite Hin in Hq. apply Hq.
    + destruct (w_stage w'); simplify_eq/=; rewrite Hin in Hs; apply Hs.
Qed.

Lemma bok_undo m k w message error rb :
  accounted m -> bindings_ok m -> workers m !! k = Some w ->
  w_stage w = Served message (Err error) -> msg_rollback message = Some rb ->
  bindings_ok (set_worker k (with_stage (Rolled message (Err error)) w)
    (set_shared (apply_rollback rb (shared m)) m)).
Proof.
  intros Ha Hm Hk Hst Hrb. set (w' := with_stage _ w). set (m' := set_worker _ _ _).
  destruct (bok_workers _ Hm _ _ Hk) as [_ Hs]. rewrite Hst in Hs. simpl in Hs. rewrite Hrb in Hs.
  destruct Hs as (Hd & (o & _ & Hb) & Hprev). simpl in Hb, Hprev. rewrite <- Hd in Hb.
  destruct (apply_rollback_bindings rb (shared m) _ Hb eq_refl) as [Hne Heq].
  pose proof (apply_rollback_rest rb (shared m)) as (_ & _ & _ & Hn).
  assert (Hst' : match w_stage w with Serving _ | Served _ _ => True | _ => False end) by by rewrite Hst.
  assert (Hmark : 0 < occurrences (FreeDomain k) (worker_tokens w)) by by apply (stage_marked m).
  assert (Hq : w_queue w = None) by by apply (serving_queue_free m k).
  assert (Hpr : pends m rb).
  { right. exists k, w. split; [done|]. unfold worker_pending. rewrite Hst. simpl. rewrite Hrb. set_solver. }
  assert (Hwp : worker_pending w' = []) by (unfold worker_pending; simpl; by rewrite Hq).
  assert (Hpend : forall rb', pends m' rb' -> pends m rb').
  { intros rb' [Hc|(k0 & w0 & Hk0 & Hrb')]; [by left|].
    apply insert_cases in Hk0 as [[_ Hk']|[-> ->]]; [right; eauto|]. rewrite Hwp in Hrb'. set_solver. }
  assert (HE : env_shifts (rollback_domain rb) (rollback_token rb) (env m) (env m')).
  { apply (undo_shifts _ _ (shared m)); try done. by apply (insert_ids _ _ w). }
  assert (Htok : rollback_token rb ∈ worker_draws w).
  { unfold worker_draws. rewrite Hst. simpl. rewrite Hrb. set_solver. }
  split.
  - intros i c Hc. apply (client_ok_shifts _ _ _ _ _ HE); [|intros call l rollback ->|by apply (bok_clients _ Hm i)].
    + intros Ht. by apply (draw_client_worker m i k _ _ _ Hm Hc Hk Ht).
    + rewrite Hd. apply (bound_elsewhere _ _ _ _ _ _ _ Hm Hc Hk). intros Hcall.
      apply (mark_client_worker m i _ k w Ha Hc Hk k); [simpl; rewrite Hcall; apply mark_head|done].
  - intros k0 w0 Hk0. apply insert_cases in Hk0 as [[Hne0 Hk']|[-> ->]].
    + assert (domain_of w0 <> rollback_domain rb) by (rewrite Hd; by apply (domains_distinct m k0 k)).
      apply (worker_ok_shifts _ _ _ _ _ HE); [|done|by destruct (w_stage w0)|by apply (bok_workers _ Hm k0)].
      by apply (draw_workers m k k0 w).
    + split; [simpl; by rewrite Hq|]. simpl. intros _ rb' Hrb'. rewrite Hrb in Hrb'. injection Hrb' as <-.
      split; [done|]. change (domain_of w') with (domain_of w). split.
      * intros b. simpl. rewrite <- Hd, Heq. intros Hp. by apply (Hprev b).
      * intros rb' p Hpr' Hd' Hp. exfalso.
        destruct Hpr' as [Hpc|(k1 & w1 & Hk1 & Hrb')].
        -- refine (pends_elsewhere m k w rb' Ha Hm Hk Hmark _ Hd'). by left.
        -- apply insert_cases in Hk1 as [[Hne1 Hk']|[-> ->]]; [|rewrite Hwp in Hrb'; set_solver].
           refine (pends_elsewhere m k w rb' Ha Hm Hk Hmark _ Hd'). right. eauto.
  - intros k0 w0 message0 Hk0 Hmsg. apply insert_cases in Hk0 as [[Hne0 Hk']|[-> ->]].
    + by apply (bok_messages _ Hm k0 w0).
    + apply (bok_messages _ Hm k w); [done|]. unfold worker_messages in *. by rewrite Hst.
  - intros t. simpl. rewrite Hn. unfold m'.
    rewrite (holding_set_worker _ _ _ (set_shared _ m) _ _ _ Hk), holding_set_shared.
    assert (worker_draws w' = worker_draws w) as -> by (unfold worker_draws; simpl; by rewrite Hst).
    pose proof (bok_draws _ Hm t). lia.
  - intros d b. simpl. rewrite Hn. destruct (decide (d = rollback_domain rb)) as [->|Hdd].
    + rewrite Heq. intros Hp. by apply (Hprev b).
    + rewrite Hne by done. apply (bok_bindings _ Hm).
  - simpl. rewrite Hn. apply (bok_next _ Hm).
  - change (NoDup (map domain_of (<[k := w']> (workers m)))). rewrite (insert_ids _ _ w) by done.
    apply (bok_ids _ Hm).
  - intros d1 d2 b1 b2 Hdd. simpl. intros Hb1 Hb2 R1 R2.
    destruct (decide (d1 = rollback_domain rb)) as [->|Hd1].
    { rewrite Heq in Hb1. destruct (Hprev _ Hb1) as (_ & _ & Hdead). done. }
    destruct (decide (d2 = rollback_domain rb)) as [->|Hd2].
    { rewrite Heq in Hb2. destruct (Hprev _ Hb2) as (_ & _ & Hdead). done. }
    rewrite Hne in Hb1, Hb2 by done. by apply (bok_exclusive _ Hm d1 d2).
Qed.

Lemma bok_served m k w message result :
  accounted m -> bindings_ok m -> workers m !! k = Some w -> w_stage w = Served message result ->
  bindings_ok (set_stage k (Rolled message result)
    (if is_ok result then m
     else set_shared (apply_optional (msg_rollback message) (shared m)) m)).
Proof.
  intros Ha Hm Hk Hst.
  assert (Hquiet : is_ok result = true \/ msg_rollback message = None ->
    bindings_ok (set_stage k (Rolled message result) m)).
  { intros Hcase. apply (bok_stage m k w); try done; [|by rewrite Hst; intros ? [= <-]].
    intros He rb Hrb. destruct Hcase; congruence. }
  destruct result as [reply|error]; [by apply Hquiet; left|]. simpl.
  destruct (msg_rollback message) as [rb|] eqn:Hrb; simpl; [|rewrite set_shared_id; apply Hquiet; by right].
  unfold set_stage, update_worker. simpl. rewrite Hk. by apply bok_undo.
Qed.

Lemma bok_work m k now : accounted m -> bindings_ok m -> bindings_ok (work k now m).
Proof.
  intros Ha Hm. unfold work. destruct (workers m !! k) as [w|] eqn:Hk; [|done].
  pose proof (bok_workers _ Hm _ _ Hk) as [Hqok Hsok].
  destruct (w_stage w) as [|message|message result|message result|message result|message result|] eqn:Hst.
  - destruct (w_queue w) as [message|] eqn:Hq; [|by apply (bok_stage m k w)].
    apply (bok_worker m k w); try done.
    + split; [done|]. by apply Hqok.
    + intros rb. unfold worker_pending. simpl. rewrite Hq, Hst. simpl. set_solver.
    + intros message'. unfold worker_messages. simpl. rewrite Hq, Hst. simpl. set_solver.
    + intros t. unfold worker_draws. simpl. rewrite Hq, Hst. simpl. by rewrite app_nil_r.
  - unfold process_message. destruct (infra_process _ _ _ _) as [result service].
    apply (bok_worker m k w); try done.
    + intros rb. unfold worker_pending. simpl. by rewrite Hst.
    + intros message'. unfold worker_messages. simpl. by rewrite Hst.
    + intros t. unfold worker_draws. simpl. by rewrite Hst.
  - by apply (bok_served m k w).
  - pose proof (bok_release m (ReturnPermit (msg_permit message)) Hm) as Hm'.
    apply (bok_stage _ k w); try done; [|by rewrite Hst; intros ? [= <-]].
    destruct (bok_workers _ Hm' _ _ Hk) as [_ Hs]. by rewrite Hst in Hs.
  - pose proof (bok_release m (FreeDomain (msg_domain message)) Hm) as Hm'.
    assert (exists w', workers (do_release (FreeDomain (msg_domain message)) m) !! k = Some w' /\
      domain_of w' = domain_of w /\ w_stage w' = w_stage w) as (w' & Hk' & Hd' & Hs').
    { simpl. unfold update_worker. destruct (workers m !! msg_domain message) as [w0|] eqn:Hk0;
        [|by exists w]. simpl. destruct (decide (msg_domain message = k)) as [Heq|];
        [|exists w; by rewrite list_lookup_insert_ne]. rewrite Heq in *.
      rewrite list_lookup_insert_eq by (by eapply lookup_lt_Some). assert (w0 = w) as -> by congruence. by eexists. }
    apply (bok_stage _ k w'); try done; [|by rewrite Hs', Hst; intros ? [= <-]].
    destruct (bok_workers _ Hm' _ _ Hk') as [_ Hs]. by rewrite Hs', Hst in Hs.
  - by apply (bok_reply m k w).
  - apply (bok_worker m k w); try done.
    + intros rb. unfold worker_pending. simpl. by rewrite Hst.
    + intros message'. unfold worker_messages. simpl. by rewrite Hst.
    + intros t. unfold worker_draws. simpl. by rewrite Hst.
Qed.

(** *** Every step *)

Lemma client_rollback_pending c rb : client_pending c = Some rb -> client_rollback c = Some rb.
Proof. by destruct c. Qed.

Lemma pends_known m rb p :
  pends m rb -> rollback_previous rb = Some p -> known (binding_owner p) m.
Proof.
  intros Hrb Hp. right. exists rb, p. split_and!; [|done|done]. unfold rollbacks. apply elem_of_app.
  destruct Hrb as [(i & c & Hc & Hrb)|(k & w & Hw & Hrb)].
  - left. apply list_elem_of_omap. exists c. split; [by eapply list_elem_of_lookup_2|].
    by apply client_rollback_pending.
  - right. apply list_elem_of_omap. unfold worker_pending in Hrb.
    apply elem_of_app in Hrb as [Hin|Hin]; apply elem_option_list in Hin.
    + apply bind_Some in Hin as (message & Hmsg & Hin). exists message. split; [|done].
      apply list_elem_of_join. exists (worker_messages w). split.
      * unfold worker_messages. rewrite Hmsg. simpl. set_solver.
      * apply list_elem_of_fmap. exists w. split; [done|by eapply list_elem_of_lookup_2].
    + assert (exists message, stage_message (w_stage w) = Some message /\ msg_rollback message = Some rb)
        as (message & Hmsg & Hr) by (destruct (w_stage w); simplify_eq/=; eauto).
      exists message. split; [|done].
      apply list_elem_of_join. exists (worker_messages w). split.
      * unfold worker_messages. rewrite Hmsg. simpl. set_solver.
      * apply list_elem_of_fmap. exists w. split; [done|by eapply list_elem_of_lookup_2].
Qed.

Lemma bok_host m (w : W) :
  bindings_ok m -> (forall o, known o m -> runs o w -> runs o (host_world m)) ->
  bindings_ok (set_host w m).
Proof.
  intros Hm Hw. apply (bok_frame m); simpl.
  - done.
  - split; simpl; try done. intros rb p Hrb Hp Hdead Hr. apply Hdead, Hw; [|done]. by apply (pends_known m rb).
  - intros i c Hi. by apply (client_frame m i).
  - intros k w0 Hk. by apply (worker_frame m k).
  - apply (bok_messages _ Hm).
  - apply (bok_draws _ Hm).
  - intros d b Hb. apply Hw. left. eauto.
Qed.

Lemma bok_attached m b : bindings_ok m -> bindings_ok (set_attached b m).
Proof.
  intros Hm. apply (bok_frame m); simpl; try done.
  - intros i c. by apply client_frame.
  - intros k w. by apply worker_frame.
  - apply (bok_messages _ Hm).
  - apply (bok_draws _ Hm).
Qed.

Lemma bok_step m m' : accounted m -> bindings_ok m -> step m m' -> bindings_ok m'.
Proof.
  intros Ha Hm Hs. destruct Hs as [request peer now _| |_ _|_|i l ready Hc|i l Hq _|i l received Hc _
    |i c Hc|i front rollback Hc|k now|w Hw|k worker w Hk _].
  - by apply bok_add_client.
  - unfold attach_front. destruct (front_attached m); [done|]. by apply bok_attached.
  - by apply bok_attached.
  - destruct (dispatch_cases m) as [->|(l & s & Hr & ->)]; [done|].
    apply bok_add_client; try done. apply reserve_same in Hr as [(_ & Hb & Hn) _]. by apply bok_shared.
  - unfold do_submit. cbv zeta. case_match; [by apply (bok_client_only _ _ _ _ Hm Hc)|].
    by apply (bok_leaves _ _ _ _ _ _ Hm Hc).
  - apply next_queued_Some in Hq. unfold do_pick. apply (bok_client_only _ _ (Queued l)); try done.
    by apply bok_shared.
  - unfold do_receive. destruct received as [[[request peer] now]|];
      [by apply (bok_client_only _ _ _ _ Hm Hc)|by apply (bok_leaves _ _ _ _ _ _ Hm Hc)].
  - by apply bok_advance.
  - unfold do_timeout. apply (bok_client_only _ _ _ _ Hm Hc); try done. by destruct rollback.
  - by apply bok_work.
  - by apply bok_host.
  - apply (bok_worker m k worker); try done. apply (bok_workers _ Hm _ _ Hk).
Qed.
End Bindings.
