(* ===== verification/DomainFacts.v ===== *)
(** * Properties of the domain router

    What [MultiDomainService::new] checks, and what holds in every state reached from there:
    the budget, one operation per domain, and the exclusive reservation of I/O processes. *)
From stdpp Require Import base tactics list numbers option gmap strings.
From Stdlib Require Import ZArith Lia.
From S2P Require Import Prelude Ipv4 Wire Proto Network Service InfraProto Infra InfraContract.
From S2P Require Import InfraHandlers InfraHistory Domains DomainSteps DomainLedger DomainBindings.

#[local] Open Scope Z_scope.

(** Taking the lock of a journal starts no process and touches no journal. *)
Class LockLaws (W : Type) `{!NetworkBackend W} `{!InfrastructureBackend W} `{!InfraHost W}
    `{!DomainHost W} `{!InfraMachine W} `{!ProcessTable W} := {
  lock_runs : forall path w w' o, lock_journal path w = Ok (Some w') -> runs o w' -> runs o w;
  lock_file : forall path w w' d, lock_journal path w = Ok (Some w') ->
    file (in_domain d w') = file (in_domain d w);
}.

Section Admission.
Context {W : Type} `{!DomainHost W} `{!Layout}.

(** The limits are values of [usize]. *)
Definition is_usize (v : Z) : Prop := 0 <= v < 2 ^ usize_bits.
Definition budgets_typed (b : DomainBudgets) : Prop :=
  is_usize (max_domains b) /\ is_usize (front_control_threads b) /\
  is_usize (max_control_threads b) /\ is_usize (thread_stack_bytes b) /\
  is_usize (max_total_stack_bytes b) /\ is_usize (max_pending_control_requests b) /\
  is_usize (max_pending_control_bytes b) /\ is_usize (max_reserved_fds b).

(** Everything the router will use fits the budgets and the limit of the process. *)
Definition within_budgets (b : DomainBudgets) (n open limit : Z) : Prop :=
  let threads := n + front_control_threads b in
  1 <= n <= max_domains b /\
  2 <= front_control_threads b <= max_pending_control_requests b /\
  threads <= max_control_threads b /\
  MIN_CONTROL_THREAD_STACK_BYTES <= thread_stack_bytes b /\
  threads * thread_stack_bytes b <= max_total_stack_bytes b /\
  front_control_threads b * FRONT_REQUEST_BYTES <= max_pending_control_bytes b /\
  open + RESERVED_DOMAIN_FDS * n + 2 * Z.min (max_pending_control_requests b) (2 * n)
    + CONTROL_FD_SAFETY_MARGIN + max_pending_control_requests b
  <= Z.min limit (max_reserved_fds b).

Lemma usize_ok v : is_usize v -> usize v = Some v.
Proof.
  unfold is_usize, usize. intros Hv. assert (((0 <=? v) && (v <? 2 ^ usize_bits)) = true) as ->; [|done].
  apply andb_true_iff. lia.
Qed.

Lemma budget_ok resource required allowed :
  required <= allowed -> budget resource required allowed = Ok tt.
Proof. unfold budget. destruct (Z.ltb_spec allowed required); [lia|done]. Qed.

Lemma overflow_Ok {A} (o : option A) a : overflow o = Ok a -> o = Some a.
Proof. unfold overflow, ok_or. destruct o; [by intros [= ->]|done]. Qed.

(** The descriptors reserved, when the sum does not overflow. *)
Lemma reserved_descriptors_spec b n open v :
  0 <= n -> 0 <= max_pending_control_requests b -> 0 <= open ->
  is_usize v ->
  reserved_descriptors b n open = Some v <->
  v = open + RESERVED_DOMAIN_FDS * n + 2 * Z.min (max_pending_control_requests b) (2 * n)
      + CONTROL_FD_SAFETY_MARGIN + max_pending_control_requests b.
Proof.
  intros Hn Hp Ho [_ Hv]. unfold reserved_descriptors, saturating_mul, RESERVED_DOMAIN_FDS, CONTROL_FD_SAFETY_MARGIN.
  unfold checked_mul, checked_add. split.
  - intros Hr.
    apply bind_Some in Hr as (v1 & [-> Hv1]%usize_Some & Hr).
    apply bind_Some in Hr as (v2 & [-> Hv2]%usize_Some & Hr).
    apply bind_Some in Hr as (v3 & [-> Hv3]%usize_Some & Hr).
    apply bind_Some in Hr as (v4 & [-> Hv4]%usize_Some & Hr).
    apply bind_Some in Hr as (v5 & [-> Hv5]%usize_Some & Hr).
    apply usize_Some in Hr as [-> Hr]. lia.
  - intros ->. assert (Hmin : Z.min (n * 2) (2 ^ usize_bits - 1) = 2 * n) by lia. rewrite Hmin.
    repeat (rewrite usize_ok by (unfold is_usize; lia); simpl). f_equal. lia.
Qed.

(** Admission: a configuration is accepted exactly if it names a domain and the threads,
    their stacks, the front's requests with their memory, and the descriptors to reserve fit
    the configured budgets and the process limit; no intermediate sum overflows. *)
Theorem admission_exact domains (w : W) open limit :
  budgets_typed (budgets domains) -> 0 <= open ->
  open_descriptors w = Ok open -> nofile_soft_limit w = Ok limit ->
  validate_resource_admission domains w = Ok tt <->
  within_budgets (budgets domains) (Z.of_nat (length (cfg_domains domains))) open limit.
Proof.
  intros (T1 & T2 & T3 & T4 & T5 & T6 & T7 & T8) Hopen Ho Hl.
  unfold validate_resource_admission, budgets_admit, within_budgets. rewrite Ho, Hl. simpl.
  set (b := budgets domains) in *. set (n := Z.of_nat (length (cfg_domains domains))).
  assert (Hn : bool_decide (cfg_domains domains = []) = (n <? 1)).
  { unfold n. destruct (cfg_domains domains); [done|]. simpl length.
    rewrite bool_decide_eq_false_2 by done. symmetry. apply Z.ltb_ge. lia. }
  rewrite Hn. unfold is_usize in *. destruct (Z.ltb_spec n 1); [split; [done|lia]|].
  unfold checked_add at 1, checked_mul at 1 2. split.
  - intros Ha. apply result_bind_Ok in Ha as ([] & B1%budget_Ok & Ha).
    apply result_bind_Ok in Ha as ([] & B2%budget_Ok & Ha).
    apply result_bind_Ok in Ha as (t & [-> _]%overflow_Ok%usize_Some & Ha).
    apply result_bind_Ok in Ha as ([] & B3%budget_Ok & Ha).
    apply result_bind_Ok in Ha as ([] & B4%budget_Ok & Ha).
    apply result_bind_Ok in Ha as (st & [-> _]%overflow_Ok%usize_Some & Ha).
    apply result_bind_Ok in Ha as ([] & B5%budget_Ok & Ha).
    apply result_bind_Ok in Ha as ([] & B6%budget_Ok & Ha).
    apply result_bind_Ok in Ha as (fr & [-> _]%overflow_Ok%usize_Some & Ha).
    apply result_bind_Ok in Ha as ([] & B7%budget_Ok & Ha).
    apply result_bind_Ok in Ha as (d & Hd%overflow_Ok & Ha).
    apply result_bind_Ok in Ha as ([] & B8%budget_Ok & Ha). apply budget_Ok in Ha.
    apply reserved_descriptors_spec in Hd; [lia..|].
    unfold reserved_descriptors in Hd. unfold is_usize.
    repeat (apply bind_Some in Hd as (? & _ & Hd)). apply usize_Some in Hd as [-> Hd]. lia.
  - intros (B1 & B2 & B3 & B4 & B5 & B6 & B7).
    rewrite !budget_ok by lia. simpl. rewrite usize_ok by (unfold is_usize; lia). simpl.
    rewrite !budget_ok by lia. simpl. unfold MIN_CONTROL_THREAD_STACK_BYTES in *.
    assert (0 <= (n + front_control_threads b) * thread_stack_bytes b) by nia.
    assert (0 <= front_control_threads b * FRONT_REQUEST_BYTES)
      by (unfold FRONT_REQUEST_BYTES, MAX_NETD_FRAME_LEN; lia).
    rewrite usize_ok by (unfold is_usize; lia). simpl. rewrite !budget_ok by lia. simpl.
    rewrite usize_ok by (unfold is_usize; lia). simpl. rewrite !budget_ok by lia. simpl.
    assert (Hd : reserved_descriptors b n open = Some (open + RESERVED_DOMAIN_FDS * n
      + 2 * Z.min (max_pending_control_requests b) (2 * n) + CONTROL_FD_SAFETY_MARGIN
      + max_pending_control_requests b)).
    { apply reserved_descriptors_spec; [lia..| |done].
      unfold is_usize, RESERVED_DOMAIN_FDS, CONTROL_FD_SAFETY_MARGIN in *. lia. }
    rewrite Hd. simpl. rewrite !budget_ok by lia. done.
Qed.
End Admission.

(** ** Startup *)

Section Startup.
Context {W : Type} `{!NetworkBackend W} `{!InfrastructureBackend W} `{!InfraHost W}
  `{!DomainHost W} `{!JournalFormat} `{!Layout} `{!InfraMachine W} `{!ProcessTable W}
  `{!LockLaws W}.
Implicit Types (m : MultiDomainService W).

Definition namespace_of (id : DomainIdentity) : Z * Z := (id_netns_device id, id_netns_inode id).

(** The journal of the domain, read inside it, names this domain only. *)
Definition journal_valid (w : W) (id : DomainIdentity) : Prop :=
  exists s, load_journal (file (in_domain (config id) w)) = Ok s /\ validate_journal id s = Ok tt.

Definition exclusive_in (bindings : gmap (list Z) IoBinding) (w : W) : Prop :=
  forall d1 d2 b1 b2, d1 <> d2 -> bindings !! d1 = Some b1 -> bindings !! d2 = Some b2 ->
    runs (binding_owner b1) w -> runs (binding_owner b2) w ->
    same_process (binding_owner b1) (binding_owner b2) = false.

Record startup_ok (current : Z * Z) (st : Startup) (w : W) : Prop := {
  sok_ids : NoDup (map (fun p => cfg_domain_id (config p.1)) (prepared st));
  sok_infras : NoDup (map (fun p => cfg_infra_id (config p.1)) (prepared st));
  sok_namespaces : NoDup (map (fun p => namespace_of p.1) (prepared st));
  sok_journals : NoDup (map snd (prepared st));
  sok_foreign : Forall (fun p => namespace_of p.1 <> current) (prepared st);
  sok_tables : Forall (fun p =>
    CANDY_TABLE_MIN <= cfg_table_id (config p.1) <= CANDY_TABLE_MAX) (prepared st);
  sok_valid : Forall (fun p => journal_valid w p.1) (prepared st);
  sok_tokens : forall d b, startup_bindings st !! d = Some b -> binding_token b = 0;
  sok_exclusive : exclusive_in (startup_bindings st) w;
}.

Lemma NoDup_snoc {A B} `{!EqDecision B} (f : A -> B) l a :
  NoDup (map f l) -> bool_decide (f a ∈ map f l) = false -> NoDup (map f (l ++ [a])).
Proof.
  intros Hl Ha. apply bool_decide_eq_false in Ha. change (NoDup (f <$> (l ++ [a]))). rewrite fmap_app.
  apply NoDup_app. split_and!; [done| |apply NoDup_singleton].
  intros x Hx [->|[]%elem_of_nil]%elem_of_cons. by apply Ha.
Qed.

Lemma bind_retained_ok domain owner (w : W) bindings bindings' :
  bind_retained domain owner w bindings = Ok bindings' ->
  (forall d b, bindings !! d = Some b -> binding_token b = 0) -> exclusive_in bindings w ->
  (forall d b, bindings' !! d = Some b -> binding_token b = 0) /\ exclusive_in bindings' w.
Proof.
  unfold bind_retained. intros Hb Ht He. destruct owner as [o|]; [|by injection Hb as <-].
  destruct (io_owner_alive o w); [|by injection Hb as <-].
  apply result_bind_Ok in Hb as ([] & Hv & Hb). injection Hb as <-.
  apply validate_io_binding_Ok in Hv as [Hothers _]. split.
  - intros d b. rewrite lookup_insert_Some. naive_solver.
  - intros d1 d2 b1 b2 Hd. rewrite !lookup_insert_Some.
    intros [[<- <-]|[_ Hb1]] [[<- <-]|[_ Hb2]] R1 R2; simpl in *; try done.
    + rewrite same_process_sym. apply (Hothers d2); [done|done|by apply runs_alive].
    + apply (Hothers d1); [done|done|by apply runs_alive].
    + by apply (He d1 d2).
Qed.

Lemma load_domain_journal_Ok domain (w : W) s :
  load_domain_journal domain w = Ok s -> load_journal (file (in_domain domain w)) = Ok s.
Proof.
  unfold load_domain_journal. intros Hl. apply result_bind_Ok in Hl as ([] & _ & Hl).
  apply result_bind_Ok in Hl as (o & Ho & Hl). unfold map_err in *.
  destruct (read_journal _) as [o'|] eqn:Hr; [|done]. injection Ho as ->.
  apply read_journal_spec in Hr as ->. by destruct (load_journal _); simplify_eq.
Qed.

(** The lock taken, everything known of the earlier domains still holds. *)
Lemma journal_valid_lock path (w w' : W) id :
  lock_journal path w = Ok (Some w') -> journal_valid w id -> journal_valid w' id.
Proof. unfold journal_valid. intros Hl. by rewrite (lock_file _ _ _ _ Hl). Qed.

Lemma prepare_domain_ok current domain st (w : W) st' w' :
  startup_ok current st w -> prepare_domain current domain st w = Ok (st', w') ->
  startup_ok current st' w'.
Proof.
  intros Hst. unfold prepare_domain. destruct (configuration_invalid domain st) eqn:Hc; [done|].
  intros Hp. apply result_bind_Ok in Hp as (nsf & _ & Hp).
  destruct (namespace_conflict nsf current st) eqn:Hn; [done|].
  apply result_bind_Ok in Hp as (canonical & _ & Hp). destruct (seen snd canonical st) eqn:Hj; [done|].
  apply result_bind_Ok in Hp as (s & Hs & Hp). apply load_domain_journal_Ok in Hs.
  apply result_bind_Ok in Hp as ([] & Hv & Hp). apply result_bind_Ok in Hp as (bindings & Hb & Hp).
  apply result_bind_Ok in Hp as (locked & Hlk & Hp). apply result_bind_Ok in Hp as (w1 & Hw1 & Hp).
  injection Hp as <- <-. unfold map_err in Hlk. unfold ok_or in Hw1. destruct locked as [w2|]; [|done].
  injection Hw1 as <-. destruct (lock_journal _ _) as [o|] eqn:Hlock; [|done]. injection Hlk as ->.
  unfold configuration_invalid in Hc. rewrite !orb_false_iff in Hc.
  destruct Hc as (((((((_ & _) & Htmin) & Htmax) & _) & _) & Hid) & Hinfra).
  unfold namespace_conflict in Hn. rewrite !orb_false_iff in Hn. destruct Hn as (((_ & _) & Hcur) & Hns).
  apply bool_decide_eq_false in Hcur.
  destruct (bind_retained_ok _ _ _ _ _ Hb (sok_tokens _ _ _ Hst) (sok_exclusive _ _ _ Hst)) as [Ht He].
  set (id := mkIdentity domain (ns_identity nsf).1 (ns_identity nsf).2).
  assert (Hnsid : namespace_of id = ns_identity nsf) by (unfold namespace_of, id; simpl; by destruct (ns_identity nsf)).
  split; simpl.
  - apply (NoDup_snoc (fun p => cfg_domain_id (config p.1))); [apply Hst|done].
  - apply (NoDup_snoc (fun p => cfg_infra_id (config p.1))); [apply Hst|done].
  - apply (NoDup_snoc (fun p => namespace_of p.1)); [apply Hst|]. simpl. by rewrite Hnsid.
  - apply (NoDup_snoc snd); [apply Hst|done].
  - apply Forall_app_2; [apply Hst|]. constructor; [|done]. simpl. by rewrite Hnsid.
  - apply Forall_app_2; [apply Hst|]. constructor; [|done]. simpl. lia.
  - apply Forall_app_2.
    + eapply Forall_impl; [apply (sok_valid _ _ _ Hst)|]. intros p Hp. by apply (journal_valid_lock _ _ _ _ Hlock).
    + constructor; [|done]. apply (journal_valid_lock _ _ _ _ Hlock). by exists s.
  - done.
  - intros d1 d2 b1 b2 Hd Hb1 Hb2 R1 R2. apply (He d1 d2); try done; by eapply lock_runs.
Qed.

Lemma prepare_domain_config current domain st (w : W) st' w' :
  prepare_domain current domain st w = Ok (st', w') ->
  map (fun p => config p.1) (prepared st') = map (fun p => config p.1) (prepared st) ++ [domain].
Proof.
  unfold prepare_domain. intros Hp. case_match; [done|].
  apply result_bind_Ok in Hp as (nsf & _ & Hp). case_match; [done|].
  apply result_bind_Ok in Hp as (canonical & _ & Hp). case_match; [done|].
  repeat (apply result_bind_Ok in Hp as (? & _ & Hp)). injection Hp as <- _. simpl.
  by rewrite map_app.
Qed.

Lemma prepare_domains_ok current l st (w : W) st' w' :
  startup_ok current st w -> prepare_domains current l st w = Ok (st', w') ->
  startup_ok current st' w' /\
  map (fun p => config p.1) (prepared st') = map (fun p => config p.1) (prepared st) ++ l.
Proof.
  revert st w. induction l as [|d l IH]; intros st w Hst Hp; simpl in Hp.
  - injection Hp as <- <-. by rewrite app_nil_r.
  - apply result_bind_Ok in Hp as ([st1 w1] & Hp1 & Hp). simpl in Hp.
    destruct (IH st1 w1 (prepare_domain_ok _ _ _ _ _ _ Hst Hp1) Hp) as [Hok Hmap]. split; [done|].
    rewrite Hmap, (prepare_domain_config _ _ _ _ _ _ Hp1), <- app_assoc. done.
Qed.

(** A worker as its thread enters [run_domain]. *)
Definition fresh_worker (uid gid : Z) (w : W) (worker : Worker W) : Prop :=
  w_inflight worker = false /\ w_queue worker = None /\ w_stage worker = Idle /\
  InfrastructureService_new uid gid (in_domain (config (w_identity worker)) w)
  = Ok (w_service worker).

Lemma start_workers_ok uid gid l (w : W) ws :
  start_workers uid gid l w = Ok ws ->
  map w_identity ws = l /\ Forall (fresh_worker uid gid w) ws.
Proof.
  revert ws. induction l as [|id l IH]; intros ws Hs; simpl in Hs; [by injection Hs as <-|].
  apply result_bind_Ok in Hs as (worker & Hw & Hs). apply result_bind_Ok in Hs as (rest & Hr & Hs).
  injection Hs as <-. unfold start_worker in Hw. apply result_bind_Ok in Hw as (actual & _ & Hw).
  case_match; [done|]. apply result_bind_Ok in Hw as ([] & _ & Hw).
  apply result_bind_Ok in Hw as (service & Hservice & Hw). injection Hw as <-.
  destruct (IH rest Hr) as [<- Hrest]. by split; [|constructor].
Qed.

Context `{!JournalFormatLaws}.

(** What [new] hands over. *)
Record started (uid gid : Z) (domains : DomainsConfig) m : Prop := {
  st_configs : map (fun w => config (w_identity w)) (workers m) = cfg_domains domains;
  st_ids : NoDup (map domain_of (workers m));
  st_infras : NoDup (map (fun w => cfg_infra_id (config (w_identity w))) (workers m));
  st_namespaces : NoDup (map (fun w => namespace_of (w_identity w)) (workers m));
  st_tables : Forall (fun w =>
    CANDY_TABLE_MIN <= cfg_table_id (config (w_identity w)) <= CANDY_TABLE_MAX) (workers m);
  st_journals : Forall (fun w => validate_journal (w_identity w) (state (w_service w)) = Ok tt)
    (workers m);
  st_workers : Forall (fresh_worker uid gid (host_world m)) (workers m);
  st_exclusive : exclusive m;
  st_quiet : clients m = [] /\ leases (shared m) = [] /\ pending (shared m) = mkPending 0 0 /\
    next_binding_token (shared m) = 1 /\ limits (shared m) = budgets domains;
  st_tokens : forall d b, io_bindings (shared m) !! d = Some b -> binding_token b = 0;
}.

Lemma new_started uid gid domains (w : W) m :
  MultiDomainService_new uid gid domains w = Ok m ->
  started uid gid domains m /\
  validate_resource_admission domains w = Ok tt /\
  exists current, thread_namespace w = Ok current /\
    Forall (fun worker => namespace_of (w_identity worker) <> current) (workers m).
Proof.
  unfold MultiDomainService_new. case_match; [done|]. intros Hn.
  apply result_bind_Ok in Hn as ([] & Hadmit & Hn). apply result_bind_Ok in Hn as (current & Hcur & Hn).
  apply result_bind_Ok in Hn as ([st w'] & Hprep & Hn). apply result_bind_Ok in Hn as (ws & Hws & Hn).
  injection Hn as <-.
  apply prepare_domains_ok in Hprep as [Hst Hconf]; [|by split; simpl; try constructor].
  apply start_workers_ok in Hws as [Hids Hws].
  assert (Hmap : forall A (f : DomainIdentity -> A), map (fun w => f (w_identity w)) ws
      = map (fun p => f p.1) (prepared st)).
  { intros A f. rewrite <- (map_map w_identity f), Hids, map_map. done. }
  assert (Hall : forall (P : DomainIdentity -> Prop), Forall (fun p => P p.1) (prepared st) ->
      Forall (fun w => P (w_identity w)) ws).
  { intros P HP. apply (Forall_fmap w_identity P). change (Forall P (map w_identity ws)). rewrite Hids.
    by apply (Forall_fmap fst P). }
  split_and!; [|done|exists current; split; [by destruct (thread_namespace w); simplify_eq/=|]];
    [|apply (Hall (fun id => namespace_of id <> current)), (sok_foreign _ _ _ Hst)].
  split; simpl.
  - by rewrite (Hmap _ config), Hconf.
  - unfold domain_of. rewrite (Hmap _ (fun id => cfg_domain_id (config id))). apply (sok_ids _ _ _ Hst).
  - rewrite (Hmap _ (fun id => cfg_infra_id (config id))). apply (sok_infras _ _ _ Hst).
  - rewrite (Hmap _ namespace_of). apply (sok_namespaces _ _ _ Hst).
  - apply (Hall (fun id => CANDY_TABLE_MIN <= cfg_table_id (config id) <= CANDY_TABLE_MAX)).
    apply (sok_tables _ _ _ Hst).
  - pose proof (Hall _ (sok_valid _ _ _ Hst)) as Hv. clear Hids Hmap Hall.
    induction Hws as [|worker ws (_ & _ & _ & Hs) _ IH]; [done|].
    apply Forall_cons in Hv as [(s & Hl & Hs') Hv]. constructor; [|by apply IH].
    apply new_loads in Hs as [_ Hload]. congruence.
  - done.
  - intros d1 d2. apply (sok_exclusive _ _ _ Hst).
  - done.
  - apply (sok_tokens _ _ _ Hst).
Qed.
End Startup.

(** ** Every state of a run *)

Section Runs.
Context {W : Type} `{!NetworkBackend W} `{!InfrastructureBackend W} `{!InfraHost W}
  `{!DomainHost W} `{!JournalFormat} `{!Layout} `{!InfraMachine W} `{!ProcessTable W}.
Implicit Types (m : MultiDomainService W).

Lemma started_ok uid gid domains m :
  started uid gid domains m -> 0 <= max_pending_control_requests (budgets domains) ->
  0 <= max_pending_control_bytes (budgets domains) -> accounted m /\ bindings_ok m.
Proof.
  intros Hst Hreq Hbytes. destruct (st_quiet _ _ _ _ Hst) as (Hc & Hl & Hp & Hn & Hlim).
  assert (Hidle : forall k w, workers m !! k = Some w ->
    w_inflight w = false /\ w_queue w = None /\ w_stage w = Idle).
  { intros k w Hk. pose proof (Forall_lookup_1 _ _ _ _ (st_workers _ _ _ _ Hst) Hk) as Hw.
    unfold fresh_worker in Hw. tauto. }
  assert (Hzero : forall {R} `{!EqDecision R} (ct : Client -> list R) (wt : Worker W -> list R) r,
    (forall w, w_queue w = None -> w_stage w = Idle -> wt w = []) -> holding ct wt r m = 0).
  { intros R ? ct wt r Hwt. unfold holding. rewrite Hc. simpl. apply zsum_zero, Forall_lookup_2.
    intros k w Hk. destruct (Hidle k w Hk) as (_ & Hq & Hs). by rewrite Hwt. }
  split; split.
  - intros r. rewrite Hzero by (intros w Hq Hs; unfold worker_tokens; by rewrite Hq, Hs).
    destruct r as [k|l]; simpl.
    + destruct (workers m !! k) as [w|] eqn:Hk; [|done]. unfold busy. by rewrite (proj1 (Hidle k w Hk)).
    + unfold holders. by rewrite Hl.
  - unfold balanced. rewrite Hl, Hp, Hlim. simpl. split_and!; try done.
  - intros i c Hi. by rewrite Hc in Hi.
  - intros k w Hk. destruct (Hidle k w Hk) as (_ & Hq & Hs). split; [by rewrite Hq|by rewrite Hs].
  - intros k w message Hk Hmsg. destruct (Hidle k w Hk) as (_ & Hq & Hs).
    unfold worker_messages in Hmsg. rewrite Hq, Hs in Hmsg. by apply elem_of_nil in Hmsg.
  - intros t. rewrite Hzero by (intros w Hq Hs; unfold worker_draws; by rewrite Hq, Hs). lia.
  - intros d b Hb. rewrite (st_tokens _ _ _ _ Hst _ _ Hb), Hn. lia.
  - by rewrite Hn.
  - apply Hst.
  - apply Hst.
Qed.

Lemma limits_step m m' : step m m' -> limits (shared m') = limits (shared m).
Proof.
  assert (Hrb : forall rb s, limits (apply_optional rb s) = limits s) by (intros; apply apply_optional_rest).
  assert (Hrel : forall r m, limits (shared (do_release r m)) = limits (shared m)).
  { intros [k|l] m0; simpl; [unfold update_worker|unfold drop_permit]; by case_match. }
  intros Hs. destruct Hs as [request peer now _| |_ _|_|i l ready Hc|i l Hq _|i l received Hc _
    |i c Hc|i front rollback Hc|k now|w _|k worker w Hw _]; try done.
  - unfold attach_front. by destruct (front_attached m).
  - destruct (dispatch_cases m) as [->|(l & s & Hr & ->)]; [done|]. by apply reserve_same in Hr as [(? & _) _].
  - destruct c; simpl; try done.
    + unfold do_enter. by repeat case_match.
    + unfold do_charge. case_match; [|done]. destruct (charge _ _ _) as [r s] eqn:Hch. simpl.
      unfold charge, resize, reserve, in_range_of, lift, gets, modify, mbind, mret in Hch.
      repeat (case_match; simplify_eq/=; try done).
    + unfold do_draw. case_match; [|done]. destruct (draw_token _) as [r s] eqn:Hd. simpl.
      apply draw_token_shared in Hd as [-> | ->]; done.
    + unfold do_bind. case_match; [|done]. cbv zeta. destruct (reserve_binding _ _ _ _ _) as [r s] eqn:Hd.
      simpl. apply reserve_binding_shared in Hd. destruct r; [|by subst]. destruct Hd as (_ & _ & ->). done.
    + unfold do_send. by repeat case_match.
    + unfold do_leave. case_match; simpl; [|by rewrite Hrel]. case_match; simpl; [apply Hrb|done].
    + unfold do_finish. simpl. destruct front as [l|]; simpl; [|done]. unfold drop_permit. by case_match.
  - unfold work. case_match; [|done]. assert (forall k st m, limits (shared (set_stage k st m)) = limits (shared m))
      as Hstage by (intros; unfold set_stage, update_worker; by case_match).
    case_match; try done.
    + by case_match.
    + rewrite Hstage. case_match; [done|]. simpl. apply Hrb.
    + rewrite Hstage. apply (Hrel (ReturnPermit _)).
    + rewrite Hstage. apply (Hrel (FreeDomain _)).
    + rewrite Hstage. unfold answer. by repeat case_match.
Qed.

Lemma reachable_ok m0 m :
  accounted m0 /\ bindings_ok m0 -> reachable m0 m ->
  (accounted m /\ bindings_ok m) /\ limits (shared m) = limits (shared m0).
Proof.
  intros Hm0 Hr. induction Hr as [|m m' _ [[Ha Hb] Hl] Hs]; [done|].
  split; [split; [by apply (accounted_step m)|by apply (bok_step m)]|].
  by rewrite (limits_step _ _ Hs).
Qed.
End Runs.

(** ** The theorems *)

Section Theorems.
Context {W : Type} `{!NetworkBackend W} `{!InfrastructureBackend W} `{!InfraHost W}
  `{!DomainHost W} `{!JournalFormat} `{!Layout} `{!InfraMachine W} `{!ProcessTable W}
  `{!LockLaws W} `{!JournalFormatLaws}.
Implicit Types (m : MultiDomainService W).

Lemma admission_limits domains (w : W) :
  validate_resource_admission domains w = Ok tt ->
  2 <= front_control_threads (budgets domains) /\
  0 <= max_pending_control_requests (budgets domains) /\
  0 <= max_pending_control_bytes (budgets domains).
Proof.
  unfold validate_resource_admission, budgets_admit. case_match; [done|]. intros Ha.
  apply result_bind_Ok in Ha as ([] & _ & Ha). apply result_bind_Ok in Ha as ([] & B2%budget_Ok & Ha).
  apply result_bind_Ok in Ha as (t & _ & Ha). apply result_bind_Ok in Ha as ([] & _ & Ha).
  apply result_bind_Ok in Ha as ([] & _ & Ha). apply result_bind_Ok in Ha as (st & _ & Ha).
  apply result_bind_Ok in Ha as ([] & _ & Ha). apply result_bind_Ok in Ha as ([] & B6%budget_Ok & Ha).
  apply result_bind_Ok in Ha as (fr & [-> Hfr]%overflow_Ok%usize_Some & Ha).
  apply result_bind_Ok in Ha as ([] & B7%budget_Ok & _). lia.
Qed.

(** The state of a router that runs. *)
Definition running (domains : DomainsConfig) m : Prop :=
  exists uid gid w0 m0, MultiDomainService_new uid gid domains w0 = Ok m0 /\ reachable m0 m.

Lemma running_ok domains m :
  running domains m ->
  accounted m /\ bindings_ok m /\ limits (shared m) = budgets domains /\
  2 <= front_control_threads (budgets domains).
Proof.
  intros (uid & gid & w0 & m0 & Hn & Hr). apply new_started in Hn as (Hst & Ha & _).
  apply admission_limits in Ha as (Hf & Hreq & Hbytes).
  pose proof (started_ok _ _ _ _ Hst Hreq Hbytes) as Hok.
  destruct (reachable_ok m0 m Hok Hr) as [[Hacc Hbok] Hlim].
  destruct (st_quiet _ _ _ _ Hst) as (_ & _ & _ & _ & Hl). split_and!; try done. by rewrite Hlim.
Qed.

(** Startup: a router that starts has one worker per configured domain, in distinct
    namespaces other than its own, with distinct infrastructures; every worker serves the
    journal of its domain, which names no other domain, infrastructure, namespace or table;
    and no process that runs is the I/O process of two domains. *)
Theorem router_starts uid gid domains (w : W) m :
  MultiDomainService_new uid gid domains w = Ok m ->
  map (fun worker => config (w_identity worker)) (workers m) = cfg_domains domains /\
  NoDup (map domain_of (workers m)) /\
  NoDup (map (fun worker => cfg_infra_id (config (w_identity worker))) (workers m)) /\
  NoDup (map (fun worker => namespace_of (w_identity worker)) (workers m)) /\
  Forall (fun worker =>
    thread_namespace w <> Ok (namespace_of (w_identity worker)) /\
    CANDY_TABLE_MIN <= cfg_table_id (config (w_identity worker)) <= CANDY_TABLE_MAX /\
    w_stage worker = Idle /\
    load_journal (file (in_domain (config (w_identity worker)) (host_world m)))
      = Ok (state (w_service worker)) /\
    validate_journal (w_identity worker) (state (w_service worker)) = Ok tt) (workers m) /\
  exclusive m.
Proof.
  intros Hn. apply new_started in Hn as (Hst & _ & current & Hcur & Hforeign).
  split_and!; try apply Hst. apply Forall_lookup_2. intros k worker Hk.
  pose proof (Forall_lookup_1 _ _ _ _ Hforeign Hk) as Hf.
  pose proof (Forall_lookup_1 _ _ _ _ (st_tables _ _ _ _ Hst) Hk) as Ht.
  pose proof (Forall_lookup_1 _ _ _ _ (st_journals _ _ _ _ Hst) Hk) as Hj.
  pose proof (Forall_lookup_1 _ _ _ _ (st_workers _ _ _ _ Hst) Hk) as (_ & _ & Hs & Hnew).
  apply new_loads in Hnew as [_ Hload]. simpl in *. rewrite Hcur. split_and!; try done; [|lia|lia].
  intros [= E]. by apply Hf.
Qed.

(** C33. The control budget: at all times, whatever the interleaving, the pending totals are
    within the configured limits and are exactly those of the permits that some thread still
    holds; once no thread holds one they are zero. *)
Theorem control_budget domains m :
  running domains m ->
  let held l := holding client_tokens worker_tokens (ReturnPermit l) m in
  0 <= pending_requests (pending (shared m)) <= max_pending_control_requests (budgets domains) /\
  0 <= pending_bytes (pending (shared m)) <= max_pending_control_bytes (budgets domains) /\
  (forall l, held l = holders (shared m) l) /\
  pending_requests (pending (shared m)) = zsum live_lease (leases (shared m)) /\
  pending_bytes (pending (shared m)) = zsum live_bytes (leases (shared m)) /\
  ((forall l, held l = 0) -> pending (shared m) = mkPending 0 0).
Proof.
  intros Hrun held. apply running_ok in Hrun as ([Hh Hb] & _ & Hlim & _).
  pose proof (balanced_nonneg _ Hb). pose proof Hb as (Hreq & Hbytes & _ & Hr & Hby). rewrite Hlim in Hr, Hby.
  split_and!; try lia; [intros l; apply Hh|]. intros Hz. apply balanced_free; [done|].
  intros l. rewrite <- (Hz l). unfold held. by rewrite Hh.
Qed.

(** One operation per domain: the in-flight mark of a domain is held by at most one
    thread, a client before it sends or the worker; so whenever a client sends, the worker's
    queue is empty and the send succeeds. *)
Theorem one_operation_per_domain domains m :
  running domains m ->
  (forall k w, workers m !! k = Some w ->
     holding client_tokens worker_tokens (FreeDomain k) m = if w_inflight w then 1 else 0) /\
  (forall i call l rollback, clients m !! i = Some (Bound call l rollback) ->
     exists w, workers m !! call_worker call = Some w /\ w_queue w = None /\
       match w_stage w with Serving _ | Served _ _ | Rolled _ _ => False | _ => True end).
Proof.
  intros Hrun. apply running_ok in Hrun as (Ha & Hb & _). split.
  - intros k w Hk. rewrite (proj1 Ha). simpl. by rewrite Hk.
  - intros i call l rollback Hc. destruct (bok_clients _ Hb _ _ Hc) as [[[d Hd] _] _].
    apply (ids_lookup m) in Hd as (w & Hw & _). exists w. split_and!; [done|by apply (send_queue_free m i call l rollback)|].
    assert (match w_stage w with Serving _ | Served _ _ | Rolled _ _ => True | _ => False end -> False).
    { intros Hst. apply (mark_client_worker m i _ _ w Ha Hc Hw (call_worker call)); [apply mark_head|].
      pose proof (stage_mark m _ w Hb Hw Hst). pose proof (worker_tokens_stage (FreeDomain (call_worker call)) w).
      lia. }
    destruct (w_stage w); tauto.
Qed.

(** C25. Reservation: from the moment its message is queued until the worker has undone or
    finished it, an acquisition has its caller bound to the domain, even if the client gave
    up waiting; and at no time is a running process bound to two domains. *)
Theorem acquisition_reserved domains m k w message infra generation epoch :
  running domains m -> workers m !! k = Some w ->
  w_queue w = Some message \/ w_stage w = Serving message \/
    (exists result, w_stage w = Served message result) ->
  infra_operation (msg_request message) = InfraAcquireIoFd infra generation epoch ->
  exclusive m /\
  exists o t, io_bindings (shared m) !! domain_of w = Some (mkBinding o t) /\
    io_instance_id o = caller_instance_id (msg_request message) /\
    io_pid o = caller_pid (msg_request message) /\ io_epoch o = epoch.
Proof.
  intros Hrun Hk Hmsg Hop. apply running_ok in Hrun as (_ & Hb & _). split; [apply (bok_exclusive _ Hb)|].
  destruct (bok_workers _ Hb _ _ Hk) as [Hq Hs].
  assert (reserved (env m) (domain_of w) (msg_request message) (msg_rollback message)) as Hr.
  { destruct Hmsg as [Hm|[Hm|[result Hm]]]; [by apply Hq|by rewrite Hm in Hs|by rewrite Hm in Hs]. }
  unfold reserved, owner_of_request in Hr. rewrite Hop in Hr.
  destruct (msg_rollback message) as [rb|]; [|by destruct Hr as (? & ? & _)].
  destruct Hr as (_ & (o & (o' & [= <-] & Hi & Hp & He) & Hb') & _). eauto 10.
Qed.

Lemma stage_shared k st m : shared (set_stage k st m) = shared m.
Proof. unfold set_stage, update_worker. by case_match. Qed.

Lemma work_bindings m k now d b :
  bindings_ok m -> io_bindings (shared m) !! d = Some b ->
  io_bindings (shared (work k now m)) !! d <> Some b ->
  exists w message error rb, workers m !! k = Some w /\ w_stage w = Served message (Err error) /\
    msg_rollback message = Some rb /\ domain_of w = d /\ binding_token b = rollback_token rb.
Proof.
  intros Hm Hb Hne. unfold work in Hne. destruct (workers m !! k) as [w|] eqn:Hk; [|done].
  destruct (w_stage w) as [|message|message result|message result|message result|message result|] eqn:Hst;
    rewrite ?stage_shared in Hne.
  - destruct (w_queue w); [done|]. by rewrite stage_shared in Hne.
  - done.
  - destruct result as [reply|error]; [done|]. simpl in Hne.
    destruct (msg_rollback message) as [rb|] eqn:Hrb; [|done]. simpl in Hne.
    destruct (bok_workers _ Hm _ _ Hk) as [_ Hs]. rewrite Hst in Hs. simpl in Hs. rewrite Hrb in Hs.
    destruct Hs as (Hd & (o & _ & Hb') & _). simpl in Hb'.
    exists w, message, error, rb. split_and!; try done.
    + destruct (decide (d = domain_of w)) as [->|Hd']; [done|]. exfalso. apply Hne.
      rewrite <- Hd in Hb', Hd'. by rewrite (proj1 (apply_rollback_bindings rb _ _ Hb' eq_refl) d Hd').
    + destruct (decide (d = domain_of w)) as [->|Hd']; [by simplify_eq|]. exfalso. apply Hne.
      rewrite <- Hd in Hb', Hd'. by rewrite (proj1 (apply_rollback_bindings rb _ _ Hb' eq_refl) d Hd').
  - unfold drop_permit in Hne. by case_match.
  - simpl in Hne. unfold update_worker in Hne. by case_match.
  - unfold answer in Hne. by repeat case_match.
  - done.
Qed.

(** Bindings change only so: a domain's binding to a running process stays until the
    worker of that domain undoes the very acquisition that made it, because that failed. *)
Theorem binding_kept domains m m' d b :
  running domains m -> step m m' ->
  io_bindings (shared m) !! d = Some b -> runs (binding_owner b) (host_world m) ->
  io_bindings (shared m') !! d = Some b \/
  exists k w message error rb, workers m !! k = Some w /\ w_stage w = Served message (Err error) /\
    msg_rollback message = Some rb /\ domain_of w = d /\ binding_token b = rollback_token rb.
Proof.
  intros Hrun Hs Hb Hruns. apply running_ok in Hrun as (Ha & Hm & _).
  destruct (decide (io_bindings (shared m') !! d = Some b)) as [|Hne]; [by left|right].
  destruct Hs as [request peer now _| |_ _|_|i l ready Hc|i l Hq _|i l received Hc _
    |i c Hc|i front rollback Hc|k now|w _|k worker w Hw _]; try done.
  - unfold attach_front in Hne. by destruct (front_attached m).
  - destruct (dispatch_cases m) as [E|(l & s & Hr & E)]; rewrite E in Hne; [done|].
    apply reserve_same in Hr as [(_ & E' & _) _]. simpl in Hne. by rewrite E' in Hne.
  - exfalso. destruct c; simpl in Hne; try done.
    + unfold do_enter in Hne. by repeat case_match.
    + unfold do_charge in Hne. case_match; [|done]. destruct (charge _ _ _) as [r s] eqn:Hch.
      apply charge_rest in Hch as [E _]. simpl in Hne. by rewrite E in Hne.
    + unfold do_draw in Hne. case_match; [|done]. destruct (draw_token _) as [r s] eqn:Hd.
      apply draw_token_shared in Hd as [-> | ->]; done.
    + unfold do_bind in Hne. destruct (workers m !! call_worker call) as [w|] eqn:Hw; [|done].
      cbv zeta in Hne. destruct (reserve_binding _ _ _ _ _) as [r s] eqn:Hd.
      apply reserve_binding_shared in Hd. destruct r as [rb|]; [|by subst].
      destruct Hd as (Hv & _ & ->). simpl in Hne. apply validate_io_binding_Ok in Hv as [_ Hown].
      destruct (decide (domain_of w = d)) as [<-|Hd]; [|by rewrite lookup_insert_ne in Hne].
      apply runs_alive in Hruns. specialize (Hown _ Hb). congruence.
    + unfold do_send in Hne. by repeat case_match.
    + unfold do_leave in Hne. destruct drops as [|r drops].
      * destruct (undoes result) eqn:Hu; [|done].
        rewrite (leaving_undoes_nothing m i front rollback result Hm Hc Hu) in Hne. done.
      * destruct r as [k|l]; simpl in Hne; [unfold update_worker in Hne|unfold drop_permit in Hne]; by case_match.
    + unfold do_finish in Hne. destruct front as [l|]; simpl in Hne; [unfold drop_permit in Hne; by case_match|done].
  - exists k. by apply (work_bindings m k now d b).
Qed.
End Theorems.
