(* ===== verification/DomainLive.v ===== *)
(** * The router drains

    A measure that every section of every thread lowers: however the threads interleave, when
    no more requests arrive they all come to rest, and then nothing is held any more. *)
From stdpp Require Import base tactics list numbers option gmap strings relations.
From Stdlib Require Import ZArith Lia.
From S2P Require Import Prelude Ipv4 Wire Proto Network Service InfraProto Infra InfraContract.
From S2P Require Import InfraHandlers InfraHistory Domains DomainSteps DomainLedger DomainBindings.
From S2P Require Import DomainFacts.

#[local] Open Scope Z_scope.

(** What is still to be done, in sections. *)
Definition client_weight (c : Client) : Z :=
  match c with
  | Dispatching _ => 40
  | Queued _ => 39
  | Picked _ => 38
  | Received _ _ _ _ => 37
  | Routed _ => 36
  | Entered _ => 35
  | Charged _ _ => 34
  | Drawn _ _ _ _ => 33
  | Bound _ _ _ => 32
  | Awaiting _ _ => 6
  | Leaving _ drops _ _ => 2 + Z.of_nat (length drops)
  | Done _ _ => 1
  | Gone => 0
  end.

Definition stage_weight (st : Stage) : Z :=
  match st with
  | Idle => 0
  | Sweeping => 1
  | Freed _ _ => 2
  | Released _ _ => 3
  | Rolled _ _ => 4
  | Served _ _ => 5
  | Serving _ => 6
  end.

(** The sections [advance] runs. *)
Definition advances (c : Client) : bool :=
  match c with
  | Dispatching _ | Queued _ | Picked _ | Awaiting _ _ | Gone => false
  | _ => true
  end.

Section Live.
Context {W : Type} `{!NetworkBackend W} `{!InfrastructureBackend W} `{!InfraHost W}
  `{!DomainHost W} `{!JournalFormat} `{!Layout} `{!InfraMachine W} `{!ProcessTable W}
  `{!LockLaws W} `{!JournalFormatLaws}.
Implicit Types (m : MultiDomainService W).

Definition worker_weight (w : Worker W) : Z :=
  (match w_queue w with Some _ => 10 | None => 0 end) + stage_weight (w_stage w).

Definition weight m : Z := zsum client_weight (clients m) + zsum worker_weight (workers m).

Definition at_rest (w : Worker W) : Prop := w_queue w = None /\ w_stage w = Idle.

(** The sections of all threads, but for the polling of an idle worker. *)
Inductive thread_step m : MultiDomainService W -> Prop :=
| thread_submit i l ready :
    clients m !! i = Some (Dispatching l) -> thread_step m (do_submit i l ready m)
| thread_pick i l :
    next_queued (clients m) = Some (i, l) ->
    count is_running (clients m) < front_control_threads (limits (shared m)) ->
    thread_step m (do_pick i l m)
| thread_receive i l received :
    clients m !! i = Some (Picked l) ->
    (forall request peer now, received = Some (request, peer, now) ->
       typed_operation (unscoped request)) ->
    thread_step m (do_receive i l received m)
| thread_advance i c : clients m !! i = Some c -> advances c = true -> thread_step m (advance i c m)
| thread_timeout i front rollback :
    clients m !! i = Some (Awaiting front rollback) ->
    thread_step m (do_timeout i front rollback m)
| thread_work k w now : workers m !! k = Some w -> ~ at_rest w -> thread_step m (work k now m).

Lemma thread_step_step m m' : thread_step m m' -> step m m'.
Proof. destruct 1; by econstructor. Qed.

Lemma client_weight_nonneg c : 0 <= client_weight c.
Proof. destruct c; simpl; lia. Qed.
Lemma worker_weight_nonneg (w : Worker W) : 0 <= worker_weight w.
Proof. unfold worker_weight. destruct (w_queue w), (w_stage w); simpl; lia. Qed.

Lemma weight_nonneg m : 0 <= weight m.
Proof.
  unfold weight. pose proof (zsum_nonneg client_weight (clients m) client_weight_nonneg).
  pose proof (zsum_nonneg worker_weight (workers m) worker_weight_nonneg). lia.
Qed.

Lemma weight_set_client m i c c' :
  clients m !! i = Some c -> weight (set_client i c' m) = weight m - client_weight c + client_weight c'.
Proof. intros Hc. unfold weight. simpl. rewrite (zsum_insert _ _ _ _ _ Hc). lia. Qed.

Lemma weight_set_worker m k w w' :
  workers m !! k = Some w -> weight (set_worker k w' m) = weight m - worker_weight w + worker_weight w'.
Proof. intros Hw. unfold weight. simpl. rewrite (zsum_insert _ _ _ _ _ Hw). lia. Qed.

Lemma weight_set_shared m s : weight (set_shared s m) = weight m.
Proof. done. Qed.

Lemma weight_release m r : weight (do_release r m) = weight m.
Proof.
  destruct r as [k|l]; simpl; [|done]. unfold update_worker. destruct (workers m !! k) as [w|] eqn:Hw; [|done].
  rewrite (weight_set_worker _ _ _ _ Hw). unfold worker_weight. simpl. lia.
Qed.

Lemma weight_client m i c c' :
  clients m !! i = Some c -> client_weight c' < client_weight c ->
  forall s, weight (set_client i c' (set_shared s m)) < weight m.
Proof. intros Hc Hw s. rewrite (weight_set_client (set_shared s m) i c) by done. rewrite weight_set_shared. lia. Qed.

Lemma weight_client' m i c c' :
  clients m !! i = Some c -> client_weight c' < client_weight c -> weight (set_client i c' m) < weight m.
Proof. intros Hc Hw. rewrite (weight_set_client m i c) by done. lia. Qed.

Lemma admitted_length front : (length (admitted_permit front) <= 1)%nat.
Proof. destruct front; simpl; lia. Qed.

Lemma weight_advance m i c :
  accounted m -> bindings_ok m -> clients m !! i = Some c -> advances c = true ->
  weight (advance i c m) < weight m.
Proof.
  intros Ha Hm Hc Hadv. pose proof (bok_clients _ Hm _ _ Hc) as Hok.
  assert (Hworker : forall call, call_ok (env m) call -> exists w, workers m !! call_worker call = Some w).
  { intros call [[d Hd] _]. apply (ids_lookup m) in Hd as (w & Hw & _). eauto. }
  destruct c as [| | |front request peer now|call|call|call l|call l o t|call l rollback| |front drops rollback result|front result|];
    try done; simpl.
  - unfold do_route. apply (weight_client' _ _ _ _ Hc). pose proof (admitted_length front).
    case_match; simpl; lia.
  - unfold do_enter. destruct (Hworker call Hok) as [w Hw]. rewrite Hw.
    pose proof (admitted_length (call_front call)). destruct (w_inflight w).
    + apply (weight_client' _ _ _ _ Hc). simpl. lia.
    + rewrite (weight_set_client (set_worker _ _ m) i _ _ Hc), (weight_set_worker _ _ _ _ Hw).
      unfold worker_weight. simpl. lia.
  - unfold do_charge. cbv zeta. pose proof (admitted_length (call_front call)). case_match.
    + destruct (charge _ _ _) as [r s]. apply (weight_client _ _ _ _ Hc). destruct r; simpl; [lia|].
      rewrite length_app. simpl. lia.
    + apply (weight_client' _ _ _ _ Hc). simpl. lia.
  - unfold do_draw. case_match; [|apply (weight_client' _ _ _ _ Hc); simpl; lia].
    destruct (draw_token _) as [r s]. apply (weight_client _ _ _ _ Hc). destruct r; simpl; lia.
  - unfold do_bind. destruct (Hworker call (proj1 Hok)) as [w Hw]. rewrite Hw. cbv zeta.
    destruct (reserve_binding _ _ _ _ _) as [r s]. apply (weight_client _ _ _ _ Hc). destruct r; simpl; lia.
  - unfold do_send. destruct (Hworker call (proj1 Hok)) as [w Hw]. rewrite Hw.
    rewrite (send_queue_free m i call l rollback w Ha Hm Hc Hw). cbv zeta.
    rewrite (weight_set_client (set_worker _ _ m) i _ _ Hc), (weight_set_worker _ _ _ _ Hw).
    unfold worker_weight. simpl. rewrite (send_queue_free m i call l rollback w Ha Hm Hc Hw). lia.
  - destruct drops as [|r drops]; simpl.
    + destruct (undoes result); [apply (weight_client _ _ _ _ Hc)|apply (weight_client' _ _ _ _ Hc)]; simpl; lia.
    + rewrite weight_release. apply (weight_client' _ _ _ _ Hc). simpl. lia.
  - unfold do_finish. apply (weight_client _ _ _ _ Hc). simpl. lia.
Qed.

Lemma weight_stage m k w st :
  workers m !! k = Some w -> weight (set_stage k st m) = weight m - stage_weight (w_stage w) + stage_weight st.
Proof.
  intros Hw. unfold set_stage, update_worker. rewrite Hw, (weight_set_worker _ _ _ _ Hw).
  unfold worker_weight. simpl. lia.
Qed.

Lemma weight_answer m message result : weight (answer message result m) <= weight m.
Proof.
  unfold answer. destruct (clients m !! _) as [c|] eqn:Hc; [|lia]. destruct c; try lia.
  rewrite (weight_set_client _ _ _ _ Hc). simpl. lia.
Qed.

Lemma weight_work m k w now : workers m !! k = Some w -> ~ at_rest w -> weight (work k now m) < weight m.
Proof.
  intros Hk Hrest. unfold work. rewrite Hk.
  destruct (w_stage w) as [|message|message result|message result|message result|message result|] eqn:Hst.
  - destruct (w_queue w) as [message|] eqn:Hq; [|by destruct Hrest].
    rewrite (weight_set_worker _ _ _ _ Hk). unfold worker_weight. simpl. rewrite Hq, Hst. simpl. lia.
  - rewrite (weight_set_worker _ _ _ _ Hk). unfold process_message. destruct (infra_process _ _ _ _).
    unfold worker_weight. simpl. rewrite Hst. simpl. lia.
  - rewrite (weight_stage _ _ w) by (by destruct (is_ok result)). rewrite Hst. simpl.
    destruct (is_ok result); rewrite ?weight_set_shared; lia.
  - rewrite (weight_stage _ _ w) by done. rewrite Hst, weight_set_shared. simpl. lia.
  - pose proof (weight_release m (FreeDomain (msg_domain message))).
    assert (exists w', workers (do_release (FreeDomain (msg_domain message)) m) !! k = Some w' /\
      w_stage w' = w_stage w) as (w' & Hk' & Hs').
    { simpl. unfold update_worker. destruct (workers m !! msg_domain message) as [w0|] eqn:Hk0; [|eauto].
      simpl. destruct (decide (msg_domain message = k)) as [E|]; [|exists w; by rewrite list_lookup_insert_ne].
      rewrite E in *. rewrite list_lookup_insert_eq by (by eapply lookup_lt_Some).
      assert (w0 = w) as -> by congruence. by eexists. }
    rewrite (weight_stage _ _ w') by done. rewrite Hs', Hst. simpl in *. lia.
  - rewrite (weight_stage _ _ w) by (by rewrite workers_answer). rewrite Hst. simpl.
    pose proof (weight_answer m message result). lia.
  - cbv zeta. rewrite (weight_set_worker _ _ _ _ Hk). unfold worker_weight. simpl. rewrite Hst. simpl. lia.
Qed.

Lemma thread_step_weight m m' :
  accounted m -> bindings_ok m -> thread_step m m' -> weight m' < weight m.
Proof.
  intros Ha Hm Hs. destruct Hs as [i l ready Hc|i l Hq _|i l received Hc _|i c Hc Hadv|i front rollback Hc|k w now Hk Hrest].
  - unfold do_submit. apply (weight_client' _ _ _ _ Hc). case_match; simpl; lia.
  - apply next_queued_Some in Hq. unfold do_pick. apply (weight_client _ _ _ _ Hq). simpl. lia.
  - unfold do_receive. apply (weight_client' _ _ _ _ Hc). destruct received as [[[request peer] now]|]; simpl; lia.
  - by apply weight_advance.
  - unfold do_timeout. apply (weight_client' _ _ _ _ Hc). simpl. lia.
  - by apply (weight_work m k w).
Qed.

(** ** No thread is stuck *)

(** All clients are answered, all workers wait, nothing is held. *)
Definition settled m : Prop :=
  Forall (fun c => c = Gone) (clients m) /\
  Forall (fun w => at_rest w /\ w_inflight w = false) (workers m) /\
  pending (shared m) = mkPending 0 0.

Definition idle_client (c : Client) : bool :=
  match c with Gone | Queued _ => true | _ => false end.

Lemma next_queued_exists l i permit :
  l !! i = Some (Queued permit) -> exists j p, next_queued l = Some (j, p).
Proof.
  revert i. induction l as [|c l IH]; intros [|i] Hi; simplify_eq/=; [eauto|].
  destruct (IH i Hi) as (j & p & E). destruct c; rewrite ?E; eauto.
Qed.

Lemma count_zero {A} (f : A -> bool) l :
  (forall i a, l !! i = Some a -> f a = false) -> count f l = 0.
Proof.
  unfold count. intros Hf. induction l as [|a l IH]; [done|].
  rewrite filter_cons_False by (by rewrite (Hf O)). apply IH. intros i. apply (Hf (S i)).
Qed.

Lemma not_running c : idle_client c = true -> is_running c = false.
Proof. unfold is_running. by destruct c. Qed.

Lemma busy_client m i c :
  clients m !! i = Some c -> idle_client c = false -> exists m', thread_step m m'.
Proof.
  intros Hc Hi. destruct c; try done;
    try (eexists; by apply (thread_advance m i _ Hc)).
  - eexists. by apply (thread_submit m i permit true).
  - eexists. by apply (thread_receive m i permit None).
  - eexists. by apply (thread_timeout m i front rollback).
Qed.

Lemma stuck_settled m :
  accounted m -> bindings_ok m -> 2 <= front_control_threads (limits (shared m)) ->
  (forall m', ~ thread_step m m') -> 
  Forall (fun c => c = Gone) (clients m) /\ Forall at_rest (workers m).
Proof.
  intros Ha Hm Hfront Hstuck.
  assert (Hidle : forall i c, clients m !! i = Some c -> idle_client c = true).
  { intros i c Hc. destruct (idle_client c) eqn:Hi; [done|].
    destruct (busy_client m i c Hc Hi) as [m' Hs]. by destruct (Hstuck m'). }
  split; apply Forall_lookup_2.
  - intros i c Hc. pose proof (Hidle i c Hc) as Hi. destruct c as [|permit| | | | | | | | | | |]; try done.
    exfalso. destruct (next_queued_exists _ _ _ Hc) as (j & p & Hq).
    apply (Hstuck (do_pick j p m)), thread_pick; [done|].
    rewrite count_zero; [lia|]. intros i' c' Hc'. apply not_running. by eapply Hidle.
  - intros k w Hk. unfold at_rest. destruct (w_queue w) eqn:Hq, (w_stage w) eqn:Hst; try done;
      (exfalso; apply (Hstuck (work k None m)), (thread_work m k w None Hk);
       intros [? ?]; congruence).
Qed.

Lemma rest_settled m :
  accounted m -> Forall (fun c => c = Gone) (clients m) -> Forall at_rest (workers m) -> settled m.
Proof.
  intros [Hh Hb] Hc Hw.
  assert (Hzero : forall r, ledger r m = 0).
  { intros r. rewrite <- Hh. unfold holding. rewrite (zsum_zero _ (clients m)), (zsum_zero _ (workers m)); [done| |].
    - eapply Forall_impl; [exact Hw|]. intros w [Hq Hst]. unfold worker_tokens. by rewrite Hq, Hst.
    - eapply Forall_impl; [exact Hc|]. by intros c ->. }
  split_and!; [done| |apply (balanced_free _ Hb); intros l; apply (Hzero (ReturnPermit l))].
  apply Forall_lookup_2. intros k w Hk. split; [by apply (Forall_lookup_1 _ _ _ _ Hw Hk)|].
  specialize (Hzero (FreeDomain k)). simpl in Hzero. rewrite Hk in Hzero. unfold busy in Hzero.
  by destruct (w_inflight w).
Qed.

Lemma running_thread domains m m' : running domains m -> thread_step m m' -> running domains m'.
Proof.
  intros (uid & gid & w0 & m0 & Hn & Hr) Hs. exists uid, gid, w0, m0. split; [done|].
  eapply reach_step; [exact Hr|]. by apply thread_step_step.
Qed.

(** C35. The router drains: without new arrivals, every run of the threads' sections is
    finite, however they interleave; and where no section is left to run, every client has
    its answer, every worker waits, no domain is marked busy and no budget is charged. *)
Theorem router_drains domains m :
  running domains m ->
  (forall n m', nsteps thread_step n m m' -> Z.of_nat n <= weight m) /\
  (forall m', rtc thread_step m m' -> (forall m'', ~ thread_step m' m'') -> settled m').
Proof.
  intros Hrun. split.
  - intros n. revert m Hrun. induction n as [|n IH]; intros m Hrun m' Hs.
    + pose proof (weight_nonneg m). lia.
    + inversion Hs as [|? ? m1 ? Hstep Hrest]; subst. pose proof (running_ok _ _ Hrun) as (Ha & Hm & _).
      pose proof (thread_step_weight m m1 Ha Hm Hstep).
      specialize (IH m1 (running_thread _ _ _ Hrun Hstep) m' Hrest). lia.
  - intros m' Hs Hstuck. assert (running domains m') as Hrun'.
    { clear Hstuck. induction Hs as [|m m1 m' Hstep _ IH]; [done|]. by apply IH, (running_thread _ m). }
    apply running_ok in Hrun' as (Ha & Hm & Hlim & Hf).
    destruct (stuck_settled m' Ha Hm ltac:(by rewrite Hlim) Hstuck) as [Hc Hw]. by apply rest_settled.
Qed.
End Live.
