(* ===== verification/DomainScope.v ===== *)
(** * The domains are isolated

    What a domain's service stores names only that domain, its infrastructure, its namespace
    and its table, whatever it is asked to do: the router lets no other request through, and
    each handler writes only what it was given or had. *)
From stdpp Require Import base tactics list numbers option gmap strings.
From Stdlib Require Import ZArith Lia.
From S2P Require Import Prelude Ipv4 Wire Proto Network Service InfraProto Infra InfraContract.
From S2P Require Import InfraFacts InfraHandlers InfraHistory Domains DomainSteps DomainLedger.
From S2P Require Import DomainBindings DomainFacts.

#[local] Open Scope Z_scope.

(** ** States of one domain *)

Section Scoped.
Variable id : DomainIdentity.

Definition owner_scoped (o : ForwardOwner) : Prop := domain_id o = cfg_domain_id (config id).
Definition declaration_scoped (d : PrepareDeclaration) : Prop := table_id d = cfg_table_id (config id).

Definition record_scoped (f : ForwardRecord) : Prop :=
  owner_scoped (forward_owner f) /\ declaration_scoped (forward_declaration f) /\
  forall q, pending_policy f = Some q -> declaration_scoped (pending_declaration q).

Definition spec_scoped (sp : InfraSpec) : Prop :=
  infra_id sp = cfg_infra_id (config id) /\ netns_device sp = id_netns_device id /\
  netns_inode sp = id_netns_inode id.

Definition scoped (s : State) : Prop :=
  (forall sp, spec s = Some sp -> spec_scoped sp) /\
  (forall f, forward s = Some f -> record_scoped f) /\
  (forall f, candidate s = Some f -> record_scoped f).

Definition outcome_scoped (o : Outcome) : Prop :=
  match o with Persists next => scoped next | Replies _ _ => True end.

Lemma refuse_identity_spec b : refuse_identity b = Ok tt <-> b = false.
Proof. by destruct b. Qed.
Lemma foreign_infra_spec infra : foreign_infra id infra = false <-> infra = cfg_infra_id (config id).
Proof. unfold foreign_infra. by rewrite negb_false_iff, bool_decide_eq_true. Qed.
Lemma foreign_owner_spec o : foreign_owner id o = false <-> owner_scoped o.
Proof. unfold foreign_owner. by rewrite negb_false_iff, bool_decide_eq_true. Qed.
Lemma foreign_table_spec d : foreign_table id d = false <-> declaration_scoped d.
Proof. unfold foreign_table. by rewrite negb_false_iff, Z.eqb_eq. Qed.

Ltac identities :=
  rewrite ?refuse_identity_spec, ?orb_false_iff, ?foreign_infra_spec, ?foreign_owner_spec,
    ?foreign_table_spec, ?negb_false_iff, ?Z.eqb_eq.

(** What the router's check says of the operations that bring something new. *)
Lemma scope_ensure sp : scope_operation id (InfraEnsure sp) = Ok tt <-> spec_scoped sp.
Proof. unfold spec_scoped. simpl. identities. naive_solver. Qed.
Lemma scope_prepare infra generation o d :
  scope_operation id (ForwardPrepare infra generation o d) = Ok tt -> owner_scoped o /\ declaration_scoped d.
Proof. simpl. identities. naive_solver. Qed.
Lemma scope_update o rev generation hash d :
  scope_operation id (ForwardPolicyUpdate o rev generation hash d) = Ok tt ->
  owner_scoped o /\ declaration_scoped d.
Proof. simpl. identities. naive_solver. Qed.
Lemma scope_renew o : scope_operation id (ForwardLeaseRenew o) = Ok tt -> owner_scoped o.
Proof. simpl. by identities. Qed.

Lemma result_bind_unit {E B} (m : Result E unit) (k : Result E B) b :
  result_bind m (fun _ => k) = Ok b <-> m = Ok tt /\ k = Ok b.
Proof. destruct m as [[]|e]; simpl; naive_solver. Qed.

(** The check of the journal at startup is this property. *)
Lemma validate_record_spec generation f :
  validate_record id generation f = Ok tt <-> record_scoped f.
Proof.
  unfold validate_record, record_scoped. rewrite result_bind_unit. simpl. identities.
  destruct (pending_policy f) as [q|]; simpl; identities; naive_solver.
Qed.

Lemma validate_journal_spec s : validate_journal id s = Ok tt <-> scoped s.
Proof.
  unfold validate_journal, scoped. rewrite !result_bind_unit. cbv zeta.
  pose proof (fun f => validate_record_spec
    match spec s with Some sp => infra_generation sp | None => 1 end f) as Hrec.
  assert (Hopt : forall A (check : A -> Result InfrastructureError unit) o,
    validate_option check o = Ok tt <-> forall a, o = Some a -> check a = Ok tt).
  { intros A check [a|]; simpl; naive_solver. }
  rewrite !Hopt. split; intros (H1 & H2 & H3); split_and!; intros a Ha;
    [apply scope_ensure|apply Hrec|apply Hrec|apply scope_ensure|apply Hrec|apply Hrec]; auto.
Qed.
End Scoped.

Lemma owned_by_Some owner record f : owned_by owner record = Some f -> record = Some f.
Proof. unfold owned_by. intros Hs. repeat case_match; simplify_eq; done. Qed.

(** Records and states built from those of the domain. *)
Section Updates.
Variable id : DomainIdentity.
Implicit Types (s : State) (f : ForwardRecord).

Lemma scoped_spec s sp : spec s = Some sp -> scoped id s -> spec_scoped id sp.
Proof. intros Hsp (Hs & _ & _). by apply Hs. Qed.
Lemma scoped_forward s f : forward s = Some f -> scoped id s -> record_scoped id f.
Proof. intros Hf (_ & Hs & _). by apply Hs. Qed.
Lemma scoped_candidate s f : candidate s = Some f -> scoped id s -> record_scoped id f.
Proof. intros Hf (_ & _ & Hs). by apply Hs. Qed.

Lemma scoped_either (b : bool) s f :
  (if b then candidate s else forward s) = Some f -> scoped id s -> record_scoped id f.
Proof. destruct b; [apply scoped_candidate|apply scoped_forward]. Qed.

Lemma owned_candidate owner s f :
  owned_by owner (candidate s) = Some f -> scoped id s -> record_scoped id f.
Proof. intros Hf%owned_by_Some. by apply scoped_candidate. Qed.

Lemma pending_scoped f q :
  pending_policy f = Some q -> record_scoped id f -> declaration_scoped id (pending_declaration q).
Proof. intros Hf (_ & _ & Hq). by apply Hq. Qed.

Lemma scoped_default : scoped id State_default.
Proof. by split_and!. Qed.
Lemma scoped_set_forward f s : scoped id s -> record_scoped id f -> scoped id (set_forward (Some f) s).
Proof. intros (? & ? & ?) Hf. split_and!; simpl; try done. by intros ? [= <-]. Qed.
Lemma scoped_set_candidate f s :
  scoped id s -> record_scoped id f -> scoped id (set_forward_candidate (Some f) s).
Proof. intros (? & ? & ?) Hf. split_and!; simpl; try done. by intros ? [= <-]. Qed.
Lemma scoped_no_candidate s : scoped id s -> scoped id (set_forward_candidate None s).
Proof. intros (? & ? & ?). by split_and!. Qed.
Lemma scoped_token t s : scoped id s -> scoped id (set_fencing_token t s).
Proof. intros (? & ? & ?). by split_and!. Qed.
Lemma scoped_sysctls l s : scoped id s -> scoped id (set_state_sysctls l s).
Proof. intros (? & ? & ?). by split_and!. Qed.
Lemma scoped_io_owner o epoch s : scoped id s -> scoped id (set_io_owner o epoch s).
Proof. intros (? & ? & ?). by split_and!. Qed.
Lemma scoped_created index boot s : scoped id s -> scoped id (set_created index boot s).
Proof. intros (? & ? & ?). by split_and!. Qed.
Lemma scoped_intent index marker admin io boot s s' :
  scoped id s -> scoped id s' -> scoped id (set_creation_intent (spec s) index marker admin io boot s').
Proof. intros (? & _ & _) (_ & ? & ?). by split_and!. Qed.
Lemma scoped_new_intent sp index marker admin io boot s :
  spec_scoped id sp -> scoped id s ->
  scoped id (set_creation_intent (Some sp) index marker admin io boot s).
Proof. intros Hsp (_ & ? & ?). split_and!; simpl; try done. by intros ? [= <-]. Qed.

Lemma record_phase p f : record_scoped id f -> record_scoped id (set_forward_phase p f).
Proof. done. Qed.
Lemma record_owner o f : owner_scoped id o -> record_scoped id f -> record_scoped id (set_forward_owner o f).
Proof. intros Ho (_ & Hf). by split. Qed.
Lemma record_authority a f : record_scoped id f -> record_scoped id (set_authority a f).
Proof. done. Qed.
Lemma record_failures rev failed pending pending_rev f :
  record_scoped id f -> record_scoped id (set_failures rev failed pending pending_rev f).
Proof. done. Qed.
Lemma record_no_policy f : record_scoped id f -> record_scoped id (set_pending_policy None f).
Proof. intros (? & ? & _). by split_and!. Qed.
Lemma record_pending q f :
  record_scoped id f -> declaration_scoped id (pending_declaration q) ->
  record_scoped id (set_pending_policy (Some q) f).
Proof. intros (? & ? & _) Hq. split_and!; simpl; try done. by intros ? [= <-]. Qed.
Lemma record_policy d rev generation hash failed f :
  record_scoped id f -> declaration_scoped id d ->
  record_scoped id (set_policy d rev generation hash failed None f).
Proof. intros (? & ? & _) Hd. by split_and!. Qed.
Lemma record_cancelled f :
  record_scoped id f ->
  record_scoped id match pending_policy f with
                   | Some pending => set_pending_policy (Some (cancel pending)) f
                   | None => f
                   end.
Proof.
  intros Hf. destruct (pending_policy f) as [q|] eqn:Hq; [|done].
  apply record_pending; [done|]. exact (pending_scoped f q Hq Hf).
Qed.
Lemma record_new owner d p :
  owner_scoped id owner -> declaration_scoped id d -> record_scoped id (new_forward owner d p).
Proof. intros Ho Hd. by split_and!. Qed.
End Updates.

Create HintDb scope.
#[export] Hint Resolve scoped_spec scoped_forward scoped_candidate scoped_either owned_candidate pending_scoped scoped_default
  scoped_set_forward scoped_set_candidate scoped_no_candidate scoped_token scoped_sysctls
  scoped_io_owner scoped_created scoped_intent scoped_new_intent record_phase record_owner record_authority
  record_failures record_no_policy record_pending record_policy record_new : scope.

Lemma ok_or_Some {E A} (o : option A) (e : E) a : ok_or o e = Ok a -> o = Some a.
Proof. destruct o; [by intros [= ->]|done]. Qed.

Lemma same_owner_Some record owner f : same_owner record owner = Ok f -> record = Some f.
Proof.
  unfold same_owner. intros Hs. apply result_bind_Ok in Hs as (r & Hr%ok_or_Some & Hs).
  case_match; [done|]. by injection Hs as <-.
Qed.


(** ** Every handler stays in its domain *)

Section Handlers.
Context {W : Type} `{!NetworkBackend W} `{!InfrastructureBackend W} `{!InfraHost W}
  `{!JournalFormat} `{!InfraMachine W} `{!JournalFormatLaws}.
Variable id : DomainIdentity.
Abbreviation InfraM := (InfraM W).

(** Whatever a start would read from the journal file names the domain only, and so does the
    state in memory. *)
Definition file_scoped (w : W) : Prop := forall s, load_journal (file w) = Ok s -> scoped id s.
Definition service_scoped (S : InfrastructureService W) : Prop :=
  scoped id (state S) /\ file_scoped (infra_world S).

(** The program keeps the state and the file in the domain, and its results satisfy [Q]. *)
Definition keeping {A} (Q : A -> Prop) (f : InfraM A) : Prop :=
  forall S, service_scoped S ->
    service_scoped (f S).2 /\ forall a, (f S).1 = Ok a -> Q a.

Lemma kp_mono {A} (Q Q' : A -> Prop) (f : InfraM A) :
  keeping Q f -> (forall a, Q a -> Q' a) -> keeping Q' f.
Proof. intros Hf HQ S HS. destruct (Hf S HS). eauto. Qed.

Lemma kp_bind {A B} (Q : A -> Prop) (R : B -> Prop) (f : InfraM A) (k : A -> InfraM B) :
  keeping Q f -> (forall a, Q a -> keeping R (k a)) -> keeping R (mbind f k).
Proof.
  intros Hf Hk S HS. destruct (Hf S HS) as [HS1 HQ]. unfold mbind.
  destruct (f S) as [[a|e] S1]; simpl in *; [|by split]. by apply Hk; [apply HQ|].
Qed.

Lemma kp_mret {A} (Q : A -> Prop) (a : A) : Q a -> keeping Q (mret (S := InfrastructureService W) a).
Proof. intros Ha S HS. split; [done|]. by intros ? [= <-]. Qed.

Lemma kp_mfail {A} (Q : A -> Prop) e : keeping Q (mfail (S := InfrastructureService W) e : InfraM A).
Proof. by intros S HS. Qed.

Lemma kp_ret_bind {A B} (R : B -> Prop) (a : A) (k : A -> InfraM B) :
  keeping R (k a) -> keeping R (mbind (mret a) k).
Proof. done. Qed.

Lemma kp_fail_bind {A B} (R : B -> Prop) e (k : A -> InfraM B) : keeping R (mbind (mfail e) k).
Proof. by intros S HS. Qed.

Lemma kp_lift {A} (r : Result InfrastructureError A) : keeping (fun a => r = Ok a) (lift r).
Proof. intros S HS. split; [done|]. by intros a Ha. Qed.

Lemma kp_unwrap {A} (o : option A) : keeping (fun a => o = Some a) (unwrap o).
Proof. intros S HS. split; [done|]. unfold unwrap, lift, ok_or. simpl. destruct o; by intros ? [= ->]. Qed.

Lemma kp_state : keeping (scoped id) (gets state).
Proof. intros S HS. split; [done|]. intros s [= <-]. exact (proj1 HS). Qed.

Lemma kp_gets {A} (g : InfrastructureService W -> A) : keeping (fun _ => True) (gets g).
Proof. by intros S HS. Qed.

Lemma kp_lifecycle v : keeping (fun _ => True) (modify (set_lifecycle v)).
Proof. by intros S HS. Qed.
Lemma kp_restart v : keeping (fun _ => True) (modify (set_restart v)).
Proof. by intros S HS. Qed.

Lemma kp_world {E A} (wrap : E -> InfrastructureError) (f : M W E A) added removed :
  spec_change steers file unsynced current_boot_id added removed f ->
  keeping (fun _ => True) (on_world wrap f).
Proof.
  intros Hf S [HS HF]. unfold on_world. specialize (Hf (infra_world S)).
  destruct (f (infra_world S)) as [r w']. destruct Hf as [Hfile _].
  split; [|done]. split; [done|]. unfold file_scoped in *. simpl. by rewrite Hfile.
Qed.

Lemma kp_host_read {A} (f : W -> Result IoError A) : keeping (fun _ => True) (host_read f).
Proof. by intros S HS. Qed.

Lemma kp_attempt {A} (Q : A -> Prop) (f : InfraM A) :
  keeping Q f -> keeping (fun _ => True) (attempt f : InfraM (Result InfrastructureError A)).
Proof. intros Hf S HS. destruct (Hf S HS). unfold attempt. by destruct (f S). Qed.

Lemma kp_ignore {A} (Q : A -> Prop) (f : InfraM A) :
  keeping Q f -> keeping (fun _ => True) (ignore f : InfraM unit).
Proof. intros Hf S HS. destruct (Hf S HS). unfold ignore. by destruct (f S). Qed.

(** A store leaves the file as it was or replaces it by a state of the domain, also when it
    reports an error. *)
Lemma kp_persist s : scoped id s -> keeping (fun _ => True) (persist s).
Proof.
  intros Hs. unfold persist. eapply kp_bind; [apply kp_lift|]. intros bytes Hb.
  assert (Hbytes : journal_bytes s = Ok bytes) by (destruct (journal_bytes s); by simplify_eq/=).
  apply (kp_bind (fun _ => True)).
  - intros S [HS HF]. unfold host, on_world. pose proof (write_journal_outcome bytes (infra_world S)) as Hw.
    destruct (write_journal bytes (infra_world S)) as [r w']. destruct Hw as [_ Hfile].
    split; [|done]. split; [done|]. simpl.
    assert (Hor : file w' = file (infra_world S) \/ file w' = Some bytes) by (destruct r; tauto).
    unfold file_scoped. intros s' Hl. destruct Hor as [E|E]; rewrite E in Hl; [by apply HF|].
    apply loaded_state in Hl. simpl in Hl. by rewrite (Hl s Hbytes).
  - intros _ _ S [_ HF]. by split.
Qed.

Create HintDb keeping.

(** One step through a program. *)
Ltac kp_prim :=
  first [ apply kp_state | apply kp_gets | apply kp_lifecycle | apply kp_restart | apply kp_unwrap
        | apply kp_lift | eapply kp_world; solve [eauto with infra] | apply kp_host_read
        | solve [eauto 9 with keeping scope]
        | eapply kp_attempt; kp_prim | eapply kp_ignore; kp_prim ].
Ltac kp_one :=
  match goal with
  | |- keeping _ (mbind (mbind _ _) _) => apply (kp_bind (fun _ => True)); [|intros ? _]
  | |- keeping _ (mbind (mret _) _) => apply kp_ret_bind
  | |- keeping _ (mbind (mfail _) _) => apply kp_fail_bind
  | |- keeping _ (mbind (if ?b then _ else _) _) => destruct b eqn:?
  | |- keeping _ (mbind (match ?o with _ => _ end) _) => destruct o eqn:?
  | |- keeping _ (mbind _ _) =>
      eapply kp_bind; [kp_prim|let Ha := fresh "Ha" in intros ? Ha; cbv beta in Ha;
        try apply ok_or_Some in Ha; try apply same_owner_Some in Ha]
  | |- keeping _ (mret _) => apply kp_mret
  | |- keeping _ (mfail _) => apply kp_mfail
  | |- keeping _ (reject _) => apply kp_mfail
  | |- keeping _ (if ?b then _ else _) => destruct b eqn:?
  | |- keeping _ (match ?o with _ => _ end) => destruct o eqn:?
  | |- keeping _ _ => eapply kp_mono; [kp_prim|]
  end.
Ltac kp := repeat (kp_one; cbv zeta beta); try done.

Lemma kp_administrator request : keeping (fun _ => True) (ensure_administrator request).
Proof. unfold ensure_administrator. kp. Qed.
Lemma kp_ownership : keeping (fun _ => True) verify_device_ownership.
Proof. unfold verify_device_ownership. kp. Qed.
#[local] Hint Resolve kp_administrator kp_ownership kp_persist : keeping.

Lemma kp_identity i generation : keeping (fun _ => True) (identity i generation).
Proof. unfold identity. kp. Qed.
Lemma kp_namespace sp : keeping (fun _ => True) (check_namespace sp).
Proof. unfold check_namespace. kp. Qed.
#[local] Hint Resolve kp_identity kp_namespace : keeping.

Lemma kp_device marker : keeping (fun _ => True) (create_or_open_device marker).
Proof. unfold create_or_open_device. kp. Qed.
#[local] Hint Resolve kp_device : keeping.

Lemma kp_created : keeping (fun _ => True) complete_creation.
Proof. unfold complete_creation. kp. Qed.
#[local] Hint Resolve kp_created : keeping.

Lemma kp_fence f : keeping (fun _ => True) (fence_policy_intent f).
Proof. unfold fence_policy_intent. kp. Qed.
#[local] Hint Resolve kp_fence : keeping.

(** Closes what [kp] leaves: a state to write, or an outcome. *)
Ltac written :=
  repeat match goal with |- context [if ?b then _ else _] => destruct b end;
  try apply kp_persist; simpl; eauto 9 with scope.

Lemma kp_reconcile now : keeping (fun _ => True) (reconcile_live_policy now).
Proof. unfold reconcile_live_policy, retained_identity. kp; written. Qed.
#[local] Hint Resolve kp_reconcile : keeping.

Lemma kp_install previous c l : keeping (fun _ => True) (install_replacement previous c l).
Proof. unfold install_replacement, transition. kp. Qed.
Lemma kp_boot b : keeping (fun _ => True) (in_this_boot b).
Proof. unfold in_this_boot. kp. Qed.
#[local] Hint Resolve kp_install kp_boot : keeping.

Lemma kp_rollback previous c now :
  record_scoped id previous -> keeping (fun _ => True) (rollback_replacement previous c now).
Proof. intros Hp. unfold rollback_replacement. kp; written. Qed.
#[local] Hint Resolve kp_rollback : keeping.

Lemma kp_recover_candidate now : keeping (fun _ => True) (recover_candidate now).
Proof. unfold recover_candidate. kp; written. Qed.

Lemma kp_revoke_fenced s : scoped id s -> keeping (fun _ => True) (revoke_fenced s).
Proof. intros Hs. unfold revoke_fenced. kp; written. Qed.
#[local] Hint Resolve kp_recover_candidate kp_revoke_fenced : keeping.

Lemma kp_recover_cancelled : keeping (fun _ => True) recover_cancelled.
Proof. unfold recover_cancelled. kp; written. Qed.
Lemma kp_recover_policy now : keeping (fun _ => True) (recover_policy now).
Proof. unfold recover_policy. kp; written. Qed.
Lemma kp_recover_failed now : keeping (fun _ => True) (recover_failed_prefixes now).
Proof. unfold recover_failed_prefixes, retained_identity. kp; written. Qed.

Lemma kp_fence_owner f : record_scoped id f -> keeping (fun _ => True) (fence_owner f).
Proof.
  intros Hf. unfold fence_owner. pose proof (record_cancelled _ _ Hf) as Hc. revert Hc.
  generalize (match pending_policy f with
              | Some pending => set_pending_policy (Some (cancel pending)) f
              | None => f
              end).
  intros f' Hf'. cbv zeta. kp; written.
Qed.
#[local] Hint Resolve kp_recover_cancelled kp_recover_policy kp_recover_failed kp_fence_owner : keeping.

Lemma kp_recover_owner now recovered : keeping (fun _ => True) (recover_owner now recovered).
Proof. unfold recover_owner. kp; written. Qed.
#[local] Hint Resolve kp_recover_owner : keeping.

Lemma kp_recover_expired now : keeping (fun _ => True) (recover_expired now).
Proof. unfold recover_expired. kp. Qed.
#[local] Hint Resolve kp_recover_expired : keeping.

(** *** Requests *)

Definition op_scoped (operation : Operation) : Prop := scope_operation id operation = Ok tt.

Lemma kp_authenticate request now :
  op_scoped (infra_operation request) ->
  keeping (fun oa => op_scoped oa.1) (authenticate_commit request now).
Proof.
  intros Hop. unfold authenticate_commit. unfold op_scoped in *.
  destruct (infra_operation request); try (by apply kp_mret). kp.
Qed.

Lemma kp_repair_check operation : keeping (fun _ => True) (refuse_during_repair operation).
Proof. unfold refuse_during_repair. kp. Qed.
Lemma kp_marker : keeping (fun _ => True) new_ownership_marker.
Proof. unfold new_ownership_marker. kp. Qed.
Lemma kp_alive o : keeping (fun _ => True) (io_alive o).
Proof. apply kp_gets. Qed.
#[local] Hint Resolve kp_repair_check kp_marker kp_alive : keeping.

Abbreviation handler_keeps := (keeping (outcome_scoped id)).

Lemma kp_repair : handler_keeps repair_infrastructure.
Proof.
  unfold repair_infrastructure. eapply kp_bind; [apply kp_state|]. intros s Hs.
  eapply kp_bind; [apply kp_alive|]. intros alive _. destruct alive; [apply kp_mfail|].
  apply (kp_bind (scoped id)).
  - destruct (forward s) as [f|] eqn:Hf; [|by apply kp_mret].
    do 2 (eapply kp_bind; [eapply kp_world; eauto with infra|]; intros _ _).
    apply kp_mret. eauto with scope.
  - intros next Hnext. kp; written.
Qed.
#[local] Hint Resolve kp_repair : keeping.

Lemma kp_ensure request sp : op_scoped (InfraEnsure sp) -> handler_keeps (infra_ensure request sp).
Proof.
  intros Hsp%scope_ensure. unfold infra_ensure, retained_identity, infra_status. kp; written.
Qed.

Lemma kp_acquire request i generation epoch : handler_keeps (acquire_io request i generation epoch).
Proof. unfold acquire_io. kp; written. Qed.
Lemma kp_release request i generation epoch : handler_keeps (release_io request i generation epoch).
Proof. unfold release_io. kp; written. Qed.
Lemma kp_retire request i generation : handler_keeps (infra_retire request i generation).
Proof. unfold infra_retire. kp; written. Qed.
#[local] Hint Resolve kp_ensure kp_acquire kp_release kp_retire : keeping.

Lemma kp_prepare_initial owner declaration next :
  owner_scoped id owner -> declaration_scoped id declaration -> scoped id next ->
  handler_keeps (prepare_initial owner declaration next).
Proof. intros Ho Hd Hs. unfold prepare_initial, backend_stage. kp; written. Qed.
#[local] Hint Resolve kp_prepare_initial : keeping.

Lemma kp_prepare_against previous owner declaration next :
  owner_scoped id owner -> declaration_scoped id declaration -> scoped id next ->
  handler_keeps (prepare_against previous owner declaration next).
Proof. intros Ho Hd Hs. unfold prepare_against. kp; written. Qed.
#[local] Hint Resolve kp_prepare_against : keeping.

Lemma kp_prepare request infra generation owner declaration now :
  op_scoped (ForwardPrepare infra generation owner declaration) ->
  handler_keeps (forward_prepare request infra generation owner declaration now).
Proof. intros [Ho Hd]%scope_prepare. unfold forward_prepare. kp; written. Qed.

Lemma kp_authorize request owner a now : handler_keeps (forward_authorize request owner a now).
Proof. unfold forward_authorize. kp; written. Qed.

Lemma kp_roll_back_after {A} (Q : A -> Prop) error previous c now :
  record_scoped id previous -> keeping Q (roll_back_after error previous c now).
Proof. intros Hp. unfold roll_back_after. kp; written. Qed.
#[local] Hint Resolve kp_prepare kp_authorize kp_roll_back_after : keeping.

Lemma kp_commit_replacement c next now :
  record_scoped id c -> scoped id next -> handler_keeps (commit_replacement_of c next now).
Proof. intros Hc Hs. unfold commit_replacement_of. kp; written. Qed.
Lemma kp_commit_current owner next : scoped id next -> handler_keeps (commit_current owner next).
Proof. intros Hs. unfold commit_current. kp; written. Qed.
#[local] Hint Resolve kp_commit_replacement kp_commit_current : keeping.

Lemma kp_commit request owner authenticated now :
  handler_keeps (forward_commit request owner authenticated now).
Proof. unfold forward_commit, retained_identity. kp; written. Qed.

Lemma kp_guard request owner now : handler_keeps (forward_guard request owner now).
Proof. unfold forward_guard. kp; written. Qed.

Lemma kp_revoke_current owner next : scoped id next -> handler_keeps (revoke_current owner next).
Proof.
  intros Hs. unfold revoke_current. eapply kp_bind; [apply kp_lift|]. intros f Hf%same_owner_Some.
  pose proof (record_cancelled _ _ (scoped_forward _ _ _ Hf Hs)) as Hc. revert Hc.
  generalize (match pending_policy f with
              | Some pending => set_pending_policy (Some (cancel pending)) f
              | None => f
              end).
  intros f' Hf'. cbv zeta. kp; written.
Qed.
#[local] Hint Resolve kp_commit kp_guard kp_revoke_current : keeping.

Lemma kp_revoke request owner now : handler_keeps (forward_revoke request owner now).
Proof. unfold forward_revoke. kp; written. Qed.

Lemma kp_renew request owner now :
  op_scoped (ForwardLeaseRenew owner) -> handler_keeps (forward_lease_renew request owner now).
Proof. intros Ho%scope_renew. unfold forward_lease_renew. kp; written. Qed.

Lemma kp_publish put current rev target :
  (forall f, record_scoped id f -> scoped id (put f)) -> record_scoped id current ->
  handler_keeps (publish_failures put current rev target).
Proof. intros Hput Hc. unfold publish_failures. kp; written. Qed.

Lemma kp_failed request owner rev failed now : handler_keeps (forward_failed request owner rev failed now).
Proof.
  unfold forward_failed, retained_identity. kp; written; kp; written;
    apply kp_publish; intros; eauto with scope.
Qed.

Lemma kp_policy request owner rev generation hash declaration now :
  op_scoped (ForwardPolicyUpdate owner rev generation hash declaration) ->
  handler_keeps (forward_policy_update request owner rev generation hash declaration now).
Proof. intros [Ho Hd]%scope_update. unfold forward_policy_update, retained_identity. kp; written. Qed.
#[local] Hint Resolve kp_revoke kp_renew kp_failed kp_policy : keeping.

Lemma kp_operation request operation authenticated now :
  op_scoped operation -> handler_keeps (handle_operation request operation authenticated now).
Proof. intros Hop. unfold handle_operation. destruct operation; kp; written. Qed.

Lemma kp_finish outcome : outcome_scoped id outcome -> keeping (fun _ => True) (finish outcome).
Proof. intros Ho. unfold finish. destruct outcome as [body fd|next]; simpl in Ho; kp. Qed.
#[local] Hint Resolve kp_operation kp_finish kp_authenticate : keeping.

Lemma kp_process request peer now :
  op_scoped (infra_operation request) -> keeping (fun _ => True) (infra_process request peer now).
Proof.
  intros Hop. unfold infra_process. kp.
Qed.
End Handlers.

(** ** The router lets nothing else through *)

Section Router.
Context {W : Type} `{!NetworkBackend W} `{!InfrastructureBackend W} `{!InfraHost W}
  `{!DomainHost W} `{!JournalFormat} `{!Layout} `{!InfraMachine W} `{!ProcessTable W}
  `{!JournalFormatLaws}.
Implicit Types (m : MultiDomainService W).

Definition identities m : list DomainIdentity := map w_identity (workers m).

(** A request as a domain's service may receive it. *)
Definition request_ok (id : DomainIdentity) (request : Request) : Prop :=
  op_scoped id (infra_operation request) /\ typed_operation (infra_operation request).

Definition call_admitted (ids : list DomainIdentity) (call : Call) : Prop :=
  exists id, ids !! call_worker call = Some id /\ request_ok id (call_request call).

Definition client_admitted (ids : list DomainIdentity) (c : Client) : Prop :=
  match c with
  | Received _ request _ _ => typed_operation (unscoped request)
  | Routed call | Entered call | Charged call _ | Drawn call _ _ _ | Bound call _ _ =>
      call_admitted ids call
  | _ => True
  end.

Definition worker_scoped (w : Worker W) : Prop :=
  life (w_service w) /\ service_scoped (w_identity w) (w_service w) /\
  (forall message, w_queue w = Some message -> request_ok (w_identity w) (msg_request message)) /\
  (forall message, w_stage w = Serving message -> request_ok (w_identity w) (msg_request message)).

(** The workers keep the identities [ids], and everything under way is admitted. *)
Variable ids : list DomainIdentity.

Definition admitted m : Prop :=
  identities m = ids /\ Forall (client_admitted ids) (clients m) /\ Forall worker_scoped (workers m).

Lemma admitted_client m i c : admitted m -> client_admitted ids c -> admitted (set_client i c m).
Proof. intros (Hi & Hc & Hw) Hok. split_and!; [done| |done]. by apply Forall_insert. Qed.

Lemma admitted_worker m k w w' :
  admitted m -> workers m !! k = Some w -> w_identity w' = w_identity w -> worker_scoped w' ->
  admitted (set_worker k w' m).
Proof.
  intros (Hi & Hc & Hw) Hk Hid Hok. split_and!; [|done|by apply Forall_insert].
  rewrite <- Hi. unfold identities. simpl. clear -Hk Hid. revert k Hk.
  induction (workers m) as [|w0 l IH]; intros [|k] Hk; simplify_eq/=; [by rewrite Hid|].
  f_equal. by apply IH.
Qed.

Lemma admitted_add m c : admitted m -> client_admitted ids c -> admitted (add_client c m).
Proof. intros (Hi & Hc & Hw) Hok. split_and!; [done| |done]. apply Forall_app_2; [done|]. by constructor. Qed.

Lemma identity_lookup m k w :
  admitted m -> workers m !! k = Some w -> ids !! k = Some (w_identity w).
Proof.
  intros (<- & _ & _) Hk. unfold identities.
  change (map w_identity (workers m)) with (w_identity <$> workers m). by rewrite list_lookup_fmap, Hk.
Qed.

Lemma admitted_lookup m i c : admitted m -> clients m !! i = Some c -> client_admitted ids c.
Proof. intros (_ & Hc & _) Hi. by apply (Forall_lookup_1 _ _ _ _ Hc Hi). Qed.
Lemma scoped_lookup m k w : admitted m -> workers m !! k = Some w -> worker_scoped w.
Proof. intros (_ & _ & Hw) Hk. by apply (Forall_lookup_1 _ _ _ _ Hw Hk). Qed.

Lemma admitted_release m r : admitted m -> admitted (do_release r m).
Proof.
  intros Hm. destruct r as [k|l]; simpl; [|done]. unfold update_worker.
  destruct (workers m !! k) as [w|] eqn:Hk; [|done]. apply (admitted_worker m k w); try done.
  by apply (scoped_lookup m k w).
Qed.

Lemma admitted_stage m k st :
  admitted m -> (forall message, st <> Serving message) -> admitted (set_stage k st m).
Proof.
  intros Hm Hst. unfold set_stage, update_worker. destruct (workers m !! k) as [w|] eqn:Hk; [|done].
  destruct (scoped_lookup m k w Hm Hk) as (? & ? & ? & _).
  apply (admitted_worker m k w); try done. split_and!; try done. intros message Hs. by destruct (Hst message).
Qed.

Lemma admitted_advance m i c : admitted m -> clients m !! i = Some c -> admitted (advance i c m).
Proof.
  intros Hm Hc. pose proof (admitted_lookup m i c Hm Hc) as Hok. destruct c; simpl in *; try done.
  - unfold do_route. apply admitted_client; [done|]. destruct (route _ _ _ _ _) as [|call] eqn:Hr; [done|].
    apply route_Forward in Hr as (d & infra & op & w & Hop & Hw & _ & _ & Hscope & _ & Hcall).
    exists (w_identity w). split; [by apply (identity_lookup m)|]. rewrite Hcall. split; [done|].
    unfold unscoped in Hok. by rewrite Hop in Hok.
  - unfold do_enter. destruct (workers m !! call_worker call) as [w|] eqn:Hw; [|done].
    destruct (w_inflight w); [by apply admitted_client|].
    pose proof (admitted_worker m _ w (with_inflight true w) Hm Hw eq_refl (scoped_lookup m _ w Hm Hw)) as Hm'.
    by apply admitted_client.
  - unfold do_charge. cbv zeta. case_match; [|by apply admitted_client].
    destruct (charge _ _ _) as [r s]. apply admitted_client; [done|]. by destruct r.
  - unfold do_draw. case_match; [|by apply admitted_client].
    destruct (draw_token _) as [r s]. apply admitted_client; [done|]. by destruct r.
  - unfold do_bind. case_match; [|done]. cbv zeta. destruct (reserve_binding _ _ _ _ _) as [r s].
    apply admitted_client; [done|]. by destruct r.
  - unfold do_send. destruct (workers m !! call_worker call) as [w|] eqn:Hw; [|done].
    destruct (w_queue w); [by apply admitted_client|]. cbv zeta.
    apply admitted_client; [|done]. apply (admitted_worker m _ w); try done.
    destruct (scoped_lookup m _ w Hm Hw) as (? & ? & ? & ?). split_and!; try done.
    intros message [= <-]. destruct Hok as (id & Hid & Hreq).
    rewrite (identity_lookup m _ w Hm Hw) in Hid. by injection Hid as <-.
  - destruct drops as [|r drops]; simpl; [apply admitted_client; [|done]; by destruct (undoes result)|].
    apply admitted_release. by apply admitted_client.
  - unfold do_finish. by apply admitted_client.
Qed.

Lemma admitted_work m k now : admitted m -> admitted (work k now m).
Proof.
  intros Hm. unfold work. destruct (workers m !! k) as [w|] eqn:Hk; [|done].
  destruct (scoped_lookup m k w Hm Hk) as (Hlife & Hs & Hq & Hserve).
  destruct (w_stage w) as [|message|message result|message result|message result|message result|] eqn:Hst.
  - destruct (w_queue w) as [message|] eqn:Hqueue; [|by apply admitted_stage].
    apply (admitted_worker m k w); try done. split_and!; try done. intros message' [= <-]. by apply Hq.
  - unfold process_message. destruct (Hserve message eq_refl) as [Hop Htyped].
    pose proof (life_request _ (msg_request message) (msg_peer message) (msg_now message) Hlife Htyped) as Hl.
    destruct (kp_process (w_identity w) (msg_request message) (msg_peer message) (msg_now message) Hop
      (w_service w) Hs) as [Hs' _].
    destruct (infra_process _ _ _ _) as [result service]. by apply (admitted_worker m k w).
  - apply admitted_stage; [|done]. by destruct (is_ok result).
  - by apply admitted_stage.
  - apply admitted_stage; [|done]. by apply (admitted_release m (FreeDomain (msg_domain message))).
  - apply admitted_stage; [|done]. unfold answer. repeat (case_match; try done). by apply admitted_client.
  - cbv zeta. apply (admitted_worker m k w); try done. destruct now as [now|]; [|done].
    split_and!; try done; simpl; [by apply life_sweep|by apply (kp_recover_expired (w_identity w) now)].
Qed.

Lemma admitted_step m m' : admitted m -> step m m' -> admitted m'.
Proof.
  intros Hm Hs. destruct Hs as [request peer now Ht| |_ _|_|i l ready Hc|i l Hq _|i l received Hc Ht
    |i c Hc|i front rollback Hc|k now|w _|k worker w Hk Hw]; try done.
  - by apply admitted_add.
  - unfold attach_front. by destruct (front_attached m).
  - destruct (dispatch_cases m) as [->|(l & s & _ & ->)]; [done|]. by apply admitted_add.
  - unfold do_submit. cbv zeta. apply admitted_client; [done|]. by case_match.
  - unfold do_pick. by apply admitted_client.
  - unfold do_receive. apply admitted_client; [done|].
    destruct received as [[[request peer] now]|]; [|done]. by apply (Ht request peer now).
  - by apply admitted_advance.
  - by apply admitted_client.
  - by apply admitted_work.
  - destruct (scoped_lookup m k worker Hm Hk) as (Hlife & Hs & Hq & Hserve).
    apply (admitted_worker m k worker); try done. split_and!; try done; [by apply life_machine|].
    destruct Hs as [Hs Hf], Hw as [E _]. split; [done|]. unfold file_scoped in *. simpl. by rewrite E.
Qed.

Lemma admitted_reachable m0 m : admitted m0 -> reachable m0 m -> admitted m.
Proof. intros Hm. induction 1 as [|m m' _ IH Hs]; [done|]. by apply (admitted_step m). Qed.
End Router.

(** ** The theorem *)

Lemma coverage_scoped id s t p :
  scoped id s -> coverage s t p ->
  t = cfg_table_id (config id) /\
  exists f, forward s = Some f /\ domain_id (forward_owner f) = cfg_domain_id (config id).
Proof.
  intros (_ & Hf & Hc) Ht. unfold coverage in Ht. destruct (forward s) as [f|] eqn:Hfor; [|done].
  destruct (Hf f eq_refl) as (Ho & Hd & Hq).
  assert (Hst : forall d, declaration_scoped id d -> steered d t p -> t = cfg_table_id (config id)).
  { by intros d Hscope (-> & _). }
  split; [|by exists f].
  destruct Ht as [(_ & [Ht|Ht])|Ht]; [by apply (Hst _ Hd)| |].
  - unfold pending_nets in Ht. destruct (pending_policy f) as [q|] eqn:Hpol; [|done].
    by apply (Hst _ (Hq q eq_refl)).
  - destruct (candidate s) as [c|] eqn:Hcand; [|done]. destruct (Hc c eq_refl) as (_ & Hdc & _).
    destruct Ht as (_ & [Ht|Ht]); [by apply (Hst _ Hdc)|by apply (Hst _ Hd)].
Qed.

Section Isolation.
Context {W : Type} `{!NetworkBackend W} `{!InfrastructureBackend W} `{!InfraHost W}
  `{!DomainHost W} `{!JournalFormat} `{!Layout} `{!InfraMachine W} `{!ProcessTable W}
  `{!LockLaws W} `{!JournalFormatLaws}.
Implicit Types (m : MultiDomainService W).

(** C4. Isolation: whatever requests arrive and however the threads interleave, the service
    of every domain stores only that domain, infrastructure, namespace and table, and so does
    whatever a restart would read from its journal; the journal holds the state in memory,
    unless the last store that replaced it failed in its directory sync; and the kernel steers
    in its namespace only destinations of the domain's own table, under an owner of the
    domain. *)
Theorem domains_isolated uid gid domains (w0 : W) m0 m k w :
  MultiDomainService_new uid gid domains w0 = Ok m0 ->
  Forall (fun worker => life (w_service worker)) (workers m0) ->
  reachable m0 m -> workers m !! k = Some w ->
  cfg_domains domains !! k = Some (config (w_identity w)) /\
  validate_journal (w_identity w) (state (w_service w)) = Ok tt /\
  (forall s, load_journal (file (infra_world (w_service w))) = Ok s ->
     validate_journal (w_identity w) s = Ok tt) /\
  (unsynced (infra_world (w_service w)) = false ->
     journal_holds (infra_world (w_service w)) (state (w_service w))) /\
  (forall t p, steers (infra_world (w_service w)) t p ->
     t = cfg_table_id (config (w_identity w)) /\
     exists f, forward (state (w_service w)) = Some f /\
       domain_id (forward_owner f) = cfg_domain_id (config (w_identity w))).
Proof.
  intros Hn Hlife Hr Hk. apply new_started in Hn as (Hst & _).
  assert (admitted (identities m0) m0) as Hm0.
  { split_and!; [done|by rewrite (proj1 (st_quiet _ _ _ _ Hst))|]. apply Forall_lookup_2. intros j worker Hj.
    pose proof (Forall_lookup_1 _ _ _ _ (st_workers _ _ _ _ Hst) Hj) as (_ & Hq & Hs & Hnew).
    pose proof (Forall_lookup_1 _ _ _ _ (st_journals _ _ _ _ Hst) Hj) as Hv.
    apply validate_journal_spec in Hv. apply new_loads in Hnew as [Hworld Hload].
    split_and!; [by apply (Forall_lookup_1 _ _ _ _ Hlife Hj)|split; [done|]|by rewrite Hq|by rewrite Hs].
    intros s' Hl. rewrite Hworld, Hload in Hl. by injection Hl as <-. }
  pose proof (admitted_reachable _ m0 m Hm0 Hr) as Hm.
  destruct (scoped_lookup _ m k w Hm Hk) as (Hl & [Hs Hfile] & _). apply life_sound in Hl as [(_ & Hj & _ & HX) _].
  split_and!; [|by apply validate_journal_spec| |done|].
  - pose proof (identity_lookup _ m k w Hm Hk) as Hid. rewrite <- (st_configs _ _ _ _ Hst).
    rewrite <- (map_map w_identity config). fold (identities m0).
    change (map config (identities m0)) with (config <$> identities m0). by rewrite list_lookup_fmap, Hid.
  - intros s Hl. by apply validate_journal_spec, Hfile.
  - intros t p Ht. by apply (coverage_scoped _ (state (w_service w)) t p Hs), HX.
Qed.
End Isolation.
