(* ===== verification/DomainScenarios.v ===== *)
(** * The domain router at work

    Two domains on the machine of [InfraMachine], driven through concrete schedules. *)
From stdpp Require Import base tactics list numbers option gmap strings relations.
From Stdlib Require Import ZArith Lia.
From S2P Require Import Prelude Ipv4 Wire Proto ProtoFacts Network Service InfraProto Infra.
From S2P Require Import InfraContract InfraHandlers InfraHistory InfraMachine InfraScenarios.
From S2P Require Import Domains DomainSteps DomainLedger DomainBindings DomainFacts DomainLive.
From S2P Require Import DomainScope.

#[local] Open Scope Z_scope.

(** ** The host *)

Definition east : DomainConfig :=
  mkDomainConfig domain host_id [47; 101] [47; 106; 101] 20001.
Definition west : DomainConfig :=
  mkDomainConfig (replicate 16 11) (replicate 16 12) [47; 119] [47; 106; 119] 20002.

Definition namespace_at (path : list Z) : Z * Z :=
  (4, if bool_decide (path = namespace_path east) then 1000 else 1001).

(** Every caller runs in the namespace of [east]; the journals are empty. *)
#[export] Instance scenario_host : DomainHost Machine := {
  open_descriptors _ := Ok 10;
  nofile_soft_limit _ := Ok 1024;
  process_namespace _ _ := Ok (4, 1000);
  thread_namespace _ := Ok (4, 1);
  open_namespace path _ := Ok (mkNamespaceFile 0 292 NSFS_MAGIC (namespace_at path));
  is_absolute path := match path with 47 :: _ => true | _ => false end;
  canonical_journal path _ := Ok path;
  lock_journal _ w := Ok (Some w);
  in_domain _ w := with_file None (with_routes [] w);
  journal_opens _ _ := Ok tt;
  spawn_in_domain d _ := Ok (namespace_at (namespace_path d));
  backend_starts _ := Ok tt;
}.

#[export] Instance scenario_layout : Layout := {
  usize_bits := 64;
  size_of_request := 512;
  size_of_route := 12;
  size_of_exclusion := 12;
  size_of_prefix := 8;
  capacity _ l := Z.of_nat (length l);
}.

#[export] Instance scenario_processes : @ProcessTable Machine machine_host.
Proof. refine {| runs o w := io_owner_alive o w = true |}. done. Defined.

#[export] Instance scenario_locks :
  @LockLaws Machine _ _ machine_host _ machine_contract scenario_processes.
Proof.
  split.
  - by intros path w w' o [= <-].
  - by intros path w w' d [= <-].
Defined.

Definition sample_budgets : DomainBudgets :=
  mkBudgets 4 2 6 MIN_CONTROL_THREAD_STACK_BYTES (6 * MIN_CONTROL_THREAD_STACK_BYTES) 8
    (8 * FRONT_REQUEST_BYTES) 200.
Definition sample_domains : DomainsConfig := mkDomains sample_budgets [east; west].

(** ** Schedules *)

Inductive Move : Type :=
| Open (request : Request)
| Advance (i : nat)
| Expire (i : nat)
| Work (k : nat).

Definition move (m : MultiDomainService Machine) (x : Move) : MultiDomainService Machine :=
  match x with
  | Open request => add_client (Received None request peer 100) m
  | Advance i => match clients m !! i with Some c => advance i c m | None => m end
  | Expire i =>
      match clients m !! i with
      | Some (Awaiting front rollback) => do_timeout i front rollback m
      | _ => m
      end
  | Work k => work k (Some 100) m
  end.

Definition play (l : list Move) (m : MultiDomainService Machine) : MultiDomainService Machine :=
  fold_left move l m.

Definition opens (x : Move) : Prop :=
  match x with Open request => typed_operation (unscoped request) | _ => True end.

Lemma play_reachable m0 m l : reachable m0 m -> Forall opens l -> reachable m0 (play l m).
Proof.
  intros Hr Hl. revert m Hr. induction Hl as [|x l Hx Hl IH]; intros m Hr; [done|]. simpl. apply IH.
  destruct x as [request|i|i|k]; simpl.
  - eapply reach_step; [exact Hr|]. by apply step_open.
  - destruct (clients m !! i) as [c|] eqn:Hc; [|done]. eapply reach_step; [exact Hr|]. by apply step_advance.
  - destruct (clients m !! i) as [c|] eqn:Hc; [|done]. destruct c; try done.
    eapply reach_step; [exact Hr|]. by apply (step_timeout _ _ front rollback).
  - eapply reach_step; [exact Hr|]. apply step_work.
Qed.

(** A request in the scope of a domain. *)
Definition within (d : DomainConfig) (operation : Operation) : Request :=
  ask (InDomain (cfg_domain_id d) (cfg_infra_id d) operation).

Definition to_worker (i : nat) : list Move := [Advance i; Advance i; Advance i; Advance i; Advance i].
Definition round (i k : nat) (d : DomainConfig) (operation : Operation) : list Move :=
  Open (within d operation) :: to_worker i ++ repeat (Work k) 7 ++ [Advance i; Advance i].

Definition idle_router : MultiDomainService Machine :=
  match MultiDomainService_new 0 0 sample_domains bare with
  | Ok m => m
  | Err _ => mkMulti 0 0 (mkShared sample_budgets (mkPending 0 0) [] ∅ 1) [] [] false bare
  end.

Lemma idle_started : MultiDomainService_new 0 0 sample_domains bare = Ok idle_router.
Proof. by vm_compute. Qed.

(** The infrastructure of [east], its policy committed. *)
Definition steering : MultiDomainService Machine :=
  play (round 0 0 east (InfraEnsure sample_spec)
        ++ round 1 0 east (ForwardPrepare host_id 1 (owner 1) sample_declaration)
        ++ round 2 0 east (ForwardCommit (owner 1))) idle_router.

(** An acquisition whose client has given up, with the message still queued. *)
Definition waiting : MultiDomainService Machine :=
  play (Open (within east (InfraAcquireIoFd host_id 1 5)) :: Advance 3 :: to_worker 3 ++ [Expire 3])
    steering.

(** ** Witnesses *)

Lemma idle_lives : Forall (fun worker => life (w_service worker)) (workers idle_router).
Proof.
  apply (Forall_fmap w_service life).
  assert (w_service <$> workers idle_router = [fresh bare; fresh bare]) as -> by by vm_compute.
  constructor; [apply life_fresh|]. constructor; [apply life_fresh|done].
Qed.

Lemma steering_reachable : reachable idle_router steering.
Proof. apply play_reachable; [apply reach_start|]. by repeat constructor. Qed.

Lemma waiting_running : running sample_domains waiting.
Proof.
  exists 0, 0, bare, idle_router. split; [exact idle_started|].
  apply play_reachable; [exact steering_reachable|]. unfold to_worker. simpl. by repeat constructor.
Qed.

Lemma admission_exact_witness :
  within_budgets sample_budgets 2 10 1024 /\ validate_resource_admission sample_domains bare = Ok tt.
Proof.
  assert (within_budgets sample_budgets 2 10 1024) as Hb by (unfold within_budgets; vm_compute; intuition discriminate).
  split; [exact Hb|]. apply (admission_exact sample_domains bare 10 1024); [|lia|reflexivity|reflexivity|exact Hb].
  unfold budgets_typed, is_usize. vm_compute. intuition discriminate.
Defined.

Lemma router_starts_witness :
  length (workers idle_router) = 2%nat /\ exclusive idle_router /\
  NoDup (map (fun worker => namespace_of (w_identity worker)) (workers idle_router)).
Proof.
  pose proof (router_starts 0 0 sample_domains bare idle_router idle_started) as H.
  split; [reflexivity|]. split; [apply H|apply H].
Defined.

Lemma domains_isolated_witness :
  exists w, workers steering !! O = Some w /\
    steers (infra_world (w_service w)) 20001 (sample_prefix 10 2 16) /\
    20001 = cfg_table_id (config (w_identity w)) /\
    exists f, forward (state (w_service w)) = Some f /\
      domain_id (forward_owner f) = cfg_domain_id (config (w_identity w)).
Proof.
  destruct (workers steering !! O) as [w|] eqn:Hw; [|vm_compute in Hw; discriminate].
  exists w. split; [reflexivity|].
  assert (Hst : steers (infra_world (w_service w)) 20001 (sample_prefix 10 2 16)).
  { revert Hw. vm_compute. intros [= <-]. split; [discriminate|]. right. left. }
  split; [exact Hst|].
  refine (proj2 (proj2 (proj2 (proj2 (domains_isolated 0 0 sample_domains bare idle_router steering O w
    idle_started _ steering_reachable Hw)))) 20001 (sample_prefix 10 2 16) Hst).
  exact idle_lives.
Defined.

Lemma acquisition_reserved_witness :
  exists w message o t,
    workers waiting !! O = Some w /\ w_queue w = Some message /\
    exclusive waiting /\ io_bindings (shared waiting) !! domain = Some (mkBinding o t) /\
    io_instance_id o = agent /\ io_pid o = 42.
Proof.
  destruct (workers waiting !! O) as [w|] eqn:Hw; [|vm_compute in Hw; discriminate].
  destruct (w_queue w) as [message|] eqn:Hq;
    [|exfalso; revert Hq; vm_compute in Hw; injection Hw as <-; discriminate].
  assert (Hmsg : infra_operation (msg_request message) = InfraAcquireIoFd host_id 1 5 /\
    caller_instance_id (msg_request message) = agent /\ caller_pid (msg_request message) = 42 /\
    domain_of w = domain).
  { vm_compute in Hw. injection Hw as <-. simpl in Hq. injection Hq as <-. by vm_compute. }
  destruct Hmsg as (Hop & Hagent & Hpid & Hdom).
  destruct (acquisition_reserved sample_domains waiting O w message host_id 1 5 waiting_running Hw
    (or_introl Hq) Hop) as (He & o & t & Hb & Hi & Hp & _).
  rewrite Hdom in Hb. exists w, message, o, t. rewrite <- Hagent, <- Hpid. by split_and!.
Defined.

Lemma binding_kept_witness :
  exists b, io_bindings (shared waiting) !! domain = Some b /\
    (io_bindings (shared (work 0 None waiting)) !! domain = Some b \/
     exists k w message error rb, workers waiting !! k = Some w /\ w_stage w = Served message (Err error) /\
       msg_rollback message = Some rb /\ domain_of w = domain /\ binding_token b = rollback_token rb).
Proof.
  destruct (io_bindings (shared waiting) !! domain) as [b|] eqn:Hb; [|vm_compute in Hb; discriminate].
  exists b. split; [reflexivity|].
  refine (binding_kept sample_domains waiting _ domain b waiting_running (step_work _ O None) Hb _).
  revert Hb. vm_compute. by intros [= <-].
Defined.

Lemma one_operation_per_domain_witness :
  exists w, workers waiting !! O = Some w /\ w_inflight w = true /\
    holding client_tokens worker_tokens (FreeDomain O) waiting = 1.
Proof.
  destruct (workers waiting !! O) as [w|] eqn:Hw; [|vm_compute in Hw; discriminate].
  assert (Hi : w_inflight w = true) by (vm_compute in Hw; by injection Hw as <-).
  exists w. split; [reflexivity|]. split; [exact Hi|].
  rewrite (proj1 (one_operation_per_domain sample_domains waiting waiting_running) O w Hw). by rewrite Hi.
Defined.

Lemma control_budget_witness :
  pending (shared waiting) = mkPending 1 512 /\
  0 <= pending_requests (pending (shared waiting)) <= 8.
Proof.
  split; [by vm_compute|]. apply (control_budget sample_domains waiting waiting_running).
Defined.

Lemma router_drains_witness :
  weight waiting = 12 /\
  forall n m', nsteps thread_step n waiting m' -> Z.of_nat n <= weight waiting.
Proof.
  split; [by vm_compute|]. apply (router_drains sample_domains waiting waiting_running).
Defined.
