(* ===== verification/PacketPort.v ===== *)
(** * Packet ports

    The package candy-packet-port, which candy-tunio is built on: the binding of a packet
    port and the frames that cross its socket ([packet_port_ipc.rs]), and the bounded output
    queue with its progress ([packet_port.rs]). The queue's counters are diagnostics and are
    left out. *)
From stdpp Require Import base tactics list numbers option gmap strings.
From Stdlib Require Import ZArith Lia.
From S2P Require Import Prelude.

#[local] Open Scope Z_scope.

(** ** Bindings and frames *)

Record PacketPortBinding : Type := mkBinding {
  infrastructure_id : list Z;
  routing_domain_id : list Z;
  infrastructure_generation : Z;
  io_epoch : Z;
  owner_epoch : Z;
  policy_generation : Z;
}.

#[export] Instance PacketPortBinding_eq_dec : EqDecision PacketPortBinding.
Proof. solve_decision. Defined.

Inductive PacketPortRole : Type := Infrastructure | Worker.

#[export] Instance PacketPortRole_eq_dec : EqDecision PacketPortRole.
Proof. solve_decision. Defined.

Definition outgoing_direction (role : PacketPortRole) : Z :=
  match role with Infrastructure => 1 | Worker => 2 end.

Definition HEADER_BYTES : nat := 76.
Definition MAX_PACKET_BYTES : Z := 1400.

(** An [io::Error], by what the callers ask about it: [is_packet_scoped_write_error], the
    refusal of an owner that may not write, and the rest. *)
Inductive IoError : Type :=
| PacketScoped
| AuthorizationFailure
| Broken.

#[export] Instance IoError_eq_dec : EqDecision IoError.
Proof. solve_decision. Defined.

(** A connected datagram socket, named by [port_socket]. *)
Record UnixPacketPort : Type := mkPort {
  port_socket : nat;
  port_binding : PacketPortBinding;
  port_role : PacketPortRole;
  outgoing_header : list Z;
  incoming_prefix : list Z;
}.

#[export] Instance UnixPacketPort_eq_dec : EqDecision UnixPacketPort.
Proof. solve_decision. Defined.

(** The first 72 bytes of a frame. *)
Definition header_prefix (binding : PacketPortBinding) (direction : Z) : list Z :=
  [67; 80; 73; 79; 1; direction; 0; 0]
  ++ infrastructure_id binding ++ routing_domain_id binding
  ++ to_be_bytes 8 (infrastructure_generation binding) ++ to_be_bytes 8 (io_epoch binding)
  ++ to_be_bytes 8 (owner_epoch binding) ++ to_be_bytes 8 (policy_generation binding).

Definition binding_is_zero (binding : PacketPortBinding) : bool :=
  bool_decide (infrastructure_id binding = replicate 16 0)
  || bool_decide (routing_domain_id binding = replicate 16 0)
  || (infrastructure_generation binding =? 0) || (io_epoch binding =? 0)
  || (owner_epoch binding =? 0) || (policy_generation binding =? 0).

(** [UnixPacketPort::new] on a connected socket. *)
Definition UnixPacketPort_new (socket : nat) (binding : PacketPortBinding)
    (role : PacketPortRole) : Result IoError UnixPacketPort :=
  if binding_is_zero binding then Err Broken
  else
    let direction := outgoing_direction role in
    Ok (mkPort socket binding role (header_prefix binding direction ++ replicate 4 0)
          (header_prefix binding (3 - direction))).

(** [UnixPacketPort::encode_header]; the frame is the header followed by the packet. *)
Definition encode_header (self : UnixPacketPort) (packet : list Z) : Result IoError (list Z) :=
  if bool_decide (packet = []) || (MAX_PACKET_BYTES <? Z.of_nat (length packet)) then Err Broken
  else Ok (take 72 (outgoing_header self) ++ to_be_bytes 4 (Z.of_nat (length packet))).

Definition encode_frame (self : UnixPacketPort) (packet : list Z) : Result IoError (list Z) :=
  let? header := encode_header self packet in
  Ok (header ++ packet).

(** [UnixPacketPort::matches_binding] on the header buffer and the length of the datagram. *)
Definition matches_binding (self : UnixPacketPort) (header : list Z) (frame_bytes : Z) : bool :=
  (Z.of_nat HEADER_BYTES <? frame_bytes)
  && (frame_bytes <=? Z.of_nat HEADER_BYTES + MAX_PACKET_BYTES)
  && bool_decide (take 72 header = incoming_prefix self)
  && bool_decide (drop 72 header = to_be_bytes 4 (frame_bytes - Z.of_nat HEADER_BYTES)).

(** One datagram as [recv_packet] sees it: the first 76 bytes in the header buffer, the rest
    in the packet buffer of 1401 bytes; a longer one is truncated and reported so. The header
    buffer of a shorter one does not matter: its length is refused. *)
Definition receive_frame (self : UnixPacketPort) (frame : list Z) : option (list Z) :=
  let header := take HEADER_BYTES frame in
  let truncated := Z.of_nat HEADER_BYTES + MAX_PACKET_BYTES + 1 <? Z.of_nat (length frame) in
  if negb truncated && matches_binding self header (Z.of_nat (length frame))
  then Some (drop HEADER_BYTES frame) else None.

(** ** Progress of an output queue

    [complete] runs in the thread that drops a packet: a compare-and-exchange and a load in
    the fast path, a lock and four atomic accesses under it in the slow one. The accesses are
    ordered by Acquire and Release only, so a load may return an older value than the last
    one stored by another thread; read-modify-writes, and what the lock protects, may not. *)

Record OutputProgress : Type := mkProgress {
  accepted : Z;
  completed : Z;
  completion_gaps : bool;
  (** The thread that holds the lock of the failures: it completes this serial. *)
  locked_by : option Z;
  serials : list Z;
  evicted_through : Z;
  settled : gset Z;
}.

Definition OUTPUT_FAILURE_HISTORY : nat := 64.

Definition new_progress : OutputProgress := mkProgress 0 0 false None [] 0 ∅.

Definition set_completed (c : Z) (p : OutputProgress) : OutputProgress :=
  mkProgress (accepted p) c (completion_gaps p) (locked_by p) (serials p) (evicted_through p)
    (settled p).
Definition set_gaps (b : bool) (p : OutputProgress) : OutputProgress :=
  mkProgress (accepted p) (completed p) b (locked_by p) (serials p) (evicted_through p)
    (settled p).
Definition set_lock (l : option Z) (p : OutputProgress) : OutputProgress :=
  mkProgress (accepted p) (completed p) (completion_gaps p) l (serials p) (evicted_through p)
    (settled p).
Definition set_settled (s : gset Z) (p : OutputProgress) : OutputProgress :=
  mkProgress (accepted p) (completed p) (completion_gaps p) (locked_by p) (serials p)
    (evicted_through p) s.

Definition accept (p : OutputProgress) : Z * OutputProgress :=
  let serial := accepted p + 1 in
  (serial, mkProgress serial (completed p) (completion_gaps p) (locked_by p) (serials p)
             (evicted_through p) (settled p)).

(** The failure history keeps the last 64 failed serials. *)
Definition record_failure (serial : Z) (p : OutputProgress) : OutputProgress :=
  let '(kept, evicted) :=
    if bool_decide (length (serials p) = OUTPUT_FAILURE_HISTORY) then
      match serials p with
      | [] => ([], evicted_through p)
      | first :: rest => (rest, Z.max (evicted_through p) first)
      end
    else (serials p, evicted_through p) in
  mkProgress (accepted p) (completed p) (completion_gaps p) (locked_by p) (kept ++ [serial])
    evicted (settled p).

(** [while failures.settled.remove(&(completed + 1)) { completed += 1; }]: at most one round
    per settled serial. *)
Fixpoint advance_frontier (fuel : nat) (c : Z) (s : gset Z) : Z * gset Z :=
  match fuel with
  | O => (c, s)
  | S fuel => if bool_decide (c + 1 ∈ s) then advance_frontier fuel (c + 1) (s ∖ {[c + 1]})
              else (c, s)
  end.

Definition fold_settled (c : Z) (s : gset Z) : Z * gset Z := advance_frontier (size s) c s.

(** Where a thread stands in [complete(serial, delivered)]. *)
Inductive CompletionStage : Type :=
| Starting
| Exchanged
| WaitingForLock
| Marked
| Folded (frontier : Z)
| Published
| Completed.

#[export] Instance CompletionStage_eq_dec : EqDecision CompletionStage.
Proof. solve_decision. Defined.

Record Completion : Type := mkCompletion {
  c_delivered : bool;
  c_stage : CompletionStage;
}.

Definition at_stage (stage : CompletionStage) (c : Completion) : Completion :=
  mkCompletion (c_delivered c) stage.

(** What the thread sees of the two atomics when it loads them. *)
Record Loads : Type := mkLoads {
  seen_completed : Z;
  seen_gaps : bool;
}.

(** The values that were stored last. *)
Definition latest (p : OutputProgress) : Loads := mkLoads (completed p) (completion_gaps p).

(** One atomic access of [complete(serial, delivered)], or none while it waits for the lock. An
    exchange that succeeds is a read-modify-write; one that fails is a load. *)
Definition completion_step (l : Loads) (serial : Z) (c : Completion) (p : OutputProgress)
  : Completion * OutputProgress :=
  match c_stage c with
  | Starting =>
      if c_delivered c && (completed p =? serial - 1) && (seen_completed l =? serial - 1)
      then (at_stage Exchanged c, set_completed serial p)
      else (at_stage WaitingForLock c, p)
  | Exchanged => (at_stage (if seen_gaps l then WaitingForLock else Completed) c, p)
  | WaitingForLock =>
      match locked_by p with
      | Some _ => (c, p)
      | None =>
          let p := if c_delivered c then p else record_failure serial p in
          (at_stage Marked c, set_gaps true (set_lock (Some serial) p))
      end
  | Marked =>
      let completed := seen_completed l in
      let inserted := if completed <? serial then {[serial]} ∪ settled p else settled p in
      let '(frontier, rest) := fold_settled completed inserted in
      (at_stage (Folded frontier) c, set_settled rest p)
  | Folded frontier => (at_stage Published c, set_completed (Z.max (completed p) frontier) p)
  | Published =>
      (at_stage Completed c,
       set_lock None (set_gaps (negb (bool_decide (settled p = ∅))) p))
  | Completed => (c, p)
  end.

(** [complete] without interference. *)
Definition complete (serial : Z) (delivered : bool) (p : OutputProgress) : OutputProgress :=
  (Nat.iter 6 (fun cp => completion_step (latest cp.2) serial cp.1 cp.2)
     (mkCompletion delivered Starting, p)).2.

Definition checkpoint (p : OutputProgress) : Z := accepted p.

(** [PacketOutput::drained_between]. The frontier [frontier] is loaded first, the failures are
    read under the lock afterwards. *)
Definition drained_answer (frontier start checkpoint : Z) (p : OutputProgress)
  : Result string bool :=
  if (checkpoint <? start) || (accepted p <? checkpoint)
  then Err "invalid output checkpoint interval"
  else if start <? evicted_through p then Err "output drain failure evidence expired"
  else match find (fun s => (start <? s) && (s <=? checkpoint)) (serials p) with
       | Some _ => Err "output packet failed in checkpoint interval"
       | None => Ok (checkpoint <=? frontier)
       end.

Definition drained_between (start checkpoint : Z) (p : OutputProgress) : Result string bool :=
  drained_answer (completed p) start checkpoint p.

Definition drained_through (checkpoint : Z) (p : OutputProgress) : Result string bool :=
  drained_between 0 checkpoint p.
