(* ===== verification/PacketPortFacts.v ===== *)
(** * Frames and progress

    A frame reaches exactly the other end of the binding it was written for; and the settled
    frontier that [complete] maintains without a lock on its fast path is, however its
    accesses interleave and however late its loads see the stores of other threads, never
    ahead of the one a scan of the history would find, and equal to it once all is quiet
    if the loads were not late. *)
From stdpp Require Import base tactics list numbers option gmap strings.
From Stdlib Require Import ZArith Lia.
From S2P Require Import Prelude PacketPort.

#[local] Open Scope Z_scope.

(** ** Frames *)

Record binding_typed (b : PacketPortBinding) : Prop := {
  typed_infrastructure : is_array 16 (infrastructure_id b);
  typed_domain : is_array 16 (routing_domain_id b);
  typed_generation : is_u 64 (infrastructure_generation b);
  typed_io_epoch : is_u 64 (io_epoch b);
  typed_owner_epoch : is_u 64 (owner_epoch b);
  typed_policy : is_u 64 (policy_generation b);
}.

Definition opposite (role : PacketPortRole) : PacketPortRole :=
  match role with Infrastructure => Worker | Worker => Infrastructure end.

Lemma opposite_involutive role : opposite (opposite role) = role.
Proof. by destruct role. Qed.

Lemma opposite_direction role : 3 - outgoing_direction role = outgoing_direction (opposite role).
Proof. by destruct role. Qed.

Lemma length_header_prefix b d : binding_typed b -> length (header_prefix b d) = 72%nat.
Proof.
  intros [[H1 _] [H2 _] _ _ _ _]. unfold header_prefix.
  rewrite !length_app, H1, H2, !length_to_be_bytes. done.
Qed.

Lemma port_opened s b r p :
  UnixPacketPort_new s b r = Ok p ->
  p = mkPort s b r (header_prefix b (outgoing_direction r) ++ replicate 4 0)
        (header_prefix b (3 - outgoing_direction r)).
Proof.
  unfold UnixPacketPort_new. destruct (binding_is_zero b); [done|]. intros E. by inversion E.
Qed.

Lemma take_header b d l : binding_typed b -> take 72 (header_prefix b d ++ l) = header_prefix b d.
Proof. intros Ht. apply take_app_length'. by rewrite length_header_prefix. Qed.

Lemma to_be_bytes_inj n x y :
  0 <= x < 256 ^ Z.of_nat n -> 0 <= y < 256 ^ Z.of_nat n -> to_be_bytes n x = to_be_bytes n y ->
  x = y.
Proof.
  intros Hx Hy E. apply (f_equal from_be_bytes) in E. by rewrite !from_to_be_bytes_id in E.
Qed.

Lemma u64_bytes x : is_u 64 x -> 0 <= x < 256 ^ Z.of_nat 8.
Proof. done. Qed.

Lemma header_prefix_inj b d b' d' :
  binding_typed b -> binding_typed b' -> header_prefix b d = header_prefix b' d' ->
  b = b' /\ d = d'.
Proof.
  intros [[H1 _] [H2 _] H3 H4 H5 H6] [[K1 _] [K2 _] K3 K4 K5 K6] E. unfold header_prefix in E.
  apply app_inj_1 in E as [E0 E]; [|done]. injection E0 as Ed.
  apply app_inj_1 in E as [E1 E]; [|congruence]. apply app_inj_1 in E as [E2 E]; [|congruence].
  do 3 (apply app_inj_1 in E as [?E E]; [|by rewrite !length_to_be_bytes]).
  repeat match goal with
    | E : to_be_bytes 8 _ = to_be_bytes 8 _ |- _ =>
        apply to_be_bytes_inj in E; [|by apply u64_bytes..]
    end.
  destruct b, b'; simpl in *. by subst.
Qed.

Section Frames.
Context (socket socket' : nat) (b : PacketPortBinding) (role : PacketPortRole) (p q : UnixPacketPort).
Hypothesis typed : binding_typed b.
Hypothesis opened : UnixPacketPort_new socket b role = Ok p.
Hypothesis peer : UnixPacketPort_new socket' b (opposite role) = Ok q.

Lemma encode_frame_bytes packet frame :
  encode_frame q packet = Ok frame <->
  (packet <> [] /\ Z.of_nat (length packet) <= MAX_PACKET_BYTES /\
   frame = header_prefix b (outgoing_direction (opposite role))
           ++ to_be_bytes 4 (Z.of_nat (length packet)) ++ packet).
Proof using typed peer.
  rewrite (port_opened _ _ _ _ peer).
  unfold encode_frame, encode_header. cbn [outgoing_header]. rewrite take_header by done.
  case_bool_decide as Hp; simpl; [naive_solver|].
  destruct (Z.ltb_spec MAX_PACKET_BYTES (Z.of_nat (length packet))); simpl; [split; [done|lia]|].
  rewrite <- (assoc_L app). split; [intros [= <-]|intros (_ & _ & ->)]; done.
Qed.

Lemma receive_frame_iff frame packet :
  receive_frame p frame = Some packet <->
  (packet <> [] /\ Z.of_nat (length packet) <= MAX_PACKET_BYTES /\
   frame = header_prefix b (outgoing_direction (opposite role))
           ++ to_be_bytes 4 (Z.of_nat (length packet)) ++ packet).
Proof using typed opened.
  rewrite (port_opened _ _ _ _ opened).
  unfold receive_frame, matches_binding. cbn [incoming_prefix].
  rewrite opposite_direction. set (prefix := header_prefix b _).
  assert (Hl : length prefix = 72%nat) by by apply length_header_prefix.
  split.
  - intros E. destruct (_ && _) eqn:B; [|done]. injection E as <-.
    apply andb_prop in B as [B0 B]. apply andb_prop in B as [B B4%bool_decide_eq_true].
    apply andb_prop in B as [B B3%bool_decide_eq_true]. apply andb_prop in B as [B1%Z.ltb_lt B2%Z.leb_le].
    clear B0. unfold HEADER_BYTES in *. rewrite length_drop.
    split_and!; [intros E; apply (f_equal length) in E; rewrite length_drop in E; simpl in E; lia|lia|].
    rewrite take_take in B3. change (72 `min` 76)%nat with 72%nat in B3.
    rewrite <- B3. rewrite <- (take_drop 72 frame) at 1. f_equal.
    rewrite <- (take_drop 4 (drop 72 frame)). rewrite drop_drop. change (72 + 4)%nat with 76%nat.
    rewrite take_drop_commute. change (72 + 4)%nat with 76%nat.
    rewrite B4. do 3 f_equal. lia.
  - intros (Hp & Hm & ->). unfold HEADER_BYTES.
    assert (1 <= length packet)%nat by (destruct packet; [done|simpl; lia]).
    assert (Ht : take 76 (prefix ++ to_be_bytes 4 (Z.of_nat (length packet)) ++ packet)
             = prefix ++ to_be_bytes 4 (Z.of_nat (length packet))).
    { rewrite (assoc_L app). rewrite take_app_le, take_ge; [done|..];
        rewrite length_app, Hl, length_to_be_bytes; lia. }
    assert (Hd : drop 76 (prefix ++ to_be_bytes 4 (Z.of_nat (length packet)) ++ packet) = packet).
    { rewrite (assoc_L app). rewrite drop_app_ge, length_app, Hl, length_to_be_bytes by
        (rewrite length_app, Hl, length_to_be_bytes; lia). done. }
    rewrite Ht, Hd. rewrite !length_app, Hl, length_to_be_bytes.
    rewrite take_app_le, take_ge, drop_app_ge, Hl, drop_0 by lia.
    unfold MAX_PACKET_BYTES in *.
    replace (Z.of_nat (72 + (4 + length packet)) - Z.of_nat 76) with (Z.of_nat (length packet)) by lia.
    rewrite !bool_decide_eq_true_2 by done.
    destruct (Z.ltb_spec (Z.of_nat 76 + 1400 + 1) (Z.of_nat (72 + (4 + length packet)))); [lia|].
    destruct (Z.ltb_spec (Z.of_nat 76) (Z.of_nat (72 + (4 + length packet)))); [|lia].
    destruct (Z.leb_spec (Z.of_nat (72 + (4 + length packet))) (Z.of_nat 76 + 1400)); [done|lia].
Qed.
End Frames.

(** A port accepts exactly the frames that the other end of its own binding encodes, and
    reads the packet back: a frame written for another infrastructure, domain, generation,
    epoch, owner or policy, or in the same direction, is dropped. *)
Theorem frames_of_one_binding socket b role p :
  binding_typed b -> UnixPacketPort_new socket b role = Ok p ->
  (forall socket' b' role' q packet frame,
     binding_typed b' -> UnixPacketPort_new socket' b' role' = Ok q ->
     encode_frame q packet = Ok frame ->
     receive_frame p frame =
       if bool_decide (b' = b /\ role' = opposite role) then Some packet else None) /\
  (forall frame packet, receive_frame p frame = Some packet ->
     exists q, UnixPacketPort_new socket b (opposite role) = Ok q /\
       encode_frame q packet = Ok frame).
Proof.
  intros Ht Hp. split.
  - intros socket' b' role' q packet frame Ht' Hq He.
    pose proof (encode_frame_bytes socket' b' (opposite role') q Ht') as Heq.
    rewrite opposite_involutive in Heq. apply (Heq Hq) in He as (Hn & Hm & Hf).
    case_bool_decide as Hb.
    + destruct Hb as [-> ->]. by apply (receive_frame_iff socket b role p Ht Hp).
    + destruct (receive_frame p frame) as [packet'|] eqn:Er; [|done]. destruct Hb.
      apply (receive_frame_iff socket b role p Ht Hp) in Er as (_ & _ & Hf').
      rewrite Hf in Hf'. apply app_inj_1 in Hf' as [Hh _]; [|by rewrite !length_header_prefix].
      apply header_prefix_inj in Hh as [-> Hd]; [|done..]. split; [done|].
      by destruct role, role'.
  - intros frame packet Hr. apply (receive_frame_iff socket b role p Ht Hp) in Hr as Hf.
    unfold UnixPacketPort_new in Hp |- *. case_match; [done|]. eexists. split; [done|].
    apply (encode_frame_bytes socket b role); [done| |done].
    unfold UnixPacketPort_new. by case_match.
Qed.

(** ** Progress under interleaving

    The queue is filled by one thread; packets are dropped, delivered or not, by any. *)

Record ProgressState : Type := mkProgressState {
  progress : OutputProgress;
  completions : gmap Z Completion;
}.

Definition run_access (l : Loads) (n : Z) (c : Completion) (s : ProgressState) : ProgressState :=
  let '(c', p') := completion_step l n c (progress s) in
  mkProgressState p' (<[n := c']> (completions s)).

(** What a load may return: any value of the flag and any earlier frontier, whatever the
    memory orders allow of it; with [sc], as if all accesses were sequentially consistent, the
    value stored last. *)
Definition may_load (sc : bool) (p : OutputProgress) (l : Loads) : Prop :=
  seen_completed l <= completed p /\ (sc = true -> l = latest p).

Lemma may_load_latest sc p : may_load sc p (latest p).
Proof. by split. Qed.

Inductive progress_step (sc : bool) (s : ProgressState) : ProgressState -> Prop :=
| progress_accept :
    progress_step sc s (mkProgressState (accept (progress s)).2 (completions s))
| progress_drop n delivered :
    1 <= n <= accepted (progress s) -> completions s !! n = None ->
    progress_step sc s (mkProgressState (progress s)
                          (<[n := mkCompletion delivered Starting]> (completions s)))
| progress_access l n c :
    completions s !! n = Some c -> may_load sc (progress s) l ->
    progress_step sc s (run_access l n c s).

Definition progress_reachable (sc : bool) (s : ProgressState) : Prop :=
  rtc (progress_step sc) (mkProgressState new_progress ∅) s.

(** The failure is on record, or its record has been evicted. *)
Definition recorded (p : OutputProgress) (n : Z) : Prop :=
  n ∈ serials p \/ n <= evicted_through p.

(** A dropped packet whose outcome the frontier may count. *)
Definition settles (s : ProgressState) (n : Z) : Prop :=
  exists c, completions s !! n = Some c /\ c_stage c <> Starting /\
    (c_delivered c = false -> recorded (progress s) n).

(** The frontier that the holder of the lock is about to publish. *)
Definition folded (s : ProgressState) : option Z :=
  h ← locked_by (progress s); c ← completions s !! h;
  match c_stage c with Folded f => Some f | _ => None end.

Definition frontier (s : ProgressState) : Z :=
  match folded s with
  | Some f => Z.max (completed (progress s)) f
  | None => completed (progress s)
  end.

Definition holds_lock (c : Completion) : bool :=
  match c_stage c with Marked | Folded _ | Published => true | _ => false end.

(** A thread that will fold the settled serials into the frontier. *)
Definition will_fold (c : Completion) : Prop :=
  match c_stage c with Exchanged | WaitingForLock | Marked => True | _ => False end.

Record progress_ok (sc : bool) (s : ProgressState) : Prop := {
  pk_range n c : completions s !! n = Some c -> 1 <= n <= accepted (progress s);
  pk_lock n c : completions s !! n = Some c ->
    (holds_lock c = true <-> locked_by (progress s) = Some n);
  pk_locked n : locked_by (progress s) = Some n ->
    is_Some (completions s !! n) /\ completion_gaps (progress s) = true;
  pk_counted n : 1 <= n <= frontier s -> settles s n;
  pk_settled n : n ∈ settled (progress s) -> 1 <= n /\ settles s n;
  pk_gaps : settled (progress s) <> ∅ -> completion_gaps (progress s) = true;
  pk_failed n : n ∈ serials (progress s) ->
    exists c, completions s !! n = Some c /\ c_delivered c = false;
  pk_recorded n c : completions s !! n = Some c -> c_delivered c = false ->
    match c_stage c with Starting | WaitingForLock => True | _ => recorded (progress s) n end;
  pk_exchanged n c : completions s !! n = Some c -> c_stage c = Exchanged ->
    c_delivered c = true /\ n <= completed (progress s);
  pk_finished n c : completions s !! n = Some c ->
    match c_stage c with
    | Folded _ | Published | Completed => n <= frontier s \/ n ∈ settled (progress s)
    | _ => True
    end;
  (** Only if no load is stale does somebody always take care of the frontier. *)
  pk_frontier : sc = true -> frontier s + 1 ∈ settled (progress s) ->
    exists n c, completions s !! n = Some c /\ will_fold c;
  pk_sane : 0 <= completed (progress s) /\ 0 <= evicted_through (progress s);
}.

(** *** Steps that keep what is settled *)

Definition kept (s s' : ProgressState) : Prop :=
  (forall n c, completions s !! n = Some c -> exists c', completions s' !! n = Some c' /\
     c_delivered c' = c_delivered c /\ (c_stage c <> Starting -> c_stage c' <> Starting)) /\
  (forall n, recorded (progress s) n -> recorded (progress s') n).

Lemma settles_kept s s' n : kept s s' -> settles s n -> settles s' n.
Proof.
  intros [Hc Hr] (c & Hl & Hs & Hd). destruct (Hc n c Hl) as (c' & Hl' & Hd' & Hs').
  exists c'. split_and!; [done|auto|]. rewrite Hd'. auto.
Qed.

Lemma kept_insert s p n c c' :
  completions s !! n = Some c -> c_delivered c' = c_delivered c -> c_stage c' <> Starting ->
  (forall m, recorded (progress s) m -> recorded p m) ->
  kept s (mkProgressState p (<[n := c']> (completions s))).
Proof.
  intros Hl Hd Hs Hr. split; [|done]. intros m cm Hm. simpl.
  destruct (decide (m = n)) as [->|]; simplify_map_eq; eauto.
Qed.

Lemma recorded_failure p n m : recorded p m -> recorded (record_failure n p) m.
Proof.
  unfold recorded, record_failure. case_bool_decide; simpl; [|set_solver].
  destruct (serials p) as [|x l]; simpl; [set_solver|].
  intros [[->|]%elem_of_cons|]; [right; lia|set_solver|right; lia].
Qed.

Lemma recorded_own p n : recorded (record_failure n p) n.
Proof. unfold recorded, record_failure. repeat case_match; simplify_eq/=; set_solver. Qed.

Lemma serials_failure p n m : m ∈ serials (record_failure n p) -> m ∈ serials p \/ m = n.
Proof.
  unfold record_failure. case_bool_decide; simpl; [|set_solver].
  destruct (serials p); simpl; set_solver.
Qed.

Lemma evicted_failure p n : evicted_through p <= evicted_through (record_failure n p).
Proof. unfold record_failure. repeat case_match; simplify_eq/=; lia. Qed.

(** [record_failure] touches nothing else. *)
Lemma record_failure_frame p n :
  let p' := record_failure n p in
  accepted p' = accepted p /\ completed p' = completed p /\ locked_by p' = locked_by p /\
  settled p' = settled p /\ completion_gaps p' = completion_gaps p.
Proof. unfold record_failure. by repeat case_match; simplify_eq/=. Qed.

(** ** The loop that advances the frontier *)

Lemma advance_frontier_spec fuel c s f rest :
  (size s <= fuel)%nat -> advance_frontier fuel c s = (f, rest) ->
  c <= f /\ (f + 1 ∉ rest) /\ forall n, n ∈ rest <-> n ∈ s /\ ~ (c < n <= f).
Proof.
  revert c s. induction fuel as [|fuel IH]; intros c s Hs; simpl.
  - intros [= <- <-]. assert (s = ∅) as -> by (apply leibniz_equiv, size_empty_iff; lia).
    split_and!; [lia|set_solver|set_solver by lia].
  - case_bool_decide as Hc; [|intros [= <- <-]; split_and!; [lia|done|set_solver by lia]].
    intros E. apply IH in E as (H1 & H2 & H3).
    + split_and!; [lia|done|]. intros n. rewrite H3. rewrite elem_of_difference, elem_of_singleton.
      split; [intros [[Hn Hne] Hi]; split; [done|lia]|intros [Hn Hi]; split; [split; [done|]|]; lia].
    + rewrite size_difference by set_solver. rewrite size_singleton. lia.
Qed.

Lemma fold_settled_spec c s f rest :
  fold_settled c s = (f, rest) ->
  c <= f /\ (f + 1 ∉ rest) /\ (forall n, n ∈ rest <-> n ∈ s /\ ~ (c < n <= f)) /\
  (forall n, c < n <= f -> n ∈ s).
Proof.
  intros E. pose proof E as E'. unfold fold_settled in E.
  apply advance_frontier_spec in E as (H1 & H2 & H3); [|done].
  split_and!; [done..|]. revert E'. unfold fold_settled. generalize (size s) as fuel.
  clear. intros fuel. revert c s. induction fuel as [|fuel IH]; intros c s; simpl.
  - intros [= <- <-]. lia.
  - case_bool_decide as Hc; [|intros [= <- <-]; lia]. intros E n Hn.
    destruct (decide (n = c + 1)) as [->|]; [done|].
    assert (n ∈ s ∖ {[c + 1]}) by (eapply IH; [done|lia]). set_solver.
Qed.

Lemma folded_other s p n c' :
  locked_by p = locked_by (progress s) -> locked_by (progress s) <> Some n ->
  folded (mkProgressState p (<[n := c']> (completions s))) = folded s.
Proof.
  intros El Hn. unfold folded. simpl. rewrite El. destruct (locked_by (progress s)) as [h|]; [|done].
  simpl. by rewrite lookup_insert_ne by congruence.
Qed.

Lemma frontier_other s p n c' :
  locked_by p = locked_by (progress s) -> locked_by (progress s) <> Some n ->
  completed p = completed (progress s) ->
  frontier (mkProgressState p (<[n := c']> (completions s))) = frontier s.
Proof. intros El Hn Ec. unfold frontier. rewrite folded_other by done. simpl. by rewrite Ec. Qed.

Lemma frontier_bound s : completed (progress s) <= frontier s.
Proof. unfold frontier. destruct (folded s); lia. Qed.

Lemma frontier_own s n c :
  locked_by (progress s) = Some n -> completions s !! n = Some c ->
  frontier s = match c_stage c with
               | Folded f => Z.max (completed (progress s)) f
               | _ => completed (progress s)
               end.
Proof. intros El Hl. unfold frontier, folded. rewrite El. simpl. rewrite Hl. simpl. by destruct (c_stage c). Qed.

Ltac other n :=
  let m := fresh "m" in let cm := fresh "cm" in let Hm := fresh "Hm" in
  intros m cm Hm; destruct (decide (m = n)) as [->|]; simplify_map_eq/=.

Section Access.
Context (sc : bool) (s : ProgressState) (n : Z) (c : Completion).
Hypothesis ok : progress_ok sc s.
Hypothesis here : completions s !! n = Some c.

Lemma not_holding : holds_lock c = false -> locked_by (progress s) <> Some n.
Proof using ok here. intros Hh E. apply (pk_lock _ s ok n c here) in E. congruence. Qed.

Lemma pk_access_exchange :
  c_stage c = Starting -> c_delivered c = true -> completed (progress s) = n - 1 ->
  progress_ok sc (mkProgressState (set_completed n (progress s))
                 (<[n := at_stage Exchanged c]> (completions s))).
Proof using ok here.
  intros Es Ed Ec. assert (Hh : holds_lock c = false) by (unfold holds_lock; by rewrite Es).
  pose proof (not_holding Hh) as Hn.
  set (s' := mkProgressState _ _).
  assert (K : kept s s') by (apply (kept_insert s _ n c); done).
  assert (Hf : frontier s' = Z.max n (frontier s)).
  { unfold frontier, s'. rewrite folded_other by done. simpl. destruct (folded s); lia. }
  destruct ok as [A1 A2 A3 A4 A5 A6 A7 A8 A9 A10 A11 [A12 A13]].
  split; simpl; try done.
  - other n; eauto.
  - other n; [|eauto]. unfold holds_lock. simpl. naive_solver.
  - intros m Hm. destruct (A3 m Hm) as [[cm Hcm] Hg]. split; [|done].
    rewrite lookup_insert_ne by congruence. eauto.
  - intros m Hm. rewrite Hf in Hm. destruct (decide (m = n)) as [->|].
    + exists (at_stage Exchanged c). unfold s'. simplify_map_eq/=. split_and!; [done..|congruence].
    + apply (settles_kept s); [done|]. apply A4. pose proof (frontier_bound s). lia.
  - intros m Hm. destruct (A5 m Hm). split; [done|]. by apply (settles_kept s).
  - intros m Hm. destruct (A7 m Hm) as (cm & Hcm & Hd). destruct (decide (m = n)) as [->|];
      [|exists cm; by simplify_map_eq]. simplify_map_eq. congruence.
  - other n; [congruence|]. intros Hd. specialize (A8 _ _ Hm Hd). by destruct (c_stage cm).
  - other n; [split; [done|lia]|]. intros Hs. destruct (A9 _ _ Hm Hs). split; [done|lia].
  - rewrite Hf. other n; [done|]. specialize (A10 _ _ Hm). destruct (c_stage cm); naive_solver lia.
  - intros _ _. exists n, (at_stage Exchanged c). by simplify_map_eq.
  - lia.
Qed.

(** A step to a stage that waits changes nothing else. *)
Lemma pk_access_wait :
  c_stage c = Starting \/ c_stage c = Exchanged ->
  progress_ok sc (mkProgressState (progress s) (<[n := at_stage WaitingForLock c]> (completions s))).
Proof using ok here.
  intros Es. assert (Hh : holds_lock c = false) by (unfold holds_lock; by destruct Es as [-> | ->]).
  pose proof (not_holding Hh) as Hn.
  assert (K : kept s (mkProgressState (progress s) (<[n := at_stage WaitingForLock c]> (completions s))))
    by (apply (kept_insert s _ n c); done).
  destruct ok as [A1 A2 A3 A4 A5 A6 A7 A8 A9 A10 A11 [A12 A13]].
  split; rewrite ?frontier_other by done; simpl; try done.
  - other n; eauto.
  - other n; [|eauto]. unfold holds_lock. simpl. naive_solver.
  - intros m Hm. destruct (A3 m Hm) as [[cm Hcm] Hg]. split; [|done].
    rewrite lookup_insert_ne by congruence. eauto.
  - intros m Hm. by apply (settles_kept s), A4.
  - intros m Hm. destruct (A5 m Hm). split; [done|]. by apply (settles_kept s).
  - intros m Hm. destruct (A7 m Hm) as (cm & Hcm & Hd). destruct (decide (m = n)) as [->|].
    + exists (at_stage WaitingForLock c). simplify_map_eq. done.
    + exists cm. by simplify_map_eq.
  - other n; [done|by apply A8].
  - other n; [done|by apply A9].
  - other n; [done|by apply A10].
  - intros _ _. exists n, (at_stage WaitingForLock c). by simplify_map_eq.
Qed.

Lemma pk_access_done :
  c_stage c = Exchanged -> (sc = true -> completion_gaps (progress s) = false) ->
  progress_ok sc (mkProgressState (progress s) (<[n := at_stage Completed c]> (completions s))).
Proof using ok here.
  intros Es Eg. assert (Hh : holds_lock c = false) by (unfold holds_lock; by rewrite Es).
  pose proof (not_holding Hh) as Hn.
  assert (K : kept s (mkProgressState (progress s) (<[n := at_stage Completed c]> (completions s))))
    by (apply (kept_insert s _ n c); done).
  destruct ok as [A1 A2 A3 A4 A5 A6 A7 A8 A9 A10 A11 [A12 A13]].
  destruct (A9 n c here Es) as [Ed Hc].
  split; rewrite ?frontier_other by done; simpl; try done.
  - other n; eauto.
  - other n; [|eauto]. unfold holds_lock. simpl. naive_solver.
  - intros m Hm. destruct (A3 m Hm) as [[cm Hcm] Hg]. split; [|done].
    rewrite lookup_insert_ne by congruence. eauto.
  - intros m Hm. by apply (settles_kept s), A4.
  - intros m Hm. destruct (A5 m Hm). split; [done|]. by apply (settles_kept s).
  - intros m Hm. destruct (A7 m Hm) as (cm & Hcm & Hd). destruct (decide (m = n)) as [->|];
      [simplify_map_eq; congruence|]. exists cm. by simplify_map_eq.
  - other n; [congruence|by apply A8].
  - other n; [done|by apply A9].
  - other n; [left; pose proof (frontier_bound s); lia|by apply A10].
  - intros Hsc Hf. specialize (Eg Hsc).
    destruct (decide (settled (progress s) = ∅)) as [E|E]; [set_solver|]. apply A6 in E. congruence.
Qed.

Lemma pk_access_lock :
  c_stage c = WaitingForLock -> locked_by (progress s) = None ->
  progress_ok sc (mkProgressState
    (set_gaps true (set_lock (Some n)
       (if c_delivered c then progress s else record_failure n (progress s))))
    (<[n := at_stage Marked c]> (completions s))).
Proof using ok here.
  intros Es El. set (p := if c_delivered c then _ else _). set (s' := mkProgressState _ _).
  assert (F : accepted p = accepted (progress s) /\ completed p = completed (progress s) /\
    settled p = settled (progress s) /\ evicted_through (progress s) <= evicted_through p).
  { unfold p. destruct (c_delivered c); [done|].
    pose proof (record_failure_frame (progress s) n) as (-> & -> & _ & -> & _).
    pose proof (evicted_failure (progress s) n). auto. }
  destruct F as (F1 & F2 & F3 & F4).
  assert (Hr : forall m, recorded (progress s) m -> recorded p m)
    by (unfold p; destruct (c_delivered c); auto using recorded_failure).
  assert (K : kept s s') by (apply (kept_insert s _ n c); auto).
  assert (Hf : frontier s' = frontier s).
  { unfold s'. rewrite (frontier_own _ n (at_stage Marked c)); [|done|simpl; by simplify_map_eq].
    unfold frontier, folded. rewrite El. simpl. by rewrite F2. }
  destruct ok as [A1 A2 A3 A4 A5 A6 A7 A8 A9 A10 A11 [A12 A13]].
  split; rewrite ?Hf; simpl; rewrite ?F1, ?F2, ?F3; try done.
  - other n; eauto.
  - other n; [done|]. rewrite (A2 _ _ Hm), El. split; congruence.
  - intros m [= <-]. simplify_map_eq. eauto.
  - intros m Hm. by apply (settles_kept s), A4.
  - intros m Hm. destruct (A5 m Hm). split; [done|]. by apply (settles_kept s).
  - intros m Hm. destruct (decide (m = n)) as [->|].
    + exists (at_stage Marked c). simplify_map_eq. split; [done|]. unfold p in Hm.
      destruct (c_delivered c) eqn:Ed; [|done]. destruct (A7 n Hm) as (cn & Hcn & Hd). congruence.
    + destruct (A7 m) as (cm & Hcm & Hd); [|exists cm; by simplify_map_eq].
      unfold p in Hm. destruct (c_delivered c); [done|]. by apply serials_failure in Hm as [|].
  - other n.
    + intros Ed. unfold p. rewrite Ed. apply recorded_own.
    + intros Hd. specialize (A8 _ _ Hm Hd). destruct (c_stage cm); try done; by apply Hr in A8.
  - other n; [done|by apply A9].
  - other n; [done|by apply A10].
  - intros _ _. exists n, (at_stage Marked c). by simplify_map_eq.
  - lia.
Qed.

Lemma pk_access_fold k f rest :
  c_stage c = Marked -> k <= completed (progress s) -> (sc = true -> k = completed (progress s)) ->
  fold_settled k (if k <? n then {[n]} ∪ settled (progress s) else settled (progress s)) = (f, rest) ->
  progress_ok sc (mkProgressState (set_settled rest (progress s))
                 (<[n := at_stage (Folded f) c]> (completions s))).
Proof using ok here.
  intros Es Hk Hsc Ef. set (s' := mkProgressState _ _).
  set (inserted := if _ <? _ then _ else _) in Ef.
  apply fold_settled_spec in Ef as (E1 & E2 & E3 & E4).
  destruct (ok) as [A1 A2 A3 A4 A5 A6 A7 A8 A9 A10 A11 [A12 A13]].
  assert (Hh : holds_lock c = true) by (unfold holds_lock; by rewrite Es).
  apply (A2 _ _ here) in Hh as El.
  assert (K : kept s s') by (apply (kept_insert s _ n c); done).
  assert (Hf : frontier s' = Z.max (completed (progress s)) f).
  { unfold s'. rewrite (frontier_own _ n (at_stage (Folded f) c)); [done|done|simpl; by simplify_map_eq]. }
  assert (Hf0 : frontier s = completed (progress s)).
  { rewrite (frontier_own _ n c) by done. by rewrite Es. }
  assert (Hown : settles s' n).
  { exists (at_stage (Folded f) c). unfold s'. simplify_map_eq/=. split_and!; [done..|].
    intros Ed. specialize (A8 _ _ here Ed). by rewrite Es in A8. }
  assert (Hin : forall m, m ∈ inserted -> 1 <= m /\ settles s' m).
  { intros m Hm. assert (m = n \/ m ∈ settled (progress s)) as [->|Hm']
      by (unfold inserted in Hm; case_match; set_solver).
    - split; [|done]. by destruct (A1 _ _ here).
    - destruct (A5 m Hm'). split; [done|]. by apply (settles_kept s). }
  split; rewrite ?Hf; simpl; try done.
  - other n; eauto.
  - other n; [|eauto]. done.
  - intros m Hm. destruct (A3 m Hm) as [_ Hg]. split; [|done].
    assert (m = n) as -> by congruence. simplify_map_eq. eauto.
  - intros m Hm. destruct (decide (m <= completed (progress s))).
    + apply (settles_kept s); [done|]. apply A4. lia.
    + apply Hin, E4. lia.
  - intros m Hm. by apply Hin, E3.
  - intros _. by apply (A3 n).
  - intros m Hm. destruct (A7 m Hm) as (cm & Hcm & Hd). destruct (decide (m = n)) as [->|].
    + exists (at_stage (Folded f) c). by simplify_map_eq.
    + exists cm. by simplify_map_eq.
  - other n; [|by apply A8]. intros Hd. specialize (A8 _ _ here Hd). by rewrite Es in A8.
  - other n; [done|by apply A9].
  - assert (Hcase : forall m, m <= completed (progress s) \/ m ∈ inserted ->
      m <= completed (progress s) `max` f \/ m ∈ rest).
    { intros m [Hm|Hm]; [left; lia|]. destruct (decide (m <= f)); [left; lia|]. right.
      apply E3. split; [done|lia]. }
    other n.
    + apply Hcase. unfold inserted. destruct (Z.ltb_spec k n); [right; set_solver|left; lia].
    + specialize (A10 _ _ Hm). rewrite Hf0 in A10. destruct (c_stage cm); try done;
        apply Hcase; (destruct A10 as [|A10]; [by left|right; unfold inserted; case_match; set_solver]).
  - intros Esc. rewrite (Hsc Esc) in E1. rewrite Z.max_r by lia. done.
Qed.

Lemma pk_access_publish f :
  c_stage c = Folded f ->
  progress_ok sc (mkProgressState (set_completed (Z.max (completed (progress s)) f) (progress s))
                 (<[n := at_stage Published c]> (completions s))).
Proof using ok here.
  intros Es. set (s' := mkProgressState _ _).
  destruct (ok) as [A1 A2 A3 A4 A5 A6 A7 A8 A9 A10 A11 [A12 A13]].
  assert (Hh : holds_lock c = true) by (unfold holds_lock; by rewrite Es).
  apply (A2 _ _ here) in Hh as El.
  assert (K : kept s s') by (apply (kept_insert s _ n c); done).
  assert (Hf : frontier s' = frontier s).
  { unfold s'. rewrite (frontier_own _ n (at_stage Published c)), (frontier_own _ n c);
      [by rewrite Es|done..|simpl; by simplify_map_eq]. }
  split; rewrite ?Hf; simpl; try done.
  - other n; eauto.
  - other n; [|eauto]. done.
  - intros m Hm. destruct (A3 m Hm) as [_ Hg]. split; [|done].
    assert (m = n) as -> by congruence. simplify_map_eq. eauto.
  - intros m Hm. by apply (settles_kept s), A4.
  - intros m Hm. destruct (A5 m Hm). split; [done|]. by apply (settles_kept s).
  - intros m Hm. destruct (A7 m Hm) as (cm & Hcm & Hd). destruct (decide (m = n)) as [->|].
    + exists (at_stage Published c). by simplify_map_eq.
    + exists cm. by simplify_map_eq.
  - other n; [|by apply A8]. intros Hd. specialize (A8 _ _ here Hd). by rewrite Es in A8.
  - other n; [done|]. intros Hs. destruct (A9 _ _ Hm Hs). split; [done|lia].
  - other n; [|by apply A10]. specialize (A10 _ _ here). by rewrite Es in A10.
  - intros Esc H. destruct (A11 Esc H) as (m & cm & Hm & Hw). exists m, cm. split; [|done].
    rewrite lookup_insert_ne; [done|]. intros ->. assert (cm = c) as -> by congruence.
    unfold will_fold in Hw. by rewrite Es in Hw.
  - lia.
Qed.

Lemma pk_access_unlock :
  c_stage c = Published ->
  progress_ok sc (mkProgressState
    (set_lock None (set_gaps (negb (bool_decide (settled (progress s) = ∅))) (progress s)))
    (<[n := at_stage Completed c]> (completions s))).
Proof using ok here.
  intros Es. set (s' := mkProgressState _ _).
  destruct (ok) as [A1 A2 A3 A4 A5 A6 A7 A8 A9 A10 A11 [A12 A13]].
  assert (Hh : holds_lock c = true) by (unfold holds_lock; by rewrite Es).
  apply (A2 _ _ here) in Hh as El.
  assert (K : kept s s') by (apply (kept_insert s _ n c); done).
  assert (Hf : frontier s' = frontier s).
  { rewrite (frontier_own s n c) by done. by rewrite Es. }
  split; rewrite ?Hf; simpl; try done.
  - other n; eauto.
  - other n; [done|]. rewrite (A2 _ _ Hm), El. split; congruence.
  - intros m Hm. by apply (settles_kept s), A4.
  - intros m Hm. destruct (A5 m Hm). split; [done|]. by apply (settles_kept s).
  - intros Hn. by rewrite bool_decide_eq_false_2.
  - intros m Hm. destruct (A7 m Hm) as (cm & Hcm & Hd). destruct (decide (m = n)) as [->|].
    + exists (at_stage Completed c). by simplify_map_eq.
    + exists cm. by simplify_map_eq.
  - other n; [|by apply A8]. intros Hd. specialize (A8 _ _ here Hd). by rewrite Es in A8.
  - other n; [done|by apply A9].
  - other n; [|by apply A10]. specialize (A10 _ _ here). by rewrite Es in A10.
  - intros Esc H. destruct (A11 Esc H) as (m & cm & Hm & Hw). exists m, cm. split; [|done].
    rewrite lookup_insert_ne; [done|]. intros ->. assert (cm = c) as -> by congruence.
    unfold will_fold in Hw. by rewrite Es in Hw.
Qed.

Lemma pk_access l : may_load sc (progress s) l -> progress_ok sc (run_access l n c s).
Proof using ok here.
  intros [Hle Hsc]. unfold run_access, completion_step.
  destruct (c_stage c) eqn:Es.
  - destruct (_ && _) eqn:E.
    + rewrite !andb_true_iff, !Z.eqb_eq in E. destruct E as [[? ?] _]. by apply pk_access_exchange.
    + apply pk_access_wait. by left.
  - destruct (seen_gaps l) eqn:Eg.
    + apply pk_access_wait. by right.
    + apply pk_access_done; [done|]. intros Esc. by rewrite (Hsc Esc) in Eg.
  - destruct (locked_by (progress s)) as [h|] eqn:El; [|by apply pk_access_lock].
    rewrite insert_id by done. by destruct s.
  - cbv zeta. destruct (fold_settled _ _) as [f rest] eqn:Ef. eapply pk_access_fold; [done|done| |done].
    intros Esc. by rewrite (Hsc Esc).
  - by apply pk_access_publish.
  - by apply pk_access_unlock.
  - rewrite insert_id by done. by destruct s.
Qed.
End Access.

Lemma pk_accept sc s :
  progress_ok sc s -> progress_ok sc (mkProgressState (accept (progress s)).2 (completions s)).
Proof.
  intros [A1 A2 A3 A4 A5 A6 A7 A8 A9 A10 A11 A12]. split; try done.
  intros n c Hn. destruct (A1 n c Hn). simpl. lia.
Qed.

Lemma pk_drop sc s n d :
  progress_ok sc s -> 1 <= n <= accepted (progress s) -> completions s !! n = None ->
  progress_ok sc (mkProgressState (progress s) (<[n := mkCompletion d Starting]> (completions s))).
Proof.
  intros [A1 A2 A3 A4 A5 A6 A7 A8 A9 A10 A11 A12] Hr Hn.
  assert (El : locked_by (progress s) <> Some n).
  { intros E. destruct (A3 n E) as [[c Hc] _]. congruence. }
  assert (K : forall m, settles s m -> settles (mkProgressState (progress s)
    (<[n := mkCompletion d Starting]> (completions s))) m).
  { intros m (c & Hc & H). exists c. simpl. rewrite lookup_insert_ne by congruence. done. }
  split; rewrite ?frontier_other by done; simpl; try done.
  - other n; eauto.
  - other n; [unfold holds_lock; simpl; split; congruence|eauto].
  - intros m Hm. destruct (A3 m Hm). rewrite lookup_insert_ne by congruence. done.
  - intros m Hm. by apply K, A4.
  - intros m Hm. destruct (A5 m Hm). split; [done|]. by apply K.
  - intros m Hm. destruct (A7 m Hm) as (c & Hc & H). exists c.
    rewrite lookup_insert_ne by congruence. done.
  - other n; [done|by apply A8].
  - other n; [done|by apply A9].
  - other n; [done|by apply A10].
  - intros Esc H. destruct (A11 Esc H) as (m & c & Hm & Hw). exists m, c.
    rewrite lookup_insert_ne by congruence. done.
Qed.

Lemma pk_reachable sc s : progress_reachable sc s -> progress_ok sc s.
Proof.
  unfold progress_reachable. apply rtc_ind_r.
  - split; simpl; try done; try set_solver.
    intros n. unfold frontier. simpl. lia.
  - intros x y _ Hs Hx. destruct Hs; auto using pk_accept, pk_drop, pk_access.
Qed.

Lemma kept_refl s : kept s s.
Proof. split; eauto. Qed.

Lemma kept_trans s1 s2 s3 : kept s1 s2 -> kept s2 s3 -> kept s1 s3.
Proof.
  intros [H1 R1] [H2 R2]. split; [|auto]. intros n c Hc.
  destruct (H1 n c Hc) as (c2 & Hc2 & Hd2 & Hs2). destruct (H2 n c2 Hc2) as (c3 & Hc3 & Hd3 & Hs3).
  exists c3. split_and!; [done|congruence|auto].
Qed.

Lemma kept_access l s n c : completions s !! n = Some c -> kept s (run_access l n c s).
Proof.
  intros Hl. unfold run_access, completion_step.
  assert (Hsame : kept s (mkProgressState (progress s) (<[n := c]> (completions s)))).
  { rewrite insert_id by done. destruct s. apply kept_refl. }
  destruct (c_stage c) eqn:Es; try done.
  - destruct (_ && _); by apply (kept_insert s _ n c).
  - apply (kept_insert s _ n c); [done..| |done]. simpl. by destruct (seen_gaps l).
  - destruct (locked_by (progress s)); [done|]. apply (kept_insert s _ n c); [done..|].
    intros m Hm. destruct (c_delivered c); [done|]. by apply (recorded_failure _ n).
  - cbv zeta. destruct (fold_settled _ _). by apply (kept_insert s _ n c).
  - by apply (kept_insert s _ n c).
  - by apply (kept_insert s _ n c).
Qed.

Lemma kept_step sc s s' : progress_step sc s s' -> kept s s'.
Proof.
  intros [|n d Hr Hn|l n c Hc _]; [|split; [|done]|by apply kept_access].
  - split; simpl; eauto.
  - intros m c Hc. exists c. simpl. rewrite lookup_insert_ne by congruence. done.
Qed.

Lemma kept_steps sc s s' : rtc (progress_step sc) s s' -> kept s s'.
Proof. induction 1; [apply kept_refl|]. eapply kept_trans; [by eapply kept_step|done]. Qed.

(** *** The reference: a scan of the history *)

Definition outcome (s : ProgressState) (n : Z) : option bool := c_delivered <$> completions s !! n.

Definition drained_reference (start checkpoint : Z) (s : ProgressState) : Result string bool :=
  if existsb (fun n => bool_decide (outcome s n = Some false))
       (seqZ (start + 1) (checkpoint - start))
  then Err "output packet failed in checkpoint interval"
  else Ok (forallb (fun n => bool_decide (is_Some (outcome s n))) (seqZ 1 checkpoint)).

Definition quiescent (s : ProgressState) : Prop :=
  forall n c, completions s !! n = Some c -> c_stage c = Completed.

Lemma quiescent_frontier sc s :
  progress_ok sc s -> quiescent s -> frontier s = completed (progress s).
Proof.
  intros Hok Hq.
  assert (El : locked_by (progress s) = None).
  { destruct (locked_by (progress s)) as [h|] eqn:E; [|done].
    destruct (pk_locked _ s Hok h E) as [[c Hc] _]. apply (pk_lock _ s Hok h c Hc) in E.
    unfold holds_lock in E. by rewrite (Hq h c Hc) in E. }
  unfold frontier, folded. by rewrite El.
Qed.

Lemma failed_exactly sc s start cp n :
  progress_ok sc s -> quiescent s -> evicted_through (progress s) <= start < n ->
  (n ∈ serials (progress s) /\ start < n <= cp <-> outcome s n = Some false /\ start < n <= cp).
Proof.
  intros Hok Hq Hn. unfold outcome. split; intros [H Hr]; (split; [|done]).
  - destruct (pk_failed _ s Hok n H) as (c & Hc & Hd). rewrite Hc. simpl. by rewrite Hd.
  - apply fmap_Some in H as (c & Hc & Hd). pose proof (pk_recorded _ s Hok n c Hc (eq_sym Hd)) as H.
    rewrite (Hq n c Hc) in H. destruct H as [|]; [done|lia].
Qed.

(** The failures of the interval are exactly those of the history. *)
Lemma failures_quiescent sc s start cp :
  progress_ok sc s -> quiescent s -> evicted_through (progress s) <= start ->
  bool_decide (is_Some (find (fun n => (start <? n) && (n <=? cp)) (serials (progress s)))) =
  existsb (fun n => bool_decide (outcome s n = Some false)) (seqZ (start + 1) (cp - start)).
Proof.
  intros Hok Hq He. apply eq_true_iff_eq. rewrite bool_decide_eq_true, existsb_exists. split.
  - intros [m [Hm%list_elem_of_In Hr]%find_some]. apply andb_prop in Hr as [?%Z.ltb_lt ?%Z.leb_le].
    exists m. rewrite <- list_elem_of_In, elem_of_seqZ. split; [lia|]. apply bool_decide_eq_true.
    apply (failed_exactly sc s start cp m); [done..|lia|]. split; [done|lia].
  - intros (n & Hn%list_elem_of_In & Hb%bool_decide_eq_true). apply elem_of_seqZ in Hn.
    destruct (find _ _) as [|] eqn:Em; [done|exfalso].
    assert (Hin : n ∈ serials (progress s)).
    { apply (failed_exactly sc s start cp n); [done..|lia|]. split; [done|lia]. }
    apply list_elem_of_In in Hin. pose proof (find_none _ _ Em n Hin) as Hf. simpl in Hf.
    apply andb_false_iff in Hf as [Hf%Z.ltb_ge|Hf%Z.leb_gt]; lia.
Qed.

(** The frontier never runs ahead of the history; unless a load was stale, it has caught up. *)
Lemma frontier_quiescent sc s cp :
  progress_ok sc s -> quiescent s -> 0 <= cp ->
  let whole := forallb (fun n => bool_decide (is_Some (outcome s n))) (seqZ 1 cp) in
  (cp <= completed (progress s) -> whole = true) /\
  (sc = true -> whole = true -> cp <= completed (progress s)).
Proof.
  intros Hok Hq H0 whole. pose proof (quiescent_frontier sc s Hok Hq) as Ef. split.
  - intros Hc. apply forallb_forall. intros n Hr%list_elem_of_In. apply elem_of_seqZ in Hr.
    apply bool_decide_eq_true. destruct (pk_counted _ s Hok n) as (c & Hl & _); [lia|].
    unfold outcome. rewrite Hl. eauto.
  - intros Esc Hall. apply Z.nlt_ge. intros Hlt. unfold whole in Hall. rewrite forallb_forall in Hall.
    assert (Hc : is_Some (outcome s (completed (progress s) + 1))).
    { eapply bool_decide_eq_true, Hall, list_elem_of_In, elem_of_seqZ. pose proof (pk_sane _ s Hok). lia. }
    destruct Hc as [b Hb]. apply fmap_Some in Hb as (c & Hc & _).
    pose proof (pk_finished _ s Hok _ c Hc) as Hf. rewrite (Hq _ c Hc) in Hf.
    destruct Hf as [|Hin]; [lia|]. rewrite <- Ef in Hin.
    destruct (pk_frontier _ s Hok Esc Hin) as (m & d & Hd & Hw). unfold will_fold in Hw.
    by rewrite (Hq m d Hd) in Hw.
Qed.

Lemma drained_quiescent sc s start cp :
  progress_ok sc s -> quiescent s -> 0 <= start <= cp -> cp <= accepted (progress s) ->
  evicted_through (progress s) <= start ->
  let answer := drained_between start cp (progress s) in
  let reference := drained_reference start cp s in
  (answer = reference \/ answer = Ok false /\ reference = Ok true) /\ (sc = true -> answer = reference).
Proof.
  intros Hok Hq Hs Ha He. destruct (frontier_quiescent sc s cp Hok Hq) as [H1 H2]; [lia|].
  unfold drained_between, drained_answer, drained_reference.
  rewrite <- (failures_quiescent sc s start cp Hok Hq He).
  destruct (Z.ltb_spec cp start); [lia|]. destruct (Z.ltb_spec (accepted (progress s)) cp); [lia|].
  destruct (Z.ltb_spec start (evicted_through (progress s))); [lia|]. simpl.
  destruct (find _ _) as [m|]; [rewrite bool_decide_eq_true_2 by done; auto|].
  rewrite bool_decide_eq_false_2 by (by intros []).
  destruct (Z.leb_spec cp (completed (progress s))) as [Hle|Hlt]; [rewrite (H1 Hle); auto|].
  destruct (forallb _ _); [|auto]. split; [by right|]. intros Esc. specialize (H2 Esc eq_refl). lia.
Qed.

(** C34. The drain check against the history of outcomes: whichever threads drop packets, however
    their accesses interleave and however stale their loads are, a check that says yes means
    that every packet of the interval was delivered, also when the frontier was read earlier.
    Once no thread is inside [complete], the check of a valid interval whose failures have
    not been evicted says what a scan of the whole history says, except that it may say
    not yet where the scan says yes; and if every load returns the value stored last, it says
    exactly what the scan says. *)
Theorem drained_equivalence sc s s' start cp :
  progress_reachable sc s -> rtc (progress_step sc) s s' -> 0 <= start ->
  (drained_answer (completed (progress s)) start cp (progress s') = Ok true ->
   forall n, start < n <= cp -> outcome s' n = Some true) /\
  (quiescent s' -> start <= cp <= accepted (progress s') -> evicted_through (progress s') <= start ->
   let answer := drained_between start cp (progress s') in
   let reference := drained_reference start cp s' in
   (answer = reference \/ answer = Ok false /\ reference = Ok true) /\
   (sc = true -> answer = reference)).
Proof.
  intros Hr Hs H0.
  assert (Hr' : progress_reachable sc s') by (unfold progress_reachable in *; by etrans).
  pose proof (pk_reachable sc s Hr) as Hok. pose proof (pk_reachable sc s' Hr') as Hok'. split.
  - unfold drained_answer. intros E n Hn.
    case_match; [done|]. destruct (Z.ltb_spec start (evicted_through (progress s'))); [done|].
    destruct (find _ _) eqn:Ef; [done|]. injection E as E%Z.leb_le.
    destruct (settles_kept s s' n (kept_steps sc s s' Hs)) as (c & Hc & Hst & Hd).
    { apply (pk_counted _ s Hok). pose proof (frontier_bound s). lia. }
    unfold outcome. rewrite Hc. simpl. destruct (c_delivered c); [done|].
    destruct (Hd eq_refl) as [Hin|]; [|lia]. apply list_elem_of_In in Hin.
    pose proof (find_none _ _ Ef n Hin) as Hb. simpl in Hb.
    apply andb_false_iff in Hb as [Hb%Z.ltb_ge|Hb%Z.leb_gt]; lia.
  - intros Hq [Hc1 Hc2] He. apply (drained_quiescent sc); [done..| |done|done]. lia.
Qed.

(** *** Termination *)

Definition remaining (c : Completion) : nat :=
  match c_stage c with
  | Starting => 6 | Exchanged => 5 | WaitingForLock => 4 | Marked => 3 | Folded _ => 2
  | Published => 1 | Completed => 0
  end.

(** An access of a thread that is not waiting for the lock. *)
Definition access_step (sc : bool) (s s' : ProgressState) : Prop :=
  exists l n c, completions s !! n = Some c /\ may_load sc (progress s) l /\
    s' = run_access l n c s /\ c_stage c <> Completed /\
    (c_stage c = WaitingForLock -> locked_by (progress s) = None).

Definition add_remaining (_ : Z) (c : Completion) (a : nat) : nat := (remaining c + a)%nat.

Definition work_left (s : ProgressState) : nat := map_fold add_remaining 0%nat (completions s).

Lemma work_left_insert s p n c c' :
  completions s !! n = Some c ->
  (work_left (mkProgressState p (<[n := c']> (completions s))) + remaining c
   = work_left s + remaining c')%nat.
Proof.
  intros Hl. unfold work_left. simpl.
  assert (Hi : forall d, map_fold add_remaining 0%nat (<[n := d]> (delete n (completions s)))
    = (remaining d + map_fold add_remaining 0%nat (delete n (completions s)))%nat).
  { intros d. rewrite (map_fold_insert_L add_remaining 0%nat); [done| |apply lookup_delete_eq].
    unfold add_remaining. intros. lia. }
  rewrite <- (insert_delete_eq _ n c'), Hi.
  rewrite <- (insert_delete_id (completions s) n c) at 2 by done. rewrite Hi. lia.
Qed.

Lemma access_decreases sc s s' : access_step sc s s' -> (work_left s' < work_left s)%nat.
Proof.
  intros (l & n & c & Hl & _ & -> & Hn & Hw). unfold run_access.
  destruct (completion_step l n c (progress s)) as [c' p'] eqn:E.
  assert (Hr : (remaining c' < remaining c)%nat).
  { revert E. unfold completion_step, remaining. destruct (c_stage c) eqn:Es; try done.
    - destruct (_ && _); intros [= <- _]; simpl; lia.
    - intros [= <- _]. simpl. destruct (seen_gaps l); lia.
    - rewrite Hw by done. intros [= <- _]. simpl. lia.
    - cbv zeta. destruct (fold_settled _ _). intros [= <- _]. simpl. lia.
    - intros [= <- _]. simpl. lia.
    - intros [= <- _]. simpl. lia. }
  pose proof (work_left_insert s p' n c c' Hl). lia.
Qed.

(** C36. Completion ends: whatever the loads return, without further drops every run of accesses is finite, and as long
    as a thread is inside [complete] some thread can go on, so the lock is never held for
    ever and every run can be extended to one after which no thread is inside. *)
Theorem completion_terminates sc s :
  progress_reachable sc s ->
  (forall k s', nsteps (access_step sc) k s s' -> (k <= work_left s)%nat) /\
  (forall s', rtc (access_step sc) s s' -> (forall s'', ~ access_step sc s' s'') -> quiescent s') /\
  (~ quiescent s -> exists s', access_step sc s s').
Proof.
  intros Hr.
  assert (Hgo : forall s', progress_reachable sc s' -> ~ quiescent s' -> exists s'', access_step sc s' s'').
  { intros s' Hs' Hn. apply map_not_Forall in Hn as (n & c & Hc & Hst); [|solve_decision].
    destruct (locked_by (progress s')) as [h|] eqn:El.
    - pose proof (pk_reachable sc s' Hs') as Hok. destruct (pk_locked _ s' Hok h El) as [[ch Hh] _].
      apply (pk_lock _ s' Hok h ch Hh) in El. unfold holds_lock in El.
      exists (run_access (latest (progress s')) h ch s'), (latest (progress s')), h, ch.
      split_and!; [done|apply may_load_latest|done| |]; intros E; by rewrite E in El.
    - exists (run_access (latest (progress s')) n c s'), (latest (progress s')), n, c.
      split_and!; [done|apply may_load_latest|done..]. }
  split_and!.
  - intros k s' Hk. clear Hr. induction Hk as [|k x y z Hxy _ IH]; [lia|].
    apply access_decreases in Hxy. lia.
  - intros s' Hs' Hstuck. assert (Hr' : progress_reachable sc s').
    { induction Hs' as [|x y z Hxy _ IH]; [done|]. apply IH; [|done].
      eapply rtc_r; [done|]. destruct Hxy as (l & n & c & Hc & Hl & -> & _). by constructor. }
    destruct (decide (map_Forall (fun _ c => c_stage c = Completed) (completions s'))) as [|Hn];
      [done|]. destruct (Hgo s' Hr' Hn) as [s'' Hs'']. by destruct (Hstuck s'').
  - by apply Hgo.
Qed.
