(* ===== verification/PortManager.v ===== *)
(** * The packet port manager

    [packet_port_manager.rs] of candy-packet-port, the actor behind candy-tunio: one TUN
    device whose traffic belongs to one owner at a time, handed over by two-phase owner
    transactions; with the output queues of [packet_port.rs] that it writes through. Every
    branch of its [select] is an [Event], one arm after another in any order. The counters
    and the output status it publishes are diagnostics and are left out. *)
From stdpp Require Import base tactics list numbers option gmap strings.
From Stdlib Require Import ZArith Lia.
From S2P Require Import Prelude PacketPort.

#[local] Open Scope Z_scope.

(** ** The host

    [A] is the type of the authorization checks that the actor is given ([AuthorizationCheck],
    a closure that reads clocks). Clock readings advance the world, so two readings of one
    handler may differ. *)

Inductive Target : Type :=
| ToTun
| ToPort (port : UnixPacketPort).

#[export] Instance Target_eq_dec : EqDecision Target.
Proof. solve_decision. Defined.

Class PacketHost (W A : Type) := {
  instant_now : W -> Z * W;
  (** A [sleep_until] of this instant is polled: has it ended? Timers are late, and a task that
      has used up its budget is told no. *)
  timer_elapsed : Z -> W -> bool * W;
  authorized : A -> W -> bool * W;
  (** One nonblocking write; [Ok false] if the descriptor is not writable. *)
  port_write : Target -> list Z -> W -> Result IoError bool * W;
  has_pending_input : UnixPacketPort -> W -> Result IoError bool * W;
}.

(** ** Owner transactions *)

Record OwnerTransaction : Type := mkTransaction {
  transaction_id : list Z;
  revision : Z;
  expected_active_epoch : option Z;
  tx_binding : PacketPortBinding;
  tx_auth_deadline : Z;
  prepare_deadline : Z;
}.

#[export] Instance OwnerTransaction_eq_dec : EqDecision OwnerTransaction.
Proof. solve_decision. Defined.

Inductive OwnerTransactionPhase : Type := Prepared | Committed | Aborted | Expired.

#[export] Instance OwnerTransactionPhase_eq_dec : EqDecision OwnerTransactionPhase.
Proof. solve_decision. Defined.

Record OwnerTransactionReceipt : Type := mkReceipt {
  r_transaction : OwnerTransaction;
  r_phase : OwnerTransactionPhase;
}.

#[export] Instance OwnerTransactionReceipt_eq_dec : EqDecision OwnerTransactionReceipt.
Proof. solve_decision. Defined.

Record PacketPortReceipt : Type := mkPortReceipt {
  pr_binding : option PacketPortBinding;
  pr_auth_deadline : option Z;
  pr_owner_epoch : Z;
  pr_policy_generation : Z;
  pr_pending : option OwnerTransactionReceipt;
  pr_last_transaction : option OwnerTransactionReceipt;
  pr_highest_transaction_revision : Z;
  pr_retained_owner_binding : option PacketPortBinding;
  pr_old_owner_drained : bool;
  pr_forced_retirement : bool;
}.

(** ** Output queues *)

Definition OUTPUT_PACKET_LIMIT : Z := 256.
Definition OUTPUT_BYTE_LIMIT : Z := 512 * 1024.
(** Instants are nanoseconds. *)
Definition OUTPUT_WRITE_TIMEOUT : Z := 100 * 1000000.

Record QueuedPacket : Type := mkQueued {
  q_epoch : Z;
  q_packet : list Z;
  q_credit : Z;
  q_deadline : Z;
  q_failure : option IoError;
  q_serial : Z;
}.

(** Where the oldest packet stands in [DeadlinePort::send_packet]: not there; about to enter its
    loop; or pending in its [select], which sleeps until [deadline], since the loop read the
    clock at [entered], and whether the watched deadline was set again in the meantime. *)
Inductive Attempt : Type :=
| NotSending
| Entering
| Pending (deadline entered : Z) (changed : bool).

(** [queue] holds the packets not yet dropped, the oldest first: in the channel, in the
    writer's batch, in flight. Their credits are those of the two semaphores. [sending] is the
    attempt on the oldest; [task_result] is that of the writer's task. [taken] is no state of
    the program: every packet that got a serial, the k-th one under serial k. *)
Record PacketOutput : Type := mkOutput {
  queue : list QueuedPacket;
  sending : Attempt;
  out_epoch : Z;
  aborted : bool;
  task_result : option (option IoError);
  output_progress : OutputProgress;
  max_packet_size : Z;
  taken : list (list Z);
}.

Definition new_output (max_packet_size : Z) : PacketOutput :=
  mkOutput [] NotSending 1 false None new_progress (Z.min max_packet_size 65535) [].

Definition with_progress (p : OutputProgress) (o : PacketOutput) : PacketOutput :=
  mkOutput (queue o) (sending o) (out_epoch o) (aborted o) (task_result o) p (max_packet_size o)
    (taken o).
Definition with_packets (q : list QueuedPacket) (s : Attempt) (o : PacketOutput) : PacketOutput :=
  mkOutput q s (out_epoch o) (aborted o) (task_result o) (output_progress o) (max_packet_size o)
    (taken o).
Definition with_attempt (s : Attempt) (o : PacketOutput) : PacketOutput := with_packets (queue o) s o.
Definition with_result (r : option IoError) (o : PacketOutput) : PacketOutput :=
  mkOutput (queue o) (sending o) (out_epoch o) (aborted o) (Some r) (output_progress o)
    (max_packet_size o) (taken o).

(** [accept], of this packet. *)
Definition accept_packet (packet : list Z) (o : PacketOutput) : Z * PacketOutput :=
  let '(serial, p) := accept (output_progress o) in
  (serial, mkOutput (queue o) (sending o) (out_epoch o) (aborted o) (task_result o) p
             (max_packet_size o) (taken o ++ [packet])).

(** The watched deadline was set: a pending [select] will see it. *)
Definition deadline_set (o : PacketOutput) : PacketOutput :=
  match sending o with
  | Pending d t _ => with_attempt (Pending d t true) o
  | _ => o
  end.

(** [cancel]; [pending_packets]. *)
Definition cancel (o : PacketOutput) : PacketOutput :=
  mkOutput (queue o) (sending o) (out_epoch o) true (task_result o) (output_progress o)
    (max_packet_size o) (taken o).
Definition pending_packets (o : PacketOutput) : Z := Z.of_nat (length (queue o)).

(** The oldest packet is dropped. *)
Definition settle_first (delivered : bool) (o : PacketOutput) : PacketOutput :=
  match queue o with
  | [] => o
  | packet :: rest =>
      with_packets rest NotSending
        (with_progress (complete (q_serial packet) delivered (output_progress o)) o)
  end.

(** The task ends: its batch and its channel are dropped. *)
Definition end_task (result : option IoError) (o : PacketOutput) : PacketOutput :=
  with_result result (Nat.iter (length (queue o)) (settle_first false) o).

Section Manager.
Context {W A : Type} `{!PacketHost W A}.

(** A packet that reached a descriptor: where to, on behalf of which owner, and what the gate had
    found: [sent_at] is the reading of the clock that let the attempt begin. *)
Record Sent : Type := mkSent {
  sent_target : Target;
  sent_owner : PacketPortBinding;
  sent_packet : list Z;
  sent_at : Z;
  sent_deadline : Z;
  sent_authorization : option A;
}.

(** The world, with the trace of what was sent. *)
Record Env : Type := mkEnv {
  world : W;
  wire : list Sent;
}.

(** [Owner]. A fence is true while it is active; [deadline] is the watched deadline. *)
Record Owner : Type := mkOwner {
  port : UnixPacketPort;
  auth_deadline : Z;
  transaction_cap : option Z;
  deadline : Z;
  authorization : option A;
  fence : bool;
  inbound_fence : bool;
  to_worker : PacketOutput;
  to_tun : PacketOutput;
}.

Definition TUN_MAX_PACKET : Z := 65535.

Definition Owner_new (port : UnixPacketPort) (auth_deadline : Z) (cap : option Z)
    (authorization : option A) : Owner :=
  mkOwner port auth_deadline cap auth_deadline authorization true true
    (new_output MAX_PACKET_BYTES) (new_output TUN_MAX_PACKET).

Definition set_deadline (d : Z) (o : Owner) : Owner :=
  mkOwner (port o) d (transaction_cap o) d (authorization o) (fence o) (inbound_fence o)
    (deadline_set (to_worker o)) (deadline_set (to_tun o)).
Definition set_outputs (worker tun : PacketOutput) (o : Owner) : Owner :=
  mkOwner (port o) (auth_deadline o) (transaction_cap o) (deadline o) (authorization o) (fence o)
    (inbound_fence o) worker tun.

(** [fence.retire()] and [to_worker.cancel()] of a predecessor. *)
Definition fence_outbound (o : Owner) : Owner :=
  mkOwner (port o) (auth_deadline o) (transaction_cap o) (deadline o) (authorization o) false
    (inbound_fence o) (cancel (to_worker o)) (to_tun o).

(** [Owner::retire]. *)
Definition retire_owner (o : Owner) : Owner :=
  mkOwner (port o) (auth_deadline o) (transaction_cap o) (deadline o) (authorization o) false
    false (cancel (to_worker o)) (cancel (to_tun o)).

Definition binding_of (o : Owner) : PacketPortBinding := port_binding (port o).

(** *** The gate of an owner: [DeadlinePort] *)

Inductive Direction : Type := Outbound | Inbound.

#[export] Instance Direction_eq_dec : EqDecision Direction.
Proof. solve_decision. Defined.

Definition direction_fence (d : Direction) (o : Owner) : bool :=
  match d with Outbound => fence o | Inbound => inbound_fence o end.
Definition direction_target (d : Direction) (o : Owner) : Target :=
  match d with Outbound => ToPort (port o) | Inbound => ToTun end.
Definition direction_output (d : Direction) (o : Owner) : PacketOutput :=
  match d with Outbound => to_worker o | Inbound => to_tun o end.
Definition set_direction (d : Direction) (output : PacketOutput) (o : Owner) : Owner :=
  match d with
  | Outbound => set_outputs output (to_tun o) o
  | Inbound => set_outputs (to_worker o) output o
  end.

Definition clock (e : Env) : Z * Env :=
  let '(now, w) := instant_now (world e) in (now, mkEnv w (wire e)).

Definition check (authorization : option A) (e : Env) : bool * Env :=
  match authorization with
  | None => (true, e)
  | Some a => let '(ok, w) := authorized a (world e) in (ok, mkEnv w (wire e))
  end.

Definition write (d : Direction) (o : Owner) (now : Z) (packet : list Z) (e : Env)
  : Result IoError bool * Env :=
  let '(result, w) := port_write (direction_target d o) packet (world e) in
  (result,
   mkEnv w (match result with
            | Ok true => wire e ++ [mkSent (direction_target d o) (binding_of o) packet now
                                      (deadline o) (authorization o)]
            | _ => wire e
            end)).

(** [DeadlinePort::try_send_packet]. *)
Definition try_send (d : Direction) (o : Owner) (packet : list Z) (e : Env)
  : Result IoError bool * Env :=
  if negb (direction_fence d o) then (Err AuthorizationFailure, e)
  else
    let '(ok, e) := check (authorization o) e in
    if negb ok then (Err AuthorizationFailure, e)
    else
      let '(now, e) := clock e in
      if deadline o <=? now then (Ok false, e) else write d o now packet e.

Definition timer (instant : Z) (e : Env) : bool * Env :=
  let '(fired, w) := timer_elapsed instant (world e) in (fired, mkEnv w (wire e)).

(** The [select] of [DeadlinePort::send_packet] is polled: the retirement, the sleep until the
    deadline that the loop saw, and, unless that deadline was set again, one poll of the send
    under the fence. *)
Definition poll_select (captured entered : Z) (d : Direction) (o : Owner) (packet : list Z) (e : Env)
  : Result IoError bool * Env :=
  if negb (direction_fence d o) then (Err AuthorizationFailure, e)
  else
    let '(fired, e) := timer captured e in
    if fired then (Err AuthorizationFailure, e)
    else
      let '(ok, e) := check (authorization o) e in
      if negb ok then (Err AuthorizationFailure, e) else write d o entered packet e.

(** The head of its loop reads the clock once. *)
Definition enter_send (d : Direction) (o : Owner) (packet : list Z) (e : Env)
  : Result IoError bool * Attempt * Env :=
  let '(now, e) := clock e in
  if deadline o <=? now then (Err AuthorizationFailure, Entering, e)
  else
    let '(result, e) := poll_select (deadline o) now d o packet e in
    (result, Pending (deadline o) now false, e).

(** One poll of [DeadlinePort::send_packet]; [Ok false] while it is pending, and then where. *)
Definition poll_send (d : Direction) (o : Owner) (packet : list Z) (e : Env)
  : Result IoError bool * Attempt * Env :=
  match sending (direction_output d o) with
  | Pending captured entered false =>
      let '(result, e) := poll_select captured entered d o packet e in
      (result, Pending captured entered false, e)
  | Pending captured entered true =>
      if negb (direction_fence d o) then (Err AuthorizationFailure, Entering, e)
      else
        let '(fired, e) := timer captured e in
        if fired then (Err AuthorizationFailure, Entering, e) else enter_send d o packet e
  | _ => enter_send d o packet e
  end.

(** [PacketOutput::enqueue]; [capacity] is that of the packet's allocation. *)
Definition used_bytes (o : PacketOutput) : Z := foldr Z.add 0 (map q_credit (queue o)).

Definition push_packet (packet : list Z) (capacity : Z) (failure : option IoError) (now : Z)
    (o : PacketOutput) : Result string unit * PacketOutput :=
  let credit := Z.max capacity (Z.of_nat (length packet)) in
  if OUTPUT_PACKET_LIMIT <=? pending_packets o then (Err "tun_output_queue_full"%string, o)
  else if (2 ^ 32 <=? credit) || (OUTPUT_BYTE_LIMIT <? used_bytes o + credit)
  then (Err "tun_output_queue_full"%string, o)
  else
    let '(serial, o) := accept_packet packet o in
    match task_result o with
    | Some _ => (Err "tun_output_closed"%string,
                 with_progress (complete serial false (output_progress o)) o)
    | None =>
        (Ok tt, with_packets (queue o ++ [mkQueued (out_epoch o) packet credit
                                            (now + OUTPUT_WRITE_TIMEOUT) failure serial])
                  (sending o) o)
    end.

Definition settle_new (packet : list Z) (delivered : bool) (o : PacketOutput) : PacketOutput :=
  let '(serial, o) := accept_packet packet o in
  with_progress (complete serial delivered (output_progress o)) o.

Definition enqueue (d : Direction) (packet : list Z) (capacity : Z) (own : Owner) (e : Env)
  : Owner * Env :=
  let o := direction_output d own in
  if bool_decide (packet = []) || (max_packet_size o <? Z.of_nat (length packet)) then (own, e)
  else
    let queue_it failure e :=
      let '(now, e) := clock e in
      (set_direction d (push_packet packet capacity failure now o).2 own, e) in
    if bool_decide (queue o = []) then
      let '(result, e) := try_send d own packet e in
      match result with
      | Ok true => (set_direction d (settle_new packet true o) own, e)
      | Ok false => queue_it None e
      | Err PacketScoped => (set_direction d (settle_new packet false o) own, e)
      | Err error => queue_it (Some error) e
      end
    else queue_it None e.

(** What the writer does with the result of a write. *)
Definition written (result : Result IoError unit) (o : PacketOutput) : PacketOutput :=
  match result with
  | Ok _ => settle_first true o
  | Err PacketScoped => settle_first false o
  | Err error => end_task (Some error) o
  end.

(** One turn of the writer's task: the first attempt on the oldest packet, or one poll of
    the attempt that is pending. *)
Definition writer_turn (d : Direction) (own : Owner) (e : Env) : Owner * Env :=
  let o := direction_output d own in
  match task_result o, queue o with
  | None, packet :: _ =>
      match sending o with
      | Entering | Pending _ _ _ =>
        if negb (q_epoch packet =? out_epoch o) then (set_direction d (settle_first false o) own, e)
        else
          let '(late, e) := timer (q_deadline packet) e in
          if late then (set_direction d (settle_first false o) own, e)
          else
            let '(result, attempt, e) := poll_send d own (q_packet packet) e in
            (match result with
             | Ok false => set_direction d (with_attempt attempt o) own
             | Ok true => set_direction d (written (Ok tt) o) own
             | Err error => set_direction d (written (Err error) o) own
             end, e)
      | NotSending =>
        match q_failure packet with
        | Some error => (set_direction d (end_task (Some error) o) own, e)
        | None =>
            if negb (q_epoch packet =? out_epoch o)
            then (set_direction d (settle_first false o) own, e)
            else
              let '(now, e) := clock e in
              if q_deadline packet <=? now then (set_direction d (settle_first false o) own, e)
              else
                let '(result, e) := try_send d own (q_packet packet) e in
                (match result with
                 | Ok false => set_direction d (with_attempt Entering o) own
                 | Ok true => set_direction d (written (Ok tt) o) own
                 | Err error => set_direction d (written (Err error) o) own
                 end, e)
        end
      end
  | _, _ => (own, e)
  end.

(** The abort of a cancelled task takes effect. *)
Definition writer_aborts (d : Direction) (own : Owner) : Owner :=
  let o := direction_output d own in
  match task_result o with
  | None => if aborted o then set_direction d (end_task None o) own else own
  | Some _ => own
  end.
End Manager.

Arguments Sent : clear implicits.
Arguments Env : clear implicits.
Arguments Owner : clear implicits.

(** ** The actor *)

Section Bridge.
Context {W A : Type} `{!PacketHost W A}.

Record PendingOwner : Type := mkPending {
  p_transaction : OwnerTransaction;
  p_owner : Owner A;
  p_authorization : A;
}.

(** The variables of [run_packet_port_bridge_inner]. [stopped] is its result. *)
Record Bridge : Type := mkBridge {
  infrastructure : PacketPortBinding;
  owner : option (Owner A);
  retained : option (Owner A);
  old_owner_drained : bool;
  forced_retirement : bool;
  pending : option PendingOwner;
  last_transaction : option OwnerTransactionReceipt;
  highest_transaction_revision : Z;
  highest_owner_epoch : Z;
  highest_policy_generation : Z;
  retired : list (Owner A);
  stopped : option (Result IoError unit);
  env : Env W A;
}.

Definition new_bridge (infra : PacketPortBinding) (w : W) : Bridge :=
  mkBridge infra None None true false None None 0 0 0 [] None (mkEnv w []).

Definition set_owner (o : option (Owner A)) (b : Bridge) : Bridge :=
  mkBridge (infrastructure b) o (retained b) (old_owner_drained b) (forced_retirement b)
    (pending b) (last_transaction b) (highest_transaction_revision b) (highest_owner_epoch b)
    (highest_policy_generation b) (retired b) (stopped b) (env b).
Definition set_retained (o : option (Owner A)) (drained forced : bool) (b : Bridge) : Bridge :=
  mkBridge (infrastructure b) (owner b) o drained forced
    (pending b) (last_transaction b) (highest_transaction_revision b) (highest_owner_epoch b)
    (highest_policy_generation b) (retired b) (stopped b) (env b).
Definition set_pending (p : option PendingOwner) (b : Bridge) : Bridge :=
  mkBridge (infrastructure b) (owner b) (retained b) (old_owner_drained b) (forced_retirement b)
    p (last_transaction b) (highest_transaction_revision b) (highest_owner_epoch b)
    (highest_policy_generation b) (retired b) (stopped b) (env b).
Definition set_last (l : OwnerTransactionReceipt) (b : Bridge) : Bridge :=
  mkBridge (infrastructure b) (owner b) (retained b) (old_owner_drained b) (forced_retirement b)
    (pending b) (Some l) (highest_transaction_revision b) (highest_owner_epoch b)
    (highest_policy_generation b) (retired b) (stopped b) (env b).
Definition set_revision (r : Z) (b : Bridge) : Bridge :=
  mkBridge (infrastructure b) (owner b) (retained b) (old_owner_drained b) (forced_retirement b)
    (pending b) (last_transaction b) r (highest_owner_epoch b)
    (highest_policy_generation b) (retired b) (stopped b) (env b).
Definition set_highest (epoch policy : Z) (b : Bridge) : Bridge :=
  mkBridge (infrastructure b) (owner b) (retained b) (old_owner_drained b) (forced_retirement b)
    (pending b) (last_transaction b) (highest_transaction_revision b) epoch
    policy (retired b) (stopped b) (env b).
Definition set_retired (l : list (Owner A)) (b : Bridge) : Bridge :=
  mkBridge (infrastructure b) (owner b) (retained b) (old_owner_drained b) (forced_retirement b)
    (pending b) (last_transaction b) (highest_transaction_revision b) (highest_owner_epoch b)
    (highest_policy_generation b) l (stopped b) (env b).
Definition set_stopped (r : Result IoError unit) (b : Bridge) : Bridge :=
  mkBridge (infrastructure b) (owner b) (retained b) (old_owner_drained b) (forced_retirement b)
    (pending b) (last_transaction b) (highest_transaction_revision b) (highest_owner_epoch b)
    (highest_policy_generation b) (retired b) (Some r) (env b).
Definition set_env (e : Env W A) (b : Bridge) : Bridge :=
  mkBridge (infrastructure b) (owner b) (retained b) (old_owner_drained b) (forced_retirement b)
    (pending b) (last_transaction b) (highest_transaction_revision b) (highest_owner_epoch b)
    (highest_policy_generation b) (retired b) (stopped b) e.

Definition BridgeM (T : Type) : Type := M Bridge string T.

Definition refuse {T} (code : string) : BridgeM T := mfail code.
Definition guard_that (b : bool) (code : string) : BridgeM unit :=
  if b then mret tt else refuse code.

Definition now : BridgeM Z :=
  fun b => let '(t, e) := clock (env b) in (Ok t, set_env e b).
Definition check_authorization (a : option A) : BridgeM bool :=
  fun b => let '(ok, e) := check a (env b) in (Ok ok, set_env e b).
Definition pending_input (p : UnixPacketPort) : BridgeM bool :=
  fun b => let '(r, w) := has_pending_input p (world (env b)) in
           (match r with Ok v => Ok v | Err _ => Err "owner_drain_probe_failed"%string end,
            set_env (mkEnv w (wire (env b))) b).

(** [retire(previous, &mut retired)], and [revoke(&mut owner, ..).await]: the fences fall
    before the actor waits, so nothing of the owner is left to observe afterwards. *)
Definition retire (o : Owner A) (b : Bridge) : Bridge :=
  set_retired (retired b ++ [retire_owner o]) b.
Definition revoke (b : Bridge) : Bridge := set_owner None b.

Definition is_last (tx : OwnerTransaction) (phase : OwnerTransactionPhase) (b : Bridge) : bool :=
  match last_transaction b with
  | Some last => bool_decide (r_transaction last = tx) && bool_decide (r_phase last = phase)
  | None => false
  end.
Definition is_pending (tx : OwnerTransaction) (b : Bridge) : bool :=
  match pending b with Some c => bool_decide (p_transaction c = tx) | None => false end.
(** Another transaction under the same identity. *)
Definition identity_conflict (tx : OwnerTransaction) (b : Bridge) : bool :=
  let conflicts (other : OwnerTransaction) :=
    bool_decide (transaction_id other = transaction_id tx) && negb (bool_decide (other = tx)) in
  match pending b with Some c => conflicts (p_transaction c) | None => false end
  || match last_transaction b with Some last => conflicts (r_transaction last) | None => false end.

(** [matches_infrastructure], and the same test in [Attach]. *)
Definition matches_infrastructure (p : UnixPacketPort) (infra : PacketPortBinding) : bool :=
  let binding := port_binding p in
  bool_decide (port_role p = Infrastructure)
  && bool_decide (infrastructure_id binding = infrastructure_id infra)
  && (infrastructure_generation binding =? infrastructure_generation infra)
  && (io_epoch binding =? io_epoch infra)
  && bool_decide (routing_domain_id binding = routing_domain_id infra).

Definition active_epoch (b : Bridge) : option Z := owner_epoch ∘ binding_of <$> owner b.

Definition RETIRED_LIMIT : nat := 8.
Definition cleanup_busy (b : Bridge) : bool := bool_decide (RETIRED_LIMIT <= length (retired b))%nat.

(** 30 s. *)
Definition PREPARE_CAP : Z := 30 * 1000000000.

(** *** The requests of the controller *)

Inductive PacketPortOwnerChange : Type :=
| PrepareOwner (tx : OwnerTransaction) (p : UnixPacketPort) (a : A)
| CommitOwner (tx : OwnerTransaction)
| FinishOwnerDrain (tx : OwnerTransaction)
| RetireOwnerAfterFailure (tx : OwnerTransaction)
| AbortOwner (tx : OwnerTransaction)
| ProbeTransaction (id : list Z) (rev : Z)
| Attach (p : UnixPacketPort) (d : Z)
| AttachAuthorized (p : UnixPacketPort) (d : Z) (a : A)
| Renew (epoch policy d : Z)
| Revoke (epoch : Z)
| Probe.

Definition stale_epoch (binding : PacketPortBinding) (b : Bridge) : bool :=
  (owner_epoch binding <=? highest_owner_epoch b)
  || (policy_generation binding <? highest_policy_generation b).

Definition prepare_new (tx : OwnerTransaction) (p : UnixPacketPort) (a : A) (t : Z)
  : BridgeM unit :=
  let* b := gets id in
  do* guard_that (negb (bool_decide (transaction_id tx = replicate 16 0) || (revision tx =? 0)))
        "owner_prepare_invalid_identity" in
  do* guard_that (highest_transaction_revision b <? revision tx) "owner_prepare_stale_revision" in
  do* guard_that (negb (cleanup_busy b)) "owner_prepare_cleanup_busy" in
  do* guard_that (negb (bool_decide (is_Some (pending b)))) "owner_prepare_capacity" in
  do* guard_that (negb (bool_decide (is_Some (retained b)))) "owner_prepare_drain_pending" in
  do* guard_that (bool_decide (active_epoch b = expected_active_epoch tx))
        "owner_prepare_active_changed" in
  do* guard_that (negb (stale_epoch (tx_binding tx) b)) "owner_prepare_stale_epoch" in
  do* guard_that (negb ((prepare_deadline tx <=? t) || (tx_auth_deadline tx <=? t)
                        || (tx_auth_deadline tx <? prepare_deadline tx)
                        || (PREPARE_CAP <? prepare_deadline tx - t)))
        "owner_prepare_invalid_deadline" in
  let* ok := check_authorization (Some a) in
  do* guard_that ok "owner_prepare_unauthorized" in
  do* modify (set_revision (revision tx)) in
  let staged := Owner_new p (prepare_deadline tx) (Some (tx_auth_deadline tx)) (Some a) in
  modify (set_pending (Some (mkPending tx staged a))).

Definition prepare_owner (tx : OwnerTransaction) (p : UnixPacketPort) (a : A) : BridgeM unit :=
  let* t := now in
  let* b := gets id in
  do* guard_that (negb (negb (matches_infrastructure p (infrastructure b))
                        || negb (bool_decide (port_binding p = tx_binding tx))
                        || identity_conflict tx b))
        "owner_prepare_identity_mismatch" in
  if is_pending tx b || is_last tx Committed b then mret tt else prepare_new tx p a t.

(** The swap: the fence of the predecessor, then the prepared owner. *)
Definition install (c : PendingOwner) (tx : OwnerTransaction) (b : Bridge) : Bridge :=
  let b := set_pending None b in
  let b := match owner b with
           | Some previous => set_retained (Some (fence_outbound previous)) false false b
           | None => set_retained (retained b) true false b
           end in
  let b := set_highest (owner_epoch (tx_binding tx)) (policy_generation (tx_binding tx)) b in
  let b := set_owner (Some (set_deadline (tx_auth_deadline tx) (p_owner c))) b in
  set_last (mkReceipt tx Committed) b.

Definition commit_owner (tx : OwnerTransaction) : BridgeM unit :=
  let* b := gets id in
  if is_last tx Committed b then mret tt
  else
    do* guard_that (is_pending tx b) "owner_commit_not_prepared" in
    do* guard_that (negb (cleanup_busy b)) "owner_commit_cleanup_busy" in
    do* guard_that (bool_decide (active_epoch b = expected_active_epoch tx)
                    && negb (stale_epoch (tx_binding tx) b)) "owner_commit_active_changed" in
    let* t := now in
    let* t' := if tx_auth_deadline tx <=? t then mret t else now in
    do* guard_that (negb ((tx_auth_deadline tx <=? t) || (prepare_deadline tx <=? t')))
          "owner_commit_expired" in
    match pending b with
    | None => refuse "owner_commit_not_prepared"
    | Some c =>
        let* ok := check_authorization (Some (p_authorization c)) in
        do* guard_that ok "owner_commit_unauthorized" in
        do* guard_that (match owner b with
                        | Some previous => pending_packets (to_worker previous) =? 0
                        | None => true
                        end) "owner_commit_queue_pending" in
        modify (install c tx)
    end.

Definition finish_owner_drain (tx : OwnerTransaction) : BridgeM unit :=
  let* b := gets id in
  do* guard_that (is_last tx Committed b) "owner_drain_not_committed" in
  do* guard_that (negb (forced_retirement b)) "owner_drain_forced_retirement" in
  match retained b with
  | Some previous =>
      let* input := pending_input (port previous) in
      let p := output_progress (to_tun previous) in
      let* drained := lift (map_err (fun _ => "owner_drain_probe_failed"%string)
                              (drained_through (checkpoint p) p)) in
      do* guard_that (negb input && drained) "owner_drain_queue_pending" in
      modify (fun b => set_retained None true (forced_retirement b) (retire previous b))
  | None => modify (fun b => set_retained None true (forced_retirement b) b)
  end.

Definition retire_owner_after_failure (tx : OwnerTransaction) : BridgeM unit :=
  let* b := gets id in
  do* guard_that (is_last tx Committed b
                  && match owner b with
                     | Some o => bool_decide (binding_of o = tx_binding tx)
                     | None => false
                     end) "owner_failure_retirement_not_committed" in
  let* t := now in
  do* guard_that (negb (t <? prepare_deadline tx)) "owner_failure_retirement_unexpired" in
  do* guard_that (negb (old_owner_drained b && bool_decide (retained b = None)
                        && negb (forced_retirement b)))
        "owner_failure_retirement_already_drained" in
  modify (fun b => set_retained None false true
                     (match retained b with Some previous => retire previous b | None => b end)).

(** The candidate is given up. *)
Definition drop_candidate (phase : OwnerTransactionPhase) (b : Bridge) : Bridge :=
  match pending b with
  | Some c =>
      set_last (mkReceipt (p_transaction c) phase) (retire (p_owner c) (set_pending None b))
  | None => b
  end.

Definition abort_owner (tx : OwnerTransaction) : BridgeM unit :=
  let* b := gets id in
  if is_pending tx b then modify (drop_candidate Aborted)
  else if is_last tx Aborted b || is_last tx Expired b then mret tt
  else if is_last tx Committed b then refuse "owner_transaction_committed"
  else refuse "owner_abort_not_prepared".

Definition probe_transaction (id : list Z) (rev : Z) : BridgeM unit :=
  let* b := gets Datatypes.id in
  let named (tx : OwnerTransaction) :=
    bool_decide (transaction_id tx = id) && (revision tx =? rev) in
  guard_that (match pending b with Some c => named (p_transaction c) | None => false end
              || match last_transaction b with Some l => named (r_transaction l) | None => false end)
    "owner_transaction_unknown".

Definition attach_owner (p : UnixPacketPort) (d : Z) (a : option A) : BridgeM unit :=
  let* b := gets id in
  let binding := port_binding p in
  do* guard_that (matches_infrastructure p (infrastructure b)) "infrastructure_mismatch" in
  do* guard_that (negb (cleanup_busy b)) "owner_attach_cleanup_busy" in
  do* guard_that (negb (bool_decide (is_Some (retained b)))) "owner_attach_drain_pending" in
  let* ok := check_authorization a in
  do* guard_that ok "attach_stale" in
  let* t := now in
  do* guard_that (negb ((d <=? t) || stale_epoch binding b)) "attach_stale" in
  modify (fun b =>
    let b := match owner b with Some previous => retire previous b | None => b end in
    set_owner (Some (Owner_new p d None a))
      (set_highest (owner_epoch binding) (policy_generation binding) b)).

Definition renew_owner (epoch policy d : Z) : BridgeM unit :=
  let* b := gets id in
  match owner b with
  | Some o =>
      do* guard_that ((epoch =? highest_owner_epoch b) && (policy =? highest_policy_generation b)
                      && (auth_deadline o <? d)
                      && match transaction_cap o with Some cap => d <=? cap | None => true end)
            "renew_refused" in
      modify (set_owner (Some (set_deadline d o)))
  | None => refuse "renew_refused"
  end.

Definition force_retained (b : Bridge) : Bridge :=
  match retained b with
  | Some previous => set_retained None false true (retire previous b)
  | None => b
  end.

Definition revoke_owner (epoch : Z) : BridgeM unit :=
  let* b := gets id in
  do* guard_that (epoch =? highest_owner_epoch b) "revoke_stale_epoch" in
  do* modify revoke in
  modify force_retained.

Definition apply_change (change : PacketPortOwnerChange) : BridgeM unit :=
  match change with
  | PrepareOwner tx p a => prepare_owner tx p a
  | CommitOwner tx => commit_owner tx
  | FinishOwnerDrain tx => finish_owner_drain tx
  | RetireOwnerAfterFailure tx => retire_owner_after_failure tx
  | AbortOwner tx => abort_owner tx
  | ProbeTransaction id rev => probe_transaction id rev
  | Attach p d => attach_owner p d None
  | AttachAuthorized p d a => attach_owner p d (Some a)
  | Renew epoch policy d => renew_owner epoch policy d
  | Revoke epoch => revoke_owner epoch
  | Probe => mret tt
  end.

(** [receipt]. *)
Definition receipt (b : Bridge) : PacketPortReceipt :=
  mkPortReceipt (binding_of <$> owner b) (auth_deadline <$> owner b) (highest_owner_epoch b)
    (highest_policy_generation b)
    ((fun c => mkReceipt (p_transaction c) Prepared) <$> pending b)
    (last_transaction b) (highest_transaction_revision b) (binding_of <$> retained b)
    (old_owner_drained b) (forced_retirement b).

(** *** The other arms *)

(** Where an owner is kept. *)
Inductive Place : Type := AtOwner | AtRetained | AtCandidate | AtRetired (i : nat).

Definition owner_at (x : Place) (b : Bridge) : option (Owner A) :=
  match x with
  | AtOwner => owner b
  | AtRetained => retained b
  | AtCandidate => p_owner <$> pending b
  | AtRetired i => retired b !! i
  end.

Definition put_owner (x : Place) (o : Owner A) (b : Bridge) : Bridge :=
  match x with
  | AtOwner => set_owner (Some o) b
  | AtRetained => set_retained (Some o) (old_owner_drained b) (forced_retirement b) b
  | AtCandidate =>
      match pending b with
      | Some c => set_pending (Some (mkPending (p_transaction c) o (p_authorization c))) b
      | None => b
      end
  | AtRetired i => set_retired (<[i := o]> (retired b)) b
  end.

(** A task of an owner takes a turn. *)
Definition writer_event (x : Place) (d : Direction) (b : Bridge) : Bridge :=
  match owner_at x b with
  | Some o => let '(o, e) := writer_turn d o (env b) in put_owner x o (set_env e b)
  | None => b
  end.
Definition abort_event (x : Place) (d : Direction) (b : Bridge) : Bridge :=
  match owner_at x b with Some o => put_owner x (writer_aborts d o) b | None => b end.

(** A packet of the TUN device or of a port. *)
Definition packet_event (x : Place) (d : Direction) (packet : list Z) (capacity : Z) (b : Bridge)
  : Bridge :=
  match owner_at x b with
  | Some o => let '(o, e) := enqueue d packet capacity o (env b) in put_owner x o (set_env e b)
  | None => b
  end.

(** The end of the loop. *)
Definition stop_bridge (result : Result IoError unit) (b : Bridge) : Bridge :=
  set_stopped result (set_retired [] (set_retained None (old_owner_drained b)
    (forced_retirement b) (set_pending None (revoke b)))).

(** The error with which the task of a direction has ended. *)
Definition task_failure (d : Direction) (o : Owner A) : option IoError :=
  match task_result (direction_output d o) with
  | Some (Some error) => Some error
  | Some None => Some Broken
  | None => None
  end.

Definition owner_failed (d : Direction) (b : Bridge) : Bridge :=
  match owner b ≫= task_failure d with
  | Some error =>
      match d, error with
      | Inbound, PacketScoped | Inbound, Broken => stop_bridge (Err error) b
      | _, _ => revoke b
      end
  | None => b
  end.
Definition candidate_failed (b : Bridge) : Bridge :=
  match (p_owner <$> pending b) ≫= task_failure Inbound with
  | Some AuthorizationFailure => drop_candidate Aborted b
  | Some error => stop_bridge (Err error) b
  | None => b
  end.
Definition retained_failed (b : Bridge) : Bridge :=
  match retained b ≫= task_failure Inbound with
  | Some AuthorizationFailure => force_retained b
  | Some error => stop_bridge (Err error) b
  | None => b
  end.

(** [owner_expiry(deadline)] fires: the sleep has ended. *)
Definition expired (o : option Z) (b : Bridge) : bool * Bridge :=
  match o with
  | Some d => let '(fired, e) := timer d (env b) in (fired, set_env e b)
  | None => (false, b)
  end.
Definition owner_expires (b : Bridge) : Bridge :=
  let '(fired, b) := expired (auth_deadline <$> owner b) b in if fired then revoke b else b.
Definition retained_expires (b : Bridge) : Bridge :=
  let '(fired, b) := expired (auth_deadline <$> retained b) b in
  if fired then force_retained b else b.
Definition candidate_expires (b : Bridge) : Bridge :=
  let '(fired, b) :=
    expired ((fun c => Z.min (prepare_deadline (p_transaction c))
                         (tx_auth_deadline (p_transaction c))) <$> pending b) b in
  if fired then drop_candidate Expired b else b.

(** A port whose reads fail. *)
Definition port_failed (x : Place) (b : Bridge) : Bridge :=
  match x with
  | AtOwner => revoke b
  | AtRetained => match retained b with Some _ => set_retained None false true b | None => b end
  | AtCandidate => drop_candidate Aborted b
  | AtRetired _ => b
  end.

Definition joined (i : nat) (b : Bridge) : Bridge := set_retired (delete i (retired b)) b.

Inductive Event : Type :=
| EvShutdown
| EvJoined (i : nat)
| EvOwnerExpires
| EvRetainedExpires
| EvCandidateExpires
| EvOwnerFailed (d : Direction)
| EvCandidateFailed
| EvRetainedFailed
| EvFromTun (packet : list Z) (capacity : Z)
| EvTunFailed
| EvFromPort (x : Place) (packet : list Z) (capacity : Z)
| EvPortFailed (x : Place)
| EvWriter (x : Place) (d : Direction)
| EvWriterAborts (x : Place) (d : Direction).

Definition reads_port (x : Place) : bool := match x with AtRetired _ => false | _ => true end.

(** One arm of the [select], or a turn of a writer's task. *)
Definition bridge_event (ev : Event) (b : Bridge) : Bridge :=
  match stopped b with
  | Some _ => b
  | None =>
      match ev with
      | EvShutdown => stop_bridge (Ok tt) b
      | EvJoined i => joined i b
      | EvOwnerExpires => owner_expires b
      | EvRetainedExpires => retained_expires b
      | EvCandidateExpires => candidate_expires b
      | EvOwnerFailed d => owner_failed d b
      | EvCandidateFailed => candidate_failed b
      | EvRetainedFailed => retained_failed b
      | EvFromTun packet capacity => packet_event AtOwner Outbound packet capacity b
      | EvTunFailed => stop_bridge (Err Broken) b
      | EvFromPort x packet capacity =>
          if reads_port x then packet_event x Inbound packet capacity b else b
      | EvPortFailed x => port_failed x b
      | EvWriter x d => writer_event x d b
      | EvWriterAborts x d => abort_event x d b
      end
  end.

(** An update of the controller, handled by the actor. *)
Definition bridge_update (change : PacketPortOwnerChange) (b : Bridge)
  : Result string unit * PacketPortReceipt * Bridge :=
  let '(result, b) := apply_change change b in (result, receipt b, b).
End Bridge.

Arguments Bridge : clear implicits.
Arguments PendingOwner : clear implicits.
Arguments PacketPortOwnerChange : clear implicits.
