(* ===== verification/PortManagerFacts.v ===== *)
(** * The packet port manager: what it guarantees

    The output queues settle their packets one by one, in order; the fences, deadlines and
    authorization checks of the owners stand before every write; the histories of the owner
    transactions are those of a small machine; and a drain certificate accounts for every
    packet. *)
From stdpp Require Import base tactics list numbers option gmap strings.
From Stdlib Require Import ZArith Lia.
From S2P Require Import Prelude PacketPort PacketPortFacts PortManager.

#[local] Open Scope Z_scope.

(** ** An output queue and its log

    [log] are the packets that are settled, each with its fate; the queue continues it. *)

Record output_ok (log : list (list Z * bool)) (o : PacketOutput) : Prop := {
  oo_completed : completed (output_progress o) = Z.of_nat (length log);
  oo_accepted : accepted (output_progress o) = Z.of_nat (length log + length (queue o));
  oo_serials : map q_serial (queue o)
    = seqZ (Z.of_nat (length log) + 1) (Z.of_nat (length (queue o)));
  oo_idle : completion_gaps (output_progress o) = false /\
    locked_by (output_progress o) = None /\ settled (output_progress o) = ∅;
  oo_failed i packet : log !! i = Some (packet, false) ->
    recorded (output_progress o) (Z.of_nat i + 1);
  oo_ended : is_Some (task_result o) -> queue o = [];
  oo_packets : pending_packets o <= OUTPUT_PACKET_LIMIT;
  oo_bytes : used_bytes o <= OUTPUT_BYTE_LIMIT;
  oo_credits : Forall (fun packet => 0 <= q_credit packet) (queue o);
  oo_taken : taken o = log.*1 ++ map q_packet (queue o);
}.

Definition delivered_packets (log : list (list Z * bool)) : list (list Z) :=
  (filter (fun entry => entry.2 = true) log).*1.

(** One access of [complete] after the other. *)
Definition accesses (n : Z) (k : nat) (cp : Completion * OutputProgress)
  : Completion * OutputProgress :=
  Nat.iter k (fun cp => completion_step (latest cp.2) n cp.1 cp.2) cp.

Lemma accesses_step n k c p c' p' :
  completion_step (latest p) n c p = (c', p') -> accesses n (S k) (c, p) = accesses n k (c', p').
Proof. intros E. unfold accesses. by rewrite Nat.iter_succ_r, <- E. Qed.

Lemma complete_accesses n d p : complete n d p = (accesses n 6 (mkCompletion d Starting, p)).2.
Proof. unfold complete, accesses. reflexivity. Qed.

Lemma accesses_done n k d p : accesses n k (mkCompletion d Completed, p) = (mkCompletion d Completed, p).
Proof. unfold accesses. induction k as [|k IH]; [done|]. simpl. by rewrite IH. Qed.

Lemma complete_delivered n p :
  completion_gaps p = false -> completed p = n - 1 ->
  complete n true p = set_completed n p.
Proof.
  intros Hg Hc. rewrite complete_accesses.
  rewrite (accesses_step n 5 _ _ (mkCompletion true Exchanged) (set_completed n p)).
  2:{ unfold completion_step. simpl. by rewrite !(proj2 (Z.eqb_eq _ _) Hc). }
  rewrite (accesses_step n 4 _ _ (mkCompletion true Completed) (set_completed n p)).
  2:{ unfold completion_step. simpl. by rewrite Hg. }
  by rewrite accesses_done.
Qed.

Lemma fold_settled_next n : fold_settled (n - 1) {[n]} = (n, ∅).
Proof.
  unfold fold_settled. rewrite size_singleton. simpl. rewrite bool_decide_eq_true_2 by set_solver by lia.
  f_equal; [lia|]. apply leibniz_equiv. set_solver by lia.
Qed.

Lemma complete_failed n p :
  locked_by p = None -> settled p = ∅ -> completed p = n - 1 ->
  complete n false p = set_lock None (set_gaps false (set_completed n (set_settled ∅
                         (set_gaps true (set_lock (Some n) (record_failure n p)))))).
Proof.
  intros Hl Hs Hc. destruct (record_failure_frame p n) as (_ & Hrc & _ & Hrs & _).
  rewrite complete_accesses.
  set (p1 := set_gaps true (set_lock (Some n) (record_failure n p))).
  rewrite (accesses_step n 5 _ _ (mkCompletion false WaitingForLock) p) by done.
  rewrite (accesses_step n 4 _ _ (mkCompletion false Marked) p1).
  2:{ unfold completion_step. simpl. by rewrite Hl. }
  rewrite (accesses_step n 3 _ _ (mkCompletion false (Folded n)) (set_settled ∅ p1)).
  2:{ unfold completion_step. simpl. rewrite Hrs, Hrc, Hs, Hc.
      destruct (Z.ltb_spec (n - 1) n); [|lia]. by rewrite union_empty_r_L, fold_settled_next. }
  rewrite (accesses_step n 2 _ _ (mkCompletion false Published)
             (set_completed n (set_settled ∅ p1))).
  2:{ unfold completion_step. simpl. by rewrite Hrc, Hc, Z.max_r by lia. }
  rewrite (accesses_step n 1 _ _ (mkCompletion false Completed)
    (set_lock None (set_gaps false (set_completed n (set_settled ∅ p1))))).
  2:{ unfold completion_step. simpl. by rewrite bool_decide_eq_true_2. }
  by rewrite accesses_done.
Qed.

(** [complete] of the next serial, by whatever the packet's fate. *)
Lemma complete_next n d p :
  completion_gaps p = false -> locked_by p = None -> settled p = ∅ -> completed p = n - 1 ->
  let p' := complete n d p in
  completed p' = n /\ accepted p' = accepted p /\
  (completion_gaps p' = false /\ locked_by p' = None /\ settled p' = ∅) /\
  (forall m, recorded p m -> recorded p' m) /\ (d = false -> recorded p' n).
Proof.
  intros Hg Hl Hs Hc. destruct d.
  - rewrite complete_delivered by done. by split_and!.
  - rewrite complete_failed by done. destruct (record_failure_frame p n) as (Ha & _).
    split_and!; [done|done|done|done|done| |].
    + intros m Hm. by apply (recorded_failure p n m).
    + intros _. apply recorded_own.
Qed.

Lemma seqZ_next m k : seqZ m (Z.of_nat (S k)) = m :: seqZ (m + 1) (Z.of_nat k).
Proof. rewrite seqZ_cons by lia. do 2 f_equal; lia. Qed.

Lemma output_settle_first log d o packet rest :
  output_ok log o -> queue o = packet :: rest ->
  output_ok (log ++ [(q_packet packet, d)]) (settle_first d o) /\
  queue (settle_first d o) = rest.
Proof.
  intros [Hc Ha Hs (Hg & Hl & He) Hf Hend Hp Hb Hcr Hk] Eq. unfold settle_first. rewrite Eq in *.
  simpl in Hs. rewrite seqZ_next in Hs. injection Hs as Hn Hs.
  destruct (complete_next (q_serial packet) d (output_progress o)) as (C1 & C2 & C3 & C4 & C5);
    [done..|lia|].
  unfold pending_packets, used_bytes in *. rewrite Eq in *. simpl in *. apply Forall_cons in Hcr as [? ?].
  split; [|done].
  constructor; rewrite ?length_app in *; unfold pending_packets, used_bytes in *; simpl in *; try done.
  - rewrite C1. lia.
  - rewrite C2, Ha. lia.
  - rewrite Hs. f_equal. lia.
  - intros i pk Hi. apply lookup_app_Some in Hi as [Hi|[Hlen Hi]].
    + apply C4. eauto.
    + apply list_lookup_singleton_Some in Hi as [Hi [= <- ->]].
      replace (Z.of_nat i + 1) with (q_serial packet) by lia. by apply C5.
  - intros Hr. by apply Hend in Hr.
  - lia.
  - lia.
  - by rewrite Hk, fmap_app, <- app_assoc.
Qed.

(** The other operations of an output. *)
Lemma output_append log o packet credit deadline failure :
  output_ok log o -> task_result o = None -> pending_packets o < OUTPUT_PACKET_LIMIT ->
  0 <= credit -> used_bytes o + credit <= OUTPUT_BYTE_LIMIT ->
  output_ok log
    (with_packets (queue o ++ [mkQueued (out_epoch o) packet credit deadline failure
                                 (accept_packet packet o).1])
       (sending o) (accept_packet packet o).2).
Proof.
  intros [Hc Ha Hs (Hg & Hl & He) Hf Hend Hp Hb Hcr Hk] Ht Hroom Hcred Hbytes.
  constructor; unfold pending_packets, used_bytes in *; simpl; rewrite ?length_app; simpl; try done.
  - rewrite Ha. lia.
  - rewrite map_app, Hs. simpl. rewrite Ha.
    replace (Z.of_nat (length (queue o) + 1)) with (Z.of_nat (length (queue o)) + 1) by lia.
    rewrite seqZ_app by lia. f_equal. simpl. by rewrite Nat2Z.inj_add, Z.add_shuffle0.
  - rewrite Ht. by intros [? ?].
  - lia.
  - rewrite map_app, foldr_app. simpl. rewrite Z.add_0_r.
    assert (forall l a, foldr Z.add a l = foldr Z.add 0 l + a) as ->; [|lia].
    intros l a. induction l as [|x l IH]; simpl; [lia|]. rewrite IH. lia.
  - apply Forall_app. split; [done|]. by constructor.
  - by rewrite Hk, map_app, app_assoc.
Qed.

Lemma output_settle_new log d o packet :
  output_ok log o -> queue o = [] -> output_ok (log ++ [(packet, d)]) (settle_new packet d o).
Proof.
  intros [Hc Ha Hs (Hg & Hl & He) Hf Hend Hp Hb Hcr Hk] Eq. unfold settle_new. simpl. rewrite Eq in *.
  destruct (complete_next (accepted (output_progress o) + 1) d (accept (output_progress o)).2)
    as (C1 & C2 & C3 & C4 & C5); [done..|simpl in *; lia|]. simpl in *.
  constructor; unfold pending_packets, used_bytes in *; simpl; rewrite ?length_app, ?Eq; simpl; try done.
  - rewrite C1. lia.
  - rewrite C2. lia.
  - intros i pk Hi. apply lookup_app_Some in Hi as [Hi|[Hlen Hi]].
    + apply C4. by eapply Hf.
    + apply list_lookup_singleton_Some in Hi as [Hi [= <- ->]].
      replace (Z.of_nat i + 1) with (accepted (output_progress o) + 1) by lia. by apply C5.
  - by rewrite Hk, fmap_app, !app_nil_r.
Qed.

Lemma output_with_attempt log o a : output_ok log o -> output_ok log (with_attempt a o).
Proof. by intros []; constructor. Qed.

Lemma output_deadline_set log o : output_ok log o -> output_ok log (deadline_set o).
Proof. unfold deadline_set. destruct (sending o); [done..|]. apply output_with_attempt. Qed.

Lemma output_cancel log o : output_ok log o -> output_ok log (cancel o).
Proof. by intros []; constructor. Qed.

(** A task that ends drops what is queued. *)
Lemma output_end_task log result o :
  output_ok log o ->
  output_ok (log ++ map (fun packet => (q_packet packet, false)) (queue o)) (end_task result o) /\
  queue (end_task result o) = [].
Proof.
  intros Ho. unfold end_task.
  assert (Hi : forall k log o, length (queue o) = k -> output_ok log o ->
    output_ok (log ++ map (fun packet => (q_packet packet, false)) (queue o))
      (Nat.iter k (settle_first false) o) /\ queue (Nat.iter k (settle_first false) o) = []).
  { clear. induction k as [|k IH]; intros log o Hk Ho.
    - apply nil_length_inv in Hk. simpl. rewrite Hk. simpl. by rewrite app_nil_r.
    - destruct (queue o) as [|packet rest] eqn:Eq; [done|]. injection Hk as Hk.
      destruct (output_settle_first log false o packet rest Ho Eq) as [Ho' Eq'].
      rewrite Nat.iter_succ_r. rewrite <- Eq' in Hk. destruct (IH _ _ Hk Ho') as [H1 H2].
      split; [|done]. rewrite Eq', <- app_assoc in H1. exact H1. }
  destruct (Hi _ log o eq_refl Ho) as [H1 H2]. split; [|done].
  destruct H1. constructor; simpl; try done.
Qed.

(** [enqueue] keeps a packet in the queue, or completes it at once. *)
Lemma output_push log packet capacity failure t o :
  output_ok log o ->
  let o' := (push_packet packet capacity failure t o).2 in
  output_ok log o' \/ queue o = [] /\ queue o' = [] /\ output_ok (log ++ [(packet, false)]) o'.
Proof.
  intros Ho. unfold push_packet.
  destruct (Z.leb_spec OUTPUT_PACKET_LIMIT (pending_packets o)); [by left|].
  destruct (_ || _) eqn:Er; [by left|]. apply orb_false_iff in Er as [_ Hr%Z.ltb_ge].
  destruct (accept_packet packet o) as [serial p] eqn:Ea.
  assert (Ek : queue p = queue o /\ task_result p = task_result o /\ sending p = sending o /\ out_epoch p = out_epoch o)
    by (injection Ea as _ <-; done).
  destruct Ek as (Ek1 & Ek2 & Ek3 & Ek4). rewrite Ek1, Ek2, Ek3, Ek4.
  destruct (task_result o) as [r|] eqn:Et; simpl.
  - right. assert (Eq : queue o = []) by (eapply oo_ended; [done|by rewrite Et]).
    split; [done|]. pose proof (output_settle_new log false o packet Ho Eq) as Hn.
    unfold settle_new in Hn. rewrite Ea in Hn. split; [simpl; by rewrite Ek1|exact Hn].
  - left. pose proof (output_append log o packet (Z.max capacity (Z.of_nat (length packet)))
      (t + OUTPUT_WRITE_TIMEOUT) failure Ho Et) as Hn. rewrite Ea in Hn. simpl. apply Hn; lia.
Qed.

Lemma new_output_ok n : output_ok [] (new_output n).
Proof. by constructor. Qed.

(** ** The gate of an owner *)

Section Gates.
Context {W A : Type} `{!PacketHost W A}.
Implicit Types (e : Env W A) (o : Owner A) (w : W).

(** What the host does between two moments. *)
Inductive host_call (w : W) : W -> Prop :=
| call_now : host_call w (instant_now w).2
| call_timer t : host_call w (timer_elapsed t w).2
| call_authorized a : host_call w (authorized a w).2
| call_write target packet : host_call w (port_write target packet w).2
| call_input p : host_call w (has_pending_input p w).2.

Definition later : W -> W -> Prop := rtc host_call.

Definition sent_by (d : Direction) (o : Owner A) (packet : list Z) (t : Z) : Sent A :=
  mkSent (direction_target d o) (binding_of o) packet t (deadline o) (authorization o).

(** Between [w] and [w'] the clock was read; the timer of an instant was polled and had not ended. *)
Definition read_clock (t : Z) (w w' : W) : Prop :=
  exists w1, later w w1 /\ (instant_now w1).1 = t /\ later (instant_now w1).2 w'.
Definition timer_silent (t : Z) (w w' : W) : Prop :=
  exists w1, later w w1 /\ (timer_elapsed t w1).1 = false /\ later (timer_elapsed t w1).2 w'.

(** Between [w] and [w'] the gate of [o] was open: the fence up, the authorization check passed,
    and the clock before the deadline; or, for an attempt that was pending, the clock was
    before the deadline when it began and the timer of the deadline has not ended. *)
Record gate_open (d : Direction) (o : Owner A) (t : Z) (w w' : W) : Prop := {
  gate_fence : direction_fence d o = true;
  gate_deadline : t < deadline o;
  gate_time : read_clock t w w' \/
    sending (direction_output d o) = Pending (deadline o) t false /\ timer_silent (deadline o) w w';
  gate_authorization a : authorization o = Some a ->
    exists w1, later w w1 /\ (authorized a w1).1 = true /\ later (authorized a w1).2 w';
}.

(** An attempt that is pending began before the deadline it sleeps until, which is the owner's as
    long as that is not set again. *)
Definition attempts_ok (o : Owner A) : Prop := forall d captured t changed,
  sending (direction_output d o) = Pending captured t changed ->
  t < captured /\ (changed = false -> captured = deadline o).

(** The packet is on the wire exactly if the result says so. *)
Definition attempted (d : Direction) (o : Owner A) (packet : list Z) (e : Env W A)
    (r : Result IoError bool) (e' : Env W A) : Prop :=
  later (world e) (world e') /\
  match r with
  | Ok true => exists t, wire e' = wire e ++ [sent_by d o packet t] /\
                 (attempts_ok o -> gate_open d o t (world e) (world e'))
  | _ => wire e' = wire e
  end.

Lemma later_now w t w' : instant_now w = (t, w') -> later w w'.
Proof. intros E. apply rtc_once. replace w' with (instant_now w).2 by (by rewrite E). constructor. Qed.

Lemma later_timer t w fired w' : timer_elapsed t w = (fired, w') -> later w w'.
Proof.
  intros E. apply rtc_once. replace w' with (timer_elapsed t w).2 by (by rewrite E). constructor.
Qed.

Lemma read_clock_widen t w0 w w' w1 : later w0 w -> later w' w1 -> read_clock t w w' -> read_clock t w0 w1.
Proof. intros H1 H2 (u & ? & ? & ?). exists u. split_and!; [by etrans|done|by etrans]. Qed.

Lemma timer_silent_widen t w0 w w' w1 :
  later w0 w -> later w' w1 -> timer_silent t w w' -> timer_silent t w0 w1.
Proof. intros H1 H2 (u & ? & ? & ?). exists u. split_and!; [by etrans|done|by etrans]. Qed.

(** A reading of a part is one of the whole. *)
Ltac widen :=
  first [eapply read_clock_widen | eapply timer_silent_widen]; [| |eassumption]; first [done|by etrans].

Lemma later_authorized a w ok w' : authorized a w = (ok, w') -> later w w'.
Proof.
  intros E. apply rtc_once. replace w' with (authorized a w).2 by (by rewrite E). constructor.
Qed.

Lemma later_write target packet w r w' : port_write target packet w = (r, w') -> later w w'.
Proof.
  intros E. apply rtc_once. replace w' with (port_write target packet w).2 by (by rewrite E).
  constructor.
Qed.

Lemma later_input p w r w' : has_pending_input p w = (r, w') -> later w w'.
Proof.
  intros E. apply rtc_once. replace w' with (has_pending_input p w).2 by (by rewrite E).
  constructor.
Qed.

Lemma clock_later e t e' : clock e = (t, e') -> later (world e) (world e') /\ wire e' = wire e.
Proof.
  unfold clock. destruct (instant_now (world e)) as [t' w] eqn:E. intros [= -> <-]. simpl.
  by apply later_now in E.
Qed.

Lemma check_later a e ok e' :
  check a e = (ok, e') -> later (world e) (world e') /\ wire e' = wire e.
Proof.
  unfold check. destruct a as [a|]; [|intros [= <- <-]; by split].
  destruct (authorized a (world e)) as [ok' w] eqn:E. intros [= -> <-]. simpl.
  by apply later_authorized in E.
Qed.

Lemma timer_later t e fired e' :
  timer t e = (fired, e') ->
  later (world e) (world e') /\ wire e' = wire e /\
  (fired = false -> timer_silent t (world e) (world e')).
Proof.
  unfold timer. destruct (timer_elapsed t (world e)) as [f w] eqn:E. intros [= -> <-]. simpl.
  split_and!; [by eapply later_timer|done|]. intros ->. exists (world e). by rewrite E.
Qed.

(** The write itself, once the time and the check have been asked. *)
Lemma write_attempted d o packet e e2 t r e' :
  direction_fence d o = true -> wire e2 = wire e ->
  (attempts_ok o -> t < deadline o /\
   (read_clock t (world e) (world e2) \/
    sending (direction_output d o) = Pending (deadline o) t false /\
    timer_silent (deadline o) (world e) (world e2))) ->
  (forall a, authorization o = Some a ->
     exists w1, later (world e) w1 /\ (authorized a w1).1 = true /\ later (authorized a w1).2 (world e2)) ->
  later (world e) (world e2) ->
  write d o t packet e2 = (r, e') -> attempted d o packet e r e'.
Proof.
  intros Hf Hw Hc Ha Hl. unfold write.
  destruct (port_write (direction_target d o) packet (world e2)) as [r' w] eqn:E.
  apply later_write in E. intros [= -> <-]. unfold attempted. simpl. rewrite Hw.
  split; [by etrans|]. destruct r as [[|]|]; try done.
  exists t. split; [done|]. intros Hok. destruct (Hc Hok) as [Ht Hc']. clear Hc. rename Hc' into Hc.
  constructor; [done..| |].
  - destruct Hc as [Hc|[Hs Hc]]; [left; widen|right; split; [done|]].
    widen.
  - intros a Ea. destruct (Ha a Ea) as (w1 & ? & ? & ?). exists w1. split_and!; [done..|by etrans].
Qed.

Lemma check_passed a e e' :
  check a e = (true, e') ->
  forall a', a = Some a' -> exists w1, later (world e) w1 /\ (authorized a' w1).1 = true /\
    later (authorized a' w1).2 (world e').
Proof.
  unfold check. intros E a' ->. destruct (authorized a' (world e)) as [ok w] eqn:Ea.
  injection E as -> <-. exists (world e). rewrite Ea. by split_and!.
Qed.

Lemma clock_read e t e' : clock e = (t, e') -> read_clock t (world e) (world e').
Proof.
  unfold clock. intros E. destruct (instant_now (world e)) as [t' w] eqn:Ei.
  injection E as -> <-. exists (world e). rewrite Ei. by split_and!.
Qed.

Lemma try_send_attempted d o packet e r e' :
  try_send d o packet e = (r, e') -> attempted d o packet e r e'.
Proof.
  unfold try_send. destruct (direction_fence d o) eqn:Ef; simpl; [|by intros [= <- <-]].
  destruct (check (authorization o) e) as [ok e1] eqn:Ec.
  destruct (check_later _ _ _ _ Ec) as [H1 H2]. destruct ok; simpl; [|by intros [= <- <-]].
  pose proof (check_passed _ _ _ Ec) as Hp.
  destruct (clock e1) as [t e2] eqn:Et. destruct (clock_later _ _ _ Et) as [H3 H4].
  apply clock_read in Et.
  destruct (Z.leb_spec (deadline o) t); [intros [= <- <-]; split; [by etrans|simpl; congruence]|].
  apply (write_attempted d o packet e e2 t); [done|congruence| | |by etrans].
  - split; [lia|]. left. widen.
  - intros a Ha. destruct (Hp a Ha) as (w2 & ? & ? & ?). exists w2. split_and!; [done..|by etrans].
Qed.

(** Where the attempts of [out] come from, if [o] stood before and the step went from [w] to [w']. *)
Definition attempt_from (d : Direction) (o : Owner A) (w : W) (out : Attempt) (w' : W) : Prop :=
  forall captured t changed, out = Pending captured t changed ->
    sending (direction_output d o) = Pending captured t changed \/
    captured = deadline o /\ t < deadline o /\ read_clock t w w'.

Lemma attempt_same d o w w' : attempt_from d o w (sending (direction_output d o)) w'.
Proof. intros ? ? ? ?. by left. Qed.

Lemma attempt_widen d o w0 w out w' :
  later w0 w -> attempt_from d o w out w' -> attempt_from d o w0 out w'.
Proof.
  intros Hl H captured t changed Ho. destruct (H _ _ _ Ho) as [|(? & ? & ?)]; [by left|right].
  split_and!; [done..|widen].
Qed.

Lemma poll_select_attempted captured t d o packet e r e' :
  poll_select captured t d o packet e = (r, e') ->
  sending (direction_output d o) = Pending captured t false -> attempted d o packet e r e'.
Proof.
  unfold poll_select. intros E Hs. revert E. destruct (direction_fence d o) eqn:Ef; simpl; [|by intros [= <- <-]].
  destruct (timer captured e) as [fired e1] eqn:Et. destruct (timer_later _ _ _ _ Et) as (H1 & H2 & H3).
  destruct fired; [by intros [= <- <-]|]. specialize (H3 eq_refl).
  destruct (check (authorization o) e1) as [ok e2] eqn:Ec.
  destruct (check_later _ _ _ _ Ec) as [H4 H5].
  destruct ok; simpl; [|intros [= <- <-]; split; [by trans (world e1)|simpl; congruence]].
  pose proof (check_passed _ _ _ Ec) as Hp.
  apply (write_attempted d o packet e e2 t); [done|congruence| | |by trans (world e1)].
  - intros Hok. destruct (Hok _ _ _ _ Hs) as [Ht Hc]. rewrite <- (Hc eq_refl). split; [done|].
    right. split; [done|]. widen.
  - intros a Ha. destruct (Hp a Ha) as (w2 & ? & ? & ?). exists w2. split_and!; [by trans (world e1)|done..].
Qed.

Lemma enter_send_attempted d o packet e r a e' :
  enter_send d o packet e = (r, a, e') ->
  attempted d o packet e r e' /\ attempt_from d o (world e) a (world e').
Proof.
  unfold enter_send. destruct (clock e) as [t e1] eqn:Et.
  destruct (clock_later _ _ _ Et) as [H3 H4]. apply clock_read in Et.
  destruct (Z.leb_spec (deadline o) t); [by intros [= <- <- <-]|].
  unfold poll_select. destruct (direction_fence d o) eqn:Ef; simpl.
  2:{ intros [= <- <- <-]. split; [done|]. intros ? ? ? [= <- <- <-]. right. split_and!; [done|lia|done]. }
  destruct (timer (deadline o) e1) as [fired e2] eqn:Em. destruct (timer_later _ _ _ _ Em) as (H5 & H6 & _).
  assert (Hfrom : forall e', later (world e2) (world e') ->
    attempt_from d o (world e) (Pending (deadline o) t false) (world e')).
  { intros e3 Hl ? ? ? [= <- <- <-]. right. split_and!; [done|lia|].
    eapply read_clock_widen, Et; [done|by trans (world e2)]. }
  destruct fired; simpl.
  { intros [= <- <- <-]. split; [|by apply Hfrom]. split; [by trans (world e1)|simpl; congruence]. }
  destruct (check (authorization o) e2) as [ok e3] eqn:Ec.
  destruct (check_later _ _ _ _ Ec) as [H1 H2].
  assert (L3 : later (world e) (world e3)) by (trans (world e1); [done|]; by trans (world e2)).
  destruct ok; simpl.
  2:{ intros [= <- <- <-]. split; [|by apply Hfrom]. split; [done|simpl; congruence]. }
  pose proof (check_passed _ _ _ Ec) as Hp. destruct (write d o t packet e3) as [r0 e4] eqn:Ew.
  intros [= <- <- <-].
  assert (Ha : attempted d o packet e r0 e4).
  { apply (write_attempted d o packet e e3 t); [done|congruence| | |done|done].
    - split; [lia|]. left. eapply read_clock_widen, Et; [done|]. by trans (world e2).
    - intros a Ha. destruct (Hp a Ha) as (w2 & ? & ? & ?). exists w2.
      split_and!; [|done..]. trans (world e1); [done|]. by trans (world e2). }
  split; [done|]. apply Hfrom. trans (world e3); [done|].
  unfold write in Ew. destruct (port_write _ _ _) as [r1 w1] eqn:E1. injection Ew as _ <-. by apply later_write in E1.
Qed.

Lemma attempted_widen d o packet e0 e r e' :
  later (world e0) (world e) -> wire e = wire e0 -> attempted d o packet e r e' -> attempted d o packet e0 r e'.
Proof.
  intros Hl Hw [H1 H2]. split; [by trans (world e)|]. destruct r as [[|]|]; [|congruence..].
  destruct H2 as (t & Hs & Hg). exists t. split; [by rewrite Hs, Hw|].
  intros Hok. destruct (Hg Hok) as [Hf Hd Hc Ha]. constructor; [done..| |].
  - destruct Hc as [Hc|[? Hc]]; [left; widen|right].
    split; [done|]. widen.
  - intros a Ea. destruct (Ha a Ea) as (w1 & ? & ? & ?). exists w1. split_and!; [by trans (world e)|done..].
Qed.

Lemma poll_send_attempted d o packet e r a e' :
  poll_send d o packet e = (r, a, e') ->
  attempted d o packet e r e' /\ attempt_from d o (world e) a (world e').
Proof.
  unfold poll_send. destruct (sending (direction_output d o)) as [| |captured t changed] eqn:Es;
    [apply enter_send_attempted..|].
  destruct changed.
  - destruct (negb _); [by intros [= <- <- <-]|].
    destruct (timer captured e) as [fired e1] eqn:Et. destruct (timer_later _ _ _ _ Et) as (H1 & H2 & _).
    destruct fired; [by intros [= <- <- <-]|].
    intros [Ha Hf]%enter_send_attempted. split; [by eapply attempted_widen|by eapply attempt_widen].
  - destruct (poll_select _ _ _ _ _ _) as [r0 e1] eqn:Ep. intros [= <- <- <-]. split.
    + by apply (poll_select_attempted captured t d o packet e r0 e1 Ep).
    + intros ? ? ? [= <- <- <-]. by left.
Qed.

(** *** One owner *)

Definition carried (d : Direction) (o : Owner A) (s : Sent A) : Prop :=
  sent_target s = direction_target d o /\ sent_owner s = binding_of o.

#[local] Instance carried_dec d o s : Decision (carried d o s).
Proof. apply _. Defined.

(** The packets that went out on behalf of an owner. *)
Definition carried_packets (d : Direction) (o : Owner A) (l : list (Sent A)) : list (list Z) :=
  sent_packet <$> filter (carried d o) l.

(** What the log calls delivered is on the wire, in the same order. *)
Definition outputs_ok (o : Owner A) (l : list (Sent A)) : Prop :=
  attempts_ok o /\
  forall d, exists log, output_ok log (direction_output d o) /\
    delivered_packets log `sublist_of` carried_packets d o l.

(** All that a turn leaves alone. *)
Definition same_owner (o o' : Owner A) : Prop :=
  port o' = port o /\ auth_deadline o' = auth_deadline o /\
  transaction_cap o' = transaction_cap o /\ deadline o' = deadline o /\
  authorization o' = authorization o /\ fence o' = fence o /\ inbound_fence o' = inbound_fence o.

(** The next packet settles as delivered. *)
Definition delivers (packet : list Z) (out out' : PacketOutput) : Prop :=
  forall log, output_ok log out -> output_ok (log ++ [(packet, true)]) out'.

(** A turn of the tasks of an owner, or the arrival of a packet. *)
Record turn (d : Direction) (o : Owner A) (e : Env W A) (o' : Owner A) (e' : Env W A) : Prop := {
  turn_same : same_owner o o';
  turn_later : later (world e) (world e');
  turn_other d' : d' <> d -> direction_output d' o' = direction_output d' o;
  turn_wire : wire e' = wire e \/
    exists packet t, wire e' = wire e ++ [sent_by d o packet t] /\
      (attempts_ok o -> gate_open d o t (world e) (world e')) /\
      delivers packet (direction_output d o) (direction_output d o');
  turn_attempt d' : attempt_from d' o (world e) (sending (direction_output d' o')) (world e');
  turn_outputs : outputs_ok o (wire e) -> outputs_ok o' (wire e');
}.

Lemma carried_packets_app d o l k :
  carried_packets d o (l ++ k) = carried_packets d o l ++ carried_packets d o k.
Proof. unfold carried_packets. by rewrite filter_app, fmap_app. Qed.

Lemma carried_packets_same d o o' l :
  same_owner o o' -> carried_packets d o' l = carried_packets d o l.
Proof.
  intros (Hp & _). unfold carried_packets. f_equal. apply list_filter_iff. intros s.
  unfold carried, binding_of. destruct d; simpl; by rewrite Hp.
Qed.

Lemma carried_sent_by d o packet t : carried_packets d o [sent_by d o packet t] = [packet].
Proof. unfold carried_packets. rewrite filter_cons_True by done. by rewrite filter_nil. Qed.

Lemma outputs_ok_grow o l k : outputs_ok o l -> outputs_ok o (l ++ k).
Proof.
  intros [Ha H]. split; [done|]. intros d. destruct (H d) as (log & H1 & H2). exists log.
  split; [done|]. rewrite carried_packets_app. by apply sublist_inserts_r.
Qed.

Lemma same_owner_refl o : same_owner o o.
Proof. by split_and!. Qed.

Lemma same_set_direction d out o : same_owner o (set_direction d out o).
Proof. by destruct d; split_and!. Qed.

Lemma direction_set d out o : direction_output d (set_direction d out o) = out.
Proof. by destruct d. Qed.

Lemma direction_set_other d d' out o :
  d' <> d -> direction_output d' (set_direction d out o) = direction_output d' o.
Proof. by destruct d, d'. Qed.

Lemma turn_nothing d o e e' :
  later (world e) (world e') -> wire e' = wire e -> turn d o e o e'.
Proof.
  intros Hl Hw. constructor; [apply same_owner_refl|done|done|by left|intros; apply attempt_same|by rewrite Hw].
Qed.

Lemma delivered_packets_app log log' :
  delivered_packets (log ++ log') = delivered_packets log ++ delivered_packets log'.
Proof. unfold delivered_packets. by rewrite filter_app, fmap_app. Qed.

(** The attempts of the next owner are in order again. *)
Lemma attempts_next o o' w w' :
  deadline o' = deadline o ->
  (forall d, attempt_from d o w (sending (direction_output d o')) w') -> attempts_ok o -> attempts_ok o'.
Proof.
  intros Hd Hf Ho d captured t changed Hs. rewrite Hd.
  destruct (Hf d _ _ _ Hs) as [Hs'|(-> & Ht & _)]; [by apply (Ho d)|done].
Qed.

(** A new output whose log grew by packets that the wire accounts for. *)
Lemma turn_set d o e out e' sent :
  later (world e) (world e') ->
  wire e' = wire e ++ sent ->
  (sent = [] \/ exists packet t, sent = [sent_by d o packet t] /\
     (attempts_ok o -> gate_open d o t (world e) (world e')) /\
     delivers packet (direction_output d o) out) ->
  attempt_from d o (world e) (sending out) (world e') ->
  (forall log, output_ok log (direction_output d o) -> exists log',
     output_ok (log ++ log') out /\ delivered_packets log' `sublist_of` carried_packets d o sent) ->
  turn d o e (set_direction d out o) e'.
Proof.
  intros Hl Hw Hs Hat Ho.
  assert (Hatt : forall d',
    attempt_from d' o (world e) (sending (direction_output d' (set_direction d out o))) (world e')).
  { intros d'. destruct (decide (d' = d)) as [->|Hd]; [by rewrite direction_set|].
    rewrite direction_set_other by done. apply attempt_same. }
  constructor.
  - apply same_set_direction.
  - done.
  - intros d'. apply direction_set_other.
  - destruct Hs as [->|(packet & t & -> & Hg & Hd)]; [left; by rewrite Hw, app_nil_r|right].
    exists packet, t. by rewrite direction_set.
  - apply Hatt.
  - intros [Hok H]. split; [apply (attempts_next o _ (world e) (world e')); [by destruct d|apply Hatt|done]|].
    intros d'. destruct (decide (d' = d)) as [->|Hd].
    + destruct (H d) as (log & H1 & H2). destruct (Ho log H1) as (log' & H3 & H4).
      exists (log ++ log'). rewrite direction_set. split; [done|].
      rewrite (carried_packets_same d o) by apply same_set_direction.
      rewrite delivered_packets_app, Hw, carried_packets_app. by apply sublist_app.
    + rewrite direction_set_other by done. rewrite Hw.
      destruct (proj2 (outputs_ok_grow o (wire e) sent (conj Hok H)) d') as (log & H1 & H2). exists log.
      split; [done|]. by rewrite (carried_packets_same d' o) by apply same_set_direction.
Qed.

(** A packet that settles alone, by the result of its write. *)
Lemma turn_settle d o e out e' packet delivered :
  attempted d o packet e (Ok delivered) e' ->
  attempt_from d o (world e) (sending out) (world e') ->
  (forall log, output_ok log (direction_output d o) ->
     output_ok (log ++ [(packet, delivered)]) out) ->
  turn d o e (set_direction d out o) e'.
Proof.
  intros [Hl Hr] Hat Ho. destruct delivered.
  - destruct Hr as (t & Hw & Hg). eapply turn_set; [done|done|by right; exists packet, t|done|].
    intros log H. exists [(packet, true)]. split; [by apply Ho|].
    by rewrite carried_sent_by.
  - eapply (turn_set _ _ _ _ _ []); [done|by rewrite app_nil_r|by left|done|].
    intros log H. exists [(packet, false)]. split; [by apply Ho|done].
Qed.

(** Packets that settle without reaching the descriptor. *)
Lemma turn_lost d o e out e' :
  later (world e) (world e') -> wire e' = wire e ->
  attempt_from d o (world e) (sending out) (world e') ->
  (forall log, output_ok log (direction_output d o) -> exists log',
     output_ok (log ++ log') out /\ delivered_packets log' = []) ->
  turn d o e (set_direction d out o) e'.
Proof.
  intros Hl Hw Hat Ho. eapply (turn_set _ _ _ _ _ []); [done|by rewrite app_nil_r|by left|done|].
  intros log H. destruct (Ho log H) as (log' & H1 & H2). exists log'. split; [done|].
  rewrite H2. apply sublist_nil_l.
Qed.

Lemma turn_trans_quiet d o e e1 o' e' :
  later (world e) (world e1) -> wire e1 = wire e -> turn d o e1 o' e' -> turn d o e o' e'.
Proof.
  intros Hl Hw [H1 H2 H3 H4 H6 H5].
  constructor; [done|by trans (world e1)|done| |intros d'; by eapply attempt_widen|by rewrite <- Hw].
  destruct H4 as [->|(packet & t & Hs & Hg & Hd0)]; [by left|right].
  exists packet, t. rewrite Hs, Hw. split_and!; [done| |done]. intros Hok. destruct (Hg Hok) as [Hf Hd Hc Ha].
  constructor; [done|done| |].
  - destruct Hc as [Hc|[? Hc]]; [left; widen|right; split; [done|widen]].
  - intros a Ea. destruct (Ha a Ea) as (w2 & ? & ? & ?). exists w2.
    split_and!; [by trans (world e1)|done..].
Qed.

Lemma delivered_lost queue :
  delivered_packets (map (fun packet => (q_packet packet, false)) queue) = [].
Proof. unfold delivered_packets. induction queue as [|q l IH]; [done|]. simpl. by rewrite filter_cons_False. Qed.

(** What happens to a queue leaves the attempt alone, or ends it. *)
Lemma attempt_quiet d o w w' out :
  sending out = sending (direction_output d o) \/ sending out = NotSending \/ sending out = Entering ->
  attempt_from d o w (sending out) w'.
Proof. intros [->|[->| ->]]; [apply attempt_same|by intros ? ? ?..]. Qed.

Lemma sending_end_task r (out : PacketOutput) :
  sending (end_task r out) = sending out \/ sending (end_task r out) = NotSending.
Proof.
  unfold end_task. simpl. generalize (length (queue out)) as k. intros k.
  induction k as [|k IH]; [by left|]. simpl. unfold settle_first at 1 3.
  destruct (queue _); [done|by right].
Qed.

Lemma sending_push packet capacity failure t (out : PacketOutput) :
  sending (push_packet packet capacity failure t out).2 = sending out.
Proof.
  unfold push_packet. destruct (_ <=? _); [done|]. destruct (_ || _); [done|].
  destruct (accept_packet packet out) as [serial out'] eqn:Ea.
  assert (sending out' = sending out) by (by injection Ea as _ <-).
  by destruct (task_result out').
Qed.

Lemma sending_settled delivered (out : PacketOutput) :
  queue out <> [] -> sending (settle_first delivered out) = NotSending.
Proof. unfold settle_first. by destruct (queue out). Qed.

Lemma enqueue_turn d packet capacity o e o' e' :
  enqueue d packet capacity o e = (o', e') -> turn d o e o' e'.
Proof.
  unfold enqueue. destruct (_ || _); [intros [= <- <-]; by apply turn_nothing|].
  assert (Hq : forall failure e1 e2 t, later (world e) (world e1) -> wire e1 = wire e ->
    clock e1 = (t, e2) ->
    turn d o e (set_direction d (push_packet packet capacity failure t (direction_output d o)).2 o) e2).
  { intros failure e1 e2 t H1 H2 Hc. destruct (clock_later _ _ _ Hc) as [H3 H4].
    apply turn_lost; [by trans (world e1)|congruence|apply attempt_quiet; left; apply sending_push|].
    intros log H. destruct (output_push log packet capacity failure t _ H) as [Ho|(_ & _ & Ho)].
    - exists []. by rewrite app_nil_r.
    - exists [(packet, false)]. by split. }
  case_bool_decide as Eq.
  - destruct (try_send d o packet e) as [r e1] eqn:Et. apply try_send_attempted in Et as Ha.
    pose proof (proj1 Ha) as Hl.
    destruct r as [[|]|[]].
    + intros [= <- <-]. apply (turn_settle d o e _ e1 packet true Ha); [by apply attempt_quiet; left|].
      intros log H. by apply output_settle_new.
    + destruct (clock e1) as [t e2] eqn:Ec. intros [= <- <-]. apply (Hq None e1 e2 t); [done|apply Ha|done].
    + intros [= <- <-]. apply turn_lost; [done|apply Ha|by apply attempt_quiet; left|]. intros log H.
      exists [(packet, false)]. split; [by apply output_settle_new|done].
    + destruct (clock e1) as [t e2] eqn:Ec. intros [= <- <-].
      apply (Hq (Some AuthorizationFailure) e1 e2 t); [done|apply Ha|done].
    + destruct (clock e1) as [t e2] eqn:Ec. intros [= <- <-].
      apply (Hq (Some Broken) e1 e2 t); [done|apply Ha|done].
  - destruct (clock e) as [t e2] eqn:Ec. intros [= <- <-]. by apply (Hq None e e2 t).
Qed.

Lemma ended_turn d o e e' r :
  later (world e) (world e') -> wire e' = wire e ->
  turn d o e (set_direction d (end_task r (direction_output d o)) o) e'.
Proof.
  intros Hl Hw. apply turn_lost; [done..| |].
  - apply attempt_quiet. destruct (sending_end_task r (direction_output d o)); auto.
  - intros log H. eexists. split; [by apply output_end_task|apply delivered_lost].
Qed.

Lemma dropped_turn d o e e' packet rest :
  queue (direction_output d o) = packet :: rest ->
  later (world e) (world e') -> wire e' = wire e ->
  turn d o e (set_direction d (settle_first false (direction_output d o)) o) e'.
Proof.
  intros Eq Hl Hw. apply turn_lost; [done..| |].
  - apply attempt_quiet. right. left. apply sending_settled. by rewrite Eq.
  - intros log H. eexists. split; [by apply (output_settle_first log false _ packet rest)|done].
Qed.

(** The oldest packet settles with the result of its write. *)
Lemma written_turn d o e e' packet rest (r : Result IoError unit) :
  queue (direction_output d o) = packet :: rest ->
  attempted d o (q_packet packet) e (match r with Ok _ => Ok true | Err x => Err x end) e' ->
  turn d o e (set_direction d (written r (direction_output d o)) o) e'.
Proof.
  intros Eq [Hl Hr]. destruct r as [[]|[]]; simpl.
  - apply (turn_settle d o e _ e' (q_packet packet) true); [by split| |].
    + apply attempt_quiet. right. left. apply sending_settled. by rewrite Eq.
    + intros log H. by apply (output_settle_first log true _ packet rest).
  - by apply (dropped_turn d o e e' packet rest).
  - by apply ended_turn.
  - by apply ended_turn.
Qed.

(** The attempt stays pending. *)
Lemma pending_turn d o e e' a :
  later (world e) (world e') -> wire e' = wire e -> attempt_from d o (world e) a (world e') ->
  turn d o e (set_direction d (with_attempt a (direction_output d o)) o) e'.
Proof.
  intros Hl Hw Ha. apply turn_lost; [done..|]. intros log H. exists [].
  rewrite app_nil_r. split; [by apply output_with_attempt|done].
Qed.

Lemma writer_turn_turn d o e o' e' : writer_turn d o e = (o', e') -> turn d o e o' e'.
Proof.
  unfold writer_turn.
  destruct (task_result (direction_output d o)) as [|] eqn:Et; [intros [= <- <-]; by apply turn_nothing|].
  destruct (queue (direction_output d o)) as [|packet rest] eqn:Eq;
    [intros [= <- <-]; by apply turn_nothing|].
  assert (Hpoll : (if negb (q_epoch packet =? out_epoch (direction_output d o))
      then (set_direction d (settle_first false (direction_output d o)) o, e)
      else let '(late, e) := timer (q_deadline packet) e in
           if late then (set_direction d (settle_first false (direction_output d o)) o, e)
           else let '(result, attempt, e) := poll_send d o (q_packet packet) e in
                (match result with
                 | Ok false => set_direction d (with_attempt attempt (direction_output d o)) o
                 | Ok true => set_direction d (written (Ok tt) (direction_output d o)) o
                 | Err error => set_direction d (written (Err error) (direction_output d o)) o
                 end, e)) = (o', e') -> turn d o e o' e').
  { destruct (negb _); [intros [= <- <-]; by apply (dropped_turn d o e e packet rest)|].
    destruct (timer (q_deadline packet) e) as [late e1] eqn:Ec.
    destruct (timer_later _ _ _ _ Ec) as (H1 & H2 & _).
    destruct late; [intros [= <- <-]; by apply (dropped_turn d o e e1 packet rest)|].
    destruct (poll_send d o (q_packet packet) e1) as [[r a] e2] eqn:Ep.
    apply poll_send_attempted in Ep as [Ha Hf].
    intros E. apply (turn_trans_quiet d o e e1 _ _ H1 H2). revert E.
    destruct r as [[|]|x]; intros [= <- <-].
    - by apply (written_turn d o e1 e2 packet rest (Ok tt)).
    - apply pending_turn; [apply Ha..|done].
    - by apply (written_turn d o e1 e2 packet rest (Err x)). }
  destruct (sending (direction_output d o)); [|exact Hpoll..]. clear Hpoll.
  destruct (q_failure packet) as [x|]; [intros [= <- <-]; by apply ended_turn|].
  destruct (negb _); [intros [= <- <-]; by apply (dropped_turn d o e e packet rest)|].
  destruct (clock e) as [t e1] eqn:Ec. destruct (clock_later _ _ _ Ec) as [H1 H2].
  destruct (q_deadline packet <=? t); [intros [= <- <-]; by apply (dropped_turn d o e e1 packet rest)|].
  destruct (try_send d o (q_packet packet) e1) as [r e2] eqn:Ep. apply try_send_attempted in Ep as Ha.
  intros E. apply (turn_trans_quiet d o e e1 _ _ H1 H2). revert E.
  destruct r as [[|]|x]; intros [= <- <-].
  - by apply (written_turn d o e1 e2 packet rest (Ok tt)).
  - by apply pending_turn; [apply Ha..|].
  - by apply (written_turn d o e1 e2 packet rest (Err x)).
Qed.

Lemma writer_aborts_turn d o e : turn d o e (writer_aborts d o) e.
Proof.
  unfold writer_aborts. destruct (task_result _); [by apply turn_nothing|].
  destruct (PortManager.aborted _); [|by apply turn_nothing]. by apply ended_turn.
Qed.

(** An empty outbound queue stays empty unless a packet is put in. *)
Lemma writer_turn_empty d o e o' e' :
  queue (direction_output d o) = [] -> writer_turn d o e = (o', e') -> o' = o /\ e' = e.
Proof.
  intros Eq. unfold writer_turn. rewrite Eq. destruct (task_result _); by intros [= <- <-].
Qed.

Lemma writer_aborts_empty d o :
  queue (direction_output d o) = [] -> queue (direction_output d (writer_aborts d o)) = [].
Proof.
  intros Eq. unfold writer_aborts. destruct (task_result _); [done|].
  destruct (PortManager.aborted _); [|done]. rewrite direction_set. unfold end_task. by rewrite Eq.
Qed.
End Gates.

(** ** What an accepted change does *)

Section Changes.
Context {W A : Type} `{!PacketHost W A}.
Implicit Types (b : Bridge W A) (o : Owner A) (e : Env W A).

(** The changes as transitions, the guards that passed as premises. *)
Inductive effect b : PacketPortOwnerChange A -> Bridge W A -> Prop :=
| effect_repeated change : effect b change b
| effect_prepare tx p a :
    matches_infrastructure p (infrastructure b) = true -> port_binding p = tx_binding tx ->
    identity_conflict tx b = false ->
    highest_transaction_revision b < revision tx -> pending b = None -> retained b = None ->
    active_epoch b = expected_active_epoch tx -> stale_epoch (tx_binding tx) b = false ->
    prepare_deadline tx <= tx_auth_deadline tx ->
    effect b (PrepareOwner tx p a)
      (set_pending (Some (mkPending tx
         (Owner_new p (prepare_deadline tx) (Some (tx_auth_deadline tx)) (Some a)) a))
         (set_revision (revision tx) b))
| effect_commit tx c :
    pending b = Some c -> p_transaction c = tx -> active_epoch b = expected_active_epoch tx ->
    stale_epoch (tx_binding tx) b = false ->
    (forall o, owner b = Some o -> queue (to_worker o) = []) ->
    effect b (CommitOwner tx) (install c tx b)
| effect_drained tx previous :
    is_last tx Committed b = true -> forced_retirement b = false -> retained b = Some previous ->
    drained_through (accepted (output_progress (to_tun previous)))
      (output_progress (to_tun previous)) = Ok true ->
    (exists w, later w (world (env b)) /\ (has_pending_input (port previous) w).1 = Ok false) ->
    effect b (FinishOwnerDrain tx)
      (set_retained None true (forced_retirement b) (retire previous b))
| effect_nothing_retained tx :
    is_last tx Committed b = true -> forced_retirement b = false -> retained b = None ->
    effect b (FinishOwnerDrain tx) (set_retained None true (forced_retirement b) b)
| effect_failed tx :
    is_last tx Committed b = true ->
    effect b (RetireOwnerAfterFailure tx)
      (set_retained None false true
         (match retained b with Some previous => retire previous b | None => b end))
| effect_abort tx c :
    pending b = Some c -> p_transaction c = tx ->
    effect b (AbortOwner tx) (drop_candidate Aborted b)
| effect_attach p d a change :
    change = Attach p d /\ a = None \/ (exists a', change = AttachAuthorized p d a' /\ a = Some a') ->
    matches_infrastructure p (infrastructure b) = true -> retained b = None ->
    stale_epoch (port_binding p) b = false ->
    effect b change
      (set_owner (Some (Owner_new p d None a))
         (set_highest (owner_epoch (port_binding p)) (policy_generation (port_binding p))
            (match owner b with Some previous => retire previous b | None => b end)))
| effect_renew epoch policy d o :
    owner b = Some o -> epoch = highest_owner_epoch b ->
    (forall cap, transaction_cap o = Some cap -> d <= cap) ->
    effect b (Renew epoch policy d) (set_owner (Some (set_deadline d o)) b)
| effect_revoke epoch :
    epoch = highest_owner_epoch b -> effect b (Revoke epoch) (force_retained (revoke b)).

Lemma set_env_id b : set_env (env b) b = b.
Proof. by destruct b. Qed.

(** The outcome of a change: refused changes touch nothing but the clocks. *)
Definition changed b (e0 : Env W A) (change : PacketPortOwnerChange A) (r : Result string unit)
    (b' : Bridge W A) : Prop :=
  exists e, later (world e0) (world e) /\ wire e = wire e0 /\
    match r with
    | Err _ => b' = set_env e b
    | Ok _ => effect (set_env e b) change b'
    end.

Lemma changed_later b e0 e1 change r b' :
  later (world e0) (world e1) -> wire e1 = wire e0 -> changed b e1 change r b' ->
  changed b e0 change r b'.
Proof.
  intros Hl Hw (e & H1 & H2 & H3). exists e. split_and!; [by trans (world e1)|congruence|done].
Qed.

Lemma changed_refused b e change code : changed b e change (Err code) (set_env e b).
Proof. by exists e. Qed.

Lemma changed_effect b e change b' : effect (set_env e b) change b' -> changed b e change (Ok tt) b'.
Proof. intros H. by exists e. Qed.

Lemma wp_guard_that c code (Q : Result string unit -> Bridge W A -> Prop) b :
  (c = true -> Q (Ok tt) b) -> (c = false -> Q (Err code) b) -> wp (guard_that c code) Q b.
Proof. unfold wp, guard_that. destruct c; simpl; auto. Qed.

Lemma wp_now b (Q : Result string Z -> Bridge W A -> Prop) e :
  (forall t e', later (world e) (world e') -> wire e' = wire e -> Q (Ok t) (set_env e' b)) ->
  wp now Q (set_env e b).
Proof.
  intros H. unfold wp, now. simpl. destruct (clock e) as [t e'] eqn:E.
  apply clock_later in E as [? ?]. by apply H.
Qed.

Lemma wp_check_authorization a b (Q : Result string bool -> Bridge W A -> Prop) e :
  (forall ok e', later (world e) (world e') -> wire e' = wire e -> Q (Ok ok) (set_env e' b)) ->
  wp (check_authorization a) Q (set_env e b).
Proof.
  intros H. unfold wp, check_authorization. simpl. destruct (check a e) as [ok e'] eqn:E.
  apply check_later in E as [? ?]. by apply H.
Qed.

Lemma wp_pending_input p b (Q : Result string bool -> Bridge W A -> Prop) e :
  (forall r e', later (world e) (world e') -> wire e' = wire e ->
     (forall v, r = Ok v -> exists w, later w (world e') /\ (has_pending_input p w).1 = Ok v) ->
     Q r (set_env e' b)) ->
  wp (pending_input p) Q (set_env e b).
Proof.
  intros H. unfold wp, pending_input. simpl.
  destruct (has_pending_input p (world e)) as [r w] eqn:E. pose proof (later_input _ _ _ _ E).
  simpl. apply (H _ (mkEnv w (wire e))); [done..|].
  intros v Ev. exists (world e). split; [done|]. rewrite E. by destruct r; simplify_eq/=.
Qed.
End Changes.

(** One step of a change. *)
Ltac bridge_step :=
  lazymatch goal with
  | |- wp (mbind _ _) _ _ => apply wp_mbind; cbv beta
  | |- wp (gets _) _ _ => apply wp_gets; cbv beta iota
  | |- wp (mret _) _ _ => apply wp_mret; cbv beta iota
  | |- wp (modify _) _ _ => apply wp_modify; cbv beta iota
  | |- wp (lift _) _ _ => apply wp_lift; cbv beta iota
  | |- wp (refuse _) _ _ => apply wp_mfail; cbv beta iota
  | |- wp (guard_that _ _) _ _ => apply wp_guard_that; intros ?; cbv beta iota
  | |- wp now _ _ => apply wp_now; intros ? ? ? ?; cbv beta iota
  | |- wp (check_authorization _) _ _ => apply wp_check_authorization; intros ? ? ? ?; cbv beta iota
  | |- wp (pending_input _) _ _ => apply wp_pending_input; intros ? ? ? ? ?; cbv beta iota
  | |- wp (if ?c then _ else _) _ _ => destruct c eqn:?
  | |- wp (match ?c with Some _ => _ | None => _ end) _ _ => destruct c eqn:?
  | |- match ?r with Ok _ => _ | Err _ => _ end => destruct r eqn:?
  | |- changed ?b ?e0 ?change (Err _) (set_env ?e1 ?b) =>
      apply (changed_later b e0 e1); [| |by apply changed_refused]
  end.

(** The guards that passed, as propositions. *)
Ltac bool_guards :=
  repeat match goal with
  | H : negb _ = true |- _ => apply negb_true_iff in H
  | H : negb _ = false |- _ => apply negb_false_iff in H
  | H : (_ || _) = false |- _ => apply orb_false_iff in H as [? ?]
  | H : (_ && _) = true |- _ => apply andb_true_iff in H as [? ?]
  | H : bool_decide _ = true |- _ => apply bool_decide_eq_true in H
  | H : bool_decide _ = false |- _ => apply bool_decide_eq_false in H
  | H : (_ <? _) = true |- _ => apply Z.ltb_lt in H
  | H : (_ <? _) = false |- _ => apply Z.ltb_ge in H
  | H : (_ <=? _) = true |- _ => apply Z.leb_le in H
  | H : (_ <=? _) = false |- _ => apply Z.leb_gt in H
  | H : (_ =? _) = true |- _ => apply Z.eqb_eq in H
  | H : ~ is_Some _ |- _ => apply eq_None_not_Some in H
  end; simpl in * |-.

(** The clock readings in between. *)
Ltac chain :=
  lazymatch goal with
  | |- wire _ = wire _ => congruence
  | |- later ?x ?x => done
  | H : later ?x ?y |- later ?x _ => trans y; [exact H|clear H; chain]
  end.

(** All the paths of a change, the refusals settled. *)
Ltac bridge_paths := repeat bridge_step; try done; try chain.

Section Effects.
Context {W A : Type} `{!PacketHost W A}.
Implicit Types (b : Bridge W A) (o : Owner A) (e : Env W A).

Lemma changed_at b e e' change b' :
  later (world e) (world e') -> wire e' = wire e -> effect (set_env e' b) change b' ->
  changed b e change (Ok tt) b'.
Proof. intros. by exists e'. Qed.

Lemma changed_repeated b e e' change :
  later (world e) (world e') -> wire e' = wire e -> changed b e change (Ok tt) (set_env e' b).
Proof. intros. by eapply changed_at, effect_repeated. Qed.

Lemma is_pending_some tx b :
  is_pending tx b = true -> exists c, pending b = Some c /\ p_transaction c = tx.
Proof.
  unfold is_pending. destruct (pending b) as [c|]; [|done]. intros H%bool_decide_eq_true. eauto.
Qed.

Lemma map_err_ok {E F T} (f : E -> F) (r : Result E T) v : map_err f r = Ok v -> r = Ok v.
Proof. by destruct r; intros [= ->]. Qed.

Lemma prepare_changed b e tx p a :
  wp (prepare_owner tx p a) (changed b e (PrepareOwner tx p a)) (set_env e b).
Proof.
  unfold prepare_owner, prepare_new. bridge_paths; [by apply changed_repeated|].
  bool_guards. eapply changed_at; [| |by apply effect_prepare]; chain.
Qed.

Lemma commit_changed b e tx : wp (commit_owner tx) (changed b e (CommitOwner tx)) (set_env e b).
Proof.
  unfold commit_owner. bridge_paths; [by apply changed_repeated|].
  bool_guards. eapply changed_at; [| |apply effect_commit]; try chain; try done.
  - unfold is_pending in *. simpl in *. by simplify_option_eq.
  - intros o Ho. simpl in *. rewrite Ho in *. bool_guards. unfold pending_packets in *.
    apply nil_length_inv. lia.
Qed.

Lemma finish_changed b e tx :
  wp (finish_owner_drain tx) (changed b e (FinishOwnerDrain tx)) (set_env e b).
Proof.
  unfold finish_owner_drain. bridge_paths.
  - bool_guards. subst. eapply changed_at; [| |apply (effect_drained (set_env e' b) tx o)]; try chain; try done.
    + by eapply map_err_ok.
    + match goal with H : forall v, Ok false = Ok v -> _ |- _ => by apply H end.
  - bool_guards. eapply changed_at; [| |by apply (effect_nothing_retained (set_env e b) tx)]; chain.
Qed.

Lemma failure_changed b e tx :
  wp (retire_owner_after_failure tx) (changed b e (RetireOwnerAfterFailure tx)) (set_env e b).
Proof.
  unfold retire_owner_after_failure. bridge_paths. bool_guards.
  eapply changed_at; [| |by apply effect_failed]; chain.
Qed.

Lemma abort_changed b e tx : wp (abort_owner tx) (changed b e (AbortOwner tx)) (set_env e b).
Proof.
  unfold abort_owner. bridge_paths; [|by apply changed_repeated].
  destruct (is_pending_some tx (set_env e b)) as (c & Hc & Ht); [done|].
  eapply changed_at; [| |by eapply effect_abort]; chain.
Qed.

Lemma attach_changed b e p d a change :
  change = Attach p d /\ a = None \/ (exists a', change = AttachAuthorized p d a' /\ a = Some a') ->
  wp (attach_owner p d a) (changed b e change) (set_env e b).
Proof.
  intros Ha. unfold attach_owner. bridge_paths. bool_guards.
  eapply changed_at; [| |by eapply effect_attach]; chain.
Qed.

Lemma renew_changed b e epoch policy d :
  wp (renew_owner epoch policy d) (changed b e (Renew epoch policy d)) (set_env e b).
Proof.
  unfold renew_owner. bridge_paths. bool_guards.
  eapply changed_at; [| |apply effect_renew]; try chain; try done.
  intros cap Hcap. rewrite Hcap in *. by bool_guards.
Qed.

Lemma revoke_changed b e epoch : wp (revoke_owner epoch) (changed b e (Revoke epoch)) (set_env e b).
Proof.
  unfold revoke_owner. bridge_paths. bool_guards.
  eapply changed_at; [| |by apply effect_revoke]; chain.
Qed.

(** Every change: an effect, or a refusal without one. *)
Lemma change_changed b change :
  wp (apply_change change) (changed b (env b) change) b.
Proof.
  rewrite <- (set_env_id b) at 3. destruct change; simpl.
  - apply prepare_changed.
  - apply commit_changed.
  - apply finish_changed.
  - apply failure_changed.
  - apply abort_changed.
  - unfold probe_transaction. bridge_paths. by apply changed_repeated.
  - apply attach_changed. by left.
  - apply attach_changed. right. eauto.
  - apply renew_changed.
  - apply revoke_changed.
  - bridge_paths. by apply changed_repeated.
Qed.
End Effects.

(** ** What an event does *)

Section Moves.
Context {W A : Type} `{!PacketHost W A}.
Implicit Types (b : Bridge W A).

(** The kinds of change that events make to the state of the actor. *)
Inductive moved b : Bridge W A -> Prop :=
| moved_clock e :
    later (world (env b)) (world e) -> wire e = wire (env b) -> moved b (set_env e b)
| moved_stop r : moved b (stop_bridge r b)
| moved_joined i : moved b (joined i b)
| moved_revoke : moved b (revoke b)
| moved_force : moved b (force_retained b)
| moved_drop phase : phase = Aborted \/ phase = Expired -> moved b (drop_candidate phase b)
| moved_failed : moved b (set_retained None false true b)
| moved_turn x d o o' e :
    owner_at x b = Some o -> turn d o (env b) o' e -> moved b (put_owner x o' (set_env e b)).

Definition moves : Bridge W A -> Bridge W A -> Prop := rtc moved.

Lemma expired_moved d b fired b' : expired d b = (fired, b') -> moved b b'.
Proof.
  unfold expired. destruct d as [d|].
  - destruct (timer d (env b)) as [t e] eqn:E. intros [= _ <-].
    apply timer_later in E as (? & ? & _). by constructor.
  - intros [= _ <-]. rewrite <- (set_env_id b) at 2. by constructor.
Qed.

Lemma fired_moves d b (f : Bridge W A -> Bridge W A) :
  (forall b', moved b' (f b')) ->
  moves b (let '(fired, b) := expired d b in if fired then f b else b).
Proof.
  intros Hf. destruct (expired d b) as [fired b'] eqn:E. apply expired_moved in E.
  destruct fired; [eapply rtc_l; [done|by apply rtc_once]|by apply rtc_once].
Qed.

Lemma packet_moves x d packet capacity b : moves b (packet_event x d packet capacity b).
Proof.
  unfold packet_event. destruct (owner_at x b) as [o|] eqn:Ex; [|apply rtc_refl].
  destruct (enqueue d packet capacity o (env b)) as [o' e] eqn:E. apply enqueue_turn in E.
  apply rtc_once. by eapply moved_turn.
Qed.

Lemma event_moves b ev : moves b (bridge_event ev b).
Proof.
  unfold bridge_event. destruct (stopped b); [apply rtc_refl|].
  destruct ev as [|i| | | |d| | |packet capacity| |x packet capacity|x|x d|x d]; simpl.
  - apply rtc_once. constructor.
  - apply rtc_once. constructor.
  - apply fired_moves. constructor.
  - apply fired_moves. constructor.
  - apply fired_moves. constructor. by right.
  - unfold owner_failed. destruct (owner b ≫= task_failure d) as [error|]; [|apply rtc_refl].
    apply rtc_once. destruct d, error; constructor.
  - unfold candidate_failed. destruct (_ ≫= _) as [[]|]; try apply rtc_refl; apply rtc_once;
      constructor; by left.
  - unfold retained_failed. destruct (_ ≫= _) as [[]|]; try apply rtc_refl; apply rtc_once; constructor.
  - apply packet_moves.
  - apply rtc_once. constructor.
  - destruct (reads_port x); [apply packet_moves|apply rtc_refl].
  - destruct x; simpl; [| |apply rtc_once; constructor; by left|apply rtc_refl].
    + apply rtc_once. constructor.
    + destruct (retained b); [apply rtc_once; constructor|apply rtc_refl].
  - unfold writer_event. destruct (owner_at x b) as [o|] eqn:Ex; [|apply rtc_refl].
    destruct (writer_turn d o (env b)) as [o' e] eqn:E. apply writer_turn_turn in E.
    apply rtc_once. by eapply moved_turn.
  - unfold abort_event. destruct (owner_at x b) as [o|] eqn:Ex; [|apply rtc_refl].
    rewrite <- (set_env_id b) at 2. apply rtc_once.
    eapply moved_turn; [done|]. apply writer_aborts_turn.
Qed.
End Moves.
