(* ===== verification/PortManagerInv.v ===== *)
(** * The packet port manager: its invariant

    What holds of the state of the actor between any two of its steps. *)
From stdpp Require Import base tactics list sorting numbers option gmap strings.
From Stdlib Require Import ZArith Lia.
From S2P Require Import Prelude PacketPort PacketPortFacts PortManager PortManagerFacts.

#[local] Open Scope Z_scope.

Section Invariant.
Context {W A : Type} `{!PacketHost W A}.
Implicit Types (b : Bridge W A) (o : Owner A) (e : Env W A) (s : Sent A) (c : PendingOwner A).

(** One step of the actor, or of the rest of the world. *)
Inductive manager_step b : Bridge W A -> Prop :=
| step_event ev : manager_step b (bridge_event ev b)
| step_update change : stopped b = None -> manager_step b (bridge_update change b).2
| step_elsewhere w : manager_step b (set_env (mkEnv w (wire (env b))) b).

Definition manager_reachable b : Prop := exists infra w, rtc manager_step (new_bridge infra w) b.

(** ** Owners by their place *)

Definition epoch_of o : Z := owner_epoch (binding_of o).
Definition policy_of o : Z := policy_generation (binding_of o).

Definition current_ok o (epoch policy : Z) : Prop :=
  epoch_of o = epoch /\ policy_of o = policy /\ fence o = true /\ inbound_fence o = true /\
  deadline o = auth_deadline o /\
  match transaction_cap o with Some cap => auth_deadline o <= cap | None => True end.

Definition retained_ok o (epoch : Z) : Prop :=
  epoch_of o < epoch /\ fence o = false /\ queue (to_worker o) = [] /\
  deadline o = auth_deadline o /\
  match transaction_cap o with Some cap => auth_deadline o <= cap | None => True end.

Definition candidate_ok c (revision : Z) : Prop :=
  let o := p_owner c in
  let tx := p_transaction c in
  binding_of o = tx_binding tx /\ fence o = true /\ inbound_fence o = true /\
  deadline o = prepare_deadline tx /\ auth_deadline o = prepare_deadline tx /\
  transaction_cap o = Some (tx_auth_deadline tx) /\ authorization o = Some (p_authorization c) /\
  prepare_deadline tx <= tx_auth_deadline tx /\ queue (to_worker o) = [] /\
  PortManager.revision tx = revision.

Definition retired_ok o : Prop := fence o = false /\ inbound_fence o = false.

Definition last_ok (l : OwnerTransactionReceipt) (pending : bool) (revision epoch : Z) : Prop :=
  r_phase l <> Prepared /\
  PortManager.revision (r_transaction l) <= revision /\
  (pending = true -> PortManager.revision (r_transaction l) < revision) /\
  (r_phase l = Committed -> owner_epoch (tx_binding (r_transaction l)) <= epoch).

(** ** The wire *)

Definition is_outbound s : bool := match sent_target s with ToPort _ => true | ToTun => false end.
Definition sent_epoch s : Z := owner_epoch (sent_owner s).
Definition outbound (l : list (Sent A)) : list (Sent A) := filter (fun s => is_outbound s = true) l.

(** A later packet is of no earlier epoch, and an epoch has one owner and one port. *)
Definition after s s' : Prop :=
  sent_epoch s <= sent_epoch s' /\
  (sent_epoch s = sent_epoch s' -> sent_owner s = sent_owner s' /\ sent_target s = sent_target s').

Definition wire_ok (l : list (Sent A)) (epoch : Z) (own : option (Owner A)) : Prop :=
  StronglySorted after (outbound l) /\
  (forall s, s ∈ outbound l -> sent_epoch s <= epoch /\
     (sent_epoch s = epoch -> forall o, own = Some o ->
        sent_owner s = binding_of o /\ sent_target s = ToPort (port o))).

Record bridge_ok b : Prop := {
  bo_owner o : owner b = Some o ->
    current_ok o (highest_owner_epoch b) (highest_policy_generation b);
  bo_retained o : retained b = Some o -> retained_ok o (highest_owner_epoch b);
  bo_pending c : pending b = Some c ->
    candidate_ok c (highest_transaction_revision b) /\ retained b = None;
  bo_retired : Forall retired_ok (retired b);
  bo_last l : last_transaction b = Some l ->
    last_ok l (bool_decide (is_Some (pending b))) (highest_transaction_revision b)
      (highest_owner_epoch b);
  bo_outputs x o : owner_at x b = Some o -> outputs_ok o (wire (env b));
  bo_wire : wire_ok (wire (env b)) (highest_owner_epoch b) (owner b);
  bo_drain : is_Some (retained b) -> old_owner_drained b = false /\ forced_retirement b = false;
  bo_stopped : is_Some (stopped b) -> owner b = None /\ retained b = None /\ pending b = None;
}.

Lemma new_bridge_ok infra w : bridge_ok (new_bridge infra w).
Proof.
  constructor; simpl; try done.
  - intros [| | |i] o; simpl; try done.
  - split; [constructor|]. intros s Hs. by apply elem_of_nil in Hs.
Qed.

(** ** The setters *)

Lemma ok_env b e : bridge_ok b -> wire e = wire (env b) -> bridge_ok (set_env e b).
Proof.
  intros [H1 H2 H3 H4 H5 H6 H7 H8 H9] Hw. constructor; by simpl; rewrite ?Hw.
Qed.

Lemma ok_owner_none b : bridge_ok b -> bridge_ok (set_owner None b).
Proof.
  intros [H1 H2 H3 H4 H5 H6 [H7 H7'] H8 H9]. constructor; simpl; try done.
  - intros [| | |i] o; [done|apply (H6 AtRetained)|apply (H6 AtCandidate)|apply (H6 (AtRetired i))].
  - split; [done|]. intros s Hs. split; [by apply H7'|done].
  - intros Hs. by destruct (H9 Hs) as (_ & ? & ?).
Qed.

Lemma ok_retained_none b drained forced :
  bridge_ok b -> bridge_ok (set_retained None drained forced b).
Proof.
  intros [H1 H2 H3 H4 H5 H6 H7 H8 H9]. constructor; simpl; try done.
  - intros c Hc. split; [by apply H3|done].
  - intros [| | |i] o; [apply (H6 AtOwner)|done|apply (H6 AtCandidate)|apply (H6 (AtRetired i))].
  - intros Hs. by destruct (H9 Hs) as (? & _ & ?).
Qed.

Lemma ok_retained_some b o :
  bridge_ok b -> pending b = None -> stopped b = None ->
  retained_ok o (highest_owner_epoch b) -> outputs_ok o (wire (env b)) ->
  bridge_ok (set_retained (Some o) false false b).
Proof.
  intros [H1 H2 H3 H4 H5 H6 H7 H8 H9] Hp Hs Hr Ho. constructor; simpl; try done.
  - by intros o' [= <-].
  - intros c Hc. congruence.
  - intros [| | |i] o'; [apply (H6 AtOwner)|by intros [= <-]|apply (H6 AtCandidate)|apply (H6 (AtRetired i))].
  - rewrite Hs. by intros [].
Qed.

Lemma ok_pending_none b : bridge_ok b -> bridge_ok (set_pending None b).
Proof.
  intros [H1 H2 H3 H4 H5 H6 H7 H8 H9]. constructor; simpl; try done.
  - intros l Hl. by destruct (H5 l Hl) as (? & ? & ? & ?).
  - intros [| | |i] o; [apply (H6 AtOwner)|apply (H6 AtRetained)|done|apply (H6 (AtRetired i))].
  - intros Hs. by destruct (H9 Hs) as (? & ? & _).
Qed.

Lemma ok_pending_some b c revision :
  bridge_ok b -> stopped b = None -> retained b = None ->
  highest_transaction_revision b < revision -> candidate_ok c revision ->
  outputs_ok (p_owner c) (wire (env b)) ->
  bridge_ok (set_pending (Some c) (set_revision revision b)).
Proof.
  intros [H1 H2 H3 H4 H5 H6 H7 H8 H9] Hs Hret Hr Hc Ho. constructor; simpl; try done.
  - by intros c' [= <-].
  - intros l Hl. destruct (H5 l Hl) as (? & ? & ? & ?). split_and!; [done|lia|lia|done].
  - intros [| | |i] o; [apply (H6 AtOwner)|apply (H6 AtRetained)|by intros [= <-]|apply (H6 (AtRetired i))].
  - rewrite Hs. by intros [].
Qed.

Lemma ok_last b tx phase :
  bridge_ok b -> phase <> Prepared -> pending b = None ->
  PortManager.revision tx <= highest_transaction_revision b ->
  (phase = Committed -> owner_epoch (tx_binding tx) <= highest_owner_epoch b) ->
  bridge_ok (set_last (mkReceipt tx phase) b).
Proof.
  intros [H1 H2 H3 H4 H5 H6 H7 H8 H9] Hp Hn Hr He. constructor; simpl; try done.
  intros l [= <-]. split_and!; try done. rewrite Hn, bool_decide_eq_false_2; [done|by intros []].
Qed.

(** A cancelled output has the same packets. *)
Lemma outputs_ok_cancelled o o' l :
  port o' = port o -> deadline o' = deadline o ->
  (forall d, direction_output d o' = direction_output d o \/
             direction_output d o' = cancel (direction_output d o)) ->
  outputs_ok o l -> outputs_ok o' l.
Proof.
  intros Hp Hdl Hd [Ha H]. split.
  { intros d captured t changed Hs. rewrite Hdl. apply (Ha d).
    destruct (Hd d) as [E|E]; by rewrite E in Hs. }
  intros d. destruct (H d) as (log & H1 & H2). exists log. split.
  - destruct (Hd d) as [->| ->]; [done|by apply output_cancel].
  - assert (carried_packets d o' l = carried_packets d o l) as ->; [|done].
    unfold carried_packets. f_equal. apply list_filter_iff. intros s.
    unfold carried, binding_of. destruct d; simpl; by rewrite Hp.
Qed.

(** A new deadline: the pending attempts know that it was set. *)
Lemma outputs_ok_deadline o t l : outputs_ok o l -> outputs_ok (set_deadline t o) l.
Proof.
  intros [Ha H]. split.
  - intros d captured entered changed Hs.
    assert (Hp : changed = true /\ exists ch, sending (direction_output d o) = Pending captured entered ch).
    { assert (Hs' : sending (deadline_set (direction_output d o)) = Pending captured entered changed)
        by (by destruct d).
      revert Hs'. unfold deadline_set. destruct (sending (direction_output d o)) eqn:E; simpl;
        rewrite ?E; intros [= <- <- <-]. eauto. }
    destruct Hp as [-> [ch Hp]]. destruct (Ha _ _ _ _ Hp). done.
  - intros d. destruct (H d) as (log & H1 & H2). exists log. split; [|by destruct d].
    destruct d; by apply output_deadline_set.
Qed.

Lemma ok_retire b o : bridge_ok b -> outputs_ok o (wire (env b)) -> bridge_ok (retire o b).
Proof.
  intros [H1 H2 H3 H4 H5 H6 H7 H8 H9] Ho. constructor; simpl; try done.
  - apply Forall_app. split; [done|]. by constructor.
  - intros [| | |i] o'; [apply (H6 AtOwner)|apply (H6 AtRetained)|apply (H6 AtCandidate)|].
    simpl. intros [Hi|[_ Hi]]%lookup_app_Some; [by apply (H6 (AtRetired i))|].
    apply list_lookup_singleton_Some in Hi as [_ <-].
    apply (outputs_ok_cancelled o); [done..| |done]. intros []; by right.
Qed.

Lemma ok_retired_delete b i : bridge_ok b -> bridge_ok (set_retired (delete i (retired b)) b).
Proof.
  intros [H1 H2 H3 H4 H5 H6 H7 H8 H9]. constructor; simpl; try done.
  - by apply Forall_delete.
  - intros [| | |j] o; [apply (H6 AtOwner)|apply (H6 AtRetained)|apply (H6 AtCandidate)|].
    simpl. intros Hj. assert (Hin : o ∈ retired b).
    { eapply list_elem_of_lookup_2 in Hj. rewrite list_elem_of_lookup in *.
      destruct Hj as [k Hk]. destruct (decide (k < i)%nat).
      - rewrite list_lookup_delete_lt in Hk by done. eauto.
      - rewrite list_lookup_delete_ge in Hk by lia. eauto. }
    apply list_elem_of_lookup in Hin as [k Hk]. by apply (H6 (AtRetired k)).
Qed.

(** A new owner of a higher epoch, where there was none. *)
Lemma ok_new_owner b o :
  bridge_ok b -> stopped b = None -> highest_owner_epoch b < epoch_of o ->
  current_ok o (epoch_of o) (policy_of o) -> outputs_ok o (wire (env b)) ->
  bridge_ok (set_owner (Some o) (set_highest (epoch_of o) (policy_of o) b)).
Proof.
  intros [H1 H2 H3 H4 H5 H6 [H7 H7'] H8 H9] Hs He Hc Ho. constructor; simpl; try done.
  - by intros o' [= <-].
  - intros o' Hr. destruct (H2 o' Hr) as (? & ?). split; [lia|done].
  - intros l Hl. destruct (H5 l Hl) as (? & ? & ? & Hp). split_and!; try done. intros E.
    pose proof (Hp E). lia.
  - intros [| | |i] o'; [by intros [= <-]|apply (H6 AtRetained)|apply (H6 AtCandidate)|apply (H6 (AtRetired i))].
  - split; [done|]. intros s Hin. destruct (H7' s Hin) as [Hle _]. split; [lia|lia].
  - rewrite Hs. by intros [].
Qed.

(** ** Turns *)

Lemma outbound_app l k : outbound (l ++ k) = outbound l ++ outbound k.
Proof. apply filter_app. Qed.

Lemma outbound_of_inbound o packet t : outbound [sent_by Inbound o packet t] = [].
Proof. unfold outbound. by rewrite filter_cons_False, filter_nil. Qed.

Lemma outbound_of_outbound o packet t :
  outbound [sent_by Outbound o packet t] = [sent_by Outbound o packet t].
Proof. unfold outbound. by rewrite filter_cons_True, filter_nil. Qed.

Lemma wire_ok_inbound l o packet t epoch own :
  wire_ok l epoch own -> wire_ok (l ++ [sent_by Inbound o packet t]) epoch own.
Proof.
  unfold wire_ok. by rewrite outbound_app, outbound_of_inbound, app_nil_r.
Qed.

Lemma wire_ok_outbound l o packet t :
  wire_ok l (epoch_of o) (Some o) ->
  wire_ok (l ++ [sent_by Outbound o packet t]) (epoch_of o) (Some o).
Proof.
  unfold wire_ok. rewrite outbound_app, outbound_of_outbound. intros [H1 H2]. split.
  - apply StronglySorted_app. split_and!; [|done|by repeat constructor].
    intros s1 s2 Hs1 ->%list_elem_of_singleton. destruct (H2 s1 Hs1) as [Hle Heq]. split; [done|].
    intros E. by apply (Heq E o).
  - intros s [Hs| ->%list_elem_of_singleton]%elem_of_app; [by apply H2|].
    split; [done|]. by intros _ o' [= <-].
Qed.

(** A turn of an owner keeps what its place demands. *)
Lemma current_same o o' epoch policy :
  same_owner o o' -> current_ok o epoch policy -> current_ok o' epoch policy.
Proof.
  intros (Hp & Ha & Hc & Hd & _ & Hf & Hi). unfold current_ok, epoch_of, policy_of, binding_of.
  by rewrite Hp, Ha, Hc, Hd, Hf, Hi.
Qed.

Lemma retained_same o o' epoch :
  same_owner o o' -> (queue (to_worker o) = [] -> queue (to_worker o') = []) ->
  retained_ok o epoch -> retained_ok o' epoch.
Proof.
  intros (Hp & Ha & Hc & Hd & _ & Hf & Hi) Hw (? & ? & Hq & ?). unfold retained_ok, epoch_of, binding_of.
  rewrite Hp, Ha, Hc, Hd, Hf. by rewrite Hw.
Qed.

Lemma candidate_same c o' revision :
  same_owner (p_owner c) o' ->
  (queue (to_worker (p_owner c)) = [] -> queue (to_worker o') = []) -> candidate_ok c revision ->
  candidate_ok (mkPending (p_transaction c) o' (p_authorization c)) revision.
Proof.
  intros (Hp & Ha & Hc & Hd & Hau & Hf & Hi) Hw. unfold candidate_ok, binding_of. simpl.
  rewrite Hp, Ha, Hc, Hd, Hau, Hf, Hi. intros (? & ? & ? & ? & ? & ? & ? & ? & Hq & ?).
  by rewrite Hw.
Qed.

Lemma retired_same o o' : same_owner o o' -> retired_ok o -> retired_ok o'.
Proof. intros (_ & _ & _ & _ & _ & Hf & Hi). unfold retired_ok. by rewrite Hf, Hi. Qed.

(** Which turns can send, and what the wire becomes. *)
Lemma turn_wire_ok b x d o o' e' :
  bridge_ok b -> owner_at x b = Some o -> turn d o (env b) o' e' ->
  (x = AtOwner \/ d = Inbound \/ (exists i, x = AtRetired i) \/ wire e' = wire (env b)) ->
  wire_ok (wire e') (highest_owner_epoch b)
    (match x with AtOwner => Some o' | _ => owner b end).
Proof.
  intros Hb Hx [Hs Hl Ht Hw _ Ho] Hplace.
  assert (Hok : attempts_ok o) by (by eapply bo_outputs).
  assert (Hkeep : wire_ok (wire (env b)) (highest_owner_epoch b)
    (match x with AtOwner => Some o' | _ => owner b end)).
  { destruct (bo_wire b Hb) as [H1 H2]. destruct x; [|done..]. split; [done|].
    intros s Hin. destruct (H2 s Hin) as [Hle Heq]. split; [done|]. intros E o'' [= <-].
    destruct Hs as (Hp & _). unfold binding_of. rewrite Hp. by apply Heq. }
  destruct Hw as [->|(packet & t & Hw & Hg & _)]; [done|].
  destruct Hplace as [->|[->|[[i ->]| ->]]]; [|by rewrite Hw; apply wire_ok_inbound| |done];
    rewrite Hw; (destruct d; [|by apply wire_ok_inbound]); simpl in Hx.
  2:{ destruct (Forall_lookup_1 retired_ok _ _ _ (bo_retired b Hb) Hx) as [Hf _].
      pose proof (gate_fence _ _ _ _ _ (Hg Hok)). simpl in *. congruence. }
  destruct (bo_owner b Hb o Hx) as (He & _).
  assert (Hsb : sent_by Outbound o packet t = sent_by Outbound o' packet t).
  { destruct Hs as (Hp & _ & _ & Hd & Ha & _). unfold sent_by, binding_of. simpl. by rewrite Hp, Hd, Ha. }
  assert (He' : highest_owner_epoch b = epoch_of o').
  { destruct Hs as (Hp & _). rewrite <- He. unfold epoch_of, binding_of. by rewrite Hp. }
  rewrite Hsb. rewrite He' in *. by apply wire_ok_outbound.
Qed.

Lemma turn_grows d o e o' e' : turn d o e o' e' -> exists k, wire e' = wire e ++ k.
Proof.
  intros [_ _ _ [->|(packet & t & -> & _)] _ _]; [exists []; by rewrite app_nil_r|eauto].
Qed.

Lemma ok_turn b x d o o' e' :
  bridge_ok b -> stopped b = None -> owner_at x b = Some o -> turn d o (env b) o' e' ->
  (x = AtOwner \/ d = Inbound \/ (exists i, x = AtRetired i) \/ wire e' = wire (env b)) ->
  (x = AtOwner \/ (queue (to_worker o) = [] -> queue (to_worker o') = [])) ->
  bridge_ok (put_owner x o' (set_env e' b)).
Proof.
  intros Hb Hstop Hx Ht Hplace Hidle. pose proof (turn_wire_ok b x d o o' e' Hb Hx Ht Hplace) as Hwire.
  destruct (turn_grows _ _ _ _ _ Ht) as [k Hk].
  assert (Hout : forall y o'', owner_at y b = Some o'' -> outputs_ok o'' (wire e')).
  { intros y o'' Hy. rewrite Hk. by eapply outputs_ok_grow, bo_outputs. }
  assert (Hnew : outputs_ok o' (wire e')) by (eapply turn_outputs; [done|by eapply bo_outputs]).
  pose proof (turn_same _ _ _ _ _ Ht) as Hsame.
  destruct Hb as [H1 H2 H3 H4 H5 H6 H7 H8 H9].
  destruct x; simpl in *.
  - constructor; simpl; try done.
    + intros o'' [= <-]. by eapply current_same, H1.
    + intros [| | |i] o''; [by intros [= <-]|apply (Hout AtRetained)|apply (Hout AtCandidate)|apply (Hout (AtRetired i))].
    + rewrite Hstop. by intros [].
  - destruct Hidle as [|Hidle]; [done|]. constructor; simpl; try done.
    + intros o'' [= <-]. eapply retained_same; [done|done|by apply H2].
    + intros c Hc. destruct (H3 c Hc). congruence.
    + intros [| | |i] o''; [apply (Hout AtOwner)|by intros [= <-]|apply (Hout AtCandidate)|apply (Hout (AtRetired i))].
    + intros _. by apply H8.
    + rewrite Hstop. by intros [].
  - destruct Hidle as [|Hidle]; [done|].
    destruct (pending b) as [c|] eqn:Ec; [|done]. simpl in Hx. injection Hx as <-.
    destruct (H3 c eq_refl) as [Hc1 Hc2]. constructor; simpl; try done.
    + intros c' [= <-]. split; [|done]. by apply candidate_same.
    + intros [| | |i] o''; [apply (Hout AtOwner)|apply (Hout AtRetained)|by intros [= <-]|apply (Hout (AtRetired i))].
    + rewrite Hstop. by intros [].
  - constructor; simpl; try done.
    + apply Forall_insert; [done|]. eapply retired_same; [done|]. by eapply Forall_lookup_1.
    + intros [| | |j] o''; [apply (Hout AtOwner)|apply (Hout AtRetained)|apply (Hout AtCandidate)|].
      simpl. intros [(-> & <- & _)|[_ Hj]]%list_lookup_insert_Some; [done|by apply (Hout (AtRetired j))].
Qed.

(** The outbound queues of the retained owner and of the candidate are empty. *)
Lemma outbound_idle b x o :
  bridge_ok b -> owner_at x b = Some o ->
  x = AtOwner \/ (exists i, x = AtRetired i) \/ queue (to_worker o) = [].
Proof.
  intros Hb Hx. destruct x as [| | |i]; simpl in Hx; [by left| | |eauto].
  - right; right. by apply (bo_retained b Hb).
  - right; right. destruct (pending b) as [c|] eqn:Ec; [|done]. injection Hx as <-.
    apply (bo_pending b Hb c Ec).
Qed.

Lemma put_owner_same b x o : owner_at x b = Some o -> put_owner x o b = b.
Proof.
  destruct b as [? ow ? ? ? pe ? ? ? ? re ? ?], x as [| | |i]; simpl; unfold set_owner, set_retained, set_retired; simpl.
  - by intros ->.
  - by intros ->.
  - destruct pe as [[]|]; [|done]. by intros [= ->].
  - intros H. by rewrite list_insert_id.
Qed.

Lemma env_of_same e e' : world e' = world e -> wire e' = wire e -> e' = e.
Proof. by destruct e, e'; simpl; intros -> ->. Qed.

Lemma writer_event_ok b x d : bridge_ok b -> stopped b = None -> bridge_ok (writer_event x d b).
Proof.
  intros Hb Hs. unfold writer_event. destruct (owner_at x b) as [o|] eqn:Ex; [|done].
  destruct (writer_turn d o (env b)) as [o' e'] eqn:E.
  assert (Hidle : d = Outbound -> queue (to_worker o) = [] -> o' = o /\ e' = env b).
  { intros -> Hq. by apply (writer_turn_empty Outbound o (env b)). }
  pose proof (writer_turn_turn d o _ _ _ E) as Ht.
  apply (ok_turn b x d o); [done..| |].
  - destruct (outbound_idle b x o Hb Ex) as [->|[Hr|Hq]]; [by left|by do 2 right; left|].
    destruct d; [|by right; left]. destruct (Hidle eq_refl Hq) as [_ ->]. by do 3 right.
  - right. intros Hq. destruct d; [by destruct (Hidle eq_refl Hq) as [-> _]|].
    pose proof (turn_other _ _ _ _ _ Ht Outbound) as Hother. simpl in Hother. by rewrite Hother.
Qed.

Lemma abort_event_ok b x d : bridge_ok b -> stopped b = None -> bridge_ok (abort_event x d b).
Proof.
  intros Hb Hs. unfold abort_event. destruct (owner_at x b) as [o|] eqn:Ex; [|done].
  pose proof (writer_aborts_turn d o (env b)) as Ht. rewrite <- (set_env_id b) at 1.
  apply (ok_turn b x d o); [done..|by do 3 right|]. right. intros Hq.
  destruct d; [by apply (writer_aborts_empty Outbound)|].
  pose proof (turn_other _ _ _ _ _ Ht Outbound) as Hother. simpl in Hother. by rewrite Hother.
Qed.

Lemma packet_event_ok b x d packet capacity :
  bridge_ok b -> stopped b = None -> x = AtOwner \/ d = Inbound ->
  bridge_ok (packet_event x d packet capacity b).
Proof.
  intros Hb Hs Hx. unfold packet_event. destruct (owner_at x b) as [o|] eqn:Ex; [|done].
  destruct (enqueue d packet capacity o (env b)) as [o' e'] eqn:E.
  pose proof (enqueue_turn _ _ _ _ _ _ _ E) as Ht.
  apply (ok_turn b x d o); [done..| |].
  - destruct Hx as [->| ->]; [by left|by right; left].
  - destruct Hx as [->| ->]; [by left|right].
    pose proof (turn_other _ _ _ _ _ Ht Outbound) as Hother. simpl in Hother. by rewrite Hother.
Qed.

(** ** The other events *)

Lemma bridge_revoke_ok b : bridge_ok b -> bridge_ok (revoke b).
Proof. apply ok_owner_none. Qed.

Lemma force_retained_ok b : bridge_ok b -> bridge_ok (force_retained b).
Proof.
  intros Hb. unfold force_retained. destruct (retained b) as [o|] eqn:E; [|done].
  apply ok_retained_none, ok_retire; [done|]. by apply (bo_outputs b Hb AtRetained).
Qed.

Lemma drop_candidate_ok b phase :
  bridge_ok b -> phase <> Prepared -> phase <> Committed -> bridge_ok (drop_candidate phase b).
Proof.
  intros Hb Hp Hc. unfold drop_candidate. destruct (pending b) as [c|] eqn:E; [|done].
  destruct (bo_pending b Hb c E) as [Hok _]. unfold candidate_ok in Hok.
  apply ok_last; [|done|done| |done].
  - apply ok_retire; [by apply ok_pending_none|]. apply (bo_outputs b Hb AtCandidate). simpl. by rewrite E.
  - simpl. destruct Hok as (_ & _ & _ & _ & _ & _ & _ & _ & _ & ->). lia.
Qed.

Lemma stop_bridge_ok b r : bridge_ok b -> bridge_ok (stop_bridge r b).
Proof.
  intros Hb. unfold stop_bridge.
  pose proof (ok_retained_none _ (old_owner_drained b) (forced_retirement b)
                (ok_pending_none _ (bridge_revoke_ok b Hb))) as [H1 H2 H3 H4 H5 H6 H7 H8 H9].
  by constructor; simpl; try done; intros [| | |i] o.
Qed.

Lemma expired_ok b d fired b' :
  bridge_ok b -> expired d b = (fired, b') -> bridge_ok b' /\ exists e, b' = set_env e b.
Proof.
  intros Hb. unfold expired. destruct d as [d|].
  - destruct (timer d (env b)) as [t e] eqn:E. intros [= _ <-].
    destruct (timer_later _ _ _ _ E) as (_ & Hw & _). split; [by apply ok_env|eauto].
  - intros [= _ <-]. split; [done|]. exists (env b). by rewrite set_env_id.
Qed.

Lemma bridge_event_ok b ev : bridge_ok b -> bridge_ok (bridge_event ev b).
Proof.
  intros Hb. unfold bridge_event. destruct (stopped b) eqn:Hs; [done|]. destruct ev; simpl.
  - by apply stop_bridge_ok.
  - by apply ok_retired_delete.
  - unfold owner_expires. destruct (expired _ b) as [[] b'] eqn:E; destruct (expired_ok _ _ _ _ Hb E);
      [by apply bridge_revoke_ok|done].
  - unfold retained_expires. destruct (expired _ b) as [[] b'] eqn:E; destruct (expired_ok _ _ _ _ Hb E);
      [by apply force_retained_ok|done].
  - unfold candidate_expires. destruct (expired _ b) as [[] b'] eqn:E; destruct (expired_ok _ _ _ _ Hb E);
      [by apply drop_candidate_ok|done].
  - unfold owner_failed. destruct (owner b ≫= task_failure d) as [x|]; [|done].
    destruct d, x; try (by apply bridge_revoke_ok); by apply stop_bridge_ok.
  - unfold candidate_failed. destruct (_ ≫= _) as [[]|]; [|by apply drop_candidate_ok| |done];
      by apply stop_bridge_ok.
  - unfold retained_failed. destruct (_ ≫= _) as [[]|]; [|by apply force_retained_ok| |done];
      by apply stop_bridge_ok.
  - apply packet_event_ok; [done|done|by left].
  - by apply stop_bridge_ok.
  - destruct (reads_port x); [|done]. apply packet_event_ok; [done|done|by right].
  - destruct x; simpl; [by apply bridge_revoke_ok| |by apply drop_candidate_ok|done].
    destruct (retained b); [by apply ok_retained_none|done].
  - by apply writer_event_ok.
  - by apply abort_event_ok.
Qed.

(** ** The changes *)

Lemma new_outputs_ok p d cap (a : option A) (l : list (Sent A)) : outputs_ok (Owner_new p d cap a) l.
Proof.
  split; [by intros [] ? ? ?|]. intros []; exists []; (split; [apply new_output_ok|apply sublist_nil_l]).
Qed.

Lemma bridge_install_ok b c tx :
  bridge_ok b -> stopped b = None -> pending b = Some c -> p_transaction c = tx ->
  stale_epoch (tx_binding tx) b = false ->
  (forall o, owner b = Some o -> queue (to_worker o) = []) -> bridge_ok (install c tx b).
Proof.
  intros Hb Hs Hc Htx Hst Hq. apply orb_false_iff in Hst as [He%Z.leb_gt Hp%Z.ltb_ge].
  destruct (bo_pending b Hb c Hc) as [(C1 & C2 & C3 & C4 & C5 & C6 & C7 & C8 & C9 & C10) Hret].
  rewrite Htx in *.
  set (o := set_deadline (tx_auth_deadline tx) (p_owner c)).
  assert (Hepoch : epoch_of o = owner_epoch (tx_binding tx)) by (unfold epoch_of, binding_of; simpl; by rewrite <- C1).
  assert (Hpolicy : policy_of o = policy_generation (tx_binding tx)) by (unfold policy_of, binding_of; simpl; by rewrite <- C1).
  set (b1 := set_retained None true false (set_owner None (set_pending None b))).
  assert (H1 : bridge_ok b1) by (by apply ok_retained_none, ok_owner_none, ok_pending_none).
  assert (Ho : outputs_ok o (wire (env b))).
  { apply outputs_ok_deadline, (bo_outputs b Hb AtCandidate). simpl. by rewrite Hc. }
  assert (H2 : bridge_ok (set_owner (Some o) (set_highest (epoch_of o) (policy_of o) b1))).
  { apply ok_new_owner; [done|done|simpl; lia| |done]. unfold current_ok, o. simpl.
    rewrite C2, C3, C6. by split_and!. }
  assert (H3 : bridge_ok (match owner b with
    | Some previous => set_retained (Some (fence_outbound previous)) false false
                         (set_owner (Some o) (set_highest (epoch_of o) (policy_of o) b1))
    | None => set_owner (Some o) (set_highest (epoch_of o) (policy_of o) b1)
    end)).
  { destruct (owner b) as [previous|] eqn:Eo; [|done].
    destruct (bo_owner b Hb previous Eo) as (P1 & P2 & P3 & P4 & P5 & P6).
    apply ok_retained_some; [done|done|done| |].
    - unfold retained_ok. simpl. unfold epoch_of, binding_of in *. simpl.
      split_and!; [rewrite C1, P1; lia|done|by apply Hq|done|done].
    - eapply (outputs_ok_cancelled previous); [done..|intros []; [by right|by left]|].
      by apply (bo_outputs b Hb AtOwner). }
  assert (E : install c tx b = set_last (mkReceipt tx Committed)
    (match owner b with
    | Some previous => set_retained (Some (fence_outbound previous)) false false
                         (set_owner (Some o) (set_highest (epoch_of o) (policy_of o) b1))
    | None => set_owner (Some o) (set_highest (epoch_of o) (policy_of o) b1)
    end)).
  { unfold install. rewrite Hepoch, Hpolicy. simpl. destruct (owner b); [done|]. by rewrite Hret. }
  rewrite E. apply ok_last; [done|done| | |]; destruct (owner b); simpl; try done; try lia.
Qed.

Lemma effect_ok b change b' :
  bridge_ok b -> stopped b = None -> effect b change b' -> bridge_ok b'.
Proof.
  intros Hb Hs [ | tx p a Hm Hp Hi Hr Hn Hret Ha Hst Hd | tx c Hc Htx Ha Hst Hq
    | tx previous Hl Hf Hr Hd Hi | tx Hl Hf Hr | tx Hl | tx c Hc Htx
    | p d a ? Hch Hm Hr Hst | ? ? d o Ho He Hcap | ? He ].
  - done.
  - apply ok_pending_some; [done..| |apply new_outputs_ok].
    unfold candidate_ok. simpl. by split_and!.
  - by apply bridge_install_ok.
  - apply ok_retained_none, ok_retire; [done|]. by apply (bo_outputs b Hb AtRetained).
  - by apply ok_retained_none.
  - apply ok_retained_none. destruct (retained b) as [o|] eqn:E; [|done].
    apply ok_retire; [done|]. by apply (bo_outputs b Hb AtRetained).
  - by apply drop_candidate_ok.
  - apply orb_false_iff in Hst as [He%Z.leb_gt Hp%Z.ltb_ge].
    set (b1 := match owner b with Some previous => retire previous b | None => b end).
    assert (H1 : bridge_ok (set_owner None b1)).
    { apply ok_owner_none. unfold b1. destruct (owner b) eqn:E; [|done].
      apply ok_retire; [done|]. by apply (bo_outputs b Hb AtOwner). }
    apply (ok_new_owner (set_owner None b1) (Owner_new p d None a)); [done| | |by split_and!|apply new_outputs_ok];
      unfold b1; destruct (owner b); done.
  - destruct (bo_owner b Hb o Ho) as (P1 & P2 & P3 & P4 & P5 & P6).
    destruct Hb as [H1 H2 H3 H4 H5 H6 [H7 H7'] H8 H9]. constructor; simpl; try done.
    + intros o' [= <-]. split_and!; try done. simpl. destruct (transaction_cap o); [|done]. by apply Hcap.
    + intros [| | |i] o'; [|apply (H6 AtRetained)|apply (H6 AtCandidate)|apply (H6 (AtRetired i))].
      intros [= <-]. by apply outputs_ok_deadline, (H6 AtOwner).
    + split; [done|]. intros s Hin. destruct (H7' s Hin) as [Hle Heq]. split; [done|].
      intros E o' [= <-]. by apply (Heq E o).
    + rewrite Hs. by intros [].
  - by apply force_retained_ok, bridge_revoke_ok.
Qed.

Lemma bridge_update_ok b change :
  bridge_ok b -> stopped b = None -> bridge_ok (bridge_update change b).2.
Proof.
  intros Hb Hs. unfold bridge_update. destruct (apply_change change b) as [r b'] eqn:E. simpl.
  pose proof (wp_run _ _ _ _ _ (change_changed b change) E) as (e & Hl & Hw & Hr).
  destruct r; [by eapply effect_ok, Hr; [apply ok_env|]|]. subst. by apply ok_env.
Qed.

Lemma manager_step_ok b b' : bridge_ok b -> manager_step b b' -> bridge_ok b'.
Proof.
  intros Hb [ev|change Hs|w].
  - by apply bridge_event_ok.
  - by apply bridge_update_ok.
  - by apply ok_env.
Qed.

Lemma manager_reachable_ok b : manager_reachable b -> bridge_ok b.
Proof.
  intros (infra & w & H). pose proof (new_bridge_ok infra w) as H0.
  induction H as [|b1 b2 b3 Hs _ IH]; [done|]. by eapply IH, manager_step_ok.
Qed.
End Invariant.
