(* ===== verification/PortManagerOwners.v ===== *)
(** * The packet port manager: what becomes of its owners

    The owners after a step are those before it, perhaps in another place, retired, fenced or
    with another deadline, and at most one new one. And the attempts to send that are pending
    in some state began in a step before it. *)
From stdpp Require Import base tactics list numbers option gmap strings.
From Stdlib Require Import ZArith Lia.
From S2P Require Import Prelude PacketPort PortManager PortManagerFacts PortManagerInv.

#[local] Open Scope Z_scope.

(** The owners of a state, place by place. *)
Ltac places :=
  let H := fresh in intros [| | |i] o'; simpl; intros H; simplify_eq;
  first [by exists AtOwner, o' | by exists AtRetained, o' | by exists AtCandidate, o'
        | by exists (AtRetired i), o'].

Section Continues.
Context {W A : Type} `{!PacketHost W A}.
Implicit Types (b : Bridge W A) (o : Owner A).

(** [R] relates an owner to what the actor itself may turn it into. *)
Class Continues (R : Owner A -> Owner A -> Prop) : Prop := {
  continues_order :: PreOrder R;
  continues_retired o : R o (retire_owner o);
  continues_fenced o : R o (fence_outbound o);
  continues_deadline t o : R o (set_deadline t o);
}.

Context (R : Owner A -> Owner A -> Prop) `{!Continues R}.

(** Every owner of [b'] continues one of [b]. *)
Definition kept b b' : Prop :=
  forall x' o', owner_at x' b' = Some o' -> exists x o, owner_at x b = Some o /\ R o o'.

Lemma owners_kept_refl b : kept b b.
Proof. intros x o H. by exists x, o. Qed.

Lemma owners_kept_trans b1 b2 b3 : kept b1 b2 -> kept b2 b3 -> kept b1 b3.
Proof.
  intros H1 H2 x o H. destruct (H2 x o H) as (x' & o' & H' & E).
  destruct (H1 x' o' H') as (y & p & Hp & F). exists y, p. split; [done|by etrans].
Qed.

(** An owner that retires. *)
Lemma kept_retire b b' x o :
  owner_at x b = Some o -> kept b b' -> kept b (retire o b').
Proof.
  intros Hx Hk [| | |i] o' H; [apply (Hk AtOwner)|apply (Hk AtRetained)|apply (Hk AtCandidate)|]; [done..|].
  simpl in H. apply lookup_app_Some in H as [H|[_ H]]; [by apply (Hk (AtRetired i))|].
  apply list_lookup_singleton_Some in H as [_ <-]. exists x, o. split; [done|apply continues_retired].
Qed.

Lemma kept_force b : kept b (force_retained b).
Proof.
  unfold force_retained. destruct (retained b) as [o|] eqn:E; [|apply owners_kept_refl].
  eapply owners_kept_trans; [by apply (kept_retire b b AtRetained o), owners_kept_refl|]. places.
Qed.

Lemma kept_drop b phase : kept b (drop_candidate phase b).
Proof.
  unfold drop_candidate. destruct (pending b) as [c|] eqn:E; [|apply owners_kept_refl].
  assert (H : kept b (retire (p_owner c) (set_pending None b))).
  { apply (kept_retire b _ AtCandidate); [by simpl; rewrite E|]. places. }
  eapply owners_kept_trans; [done|]. places.
Qed.

Lemma put_owner_at x y o p e b q :
  owner_at x b = Some o -> owner_at y (put_owner x p (set_env e b)) = Some q ->
  q = p \/ owner_at y b = Some q.
Proof.
  intros Hx H. destruct x as [| | |i]; simpl in *.
  - destruct y; simpl in *; simplify_eq; auto.
  - destruct y; simpl in *; simplify_eq; auto.
  - destruct (pending b) as [c|] eqn:Ec; [|done]. destruct y; simpl in *; simplify_eq; auto.
  - destruct y as [| | |j]; simpl in *; auto.
    apply list_lookup_insert_Some in H as [(_ & -> & _)|[_ H]]; auto.
Qed.

Lemma put_owner_env x o p e b :
  owner_at x b = Some o -> env (put_owner x p (set_env e b)) = e.
Proof. destruct x; simpl; [done|done| |done]. by destruct (pending b). Qed.

Lemma put_owner_here x o o' e b :
  owner_at x b = Some o -> owner_at x (put_owner x o' (set_env e b)) = Some o'.
Proof.
  destruct x as [| | |i]; simpl; [done|done| |].
  - by destruct (pending b).
  - intros H%lookup_lt_Some. by apply list_lookup_insert_eq.
Qed.

(** An owner after a move: one that continues, or one whose tasks had a turn. *)
Lemma moved_owner b b' x' o' :
  moved b b' -> owner_at x' b' = Some o' -> exists x o, owner_at x b = Some o /\
    (R o o' \/ exists d, turn d o (env b) o' (env b')).
Proof.
  assert (Hold : forall b', kept b b' -> forall x' o', owner_at x' b' = Some o' -> exists x o,
    owner_at x b = Some o /\ (R o o' \/ exists d, turn d o (env b) o' (env b'))).
  { intros b1 Hk y p Hy. destruct (Hk y p Hy) as (x & o & ? & ?). exists x, o. auto. }
  intros [e _ _|r|i| | |phase _| |x d o p e Hx Ht]; revert x' o'.
  - apply Hold. places.
  - intros [| | |i] o'; simpl; intros H; done.
  - apply Hold. intros [| | |j] o'; simpl; intros H;
      [by exists AtOwner, o'|by exists AtRetained, o'|by exists AtCandidate, o'|].
    rewrite list_lookup_delete in H. case_decide; by eexists (AtRetired _), o'.
  - apply Hold. places.
  - apply Hold, kept_force.
  - apply Hold, kept_drop.
  - apply Hold. places.
  - intros x' o' H. destruct (put_owner_at x x' o p e b o' Hx H) as [->|Hy].
    + exists x, o. split; [done|]. right. exists d. by rewrite (put_owner_env x o).
    + exists x', o'. split; [done|]. by left.
Qed.

(** If [R] covers the turns, whatever moves keeps the owners. *)
Lemma kept_moved b b' :
  (forall d o o' e e', turn d o e o' e' -> R o o') -> moved b b' -> kept b b'.
Proof.
  intros HR Hm x' o' H. destruct (moved_owner b b' x' o' Hm H) as (x & o & Hx & [Ho|[d Ht]]);
    exists x, o; eauto.
Qed.

Lemma kept_install b c tx : pending b = Some c -> kept b (install c tx b).
Proof.
  unfold install. intros Hc [| | |i] o'; simpl; intros H.
  - injection H as <-. exists AtCandidate, (p_owner c). simpl. rewrite Hc. split; [done|apply continues_deadline].
  - destruct (owner b) as [o|] eqn:Eo; simpl in H; [|by exists AtRetained, o'].
    injection H as <-. exists AtOwner, o. split; [done|apply continues_fenced].
  - by destruct (owner b).
  - exists (AtRetired i), o'. by destruct (owner b).
Qed.

(** The owner that a change brings. *)
Definition brings (change : PacketPortOwnerChange A) o : Prop :=
  match change with
  | PrepareOwner tx p a => o = Owner_new p (prepare_deadline tx) (Some (tx_auth_deadline tx)) (Some a)
  | Attach p d => o = Owner_new p d None None
  | AttachAuthorized p d a => o = Owner_new p d None (Some a)
  | _ => False
  end.

Lemma effect_kept b change b' :
  effect b change b' -> forall x' o', owner_at x' b' = Some o' ->
    (exists x o, owner_at x b = Some o /\ R o o') \/ brings change o'.
Proof.
  assert (Hold : forall b' change, kept b b' -> forall x' o', owner_at x' b' = Some o' ->
    (exists x o, owner_at x b = Some o /\ R o o') \/ brings change o')
    by (intros ? ? Hk ? ? ?; left; by eapply Hk).
  intros [ | tx p a Hm Hp Hi Hr Hn Hret Ha Hst Hd | tx c Hc Htx Ha Hst Hq
    | tx previous Hl Hf Hr Hd Hi | tx Hl Hf Hr | tx Hl | tx c Hc Htx
    | p d a ? Hch Hm Hr Hst | ? ? d o Ho He Hcap | ? He ].
  - apply Hold, owners_kept_refl.
  - intros [| | |i] o; simpl; intros E; [left; by exists AtOwner, o|left; by exists AtRetained, o| |
      left; by exists (AtRetired i), o]. right. by injection E.
  - by apply Hold, kept_install.
  - apply Hold. eapply owners_kept_trans;
      [apply (kept_retire b b AtRetained previous Hr), owners_kept_refl|places].
  - apply Hold. places.
  - apply Hold. destruct (retained b) as [previous|] eqn:E; [|places].
    eapply owners_kept_trans; [apply (kept_retire b b AtRetained previous E), owners_kept_refl|places].
  - by apply Hold, kept_drop.
  - set (b1 := match owner b with Some previous => retire previous b | None => b end).
    assert (H1 : kept b b1).
    { unfold b1. destruct (owner b) as [previous|] eqn:E; [|apply owners_kept_refl].
      apply (kept_retire b b AtOwner previous E), owners_kept_refl. }
    intros [| | |i] o; simpl; intros E;
      [right|left; by apply (H1 AtRetained)|left; by apply (H1 AtCandidate)|left; by apply (H1 (AtRetired i))].
    injection E as <-. by destruct Hch as [[-> ->]|(a' & -> & ->)].
  - intros [| | |i] o'; simpl; intros E; left;
      [|by exists AtRetained, o'|by exists AtCandidate, o'|by exists (AtRetired i), o'].
    injection E as <-. exists AtOwner, o. split; [done|apply continues_deadline].
  - apply Hold. eapply owners_kept_trans; [|apply kept_force]. places.
Qed.
End Continues.

(** ** Attempts to send that are pending *)

Section Attempts.
Context {W A : Type} `{!PacketHost W A}.
Implicit Types (b : Bridge W A) (o : Owner A).

(** What is pending at [o'] is pending at [o]. *)
Definition waits_on o o' : Prop := forall d captured t c',
  sending (direction_output d o') = Pending captured t c' ->
  exists c, sending (direction_output d o) = Pending captured t c.

#[export] Instance waits_on_continues : Continues waits_on.
Proof.
  constructor.
  - split; [by intros o d captured t c; exists c|].
    intros o1 o2 o3 H1 H2 d captured t c H. destruct (H2 _ _ _ _ H). by eapply H1.
  - intros o [] captured t c; by exists c.
  - intros o [] captured t c; by exists c.
  - assert (Hd : forall out captured t c, sending (deadline_set out) = Pending captured t c ->
      exists c', sending out = Pending captured t c').
    { intros out captured t c. unfold deadline_set. destruct (sending out) eqn:E; simpl;
        rewrite ?E; intros [= -> -> _]; eauto. }
    intros t0 o [] captured t c; apply Hd.
Qed.

(** An attempt whose clock reading was [t], to send before [captured]. *)
Definition waits b (captured t : Z) : Prop :=
  exists x o d c, owner_at x b = Some o /\ sending (direction_output d o) = Pending captured t c.

(** It waited before, or it begins. *)
Definition waits_from b b' : Prop := forall captured t, waits b' captured t ->
  waits b captured t \/ t < captured /\ read_clock t (world (env b)) (world (env b')).

Lemma waits_kept b b' : kept waits_on b b' -> waits_from b b'.
Proof.
  intros Hk captured t (x & o & d & c & Hx & Hs). left.
  destruct (Hk x o Hx) as (y & o' & Hy & HR). destruct (HR d captured t c Hs) as [c' Hs'].
  by exists y, o', d, c'.
Qed.

Lemma drop_candidate_env b phase : env (drop_candidate phase b) = env b.
Proof. unfold drop_candidate. by destruct (pending b). Qed.

Lemma force_retained_env b : env (force_retained b) = env b.
Proof. unfold force_retained. by destruct (retained b). Qed.

Lemma moved_later b b' : moved b b' -> later (world (env b)) (world (env b')).
Proof.
  intros [e Hl _|r|i| | |phase _| |x d o o' e Hx Ht]; try done.
  - by rewrite force_retained_env.
  - by rewrite drop_candidate_env.
  - rewrite (put_owner_env x o) by done. apply (turn_later _ _ _ _ _ Ht).
Qed.

Lemma moves_later b b' : moves b b' -> later (world (env b)) (world (env b')).
Proof. intros H. induction H; [done|]. etrans; [by apply moved_later|done]. Qed.

Lemma moved_waits b b' : moved b b' -> waits_from b b'.
Proof.
  intros Hm captured t (x' & o' & d & c & Hx & Hs).
  destruct (moved_owner waits_on b b' x' o' Hm Hx) as (x & o & Ho & [HR|[d' Ht]]).
  - destruct (HR d captured t c Hs) as [c' Hs']. left. by exists x, o, d, c'.
  - destruct (turn_attempt _ _ _ _ _ Ht d _ _ _ Hs) as [Hs'|(-> & ? & ?)]; [|by right].
    left. by exists x, o, d, c.
Qed.

Lemma waits_from_trans b1 b2 b3 :
  later (world (env b1)) (world (env b2)) -> later (world (env b2)) (world (env b3)) ->
  waits_from b1 b2 -> waits_from b2 b3 -> waits_from b1 b3.
Proof.
  intros L1 L2 H1 H2 captured t H.
  destruct (H2 _ _ H) as [Hw|[? Hc]]; [destruct (H1 _ _ Hw) as [|[? Hc]]; [by left|]|];
    right; (split; [done|]); eapply read_clock_widen, Hc; done.
Qed.

Lemma moves_waits b b' : moves b b' -> waits_from b b'.
Proof.
  intros H. induction H as [b|b1 b2 b3 Hm Hms IH]; [intros ? ?; by left|].
  eapply waits_from_trans, IH; [by apply moved_later|by apply moves_later|by apply moved_waits].
Qed.

Lemma update_waits b change : waits_from b (bridge_update change b).2.
Proof.
  unfold bridge_update. destruct (apply_change change b) as [r b'] eqn:E. simpl.
  destruct (wp_run _ _ _ _ _ (change_changed b change) E) as (e & _ & _ & Hr).
  assert (Hid : kept waits_on b (set_env e b)) by (intros x o Hx; exists x, o; split; [by destruct x|done]).
  destruct r; [|subst; by apply waits_kept].
  intros captured t (x & o & d & c & Hx & Hs).
  destruct (effect_kept waits_on _ _ _ Hr x o Hx) as [(y & o' & Hy & HR)|Hn].
  - destruct (HR d captured t c Hs) as [c' Hs']. left. exists y, o', d, c'. split; [by destruct y|done].
  - exfalso. by destruct change; simpl in Hn; simplify_eq; destruct d.
Qed.

Lemma step_waits b b' : manager_step b b' -> waits_from b b'.
Proof.
  intros [ev|change _|w]; [apply moves_waits, event_moves|apply update_waits|].
  apply waits_kept. intros x o Hx. exists x, o. split; [by destruct x|done].
Qed.

(** The step in which an attempt began that is pending now. *)
Definition began b (t : Z) : Prop := exists b0 b1,
  manager_reachable b0 /\ manager_step b0 b1 /\ rtc manager_step b1 b /\
  read_clock t (world (env b0)) (world (env b1)).

Lemma waits_began b captured t : manager_reachable b -> waits b captured t -> began b t.
Proof.
  intros (infra & w & H). revert captured t.
  refine (rtc_ind_r (fun b => forall captured t, waits b captured t -> began b t) _ _ _ b H).
  - by intros captured t ([| | |i] & o & d & c & Hx & _).
  - clear b H. intros b1 b2 H Hs IH captured t Hw. destruct (step_waits _ _ Hs _ _ Hw) as [Hw'|[_ Hc]].
    + destruct (IH _ _ Hw') as (b0 & b & ? & ? & ? & ?). exists b0, b. split_and!; [done..| |done].
      by eapply rtc_r.
    + exists b1, b2. split_and!; [by exists infra, w|done..].
Qed.
End Attempts.
