(* ===== verification/PortManagerSpec.v ===== *)
(** * The packet port manager: what it promises

    The theorems about the actor of [PortManager]: the gate before every packet, the single
    outbound writer, the machine of hand-overs that it implements, the finality of a
    transaction's outcome, and what an acknowledged drain means. *)
From stdpp Require Import base tactics list sorting numbers option gmap strings.
From Stdlib Require Import ZArith Lia.
From S2P Require Import Prelude PacketPort PacketPortFacts PortManager PortManagerFacts PortManagerInv PortManagerOwners.

#[local] Open Scope Z_scope.

Section Promises.
Context {W A : Type} `{!PacketHost W A}.
Implicit Types (b : Bridge W A) (o : Owner A) (e : Env W A) (s : Sent A) (c : PendingOwner A).

(** ** What a step may do to the wire *)

(** Who may send in which direction, until when. *)
Definition may_send b (x : Place) (d : Direction) o (t : Z) : Prop :=
  match x with
  | AtOwner => epoch_of o = highest_owner_epoch b /\ t < auth_deadline o
  | AtRetained => d = Inbound /\ epoch_of o < highest_owner_epoch b /\ t < auth_deadline o
  | AtCandidate => d = Inbound /\ exists c, pending b = Some c /\ p_owner c = o /\
      t < prepare_deadline (p_transaction c) <= tx_auth_deadline (p_transaction c)
  | AtRetired _ => False
  end.

(** [packet] is the one after those of the queue that were settled before, and is settled now. *)
Definition settles (packet : list Z) (out out' : PacketOutput) : Prop :=
  taken out' !! Z.to_nat (completed (output_progress out)) = Some packet /\
  completed (output_progress out') = completed (output_progress out) + 1.

Lemma delivers_settles packet log out out' :
  output_ok log out -> delivers packet out out' -> settles packet out out'.
Proof.
  intros Ho Hd. pose proof (Hd log Ho) as Ho'. split.
  - rewrite (oo_completed _ _ Ho), Nat2Z.id, (oo_taken _ _ Ho'), fmap_app, <- app_assoc.
    by rewrite lookup_app_r, length_fmap, Nat.sub_diag by (by rewrite length_fmap).
  - rewrite (oo_completed _ _ Ho), (oo_completed _ _ Ho'), length_app. simpl. lia.
Qed.

(** One packet leaves, in one direction, on behalf of the owner in one place. *)
Definition sends_as b b' (x : Place) (d : Direction) o (packet : list Z) (t : Z) : Prop :=
  stopped b = None /\ owner_at x b = Some o /\
  wire (env b') = wire (env b) ++ [sent_by d o packet t] /\
  (exists o', owner_at x b' = Some o' /\
     settles packet (direction_output d o) (direction_output d o')) /\
  gate_open d o t (world (env b)) (world (env b')) /\ may_send b x d o t.

Definition sends b b' : Prop := exists x d o packet t, sends_as b b' x d o packet t.

(** When the clock read [t]: in this very step; or in an earlier one, in which the attempt began
    that has been pending since, and then the timer of the deadline is asked in this step and
    has not ended. *)
Definition in_time b b' o (t : Z) : Prop :=
  read_clock t (world (env b)) (world (env b')) \/
  began b t /\ timer_silent (deadline o) (world (env b)) (world (env b')).

Lemma sends_in_time b b' x d o packet t :
  manager_reachable b -> sends_as b b' x d o packet t -> in_time b b' o t.
Proof.
  intros Hr (_ & Hx & _ & _ & Hg & _). destruct (gate_time _ _ _ _ _ Hg) as [Hc|[Hs Ht]]; [by left|right].
  split; [|done]. apply (waits_began b (deadline o) t Hr). by exists x, o, d, false.
Qed.

Lemma turn_sends b x d o o' e' :
  bridge_ok b -> stopped b = None -> owner_at x b = Some o -> turn d o (env b) o' e' ->
  (d = Outbound -> queue (to_worker o) = [] -> x <> AtOwner -> e' = env b) ->
  wire e' = wire (env b) \/ sends b (put_owner x o' (set_env e' b)).
Proof.
  intros Hb Hs Hx [Hsame Hl Ho [Hw|(packet & t & Hw & Hg' & Hdel)] _ _] Hidle; [by left|].
  pose proof (Hg' (proj1 (bo_outputs b Hb x o Hx))) as Hg. clear Hg'.
  right. exists x, d, o, packet, t. unfold sends_as. rewrite (put_owner_env x o) by done.
  assert (Hset : exists o0, owner_at x (put_owner x o' (set_env e' b)) = Some o0 /\
    settles packet (direction_output d o) (direction_output d o0)).
  { destruct (proj2 (bo_outputs b Hb x o Hx) d) as (log & Hlog & _). exists o'.
    split; [by apply (put_owner_here x o)|by eapply delivers_settles]. }
  split_and!; try done. clear Hset.
  assert (Hq : x <> AtOwner -> queue (to_worker o) = [] -> d = Inbound).
  { intros Hxo Hq. destruct d; [|done]. rewrite (Hidle eq_refl Hq Hxo) in Hw.
    apply (f_equal length) in Hw. rewrite length_app in Hw. simpl in Hw. lia. }
  pose proof (gate_deadline _ _ _ _ _ Hg) as Ht. pose proof (gate_fence _ _ _ _ _ Hg) as Hf.
  destruct x as [| | |i]; simpl in *.
  - destruct (bo_owner b Hb o Hx) as (? & _ & _ & _ & Hd & _). by rewrite <- Hd.
  - destruct (bo_retained b Hb o Hx) as (? & _ & ? & Hd & _). rewrite <- Hd.
    split_and!; [by apply Hq|done..].
  - destruct (pending b) as [c|] eqn:Ec; [|done]. injection Hx as <-.
    destruct (bo_pending b Hb c Ec) as [(_ & _ & _ & Hd & _ & _ & _ & Hc & Hempty & _) _].
    split; [by apply Hq|]. exists c. split_and!; [done..|lia|lia].
  - destruct (Forall_lookup_1 retired_ok _ _ _ (bo_retired b Hb) Hx) as [H1 H2].
    destruct d; simpl in *; congruence.
Qed.

Lemma effect_env b change b' : effect b change b' -> env b' = env b.
Proof.
  intros [ | | tx c | | | tx | | ? ? ? ? ? ? ? ? | | ]; try done; unfold install, drop_candidate, force_retained; simpl.
  - by destruct (owner b).
  - by destruct (retained b).
  - by destruct (pending b).
  - by destruct (owner b).
  - by destruct (retained b).
Qed.

Lemma update_wire b change : wire (env (bridge_update change b).2) = wire (env b).
Proof.
  unfold bridge_update. destruct (apply_change change b) as [r b'] eqn:E. simpl.
  destruct (wp_run _ _ _ _ _ (change_changed b change) E) as (e & _ & Hw & Hr).
  destruct r; [|by subst]. by rewrite (effect_env _ _ _ Hr).
Qed.

Lemma expired_wire b d fired b' : expired d b = (fired, b') -> wire (env b') = wire (env b).
Proof.
  unfold expired. destruct d as [d|]; [|by intros [= _ <-]].
  destruct (timer d (env b)) as [t e] eqn:E. intros [= _ <-]. by apply timer_later in E as (_ & ? & _).
Qed.

Lemma writer_event_sends b x d :
  bridge_ok b -> stopped b = None ->
  wire (env (writer_event x d b)) = wire (env b) \/ sends b (writer_event x d b).
Proof.
  intros Hb Hs. unfold writer_event. destruct (owner_at x b) as [o|] eqn:Ex; [|by left].
  destruct (writer_turn d o (env b)) as [o' e'] eqn:E. pose proof (writer_turn_turn _ _ _ _ _ E) as Ht.
  destruct (turn_sends b x d o o' e') as [Hw|]; [done..| | |by right].
  - intros -> Hq _. by apply (writer_turn_empty Outbound o _ _ _ Hq) in E as [_ ->].
  - left. rewrite <- Hw. destruct x; simpl; try done. by destruct (pending b).
Qed.

Lemma packet_event_sends b x d packet capacity :
  bridge_ok b -> stopped b = None -> x = AtOwner \/ d = Inbound ->
  wire (env (packet_event x d packet capacity b)) = wire (env b) \/
  sends b (packet_event x d packet capacity b).
Proof.
  intros Hb Hs Hd. unfold packet_event. destruct (owner_at x b) as [o|] eqn:Ex; [|by left].
  destruct (enqueue d packet capacity o (env b)) as [o' e'] eqn:E.
  pose proof (enqueue_turn _ _ _ _ _ _ _ E) as Ht.
  destruct (turn_sends b x d o o' e') as [Hw|]; [done..| | |by right].
  - by destruct Hd as [->| ->].
  - left. rewrite <- Hw. destruct x; simpl; try done. by destruct (pending b).
Qed.

Lemma event_sends b ev :
  bridge_ok b -> wire (env (bridge_event ev b)) = wire (env b) \/ sends b (bridge_event ev b).
Proof.
  intros Hb. unfold bridge_event. destruct (stopped b) eqn:Hs; [by left|]. destruct ev; simpl; try by left.
  - left. unfold owner_expires. destruct (expired _ b) as [[] b'] eqn:E; by apply expired_wire in E.
  - left. unfold retained_expires. destruct (expired _ b) as [[] b'] eqn:E; apply expired_wire in E; [|done].
    by rewrite force_retained_env.
  - left. unfold candidate_expires. destruct (expired _ b) as [[] b'] eqn:E; apply expired_wire in E; [|done].
    by rewrite drop_candidate_env.
  - left. unfold owner_failed. destruct (owner b ≫= task_failure d) as [x|]; [|done]. by destruct d, x.
  - left. unfold candidate_failed. destruct (_ ≫= _) as [[]|]; try done. by rewrite drop_candidate_env.
  - left. unfold retained_failed. destruct (_ ≫= _) as [[]|]; try done. by rewrite force_retained_env.
  - apply packet_event_sends; [done|done|by left].
  - destruct (reads_port x); [|by left]. apply packet_event_sends; [done|done|by right].
  - left. destruct x; simpl; try done; [by destruct (retained b)|by rewrite drop_candidate_env].
  - by apply writer_event_sends.
  - left. unfold abort_event. destruct (owner_at x b); [|done]. destruct x; simpl; try done.
    by destruct (pending b).
Qed.

Lemma step_sends b b' :
  bridge_ok b -> manager_step b b' -> wire (env b') = wire (env b) \/ sends b b'.
Proof.
  intros Hb [ev|change _|w]; [by apply event_sends|left; apply update_wire|by left].
Qed.

(** C12. The gate: in one step of the actor at most one packet leaves: the oldest of those that
    its queue accepted and that are not settled, which this step settles, so that none leaves
    twice. And then the fence of
    the owner on whose behalf it goes was up and its authorization check passed within this
    very step. The clock read a time before the owner's deadline: in this step too, or, for a
    packet whose write had been pending, in the earlier step of this run in which that attempt
    began, and then the timer of the same deadline is asked in this step and has not ended.
    Outbound traffic is the current owner's alone, whose epoch is the highest ever granted;
    the predecessor that is being drained and the candidate only deliver inbound packets, the
    candidate before its prepare deadline; a retired owner sends nothing. Changes of owner
    never send. *)
Theorem packets_gated b b' :
  manager_reachable b -> manager_step b b' ->
  wire (env b') = wire (env b) \/
  exists x d o packet t, sends_as b b' x d o packet t /\ in_time b b' o t.
Proof.
  intros Hr Hs. destruct (step_sends b b') as [|(x & d & o & packet & t & H)];
    [by apply manager_reachable_ok|done|by left|].
  right. exists x, d, o, packet, t. split; [done|]. by eapply sends_in_time.
Qed.

(** C28. One writer at a time: over the whole life of the actor the epochs of the packets that
    reach workers never go down, two packets of the same epoch went to the same port on
    behalf of the same binding, and no packet bears an epoch above the highest granted. *)
Theorem outbound_single_writer b :
  manager_reachable b ->
  StronglySorted after (outbound (wire (env b))) /\
  forall s, s ∈ outbound (wire (env b)) -> sent_epoch s <= highest_owner_epoch b.
Proof.
  intros Hr. apply manager_reachable_ok in Hr. destruct (bo_wire b Hr) as [H1 H2].
  split; [done|]. intros s Hs. by apply H2.
Qed.

(** ** The machine of hand-overs *)

(** Who holds the traffic: the holder may send outbound; the one that is draining may still
    deliver; the candidate waits for its commit. [hand_last] is the last transaction that
    ended, with its outcome. *)
Record Handover : Type := mkHandover {
  hand_epoch : Z;
  hand_revision : Z;
  hand_holder : option PacketPortBinding;
  hand_draining : option PacketPortBinding;
  hand_candidate : option OwnerTransaction;
  hand_last : option OwnerTransactionReceipt;
}.

Definition holder_epoch (h : Handover) : option Z := owner_epoch <$> hand_holder h.

Inductive handover_step (h : Handover) : Handover -> Prop :=
(** A candidate, of a higher revision than any before, with nothing left to drain. *)
| hand_prepare tx :
    hand_candidate h = None -> hand_draining h = None -> hand_revision h < revision tx ->
    hand_epoch h < owner_epoch (tx_binding tx) -> holder_epoch h = expected_active_epoch tx ->
    handover_step h (mkHandover (hand_epoch h) (revision tx) (hand_holder h) None (Some tx)
                       (hand_last h))
(** The candidate takes over: exactly the holder that it expected is left to drain. *)
| hand_commit tx :
    hand_candidate h = Some tx -> hand_epoch h < owner_epoch (tx_binding tx) ->
    holder_epoch h = expected_active_epoch tx ->
    handover_step h (mkHandover (owner_epoch (tx_binding tx)) (hand_revision h)
                       (Some (tx_binding tx)) (hand_holder h) None
                       (Some (mkReceipt tx Committed)))
| hand_give_up tx phase :
    hand_candidate h = Some tx -> phase = Aborted \/ phase = Expired ->
    handover_step h (mkHandover (hand_epoch h) (hand_revision h) (hand_holder h)
                       (hand_draining h) None (Some (mkReceipt tx phase)))
| hand_drained :
    handover_step h (mkHandover (hand_epoch h) (hand_revision h) (hand_holder h) None
                       (hand_candidate h) (hand_last h))
| hand_lost :
    handover_step h (mkHandover (hand_epoch h) (hand_revision h) None (hand_draining h)
                       (hand_candidate h) (hand_last h))
(** An owner put in place without a transaction: again only of a higher epoch. *)
| hand_attach binding :
    hand_draining h = None -> hand_epoch h < owner_epoch binding ->
    handover_step h (mkHandover (owner_epoch binding) (hand_revision h) (Some binding) None
                       (hand_candidate h) (hand_last h))
(** The actor ends. *)
| hand_end :
    handover_step h (mkHandover (hand_epoch h) (hand_revision h) None None None (hand_last h)).

(** What the actor's state says of it. *)
Definition handover b : Handover :=
  mkHandover (highest_owner_epoch b) (highest_transaction_revision b) (binding_of <$> owner b)
    (binding_of <$> retained b) (p_transaction <$> pending b) (last_transaction b).

Definition refined b b' : Prop := rtc handover_step (handover b) (handover b').

Lemma refined_same b b' : handover b' = handover b -> refined b b'.
Proof. unfold refined. by intros ->. Qed.

Lemma refined_step b b' : handover_step (handover b) (handover b') -> refined b b'.
Proof. apply rtc_once. Qed.

Lemma refined_lost b : refined b (revoke b).
Proof. apply refined_step. apply (hand_lost (handover b)). Qed.

Lemma refined_drained b d f (previous : option (Owner A)) :
  refined b (set_retained None d f (match previous with Some o => retire o b | None => b end)).
Proof. apply refined_step. destruct previous; apply (hand_drained (handover b)). Qed.

Lemma refined_force b : refined b (force_retained b).
Proof.
  unfold force_retained. destruct (retained b) as [o|] eqn:E; [|by apply refined_same].
  apply (refined_drained b false true (Some o)).
Qed.

Lemma refined_give_up b phase :
  phase = Aborted \/ phase = Expired -> refined b (drop_candidate phase b).
Proof.
  intros Hp. unfold drop_candidate. destruct (pending b) as [c|] eqn:E; [|by apply refined_same].
  apply refined_step. apply (hand_give_up (handover b) (p_transaction c) phase); [|done].
  unfold handover. simpl. by rewrite E.
Qed.

Lemma refined_end b r : refined b (stop_bridge r b).
Proof. apply refined_step. apply (hand_end (handover b)). Qed.

Lemma refined_env b e b' : refined (set_env e b) b' -> refined b b'.
Proof. done. Qed.

Lemma refined_put b x d o o' e' :
  owner_at x b = Some o -> turn d o (env b) o' e' -> refined b (put_owner x o' (set_env e' b)).
Proof.
  intros Hx Ht. apply refined_same. destruct (turn_same _ _ _ _ _ Ht) as (Hp & _).
  unfold handover. destruct x; simpl in *; rewrite ?Hx; simpl; unfold binding_of; rewrite ?Hp; try done.
  destruct (pending b) as [c|]; [|done]. by injection Hx as <-.
Qed.

Lemma active_epoch_holder b : active_epoch b = holder_epoch (handover b).
Proof. unfold active_epoch, holder_epoch. simpl. by destruct (owner b). Qed.

Lemma effect_refined b change b' : bridge_ok b -> effect b change b' -> refined b b'.
Proof.
  intros Hb [ | tx p a Hm Hp Hi Hr Hn Hret Ha Hst Hd | tx c Hc Htx Ha Hst Hq
    | tx previous Hl Hf Hr Hd Hi | tx Hl Hf Hr | tx Hl | tx c Hc Htx
    | p d a ? Hch Hm Hr Hst | ? ? d o Ho He Hcap | ? He ].
  - by apply refined_same.
  - apply orb_false_iff in Hst as [He%Z.leb_gt _]. apply refined_step.
    rewrite active_epoch_holder in Ha.
    pose proof (hand_prepare (handover b) tx) as H. unfold handover in *. simpl in *.
    rewrite Hn, Hret in *. by apply H.
  - apply orb_false_iff in Hst as [He%Z.leb_gt _]. apply refined_step.
    destruct (bo_pending b Hb c Hc) as [(C1 & _) Hret]. rewrite Htx in *.
    pose proof (hand_commit (handover b) tx) as H. rewrite <- active_epoch_holder in H.
    assert (E : handover (install c tx b) = mkHandover (owner_epoch (tx_binding tx))
      (hand_revision (handover b)) (Some (tx_binding tx)) (hand_holder (handover b)) None
      (Some (mkReceipt tx Committed))).
    { unfold install, handover, binding_of. simpl. rewrite <- C1.
      destruct (owner b); simpl; [done|]. by rewrite Hret. }
    rewrite E. apply H; [|done|done]. simpl. rewrite Hc. simpl. by rewrite Htx.
  - apply (refined_drained b true (forced_retirement b) (Some previous)).
  - apply (refined_drained b true (forced_retirement b) None).
  - apply (refined_drained b false true).
  - apply refined_give_up. by left.
  - apply orb_false_iff in Hst as [He%Z.leb_gt _]. apply refined_step.
    pose proof (hand_attach (handover b) (port_binding p)) as H. unfold handover in *. simpl in *.
    destruct (owner b); simpl in *; rewrite Hr in *; by apply H.
  - apply refined_same. unfold handover. simpl. by rewrite Ho.
  - unfold refined. etrans; [apply refined_lost|apply refined_force].
Qed.

Lemma event_refined b ev : refined b (bridge_event ev b).
Proof.
  pose proof (event_moves b ev) as H. unfold refined.
  induction H as [|b1 b2 b3 Hm _ IH]; [done|]. etrans; [|done]. destruct Hm.
  - by apply refined_same.
  - apply refined_end.
  - by apply refined_same.
  - apply refined_lost.
  - apply refined_force.
  - by apply refined_give_up.
  - apply (refined_drained _ false true None).
  - by eapply refined_put.
Qed.

Lemma step_refined b b' : bridge_ok b -> manager_step b b' -> refined b b'.
Proof.
  intros Hb [ev|change Hs|w]; [apply event_refined| |by apply refined_same].
  unfold bridge_update. destruct (apply_change change b) as [r b1] eqn:E. simpl.
  destruct (wp_run _ _ _ _ _ (change_changed b change) E) as (e & _ & Hw & Hr).
  destruct r; [|subst; by apply refined_same].
  apply (refined_env b e). eapply effect_refined; [|done]. by apply ok_env.
Qed.

(** C5. The actor implements the machine of hand-overs: every run of the actor, with all its
    timers, failures, tasks and packets, is a run of the machine, in which only the expected
    holder is succeeded, by a candidate of a higher epoch and revision, and only once nothing
    is left to drain. *)
Theorem manager_refines_handover infra w b :
  rtc manager_step (new_bridge infra w) b ->
  rtc handover_step (mkHandover 0 0 None None None None) (handover b).
Proof.
  intros H. change (refined (new_bridge infra w) b).
  assert (Hrun : forall b1 b2 : Bridge W A, rtc manager_step b1 b2 -> bridge_ok b1 -> refined b1 b2);
    [|apply Hrun; [done|apply new_bridge_ok]].
  clear. intros b1 b2 H. induction H as [|b1 b2 b3 Hs _ IH]; intros H0; [by apply refined_same|].
  unfold refined in *. etrans; [by apply step_refined|]. by eapply IH, manager_step_ok.
Qed.

(** *** The outcome of a transaction *)

(** A receipt names the transaction and the phase. *)
Definition seen (h : Handover) (tx : OwnerTransaction) (phase : OwnerTransactionPhase) : Prop :=
  hand_candidate h = Some tx /\ phase = Prepared \/ hand_last h = Some (mkReceipt tx phase).

(** No revision says anything else than [tx], at [phase] or, from [Prepared], any later one. *)
Definition settled_as (tx : OwnerTransaction) (phase : OwnerTransactionPhase) (h : Handover)
  : Prop :=
  revision tx <= hand_revision h /\
  forall tx' phase', seen h tx' phase' -> revision tx' = revision tx ->
    tx' = tx /\ (phase <> Prepared -> phase' = phase).

Lemma settled_step tx phase h h' : settled_as tx phase h -> handover_step h h' -> settled_as tx phase h'.
Proof.
  intros [Hr Hu] Hs. unfold settled_as, seen in *. destruct Hs; simpl in *; split; try lia; intros tx' phase'.
  - intros [[[= ->] ->]|Hl] E; [lia|]. apply Hu; [by right|done].
  - intros [[? _]|[= <- <-]] E; [done|]. destruct (Hu _ Prepared (or_introl (conj H eq_refl)) E) as [-> Hp].
    split; [done|]. intros Hn. by destruct (Hn (eq_sym (Hp Hn))).
  - intros [[? _]|[= <- <-]] E; [done|]. destruct (Hu _ Prepared (or_introl (conj H eq_refl)) E) as [-> Hp].
    split; [done|]. intros Hn. by destruct (Hn (eq_sym (Hp Hn))).
  - apply Hu.
  - apply Hu.
  - apply Hu.
  - intros [[? _]|Hl] E; [done|]. apply Hu; [by right|done].
Qed.

Lemma settled_now b tx phase : bridge_ok b -> seen (handover b) tx phase -> settled_as tx phase (handover b).
Proof.
  intros Hb Hs. unfold settled_as, seen in *. simpl in *.
  assert (Hcand : forall t, p_transaction <$> pending b = Some t ->
    revision t = highest_transaction_revision b /\ is_Some (pending b)).
  { intros t (c & Hc & ->)%fmap_Some. destruct (bo_pending b Hb c Hc) as [(_ & _ & _ & _ & _ & _ & _ & _ & _ & ?) _]. eauto. }
  assert (Hlast : forall t ph, last_transaction b = Some (mkReceipt t ph) -> ph <> Prepared /\
    revision t <= highest_transaction_revision b /\
    (is_Some (pending b) -> revision t < highest_transaction_revision b)).
  { intros t ph Hl. destruct (bo_last b Hb _ Hl) as (H1 & H2 & H3 & _). simpl in *. split_and!; [done|done|].
    intros Hp. apply H3. by apply bool_decide_eq_true_2. }
  split; [destruct Hs as [[Hs _]|Hs]; [by apply Hcand in Hs as [-> _]|by apply Hlast in Hs as (_ & ? & _)]|].
  intros tx' phase' [[Hc ->]|Hl] E; destruct Hs as [[Hs ->]|Hs].
  - split; [congruence|done].
  - apply Hcand in Hc as [H1 H2]. apply Hlast in Hs as (_ & _ & H3). specialize (H3 H2). lia.
  - apply Hcand in Hs as [H1 H2]. apply Hlast in Hl as (_ & _ & H3). specialize (H3 H2). lia.
  - rewrite Hs in Hl. by injection Hl as -> ->.
Qed.

(** C30. Finality: whatever a receipt says of a revision, every later receipt of the same
    revision names the same transaction, and once its outcome is committed, aborted or expired
    it stays that, so an aborted or expired transaction can never be committed by a retry. *)
Theorem transaction_outcome_final b b' tx phase tx' phase' :
  manager_reachable b -> rtc manager_step b b' ->
  seen (handover b) tx phase -> seen (handover b') tx' phase' -> revision tx' = revision tx ->
  tx' = tx /\ (phase <> Prepared -> phase' = phase).
Proof.
  intros Hr Hs Hseen Hseen' E. apply manager_reachable_ok in Hr.
  assert (H : settled_as tx phase (handover b')); [|by apply H].
  pose proof (settled_now b tx phase Hr Hseen) as H0. clear Hseen Hseen'.
  induction Hs as [|b1 b2 b3 Hstep _ IH]; [done|].
  apply IH; [by eapply manager_step_ok|].
  pose proof (step_refined _ _ Hr Hstep) as Hrun. unfold refined in Hrun. clear -Hrun H0.
  induction Hrun as [|h1 h2 h3 Hh _ IH]; [done|]. by eapply IH, settled_step.
Qed.

(** ** The drain *)

Lemma delivered_all log :
  (forall i packet, log !! i = Some (packet, false) -> False) ->
  delivered_packets log = log.*1.
Proof.
  intros H. unfold delivered_packets.
  induction log as [|[packet []] log IH]; [done| |].
  - rewrite filter_cons_True by done. simpl. f_equal. apply IH. intros i p Hi. by apply (H (S i) p).
  - by destruct (H 0%nat packet).
Qed.

(** A queue that reports itself drained since its start. *)
Lemma drained_output log (o : PacketOutput) :
  output_ok log o ->
  drained_through (checkpoint (output_progress o)) (output_progress o) = Ok true ->
  queue o = [] /\ delivered_packets log = taken o /\
  Z.of_nat (length (taken o)) = accepted (output_progress o).
Proof.
  intros Ho. unfold drained_through, drained_between, drained_answer, checkpoint.
  destruct (_ || _); [done|]. destruct (Z.ltb_spec 0 (evicted_through (output_progress o))); [done|].
  destruct (find _ _) eqn:Ef; [done|]. intros [= Hle%Z.leb_le].
  rewrite (oo_completed _ _ Ho), (oo_accepted _ _ Ho) in Hle.
  assert (Hq : queue o = []) by (apply nil_length_inv; lia).
  rewrite (oo_taken _ _ Ho), (oo_accepted _ _ Ho), Hq. simpl. rewrite app_nil_r, length_fmap.
  split_and!; [done| |lia].
  apply delivered_all. intros i packet Hi. pose proof (lookup_lt_Some _ _ _ Hi).
  destruct (oo_failed _ _ Ho i packet Hi) as [Hin|He]; [|lia].
  apply list_elem_of_In in Hin. pose proof (find_none _ _ Ef _ Hin) as Hb. simpl in Hb.
  rewrite (oo_accepted _ _ Ho) in Hb.
  apply andb_false_iff in Hb as [Hb%Z.ltb_ge|Hb%Z.leb_gt]; lia.
Qed.

(** C32. An acknowledged drain is complete: when [FinishOwnerDrain] succeeds for a predecessor,
    the kernel had nothing left in its port, its queues are empty, and every packet that its
    inbound queue ever accepted, as many as the counter says, was written to the TUN device,
    in the order of acceptance;
    only then does the receipt say drained, and a predecessor that was forced out never gets
    that receipt. *)
Theorem drain_certificate b tx receipt b' :
  manager_reachable b ->
  bridge_update (FinishOwnerDrain tx) b = (Ok tt, receipt, b') ->
  is_last tx Committed b = true /\ forced_retirement b = false /\
  pr_old_owner_drained receipt = true /\ pr_retained_owner_binding receipt = None /\
  forall previous, retained b = Some previous ->
    (has_pending_input (port previous) (world (env b))).1 = Ok false /\
    queue (to_worker previous) = [] /\ queue (to_tun previous) = [] /\
    Z.of_nat (length (taken (to_tun previous))) = accepted (output_progress (to_tun previous)) /\
    taken (to_tun previous) `sublist_of` carried_packets Inbound previous (wire (env b)).
Proof.
  intros Hr. apply manager_reachable_ok in Hr. unfold bridge_update. simpl.
  unfold finish_owner_drain, mbind, gets, guard_that, refuse, mfail, mret, modify, lift, pending_input.
  simpl. destruct (is_last tx Committed b) eqn:El; [|done].
  destruct (forced_retirement b) eqn:Ef; [done|]. simpl.
  destruct (retained b) as [previous|] eqn:Er.
  2:{ intros [= <- <-]. by split_and!. }
  destruct (has_pending_input (port previous) (world (env b))) as [r w] eqn:Ei.
  destruct r as [input|]; [|done]. simpl.
  destruct (map_err _ _) as [drained|] eqn:Ed; [|done]. simpl.
  destruct (negb input && drained) eqn:Eg; [|done]. apply andb_true_iff in Eg as [->%negb_true_iff ->].
  intros [= <- <-]. split_and!; try done. intros ? [= <-]. rewrite Ei.
  destruct (proj2 (bo_outputs b Hr AtRetained previous Er) Inbound) as (log & Ho & Hsub). simpl in Ho.
  apply map_err_ok in Ed. destruct (drained_output log _ Ho Ed) as (Hq & Hlog & Hacc).
  split_and!; [done|by apply (bo_retained b Hr)|done|done|by rewrite <- Hlog].
Qed.
End Promises.
