(* ===== verification/PortScenarios.v ===== *)
(** * Packet ports: scenarios

    A host whose descriptors take every packet, a hand-over from one worker to the next, and
    the theorems of [PacketPortFacts] and [PortManagerSpec] at these states. *)
From stdpp Require Import base tactics list sorting numbers option gmap strings.
From Stdlib Require Import ZArith Lia.
From S2P Require Import Prelude PacketPort PacketPortFacts PortManager PortManagerFacts PortManagerInv PortManagerOwners PortManagerSpec.

#[local] Open Scope Z_scope.

(** The world is a clock that ticks at each reading; a check fails from its argument on. The
    descriptors are writable at once, but for one packet only after some time. *)
Definition slow_packet : list Z := [69; 4; 4].

#[local] Instance ticking_host : PacketHost Z Z := {
  instant_now := fun w => (w, w + 1);
  timer_elapsed := fun t w => (t <=? w, w + 1);
  authorized := fun a w => (w <? a, w);
  port_write := fun _ packet w => (Ok (negb (bool_decide (packet = slow_packet)) || (15 <=? w)), w);
  has_pending_input := fun _ w => (Ok false, w);
}.

Definition some_id (n : Z) : list Z := replicate 15 0 ++ [n].
Definition some_binding (epoch : Z) : PacketPortBinding :=
  mkBinding (some_id 1) (some_id 2) 1 1 epoch 1.
Definition some_port (epoch : Z) : UnixPacketPort :=
  let b := some_binding epoch in
  mkPort (Z.to_nat epoch) b Infrastructure (header_prefix b 1 ++ replicate 4 0) (header_prefix b 2).

Lemma some_port_opened epoch :
  binding_is_zero (some_binding epoch) = false ->
  UnixPacketPort_new (Z.to_nat epoch) (some_binding epoch) Infrastructure = Ok (some_port epoch).
Proof. unfold UnixPacketPort_new. by intros ->. Qed.

Definition some_transaction : OwnerTransaction :=
  mkTransaction (some_id 9) 1 (Some 1) (some_binding 2) 10000 5000.

(** *** Runs *)

Inductive Move : Type :=
| Happens (ev : Event)
| Changes (change : PacketPortOwnerChange Z).

Definition move (m : Move) (b : Bridge Z Z) : Bridge Z Z :=
  match m with
  | Happens ev => bridge_event ev b
  | Changes change => match stopped b with None => (bridge_update change b).2 | Some _ => b end
  end.

Definition play (l : list Move) : Bridge Z Z :=
  fold_left (fun b m => move m b) l (new_bridge (some_binding 0) 0).

Lemma play_rtc l b : rtc manager_step b (fold_left (fun b m => move m b) l b).
Proof.
  revert b. induction l as [|m l IH]; intros b; [done|]. simpl. etrans; [|apply IH].
  destruct m as [ev|change]; simpl; [apply rtc_once; constructor|].
  destruct (stopped b) eqn:E; [done|]. apply rtc_once. by constructor.
Qed.

Lemma bridge_play_reachable l : manager_reachable (play l).
Proof. exists (some_binding 0), 0. apply play_rtc. Qed.

Lemma play_snoc l m : play (l ++ [m]) = move m (play l).
Proof. unfold play. by rewrite fold_left_app. Qed.

Lemma play_more l k : rtc manager_step (play l) (play (l ++ k)).
Proof. unfold play. rewrite fold_left_app. apply play_rtc. Qed.

(** The first worker attaches; a packet goes out, one comes in; the second one is prepared
    and takes over; the first one's last packet is delivered, and it is drained. *)
Definition first_attached : list Move := [Changes (AttachAuthorized (some_port 1) 9000 9000)].
Definition traffic : list Move :=
  first_attached ++ [Happens (EvFromTun [69; 1] 2); Happens (EvFromPort AtOwner [69; 2] 2)].
Definition prepared : list Move := traffic ++ [Changes (PrepareOwner some_transaction (some_port 2) 9000)].
Definition committed : list Move := prepared ++ [Changes (CommitOwner some_transaction)].
Definition tail_delivered : list Move := committed ++ [Happens (EvFromPort AtRetained [69; 3] 2)].
Definition drained : list Move := tail_delivered ++ [Changes (FinishOwnerDrain some_transaction)].

Example committed_hands_over :
  active_epoch (play committed) = Some 2 /\
  (epoch_of <$> retained (play committed)) = Some 1 /\
  pending (play committed) = None /\ length (wire (env (play committed))) = 2%nat.
Proof. by vm_compute. Qed.

Example drained_releases : retained (play drained) = None /\ old_owner_drained (play drained) = true.
Proof. by vm_compute. Qed.

(** A packet whose write is pending for a while, over several polls of the writer's task: the
    clock reading with which it crosses is that of the first of them. *)
Definition poll_writer : Move := Happens (EvWriter AtOwner Outbound).
Definition blocked : list Move :=
  traffic ++ [Happens (EvFromTun slow_packet 3); poll_writer; poll_writer; poll_writer].
Definition unblocked : list Move := blocked ++ [poll_writer; poll_writer].

Example pending_write_crosses :
  (sending ∘ to_worker <$> owner (play blocked)) = Some (Pending 9000 8 false) /\
  world (env (play blocked)) = 12 /\
  (fun s => (sent_packet s, sent_at s)) <$> wire (env (play unblocked))
  = [([69; 1], 1); ([69; 2], 2); (slow_packet, 8)].
Proof. by vm_compute. Qed.

Lemma packets_gated_witness :
  length (wire (env (play unblocked))) = 3%nat /\
  (wire (env (play unblocked)) = wire (env (play (blocked ++ [poll_writer]))) \/
   exists x d o packet t, sends_as (play (blocked ++ [poll_writer])) (play unblocked) x d o packet t /\
     in_time (play (blocked ++ [poll_writer])) (play unblocked) o t).
Proof.
  split; [by vm_compute|]. apply packets_gated; [apply bridge_play_reachable|].
  unfold unblocked. change [poll_writer; poll_writer] with ([poll_writer] ++ [poll_writer]).
  rewrite app_assoc, play_snoc. apply step_event.
Defined.

Lemma outbound_single_writer_witness :
  StronglySorted after (outbound (wire (env (play drained)))) /\
  forall s, s ∈ outbound (wire (env (play drained))) ->
    sent_epoch s <= highest_owner_epoch (play drained).
Proof. apply outbound_single_writer, bridge_play_reachable. Defined.

Lemma manager_refines_handover_witness :
  hand_holder (handover (play committed)) = Some (some_binding 2) /\
  rtc handover_step (mkHandover 0 0 None None None None) (handover (play committed)).
Proof.
  split; [by vm_compute|]. apply (manager_refines_handover (some_binding 0) 0), play_rtc.
Defined.

Lemma transaction_outcome_final_witness :
  some_transaction = some_transaction /\ (Committed <> Prepared -> Committed = Committed).
Proof.
  apply (transaction_outcome_final (play committed) (play drained)).
  - apply bridge_play_reachable.
  - trans (play tail_delivered); apply play_more.
  - right. by vm_compute.
  - right. by vm_compute.
  - reflexivity.
Defined.

Lemma drain_certificate_witness :
  exists receipt b',
    bridge_update (FinishOwnerDrain some_transaction) (play tail_delivered) = (Ok tt, receipt, b') /\
    pr_old_owner_drained receipt = true.
Proof.
  destruct (bridge_update (FinishOwnerDrain some_transaction) (play tail_delivered))
    as [[r receipt] b'] eqn:E.
  assert (r = Ok tt) as -> by (revert E; vm_compute; by intros [= <- _ _]).
  exists receipt, b'. split; [done|].
  by apply (drain_certificate (play tail_delivered) some_transaction receipt b' (bridge_play_reachable _) E).
Defined.

(** *** Frames and progress *)

Lemma frames_of_one_binding_witness :
  (forall frame packet, receive_frame (some_port 1) frame = Some packet ->
     exists q, UnixPacketPort_new 1 (some_binding 1) Worker = Ok q /\ encode_frame q packet = Ok frame) /\
  exists q frame, UnixPacketPort_new 7 (some_binding 1) Worker = Ok q /\
    encode_frame q [69; 0; 0] = Ok frame /\ receive_frame (some_port 1) frame = Some [69; 0; 0] /\
    receive_frame (some_port 2) frame = None.
Proof.
  assert (Ht : forall n, 1 <= n <= 2 -> binding_typed (some_binding n)).
  { intros n Hn. constructor; simpl; try (unfold is_u; lia); (split; [done|]);
      by repeat constructor. }
  assert (Hp : forall n, 1 <= n <= 2 ->
    UnixPacketPort_new (Z.to_nat n) (some_binding n) Infrastructure = Ok (some_port n)).
  { intros n Hn. apply some_port_opened. assert (n = 1 \/ n = 2) as [-> | ->] by lia; reflexivity. }
  split.
  - apply (proj2 (frames_of_one_binding _ _ _ _ (Ht 1 ltac:(lia)) (Hp 1 ltac:(lia)))).
  - eexists _, _. split_and!; [reflexivity|reflexivity| |].
    + erewrite (proj1 (frames_of_one_binding _ _ _ _ (Ht 1 ltac:(lia)) (Hp 1 ltac:(lia))) 7%nat (some_binding 1) Worker _ [69; 0; 0] _);
        [|apply (Ht 1); lia|reflexivity|reflexivity]. reflexivity.
    + erewrite (proj1 (frames_of_one_binding _ _ _ _ (Ht 2 ltac:(lia)) (Hp 2 ltac:(lia))) 7%nat (some_binding 1) Worker _ [69; 0; 0] _);
        [|apply (Ht 1); lia|reflexivity|reflexivity]. reflexivity.
Defined.

(** Two packets: the second is dropped first, undelivered, while the first is inside
    [complete] between its exchange and the load of the gap flag. *)
Definition access (l : option Loads) (n : Z) (s : ProgressState) : ProgressState :=
  match completions s !! n with
  | Some c => run_access (default (latest (progress s)) l) n c s
  | None => s
  end.
Definition accept_one (s : ProgressState) : ProgressState :=
  mkProgressState (accept (progress s)).2 (completions s).
Definition drop_one (n : Z) (delivered : bool) (s : ProgressState) : ProgressState :=
  if bool_decide (1 <= n <= accepted (progress s) /\ completions s !! n = None)
  then mkProgressState (progress s) (<[n := mkCompletion delivered Starting]> (completions s)) else s.

(** With [PStale] an access sees what it is told, if that is not from the future. *)
Inductive ProgressMove : Type := PAccept | PDrop (n : Z) (delivered : bool) | PAccess (n : Z) | PStale (l : Loads) (n : Z).
Definition progress_move (m : ProgressMove) (s : ProgressState) : ProgressState :=
  match m with
  | PAccept => accept_one s
  | PDrop n d => drop_one n d s
  | PAccess n => access None n s
  | PStale l n => if seen_completed l <=? completed (progress s) then access (Some l) n s else s
  end.
Definition progress_play (l : list ProgressMove) (s : ProgressState) : ProgressState :=
  fold_left (fun s m => progress_move m s) l s.

Definition stale_move (m : ProgressMove) : bool := match m with PStale _ _ => true | _ => false end.

Lemma access_rtc sc l n s :
  may_load sc (progress s) (default (latest (progress s)) l) -> rtc (progress_step sc) s (access l n s).
Proof. intros H. unfold access. destruct (_ !! _) eqn:E; [|done]. apply rtc_once. by constructor. Qed.

Lemma progress_move_rtc sc m s : negb (sc && stale_move m) = true -> rtc (progress_step sc) s (progress_move m s).
Proof.
  intros Hm. destruct m as [|n d|n|l n]; simpl.
  - apply rtc_once. constructor.
  - unfold drop_one. case_bool_decide as H; [|done]. destruct H. apply rtc_once. by constructor.
  - apply access_rtc, may_load_latest.
  - destruct (Z.leb_spec (seen_completed l) (completed (progress s))); [|done].
    apply access_rtc. destruct sc; [done|]. by split.
Qed.

Lemma progress_play_rtc sc l s :
  forallb (fun m => negb (sc && stale_move m)) l = true -> rtc (progress_step sc) s (progress_play l s).
Proof.
  revert s. induction l as [|m l IH]; intros s; [done|]. simpl. intros [Hm Hl]%andb_prop.
  etrans; [by apply progress_move_rtc|by apply IH].
Qed.

Definition no_progress : ProgressState := mkProgressState new_progress ∅.
Definition race : list ProgressMove :=
  [PAccept; PAccept; PDrop 1 true; PDrop 2 true; PAccess 2; PAccess 1; PAccess 2].
Definition rest_of_race : list ProgressMove :=
  [PAccess 2; PAccess 2; PAccess 2; PAccess 1; PAccess 1; PAccess 1; PAccess 1; PAccess 1].
Definition racing : ProgressState := progress_play race no_progress.
Definition settled_race : ProgressState := progress_play rest_of_race racing.

Lemma racing_reachable : progress_reachable true racing.
Proof. by apply progress_play_rtc. Qed.

Lemma all_completed s :
  bool_decide (map_Forall (fun _ c => c_stage c = Completed) (completions s)) = true -> quiescent s.
Proof. intros H%bool_decide_eq_true. exact H. Qed.

Lemma drained_equivalence_witness :
  completed (progress racing) = 1 /\
  (forall n, 0 < n <= 1 -> outcome settled_race n = Some true) /\
  drained_between 0 2 (progress settled_race) = drained_reference 0 2 settled_race.
Proof.
  assert (Hrun : rtc (progress_step true) racing settled_race) by (by apply progress_play_rtc).
  split; [by vm_compute|]. split.
  - apply (drained_equivalence true racing settled_race 0 1 racing_reachable Hrun); [lia|by vm_compute].
  - apply (drained_equivalence true racing settled_race 0 2 racing_reachable Hrun);
      [lia|apply all_completed; by vm_compute|vm_compute; split; discriminate|by vm_compute|done].
Defined.

(** Acquire and Release are not enough: the second packet's thread publishes the gap and then
    loads the frontier, the first one's moves the frontier and then loads the flag, and each
    may miss the store of the other. Both packets are delivered, no thread is left inside
    [complete], and the drain check says not yet until another packet completes. *)
Definition missed : ProgressState :=
  progress_play [PAccept; PAccept; PDrop 1 true; PDrop 2 true; PAccess 2; PAccess 2; PAccess 1;
                 PStale (mkLoads 1 false) 1; PStale (mkLoads 0 true) 2; PAccess 2; PAccess 2] no_progress.

Theorem delivered_but_never_drained :
  progress_reachable false missed /\ quiescent missed /\
  outcome missed 1 = Some true /\ outcome missed 2 = Some true /\
  drained_reference 0 2 missed = Ok true /\ drained_between 0 2 (progress missed) = Ok false.
Proof.
  split; [by apply progress_play_rtc|]. split; [apply all_completed; by vm_compute|]. by vm_compute.
Qed.

Lemma completion_terminates_witness :
  ~ quiescent racing /\ exists s', access_step true racing s'.
Proof.
  assert (Hn : ~ quiescent racing).
  { intros H. specialize (H 2 (mkCompletion true Marked)). assert (completions racing !! 2 = Some (mkCompletion true Marked)) by (by vm_compute).
    by discriminate (H H0). }
  split; [done|]. by apply (completion_terminates true racing racing_reachable).
Defined.
