(* ===== verification/ProcessControl.v ===== *)
(** * Process identities

    The part of candy-process-control that candy-tunio relies on: a process is its PID and
    its start time, read from [/proc/<pid>/stat]. The exchange of messages over the
    supervision socket is input and output. *)
From stdpp Require Import base tactics list numbers option strings.
From Stdlib Require Import ZArith Lia.
From S2P Require Import Prelude Infra.

#[local] Open Scope Z_scope.

Record ProcessIdentity : Type := mkProcess {
  pid : Z;
  process_start_ticks : Z;
}.

#[export] Instance ProcessIdentity_eq_dec : EqDecision ProcessIdentity.
Proof. solve_decision. Defined.

Inductive StatError : Type := StatNotFound | StatFailed.

(** Reading the file takes time: the world moves on. *)
Class ProcFs (W : Type) := {
  read_stat : Z -> W -> Result StatError (list Z) * W;
}.

Definition i32_MAX : Z := 2147483647.

(** The text of the file, to an identity if the process runs. *)
Definition parse_stat (number : Z) (stat : list Z) : Result StatError (option ProcessIdentity) :=
  let? rest := ok_or (after_last 41 stat) StatFailed in
  let fields := split_whitespace [] rest in
  let? state := ok_or (head fields) StatFailed in
  let? field := ok_or (nth_error fields 19) StatFailed in
  let? ticks := ok_or (parse_u64 field) StatFailed in
  if bool_decide (state ∈ [[90]; [88]; [120]]) then Ok None
  else Ok (Some (mkProcess number ticks)).

Definition parse_optional_process_identity (number : Z) (stat : Result StatError (list Z))
  : Result StatError (option ProcessIdentity) :=
  if (0 <? number) && (number <=? i32_MAX) then
    match stat with
    | Ok stat => parse_stat number stat
    | Err StatNotFound => Ok None
    | Err StatFailed => Err StatFailed
    end
  else Err StatFailed.

Section Processes.
Context {W : Type} `{!ProcFs W}.

Definition process_identity (number : Z) (w : W) : Result StatError ProcessIdentity * W :=
  if (number =? 0) || (i32_MAX <? number) then (Err StatFailed, w)
  else
    let '(stat, w) := read_stat number w in
    (let? stat := stat in
     let? identity := parse_optional_process_identity number (Ok stat) in
     ok_or identity StatFailed, w).

Definition process_is_current (identity : ProcessIdentity) (w : W) : bool * W :=
  let '(actual, w) := process_identity (pid identity) w in
  (match actual with Ok actual => bool_decide (actual = identity) | Err _ => false end, w).

(** An error leaves the question open. *)
Definition process_is_current_confirmed (identity : ProcessIdentity) (w : W)
  : Result StatError bool * W :=
  let '(stat, w) := read_stat (pid identity) w in
  (let? actual := parse_optional_process_identity (pid identity) stat in
   Ok (bool_decide (actual = Some identity)), w).
End Processes.
