(* ===== verification/Tunio.v ===== *)
(** * The TUN process

    candy-tunio holds the TUN device that netd handed out. Its controller thread accepts
    authority transactions from the agent ([authority_control.rs]), attachments under the
    original authority ([attach_control.rs]) and supervision ([control.rs]), and passes owner
    changes to the packet port manager ([PortManager]) over a queue. This file holds the
    state of the process, its clocks, the queue, and what the controller learns from the
    manager's receipts; [TunioOps] holds the requests. *)
From stdpp Require Import base tactics list numbers option gmap strings.
From Stdlib Require Import ZArith Lia.
From S2P Require Import Prelude PacketPort PortManager ProcessControl.

#[local] Open Scope Z_scope.

(** ** Authority *)

Record AuthorityEnvelope : Type := mkEnvelope {
  ae_transaction_id : list Z;
  ae_revision : Z;
  ae_binding : PacketPortBinding;
  ae_candidate : ProcessIdentity;
  ae_controller : ProcessIdentity;
  ae_controller_epoch : Z;
  ae_signed_control_hash : list Z;
  ae_declaration_hash : list Z;
  ae_verification_report_hash : list Z;
  ae_snapshot_closure_hash : list Z;
  ae_signed_min_expiry : Z;
  ae_effective_expiry : Z;
  ae_verified_unix : Z;
  ae_verified_mono_ms : Z;
  ae_deadline_mono_ms : Z;
  ae_boot_id : list Z;
}.

#[export] Instance AuthorityEnvelope_eq_dec : EqDecision AuthorityEnvelope.
Proof. solve_decision. Defined.

Record OwnerAuthority : Type := mkOwnerAuthority {
  oa_envelope : AuthorityEnvelope;
  oa_transaction : OwnerTransaction;
  oa_expected_active_binding : option PacketPortBinding;
  oa_requested_prepare_deadline : Z;
  oa_prepared : bool;
}.

#[export] Instance OwnerAuthority_eq_dec : EqDecision OwnerAuthority.
Proof. solve_decision. Defined.

Record AuthorityOwnerReceipt : Type := mkOwnerReceipt {
  or_transaction_id : list Z;
  or_revision : Z;
  or_phase : string;
  or_binding : PacketPortBinding;
  or_expected_active_epoch : option Z;
  or_authorization_cap_mono_ms : Z;
  or_requested_prepare_deadline : Z;
}.

(** The names of the phases in [OwnerAuthority::receipt]. *)
Definition phase_text (phase : OwnerTransactionPhase) : string :=
  match phase with
  | Prepared => "prepared"
  | Committed => "committed"
  | Aborted => "aborted"
  | Expired => "expired"
  end.

(** [OwnerAuthority::receipt]. *)
Definition owner_authority_receipt (self : OwnerAuthority) (phase : OwnerTransactionPhase)
  : AuthorityOwnerReceipt :=
  mkOwnerReceipt (ae_transaction_id (oa_envelope self)) (revision (oa_transaction self))
    (phase_text phase) (tx_binding (oa_transaction self)) (expected_active_epoch (oa_transaction self))
    (ae_deadline_mono_ms (oa_envelope self)) (oa_requested_prepare_deadline self).

Record AuthorityState : Type := mkAuthority {
  highest_revision : Z;
  highest_policy : Z;
  highest_epoch : Z;
  staged : option AuthorityEnvelope;
  active : option AuthorityEnvelope;
  actual_deadline_mono_ms : option Z;
  actual_owner_binding : option PacketPortBinding;
  owner_highest_revision : Z;
  owner_pending : option AuthorityOwnerReceipt;
  owner_last_transaction : option AuthorityOwnerReceipt;
  owner_candidate : option OwnerAuthority;
  owner_terminal : option (OwnerAuthority * OwnerTransactionPhase);
  retained_owner_binding : option PacketPortBinding;
  a_old_owner_drained : bool;
  a_forced_retirement : bool;
  precommit_cancelled : option AuthorityEnvelope;
  isolated_committed : option AuthorityEnvelope;
  retired_expired_commit : option AuthorityEnvelope;
}.

Definition default_authority : AuthorityState :=
  mkAuthority 0 0 0 None None None None 0 None None None None None false false None None None.

(** [registration] is the watched flag while its sender is kept. *)
Record Controller : Type := mkController {
  process : ProcessIdentity;
  controller : ProcessIdentity;
  epoch : Z;
  token : list Z;
  generation : Z;
  auth_deadline_unix : Z;
  binding : PacketPortBinding;
  owner_active : bool;
  registered : bool;
  registration : option bool;
  authority : AuthorityState;
}.

Definition with_marks (revision policy epoch : Z) (a : AuthorityState) : AuthorityState :=
  mkAuthority revision policy epoch (staged a) (active a) (actual_deadline_mono_ms a)
    (actual_owner_binding a) (owner_highest_revision a) (owner_pending a)
    (owner_last_transaction a) (owner_candidate a) (owner_terminal a)
    (retained_owner_binding a) (a_old_owner_drained a) (a_forced_retirement a)
    (precommit_cancelled a) (isolated_committed a) (retired_expired_commit a).

Definition with_staged (e : option AuthorityEnvelope) (a : AuthorityState) : AuthorityState :=
  mkAuthority (highest_revision a) (highest_policy a) (highest_epoch a) e (active a)
    (actual_deadline_mono_ms a) (actual_owner_binding a) (owner_highest_revision a)
    (owner_pending a) (owner_last_transaction a) (owner_candidate a) (owner_terminal a)
    (retained_owner_binding a) (a_old_owner_drained a) (a_forced_retirement a)
    (precommit_cancelled a) (isolated_committed a) (retired_expired_commit a).

Definition with_active (e : option AuthorityEnvelope) (a : AuthorityState) : AuthorityState :=
  mkAuthority (highest_revision a) (highest_policy a) (highest_epoch a) (staged a) e
    (actual_deadline_mono_ms a) (actual_owner_binding a) (owner_highest_revision a)
    (owner_pending a) (owner_last_transaction a) (owner_candidate a) (owner_terminal a)
    (retained_owner_binding a) (a_old_owner_drained a) (a_forced_retirement a)
    (precommit_cancelled a) (isolated_committed a) (retired_expired_commit a).

Definition with_deadline (d : option Z) (a : AuthorityState) : AuthorityState :=
  mkAuthority (highest_revision a) (highest_policy a) (highest_epoch a) (staged a) (active
    a) d (actual_owner_binding a) (owner_highest_revision a) (owner_pending a)
    (owner_last_transaction a) (owner_candidate a) (owner_terminal a)
    (retained_owner_binding a) (a_old_owner_drained a) (a_forced_retirement a)
    (precommit_cancelled a) (isolated_committed a) (retired_expired_commit a).

Definition with_receipt (actual : PacketPortReceipt) (a : AuthorityState) : AuthorityState :=
  mkAuthority (highest_revision a) (highest_policy a) (highest_epoch a) (staged a) (active
    a) (actual_deadline_mono_ms a) (pr_binding actual) (pr_highest_transaction_revision
    actual) (owner_pending a) (owner_last_transaction a) (owner_candidate a) (owner_terminal
    a) (pr_retained_owner_binding actual) (pr_old_owner_drained actual)
    (pr_forced_retirement actual) (precommit_cancelled a) (isolated_committed a)
    (retired_expired_commit a).

Definition with_candidate (r : option OwnerAuthority) (a : AuthorityState) : AuthorityState :=
  mkAuthority (highest_revision a) (highest_policy a) (highest_epoch a) (staged a) (active
    a) (actual_deadline_mono_ms a) (actual_owner_binding a) (owner_highest_revision a)
    (owner_pending a) (owner_last_transaction a) r (owner_terminal a)
    (retained_owner_binding a) (a_old_owner_drained a) (a_forced_retirement a)
    (precommit_cancelled a) (isolated_committed a) (retired_expired_commit a).

Definition with_terminal (r : option (OwnerAuthority * OwnerTransactionPhase)) (a : AuthorityState) : AuthorityState :=
  mkAuthority (highest_revision a) (highest_policy a) (highest_epoch a) (staged a) (active
    a) (actual_deadline_mono_ms a) (actual_owner_binding a) (owner_highest_revision a)
    (owner_pending a) (owner_last_transaction a) (owner_candidate a) r
    (retained_owner_binding a) (a_old_owner_drained a) (a_forced_retirement a)
    (precommit_cancelled a) (isolated_committed a) (retired_expired_commit a).

Definition with_owner_receipts (p l : option AuthorityOwnerReceipt) (a : AuthorityState) : AuthorityState :=
  mkAuthority (highest_revision a) (highest_policy a) (highest_epoch a) (staged a) (active
    a) (actual_deadline_mono_ms a) (actual_owner_binding a) (owner_highest_revision a) p l
    (owner_candidate a) (owner_terminal a) (retained_owner_binding a) (a_old_owner_drained
    a) (a_forced_retirement a) (precommit_cancelled a) (isolated_committed a)
    (retired_expired_commit a).

Definition with_cancelled (e : AuthorityEnvelope) (a : AuthorityState) : AuthorityState :=
  mkAuthority (highest_revision a) (highest_policy a) (highest_epoch a) (staged a) (active
    a) (actual_deadline_mono_ms a) (actual_owner_binding a) (owner_highest_revision a)
    (owner_pending a) (owner_last_transaction a) (owner_candidate a) (owner_terminal a)
    (retained_owner_binding a) (a_old_owner_drained a) (a_forced_retirement a) (Some e)
    (isolated_committed a) (retired_expired_commit a).

Definition with_isolated (e : AuthorityEnvelope) (a : AuthorityState) : AuthorityState :=
  mkAuthority (highest_revision a) (highest_policy a) (highest_epoch a) (staged a) (active
    a) (actual_deadline_mono_ms a) (actual_owner_binding a) (owner_highest_revision a)
    (owner_pending a) (owner_last_transaction a) (owner_candidate a) (owner_terminal a)
    (retained_owner_binding a) (a_old_owner_drained a) (a_forced_retirement a)
    (precommit_cancelled a) (Some e) (retired_expired_commit a).

Definition with_retired (e : AuthorityEnvelope) (a : AuthorityState) : AuthorityState :=
  mkAuthority (highest_revision a) (highest_policy a) (highest_epoch a) (staged a) (active
    a) (actual_deadline_mono_ms a) (actual_owner_binding a) (owner_highest_revision a)
    (owner_pending a) (owner_last_transaction a) (owner_candidate a) (owner_terminal a)
    (retained_owner_binding a) (a_old_owner_drained a) (a_forced_retirement a)
    (precommit_cancelled a) (isolated_committed a) (Some e).

Definition with_controller (p : ProcessIdentity) (e : Z) (c : Controller) : Controller :=
  mkController (process c) p e (token c) (generation c) (auth_deadline_unix c) (binding c)
    (owner_active c) (registered c) (registration c) (authority c).

Definition with_authority (a : AuthorityState) (c : Controller) : Controller :=
  mkController (process c) (controller c) (epoch c) (token c) (generation c)
    (auth_deadline_unix c) (binding c) (owner_active c) (registered c) (registration c) a.

Definition with_binding (b : PacketPortBinding) (c : Controller) : Controller :=
  mkController (process c) (controller c) (epoch c) (token c) (generation c)
    (auth_deadline_unix c) b (owner_active c) (registered c) (registration c) (authority c).

Definition with_owner_active (v : bool) (c : Controller) : Controller :=
  mkController (process c) (controller c) (epoch c) (token c) (generation c)
    (auth_deadline_unix c) (binding c) v (registered c) (registration c) (authority c).

Definition with_deadline_unix (d : Z) (c : Controller) : Controller :=
  mkController (process c) (controller c) (epoch c) (token c) (generation c) d (binding c)
    (owner_active c) (registered c) (registration c) (authority c).

Definition with_registration (v : bool) (r : option bool) (c : Controller) : Controller :=
  mkController (process c) (controller c) (epoch c) (token c) (generation c)
    (auth_deadline_unix c) (binding c) (owner_active c) v r (authority c).

Definition on_authority (f : AuthorityState -> AuthorityState) (c : Controller) : Controller :=
  with_authority (f (authority c)) c.

(** ** Clocks and the host

    Instants and wall-clock times are nanoseconds, the boot clock is in milliseconds. *)

(** A check made by [deadline_check]: a cap on each clock. *)
Record DeadlineCheck : Type := mkDeadlineCheck {
  cap_mono_ms : Z;
  wall_cap : Z;
}.

(** The caps that a closure tests, one after the other. *)
Definition Authorization : Type := list DeadlineCheck.

(** A descriptor that came with a request: its socket, and what [getsockopt], [getsockname]
    and [peer_addr] say about it. *)
Record Descriptor : Type := mkDescriptor {
  d_socket : nat;
  d_datagram : bool;
  d_unix : bool;
  d_connected : bool;
  d_peer_uid : Z;
  d_peer_pid : Z;
}.

(** Something the process does beside the controller's request: an arm of the manager, the
    next update from the queue, or the guard's send. *)
Inductive ActorEvent : Type :=
| ManagerEvent (ev : Event)
| HandleUpdate
| GuardSends.

(** [patience] says what happens while the controller waits for the manager, and whether it
    then gives up although the answer may be there. *)
Class TunioHost (W : Type) := {
  tunio_procfs :: ProcFs W;
  t_instant : W -> Z * W;
  t_timer : Z -> W -> bool * W;
  t_boottime_ms : W -> option Z * W;
  t_wall : W -> option Z * W;
  t_boot_id : W -> option (list Z) * W;
  t_write : Target -> list Z -> W -> Result IoError bool * W;
  t_pending_input : UnixPacketPort -> W -> Result IoError bool * W;
  t_euid : Z;
  t_own_pid : Z;
  t_parent_pid : W -> Z * W;
  publish_status : Controller -> W -> bool * W;
  sync_status_directory : W -> bool * W;
  sha256_hex : list Z -> list Z;
  patience : W -> (list ActorEvent * bool) * W;
  request_timed_out : W -> bool * W;
}.

Definition MS : Z := 1000000.
Definition SECOND : Z := 1000000000.

Section Clocks.
Context {W : Type} `{!TunioHost W}.

(** *** Readings *)

Definition HostM (T : Type) : Type := M W string T.

Definition reading {T} (f : W -> T * W) : HostM T := fun w => let '(v, w) := f w in (Ok v, w).
Definition reading_or {T} (f : W -> option T * W) (code : string) : HostM T :=
  let* v := reading f in lift (ok_or v code).
Definition instant : HostM Z := reading t_instant.
(** [monotonic_ms]. *)
Definition boot_clock : HostM Z := reading_or t_boottime_ms "authorization clock".
(** [SystemTime::now().duration_since(UNIX_EPOCH)]. *)
Definition wall_clock : HostM Z := reading_or t_wall "system clock before the epoch".
Definition require_that (b : bool) (code : string) : HostM unit :=
  if b then mret tt else mfail code.

Definition capped_bootstrap_deadline (calculated : Z) (inherited : option Z) : Z :=
  match inherited with Some cap => Z.min cap calculated | None => calculated end.

(** [deadline_check], as the closure runs. *)
Definition run_deadline_check (c : DeadlineCheck) (w : W) : bool * W :=
  let '(mono, w) := t_boottime_ms w in
  match mono with
  | None => (false, w)
  | Some mono =>
      let '(wall, w) := t_wall w in
      match wall with
      | None => (false, w)
      | Some wall => (negb ((cap_mono_ms c <=? mono) || (wall_cap c <=? wall)), w)
      end
  end.

Fixpoint run_authorization (a : Authorization) (w : W) : bool * W :=
  match a with
  | [] => (true, w)
  | c :: a =>
      let '(ok, w) := run_deadline_check c w in
      if ok then run_authorization a w else (false, w)
  end.

(** [bootstrap_check]: the remaining time, set against the two other clocks. *)
Definition bootstrap_check (inherited : option Z) (deadline : Z) : HostM Authorization :=
  let* boot_anchor := boot_clock in
  let* wall_anchor := wall_clock in
  let* t := instant in
  let remaining := Z.max 0 (deadline - t) in
  let cap := boot_anchor + remaining / MS in
  do* require_that (cap <=? u64_MAX) "bootstrap authorization clock overflow" in
  mret [mkDeadlineCheck (capped_bootstrap_deadline cap inherited) (wall_anchor + remaining)].

#[export] Instance tunio_packet_host : PacketHost W Authorization := {
  instant_now := t_instant;
  timer_elapsed := t_timer;
  authorized := run_authorization;
  port_write := t_write;
  has_pending_input := t_pending_input;
}.

(** ** The state of the process *)

(** An update in the queue; [u_ticket] stands for its acknowledgement channel. *)
Record Update : Type := mkUpdate {
  u_change : PacketPortOwnerChange Authorization;
  u_ticket : nat;
}.

(** [boot_deadline_guard] between its steps, with what it read under the lock. *)
Inductive Guard : Type :=
| GuardIdle
| GuardFiring (active : option AuthorityEnvelope) (binding : PacketPortBinding)
| GuardSent (ticket : nat) (active : option AuthorityEnvelope) (binding : PacketPortBinding).

(** What the process started with: the deadlines of the original owner and the checks built
    from them. *)
Record Original : Type := mkOriginal {
  o_binding : PacketPortBinding;
  o_deadline_unix : Z;
  o_deadline : Z;
  o_authorization : Authorization;
  o_guard_authorization : Authorization;
  o_cap_mono_ms : option Z;
}.

Record Tunio : Type := mkTunio {
  ctl : Controller;
  bridge : Bridge W Authorization;
  updates : list Update;
  waiting : list nat;
  answers : list (nat * (Result string unit * PacketPortReceipt));
  next_ticket : nat;
  guard : Guard;
  original : Original;
}.

Definition set_ctl (c : Controller) (s : Tunio) : Tunio :=
  mkTunio c (bridge s) (updates s) (waiting s) (answers s) (next_ticket s) (guard s) (original s).
Definition set_bridge (b : Bridge W Authorization) (s : Tunio) : Tunio :=
  mkTunio (ctl s) b (updates s) (waiting s) (answers s) (next_ticket s) (guard s) (original s).
Definition set_updates (u : list Update) (s : Tunio) : Tunio :=
  mkTunio (ctl s) (bridge s) u (waiting s) (answers s) (next_ticket s) (guard s) (original s).
Definition set_waiting (l : list nat) (s : Tunio) : Tunio :=
  mkTunio (ctl s) (bridge s) (updates s) l (answers s) (next_ticket s) (guard s) (original s).
Definition set_answers (l : list (nat * (Result string unit * PacketPortReceipt))) (s : Tunio)
  : Tunio :=
  mkTunio (ctl s) (bridge s) (updates s) (waiting s) l (next_ticket s) (guard s) (original s).
Definition set_guard (g : Guard) (s : Tunio) : Tunio :=
  mkTunio (ctl s) (bridge s) (updates s) (waiting s) (answers s) (next_ticket s) g (original s).

Definition get_world (s : Tunio) : W := world (env (bridge s)).
Definition set_world (w : W) (s : Tunio) : Tunio :=
  set_bridge (set_env (mkEnv w (wire (env (bridge s)))) (bridge s)) s.

Definition TunioM (T : Type) : Type := M Tunio string T.

(** What only reads the host, and its use by the controller. *)
Definition on_host {T} (m : HostM T) : TunioM T :=
  fun s => let '(r, w) := m (get_world s) in (r, set_world w s).
Definition host {T} (f : W -> T * W) : TunioM T := on_host (reading f).
Definition bail {T} (code : string) : TunioM T := mfail code.
Definition ensure (b : bool) (code : string) : TunioM unit := if b then mret tt else bail code.
Definition get : TunioM Controller := gets ctl.
Definition put (f : Controller -> Controller) : TunioM unit :=
  modify (fun s => set_ctl (f (ctl s)) s).

Definition monotonic_ms : TunioM Z := on_host boot_clock.
Definition wall_time : TunioM Z := on_host wall_clock.
Definition unix_time : TunioM Z := let* t := wall_time in mret (t / SECOND).

Definition hex_digit (c : Z) : bool := ((48 <=? c) && (c <=? 57)) || ((97 <=? c) && (c <=? 102)).
Definition hex (value : list Z) (n : Z) : bool :=
  (Z.of_nat (length value) =? n) && forallb hex_digit value.

(** The text of the file, trimmed. *)
Definition boot_id : TunioM (list Z) :=
  let* text := on_host (reading_or t_boot_id "boot identity unavailable") in
  do* ensure ((Z.of_nat (length text) =? 36)
              && forallb (fun c => hex_digit c || ((65 <=? c) && (c <=? 70)) || (c =? 45)) text)
        "invalid boot identity" in
  mret text.

(** ** The queue to the manager *)

(** [tokio::sync::mpsc::channel(8)]. *)
Definition UPDATE_QUEUE : nat := 8.

(** [updates.try_send(..)]: refused by a full queue and by a manager that has returned. *)
Definition send_update (change : PacketPortOwnerChange Authorization) (s : Tunio)
  : option nat * Tunio :=
  if bool_decide (UPDATE_QUEUE <= length (updates s))%nat
     || bool_decide (is_Some (stopped (bridge s)))
  then (None, s)
  else
    let ticket := next_ticket s in
    (Some ticket,
     mkTunio (ctl s) (bridge s) (updates s ++ [mkUpdate change ticket]) (ticket :: waiting s)
       (answers s) (Datatypes.S ticket) (guard s) (original s)).

(** The manager takes the next update; one whose sender no longer waits is discarded. *)
Definition handle_update (s : Tunio) : Tunio :=
  match updates s, stopped (bridge s) with
  | update :: rest, None =>
      let s := set_updates rest s in
      if bool_decide (u_ticket update ∈ waiting s) then
        let '(result, receipt, b) := bridge_update (u_change update) (bridge s) in
        set_answers ((u_ticket update, (result, receipt)) :: answers s) (set_bridge b s)
      else s
  | _, _ => s
  end.

(** The guard's [updates.send(..)] finds room. *)
Definition guard_sends (s : Tunio) : Tunio :=
  match guard s with
  | GuardFiring active binding =>
      match send_update (Revoke (owner_epoch binding)) s with
      | (Some ticket, s) => set_guard (GuardSent ticket active binding) s
      | (None, s) => s
      end
  | _ => s
  end.

Definition actor_event (ev : ActorEvent) (s : Tunio) : Tunio :=
  match ev with
  | ManagerEvent ev => set_bridge (bridge_event ev (bridge s)) s
  | HandleUpdate => handle_update s
  | GuardSends => guard_sends s
  end.

Definition find_answer (ticket : nat) (s : Tunio)
  : option (Result string unit * PacketPortReceipt) :=
  snd <$> find (fun a => Nat.eqb a.1 ticket) (answers s).

Definition close_ticket (ticket : nat) (s : Tunio) : Tunio :=
  set_waiting (filter (fun t => t <> ticket) (waiting s)) s.

(** [wait_receiver] on the acknowledgement and the receipt: they are sent together. *)
Definition wait_answer (ticket : nat) : TunioM (Result string unit * PacketPortReceipt) :=
  let* waited := host patience in
  do* modify (fun s => fold_left (fun s ev => actor_event ev s) waited.1 s) in
  let* s := gets id in
  do* modify (close_ticket ticket) in
  if waited.2 then bail "packet_control_deadline"
  else lift (ok_or (find_answer ticket s) "packet_control_deadline"%string).

Definition manager_outcome (change : PacketPortOwnerChange Authorization)
  : TunioM (Result string unit * PacketPortReceipt) :=
  let* sent := fun s => let '(t, s) := send_update change s in (Ok t, s) in
  match sent with
  | None => bail "PacketPort owner queue unavailable"
  | Some ticket => wait_answer ticket
  end.

Definition manager_change (change : PacketPortOwnerChange Authorization)
  : TunioM PacketPortReceipt :=
  let* outcome := manager_outcome change in
  match outcome.1 with
  | Ok _ => mret outcome.2
  | Err error => bail error
  end.

(** ** What a receipt tells the controller *)

Definition same_transaction (r : option OwnerTransactionReceipt) (tx : OwnerTransaction) : bool :=
  match r with Some r => bool_decide (r_transaction r = tx) | None => false end.

(** The candidate, by what the manager says of its transaction. *)
Definition reconcile_candidate (actual : PacketPortReceipt) (a : AuthorityState)
  : AuthorityState :=
  match owner_candidate a with
  | None => a
  | Some record =>
      let a := with_candidate None a in
      let tx := oa_transaction record in
      if same_transaction (pr_pending actual) tx then
        with_candidate (Some (mkOwnerAuthority (oa_envelope record) tx
          (oa_expected_active_binding record) (oa_requested_prepare_deadline record) true)) a
      else
        match pr_last_transaction actual with
        | Some last =>
            if bool_decide (r_transaction last = tx) then
              let a := if bool_decide (staged a = Some (oa_envelope record))
                       then with_staged None a else a in
              let a := if bool_decide (r_phase last = Committed) then
                         with_active (if bool_decide (pr_binding actual
                                                      = Some (ae_binding (oa_envelope record)))
                                      then Some (oa_envelope record) else None) a
                       else a in
              with_terminal (Some (record, r_phase last)) a
            else a
        | None => a
        end
  end.

(** An active authority whose owner is gone is withdrawn; a terminal record that the manager
    no longer remembers is dropped. *)
Definition reconcile_terminal (actual : PacketPortReceipt) (a : AuthorityState) : AuthorityState :=
  match owner_terminal a with
  | None => a
  | Some (record, _) =>
      let a := if negb (bool_decide (pr_binding actual = Some (ae_binding (oa_envelope record))))
                  && bool_decide (active a = Some (oa_envelope record))
               then with_active None a else a in
      if negb (same_transaction (pr_last_transaction actual) (oa_transaction record))
      then with_terminal None a else a
  end.

Definition reconcile_owner (actual : PacketPortReceipt) (a : AuthorityState) : AuthorityState :=
  let a := reconcile_terminal actual (reconcile_candidate actual (with_receipt actual a)) in
  with_owner_receipts
    (record ← owner_candidate a;
     if oa_prepared record then Some (owner_authority_receipt record Prepared) else None)
    ((fun rp => owner_authority_receipt rp.1 rp.2) <$> owner_terminal a) a.

(** The staged authority has become that of the owner. *)
Definition adopt_staged (actual : PacketPortReceipt) (a : AuthorityState) : AuthorityState :=
  match staged a with
  | Some pending =>
      if (owner_epoch (ae_binding pending) =? pr_owner_epoch actual)
         && (policy_generation (ae_binding pending) =? pr_policy_generation actual)
      then with_active (Some pending) (with_staged None a) else a
  | None => a
  end.

Definition raise_marks (actual : PacketPortReceipt) (a : AuthorityState) : AuthorityState :=
  with_marks (highest_revision a) (Z.max (highest_policy a) (pr_policy_generation actual))
    (Z.max (highest_epoch a) (pr_owner_epoch actual)) a.

Definition reconcile_authority (actual : PacketPortReceipt) (a : AuthorityState)
  : AuthorityState :=
  raise_marks actual (adopt_staged actual (reconcile_owner actual a)).

(** The active authority is that of the owner the manager has. *)
Definition active_of (actual : PacketPortReceipt) (a : AuthorityState)
  : option AuthorityEnvelope :=
  e ← active a;
  if owner_epoch (ae_binding e) =? pr_owner_epoch actual then Some e else None.

Definition reconcile_binding (actual : PacketPortReceipt) (c : Controller) : Controller :=
  match pr_binding actual with
  | Some b => with_binding b c
  | None =>
      match active_of actual (authority c) with
      | Some e => with_binding (ae_binding e) c
      | None => c
      end
  end.

(** The remaining time in milliseconds, added to the boot clock. *)
Definition actual_deadline (deadline : option Z) (t now_mono : Z) : option Z :=
  d ← deadline;
  if d <? t then None
  else
    let v := now_mono + (d - t) / MS in
    if v <=? u64_MAX then Some v else None.

Definition reconcile (actual : PacketPortReceipt) : TunioM unit :=
  do* put (on_authority (reconcile_authority actual)) in
  do* put (reconcile_binding actual) in
  let* t := host t_instant in
  do* put (with_owner_active (bool_decide (is_Some (pr_binding actual))
             && match pr_auth_deadline actual with Some d => t <? d | None => false end)) in
  let* now_mono := monotonic_ms in
  let* t := host t_instant in
  do* put (on_authority (with_deadline (actual_deadline (pr_auth_deadline actual) t now_mono))) in
  let* c := get in
  match active_of actual (authority c) with
  | Some e =>
      do* put (with_deadline_unix (ae_effective_expiry e)) in
      put (on_authority (fun a =>
        with_deadline (Z.min (ae_deadline_mono_ms e) <$> actual_deadline_mono_ms a) a))
  | None => mret tt
  end.

Definition publish : TunioM unit :=
  let* c := get in
  let* done := host (publish_status c) in
  ensure done "status publication failed".

(** [apply_owner_change]. *)
Definition apply_owner_change (change : PacketPortOwnerChange Authorization) : TunioM unit :=
  let* outcome := manager_outcome change in
  do* reconcile outcome.2 in
  do* publish in
  match outcome.1 with
  | Ok _ => mret tt
  | Err error => bail error
  end.

Definition probe_manager : TunioM PacketPortReceipt :=
  let* actual := manager_change Probe in
  do* reconcile actual in
  mret actual.
End Clocks.

Arguments Tunio : clear implicits.
Arguments Original : clear implicits.
