(* ===== verification/TunioOps.v ===== *)
(** * The requests of the TUN process

    [apply_request] of [authority_control.rs] with its thirteen operations, [apply_request]
    of [attach_control.rs], [Controller::request] and the registration of [control.rs], the
    guard of the boot clock, and the start of the process; and the histories they make. *)
From stdpp Require Import base tactics list numbers option gmap strings.
From Stdlib Require Import ZArith Lia.
From S2P Require Import Prelude PacketPort PortManager ProcessControl Tunio.

#[local] Open Scope Z_scope.

Inductive AuthorityOperation : Type :=
| OpStageAuthority
| OpProbeTransaction
| OpAttachAuthorized
| OpRevokeExact
| OpDiscardAuthority
| OpPrepareOwner (expected_active_epoch : option Z) (prepare_deadline_mono_ms : Z)
| OpCommitOwner
| OpFinishOwnerDrain
| OpRetireOwnerAfterFailure
| OpAbortOwner
| OpRecoverPrecommit (expected_active : PacketPortBinding)
| OpIsolateCommittedOwner (expected_active : PacketPortBinding)
| OpRetireExpiredCommit (expected_active : PacketPortBinding).

Record AuthorityControlRequest : Type := mkAuthorityRequest {
  ar_schema_version : Z;
  ar_process : ProcessIdentity;
  ar_controller : ProcessIdentity;
  ar_controller_epoch : Z;
  ar_token_sha256 : list Z;
  ar_nonce : list Z;
  ar_operation : AuthorityOperation;
  ar_envelope : option AuthorityEnvelope;
  ar_transaction_id : list Z;
}.

Definition needs_descriptor (operation : AuthorityOperation) : bool :=
  match operation with OpAttachAuthorized | OpPrepareOwner _ _ => true | _ => false end.

(** The operations that only version 3 of the protocol has. *)
Definition owner_operation (operation : AuthorityOperation) : bool :=
  match operation with
  | OpStageAuthority | OpProbeTransaction | OpAttachAuthorized | OpRevokeExact
  | OpDiscardAuthority => false
  | _ => true
  end.

Definition infrastructure_matches (a b : PacketPortBinding) : bool :=
  bool_decide (infrastructure_id a = infrastructure_id b)
  && bool_decide (routing_domain_id a = routing_domain_id b)
  && (infrastructure_generation a =? infrastructure_generation b)
  && (io_epoch a =? io_epoch b).

Definition hex_value (c : Z) : Z := if c <=? 57 then c - 48 else c - 87.

Fixpoint hex_bytes (value : list Z) : list Z :=
  match value with
  | h :: l :: rest => (16 * hex_value h + hex_value l) :: hex_bytes rest
  | _ => []
  end.

Section Operations.
Context {W : Type} `{!TunioHost W}.
#[local] Abbreviation TunioM := (@Tunio.TunioM W).

Definition transaction_bytes (value : list Z) : TunioM (list Z) :=
  do* ensure (hex value 32) "owner transaction ID must be 32 lowercase hex digits" in
  mret (hex_bytes value).

(** [u64::checked_sub] and the millisecond conversion. *)
Definition verified_duration (authority : AuthorityEnvelope) : option Z :=
  let v := ae_effective_expiry authority - ae_verified_unix authority in
  if (0 <=? v) && (v * 1000 <=? u64_MAX) then Some (v * 1000) else None.

(** The first check that fails names the error. *)
Fixpoint first_failure (checks : list (bool * string)) : option string :=
  match checks with
  | [] => None
  | (ok, reason) :: rest => if ok then first_failure rest else Some reason
  end.

Definition envelope_checks (c : Controller) (e : AuthorityEnvelope) (now_unix now_mono duration : Z)
    (candidate_current boot_matches : bool) : list (bool * string) :=
  [ (hex (ae_transaction_id e) 32, "transaction_id_invalid"%string);
    (negb (ae_revision e =? 0), "authority_revision_zero"%string);
    (infrastructure_matches (ae_binding e) (binding c), "infrastructure_binding_mismatch"%string);
    (negb (policy_generation (ae_binding e) =? 0), "policy_generation_zero"%string);
    (negb (owner_epoch (ae_binding e) =? 0), "owner_epoch_zero"%string);
    (bool_decide (ae_controller e = controller c), "controller_identity_mismatch"%string);
    (ae_controller_epoch e =? epoch c, "controller_epoch_mismatch"%string);
    (candidate_current, "candidate_process_not_current"%string);
    (negb (bool_decide (ae_candidate e = process c))
     && negb (bool_decide (ae_candidate e = controller c)),
     "candidate_identity_not_independent"%string);
    (hex (ae_signed_control_hash e) 64, "signed_control_hash_invalid"%string);
    (hex (ae_declaration_hash e) 64, "declaration_hash_invalid"%string);
    (hex (ae_verification_report_hash e) 64, "verification_report_hash_invalid"%string);
    (hex (ae_snapshot_closure_hash e) 64, "snapshot_closure_hash_invalid"%string);
    (ae_effective_expiry e <=? ae_signed_min_expiry e, "wall_cap_exceeds_signed_expiry"%string);
    (now_unix <? ae_effective_expiry e, "wall_cap_expired"%string);
    (ae_verified_unix e <=? now_unix, "verified_wall_time_in_future"%string);
    (ae_verified_mono_ms e <=? now_mono, "verified_monotonic_time_in_future"%string);
    (now_mono <? ae_deadline_mono_ms e, "monotonic_cap_expired"%string);
    (ae_verified_mono_ms e <? ae_deadline_mono_ms e, "monotonic_cap_precedes_verification"%string);
    ((ae_verified_mono_ms e <=? ae_deadline_mono_ms e)
     && (ae_deadline_mono_ms e - ae_verified_mono_ms e <=? duration),
     "monotonic_cap_exceeds_verified_wall_duration"%string);
    (boot_matches, "boot_identity_mismatch"%string) ].

Definition validate_envelope (e : AuthorityEnvelope) : TunioM unit :=
  let* now_unix := unix_time in
  let* now_mono := monotonic_ms in
  let* duration := lift (ok_or (verified_duration e)
                           "invalid verified authorization duration"%string) in
  let* candidate_current := host (process_is_current (ae_candidate e)) in
  let* boot := boot_id in
  let* c := get in
  match first_failure (envelope_checks c e now_unix now_mono duration candidate_current
                         (bool_decide (ae_boot_id e = boot))) with
  | Some reason => bail reason
  | None => mret tt
  end.

(** [owner_deadline_with_clocks]: the anchor is read first. *)
Definition owner_deadline (deadline_mono_ms expiry_unix : Z) : TunioM Z :=
  let* anchor := host t_instant in
  let* mono := monotonic_ms in
  do* ensure (mono <? deadline_mono_ms) "authority monotonic deadline expired" in
  let* wall := wall_time in
  do* ensure (wall <? expiry_unix * SECOND) "authority wall deadline expired" in
  mret (anchor + Z.min ((deadline_mono_ms - mono) * MS) (expiry_unix * SECOND - wall)).

(** [authorization_check]. *)
Definition authorization_check (e : AuthorityEnvelope) : Authorization :=
  [mkDeadlineCheck (ae_deadline_mono_ms e) (ae_effective_expiry e * SECOND)].

(** [packet_port]: the descriptor must be a connected datagram socket of the controller. *)
Definition packet_port (fd : Descriptor) (peer : ProcessIdentity) (b : PacketPortBinding)
  : TunioM UnixPacketPort :=
  do* ensure (d_datagram fd) "authorized PacketPort descriptor must be datagram" in
  do* ensure (d_unix fd) "authorized PacketPort descriptor must be AF_UNIX" in
  do* ensure (d_connected fd) "authorized PacketPort must be connected" in
  do* ensure ((d_peer_uid fd =? t_euid) && (d_peer_pid fd =? pid peer))
        "authorized PacketPort was not created by current controller" in
  lift (map_err (fun _ => "packet port binding requires nonzero generations"%string)
          (UnixPacketPort_new (d_socket fd) b Infrastructure)).

(** [owner_record]. *)
Definition owner_record (a : AuthorityState) (id : list Z) : option OwnerAuthority :=
  let named (r : OwnerAuthority) := bool_decide (ae_transaction_id (oa_envelope r) = id) in
  match owner_candidate a with
  | Some r => if named r then Some r else
      match owner_terminal a with Some (r, _) => if named r then Some r else None | None => None end
  | None => match owner_terminal a with Some (r, _) => if named r then Some r else None | None => None end
  end.

(** [owner_receipt]. *)
Definition owner_receipt (a : AuthorityState) (id : list Z) : option AuthorityOwnerReceipt :=
  let named (r : OwnerAuthority) := bool_decide (ae_transaction_id (oa_envelope r) = id) in
  let terminal :=
    match owner_terminal a with
    | Some (r, phase) => if named r then Some (owner_authority_receipt r phase) else None
    | None => None
    end in
  match owner_candidate a with
  | Some r => if oa_prepared r && named r then Some (owner_authority_receipt r Prepared) else terminal
  | None => terminal
  end.

Definition PREPARE_LIMIT_MS : Z := 30000.

Definition prepare_record (e : AuthorityEnvelope) (expected : option Z) (prepare_mono_ms : Z)
    (expected_binding : option PacketPortBinding) : TunioM OwnerAuthority :=
  let* anchor := host t_instant in
  let* t := monotonic_ms in
  do* ensure ((t <? prepare_mono_ms) && (prepare_mono_ms - t <=? PREPARE_LIMIT_MS))
        "prepare_must_be_live_within_30s" in
  do* ensure (prepare_mono_ms <=? ae_deadline_mono_ms e) "prepare_exceeds_authorization_cap" in
  let* auth := owner_deadline (ae_deadline_mono_ms e) (ae_effective_expiry e) in
  let* id := transaction_bytes (ae_transaction_id e) in
  mret (mkOwnerAuthority e
          (mkTransaction id (ae_revision e) expected (ae_binding e) auth
             (Z.min (anchor + (prepare_mono_ms - t) * MS) auth))
          expected_binding prepare_mono_ms false).

(** *** The operations: [Ok true] goes on to the publication at the end of the request *)

Definition required {T} (o : option T) (code : string) : TunioM T := lift (ok_or o code).
Definition get_authority : TunioM AuthorityState := gets (fun s => authority (ctl s)).
Definition put_authority (f : AuthorityState -> AuthorityState) : TunioM unit :=
  put (on_authority f).

Definition is_envelope_of (o : option AuthorityEnvelope) (id : list Z) : bool :=
  match o with Some e => bool_decide (ae_transaction_id e = id) | None => false end.

Definition last_is (actual : PacketPortReceipt) (tx : OwnerTransaction)
    (phase : OwnerTransactionPhase) : bool :=
  match pr_last_transaction actual with
  | Some last => bool_decide (r_transaction last = tx) && bool_decide (r_phase last = phase)
  | None => false
  end.

Definition op_retire_expired (request : AuthorityControlRequest) (expected : PacketPortBinding)
  : TunioM bool :=
  let* e := required (ar_envelope request) "expired retirement requires exact envelope" in
  let* a := get_authority in
  let* record := required (owner_record a (ar_transaction_id request))
                   "owner_expired_context_unknown" in
  let* actual := probe_manager in
  let* c := get in
  do* ensure (negb (
      negb (bool_decide (oa_envelope record = e))
      || negb (bool_decide (ae_transaction_id e = ar_transaction_id request))
      || negb (bool_decide (oa_expected_active_binding record = Some expected))
      || negb (bool_decide (expected_active_epoch (oa_transaction record)
                            = Some (owner_epoch expected)))
      || negb (last_is actual (oa_transaction record) Expired)
      || negb (pr_highest_transaction_revision actual =? ae_revision e)
      || negb (owner_active c)
      || negb (bool_decide (pr_binding actual = Some expected))
      || bool_decide (is_Some (pr_pending actual))
      || bool_decide (is_Some (pr_retained_owner_binding actual))
      || bool_decide (is_Some (staged (authority c))))) "owner_expired_retirement_unconfirmed" in
  do* put_authority (with_retired e) in
  mret true.

Definition op_isolate_committed (request : AuthorityControlRequest)
    (expected : PacketPortBinding) : TunioM bool :=
  let* e := required (ar_envelope request) "committed isolation requires exact envelope" in
  let* a := get_authority in
  let* record := required (owner_record a (ar_transaction_id request))
                   "owner_isolation_context_unknown" in
  let* actual := probe_manager in
  do* ensure (negb (
      negb (bool_decide (oa_envelope record = e))
      || negb (bool_decide (ae_transaction_id e = ar_transaction_id request))
      || negb (bool_decide (expected_active_epoch (oa_transaction record)
                            = Some (owner_epoch expected)))
      || negb (bool_decide (oa_expected_active_binding record = Some expected))
      || negb (infrastructure_matches expected (ae_binding e))
      || negb (last_is actual (oa_transaction record) Committed)
      || negb (pr_highest_transaction_revision actual =? ae_revision e)
      || negb (pr_owner_epoch actual =? owner_epoch (ae_binding e))
      || bool_decide (is_Some (pr_pending actual))
      || match pr_binding actual with
         | Some b => negb (bool_decide (b = ae_binding e)) | None => false end
      || match pr_retained_owner_binding actual with
         | Some b => negb (bool_decide (b = expected)) | None => false end))
    "owner_isolation_identity_mismatch" in
  let* c := get in
  let* alive :=
    if owner_active c then
      let* alive := host (process_is_current_confirmed (ae_candidate e)) in
      lift (map_err (fun _ => "process_liveness_unconfirmed"%string) alive)
    else mret false in
  do* ensure (negb alive) "owner_isolation_live_candidate" in
  do* apply_owner_change (Revoke (owner_epoch (ae_binding e))) in
  let* c := get in
  do* ensure (negb (owner_active c
                    || bool_decide (is_Some (actual_owner_binding (authority c)))
                    || bool_decide (is_Some (retained_owner_binding (authority c)))
                    || bool_decide (is_Some (owner_pending (authority c)))))
        "owner_isolation_unconfirmed" in
  do* put_authority (with_isolated e) in
  mret true.

(** The manager's memory of a transaction. *)
Definition history_of (actual : PacketPortReceipt) (id : list Z) : option OwnerTransactionReceipt :=
  let named (r : option OwnerTransactionReceipt) :=
    r ← r; if bool_decide (transaction_id (r_transaction r) = id) then Some r else None in
  match named (pr_pending actual) with
  | Some r => Some r
  | None => named (pr_last_transaction actual)
  end.

(** Nothing speaks against the absence of the transaction. *)
Definition precommit_absent (c : Controller) (actual : PacketPortReceipt)
    (e : AuthorityEnvelope) (expected : PacketPortBinding) : bool :=
  let a := authority c in
  owner_active c
  && bool_decide (pr_binding actual = Some expected)
  && negb (bool_decide (is_Some (pr_pending actual)))
  && negb (bool_decide (is_Some (pr_retained_owner_binding actual)))
  && (pr_highest_transaction_revision actual <? ae_revision e)
  && negb (bool_decide (active a = Some e))
  && match staged a with Some p => bool_decide (p = e) | None => true end
  && (highest_revision a <=? ae_revision e)
  && (highest_epoch a <=? owner_epoch (ae_binding e))
  && (highest_policy a <=? policy_generation (ae_binding e))
  && negb match precommit_cancelled a with
          | Some cancelled => bool_decide (ae_transaction_id cancelled = ae_transaction_id e)
                              && negb (bool_decide (cancelled = e))
          | None => false
          end.

Definition raise_to (e : AuthorityEnvelope) (a : AuthorityState) : AuthorityState :=
  with_marks (Z.max (highest_revision a) (ae_revision e))
    (Z.max (highest_policy a) (policy_generation (ae_binding e)))
    (Z.max (highest_epoch a) (owner_epoch (ae_binding e))) a.

Definition op_recover_precommit (request : AuthorityControlRequest)
    (expected : PacketPortBinding) : TunioM bool :=
  let* e := required (ar_envelope request) "precommit recovery requires exact envelope" in
  do* ensure (bool_decide (ae_transaction_id e = ar_transaction_id request)
              && infrastructure_matches (ae_binding e) expected
              && (owner_epoch expected <? owner_epoch (ae_binding e))
              && (policy_generation expected <=? policy_generation (ae_binding e))
              && negb (ae_revision e =? 0)) "owner_precommit_identity_mismatch" in
  let* actual := probe_manager in
  let* id := transaction_bytes (ar_transaction_id request) in
  match history_of actual id with
  | Some history =>
      let* a := get_authority in
      let* exact := required (owner_record a (ar_transaction_id request))
                      "owner_precommit_context_unknown" in
      do* ensure (bool_decide (oa_envelope exact = e)
                  && bool_decide (oa_transaction exact = r_transaction history)
                  && bool_decide (expected_active_epoch (oa_transaction exact)
                                  = Some (owner_epoch expected))
                  && bool_decide (oa_expected_active_binding exact = Some expected))
            "owner_precommit_context_conflict" in
      do* publish in
      mret false
  | None =>
      let* c := get in
      do* ensure (precommit_absent c actual e expected) "owner_precommit_absence_unconfirmed" in
      do* put_authority (fun a => raise_to e (with_cancelled e (with_staged None a))) in
      mret true
  end.

Definition op_probe_transaction (request : AuthorityControlRequest) : TunioM bool :=
  do* ensure (negb (bool_decide (is_Some (ar_envelope request))))
        "Probe cannot supply an authorization envelope" in
  if ar_schema_version request =? 2 then do* publish in mret false
  else
    let* actual := probe_manager in
    let* id := transaction_bytes (ar_transaction_id request) in
    match history_of actual id with
    | Some history =>
        let tx := r_transaction history in
        let* outcome := manager_outcome (ProbeTransaction (transaction_id tx) (revision tx)) in
        do* reconcile outcome.2 in
        do* publish in
        do* lift outcome.1 in
        mret true
    | None => bail "owner_transaction_unknown"
    end.

Definition refuse_given_up (a : AuthorityState) (id : list Z) : TunioM unit :=
  do* ensure (negb (is_envelope_of (precommit_cancelled a) id)) "owner_precommit_cancelled" in
  ensure (negb (is_envelope_of (retired_expired_commit a) id)) "owner_expired_commit_retired".

(** The record that [PrepareOwner] repeats or makes. *)
Definition record_to_prepare (e : AuthorityEnvelope) (id : list Z) (expected : option Z)
    (prepare_mono_ms : Z) : TunioM OwnerAuthority :=
  let* a := get_authority in
  match owner_record a id with
  | Some record =>
      do* ensure (bool_decide (oa_envelope record = e)
                  && bool_decide (expected_active_epoch (oa_transaction record) = expected)
                  && (oa_requested_prepare_deadline record =? prepare_mono_ms))
            "owner_prepare_identity_mismatch" in
      mret record
  | None =>
      do* ensure (bool_decide (expected = owner_epoch <$> actual_owner_binding a))
            "owner_prepare_active_mismatch" in
      do* ensure (bool_decide (staged a = Some e)) "authority_stage_mismatch" in
      prepare_record e expected prepare_mono_ms (actual_owner_binding a)
  end.

Definition op_prepare_owner (request : AuthorityControlRequest) (peer : ProcessIdentity)
    (fds : list Descriptor) (expected : option Z) (prepare_mono_ms : Z) : TunioM bool :=
  let* e := required (ar_envelope request) "Prepare requires exact verified staged authority" in
  do* ensure (bool_decide (ae_transaction_id e = ar_transaction_id request))
        "owner_prepare_identity_mismatch" in
  do* validate_envelope e in
  let* a := get_authority in
  do* refuse_given_up a (ae_transaction_id e) in
  let* record := record_to_prepare e (ar_transaction_id request) expected prepare_mono_ms in
  let* fd := required (last fds) "checked one fd" in
  let* p := packet_port fd peer (ae_binding e) in
  do* put_authority (fun a =>
        match owner_record a (ar_transaction_id request) with
        | None => with_candidate (Some record) a
        | Some _ => a
        end) in
  do* apply_owner_change (PrepareOwner (oa_transaction record) p (authorization_check e)) in
  mret true.

Definition with_ae_controller (p : ProcessIdentity) (n : Z) (e : AuthorityEnvelope)
  : AuthorityEnvelope :=
  mkEnvelope (ae_transaction_id e) (ae_revision e) (ae_binding e) (ae_candidate e) p n
    (ae_signed_control_hash e) (ae_declaration_hash e) (ae_verification_report_hash e)
    (ae_snapshot_closure_hash e) (ae_signed_min_expiry e) (ae_effective_expiry e)
    (ae_verified_unix e) (ae_verified_mono_ms e) (ae_deadline_mono_ms e) (ae_boot_id e).

Definition is_committed_record (a : AuthorityState) (tx : OwnerTransaction) : bool :=
  match owner_terminal a with
  | Some (r, phase) => bool_decide (oa_transaction r = tx) && bool_decide (phase = Committed)
  | None => false
  end.

(** [CommitOwner], [FinishOwnerDrain] and [RetireOwnerAfterFailure]. *)
Definition op_finish (request : AuthorityControlRequest)
    (change : OwnerTransaction -> PacketPortOwnerChange Authorization) : TunioM bool :=
  let* a := get_authority in
  do* ensure (negb (is_envelope_of (retired_expired_commit a) (ar_transaction_id request)))
        "owner_expired_commit_retired" in
  let* record := required (owner_record a (ar_transaction_id request))
                   "owner_transaction_unknown" in
  do* ensure (bool_decide (ar_envelope request = Some (oa_envelope record)))
        "owner_commit_identity_mismatch" in
  let* c := get in
  do* (if is_committed_record a (oa_transaction record) then mret tt
       else validate_envelope (with_ae_controller (controller c) (epoch c) (oa_envelope record))) in
  do* apply_owner_change (change (oa_transaction record)) in
  mret true.

Definition op_abort (request : AuthorityControlRequest) : TunioM bool :=
  let* a := get_authority in
  let* record := required (owner_record a (ar_transaction_id request))
                   "owner_transaction_unknown" in
  do* ensure (match ar_envelope request with
              | Some e => bool_decide (e = oa_envelope record)
              | None => true
              end) "owner_abort_identity_mismatch" in
  do* apply_owner_change (AbortOwner (oa_transaction record)) in
  mret true.

Definition op_stage (request : AuthorityControlRequest) : TunioM bool :=
  let* e := required (ar_envelope request) "Stage requires verified local authority" in
  do* ensure (bool_decide (ae_transaction_id e = ar_transaction_id request))
        "Stage transaction differs" in
  do* validate_envelope e in
  let* c := get in
  let a := authority c in
  do* ensure (negb (is_envelope_of (retired_expired_commit a) (ae_transaction_id e)))
        "owner_expired_commit_retired" in
  do* ensure (negb (is_envelope_of (precommit_cancelled a) (ae_transaction_id e)))
        "owner_precommit_cancelled" in
  if bool_decide (staged a = Some e) || bool_decide (active a = Some e) then mret false
  else
    do* ensure (negb (bool_decide (is_Some (staged a))
        || (ae_revision e <=? highest_revision a)
        || (policy_generation (ae_binding e)
            <? Z.max (policy_generation (binding c)) (highest_policy a))
        || (owner_epoch (ae_binding e) <=? Z.max (owner_epoch (binding c)) (highest_epoch a))))
      "authority_revision_rejected" in
    do* put_authority (fun a =>
          with_staged (Some e)
            (with_marks (ae_revision e)
               (Z.max (highest_policy a) (policy_generation (ae_binding e)))
               (Z.max (highest_epoch a) (owner_epoch (ae_binding e))) a)) in
    mret true.

Definition op_attach_authorized (request : AuthorityControlRequest) (peer : ProcessIdentity)
    (fds : list Descriptor) : TunioM bool :=
  let* a := get_authority in
  do* ensure (negb (bool_decide (is_Some (owner_candidate a)))) "owner_legacy_attach_rejected" in
  let* e := required (ar_envelope request) "Attach requires exact staged authority" in
  do* ensure (bool_decide (ae_transaction_id e = ar_transaction_id request)
              && bool_decide (staged a = Some e)) "authority_stage_mismatch" in
  do* validate_envelope e in
  let* d := owner_deadline (ae_deadline_mono_ms e) (ae_effective_expiry e) in
  let* fd := required (last fds) "checked one fd" in
  let* p := packet_port fd peer (ae_binding e) in
  let* actual := manager_change (AttachAuthorized p d (authorization_check e)) in
  do* reconcile actual in
  let* c := get in
  do* ensure (bool_decide (active (authority c) = Some e)
              && bool_decide (binding c = ae_binding e))
        "actual PacketPort attachment does not match authority transaction" in
  mret true.

Definition op_revoke (request : AuthorityControlRequest) : TunioM bool :=
  do* ensure (negb (bool_decide (is_Some (ar_envelope request))))
        "Revoke cannot supply an envelope" in
  let* c := get in
  let* e := required (active (authority c)) "no applied authority transaction" in
  do* ensure (bool_decide (ae_transaction_id e = ar_transaction_id request)
              && bool_decide (binding c = ae_binding e))
        "Revoke refers to another applied authority transaction" in
  let* actual := manager_change (Revoke (owner_epoch (ae_binding e))) in
  do* reconcile actual in
  mret true.

Definition op_discard (request : AuthorityControlRequest) : TunioM bool :=
  do* ensure (negb (bool_decide (is_Some (ar_envelope request))))
        "Discard cannot supply an envelope" in
  let* a := get_authority in
  do* ensure (negb match owner_candidate a with
                   | Some r => bool_decide (ae_transaction_id (oa_envelope r)
                                            = ar_transaction_id request)
                   | None => false
                   end) "owner_discard_rejected" in
  do* ensure (is_envelope_of (staged a) (ar_transaction_id request))
        "Discard refers to another pending authority transaction" in
  do* put_authority (with_staged None) in
  mret true.

Definition run_operation (request : AuthorityControlRequest) (peer : ProcessIdentity)
    (fds : list Descriptor) : TunioM bool :=
  match ar_operation request with
  | OpRetireExpiredCommit expected => op_retire_expired request expected
  | OpIsolateCommittedOwner expected => op_isolate_committed request expected
  | OpRecoverPrecommit expected => op_recover_precommit request expected
  | OpProbeTransaction => op_probe_transaction request
  | OpPrepareOwner expected d => op_prepare_owner request peer fds expected d
  | OpCommitOwner => op_finish request CommitOwner
  | OpFinishOwnerDrain => op_finish request FinishOwnerDrain
  | OpRetireOwnerAfterFailure => op_finish request RetireOwnerAfterFailure
  | OpAbortOwner => op_abort request
  | OpStageAuthority => op_stage request
  | OpAttachAuthorized => op_attach_authorized request peer fds
  | OpRevokeExact => op_revoke request
  | OpDiscardAuthority => op_discard request
  end.

Definition must_sync (operation : AuthorityOperation) : bool :=
  match operation with
  | OpRecoverPrecommit _ | OpIsolateCommittedOwner _ | OpRetireExpiredCommit _ => true
  | _ => false
  end.

(** Only the controller of the current epoch, with the capability, once registered. *)
Definition authority_fence (request : AuthorityControlRequest) (peer : ProcessIdentity)
  : TunioM unit :=
  let* c := get in
  do* ensure (((ar_schema_version request =? 2) || (ar_schema_version request =? 3))
              && bool_decide (ar_process request = process c)
              && bool_decide (ar_controller request = peer)
              && bool_decide (peer = controller c)
              && (ar_controller_epoch request =? epoch c)) "authority_controller_rejected" in
  let* current := host (process_is_current peer) in
  do* ensure (current
              && bool_decide (ar_token_sha256 request = sha256_hex (token c))
              && hex (ar_nonce request) 32 && hex (ar_transaction_id request) 32
              && registered c) "authority_controller_rejected" in
  ensure (negb (negb (ar_schema_version request =? 3) && owner_operation (ar_operation request)))
    "owner_protocol_required".

(** [apply_request] of [authority_control.rs]. *)
Definition authority_request (request : AuthorityControlRequest) (peer : ProcessIdentity)
    (fds : list Descriptor) : TunioM unit :=
  do* authority_fence request peer in
  do* ensure (Nat.eqb (length fds) (if needs_descriptor (ar_operation request) then 1 else 0))
        "authorized Attach and Prepare require one descriptor" in
  do* probe_manager in
  let* finishing := run_operation request peer fds in
  if finishing : bool then
    do* publish in
    if must_sync (ar_operation request) then
      let* synced := host sync_status_directory in
      ensure synced "owner_precommit_publication_unsynced"
    else mret tt
  else mret tt.

(** *** The reply *)

Record AuthorityControlResponse : Type := mkAuthorityResponse {
  rs_schema_version : Z;
  rs_process : ProcessIdentity;
  rs_controller : ProcessIdentity;
  rs_controller_epoch : Z;
  rs_nonce : list Z;
  rs_accepted : bool;
  rs_active : option AuthorityEnvelope;
  rs_pending : option AuthorityEnvelope;
  rs_highest_revision : Z;
  rs_highest_owner_epoch : Z;
  rs_highest_policy_generation : Z;
  rs_applied_transaction_id : option (list Z);
  rs_authority_revision : option Z;
  rs_current_binding : PacketPortBinding;
  rs_auth_deadline_unix : Z;
  rs_owner_active : bool;
  rs_actual_deadline_mono_ms : option Z;
  rs_owner_transaction : option AuthorityOwnerReceipt;
  rs_actual_owner_binding : option PacketPortBinding;
  rs_owner_highest_revision : option Z;
  rs_retained_owner_binding : option PacketPortBinding;
  rs_old_owner_drained : bool;
  rs_forced_retirement : bool;
  rs_precommit_cancelled : option AuthorityEnvelope;
  rs_isolated_committed : option AuthorityEnvelope;
  rs_retired_expired_commit : option AuthorityEnvelope;
}.

Definition authority_response (request : AuthorityControlRequest) (accepted : bool)
    (c : Controller) : AuthorityControlResponse :=
  let a := authority c in
  let v3 := ar_schema_version request =? 3 in
  let own {T} (o : option T) : option T := if v3 then o else None in
  let matching (o : option AuthorityEnvelope) :=
    e ← own o; if bool_decide (ae_transaction_id e = ar_transaction_id request) then Some e else None in
  mkAuthorityResponse (ar_schema_version request) (process c) (controller c) (epoch c)
    (ar_nonce request) accepted (active a) (staged a) (highest_revision a) (highest_epoch a)
    (highest_policy a) (ae_transaction_id <$> active a) (ae_revision <$> active a) (binding c)
    (auth_deadline_unix c) (owner_active c) (actual_deadline_mono_ms a)
    (own (owner_receipt a (ar_transaction_id request))) (own (actual_owner_binding a))
    (own (Some (owner_highest_revision a))) (own (retained_owner_binding a))
    (v3 && a_old_owner_drained a) (v3 && a_forced_retirement a)
    (matching (precommit_cancelled a)) (matching (isolated_committed a))
    (matching (retired_expired_commit a)).

(** A request under the lock of the controller, and its reply. *)
Definition serve_authority (request : AuthorityControlRequest) (peer : ProcessIdentity)
    (fds : list Descriptor) (s : Tunio W) : AuthorityControlResponse * Tunio W :=
  let '(result, s) := authority_request request peer fds s in
  (authority_response request (is_ok result) (ctl s), s).

(** ** Attachments under the original authority: [attach_control.rs] *)

Inductive PacketControlOperation : Type := PcAttach | PcRevoke | PcProbe.

Record PacketControlRequest : Type := mkPacketRequest {
  pc_schema_version : Z;
  pc_process : ProcessIdentity;
  pc_controller : ProcessIdentity;
  pc_controller_epoch : Z;
  pc_token_sha256 : list Z;
  pc_nonce : list Z;
  pc_operation : PacketControlOperation;
  pc_binding : PacketPortBinding;
  pc_auth_deadline_unix : Z;
}.

Definition fixed_binding_matches (actual original : PacketPortBinding) : bool :=
  infrastructure_matches actual original
  && (policy_generation actual =? policy_generation original).

Definition hex_digit_any (c : Z) : bool := hex_digit c || ((65 <=? c) && (c <=? 70)).

(** [owner_deadline] of this file: never behind the original one. *)
Definition attach_deadline (request : PacketControlRequest) (o : Original) : TunioM Z :=
  do* ensure (pc_auth_deadline_unix request <=? o_deadline_unix o)
        "rebind cannot extend original signed deadline" in
  let* anchor := host t_instant in
  let* wall := wall_time in
  do* ensure (wall <? pc_auth_deadline_unix request * SECOND) "owner authorization expired" in
  let d := Z.min (anchor + (pc_auth_deadline_unix request * SECOND - wall)) (o_deadline o) in
  let* t := host t_instant in
  do* ensure (t <? d) "original monotonic authorization expired" in
  mret d.

Definition attach_change (request : PacketControlRequest) (peer : ProcessIdentity)
    (fds : list Descriptor) (o : Original) : TunioM (PacketPortOwnerChange Authorization) :=
  let* c := get in
  do* ensure (Nat.eqb (length fds) 1 && (owner_epoch (binding c) <? owner_epoch (pc_binding request)))
        "Attach requires one descriptor and strictly advancing owner epoch" in
  let* d := attach_deadline request o in
  let* fd := required (last fds) "checked descriptor count" in
  let* p := packet_port fd peer (pc_binding request) in
  let* replacement := on_host (bootstrap_check (o_cap_mono_ms o) d) in
  mret (AttachAuthorized p d (o_authorization o ++ replacement)).

Definition packet_fence (request : PacketControlRequest) (peer : ProcessIdentity) (o : Original)
  : TunioM unit :=
  let* c := get in
  do* ensure ((pc_schema_version request =? 1)
              && bool_decide (pc_process request = process c)
              && bool_decide (pc_controller request = peer)
              && bool_decide (peer = controller c)
              && (pc_controller_epoch request =? epoch c)) "controller_fence_rejected" in
  let* current := host (process_is_current peer) in
  do* ensure (current && bool_decide (pc_token_sha256 request = sha256_hex (token c))
              && Nat.eqb (length (pc_nonce request)) 32
              && forallb hex_digit_any (pc_nonce request)) "controller_fence_rejected" in
  do* ensure (fixed_binding_matches (pc_binding request) (o_binding o)) "packet_binding_rejected" in
  let probing := match pc_operation request with PcProbe => true | _ => false end in
  do* ensure (registered c || probing) "registration_incomplete" in
  ensure (negb (bool_decide (is_Some (active (authority c)))
                || bool_decide (is_Some (staged (authority c)))) || probing)
    "authority_schema_required".

(** The update is sent and its acknowledgement awaited. *)
Definition apply_packet_change (change : PacketPortOwnerChange Authorization)
    (request : PacketControlRequest) (peer : ProcessIdentity) (attaching : bool) : TunioM unit :=
  let* late := host request_timed_out in
  do* ensure (negb late) "packet_control_deadline" in
  let* current := host (process_is_current peer) in
  do* ensure current "controller exited before owner update" in
  let* outcome := manager_outcome change in
  do* lift outcome.1 in
  do* put (fun c =>
        let c := with_owner_active attaching (with_binding (pc_binding request) c) in
        if attaching then with_deadline_unix (pc_auth_deadline_unix request) c else c) in
  publish.

(** [apply_request] of [attach_control.rs]. *)
Definition packet_request (request : PacketControlRequest) (peer : ProcessIdentity)
    (fds : list Descriptor) : TunioM unit :=
  let* o := gets original in
  do* packet_fence request peer o in
  match pc_operation request with
  | PcProbe => ensure (bool_decide (fds = [])) "Probe cannot receive descriptors"
  | PcAttach =>
      let* change := attach_change request peer fds o in
      apply_packet_change change request peer true
  | PcRevoke =>
      let* c := get in
      do* ensure (bool_decide (fds = []) && bool_decide (pc_binding request = binding c))
            "Revoke requires no descriptors and the exact current binding" in
      apply_packet_change (Revoke (owner_epoch (pc_binding request))) request peer false
  end.

(** ** Supervision: [control.rs] *)

Inductive ControlOperation : Type := CtProbe | CtTakeover | CtStop.

Record ControlRequest : Type := mkControlRequest {
  cr_schema_version : Z;
  cr_operation : ControlOperation;
  cr_token_sha256 : list Z;
  cr_nonce : list Z;
}.

(** [ControlOperation::Takeover] by another process than the controller. *)
Definition take_over (peer : ProcessIdentity) : TunioM (bool * string) :=
  let* c := get in
  let* alive := host (process_is_current (controller c)) in
  if alive then mret (false, "previous_controller_alive"%string)
  else if 2 ^ 64 <=? epoch c + 1 then mret (false, "controller_epoch_exhausted"%string)
  else
    do* put (with_controller peer (epoch c + 1)) in
    let* published := attempt publish in
    if is_ok published then mret (true, "controller_adopted"%string)
    else
      do* put (with_controller (controller c) (epoch c)) in
      mret (false, "controller_record_unavailable"%string).

Definition probe_registration (peer : ProcessIdentity) : TunioM unit :=
  let* c := get in
  if bool_decide (peer = controller c) then
    let* current := host (process_is_current peer) in
    if current then
      put (fun c => with_registration (registered c) ((fun _ => true) <$> registration c) c)
    else mret tt
  else mret tt.

(** [Controller::request]: whether it is accepted, its code, and whether the process stops. *)
Definition control_request (peer : ProcessIdentity) (request : ControlRequest)
  : TunioM (bool * string * bool) :=
  let* c := get in
  if negb ((cr_schema_version request =? 1)
           && bool_decide (cr_token_sha256 request = sha256_hex (token c))
           && Nat.eqb (length (cr_nonce request)) 32 && forallb hex_digit_any (cr_nonce request))
  then mret (false, "control_capability_invalid"%string, false)
  else
    match cr_operation request with
    | CtProbe => do* probe_registration peer in mret (true, "process_probed"%string, false)
    | CtTakeover =>
        if negb (registered c) then mret (false, "registration_incomplete"%string, false)
        else if bool_decide (peer = controller c)
        then mret (true, "controller_current"%string, false)
        else let* taken := take_over peer in mret (taken.1, taken.2, false)
    | CtStop =>
        if bool_decide (peer = controller c) then mret (true, "controller_stop"%string, true)
        else mret (false, "controller_identity_mismatch"%string, false)
    end.

(** [ControlRegistration::wait], once the watched flag is set. *)
Definition confirm_registration : TunioM unit :=
  let* c := get in
  do* ensure (bool_decide (registration c = Some true))
        "TUNIO durable registration not confirmed within startup deadline" in
  let* current := host (process_is_current (controller c)) in
  do* ensure current "controller exited before registration completed" in
  let* parent := host t_parent_pid in
  do* ensure (parent =? pid (controller c)) "registration requires same living startup parent" in
  let* current := host (process_is_current (controller c)) in
  do* ensure current "controller exited while registration guard cleared" in
  do* put (with_registration true None) in
  publish.

(** ** The guard of the boot clock: [boot_deadline_guard] *)

Definition guard_expired (c : Controller) (o : Original) : TunioM bool :=
  match active (authority c) with
  | Some e => let* ok := host (run_authorization (authorization_check e)) in mret (negb ok)
  | None =>
      let* ok := host (run_authorization (o_guard_authorization o)) in
      if ok then
        let* t := attempt unix_time in
        mret match t with Ok t => auth_deadline_unix c <=? t | Err _ => true end
      else mret true
  end.

Definition guard_check : TunioM unit :=
  let* s := gets id in
  match guard s with
  | GuardIdle =>
      if owner_active (ctl s) then
        let* expired := guard_expired (ctl s) (original s) in
        if expired
        then modify (set_guard (GuardFiring (active (authority (ctl s))) (binding (ctl s))))
        else mret tt
      else mret tt
  | _ => mret tt
  end.

(** The acknowledgement is there, and the lock of the controller is free. *)
Definition guard_clears (e : option AuthorityEnvelope) (b : PacketPortBinding) : TunioM unit :=
  let* c := get in
  if bool_decide (binding c = b) && bool_decide (active (authority c) = e) then
    do* put (fun c => with_owner_active false
               (on_authority (fun a => with_deadline None (with_active None a)) c)) in
    ignore publish
  else mret tt.

(** [locked]: [try_lock] fails. [late]: the acknowledgement does not come within 2 s. *)
Definition guard_settles (locked late : bool) : TunioM unit :=
  let* s := gets id in
  match guard s with
  | GuardSent ticket e b =>
      do* modify (fun s => set_guard GuardIdle (close_ticket ticket s)) in
      match find_answer ticket s with
      | Some (Ok _, _) => if locked || late then mret tt else guard_clears e b
      | _ => mret tt
      end
  | _ => mret tt
  end.
End Operations.
