(* ===== verification/TunioRuns.v ===== *)
(** * The TUN process: its start and its runs

    [main.rs], [start_managed_infrastructure] of [lib.rs] and [control::start], up to the
    moment when the endpoints listen; and the steps of the running process, whichever of its
    threads and tasks makes them. *)
From stdpp Require Import base tactics list numbers option gmap strings.
From Stdlib Require Import ZArith Lia.
From S2P Require Import Prelude PacketPort PortManager ProcessControl Tunio TunioOps.

#[local] Open Scope Z_scope.

Section Runs.
Context {W : Type} `{!TunioHost W}.

(** ** The start *)

(** The arguments, with the binding that the file holds. *)
Record Args : Type := mkArgs {
  arg_auth_deadline_unix : Z;
  arg_auth_deadline_mono_ms : option Z;
  arg_binding : PacketPortBinding;
  arg_packet_port : Descriptor;
  arg_readiness_token : list Z;
}.

Definition ONE_HOUR : Z := 3600 * SECOND.

(** The deadline of the first owner: wall-clock authorization, never behind the inherited
    cap on the boot clock. *)
Definition startup_deadline (args : Args) : HostM Z :=
  let* anchor := instant in
  let* wall := wall_clock in
  let remaining := arg_auth_deadline_unix args * SECOND - wall in
  do* require_that (0 <? remaining) "owner authorization expired" in
  do* require_that (remaining <=? ONE_HOUR)
        "experimental detached owner authorization is limited to one hour" in
  match arg_auth_deadline_mono_ms args with
  | None => mret (anchor + remaining)
  | Some cap_ms =>
      let* installed := boot_clock in
      do* require_that (installed <? cap_ms) "authority_expired" in
      let* now_ms := boot_clock in
      do* require_that (now_ms <? cap_ms) "authority_expired" in
      mret (Z.min (anchor + remaining) (anchor + (cap_ms - now_ms) * MS))
  end.

(** The inherited descriptor comes from the parent. *)
Definition startup_port (args : Args) : HostM UnixPacketPort :=
  let fd := arg_packet_port args in
  do* require_that (d_datagram fd && d_unix fd && d_connected fd)
        "packet port must be a connected Unix datagram socket" in
  let* parent := reading t_parent_pid in
  do* require_that ((d_peer_uid fd =? t_euid) && (d_peer_pid fd =? parent))
        "packet port was not provided by the current Runtime supervisor" in
  lift (map_err (fun _ => "packet port binding requires nonzero generations"%string)
          (UnixPacketPort_new (d_socket fd) (arg_binding args) Infrastructure)).

(** [start_managed_infrastructure]: the manager with its first owner. *)
Definition start_managed_infrastructure (cap : option Z) (worker : UnixPacketPort) (deadline : Z)
  : HostM (Bridge W Authorization) :=
  let* authorization := bootstrap_check cap deadline in
  fun w =>
    let '(result, _, b) :=
      bridge_update (AttachAuthorized worker deadline authorization)
        (new_bridge (port_binding worker) w) in
    (match result with
     | Ok _ => Ok b
     | Err _ => Err "initial PacketPort attachment failed"%string
     end, world (env b)).

Definition identity_of (number : Z) : HostM ProcessIdentity :=
  fun w => let '(r, w) := process_identity number w in
           (map_err (fun _ => "process identity unavailable"%string) r, w).

(** [control::start], with the starts of the two other endpoints. *)
Definition control_start (args : Args) (deadline : Z) (b : Bridge W Authorization)
  : HostM (Tunio W) :=
  do* require_that (32 <=? Z.of_nat (length (arg_readiness_token args)))
        "supervision capability must have at least 128 bits of entropy" in
  let* process := identity_of t_own_pid in
  let* parent := reading t_parent_pid in
  let* controller := identity_of parent in
  let binding := arg_binding args in
  let c := mkController process controller 1 (arg_readiness_token args)
             (policy_generation binding) (arg_auth_deadline_unix args) binding true false
             (Some false) default_authority in
  let* published := reading (publish_status c) in
  do* require_that published "status publication failed" in
  let cap := arg_auth_deadline_mono_ms args in
  let* attach_authorization := bootstrap_check cap deadline in
  let* guard_authorization := bootstrap_check cap deadline in
  fun w =>
    (Ok (mkTunio c (set_env (mkEnv w (wire (env b))) b) [] [] [] O GuardIdle
           (mkOriginal binding (arg_auth_deadline_unix args) deadline attach_authorization
              guard_authorization cap)), w).

(** [main]; [acquire] asks netd for the TUN device. *)
Definition start (acquire : HostM unit) (args : Args) : HostM (Tunio W) :=
  let* deadline := startup_deadline args in
  let* port := startup_port args in
  do* acquire in
  let* b := start_managed_infrastructure (arg_auth_deadline_mono_ms args) port deadline in
  control_start args deadline b.

(** ** The steps *)

Inductive tunio_step (s : Tunio W) : Tunio W -> Prop :=
| tunio_actor ev : tunio_step s (actor_event ev s)
| tunio_world w : tunio_step s (set_world w s)
| tunio_authority request peer fds : tunio_step s (serve_authority request peer fds s).2
| tunio_packet request peer fds : tunio_step s (packet_request request peer fds s).2
| tunio_control peer request : tunio_step s (control_request peer request s).2
| tunio_registered : tunio_step s (confirm_registration s).2
| tunio_guard_check : tunio_step s (guard_check s).2
| tunio_guard_settles locked late : tunio_step s (guard_settles locked late s).2.

Definition tunio_started (s : Tunio W) : Prop :=
  exists acquire args w w', start acquire args w = (Ok s, w').

Definition tunio_reachable (s : Tunio W) : Prop :=
  exists s0, tunio_started s0 /\ rtc tunio_step s0 s.
End Runs.
