(* ===== verification/TunioQueue.v ===== *)
(** * The TUN process: the controller and its manager

    The queue between them, with its tickets. The central fact is [manager_outcome_wp]: an
    answer belongs to one handling of exactly the change that was sent, and before and after
    it the manager only sees its own events and the guard's revocations; a change whose
    sender gave up either took effect before or never will. *)
From stdpp Require Import base tactics list numbers option gmap strings.
From Stdlib Require Import ZArith Lia.
From S2P Require Import Prelude PacketPort PortManager PortManagerFacts PortManagerInv PortManagerSpec ProcessControl Tunio TunioOps TunioRuns.

#[local] Open Scope Z_scope.

(** ** What the manager does by itself *)

Section Quiet.
Context {W A : Type} `{!PacketHost W A}.
Implicit Types (b : Bridge W A).

(** An event, the rest of the world, or a revocation by the guard. *)
Inductive quiet_step b : Bridge W A -> Prop :=
| quiet_event ev : quiet_step b (bridge_event ev b)
| quiet_world w : quiet_step b (set_env (mkEnv w (wire (env b))) b)
| quiet_revoke epoch :
    stopped b = None -> quiet_step b (bridge_update (Revoke epoch) b).2.

Definition quiet_run : Bridge W A -> Bridge W A -> Prop := rtc quiet_step.

(** The same, with the handling of one change. *)
Definition applied (change : PacketPortOwnerChange A) b (r : Result string unit)
    (receipt : PacketPortReceipt) b' : Prop :=
  exists b0 b1, quiet_run b b0 /\ stopped b0 = None /\
    bridge_update change b0 = (r, receipt, b1) /\ quiet_run b1 b'.

Lemma quiet_manager b b' : quiet_step b b' -> manager_step b b'.
Proof. intros [ev|w|epoch Hs]; by constructor. Qed.

Lemma quiet_run_manager b b' : quiet_run b b' -> rtc manager_step b b'.
Proof. induction 1 as [|b1 b2 b3 H _ IH]; [done|]. eapply rtc_l; [by apply quiet_manager|done]. Qed.

Lemma applied_manager change b r receipt b' : applied change b r receipt b' -> rtc manager_step b b'.
Proof.
  intros (b0 & b1 & H1 & Hs & Hu & H2). trans b0; [by apply quiet_run_manager|].
  trans b1; [|by apply quiet_run_manager]. apply rtc_once.
  replace b1 with (bridge_update change b0).2 by (by rewrite Hu). by constructor.
Qed.
End Quiet.

Section Queue.
Context {W : Type} `{!TunioHost W}.
Implicit Types (s : Tunio W) (u : Update).
#[local] Abbreviation TunioM := (@Tunio.TunioM W).

(** ** Tickets *)

Definition live s u : Prop := u ∈ updates s /\ u_ticket u ∈ waiting s.

Record tickets_ok s : Prop := {
  tk_nodup : NoDup (u_ticket <$> updates s);
  tk_updates : Forall (fun u => u_ticket u < next_ticket s)%nat (updates s);
  tk_waiting : Forall (fun t => t < next_ticket s)%nat (waiting s);
  tk_answers t : is_Some (find_answer t s) ->
    (t < next_ticket s)%nat /\ t ∉ u_ticket <$> updates s;
}.

(** Between the requests only revocations of the guard are under way. *)
Record steady s : Prop := {
  st_tickets : tickets_ok s;
  st_resting u : live s u -> exists epoch, u_change u = Revoke epoch;
}.

(** The controller's side is left alone. *)
Definition same_controller s s' : Prop := ctl s' = ctl s /\ original s' = original s.

Lemma same_controller_refl s : same_controller s s.
Proof. done. Qed.

Lemma same_controller_trans s1 s2 s3 :
  same_controller s1 s2 -> same_controller s2 s3 -> same_controller s1 s3.
Proof. intros [H1 H2] [H3 H4]. split; congruence. Qed.

(** ** The steps of the queue *)

Lemma send_update_cases change s :
  (exists s', send_update change s = (None, s') /\ s' = s) \/
  send_update change s = (Some (next_ticket s),
    mkTunio (ctl s) (bridge s) (updates s ++ [mkUpdate change (next_ticket s)])
      (next_ticket s :: waiting s) (answers s) (S (next_ticket s)) (guard s) (original s)).
Proof. unfold send_update. destruct (_ || _); [left; eauto|by right]. Qed.

(** A new update is the only one of its ticket. *)
Lemma sent_tickets change s :
  tickets_ok s ->
  tickets_ok (mkTunio (ctl s) (bridge s) (updates s ++ [mkUpdate change (next_ticket s)])
    (next_ticket s :: waiting s) (answers s) (S (next_ticket s)) (guard s) (original s)).
Proof.
  intros [Hn Hu Hw Ha]. constructor; simpl.
  - rewrite fmap_app. apply NoDup_app. split_and!; [done| |apply NoDup_singleton].
    intros t Ht. simpl. intros ->%list_elem_of_singleton.
    apply list_elem_of_fmap in Ht as (u & E & Hin). rewrite Forall_forall in Hu. specialize (Hu u Hin). lia.
  - apply Forall_app. split; [|by constructor; [simpl; lia|]].
    eapply Forall_impl; [done|]. simpl. intros; lia.
  - constructor; [lia|]. eapply Forall_impl; [done|]. simpl. intros; lia.
  - intros t Ht. destruct (Ha t Ht) as [H1 H2]. split; [lia|].
    rewrite fmap_app. intros [H|H]%elem_of_app; [done|].
    apply list_elem_of_singleton in H. simpl in H. lia.
Qed.

(** The state while the controller waits for [ticket], since the bridge was [b]. *)
Definition awaiting (ticket : nat) (change : PacketPortOwnerChange Authorization)
    (b : Bridge W Authorization) s : Prop :=
  tickets_ok s /\
  (forall u, live s u -> u_ticket u <> ticket -> exists epoch, u_change u = Revoke epoch) /\
  (forall u, live s u -> u_ticket u = ticket -> u_change u = change) /\
  match find_answer ticket s with
  | None => quiet_run b (bridge s)
  | Some (r, receipt) => applied change b r receipt (bridge s)
  end.

Lemma quiet_run_r b b' b'' : quiet_run b b' -> quiet_step (W:=W) b' b'' -> quiet_run b b''.
Proof. apply rtc_r. Qed.

Lemma applied_r (change : PacketPortOwnerChange Authorization) (b : Bridge W Authorization) r
    receipt b' b'' :
  applied change b r receipt b' -> quiet_step b' b'' -> applied change b r receipt b''.
Proof.
  intros (b0 & b1 & H1 & Hs & Hu & H2) H. exists b0, b1. split_and!; [done..|]. by eapply rtc_r.
Qed.

(** The bridge moves by itself, the queue does not. *)
Lemma awaiting_bridge ticket change b s b' :
  awaiting ticket change b s -> quiet_step (bridge s) b' -> awaiting ticket change b (set_bridge b' s).
Proof.
  intros (H1 & H2 & H3 & H4) Hq. split_and!; [by destruct H1|done|done|].
  change (find_answer ticket (set_bridge b' s)) with (find_answer ticket s). simpl.
  destruct (find_answer ticket s) as [[r receipt]|]; [by eapply applied_r|by eapply quiet_run_r].
Qed.

Lemma awaiting_guard_sends ticket change b s :
  awaiting ticket change b s -> (ticket < next_ticket s)%nat ->
  awaiting ticket change b (guard_sends s).
Proof.
  intros H Hlt. unfold guard_sends. destruct (guard s) as [|a binding|]; [done| |done].
  destruct (send_update_cases (Revoke (owner_epoch binding)) s) as [(s' & -> & ->)|E]; [done|].
  rewrite E. destruct H as (H1 & H2 & H3 & H4). split_and!.
  - by destruct (sent_tickets (Revoke (owner_epoch binding)) s H1).
  - intros u [[Hu|Hu]%elem_of_app Hw] Hne; simpl in *.
    + apply elem_of_cons in Hw as [Hw|Hw]; [|by apply H2; [split|]].
      destruct H1 as [_ Hlow _ _]. rewrite Forall_forall in Hlow. specialize (Hlow u Hu). lia.
    + apply list_elem_of_singleton in Hu as ->. by eexists.
  - intros u [[Hu|Hu]%elem_of_app Hw] He; simpl in *.
    + apply elem_of_cons in Hw as [Hw|Hw]; [lia|by apply H3; [split|]].
    + apply list_elem_of_singleton in Hu as ->. simpl in He. lia.
  - done.
Qed.

Lemma find_answer_cons t t' a s :
  find_answer t (set_answers ((t', a) :: answers s) s)
  = if decide (t = t') then Some a else find_answer t s.
Proof.
  unfold find_answer. simpl. destruct (Nat.eqb_spec t' t); destruct (decide (t = t')); congruence || done.
Qed.

(** The manager handles an update. *)
Lemma awaiting_handle ticket change b s :
  awaiting ticket change b s -> awaiting ticket change b (handle_update s).
Proof.
  intros (H1 & H2 & H3 & H4). unfold handle_update.
  destruct (updates s) as [|u rest] eqn:Eu; [by split_and!|].
  destruct (stopped (bridge s)) eqn:Es; [by split_and!|].
  destruct H1 as [Hn Hu Hw Ha]. rewrite Eu in *. simpl in Hn. apply NoDup_cons in Hn as [Hfresh Hn].
  apply Forall_cons in Hu as [Hu0 Hu].
  assert (Hlive : forall u', u' ∈ rest -> u_ticket u' ∈ waiting s -> live s u').
  { intros u' Hin Hw'. split; [rewrite Eu; by right|done]. }
  assert (Hanswers : forall t, is_Some (find_answer t s) -> (t < next_ticket s)%nat /\ t ∉ u_ticket <$> rest).
  { intros t Ht. destruct (Ha t Ht) as [? Hnot]. split; [done|]. simpl in Hnot. set_solver. }
  simpl. case_bool_decide as Hwait.
  2:{ split_and!; [by constructor| | |done].
      - intros u' [Hin Hw'] Hne. by apply H2, Hne; apply Hlive.
      - intros u' [Hin Hw'] He. by apply H3, He; apply Hlive. }
  assert (Hu1 : live s u) by (split; [rewrite Eu; by left|done]).
  destruct (bridge_update (u_change u) (bridge s)) as [[r receipt] b1] eqn:Eb.
  split_and!.
  - constructor; simpl; [done..|]. intros t.
    change (find_answer t _) with
      (find_answer t (set_answers ((u_ticket u, (r, receipt)) :: answers s) s)).
    rewrite find_answer_cons. case_decide as Et; [subst; done|]. by apply Hanswers.
  - intros u' [Hin Hw'] Hne. by apply H2, Hne; apply Hlive.
  - intros u' [Hin Hw'] He. by apply H3, He; apply Hlive.
  - change (find_answer ticket _) with
      (find_answer ticket (set_answers ((u_ticket u, (r, receipt)) :: answers s) s)).
    rewrite find_answer_cons. simpl. case_decide as Et.
    + rewrite (H3 u Hu1 (eq_sym Et)) in Eb.
      destruct (find_answer ticket s) as [a|] eqn:Ef.
      { destruct (Ha ticket) as [_ Hnot]; [by rewrite Ef|]. simpl in Hnot. set_solver. }
      exists (bridge s), b1. by split_and!.
    + destruct (H2 u Hu1) as [epoch Ech]; [done|].
      assert (Hq : quiet_step (bridge s) b1).
      { replace b1 with (bridge_update (Revoke epoch) (bridge s)).2 by (by rewrite <- Ech, Eb).
        by constructor. }
      destruct (find_answer ticket s) as [[r' receipt']|]; [by eapply applied_r|by eapply quiet_run_r].
Qed.

Lemma actor_event_next ev s : (next_ticket s <= next_ticket (actor_event ev s))%nat.
Proof.
  destruct ev as [ev| |]; simpl; [done| |].
  - unfold handle_update. destruct (updates s); [done|]. destruct (stopped (bridge s)); [done|].
    case_bool_decide; [|done]. by destruct (bridge_update _ _) as [[? ?] ?].
  - unfold guard_sends. destruct (guard s); [done| |done]. unfold send_update. destruct (_ || _); [done|].
    simpl. lia.
Qed.

Lemma awaiting_actor ticket change b ev s :
  awaiting ticket change b s -> (ticket < next_ticket s)%nat ->
  awaiting ticket change b (actor_event ev s).
Proof.
  intros H Hlt. destruct ev as [ev| |]; simpl.
  - apply awaiting_bridge; [done|constructor].
  - by apply awaiting_handle.
  - by apply awaiting_guard_sends.
Qed.

Lemma actor_same_controller ev s : same_controller s (actor_event ev s).
Proof.
  destruct ev as [ev| |]; simpl; [done| |].
  - unfold handle_update. destruct (updates s); [done|]. destruct (stopped (bridge s)); [done|].
    case_bool_decide; [|done]. by destruct (bridge_update _ _) as [[? ?] ?].
  - unfold guard_sends. destruct (guard s); [done| |done]. unfold send_update. by destruct (_ || _).
Qed.

(** An actor event between the requests. *)
Lemma steady_actor ev s :
  steady s -> steady (actor_event ev s) /\ quiet_run (bridge s) (bridge (actor_event ev s)).
Proof.
  intros [Ht Hr].
  assert (H : awaiting (next_ticket (actor_event ev s)) Probe (bridge s) (actor_event ev s)).
  { assert (Hnone : find_answer (next_ticket (actor_event ev s)) s = None).
    { destruct (find_answer _ s) eqn:E; [|done].
      destruct (tk_answers s Ht _ (ex_intro _ _ E)) as [Hlt _]. pose proof (actor_event_next ev s). lia. }
    assert (Hu : forall u, live s u -> u_ticket u <> next_ticket (actor_event ev s)).
    { intros u [Hin _]. pose proof (tk_updates s Ht) as Hlow. rewrite Forall_forall in Hlow.
      specialize (Hlow u Hin). pose proof (actor_event_next ev s). lia. }
    assert (H0 : awaiting (next_ticket (actor_event ev s)) Probe (bridge s) s).
    { split_and!; [done|by intros u Hl _; apply Hr| |by rewrite Hnone].
      intros u Hl E. by destruct (Hu u Hl). }
    destruct ev as [ev| |]; simpl in *.
    - apply awaiting_bridge; [done|constructor].
    - by apply awaiting_handle.
    - revert H0 Hu Hnone. unfold guard_sends. destruct (guard s) as [|a binding|]; [done| |done].
      destruct (send_update_cases (Revoke (owner_epoch binding)) s) as [(s' & -> & ->)|E]; [done|].
      rewrite E. simpl. intros (_ & _ & _ & _) Hu Hnone.
      pose proof (sent_tickets (Revoke (owner_epoch binding)) s Ht) as Hts.
      assert (Hrev : forall u, live (set_guard (GuardSent (next_ticket s) a binding)
        (mkTunio (ctl s) (bridge s) (updates s ++ [mkUpdate (Revoke (owner_epoch binding)) (next_ticket s)])
          (next_ticket s :: waiting s) (answers s) (S (next_ticket s)) (guard s) (original s))) u ->
        exists epoch, u_change u = Revoke epoch).
      { intros u [[Hin|Hin]%elem_of_app Hw]; simpl in *.
        - apply elem_of_cons in Hw as [Hw|Hw]; [|by apply Hr; split].
          pose proof (tk_updates s Ht) as Hlow. rewrite Forall_forall in Hlow. specialize (Hlow u Hin). lia.
        - apply list_elem_of_singleton in Hin as ->. by eexists. }
      split_and!; [by destruct Hts|by intros u Hl _; apply Hrev| |].
      + intros u [Hin _] Eu. destruct Hts as [_ Hlow _ _]. rewrite Forall_forall in Hlow.
        specialize (Hlow u Hin). simpl in *. lia.
      + change (find_answer _ _) with (find_answer (S (next_ticket s)) s). by rewrite Hnone. }
  destruct H as (H1 & H2 & _ & H4). split.
  - constructor; [done|]. intros u Hl. apply H2; [done|].
    pose proof (tk_updates _ H1) as Hlow. rewrite Forall_forall in Hlow. destruct Hl as [Hin _].
    specialize (Hlow u Hin). lia.
  - destruct (find_answer _ _) as [a|] eqn:E; [|done].
    destruct (tk_answers _ H1 _ (ex_intro _ _ E)) as [Hlt _]. lia.
Qed.

(** ** Waiting *)

Lemma awaiting_fold ticket change b evs s :
  awaiting ticket change b s -> (ticket < next_ticket s)%nat ->
  let s' := fold_left (fun s ev => actor_event ev s) evs s in
  awaiting ticket change b s' /\ same_controller s s'.
Proof.
  revert s. induction evs as [|ev evs IH]; intros s H Hlt; simpl; [by split|].
  destruct (IH (actor_event ev s)) as [H1 H2].
  - by apply awaiting_actor.
  - pose proof (actor_event_next ev s). lia.
  - split; [done|]. eapply same_controller_trans; [apply actor_same_controller|done].
Qed.

Lemma live_close ticket s u :
  live (close_ticket ticket s) u -> live s u /\ u_ticket u <> ticket.
Proof.
  intros [Hin Hw]. simpl in *. apply list_elem_of_filter in Hw as [Hne Hw]. by split; [split|].
Qed.

Lemma tickets_close ticket s : tickets_ok s -> tickets_ok (close_ticket ticket s).
Proof.
  intros [H1 H2 H3 H4]. constructor; simpl; [done|done| |done].
  apply Forall_forall. intros t [_ Hin]%list_elem_of_filter. rewrite Forall_forall in H3. by apply H3.
Qed.

(** The given-up ticket: no later revocation but the guard's. *)
Lemma awaiting_close ticket change b s :
  awaiting ticket change b s -> steady (close_ticket ticket s).
Proof.
  intros (H1 & H2 & _). constructor; [by apply tickets_close|].
  intros u [Hl Hne]%live_close. by apply H2.
Qed.

Lemma steady_close ticket s : steady s -> steady (close_ticket ticket s).
Proof.
  intros [H1 H2]. constructor; [by apply tickets_close|]. intros u [Hl _]%live_close. by apply H2.
Qed.

Lemma steady_guard g s : steady s -> steady (set_guard g s).
Proof. intros [[] H2]. constructor; [by constructor|done]. Qed.

Lemma steady_world w s : steady s -> steady (set_world w s).
Proof. intros [[] H2]. constructor; [by constructor|done]. Qed.

Lemma steady_ctl c s : steady s -> steady (set_ctl c s).
Proof. intros [[] H2]. constructor; [by constructor|done]. Qed.

Lemma awaiting_sent change s :
  steady s ->
  awaiting (next_ticket s) change (bridge s)
    (mkTunio (ctl s) (bridge s) (updates s ++ [mkUpdate change (next_ticket s)])
      (next_ticket s :: waiting s) (answers s) (S (next_ticket s)) (guard s) (original s)).
Proof.
  intros [Ht Hr]. pose proof (tk_updates s Ht) as Hlow. rewrite Forall_forall in Hlow.
  split_and!; [by apply sent_tickets| | |].
  - intros u [[Hu|Hu]%elem_of_app Hw] Hne; simpl in *.
    + apply elem_of_cons in Hw as [Hw|Hw]; [done|]. by apply Hr.
    + apply list_elem_of_singleton in Hu as ->. by destruct Hne.
  - intros u [[Hu|Hu]%elem_of_app Hw] He; simpl in *.
    + specialize (Hlow u Hu). lia.
    + by apply list_elem_of_singleton in Hu as ->.
  - change (find_answer _ _) with (find_answer (next_ticket s) s).
    destruct (find_answer _ s) eqn:E; [|done].
    destruct (tk_answers s Ht _ (ex_intro _ _ E)) as [Hlt _]. lia.
Qed.

(** What a change may have done to the bridge when its sender gave up. *)
Definition abandoned (change : PacketPortOwnerChange Authorization)
    (b b' : Bridge W Authorization) : Prop :=
  quiet_run b b' \/ exists r receipt, applied change b r receipt b'.

(** The outcome of a change that the controller sends. *)
Definition outcome_ok (change : PacketPortOwnerChange Authorization) s
    (r : Result string (Result string unit * PacketPortReceipt)) s' : Prop :=
  steady s' /\ same_controller s s' /\
  match r with
  | Ok (r, receipt) => applied change (bridge s) r receipt (bridge s')
  | Err _ => abandoned change (bridge s) (bridge s')
  end.

Lemma wait_answer_wp ticket change b s :
  awaiting ticket change b s -> (ticket < next_ticket s)%nat ->
  wp (wait_answer ticket)
    (fun r s' => steady s' /\ same_controller s s' /\
       match r with
       | Ok (r, receipt) => applied change b r receipt (bridge s')
       | Err _ => abandoned change b (bridge s')
       end) s.
Proof.
  intros H Hlt. unfold wait_answer. apply wp_mbind. unfold wp, host, on_host, reading.
  destruct (patience (get_world s)) as [[evs late] w]. simpl.
  assert (H1 : awaiting ticket change b (set_world w s)) by (apply awaiting_bridge; [done|constructor]).
  destruct (awaiting_fold ticket change b evs (set_world w s) H1 Hlt) as [H2 Hsame].
  unfold mbind, modify, gets. simpl.
  set (s1 := fold_left (fun s ev => actor_event ev s) evs (set_world w s)) in *.
  pose proof (awaiting_close _ _ _ _ H2) as Hst.
  destruct H2 as (_ & _ & _ & H4). destruct late; simpl.
  - split_and!; [done|done|]. unfold abandoned.
    destruct (find_answer ticket s1) as [[r receipt]|]; [right; eauto|by left].
  - unfold lift, ok_or. simpl. destruct (find_answer ticket s1) as [[r receipt]|].
    + split_and!; [done|done|done].
    + split_and!; [done|done|by left].
Qed.

Lemma manager_outcome_wp change s :
  steady s -> wp (manager_outcome change) (outcome_ok change s) s.
Proof.
  intros Hs. unfold manager_outcome. apply wp_mbind. unfold wp at 1.
  destruct (send_update_cases change s) as [(s' & -> & ->)|E].
  - unfold wp, bail, mfail. simpl. split_and!; [done..|]. by left.
  - rewrite E. simpl. eapply wp_mono; [apply (wait_answer_wp (next_ticket s) change (bridge s))|].
    + by apply awaiting_sent.
    + simpl. lia.
    + intros r s' (H1 & H2 & H3). by split_and!.
Qed.

(** ** The bridge over a request *)

(** Events, and changes of a kind. *)
Definition managed (L : PacketPortOwnerChange Authorization -> Prop)
    : Bridge W Authorization -> Bridge W Authorization -> Prop :=
  rtc (fun b b' => quiet_step b b' \/
         exists change, L change /\ stopped b = None /\ b' = (bridge_update change b).2).

Lemma quiet_managed L b b' : quiet_run b b' -> managed L b b'.
Proof. apply rtc_subrel. by left. Qed.

Lemma applied_managed (L : PacketPortOwnerChange Authorization -> Prop) change b r receipt b' :
  L change -> applied change b r receipt b' -> managed L b b'.
Proof.
  intros HL (b0 & b1 & H1 & Hs & Hu & H2). unfold managed.
  trans b0; [by apply quiet_managed|]. eapply rtc_l; [|by apply quiet_managed].
  right. exists change. by rewrite Hu.
Qed.

Lemma abandoned_managed (L : PacketPortOwnerChange Authorization -> Prop) change b b' :
  L change -> abandoned change b b' -> managed L b b'.
Proof.
  intros HL [H|(r & receipt & H)]; [by apply quiet_managed|by eapply applied_managed].
Qed.

Lemma managed_manager L b b' : managed L b b' -> rtc manager_step b b'.
Proof.
  apply rtc_subrel. intros b1 b2 [H|(change & _ & Hs & ->)]; [by apply quiet_manager|by constructor].
Qed.

Lemma outcome_managed (L : PacketPortOwnerChange Authorization -> Prop) change s r s' :
  L change -> outcome_ok change s r s' -> managed L (bridge s) (bridge s').
Proof.
  intros HL (_ & _ & H). destruct r as [[r receipt]|]; [by eapply applied_managed|by eapply abandoned_managed].
Qed.
End Queue.
