(* ===== verification/TunioExec.v ===== *)
(** * The TUN process: running the requests

    Symbolic execution of the controller's requests: what each primitive does to the two
    sides of the process, and the effect of a receipt on the controller's record. *)
From stdpp Require Import base tactics list numbers option gmap strings.
From Stdlib Require Import ZArith Lia.
From S2P Require Import Prelude PacketPort PortManager PortManagerFacts PortManagerInv PortManagerSpec ProcessControl Tunio TunioOps TunioRuns TunioQueue.

#[local] Open Scope Z_scope.

Section Exec.
Context {W : Type} `{!TunioHost W}.
Implicit Types (s : Tunio W) (c : Controller) (a : AuthorityState).
#[local] Abbreviation TunioM := (@Tunio.TunioM W).

(** Since [s0] only changes of the kind [L] were made. *)
Record stays (L : PacketPortOwnerChange Authorization -> Prop) s0 s : Prop := {
  stays_steady : steady s;
  stays_original : original s = original s0;
  stays_managed : managed L (bridge s0) (bridge s);
}.

Lemma stays_refl L s : steady s -> stays L s s.
Proof. intros H. constructor; [done|done|apply rtc_refl]. Qed.

Lemma stays_trans L s1 s2 s3 : stays L s1 s2 -> stays L s2 s3 -> stays L s1 s3.
Proof.
  intros [H1 H2 H3] [H4 H5 H6]. constructor; [done|congruence|]. unfold managed in *. by trans (bridge s2).
Qed.

Lemma stays_world L s0 w s : stays L s0 s -> stays L s0 (set_world w s).
Proof.
  intros [H1 H2 H3]. constructor; [by apply steady_world|done|].
  eapply rtc_r; [done|]. left. constructor.
Qed.

Lemma stays_ctl L s0 c s : stays L s0 s -> stays L s0 (set_ctl c s).
Proof. intros [H1 H2 H3]. constructor; [by apply steady_ctl|done|done]. Qed.

Lemma stays_guard L s0 g s : stays L s0 s -> stays L s0 (set_guard g s).
Proof. intros [H1 H2 H3]. constructor; [by apply steady_guard|done|done]. Qed.

Lemma stays_close L s0 t s : stays L s0 s -> stays L s0 (close_ticket t s).
Proof. intros [H1 H2 H3]. constructor; [by apply steady_close|done|done]. Qed.

Lemma stays_outcome (L : PacketPortOwnerChange Authorization -> Prop) s0 change s r s' :
  L change -> stays L s0 s -> outcome_ok change s r s' -> stays L s0 s'.
Proof.
  intros HL Hs Ho. pose proof (outcome_managed L _ _ _ _ HL Ho) as Hm.
  destruct Ho as (H1 & [_ H2] & _). eapply stays_trans; [done|]. by constructor.
Qed.

Lemma stays_actor L s0 ev s : stays L s0 s -> stays L s0 (actor_event ev s).
Proof.
  intros Hs. destruct (steady_actor ev s) as [H1 H2]; [apply Hs|].
  eapply stays_trans; [done|]. constructor; [done|apply actor_same_controller|by apply quiet_managed].
Qed.

(** ** Primitives *)

Lemma wp_on_host {T} (m : HostM T) (Q : Result string T -> Tunio W -> Prop) s :
  (forall r w, m (get_world s) = (r, w) -> Q r (set_world w s)) -> wp (on_host m) Q s.
Proof. intros H. unfold wp, on_host. destruct (m (get_world s)) as [r w] eqn:E. by apply H. Qed.

Lemma wp_host {T} (f : W -> T * W) (Q : Result string T -> Tunio W -> Prop) s :
  (forall v w, f (get_world s) = (v, w) -> Q (Ok v) (set_world w s)) -> wp (host f) Q s.
Proof.
  intros H. apply wp_on_host. unfold reading. intros r w. destruct (f (get_world s)) as [v w'] eqn:E.
  intros [= <- <-]. by apply H.
Qed.

Lemma wp_ensure b code (Q : Result string unit -> Tunio W -> Prop) s :
  (b = true -> Q (Ok tt) s) -> (b = false -> Q (Err code) s) -> wp (ensure b code) Q s.
Proof. unfold wp, ensure. destruct b; simpl; auto. Qed.

Lemma wp_put f (Q : Result string unit -> Tunio W -> Prop) s :
  Q (Ok tt) (set_ctl (f (ctl s)) s) -> wp (put f) Q s.
Proof. done. Qed.

Lemma wp_get (Q : Result string Controller -> Tunio W -> Prop) s : Q (Ok (ctl s)) s -> wp get Q s.
Proof. done. Qed.

Lemma wp_required {T} (o : option T) code (Q : Result string T -> Tunio W -> Prop) s :
  (forall v, o = Some v -> Q (Ok v) s) -> (o = None -> Q (Err code) s) -> wp (required o code) Q s.
Proof. unfold wp, required, lift, ok_or. destruct o; simpl; auto. Qed.

(** What only reads: the worlds change, the rest stays. *)
Definition only_reads {T} (m : TunioM T) : Prop :=
  forall s, exists r w, m s = (r, set_world w s).

Lemma set_world_world w w' s : set_world w (set_world w' s) = set_world w s.
Proof. done. Qed.

Lemma set_world_id s : set_world (get_world s) s = s.
Proof. destruct s as [? [? ? ? ? ? ? ? ? ? ? ? ? []] ? ? ? ? ? ?]. done. Qed.

Lemma reads_host {T} (f : W -> T * W) : only_reads (host f).
Proof.
  intros s. unfold host, on_host, reading. destruct (f (get_world s)) as [v w]. eauto.
Qed.

Lemma reads_on_host {T} (m : HostM T) : only_reads (on_host m).
Proof. intros s. unfold on_host. destruct (m (get_world s)) as [r w]. eauto. Qed.

Lemma reads_pure {T} (r : Result string T) : only_reads (fun s => (r, s)).
Proof. intros s. exists r, (get_world s). by rewrite set_world_id. Qed.

Lemma reads_get : only_reads get.
Proof. intros s. exists (Ok (ctl s)), (get_world s). by rewrite set_world_id. Qed.

Lemma reads_gets {T} (f : Tunio W -> T) : only_reads (gets f).
Proof. intros s. exists (Ok (f s)), (get_world s). by rewrite set_world_id. Qed.

Lemma reads_ensure b code : only_reads (ensure b code).
Proof. destruct b; apply reads_pure. Qed.

Lemma reads_bind {T U} (m : TunioM T) (f : T -> TunioM U) :
  only_reads m -> (forall v, only_reads (f v)) -> only_reads (mbind m f).
Proof.
  intros Hm Hf s. destruct (Hm s) as (r & w & E). unfold mbind. rewrite E.
  destruct r as [v|e]; [|eauto]. destruct (Hf v (set_world w s)) as (r' & w' & E'). rewrite E'.
  by exists r', w'.
Qed.

Lemma wp_reads {T} (m : TunioM T) (Q : Result string T -> Tunio W -> Prop) s :
  only_reads m -> (forall r w, m s = (r, set_world w s) -> Q r (set_world w s)) -> wp m Q s.
Proof. intros Hm H. destruct (Hm s) as (r & w & E). unfold wp. rewrite E. by apply H. Qed.
End Exec.

Create HintDb reading.
#[export] Hint Resolve reads_host reads_on_host reads_pure reads_get reads_gets reads_ensure : reading.

(** Closes [only_reads] goals. *)
Ltac reads :=
  repeat first
    [ apply reads_bind; [|intros ?]
    | progress intros
    | solve [eauto with reading]
    | apply reads_pure
    | match goal with |- only_reads (match ?c with _ => _ end) => destruct c end ].
