(* ===== verification/TunioMicro.v ===== *)
(** * The TUN process: its requests as small steps

    Every request, every turn of the guard and every event is a run of [micro] steps, each
    of which changes one side of the process: the controller's record, under the guards that
    the code has passed by then, or the manager, by one change of a kind that the record
    justifies. The theorems of [TunioFacts] are proved over these steps. *)
From stdpp Require Import base tactics list numbers option gmap strings.
From Stdlib Require Import ZArith Lia.
From S2P Require Import Prelude PacketPort PortManager PortManagerFacts PortManagerInv PortManagerSpec ProcessControl Tunio TunioOps TunioRuns TunioQueue TunioExec.

#[local] Open Scope Z_scope.

(** ** What justifies a change *)

(** The caps of an envelope lie within what was signed and verified. *)
Definition sound_envelope (e : AuthorityEnvelope) : Prop :=
  ae_effective_expiry e <= ae_signed_min_expiry e /\
  ae_deadline_mono_ms e - ae_verified_mono_ms e
    <= (ae_effective_expiry e - ae_verified_unix e) * 1000 /\
  owner_epoch (ae_binding e) <> 0.

Definition known_record (a : AuthorityState) (r : OwnerAuthority) : Prop :=
  owner_candidate a = Some r \/ exists phase, owner_terminal a = Some (r, phase).

Definition justified (o : Original) (a : AuthorityState)
    (change : PacketPortOwnerChange Authorization) : Prop :=
  match change with
  | PrepareOwner tx p auth =>
      exists r, known_record a r /\ tx = oa_transaction r /\ sound_envelope (oa_envelope r) /\
        port_binding p = ae_binding (oa_envelope r) /\ auth = authorization_check (oa_envelope r)
  | AttachAuthorized p _ auth =>
      (exists e, staged a = Some e /\ sound_envelope e /\ port_binding p = ae_binding e /\
         auth = authorization_check e) \/
      (exists k, auth = o_authorization o ++ [k] /\ staged a = None /\ active a = None /\
         fixed_binding_matches (port_binding p) (o_binding o) = true)
  | Attach _ _ | Renew _ _ _ => False
  | _ => True
  end.

(** A record for a staged envelope. *)
Definition record_of (e : AuthorityEnvelope) (r : OwnerAuthority) : Prop :=
  oa_envelope r = e /\ revision (oa_transaction r) = ae_revision e /\
  tx_binding (oa_transaction r) = ae_binding e.

(** A receipt that the manager [b'] gave at some moment of its past. *)
Definition said {W A : Type} `{!PacketHost W A} (b' : Bridge W A) (rc : PacketPortReceipt) : Prop :=
  exists b, bridge_ok b /\ rtc manager_step b b' /\ rc = receipt b.

Section Micro.
(** [K]: who may take the process over in these steps. *)
Context {W : Type} `{!TunioHost W} {K : ProcessIdentity -> Prop}.
Implicit Types (s : Tunio W) (c : Controller) (a : AuthorityState).
#[local] Abbreviation TunioM := (@Tunio.TunioM W).

(** ** The record of the controller *)

(** What nothing but a takeover or the registration changes. *)
Definition same_identity c c' : Prop :=
  process c' = process c /\ controller c' = controller c /\ epoch c' = epoch c /\
  token c' = token c /\ generation c' = generation c /\ registered c' = registered c.

(** The authority, under the guards of its operations. *)
Inductive authority_step s a : AuthorityState -> Prop :=
| as_deadline d : authority_step s a (with_deadline d a)
| as_reconciled receipt :
    said (bridge s) receipt -> authority_step s a (reconcile_authority receipt a)
| as_staged e :
    staged a = None -> highest_revision a < ae_revision e ->
    highest_policy a <= policy_generation (ae_binding e) ->
    highest_epoch a < owner_epoch (ae_binding e) -> sound_envelope e ->
    authority_step s a
      (with_staged (Some e)
         (with_marks (ae_revision e) (Z.max (highest_policy a) (policy_generation (ae_binding e)))
            (Z.max (highest_epoch a) (owner_epoch (ae_binding e))) a))
| as_candidate e r :
    staged a = Some e -> record_of e r -> oa_prepared r = false ->
    authority_step s a (with_candidate (Some r) a)
| as_discarded : authority_step s a (with_staged None a)
(** The cancelled revision is nowhere: not in the manager, not in the records. *)
| as_cancelled e :
    highest_transaction_revision (bridge s) < ae_revision e -> highest_revision a <= ae_revision e ->
    owner_candidate a = None -> active a <> Some e ->
    (forall r phase, owner_terminal a = Some (r, phase) ->
       revision (oa_transaction r) < ae_revision e) ->
    authority_step s a (raise_to e (with_cancelled e (with_staged None a)))
| as_isolated e :
    owner (bridge s) = None -> retained (bridge s) = None -> pending (bridge s) = None ->
    owner_epoch (ae_binding e) <= highest_owner_epoch (bridge s) ->
    authority_step s a (with_isolated e a)
| as_retired e : authority_step s a (with_retired e a)
| as_expired : authority_step s a (with_deadline None (with_active None a)).

Inductive controller_step s c : Controller -> Prop :=
| cs_authority c' :
    same_identity c c' -> authority_step s (authority c) (authority c') -> controller_step s c c'
| cs_other c' : same_identity c c' -> authority c' = authority c -> controller_step s c c'
| cs_taken_over peer w :
    K peer -> registered c = true -> (process_is_current (controller c) w).1 = false ->
    peer <> controller c -> epoch c + 1 < 2 ^ 64 ->
    controller_step s c (with_controller peer (epoch c + 1) c)
| cs_registered w :
    (process_is_current (controller c) w).1 = true ->
    controller_step s c (with_registration true None c).

(** ** The steps *)

Inductive micro s : Tunio W -> Prop :=
| micro_world w : micro s (set_world w s)
| micro_guard g : micro s (set_guard g s)
| micro_close t : micro s (close_ticket t s)
| micro_actor ev : micro s (actor_event ev s)
| micro_change change r s' :
    justified (original s) (authority (ctl s)) change -> outcome_ok change s r s' -> micro s s'
| micro_controller c : controller_step s (ctl s) c -> micro s (set_ctl c s).

Lemma micro_steady s s' : steady s -> micro s s' -> steady s'.
Proof.
  intros Hs [w|g|t|ev|change r s'' _ Ho|c _].
  - by apply steady_world.
  - by apply steady_guard.
  - by apply steady_close.
  - by apply steady_actor.
  - apply Ho.
  - by apply steady_ctl.
Qed.

Definition micro_run : Tunio W -> Tunio W -> Prop := rtc micro.
#[local] Abbreviation micros := micro_run.

Lemma micros_steady s s' : steady s -> micros s s' -> steady s'.
Proof. intros H Hm. induction Hm as [|s1 s2 s3 H1 _ IH]; [done|]. by eapply IH, micro_steady. Qed.

Lemma micros_world s0 s w : micros s0 s -> micros s0 (set_world w s).
Proof. intros H. eapply rtc_r; [done|constructor]. Qed.

Lemma micros_controller s0 s c :
  micros s0 s -> controller_step s (ctl s) c -> micros s0 (set_ctl c s).
Proof. intros H Hc. eapply rtc_r; [done|by constructor]. Qed.

Lemma micros_other s0 s c :
  micros s0 s -> same_identity (ctl s) c -> authority c = authority (ctl s) ->
  micros s0 (set_ctl c s).
Proof. intros H H1 H2. apply micros_controller; [done|by apply cs_other]. Qed.

Lemma micros_authority s0 s c :
  micros s0 s -> same_identity (ctl s) c -> authority_step s (authority (ctl s)) (authority c) ->
  micros s0 (set_ctl c s).
Proof. intros H H1 H2. apply micros_controller; [done|by apply cs_authority]. Qed.

Lemma micros_change s0 s change r s' :
  micros s0 s -> justified (original s) (authority (ctl s)) change -> outcome_ok change s r s' ->
  micros s0 s'.
Proof. intros H Hj Ho. eapply rtc_r; [done|by eapply micro_change]. Qed.

(** On the side of the manager, small steps are a run of the actor. *)
Lemma micros_managers s s' : steady s -> micros s s' -> rtc manager_step (bridge s) (bridge s').
Proof.
  intros Hst H. induction H as [|s1 s2 s3 Hm _ IH]; [done|].
  pose proof (micro_steady _ _ Hst Hm) as Hst'. etrans; [|by apply IH].
  destruct Hm as [w|g|t|ev|change r s'' _ Ho|c _]; try done.
  - apply rtc_once. constructor.
  - apply quiet_run_manager. by apply steady_actor.
  - by apply (managed_manager (fun _ => True)), (outcome_managed _ change s1 r).
Qed.

Lemma micros_bridge s s' : steady s -> bridge_ok (bridge s) -> micros s s' -> bridge_ok (bridge s').
Proof.
  intros Hst Hb H. apply micros_managers in H; [|done].
  induction H as [|b1 b2 b3 H1 _ IH]; [done|]. by eapply IH, manager_step_ok.
Qed.

(** The receipt of an answered change was given on the way. *)
Lemma outcome_said change s r rc s' :
  bridge_ok (bridge s) -> outcome_ok change s (Ok (r, rc)) s' -> said (bridge s') rc.
Proof.
  intros Hb (_ & _ & b0 & b1 & H1 & Hs & Hu & H2). exists b1.
  assert (H0 : bridge_ok b0).
  { clear -Hb H1. apply quiet_run_manager in H1. induction H1 as [|x y z Hxy _ IH]; [done|].
    by eapply IH, manager_step_ok. }
  split_and!; [|by apply quiet_run_manager|].
  - replace b1 with (bridge_update change b0).2 by (by rewrite Hu). by apply bridge_update_ok.
  - unfold bridge_update in Hu. destruct (apply_change change b0). by injection Hu as _ <- <-.
Qed.

(** ** The parts that the requests share *)

Lemma reads_publish : only_reads publish.
Proof. unfold publish. reads. Qed.

Lemma reads_monotonic : only_reads monotonic_ms.
Proof. apply reads_on_host. Qed.

Lemma reads_wall : only_reads wall_time.
Proof. apply reads_on_host. Qed.

Lemma reads_unix : only_reads unix_time.
Proof. unfold unix_time. apply reads_bind; [apply reads_wall|]. reads. Qed.

Lemma reads_boot_id : only_reads boot_id.
Proof. unfold boot_id. reads. Qed.

Lemma reads_owner_deadline d e : only_reads (owner_deadline d e).
Proof.
  unfold owner_deadline. apply reads_bind; [auto with reading|]. intros t.
  apply reads_bind; [apply reads_monotonic|]. intros t'.
  apply reads_bind; [auto with reading|]. intros _. apply reads_bind; [apply reads_wall|]. reads.
Qed.

Lemma reads_transaction_bytes v : only_reads (transaction_bytes v : TunioM _).
Proof. unfold transaction_bytes. reads. Qed.
End Micro.

#[export] Hint Resolve reads_publish reads_monotonic reads_wall reads_unix reads_boot_id
  reads_owner_deadline reads_transaction_bytes : reading.

Section Shared.
Context {W : Type} `{!TunioHost W} {K : ProcessIdentity -> Prop}.
Implicit Types (s : Tunio W) (c : Controller) (a : AuthorityState).
#[local] Abbreviation TunioM := (@Tunio.TunioM W).
#[local] Abbreviation micros := (@micro_run W _ K).

Lemma same_identity_refl c : same_identity c c.
Proof. by split_and!. Qed.

Lemma same_identity_trans c1 c2 c3 :
  same_identity c1 c2 -> same_identity c2 c3 -> same_identity c1 c3.
Proof. intros (?&?&?&?&?&?) (?&?&?&?&?&?). split_and!; congruence. Qed.

(** The record after a receipt: reconciled, its deadline and the display fields aside. *)
Definition reconciled (receipt : PacketPortReceipt) c c' : Prop :=
  same_identity c c' /\
  exists d, authority c' = with_deadline d (reconcile_authority receipt (authority c)).

Lemma with_deadline_twice d d' a : with_deadline d (with_deadline d' a) = with_deadline d a.
Proof. done. Qed.

Lemma with_deadline_id a : with_deadline (actual_deadline_mono_ms a) a = a.
Proof. by destruct a. Qed.

Lemma reconcile_wp receipt s :
  wp (reconcile receipt)
    (fun r s' => exists w c', s' = set_world w (set_ctl c' s) /\ reconciled receipt (ctl s) c' /\
       (is_ok r = true -> owner_active c' = true -> is_Some (pr_binding receipt))) s.
Proof.
  unfold reconcile. set (c1 := reconcile_binding receipt (on_authority (reconcile_authority receipt) (ctl s))).
  assert (Hc1 : same_identity (ctl s) c1 /\ authority c1 = reconcile_authority receipt (authority (ctl s))).
  { unfold c1, reconcile_binding. destruct (pr_binding receipt); [by split|].
    by destruct (active_of receipt _). }
  apply wp_mbind, wp_put. apply wp_mbind, wp_put.
  match goal with |- context [set_ctl (reconcile_binding ?r ?c) ?x] =>
    change (set_ctl (reconcile_binding r c) x) with (set_ctl c1 s) end.
  apply wp_mbind, wp_host. intros t w _.
  apply wp_mbind, wp_put. simpl.
  set (c2 := with_owner_active _ c1).
  assert (Hc2 : same_identity (ctl s) c2 /\ authority c2 = reconcile_authority receipt (authority (ctl s)) /\
    (owner_active c2 = true -> is_Some (pr_binding receipt))).
  { destruct Hc1 as [H1 H2]. split_and!; [done|done|]. simpl. intros [H _]%andb_true_iff.
    by apply bool_decide_eq_true in H. }
  destruct Hc2 as (H1 & H2 & H3).
  apply wp_mbind, wp_reads; [auto with reading|]. intros r w1 _. destruct r as [mono|].
  2:{ exists w1, c2. split_and!; [done| |done]. split; [done|]. exists (actual_deadline_mono_ms (authority c2)).
      by rewrite <- H2, with_deadline_id. }
  apply wp_mbind, wp_host. intros t' w2 _. apply wp_mbind, wp_put. apply wp_mbind, wp_get. simpl.
  set (d := actual_deadline _ _ _).
  destruct (active_of receipt _) as [e|].
  - apply wp_mbind, wp_put. apply wp_put.
    exists w2, (on_authority (fun a => with_deadline (Z.min (ae_deadline_mono_ms e) <$> actual_deadline_mono_ms a) a)
      (with_deadline_unix (ae_effective_expiry e) (on_authority (with_deadline d) c2))).
    split_and!; [done| |done]. split; [done|]. rewrite <- H2. by eexists.
  - exists w2, (on_authority (with_deadline d) c2). split_and!; [done| |done]. split; [done|].
    rewrite <- H2. by eexists.
Qed.

(** Reconciling, as steps. *)
Lemma reconciled_micros s0 s receipt c' :
  micros s0 s -> said (bridge s) receipt -> reconciled receipt (ctl s) c' ->
  micros s0 (set_ctl c' s).
Proof.
  intros H Hsaid [Hi [d Hd]].
  assert (H1 : micros s0 (set_ctl (on_authority (reconcile_authority receipt) (ctl s)) s)).
  { apply micros_authority; [done|done|by constructor]. }
  assert (E : set_ctl c' s = set_ctl c' (set_ctl (on_authority (reconcile_authority receipt) (ctl s)) s)) by done.
  rewrite E. apply micros_authority; [done| |].
  - destruct Hi as (?&?&?&?&?&?). by split_and!.
  - rewrite Hd. simpl. constructor.
Qed.

(** [manager_outcome] in a request. *)
Lemma outcome_wp s0 s change (Q : Result string (Result string unit * PacketPortReceipt) -> Tunio W -> Prop) :
  steady s0 -> bridge_ok (bridge s0) -> micros s0 s ->
  justified (original s) (authority (ctl s)) change ->
  (forall r s', outcome_ok change s r s' -> micros s0 s' ->
     (forall v, r = Ok v -> said (bridge s') v.2) -> Q r s') ->
  wp (manager_outcome change) Q s.
Proof.
  intros H0 Hok Hm Hj HQ. eapply wp_mono; [apply manager_outcome_wp; by eapply micros_steady|].
  intros r s' Ho. apply HQ; [done|by eapply micros_change|].
  intros [r1 rc] ->. eapply outcome_said; [by eapply micros_bridge|done].
Qed.

(** [apply_owner_change]: afterwards the controller has seen the receipt, if there is one. *)
Definition applied_change (change : PacketPortOwnerChange Authorization) s (r : Result string unit) s' : Prop :=
  forall v, r = Ok v -> exists s1 receipt w c', outcome_ok change s (Ok (Ok tt, receipt)) s1 /\
    s' = set_world w (set_ctl c' s1) /\ reconciled receipt (ctl s) c' /\
    (owner_active c' = true -> is_Some (pr_binding receipt)).

Lemma apply_owner_change_wp s0 s change (Q : Result string unit -> Tunio W -> Prop) :
  steady s0 -> bridge_ok (bridge s0) -> micros s0 s ->
  justified (original s) (authority (ctl s)) change ->
  (forall r s', micros s0 s' -> applied_change change s r s' -> Q r s') ->
  wp (apply_owner_change change) Q s.
Proof.
  intros H0 Hok Hm Hj HQ. unfold apply_owner_change. apply wp_mbind.
  apply (outcome_wp s0); [done..|]. intros r s1 Ho Hm1 Hsaid.
  destruct r as [[r receipt]|x]; [|by apply HQ]. specialize (Hsaid _ eq_refl). simpl in *.
  apply wp_mbind. eapply wp_mono; [apply reconcile_wp|].
  intros r1 s2 (w & c' & -> & Hr & Hact).
  assert (Hm2 : micros s0 (set_world w (set_ctl c' s1))) by (by eapply micros_world, reconciled_micros).
  destruct r1 as [[]|x]; [|by apply HQ].
  apply wp_mbind, wp_reads; [auto with reading|]. intros r2 w2 _.
  assert (Hm3 : micros s0 (set_world w2 (set_world w (set_ctl c' s1)))) by (by apply micros_world).
  destruct r2 as [[]|x]; [|by apply HQ]. destruct r as [[]|x]; simpl.
  - apply wp_mret, HQ; [done|]. intros [] _. exists s1, receipt, w2, c'.
    destruct Ho as (? & [Hc ?] & ?). rewrite Hc in Hr. split_and!; try done. by apply Hact.
  - by apply wp_mfail, HQ.
Qed.

(** [probe_manager]. *)
Definition probed s (r : Result string PacketPortReceipt) s' : Prop :=
  forall receipt, r = Ok receipt -> exists s1 w c', outcome_ok Probe s (Ok (Ok tt, receipt)) s1 /\
    s' = set_world w (set_ctl c' s1) /\ reconciled receipt (ctl s) c' /\
    (owner_active c' = true -> is_Some (pr_binding receipt)).

Lemma manager_change_wp s0 s change (Q : Result string PacketPortReceipt -> Tunio W -> Prop) :
  steady s0 -> bridge_ok (bridge s0) -> micros s0 s ->
  justified (original s) (authority (ctl s)) change ->
  (forall r s', micros s0 s' ->
     (forall receipt, r = Ok receipt -> outcome_ok change s (Ok (Ok tt, receipt)) s') ->
     (forall receipt, r = Ok receipt -> said (bridge s') receipt) -> Q r s') ->
  wp (manager_change change) Q s.
Proof.
  intros H0 Hok Hm Hj HQ. unfold manager_change. apply wp_mbind.
  apply (outcome_wp s0); [done..|]. intros r s1 Ho Hm1 Hsaid. destruct r as [[r receipt]|x]; [|by apply HQ].
  specialize (Hsaid _ eq_refl). destruct r as [[]|x]; simpl in *; [|by apply wp_mfail, HQ].
  apply wp_mret, HQ; [done| |]; by intros ? [= <-].
Qed.

Lemma probe_manager_wp s0 s (Q : Result string PacketPortReceipt -> Tunio W -> Prop) :
  steady s0 -> bridge_ok (bridge s0) -> micros s0 s ->
  (forall r s', micros s0 s' -> probed s r s' -> Q r s') -> wp probe_manager Q s.
Proof.
  intros H0 Hok Hm HQ. unfold probe_manager. apply wp_mbind.
  apply (manager_change_wp s0); [done..|]. intros r s1 Hm1 Ho Hsaid. destruct r as [receipt|x]; [|by apply HQ].
  specialize (Hsaid _ eq_refl).
  apply wp_mbind. eapply wp_mono; [apply reconcile_wp|].
  intros r1 s2 (w & c' & -> & Hr & Hact).
  assert (Hm2 : micros s0 (set_world w (set_ctl c' s1))) by (by eapply micros_world, reconciled_micros).
  destruct r1 as [[]|x]; [|by apply HQ].
  apply wp_mret, HQ; [done|]. intros ? [= <-]. exists s1, w, c'. pose proof (Ho receipt eq_refl) as Ho'.
  destruct Ho' as (? & [Hc ?] & ?). rewrite Hc in Hr. split_and!; try done. by apply Hact.
Qed.
End Shared.
