(* ===== verification/TunioRequests.v ===== *)
(** * The TUN process: every request is a run of small steps

    The operations of [TunioOps], one after the other, as runs of [TunioMicro.micro]. *)
From stdpp Require Import base tactics list numbers option gmap strings.
From Stdlib Require Import ZArith Lia.
From S2P Require Import Prelude PacketPort PortManager PortManagerFacts PortManagerInv PortManagerSpec ProcessControl Tunio TunioOps TunioRuns TunioQueue TunioExec TunioMicro.

#[local] Open Scope Z_scope.

Lemma reconcile_micros_wp `{!TunioHost W} {K} (s0 s : Tunio W) receipt
    (Q : Result string unit -> Tunio W -> Prop) :
  micro_run (K:=K) s0 s -> said (bridge s) receipt ->
  (forall r s', micro_run (K:=K) s0 s' ->
     (exists w c', s' = set_world w (set_ctl c' s) /\ reconciled receipt (ctl s) c' /\
        (is_ok r = true -> owner_active c' = true -> is_Some (pr_binding receipt))) -> Q r s') ->
  wp (reconcile receipt) Q s.
Proof.
  intros Hm Hsaid HQ. eapply wp_mono; [apply reconcile_wp|]. intros r s' (w & c' & -> & Hr & Ha).
  apply HQ; [by eapply micros_world, reconciled_micros|]. by exists w, c'.
Qed.

Lemma reads_refuse `{!TunioHost W} a id : only_reads (refuse_given_up a id : @Tunio.TunioM W unit).
Proof. unfold refuse_given_up. reads. Qed.

Lemma reads_current `{!TunioHost W} p : only_reads (host (process_is_current p) : @Tunio.TunioM W bool).
Proof. apply reads_host. Qed.

#[export] Hint Resolve reads_refuse reads_current : reading.

(** Symbolic execution of a request. *)
Ltac micros_tac := repeat first [eassumption | apply micros_world].

(** The receipt of the answer that was just taken. *)
Ltac said_tac :=
  match goal with H : forall v, Ok _ = Ok v -> said _ _ |- _ => exact (H _ eq_refl) end.

Ltac request_step :=
  lazymatch goal with
  | |- wp (mbind _ _) _ _ => apply wp_mbind; cbv beta
  | |- wp get _ _ => apply wp_get; cbv beta iota
  | |- wp get_authority _ _ => apply wp_gets; cbv beta iota
  | |- wp (gets _) _ _ => apply wp_gets; cbv beta iota
  | |- wp (mret _) _ _ => apply wp_mret; cbv beta iota
  | |- wp (lift _) _ _ => apply wp_lift; cbv beta iota
  | |- wp (bail _) _ _ => apply wp_mfail; cbv beta iota
  | |- wp (required _ _) _ _ => apply wp_required; [intros ? ?|intros ?]; cbv beta iota
  | |- wp (ensure _ _) _ _ => apply wp_ensure; intros ?; cbv beta iota
  | |- wp (put_authority _) _ _ => apply wp_put; cbv beta iota
  | |- wp (put _) _ _ => apply wp_put; cbv beta iota
  | |- wp probe_manager _ _ =>
      eapply probe_manager_wp; [eassumption|eassumption|micros_tac|intros ? ? ? ?; cbv beta iota]
  | |- wp (apply_owner_change _) _ _ =>
      eapply apply_owner_change_wp; [eassumption|eassumption|micros_tac| |intros ? ? ? ?; cbv beta iota]
  | |- wp (manager_change _) _ _ =>
      eapply manager_change_wp; [eassumption|eassumption|micros_tac| |intros ? ? ? ? ?; cbv beta iota]
  | |- wp (manager_outcome _) _ _ =>
      eapply outcome_wp; [eassumption|eassumption|micros_tac| |intros ? ? ? ? ?; cbv beta iota]
  | |- wp (reconcile _) _ _ =>
      match goal with H : steady ?x |- _ =>
        eapply (reconcile_micros_wp x); [micros_tac|said_tac|intros ? ? ? ?; cbv beta iota] end
  | |- wp (if ?c then _ else _) _ _ => destruct c eqn:?
  | |- wp (match ?c with Some _ => _ | None => _ end) _ _ => destruct c eqn:?
  | |- wp _ _ _ => apply wp_reads; [solve [auto with reading]|intros ? ? _; cbv beta iota]
  | |- match ?r with Ok _ => _ | Err _ => _ end => destruct r eqn:?
  end.

(** All the paths; those that only failed are done. *)
Ltac request_paths := repeat request_step; try solve [micros_tac].

(** The checks that passed, as propositions. *)
Ltac absent_facts :=
  repeat match goal with
  | H : negb _ = true |- _ => apply negb_true_iff in H
  | H : (_ || _) = false |- _ => apply orb_false_iff in H as [? ?]
  | H : (_ && _) = true |- _ => apply andb_true_iff in H as [? ?]
  | H : bool_decide _ = false |- _ => apply bool_decide_eq_false in H
  | H : bool_decide _ = true |- _ => apply bool_decide_eq_true in H
  | H : (_ <? _) = true |- _ => apply Z.ltb_lt in H
  | H : (_ <=? _) = true |- _ => apply Z.leb_le in H
  | H : ~ is_Some _ |- _ => apply eq_None_not_Some in H
  end.

Section Requests.
Context {W : Type} `{!TunioHost W} {K : ProcessIdentity -> Prop}.
Implicit Types (s : Tunio W) (c : Controller) (a : AuthorityState).
#[local] Abbreviation TunioM := (@Tunio.TunioM W).
#[local] Abbreviation micros := (@micro_run W _ K).

(** ** Readings with a result *)

Lemma first_failure_none checks :
  first_failure checks = None -> Forall (fun check => check.1 = true) checks.
Proof.
  induction checks as [|[ok reason] checks IH]; [by constructor|]. simpl.
  destruct ok; [|done]. intros H. constructor; [done|by apply IH].
Qed.

Lemma verified_duration_spec e d :
  verified_duration e = Some d -> d = (ae_effective_expiry e - ae_verified_unix e) * 1000.
Proof. unfold verified_duration. destruct (_ && _); [|done]. by intros [= <-]. Qed.

Lemma envelope_checks_sound c e now_unix now_mono duration current boot :
  duration = (ae_effective_expiry e - ae_verified_unix e) * 1000 ->
  first_failure (envelope_checks c e now_unix now_mono duration current boot) = None ->
  sound_envelope e /\ infrastructure_matches (ae_binding e) (binding c) = true.
Proof.
  intros -> H%first_failure_none. unfold envelope_checks in H.
  repeat (apply Forall_cons in H as [? H]; simpl in * |-). unfold sound_envelope.
  repeat match goal with
  | H : (_ && _) = true |- _ => apply andb_true_iff in H as [? ?]
  | H : negb _ = true |- _ => apply negb_true_iff in H
  | H : (_ <=? _) = true |- _ => apply Z.leb_le in H
  | H : (_ =? _) = false |- _ => apply Z.eqb_neq in H
  end. split; [split_and!; lia|done].
Qed.

Lemma validate_wp e (Q : Result string unit -> Tunio W -> Prop) s :
  (forall r w, (r = Ok tt -> sound_envelope e /\
     infrastructure_matches (ae_binding e) (binding (ctl s)) = true) -> Q r (set_world w s)) ->
  wp (validate_envelope e) Q s.
Proof.
  intros HQ. unfold validate_envelope.
  apply wp_mbind, wp_reads; [auto with reading|]. intros [t|x] w1 _; [|by apply HQ].
  apply wp_mbind, wp_reads; [auto with reading|]. intros [t'|x] w2 _; [|by apply (HQ (Err x) w2)].
  apply wp_mbind, wp_lift. destruct (verified_duration e) as [d|] eqn:Ed; [|by apply (HQ (Err _) w2)].
  apply wp_mbind, wp_host. intros current w3 _.
  apply wp_mbind, wp_reads; [auto with reading|]. intros [b|x] w4 _; [|by apply (HQ (Err x) w4)].
  apply wp_mbind, wp_get. apply verified_duration_spec in Ed.
  destruct (first_failure _) as [reason|] eqn:Ef; [by apply (HQ (Err reason) w4)|].
  apply (HQ (Ok tt) w4). intros _. by eapply envelope_checks_sound.
Qed.

Lemma packet_port_wp fd peer b (Q : Result string UnixPacketPort -> Tunio W -> Prop) s :
  (forall r, (forall p, r = Ok p -> port_binding p = b /\ port_role p = Infrastructure) -> Q r s) ->
  wp (packet_port fd peer b) Q s.
Proof.
  intros HQ. unfold packet_port. repeat request_step; try by apply HQ.
  apply HQ. unfold map_err, UnixPacketPort_new. destruct (binding_is_zero b); [done|].
  by intros ? [= <-].
Qed.

(** A fresh record is that of its envelope. *)
Lemma prepare_record_wp e expected d b (Q : Result string OwnerAuthority -> Tunio W -> Prop) s :
  (forall r w, (forall v, r = Ok v -> record_of e v /\ oa_prepared v = false) -> Q r (set_world w s)) ->
  wp (prepare_record e expected d b) Q s.
Proof.
  intros HQ. unfold prepare_record. repeat request_step; try (by apply HQ).
  apply HQ. by intros ? [= <-].
Qed.

Definition recorded a id (r : OwnerAuthority) : Prop := owner_record a id = Some r.

Lemma owner_record_known a id r : owner_record a id = Some r -> known_record a r.
Proof.
  unfold owner_record, known_record. intros H.
  repeat case_match; simplify_eq/=; eauto.
Qed.

(** The record to prepare: one that is known, or a fresh one for the staged envelope. *)
Definition to_prepare a id e (r : OwnerAuthority) : Prop :=
  owner_record a id = Some r /\ oa_envelope r = e \/
  owner_record a id = None /\ staged a = Some e /\ record_of e r /\ oa_prepared r = false.

Lemma record_to_prepare_wp e id expected d (Q : Result string OwnerAuthority -> Tunio W -> Prop) s :
  (forall r w, (forall v, r = Ok v -> to_prepare (authority (ctl s)) id e v) -> Q r (set_world w s)) ->
  wp (record_to_prepare e id expected d) Q s.
Proof.
  intros HQ. unfold record_to_prepare. apply wp_mbind, wp_gets; cbv beta iota.
  assert (Hid : forall r : Result string OwnerAuthority,
    (forall v, r = Ok v -> to_prepare (authority (ctl s)) id e v) -> Q r s).
  { intros r Hr. rewrite <- (set_world_id s). by apply HQ. }
  destruct (owner_record (authority (ctl s)) id) as [record|] eqn:Er.
  - repeat request_step; apply Hid; [|done]. intros ? [= <-]. left.
    apply andb_true_iff in H as [[H _]%andb_true_iff _]. by apply bool_decide_eq_true in H.
  - do 2 request_step; [|by apply Hid]. do 2 request_step; [|by apply Hid].
    apply prepare_record_wp. intros r w Hr. apply HQ. intros v Hv. right.
    apply bool_decide_eq_true in H0. eauto.
Qed.

(** ** The operations *)

Definition stepping {T} (m : TunioM T) : Prop :=
  forall s0 s, steady s0 -> bridge_ok (bridge s0) -> micros s0 s -> wp m (fun _ s' => micros s0 s') s.

Lemma micros_put s0 s f :
  micros s0 s -> authority_step s (authority (ctl s)) (f (authority (ctl s))) ->
  micros s0 (set_ctl (on_authority f (ctl s)) s).
Proof. intros H Ha. by apply micros_authority. Qed.

Lemma retire_expired_stepping request expected : stepping (op_retire_expired request expected).
Proof.
  intros s0 s H0 Hok Hm. unfold op_retire_expired. request_paths.
  apply micros_put; [done|constructor].
Qed.

Lemma probe_transaction_stepping request : stepping (op_probe_transaction request).
Proof. intros s0 s H0 Hok Hm. unfold op_probe_transaction. request_paths; done. Qed.

(** The record is put down before the manager is asked. *)
Definition put_record id (r : OwnerAuthority) a : AuthorityState :=
  match owner_record a id with Some _ => a | None => with_candidate (Some r) a end.

Lemma prepare_put s0 s id e r w1 w2 w3 :
  micros s0 s -> to_prepare (authority (ctl s)) id e r ->
  let s' := set_world w3 (set_world w2 (set_world w1 s)) in
  micros s0 (set_ctl (on_authority (put_record id r) (ctl s')) s').
Proof.
  intros Hm Hr s'. assert (Hm' : micros s0 s') by micros_tac. destruct Hr as [[Hr He]|(Hr & Hst & He & Hp)].
  - apply micros_other; [done|done|]. simpl. unfold put_record. by rewrite Hr.
  - apply micros_authority; [done|done|]. simpl. unfold put_record. rewrite Hr. by eapply as_candidate.
Qed.

Lemma prepare_justified o id e r p a :
  to_prepare a id e r -> sound_envelope e -> port_binding p = ae_binding e ->
  justified o (put_record id r a) (PrepareOwner (oa_transaction r) p (authorization_check e)).
Proof.
  intros Hr Hs Hp. exists r. destruct Hr as [[Hr <-]|(Hr & Hst & [He _] & _)]; unfold put_record; rewrite Hr.
  - split_and!; [by eapply owner_record_known|done..].
  - rewrite He. split_and!; [by left|done..].
Qed.

Lemma prepare_owner_stepping request peer fds expected d :
  stepping (op_prepare_owner request peer fds expected d).
Proof.
  intros s0 s H0 Hok Hm. unfold op_prepare_owner. request_paths.
  apply validate_wp. intros r w Hv. request_paths.
  apply record_to_prepare_wp. intros r1 w1 Hr1. request_paths.
  apply packet_port_wp. intros r2 Hp. request_paths.
  all: specialize (Hv ltac:(by destruct a)) as [Hsound _]; destruct (Hp _ eq_refl) as [Hb _];
    specialize (Hr1 _ eq_refl); simpl in Hr1.
  - by apply (prepare_put s0 s _ v a1).
  - by apply (prepare_justified _ (ar_transaction_id request) v a1).
Qed.

(** [CommitOwner], [FinishOwnerDrain] and [RetireOwnerAfterFailure] need no more than a record. *)
Lemma finish_stepping request change :
  (forall o a tx, justified o a (change tx)) -> stepping (op_finish request change).
Proof.
  intros Hj s0 s H0 Hok Hm. unfold op_finish. request_paths; [apply Hj|].
  apply validate_wp. intros r w _. request_paths. apply Hj.
Qed.

Lemma abort_stepping request : stepping (op_abort request).
Proof. intros s0 s H0 Hok Hm. unfold op_abort. request_paths; done. Qed.

Lemma stage_stepping request : stepping (op_stage request).
Proof.
  intros s0 s H0 Hok Hm. unfold op_stage. request_paths.
  apply validate_wp. intros r w Hv. request_paths.
  specialize (Hv ltac:(by destruct a)) as [Hsound _]. apply micros_put; [micros_tac|]. simpl.
  repeat match goal with
  | H : negb _ = true |- _ => apply negb_true_iff in H
  | H : (_ || _) = false |- _ => apply orb_false_iff in H as [? ?]
  | H : bool_decide _ = false |- _ => apply bool_decide_eq_false in H
  | H : (_ <=? _) = false |- _ => apply Z.leb_gt in H
  | H : (_ <? _) = false |- _ => apply Z.ltb_ge in H
  | H : ~ is_Some _ |- _ => apply eq_None_not_Some in H
  end.
  simpl in *. apply as_staged; try done; lia.
Qed.

Lemma attach_authorized_stepping request peer fds : stepping (op_attach_authorized request peer fds).
Proof.
  intros s0 s H0 Hok Hm. unfold op_attach_authorized. request_paths.
  apply validate_wp. intros r w Hv. request_paths.
  apply packet_port_wp. intros r2 Hp. request_paths.
  specialize (Hv ltac:(by destruct a)) as [Hsound _]. destruct (Hp _ eq_refl) as [Hb _].
  left. exists v.
  match goal with H : (_ && bool_decide (staged _ = _)) = true |- _ =>
    apply andb_true_iff in H as [_ H%bool_decide_eq_true] end. by split_and!.
Qed.

Lemma revoke_stepping request : stepping (op_revoke request).
Proof. intros s0 s H0 Hok Hm. unfold op_revoke. request_paths; done. Qed.

Lemma discard_stepping request : stepping (op_discard request).
Proof.
  intros s0 s H0 Hok Hm. unfold op_discard. request_paths. apply micros_put; [done|constructor].
Qed.

(** *** What the manager does not do by itself *)

(** Nobody is put in place: owners, candidates and the high-water marks only go. *)
Definition weaker (b b' : Bridge W Authorization) : Prop :=
  (owner b = None -> owner b' = None) /\ (retained b = None -> retained b' = None) /\
  (pending b = None -> pending b' = None) /\
  highest_transaction_revision b' = highest_transaction_revision b /\
  highest_owner_epoch b' = highest_owner_epoch b.

Lemma weaker_refl b : weaker b b.
Proof. by split_and!. Qed.

Lemma weaker_trans b1 b2 b3 : weaker b1 b2 -> weaker b2 b3 -> weaker b1 b3.
Proof.
  intros (A1 & A2 & A3 & A4 & A5) (B1 & B2 & B3 & B4 & B5). split_and!; try congruence; auto.
Qed.

Lemma weaker_drop b phase : weaker b (drop_candidate phase b).
Proof. unfold drop_candidate. destruct (pending b) eqn:E; [by split_and!|apply weaker_refl]. Qed.

Lemma weaker_force b : weaker b (force_retained b).
Proof. unfold force_retained. destruct (retained b) eqn:E; [by split_and!|apply weaker_refl]. Qed.

Lemma weaker_put x o o' e b : owner_at x b = Some o -> weaker b (put_owner x o' (set_env e b)).
Proof.
  intros Hx. destruct x; simpl in *; split_and!; simpl; try done; try congruence;
    destruct (pending b); done.
Qed.

Lemma weaker_event ev b : weaker b (bridge_event ev b).
Proof.
  pose proof (event_moves b ev) as H. induction H as [|b1 b2 b3 Hm _ IH]; [apply weaker_refl|].
  eapply weaker_trans; [|done]. destruct Hm; try (by split_and!);
    [apply weaker_force|apply weaker_drop|by eapply weaker_put].
Qed.

Lemma weaker_revoke_update epoch b : weaker b (bridge_update (Revoke epoch) b).2.
Proof.
  unfold bridge_update. simpl. unfold revoke_owner, mbind, gets, guard_that, refuse, mfail, mret, modify.
  simpl. destruct (epoch =? highest_owner_epoch b); simpl; [|apply weaker_refl].
  eapply weaker_trans; [|apply weaker_force]. by split_and!.
Qed.

Lemma weaker_quiet b b' : quiet_run b b' -> weaker b b'.
Proof.
  intros H. induction H as [|b1 b2 b3 H _ IH]; [apply weaker_refl|]. eapply weaker_trans; [|done].
  destruct H as [ev|w|epoch _]; [apply weaker_event|by split_and!|apply weaker_revoke_update].
Qed.

Lemma update_receipt change (b : Bridge W Authorization) r rc b' :
  bridge_update change b = (r, rc, b') -> rc = receipt b'.
Proof. unfold bridge_update. destruct (apply_change change b). by intros [= _ <- <-]. Qed.

(** An answered change: the receipt is that of a state, and from there on nobody came. *)
Lemma applied_receipt change (b : Bridge W Authorization) r rc b' :
  bridge_ok b -> applied change b r rc b' ->
  exists b1, rc = receipt b1 /\ bridge_ok b1 /\ weaker b1 b'.
Proof.
  intros Hb (b0 & b1 & H1 & Hs & Hu & H2). exists b1.
  split_and!; [by eapply update_receipt| |by apply weaker_quiet].
  assert (H0 : bridge_ok b0).
  { clear -Hb H1. apply quiet_run_manager in H1. induction H1 as [|x y z Hxy _ IH]; [done|].
    by eapply IH, manager_step_ok. }
  replace b1 with (bridge_update change b0).2 by (by rewrite Hu). by apply bridge_update_ok.
Qed.

(** *** Isolation and recovery *)

(** What a probe leaves: its receipt is that of a state since when nobody came. *)
Lemma probed_receipt s rc s' :
  bridge_ok (bridge s) -> probed s (Ok rc) s' ->
  exists b1, rc = receipt b1 /\ bridge_ok b1 /\ weaker b1 (bridge s') /\
    reconciled rc (ctl s) (ctl s').
Proof.
  intros Hb Hp. destruct (Hp rc eq_refl) as (s1 & w & c' & (_ & _ & Happ) & -> & Hr & _).
  destruct (applied_receipt _ _ _ _ _ Hb Happ) as (b1 & H1 & H2 & H3). exists b1.
  split_and!; [done|done| |done]. eapply weaker_trans; [done|]. by split_and!.
Qed.

Lemma candidate_owner rc a :
  actual_owner_binding (reconcile_candidate rc a) = actual_owner_binding a /\
  retained_owner_binding (reconcile_candidate rc a) = retained_owner_binding a.
Proof.
  unfold reconcile_candidate. destruct (owner_candidate a) as [record|]; [|done]. simpl.
  destruct (same_transaction _ _); [done|]. destruct (pr_last_transaction rc) as [l|]; [|done].
  destruct (bool_decide (r_transaction l = _)); [|done].
  by destruct (bool_decide (staged _ = _)), (bool_decide (r_phase l = Committed)).
Qed.

Lemma terminal_owner rc a :
  actual_owner_binding (reconcile_terminal rc a) = actual_owner_binding a /\
  retained_owner_binding (reconcile_terminal rc a) = retained_owner_binding a.
Proof.
  unfold reconcile_terminal. destruct (owner_terminal a) as [[record phase]|]; [|done]. simpl.
  by destruct (_ && _), (negb _).
Qed.

Lemma adopted_owner rc a :
  actual_owner_binding (adopt_staged rc a) = actual_owner_binding a /\
  retained_owner_binding (adopt_staged rc a) = retained_owner_binding a.
Proof. unfold adopt_staged. destruct (staged a); [|done]. by destruct (_ && _). Qed.

Lemma reconciled_owner rc a :
  actual_owner_binding (reconcile_authority rc a) = pr_binding rc /\
  retained_owner_binding (reconcile_authority rc a) = pr_retained_owner_binding rc.
Proof.
  unfold reconcile_authority, raise_marks, reconcile_owner. simpl.
  destruct (adopted_owner rc (with_owner_receipts
    (r ← owner_candidate (reconcile_terminal rc (reconcile_candidate rc (with_receipt rc a)));
     if oa_prepared r then Some (owner_authority_receipt r Prepared) else None)
    ((fun rp => owner_authority_receipt rp.1 rp.2) <$>
       owner_terminal (reconcile_terminal rc (reconcile_candidate rc (with_receipt rc a))))
    (reconcile_terminal rc (reconcile_candidate rc (with_receipt rc a))))) as [-> ->]. simpl.
  destruct (terminal_owner rc (reconcile_candidate rc (with_receipt rc a))) as [-> ->].
  by destruct (candidate_owner rc (with_receipt rc a)) as [-> ->].
Qed.

Lemma with_deadline_owner d a :
  actual_owner_binding (with_deadline d a) = actual_owner_binding a /\
  retained_owner_binding (with_deadline d a) = retained_owner_binding a.
Proof. done. Qed.

(** The revocation is done, and nobody has come since. *)
Lemma revoked_empty s epoch s' :
  bridge_ok (bridge s) -> pending (bridge s) = None ->
  applied_change (Revoke epoch) s (Ok tt) s' ->
  actual_owner_binding (authority (ctl s')) = None ->
  retained_owner_binding (authority (ctl s')) = None ->
  owner (bridge s') = None /\ retained (bridge s') = None /\ pending (bridge s') = None.
Proof.
  intros Hb Hp Ha Ho Hr. destruct (Ha tt eq_refl) as (s1 & rc & w & c' & (_ & _ & Happ) & -> & [_ [d Hd]] & _).
  change (ctl (set_world w (set_ctl c' s1))) with c' in Ho, Hr.
  rewrite Hd in Ho, Hr. destruct (with_deadline_owner d (reconcile_authority rc (authority (ctl s)))) as [E1 E2].
  rewrite E1 in Ho. rewrite E2 in Hr. clear E1 E2.
  destruct (reconciled_owner rc (authority (ctl s))) as [E1 E2]. rewrite E1 in Ho. rewrite E2 in Hr.
  change (bridge (set_world w (set_ctl c' s1))) with (set_env (mkEnv w (wire (env (bridge s1)))) (bridge s1)).
  assert (Hpend : pending (bridge s1) = None).
  { destruct Happ as (b0 & b1 & Q1 & _ & Hu & Q2). apply weaker_quiet in Q1, Q2.
    apply Q2. replace b1 with (bridge_update (Revoke epoch) b0).2 by (by rewrite Hu).
    apply weaker_revoke_update. by apply Q1. }
  destruct (applied_receipt _ _ _ _ _ Hb Happ) as (b1 & -> & _ & (W1 & W2 & _)). simpl in *.
  apply fmap_None in Ho. apply fmap_None in Hr. split_and!; [by apply W1|by apply W2|done].
Qed.

Lemma pending_receipt (b : Bridge W Authorization) : pr_pending (receipt b) = None -> pending b = None.
Proof. simpl. by rewrite fmap_None. Qed.

Lemma revoked_weaker s epoch r s' :
  applied_change (Revoke epoch) s (Ok r) s' -> weaker (bridge s) (bridge s').
Proof.
  intros Ha. destruct (Ha r eq_refl) as (s1 & rc & w & c' & (_ & _ & b0 & b1 & Q1 & _ & Hu & Q2) & -> & _).
  apply weaker_quiet in Q1, Q2. eapply weaker_trans; [exact Q1|]. eapply weaker_trans; [|exact Q2].
  replace b1 with (bridge_update (Revoke epoch) b0).2 by (by rewrite Hu).
  apply weaker_revoke_update.
Qed.

Lemma isolated_put s0 s rc s1 w epoch r s2 e :
  steady s0 -> bridge_ok (bridge s0) -> micros s0 s -> micros s0 s1 ->
  probed s (Ok rc) s1 -> pr_pending rc = None -> pr_owner_epoch rc = owner_epoch (ae_binding e) ->
  applied_change (Revoke epoch) (set_world w s1) (Ok r) s2 -> micros s0 s2 ->
  actual_owner_binding (authority (ctl s2)) = None ->
  retained_owner_binding (authority (ctl s2)) = None ->
  micros s0 (set_ctl (on_authority (with_isolated e) (ctl s2)) s2).
Proof.
  intros H0 Hok Hm Hm1 Hp Hn He Ha Hm2 Ho Hr.
  pose proof (revoked_weaker _ _ _ _ Ha) as (_ & _ & _ & _ & We'). destruct r.
  destruct (probed_receipt s rc s1) as (b1 & -> & _ & (_ & _ & Wp & _ & We) & _);
    [by eapply micros_bridge|done|].
  assert (Hb : bridge_ok (bridge (set_world w s1))).
  { eapply micros_bridge; [exact H0|done|]. by apply micros_world. }
  destruct (revoked_empty _ _ _ Hb (Wp (pending_receipt b1 Hn)) Ha Ho Hr) as (? & ? & ?).
  apply micros_put; [done|]. apply as_isolated; try done. simpl in *. lia.
Qed.

Lemma isolate_stepping request expected : stepping (op_isolate_committed request expected).
Proof.
  intros s0 s H0 Hok Hm. unfold op_isolate_committed. request_paths; [done| |done|].
  - absent_facts. eapply (isolated_put s0 s a s' w); try done. by apply Z.eqb_eq, negb_false_iff.
  - absent_facts. eapply (isolated_put s0 s a s' (get_world s')); rewrite ?set_world_id; try done.
    by apply Z.eqb_eq, negb_false_iff.
Qed.

(** After a receipt without a candidate there is no record of one; a terminal record is that
    of the manager's last transaction. *)
Lemma candidate_gone rc a :
  pr_pending rc = None -> owner_candidate (reconcile_candidate rc a) = None.
Proof.
  intros Hp. unfold reconcile_candidate. destruct (owner_candidate a) as [record|] eqn:Ec; [|done].
  rewrite Hp. simpl. destruct (pr_last_transaction rc) as [l|]; [|done].
  destruct (bool_decide (r_transaction l = _)); [|done].
  by destruct (bool_decide (staged _ = _)), (bool_decide (r_phase l = Committed)).
Qed.

Lemma terminal_candidate rc a :
  owner_candidate (reconcile_terminal rc a) = owner_candidate a.
Proof.
  unfold reconcile_terminal. destruct (owner_terminal a) as [[record phase]|]; [|done]. simpl.
  by destruct (_ && _), (negb _).
Qed.

Lemma terminal_last rc a r phase :
  owner_terminal (reconcile_terminal rc a) = Some (r, phase) ->
  same_transaction (pr_last_transaction rc) (oa_transaction r) = true.
Proof.
  unfold reconcile_terminal. destruct (owner_terminal a) as [[record ph]|] eqn:Et; [|by rewrite Et].
  simpl. destruct (same_transaction (pr_last_transaction rc) (oa_transaction record)) eqn:Es; simpl; [|done].
  destruct (_ && _); simpl; rewrite ?Et; by intros [= -> ->].
Qed.

Lemma adopted_records rc a :
  owner_candidate (adopt_staged rc a) = owner_candidate a /\
  owner_terminal (adopt_staged rc a) = owner_terminal a.
Proof. unfold adopt_staged. destruct (staged a); [|done]. by destruct (_ && _). Qed.

(** The records of the reconciled authority are those before its receipts were displayed. *)
Lemma reconciled_records rc a :
  let b := reconcile_terminal rc (reconcile_candidate rc (with_receipt rc a)) in
  owner_candidate (reconcile_authority rc a) = owner_candidate b /\
  owner_terminal (reconcile_authority rc a) = owner_terminal b.
Proof.
  intros b. unfold reconcile_authority, raise_marks, reconcile_owner. fold b. simpl.
  set (a1 := with_owner_receipts _ _ b). by destruct (adopted_records rc a1) as [-> ->].
Qed.

Lemma last_revision (b : Bridge W Authorization) tx :
  bridge_ok b -> same_transaction (last_transaction b) tx = true ->
  revision tx <= highest_transaction_revision b.
Proof.
  intros Hb. unfold same_transaction. destruct (last_transaction b) as [l|] eqn:El; [|done].
  intros <-%bool_decide_eq_true. by apply (bo_last b Hb l El).
Qed.

Lemma cancelled_put s0 s rc s1 w e expected :
  steady s0 -> bridge_ok (bridge s0) -> micros s0 s -> micros s0 s1 ->
  probed s (Ok rc) s1 -> precommit_absent (ctl s1) rc e expected = true ->
  micros s0 (set_ctl (on_authority (fun a => raise_to e (with_cancelled e (with_staged None a))) (ctl s1))
               (set_world w s1)).
Proof.
  intros H0 Hok Hm Hm1 Hp Ha.
  destruct (probed_receipt s rc s1) as (b1 & -> & Hb1 & (_ & _ & _ & Hrev & _) & [_ [d Hd]]);
    [by eapply micros_bridge|done|].
  unfold precommit_absent in Ha. absent_facts.
  destruct (reconciled_records (receipt b1) (authority (ctl s))) as [E1 E2].
  apply (micros_authority s0 (set_world w s1)); [by apply micros_world|done|].
  change (ctl (set_world w s1)) with (ctl s1). simpl. apply as_cancelled; simpl in *.
  - by rewrite Hrev.
  - done.
  - rewrite Hd. simpl. rewrite E1, terminal_candidate. by apply candidate_gone.
  - done.
  - intros r phase Hr. rewrite Hd in Hr. simpl in Hr. rewrite E2 in Hr.
    apply terminal_last in Hr. apply last_revision in Hr; [|done]. lia.
Qed.

Lemma recover_stepping request expected : stepping (op_recover_precommit request expected).
Proof.
  intros s0 s H0 Hok Hm. unfold op_recover_precommit. request_paths.
  by eapply (cancelled_put s0 s _ s').
Qed.

(** *** Requests *)

Lemma reads_authority_fence request peer : only_reads (authority_fence request peer : TunioM unit).
Proof. unfold authority_fence. reads. Qed.

Lemma operation_stepping request peer fds : stepping (run_operation request peer fds).
Proof.
  unfold run_operation. destruct (ar_operation request).
  - apply stage_stepping.
  - apply probe_transaction_stepping.
  - apply attach_authorized_stepping.
  - apply revoke_stepping.
  - apply discard_stepping.
  - apply prepare_owner_stepping.
  - by apply finish_stepping.
  - by apply finish_stepping.
  - by apply finish_stepping.
  - apply abort_stepping.
  - apply recover_stepping.
  - apply isolate_stepping.
  - apply retire_expired_stepping.
Qed.

Lemma authority_stepping request peer fds : stepping (authority_request request peer fds).
Proof.
  intros s0 s H0 Hok Hm. unfold authority_request.
  apply wp_mbind, wp_reads; [apply reads_authority_fence|]. intros [[]|x] w _; [|by apply micros_world].
  do 2 request_step; [|by apply micros_world]. request_step. request_step; [|done..].
  request_step; [|done]. request_step. eapply wp_mono.
  { apply (operation_stepping request peer fds s0); done. }
  intros [[]|x] s1 Hm1; [|done..]. request_paths.
Qed.

Lemma serve_micros s request peer fds :
  steady s -> bridge_ok (bridge s) -> micros s (serve_authority request peer fds s).2.
Proof.
  intros H0 Hok. unfold serve_authority.
  destruct (authority_request request peer fds s) as [r s'] eqn:E. simpl.
  assert (Hm : micros s s) by done.
  apply (wp_run _ _ _ _ _ (authority_stepping request peer fds s s H0 Hok Hm) E).
Qed.

(** ** The other requests *)

Lemma packet_fence_wp request peer o (Q : Result string unit -> Tunio W -> Prop) s :
  (forall r w, (r = Ok tt -> fixed_binding_matches (pc_binding request) (o_binding o) = true /\
     (pc_operation request <> PcProbe ->
      active (authority (ctl s)) = None /\ staged (authority (ctl s)) = None)) ->
     Q r (set_world w s)) ->
  wp (packet_fence request peer o) Q s.
Proof.
  intros HQ. unfold packet_fence. request_step. request_step. request_step.
  assert (HE : forall x, Q (Err x) s).
  { intros x. rewrite <- (set_world_id s). by apply HQ. }
  request_step; [|apply HE]. do 2 request_step. request_step; [|by apply HQ].
  request_step. request_step; [|by apply HQ]. request_step. request_step; [|by apply HQ].
  request_step. request_step; [|by apply HQ]. request_step; [|by apply HQ].
  apply HQ. intros _. split; [done|]. intros Hp. apply orb_true_iff in H3 as [H3|H3].
  - absent_facts. done.
  - by destruct (pc_operation request).
Qed.

Lemma reads_attach_deadline request o : only_reads (attach_deadline request o : TunioM Z).
Proof.
  unfold attach_deadline. apply reads_bind; [auto with reading|]. intros _.
  apply reads_bind; [auto with reading|]. intros t. apply reads_bind; [auto with reading|]. reads.
Qed.

(** [bootstrap_check] is one pair of caps, the first within the inherited one. *)
Definition bootstrap_caps (inherited : option Z) (auth : Authorization) : Prop :=
  exists k, auth = [k] /\ match inherited with Some cap => cap_mono_ms k <= cap | None => True end.

Lemma bootstrap_check_caps inherited d (w : W) auth w' :
  bootstrap_check inherited d w = (Ok auth, w') -> bootstrap_caps inherited auth.
Proof.
  unfold bootstrap_check, mbind, boot_clock, wall_clock, instant, reading_or, reading, require_that,
    lift, mret, mfail, ok_or. intros E. unfold mbind in E.
  destruct (t_boottime_ms w) as [[mono|] w1]; [|done]. destruct (t_wall w1) as [[wall|] w2]; [|done].
  destruct (t_instant w2) as [t w3]. destruct (_ <=? u64_MAX); [|done]. injection E as <- <-.
  eexists. split; [done|]. simpl. unfold capped_bootstrap_deadline. destruct inherited; [lia|done].
Qed.

Lemma bootstrap_wp inherited d (Q : Result string Authorization -> Tunio W -> Prop) s :
  (forall r w, (forall auth, r = Ok auth -> bootstrap_caps inherited auth) -> Q r (set_world w s)) ->
  wp (on_host (bootstrap_check inherited d)) Q s.
Proof.
  intros HQ. apply wp_on_host. intros r w E. apply HQ. intros auth ->. by eapply bootstrap_check_caps.
Qed.

(** What the original authority can attach. *)
Lemma attach_change_wp request peer fds o
    (Q : Result string (PacketPortOwnerChange Authorization) -> Tunio W -> Prop) s :
  (forall r w, (forall change, r = Ok change -> exists p d k,
     change = AttachAuthorized p d (o_authorization o ++ [k]) /\ port_binding p = pc_binding request) ->
     Q r (set_world w s)) ->
  wp (attach_change request peer fds o) Q s.
Proof.
  intros HQ. unfold attach_change. request_step. request_step. request_step.
  assert (HE : forall x, Q (Err x) s).
  { intros x. rewrite <- (set_world_id s). by apply HQ. }
  request_step; [|apply HE]. apply wp_mbind, wp_reads; [apply reads_attach_deadline|].
  intros [d|x] w _; [|by apply HQ]. request_step. request_step; [|by apply HQ].
  request_step. apply packet_port_wp. intros r Hp. destruct r as [p|x]; [|by apply HQ].
  request_step. apply bootstrap_wp. intros r w1 Hr. destruct r as [auth|x]; [|by apply HQ].
  request_step. apply HQ. intros ? [= <-]. destruct (Hr auth eq_refl) as (k & -> & _).
  destruct (Hp p eq_refl) as [Hb _]. by exists p, d, k.
Qed.

Lemma packet_change_stepping change request peer attaching s0 s :
  steady s0 -> bridge_ok (bridge s0) -> micros s0 s -> justified (original s) (authority (ctl s)) change ->
  wp (apply_packet_change change request peer attaching) (fun _ s' => micros s0 s') s.
Proof.
  intros H0 Hok Hm Hj. unfold apply_packet_change. request_paths.
  apply micros_world. destruct attaching; by apply micros_other.
Qed.

Lemma micros_original s s' : micros s s' -> original s' = original s.
Proof.
  intros H. induction H as [|s1 s2 s3 Hm _ IH]; [done|]. rewrite IH.
  destruct Hm as [w|g|t|ev|change r s'' _ Ho|c _]; try done; [apply actor_same_controller|apply Ho].
Qed.

Lemma packet_stepping request peer fds : stepping (packet_request request peer fds).
Proof.
  intros s0 s H0 Hok Hm. unfold packet_request. request_step. request_step. request_step.
  apply packet_fence_wp. intros r w Hf. destruct r as [[]|x]; [|by apply micros_world].
  destruct (Hf eq_refl) as [Hfix Hnone]. destruct (pc_operation request).
  - request_step. apply attach_change_wp. intros r w1 Hr. destruct r as [change|x]; [|request_paths].
    apply packet_change_stepping; [done|done|request_paths|].
    destruct (Hr change eq_refl) as (p & d & k & -> & Hp). destruct Hnone as [Ha Hs]; [done|].
    right. exists k. rewrite Hp. by split_and!.
  - request_step. request_step. request_step. request_step; [|request_paths].
    apply packet_change_stepping; [done|done|request_paths|done].
  - request_step; request_paths.
Qed.

(** *** Supervision *)

Lemma confirm_stepping : stepping (confirm_registration : TunioM unit).
Proof.
  intros s0 s H0 Hok Hm. unfold confirm_registration.
  apply wp_mbind, wp_get. apply wp_mbind. request_step; [|done].
  apply wp_mbind, wp_host. intros current w E. apply wp_mbind. request_step; [|request_paths].
  apply wp_mbind, wp_host. intros parent w1 _. apply wp_mbind. request_step; [|request_paths].
  apply wp_mbind, wp_host. intros current' w2 E'. apply wp_mbind. request_step; [|request_paths].
  apply wp_mbind, wp_put. subst current'. simpl in E'.
  assert (Hc : micros s0 (set_ctl (with_registration true None (ctl s)) (set_world w2 s))).
  { apply micros_controller; [by apply micros_world|].
    eapply (cs_registered _ (ctl s) _). by rewrite E'. }
  apply wp_reads; [auto with reading|]. intros r w3 _. by apply micros_world.
Qed.

Lemma take_over_stepping peer s0 s :
  K peer -> steady s0 -> micros s0 s -> registered (ctl s) = true -> peer <> controller (ctl s) ->
  wp (take_over peer : TunioM _) (fun _ s' => micros s0 s') s.
Proof.
  intros HK H0 Hm Hreg Hpeer. unfold take_over. apply wp_mbind, wp_get.
  apply wp_mbind, wp_host. intros alive w E. destruct alive; [by apply micros_world|].
  destruct (Z.leb_spec (2 ^ 64) (epoch (ctl s) + 1)); [by apply micros_world|].
  apply wp_mbind, wp_put. apply wp_mbind, wp_attempt, wp_reads; [auto with reading|].
  intros r w1 _. simpl. destruct (is_ok r).
  - apply wp_mret. simpl. apply micros_world, micros_controller; [by apply micros_world|].
    eapply cs_taken_over; try done. by rewrite E.
  - apply wp_mbind, wp_put, wp_mret. simpl.
    assert (Heq : set_ctl (with_controller (controller (ctl s)) (epoch (ctl s)) (with_controller peer (epoch (ctl s) + 1) (ctl s)))
      (set_world w1 (set_ctl (with_controller peer (epoch (ctl s) + 1) (ctl s)) (set_world w s)))
      = set_ctl (ctl s) (set_world w1 s)) by (by destruct (ctl s)).
    change (micros s0 (set_ctl (with_controller (controller (ctl s)) (epoch (ctl s)) (with_controller peer (epoch (ctl s) + 1) (ctl s)))
      (set_world w1 (set_ctl (with_controller peer (epoch (ctl s) + 1) (ctl s)) (set_world w s))))).
    rewrite Heq. by apply micros_other; [apply micros_world|..].
Qed.

(** The request proves the capability and asks for a takeover. *)
Definition takeover_request c (request : ControlRequest) : Prop :=
  cr_schema_version request = 1 /\ cr_token_sha256 request = sha256_hex (token c) /\
  cr_operation request = CtTakeover.

Lemma control_stepping peer request s0 s :
  (takeover_request (ctl s) request -> K peer) ->
  steady s0 -> bridge_ok (bridge s0) -> micros s0 s ->
  wp (control_request peer request : TunioM _) (fun _ s' => micros s0 s') s.
Proof.
  intros HK H0 Hok Hm. unfold control_request. request_step. request_step.
  destruct (negb _) eqn:Ecap; [done|]. apply negb_false_iff in Ecap. absent_facts.
  assert (Htake : cr_operation request = CtTakeover -> K peer).
  { intros Hop. apply HK. split_and!; [|done|done].
    match goal with H : (cr_schema_version request =? 1) = true |- _ => by apply Z.eqb_eq in H end. }
  destruct (cr_operation request) eqn:Eop.
  - apply wp_mbind. unfold probe_registration. apply wp_mbind, wp_get.
    case_bool_decide; [|by request_paths]. apply wp_mbind, wp_host. intros [] w _.
    + apply wp_put, wp_mret. apply micros_other; [by apply micros_world|done|done].
    + by request_paths.
  - destruct (registered (ctl s)) eqn:Er; [|done]. simpl. case_bool_decide as Ep; [done|].
    apply wp_mbind. eapply wp_mono; [by apply (take_over_stepping peer s0); [apply Htake|..]|].
    by intros [[]|] s' Hs'.
  - by case_bool_decide.
Qed.

(** *** The guard *)

Lemma guard_check_stepping : stepping (guard_check : TunioM unit).
Proof.
  intros s0 s H0 Hok Hm. unfold guard_check. apply wp_mbind, wp_gets. cbv [id].
  destruct (guard s); [|exact Hm..]. destruct (owner_active (ctl s)); [|exact Hm].
  apply wp_mbind, wp_reads.
  - unfold guard_expired. destruct (active (authority (ctl s))); [reads|].
    apply reads_bind; [auto with reading|]. intros []; [|apply reads_pure].
    apply reads_bind; [|intros [|]; apply reads_pure].
    intros s1. destruct (reads_unix s1) as (r & w & E). unfold attempt. rewrite E. eauto.
  - intros [[]|] w _; [|apply (micros_world s0 s w Hm)..].
    apply wp_modify. eapply rtc_r; [by apply micros_world|constructor].
Qed.

Lemma guard_settles_stepping locked late : stepping (guard_settles locked late : TunioM unit).
Proof.
  intros s0 s H0 Hok Hm. unfold guard_settles. apply wp_mbind, wp_gets. cbv [id].
  destruct (guard s) as [| |ticket e b]; [exact Hm..|]. apply wp_mbind, wp_modify.
  assert (Hm1 : micros s0 (set_guard GuardIdle (close_ticket ticket s))).
  { do 2 (eapply rtc_r; [|constructor]). done. }
  destruct (find_answer ticket s) as [[[] ]|]; [|exact Hm1..]. destruct (locked || late); [exact Hm1|].
  unfold guard_clears. apply wp_mbind, wp_get. destruct (_ && _); [|exact Hm1].
  apply wp_mbind, wp_put, wp_ignore, wp_reads; [auto with reading|]. intros r w _.
  apply micros_world, micros_authority; [done|done|]. simpl. apply as_expired.
Qed.

(** ** Every step *)

Lemma step_micros s s' :
  (forall peer request, s' = (control_request peer request s).2 ->
     takeover_request (ctl s) request -> K peer) ->
  steady s -> bridge_ok (bridge s) -> tunio_step s s' -> micros s s'.
Proof.
  intros HK H0 Hok Hs.
  assert (Hrun : forall {T} (m : TunioM T), stepping m -> micros s (m s).2).
  { intros T m Hst. destruct (m s) as [r s1] eqn:E. simpl. assert (Hm : micros s s) by done.
    apply (wp_run _ _ _ _ _ (Hst s s H0 Hok Hm) E). }
  destruct Hs as [ev|w|request peer fds|request peer fds|peer request| | |locked late].
  - apply rtc_once. constructor.
  - apply rtc_once. constructor.
  - by apply serve_micros.
  - apply Hrun, packet_stepping.
  - destruct (control_request peer request s) as [r s1] eqn:E. simpl. assert (Hm : micros s s) by done.
    apply (wp_run _ _ _ _ _ (control_stepping peer request s s ltac:(by apply HK; rewrite E) H0 Hok Hm) E).
  - apply Hrun, confirm_stepping.
  - apply Hrun, guard_check_stepping.
  - apply Hrun, guard_settles_stepping.
Qed.
End Requests.
