(* ===== verification/TunioFacts.v ===== *)
(** * The TUN process: what it guarantees

    Theorems over the runs of the process: who may control it, how its marks grow, under
    which authority packets cross, and what an accepted recovery or isolation means for ever
    after. *)
From stdpp Require Import base tactics list numbers option gmap strings.
From Stdlib Require Import ZArith Lia.
From S2P Require Import Prelude PacketPort PortManager PortManagerFacts PortManagerInv PortManagerSpec ProcessControl Tunio TunioOps TunioRuns TunioQueue TunioExec TunioMicro TunioRequests.

#[local] Open Scope Z_scope.

Section Facts.
Context {W : Type} `{!TunioHost W}.
Implicit Types (s : Tunio W) (c : Controller) (a : AuthorityState).
#[local] Abbreviation TunioM := (@Tunio.TunioM W).
#[local] Abbreviation micros := (@micro_run W _ (fun _ => True)).

(** ** The start *)

(** The process as it starts: one owner, under the bootstrap caps. *)
Record started_ok s : Prop := {
  so_steady : steady s;
  so_controller : registered (ctl s) = false /\ epoch (ctl s) = 1 /\
    authority (ctl s) = default_authority /\ binding (ctl s) = o_binding (original s);
  so_bridge : exists p d auth w w' b1 rc,
    bridge_update (AttachAuthorized p d auth) (new_bridge (port_binding p) w) = (Ok tt, rc, b1) /\
    bridge s = set_env (mkEnv w' (wire (env b1))) b1 /\ port_binding p = o_binding (original s) /\
    bootstrap_caps (o_cap_mono_ms (original s)) auth;
  so_original : bootstrap_caps (o_cap_mono_ms (original s)) (o_authorization (original s));
}.

Lemma mbind_ok {S F T U} (m : M S F T) (f : T -> M S F U) x v y :
  mbind m f x = (Ok v, y) -> exists t x', m x = (Ok t, x') /\ f t x' = (Ok v, y).
Proof. unfold mbind. destruct (m x) as [[t|e] x'] eqn:E; [eauto|done]. Qed.

Lemma require_ok b code (w w' : W) v : require_that b code w = (Ok v, w') -> b = true /\ w' = w.
Proof. unfold require_that. destruct b; [by intros [= _ ->]|done]. Qed.

Lemma started_facts s : tunio_started s -> started_ok s.
Proof.
  intros (acquire & args & w & w' & E). unfold start in E.
  apply mbind_ok in E as (deadline & w1 & _ & E). apply mbind_ok in E as (p & w2 & Ep & E).
  apply mbind_ok in E as ([] & w3 & _ & E). apply mbind_ok in E as (b & w4 & Eb & E).
  assert (Hp : port_binding p = arg_binding args).
  { unfold startup_port in Ep. apply mbind_ok in Ep as ([] & ? & _ & Ep).
    apply mbind_ok in Ep as (parent & ? & _ & Ep). apply mbind_ok in Ep as ([] & ? & _ & Ep).
    unfold lift, UnixPacketPort_new in Ep. destruct (binding_is_zero _); [done|].
    by injection Ep as <- _. }
  unfold start_managed_infrastructure in Eb. apply mbind_ok in Eb as (auth & w5 & Hauth & Eb).
  apply bootstrap_check_caps in Hauth.
  destruct (bridge_update _ _) as [[r rc] b1] eqn:Eu. destruct r as [[]|]; [|done].
  injection Eb as <- <-.
  unfold control_start in E. apply mbind_ok in E as ([] & ? & _ & E).
  apply mbind_ok in E as (process & ? & _ & E). apply mbind_ok in E as (parent & ? & _ & E).
  apply mbind_ok in E as (controller & ? & _ & E). apply mbind_ok in E as (published & ? & _ & E).
  apply mbind_ok in E as ([] & ? & _ & E). apply mbind_ok in E as (a1 & ? & Ha1 & E).
  apply mbind_ok in E as (a2 & w6 & Ha2 & E). injection E as <- _.
  apply bootstrap_check_caps in Ha1. constructor; simpl; try done.
  - constructor; [constructor; simpl|].
    + constructor.
    + constructor.
    + constructor.
    + by intros t [? ?].
    + intros u [Hin _]. by apply elem_of_nil in Hin.
  - by exists p, deadline, auth, w5, w6, b1, rc.
Qed.

Lemma started_reachable s : tunio_started s -> manager_reachable (bridge s).
Proof.
  intros H. destruct (started_facts s H) as [_ _ (p & d & auth & w & w' & b1 & rc & Hu & Hb & _) _].
  exists (port_binding p), w. rewrite Hb. eapply rtc_l; [|apply rtc_once, step_elsewhere].
  replace b1 with (bridge_update (AttachAuthorized p d auth) (new_bridge (port_binding p) w)).2
    by (by rewrite Hu).
  by constructor.
Qed.

(** Any run is a run of small steps. *)
Lemma run_micros s s' : steady s -> bridge_ok (bridge s) -> rtc tunio_step s s' -> micros s s'.
Proof.
  intros H0 Hok H. induction H as [|s1 s2 s3 Hs _ IH]; [apply rtc_refl|].
  assert (Hm : micros s1 s2) by (by apply step_micros).
  unfold micro_run in *. etrans; [done|]. apply IH.
  - by eapply micros_steady.
  - by eapply micros_bridge.
Qed.

Lemma reachable_sound s : tunio_reachable s -> steady s /\ bridge_ok (bridge s).
Proof.
  intros (s0 & H0 & H). pose proof (so_steady _ (started_facts s0 H0)) as Hst.
  pose proof (manager_reachable_ok _ (started_reachable s0 H0)) as Hok.
  apply run_micros in H; [|done..]. split; [by eapply micros_steady|by eapply micros_bridge].
Qed.

(** ** Who controls the process *)

(** The same controller, in the same epoch, with the same capability. *)
Definition same_control c c' : Prop :=
  process c' = process c /\ controller c' = controller c /\ epoch c' = epoch c /\
  token c' = token c /\ generation c' = generation c.

Lemma kept_control (K : ProcessIdentity -> Prop) s s' :
  micro_run (K:=K) s s' -> same_control (ctl s) (ctl s') \/ exists peer, K peer.
Proof.
  intros H. induction H as [|s1 s2 s3 Hm _ IH]; [left; by split_and!|].
  destruct IH as [IH|]; [|by right].
  assert (Hs : same_control (ctl s1) (ctl s2) \/ exists peer, K peer).
  { destruct Hm as [w|g|t|ev|change r s'' _ Ho|c Hc]; try (left; by split_and!).
    - left. destruct (actor_same_controller ev s1) as [-> _]. by split_and!.
    - left. destruct Ho as (_ & [-> _] & _). by split_and!.
    - destruct Hc as [c' Hi _|c' Hi _|peer w HK _ _ _ _|w _]; [left|left|right; eauto|left; by split_and!];
        destruct Hi as (?&?&?&?&?&?); by split_and!. }
  destruct Hs as [Hs|]; [left|by right].
  unfold same_control in *. destruct Hs as (?&?&?&?&?), IH as (?&?&?&?&?). split_and!; congruence.
Qed.

(** A takeover, exactly. *)
Lemma take_over_exact peer s :
  ctl (take_over peer s : _ * _).2 = ctl s \/
  (process_is_current (controller (ctl s)) (get_world s)).1 = false /\
  ctl (take_over peer s : _ * _).2 = with_controller peer (epoch (ctl s) + 1) (ctl s) /\
  epoch (ctl s) + 1 < 2 ^ 64.
Proof.
  change (wp (take_over peer : TunioM _) (fun _ s' => ctl s' = ctl s \/
    (process_is_current (controller (ctl s)) (get_world s)).1 = false /\
    ctl s' = with_controller peer (epoch (ctl s) + 1) (ctl s) /\ epoch (ctl s) + 1 < 2 ^ 64) s).
  unfold take_over. apply wp_mbind, wp_get. apply wp_mbind, wp_host. intros alive w E.
  destruct alive; [by left|].
  destruct (Z.leb_spec (2 ^ 64) (epoch (ctl s) + 1)); [by left|].
  apply wp_mbind, wp_put. apply wp_mbind, wp_attempt, wp_reads; [auto with reading|].
  intros r w1 _. simpl. destruct (is_ok r).
  - apply wp_mret. right. by rewrite E.
  - apply wp_mbind, wp_put, wp_mret. left. simpl. by destruct (ctl s).
Qed.

(** What a takeover needs and does. *)
Definition taken_over peer request s s' : Prop :=
  takeover_request (ctl s) request /\ registered (ctl s) = true /\ peer <> controller (ctl s) /\
  (process_is_current (controller (ctl s)) (get_world s)).1 = false /\
  ctl s' = with_controller peer (epoch (ctl s) + 1) (ctl s) /\ epoch (ctl s) + 1 < 2 ^ 64.

Lemma control_exact peer request s :
  let s' := (control_request peer request s).2 in
  same_control (ctl s) (ctl s') \/ taken_over peer request s s'.
Proof.
  intros s'. subst s'.
  change (wp (control_request peer request : TunioM _) (fun _ s' =>
    same_control (ctl s) (ctl s') \/ taken_over peer request s s') s).
  assert (Hsame : same_control (ctl s) (ctl s)) by (by split_and!).
  unfold control_request. apply wp_mbind, wp_get.
  destruct (negb _) eqn:Ecap; [by left|]. apply negb_false_iff in Ecap. absent_facts.
  destruct (cr_operation request) eqn:Eop.
  - apply wp_mbind. unfold probe_registration. apply wp_mbind, wp_get.
    case_bool_decide; [|by left]. apply wp_mbind, wp_host. intros [] w _; by left.
  - destruct (registered (ctl s)) eqn:Er; [|by left]. simpl. case_bool_decide as Ep; [by left|].
    apply wp_mbind. apply wp_intro. intros r s' E.
    pose proof (take_over_exact peer s) as Ht. rewrite E in Ht.
    destruct r as [[]|]; destruct Ht as [Hc|(Ht1 & Ht2 & Ht3)];
      unfold wp, mret; simpl in *; try (left; by rewrite Hc).
    all: right; unfold taken_over, takeover_request; split_and!; try done.
    all: by apply Z.eqb_eq.
  - case_bool_decide; by left.
Qed.

(** C24. Succession: the process, its capability and its generation never change, and its
    controller and the controller epoch change in one way only: by a takeover request that
    proves the capability, after the registration is complete, when the previous controller
    was found to be no longer running in that very step; the epoch then grows by one. So no
    epoch ever has two controllers, and no living controller is displaced. *)
Theorem controller_succession s s' :
  tunio_reachable s -> tunio_step s s' ->
  same_control (ctl s) (ctl s') \/
  exists peer request, s' = (control_request peer request s).2 /\ taken_over peer request s s'.
Proof.
  intros Hr Hs. destruct (reachable_sound s Hr) as [H0 Hok].
  destruct (kept_control (fun peer => exists request, s' = (control_request peer request s).2) s s')
    as [H|(peer & request & E)]; [|by left|].
  - apply step_micros; eauto.
  - destruct (control_exact peer request s) as [H|H]; rewrite <- E in H; [by left|right; eauto].
Qed.

(** *** The fence before every request *)

(** The request comes from the current controller, in its epoch, with the capability. *)
Definition proves_control c (peer named : ProcessIdentity) (target : ProcessIdentity) (named_epoch : Z)
    (proof : list Z) : Prop :=
  target = process c /\ named = peer /\ peer = controller c /\ named_epoch = epoch c /\
  proof = sha256_hex (token c).

Lemma authority_fence_wp request peer s :
  wp (authority_fence request peer)
    (fun r s' => (exists w, s' = set_world w s) /\
       (r = Ok tt -> proves_control (ctl s) peer (ar_controller request) (ar_process request)
          (ar_controller_epoch request) (ar_token_sha256 request) /\ registered (ctl s) = true)) s.
Proof.
  assert (Hid : exists w, s = set_world w s) by (exists (get_world s); by rewrite set_world_id).
  unfold authority_fence. apply wp_mbind, wp_get. apply wp_mbind. request_step; [|by split].
  apply wp_mbind, wp_host. intros current w _. apply wp_mbind. request_step; [|split; [eauto|done]].
  request_step; (split; [eauto|]); [|done]. intros _. absent_facts.
  split; [|done]. split_and!; try done.
  match goal with H : (ar_controller_epoch request =? _) = true |- _ => by apply Z.eqb_eq in H end.
Qed.

Lemma packet_fence_control request peer o s :
  wp (packet_fence request peer o)
    (fun r s' => (exists w, s' = set_world w s) /\
       (r = Ok tt -> proves_control (ctl s) peer (pc_controller request) (pc_process request)
          (pc_controller_epoch request) (pc_token_sha256 request) /\
          (pc_operation request = PcProbe \/ registered (ctl s) = true))) s.
Proof.
  assert (Hid : exists w, s = set_world w s) by (exists (get_world s); by rewrite set_world_id).
  unfold packet_fence. apply wp_mbind, wp_get. apply wp_mbind. request_step; [|by split].
  apply wp_mbind, wp_host. intros current w _. apply wp_mbind. request_step; [|split; [eauto|done]].
  apply wp_mbind. request_step; [|split; [eauto|done]].
  apply wp_mbind. request_step; [|split; [eauto|done]].
  request_step; (split; [eauto|]); [|done]. intros _. clear H3.
  match goal with H : (registered _ || _) = true |- _ => rename H into Hreg end. absent_facts. split.
  - split_and!; try done.
    match goal with H : (pc_controller_epoch request =? _) = true |- _ => by apply Z.eqb_eq in H end.
  - apply orb_true_iff in Hreg as [|Hp]; [by right|left]. by destruct (pc_operation request).
Qed.

(** The fence: an authority request is refused, and touches nothing of the process, unless
    it comes from the very process that is the current controller, names this process, its
    own identity and the current controller epoch, proves the capability, and the
    registration is complete; a packet request likewise, but that a probe is answered before
    the registration. So a controller that was succeeded can do nothing any more. *)
Theorem controller_fence s peer fds :
  (forall request,
     ~ (proves_control (ctl s) peer (ar_controller request) (ar_process request)
          (ar_controller_epoch request) (ar_token_sha256 request) /\ registered (ctl s) = true) ->
     exists w, (serve_authority request peer fds s).2 = set_world w s /\
       rs_accepted (serve_authority request peer fds s).1 = false) /\
  (forall request,
     ~ (proves_control (ctl s) peer (pc_controller request) (pc_process request)
          (pc_controller_epoch request) (pc_token_sha256 request) /\
        (pc_operation request = PcProbe \/ registered (ctl s) = true)) ->
     exists w code, packet_request request peer fds s = (Err code, set_world w s)).
Proof.
  split; intros request Hno.
  - pose proof (authority_fence_wp request peer s) as Hf. unfold wp in Hf.
    destruct (authority_fence request peer s) as [[[]|code] s'] eqn:E; simpl in Hf.
    + destruct Hf as [_ Hf]. by destruct Hno, Hf.
    + destruct Hf as [[w ->] _]. exists w.
      assert (Er : authority_request request peer fds s = (Err code, set_world w s))
        by (unfold authority_request, mbind at 1; by rewrite E).
      unfold serve_authority. by rewrite Er.
  - pose proof (packet_fence_control request peer (original s) s) as Hf. unfold wp in Hf.
    destruct (packet_fence request peer (original s) s) as [[[]|code] s'] eqn:E; simpl in Hf.
    + destruct Hf as [_ Hf]. by destruct Hno, Hf.
    + destruct Hf as [[w ->] _]. exists w, code. unfold packet_request, mbind at 1, gets. simpl.
      unfold mbind at 1. by rewrite E.
Qed.

(** ** The records of the controller *)

(** What a receipt does to them. *)
Lemma candidate_spec rc a :
  let a' := reconcile_candidate rc a in
  highest_revision a' = highest_revision a /\ highest_policy a' = highest_policy a /\
  highest_epoch a' = highest_epoch a /\ precommit_cancelled a' = precommit_cancelled a /\
  (forall e, staged a' = Some e -> staged a = Some e) /\
  (forall e, active a' = Some e -> active a = Some e \/
     exists r, known_record a r /\ oa_envelope r = e) /\
  (forall r, known_record a' r -> exists r', known_record a r' /\
     oa_envelope r' = oa_envelope r /\ oa_transaction r' = oa_transaction r).
Proof.
  unfold reconcile_candidate, known_record.
  destruct (owner_candidate a) as [record|] eqn:Ec; [|by split_and!; eauto; naive_solver]. simpl.
  destruct (same_transaction _ _).
  { split_and!; simpl; eauto. intros r [[= <-]|Ht]; [|eauto]. exists record. by split; [left|]. }
  destruct (pr_last_transaction rc) as [l|]; [|by split_and!; simpl; eauto; naive_solver].
  destruct (bool_decide (r_transaction l = _)); [|by split_and!; simpl; eauto; naive_solver].
  destruct (bool_decide (staged _ = _)), (bool_decide (r_phase l = Committed)); simpl;
    (split_and!; simpl; eauto; try done; try naive_solver).
  all: intros e; case_bool_decide; [intros [= <-]; right; exists record; by split; [left|]|done].
Qed.

Lemma terminal_spec rc a :
  let a' := reconcile_terminal rc a in
  highest_revision a' = highest_revision a /\ highest_policy a' = highest_policy a /\
  highest_epoch a' = highest_epoch a /\ precommit_cancelled a' = precommit_cancelled a /\
  staged a' = staged a /\ (forall e, active a' = Some e -> active a = Some e) /\
  (forall r, known_record a' r -> known_record a r).
Proof.
  unfold reconcile_terminal, known_record.
  destruct (owner_terminal a) as [[record phase]|] eqn:Et; [|by rewrite Et; split_and!; eauto]. simpl.
  destruct (_ && _), (negb _); simpl; rewrite ?Et; split_and!; try done; naive_solver.
Qed.

Lemma adopted_spec rc a :
  let a' := adopt_staged rc a in
  highest_revision a' = highest_revision a /\ highest_policy a' = highest_policy a /\
  highest_epoch a' = highest_epoch a /\ precommit_cancelled a' = precommit_cancelled a /\
  (forall e, staged a' = Some e -> staged a = Some e) /\
  (forall e, active a' = Some e -> active a = Some e \/ staged a = Some e).
Proof.
  unfold adopt_staged. destruct (staged a) as [e|] eqn:Es; [destruct (_ && _)|]; simpl;
    rewrite ?Es; split_and!; naive_solver.
Qed.

(** A receipt raises the marks, and makes nothing new: what is staged, recorded or active
    afterwards was staged, recorded or active before. *)
Lemma reconciled_spec rc a :
  let a' := reconcile_authority rc a in
  highest_revision a' = highest_revision a /\ highest_policy a <= highest_policy a' /\
  highest_epoch a <= highest_epoch a' /\ precommit_cancelled a' = precommit_cancelled a /\
  (forall e, staged a' = Some e -> staged a = Some e) /\
  (forall e, active a' = Some e -> active a = Some e \/ staged a = Some e \/
     exists r, known_record a r /\ oa_envelope r = e) /\
  (forall r, known_record a' r -> exists r', known_record a r' /\
     oa_envelope r' = oa_envelope r /\ oa_transaction r' = oa_transaction r).
Proof.
  intros a'. subst a'. destruct (reconciled_records rc a) as [E1 E2]. revert E1 E2.
  unfold reconcile_authority, raise_marks, reconcile_owner.
  set (a1 := reconcile_candidate rc (with_receipt rc a)). set (a2 := reconcile_terminal rc a1).
  set (a3 := with_owner_receipts _ _ a2). simpl. intros E1 E2.
  destruct (candidate_spec rc (with_receipt rc a)) as (C1 & C2 & C3 & C4 & C5 & C6 & C7).
  destruct (terminal_spec rc a1) as (T1 & T2 & T3 & T4 & T5 & T6 & T7).
  destruct (adopted_spec rc a3) as (A1 & A2 & A3 & A4 & A5 & A6). fold a1 in C1, C2, C3, C4, C5, C6, C7.
  fold a2 in T1, T2, T3, T4, T5, T6, T7. simpl in *.
  split_and!; try (rewrite ?A1, ?A2, ?A3, ?A4; simpl; congruence || lia).
  - intros e He. apply A5 in He. simpl in He. rewrite T5 in He. by apply C5.
  - intros e He. apply A6 in He. simpl in He. destruct He as [He|He].
    + apply T6, C6 in He. tauto.
    + rewrite T5 in He. apply C5 in He. tauto.
  - intros r Hr. unfold known_record in *. simpl in Hr. rewrite E1, E2 in Hr.
    by apply C7, T7.
Qed.

(** *** The marks *)

Record marks_grow a a' : Prop := {
  mg_revision : highest_revision a <= highest_revision a';
  mg_policy : highest_policy a <= highest_policy a';
  mg_epoch : highest_epoch a <= highest_epoch a';
  mg_staged e : staged a' = Some e -> staged a = Some e \/
    highest_revision a < ae_revision e <= highest_revision a' /\
    highest_policy a <= policy_generation (ae_binding e) /\
    highest_epoch a < owner_epoch (ae_binding e) /\ sound_envelope e;
}.

Lemma marks_refl a : marks_grow a a.
Proof. constructor; [lia..|by left]. Qed.

Lemma marks_trans a1 a2 a3 : marks_grow a1 a2 -> marks_grow a2 a3 -> marks_grow a1 a3.
Proof.
  intros [A1 A2 A3 A4] [B1 B2 B3 B4]. constructor; [lia..|]. intros e He.
  destruct (B4 e He) as [Hs|(H1 & H2 & H3 & H4)].
  - destruct (A4 e Hs) as [|(H1 & H2 & H3 & H4)]; [by left|right]. split_and!; try done; lia.
  - right. split_and!; try done; lia.
Qed.

Lemma authority_marks s a a' : authority_step s a a' -> marks_grow a a'.
Proof.
  intros [d|rc|e Hs Hr Hp He Hso|e r Hs Hrec| |e Hm Hr Hc Ha Ht|e _ _ _ _|e|].
  - constructor; simpl; [lia..|by left].
  - destruct (reconciled_spec rc a) as (H1 & H2 & H3 & H4 & H5 & _).
    constructor; [lia|done|done|]. intros e He. left. by apply H5.
  - constructor; simpl; [lia..|]. intros e' [= <-]. right. by split_and!; [lia|lia|done..].
  - constructor; simpl; [lia..|by left].
  - constructor; simpl; [lia..|done].
  - constructor; simpl; [lia..|done].
  - constructor; simpl; [lia..|by left].
  - constructor; simpl; [lia..|by left].
  - constructor; simpl; [lia..|by left].
Qed.

Lemma micro_authority (K : ProcessIdentity -> Prop) s s' :
  micro (K:=K) s s' -> authority (ctl s') = authority (ctl s) \/
    authority_step s (authority (ctl s)) (authority (ctl s')).
Proof.
  intros [w|g|t|ev|change r s'' _ Ho|c Hc]; try by left.
  - left. by destruct (actor_same_controller ev s) as [-> _].
  - left. by destruct Ho as (_ & [-> _] & _).
  - destruct Hc as [c' _ Ha|c' _ Ha|peer w _ _ _ _ _|w _]; [by right|by left..].
Qed.

(** The marks: over any run the highest revision, policy generation and owner epoch that
    the controller has admitted only grow, and an envelope that is newly staged exceeds the
    marks of every earlier moment in revision and epoch, falls behind none in policy, and
    carries caps within what was signed and verified; so an authority that was superseded,
    discarded or withdrawn cannot be staged again. *)
Theorem authority_marks_grow s s' :
  tunio_reachable s -> rtc tunio_step s s' ->
  marks_grow (authority (ctl s)) (authority (ctl s')).
Proof.
  intros Hr Hs. destruct (reachable_sound s Hr) as [H0 Hok].
  apply run_micros in Hs; [|done..]. clear Hr H0 Hok.
  induction Hs as [|s1 s2 s3 Hm _ IH]; [apply marks_refl|]. eapply marks_trans; [|done].
  destruct (micro_authority _ _ _ Hm) as [->|Ha]; [apply marks_refl|by eapply authority_marks].
Qed.
End Facts.
