(* ===== verification/TunioRecovery.v ===== *)
(** * The TUN process: recoveries are final

    What an accepted [RecoverPrecommit] and an accepted [IsolateCommittedOwner] mean for the
    rest of the life of the process. *)
From stdpp Require Import base tactics list numbers option gmap strings.
From Stdlib Require Import ZArith Lia.
From S2P Require Import Prelude PacketPort PortManager PortManagerFacts PortManagerInv PortManagerSpec ProcessControl Tunio TunioOps TunioRuns TunioQueue TunioExec TunioMicro TunioRequests TunioFacts.

#[local] Open Scope Z_scope.

(** ** Which transactions a manager can come to know *)

Section Known.
Context {W A : Type} `{!PacketHost W A}.
Implicit Types (b : Bridge W A).

(** A run of the hand-over machine makes no transaction known but by a preparation, which
    raises the revision to that of the transaction. *)
Lemma run_seen h h' :
  rtc handover_step h h' ->
  hand_revision h <= hand_revision h' /\
  forall tx phase, seen h' tx phase ->
    (exists phase', seen h tx phase') \/ hand_revision h < revision tx <= hand_revision h'.
Proof.
  induction 1 as [h|h1 h2 h3 Hs _ [IHr IH]]; [split; [lia|eauto]|].
  assert (Hstep : hand_revision h1 <= hand_revision h2 /\
    forall tx phase, seen h2 tx phase ->
      (exists phase', seen h1 tx phase') \/ hand_revision h1 < revision tx <= hand_revision h2).
  { clear IH IHr. unfold seen. destruct Hs as [tx|tx Hc|tx phase Hc| | | |]; simpl;
      (split; [lia|]); intros t ph Hseen.
    - destruct Hseen as [[[= ->] ->]|Hl]; [right; lia|left; eauto].
    - destruct Hseen as [[? _]|[= <- <-]]; [done|left; exists Prepared; by left].
    - destruct Hseen as [[? _]|[= <- <-]]; [done|left; exists Prepared; by left].
    - left; eauto.
    - left; eauto.
    - left; eauto.
    - destruct Hseen as [[? _]|Hl]; [done|left; eauto]. }
  destruct Hstep as [Hr Hseen]. split; [lia|]. intros tx phase Ht.
  destruct (IH _ _ Ht) as [[ph Hph]|?]; [|right; lia].
  destruct (Hseen _ _ Hph) as [?|?]; [by left|right; lia].
Qed.

Ltac same_revision := repeat (simpl; first [done | case_match]); by simplify_eq.

Lemma update_revision change b :
  (forall tx p a, change <> PrepareOwner tx p a) ->
  highest_transaction_revision (bridge_update change b).2 = highest_transaction_revision b.
Proof.
  intros Hc. unfold bridge_update. destruct (apply_change change b) as [r b'] eqn:E. simpl.
  destruct (wp_run _ _ _ _ _ (change_changed b change) E) as (e & _ & _ & Hr).
  destruct r; [|by subst].
  destruct Hr; try (by destruct (Hc _ _ _ eq_refl));
    unfold install, drop_candidate, force_retained; same_revision.
Qed.

(** Without a preparation nothing becomes known. *)
Lemma step_seen b b' tx phase :
  bridge_ok b -> manager_step b b' ->
  highest_transaction_revision b' = highest_transaction_revision b ->
  seen (handover b') tx phase -> exists phase', seen (handover b) tx phase'.
Proof.
  intros Hb Hs Hr Ht. apply step_refined in Hs; [|done].
  destruct (run_seen _ _ Hs) as [_ H]. destruct (H _ _ Ht) as [?|H1]; [done|].
  simpl in H1. lia.
Qed.

(** A change makes known at most the transaction that it prepares. *)
Lemma update_seen change b tx phase :
  bridge_ok b -> stopped b = None -> seen (handover (bridge_update change b).2) tx phase ->
  (exists phase', seen (handover b) tx phase') \/ exists p a, change = PrepareOwner tx p a.
Proof.
  intros Hb Hs Ht.
  assert (Hstep : manager_step b (bridge_update change b).2) by (by constructor).
  destruct change as [tx' p a| | | | | | | | | | ];
    try (left; eapply step_seen; [done|done|by apply update_revision|done]).
  unfold bridge_update in Ht. destruct (apply_change _ b) as [r b'] eqn:E. simpl in *.
  destruct (wp_run _ _ _ _ _ (change_changed b (PrepareOwner tx' p a)) E) as (e & _ & _ & Hc).
  destruct r; [|subst; left; by exists phase]. inversion Hc; subst; [left; by exists phase| |].
  - unfold seen in *. simpl in *.
    destruct Ht as [[[= ->] ->]|Hl]; [right; eauto|left; exists phase; by right].
  - naive_solver.
Qed.
End Known.

Section Recovery.
Context {W : Type} `{!TunioHost W}.
Implicit Types (s : Tunio W) (c : Controller) (a : AuthorityState).
#[local] Abbreviation TunioM := (@Tunio.TunioM W).
#[local] Abbreviation micro := (@TunioMicro.micro W _ (fun _ => True)).
#[local] Abbreviation micros := (@micro_run W _ (fun _ => True)).

(** ** A revision that was given up *)

(** The manager knows no transaction of revision [n]. *)
Definition unknown_revision (n : Z) (b : Bridge W Authorization) : Prop :=
  forall tx phase, seen (handover b) tx phase -> revision tx <> n.

Lemma managed_unknown (L : PacketPortOwnerChange Authorization -> Prop) n b b' :
  (forall tx p k, L (PrepareOwner tx p k) -> revision tx <> n) ->
  managed L b b' -> bridge_ok b -> unknown_revision n b -> unknown_revision n b'.
Proof.
  intros HL H. induction H as [|b1 b2 b3 Hs _ IH]; intros Hok Hu; [done|].
  assert (Hm : manager_step b1 b2)
    by (destruct Hs as [Hs|(change & _ & Hst & ->)]; [by apply quiet_manager|by constructor]).
  apply IH; [by eapply manager_step_ok|]. intros tx phase Ht.
  destruct Hs as [Hs|(change & HC & Hst & ->)].
  - assert (Hr : highest_transaction_revision b2 = highest_transaction_revision b1).
    { apply rtc_once in Hs. apply weaker_quiet in Hs. apply Hs. }
    destruct (step_seen b1 b2 tx phase Hok Hm Hr Ht) as [ph Hph]. by apply (Hu tx ph).
  - destruct (update_seen change b1 tx phase Hok Hst Ht) as [[ph Hph]|(p & k & ->)];
      [by apply (Hu tx ph)|by eapply HL].
Qed.

(** Every record is that of the envelope it holds. *)
Definition records_ok a : Prop := forall r, known_record a r -> record_of (oa_envelope r) r.

Record given_up (e : AuthorityEnvelope) s : Prop := {
  gu_mark : ae_revision e <= highest_revision (authority (ctl s));
  gu_staged e' : staged (authority (ctl s)) = Some e' -> ae_revision e < ae_revision e';
  gu_active : active (authority (ctl s)) <> Some e;
  gu_records r : known_record (authority (ctl s)) r -> revision (oa_transaction r) <> ae_revision e;
  gu_manager : unknown_revision (ae_revision e) (bridge s);
}.

Lemma step_records s a a' : authority_step s a a' -> records_ok a -> records_ok a'.
Proof.
  unfold records_ok. intros [d|rc Hsaid|e Hs Hr Hp He Hso|e r Hs Hrec Hfresh| |e Hm Hr Hc Ha Ht|e _ _ _ _|e|] H; try done.
  - intros r Hr. destruct (reconciled_spec rc a) as (_ & _ & _ & _ & _ & _ & Hk).
    destruct (Hk r Hr) as (r' & Hr' & E1 & E2). unfold record_of. rewrite <- E1, <- E2. by apply H.
  - intros r' [Hr'|Ht]; simpl in *; [|apply H; by right]. injection Hr' as <-.
    by rewrite (proj1 Hrec).
Qed.

(** An authority step on the controller's side keeps what was given up. *)
Lemma step_given_up s a' e :
  records_ok (authority (ctl s)) -> given_up e s -> authority_step s (authority (ctl s)) a' ->
  given_up e (set_ctl (on_authority (fun _ => a') (ctl s)) s).
Proof.
  intros Hrec [G1 G2 G3 G4 G5] Hs.
  destruct Hs as [d|rc Hsaid|e' Hs Hr Hp He Hso|e' r Hs Hre Hfresh| |e' Hm Hr Hc Ha Ht|e' _ _ _ _|e'|];
    [|destruct (reconciled_spec rc (authority (ctl s))) as (R1 & _ & _ & _ & R5 & R6 & R7);
      revert R1 R5 R6 R7; generalize (reconcile_authority rc (authority (ctl s)));
      intros a' R1 R5 R6 R7|..];
    constructor; simpl; try done; try lia.
  - intros e' H. by apply G2, R5.
  - intros H. destruct (R6 e H) as [H'|[H'|(r & H' & <-)]]; [done| |].
    + apply G2 in H'. lia.
    + destruct (Hrec r H') as (_ & E & _). by apply (G4 r H').
  - intros r H. destruct (R7 r H) as (r' & H' & _ & <-). by apply G4.
  - intros ? [= <-]. lia.
  - intros r' [[= <-]|H]; [|apply G4; by right]. destruct Hre as (_ & -> & _). apply G2 in Hs. lia.
Qed.

Lemma justified_unknown s e change :
  given_up e s -> justified (original s) (authority (ctl s)) change ->
  forall tx p k, change = PrepareOwner tx p k -> revision tx <> ae_revision e.
Proof. intros G Hj tx p k ->. destruct Hj as (r & Hr & -> & _). by apply (gu_records e s G). Qed.

(** The small steps keep the records consistent, and what was given up. *)
Lemma micro_records s s' :
  records_ok (authority (ctl s)) -> micro s s' -> records_ok (authority (ctl s')).
Proof.
  intros Hrec Hm. destruct (micro_authority _ _ _ Hm) as [->|Ha]; [done|by eapply step_records].
Qed.

Lemma micro_given_up s s' e :
  steady s -> bridge_ok (bridge s) -> records_ok (authority (ctl s)) -> micro s s' ->
  given_up e s -> given_up e s'.
Proof.
  intros Hst Hok Hrec Hm G. destruct Hm as [w|g|t|ev|change r s' Hj Ho|c Hc].
  - by destruct G.
  - by destruct G.
  - by destruct G.
  - destruct (steady_actor ev s Hst) as [_ Hq], (actor_same_controller ev s) as [E _].
    destruct G as [G1 G2 G3 G4 G5]. constructor; rewrite ?E; try done.
    eapply (managed_unknown (fun _ => False)); [done|by apply quiet_managed|done|done].
  - pose proof (justified_unknown s e change G Hj) as Hn. destruct G as [G1 G2 G3 G4 G5].
    pose proof (proj1 (proj1 (proj2 Ho))) as E. constructor; rewrite ?E; try done.
    eapply (managed_unknown (eq change)); [|by eapply outcome_managed|done|done].
    intros tx p k H. by eapply Hn.
  - destruct (micro_authority _ s _ (micro_controller s c Hc)) as [E|Ha].
    + destruct G. by constructor; rewrite ?E.
    + destruct (step_given_up s _ e Hrec G Ha). by constructor.
Qed.

(** What the controller displays as cancelled was given up. *)
Definition cancelled_ok s : Prop :=
  steady s /\ bridge_ok (bridge s) /\ records_ok (authority (ctl s)) /\
  forall e, precommit_cancelled (authority (ctl s)) = Some e -> given_up e s.

Lemma fresh_given_up s e :
  bridge_ok (bridge s) ->
  highest_transaction_revision (bridge s) < ae_revision e ->
  highest_revision (authority (ctl s)) <= ae_revision e ->
  owner_candidate (authority (ctl s)) = None -> active (authority (ctl s)) <> Some e ->
  (forall r phase, owner_terminal (authority (ctl s)) = Some (r, phase) ->
     revision (oa_transaction r) < ae_revision e) ->
  given_up e (set_ctl (on_authority (fun a => raise_to e (with_cancelled e (with_staged None a))) (ctl s)) s).
Proof.
  intros Hok Hm Hr Hc Ha Ht. constructor; simpl; try done; try lia.
  - intros r [H|[phase H]]; [simpl in H; congruence|]. apply Ht in H. lia.
  - intros tx phase H. destruct (settled_now _ _ _ Hok H) as [Hle _]. simpl in Hle. lia.
Qed.

Lemma micro_cancelled s s' : cancelled_ok s -> micro s s' -> cancelled_ok s'.
Proof.
  intros (Hst & Hok & Hrec & Hg) Hm. split_and!.
  - by eapply micro_steady.
  - eapply micros_bridge; [done|done|by apply rtc_once].
  - by eapply (micro_records s s').
  - intros e He.
    destruct (decide (precommit_cancelled (authority (ctl s)) = Some e)) as [Hs|Hs].
    { eapply (micro_given_up s s'); [done..|]. by apply Hg. }
    destruct Hm as [w|g|t|ev|change r s' _ Ho|c Hc]; try done.
    + by destruct (actor_same_controller ev s) as [E _]; rewrite E in He.
    + by rewrite (proj1 (proj1 (proj2 Ho))) in He.
    + destruct Hc as [c' _ Ha|c' _ E|peer w _ _ _ _ _|w _]; simpl in He; [|by rewrite E in He|done..].
      remember (authority c') as a' eqn:E. destruct Ha; simpl in He; try done.
      * destruct (reconciled_spec receipt (authority (ctl s))) as (_ & _ & _ & E' & _).
        simpl in E'. by rewrite E' in He.
      * injection He as ->. destruct (fresh_given_up s e) as [G1 G2 G3 G4 G5]; [done..|].
        constructor; simpl; rewrite <- ?E; done.
Qed.

Lemma reachable_cancelled s : tunio_reachable s -> cancelled_ok s.
Proof.
  intros (s0 & H0 & H). pose proof (started_facts s0 H0) as Hs.
  pose proof (manager_reachable_ok _ (started_reachable s0 H0)) as Hok.
  pose proof (so_steady _ Hs) as Hst. destruct (so_controller _ Hs) as (_ & _ & Ha & _).
  apply run_micros in H; [|done..].
  assert (H1 : cancelled_ok s0).
  { split_and!; try done; rewrite Ha; [|done]. by intros r [|[]]. }
  clear -H H1. induction H as [|s1 s2 s3 Hm _ IH]; [done|]. by eapply IH, micro_cancelled.
Qed.

Lemma run_given_up s s' e :
  cancelled_ok s -> given_up e s -> rtc tunio_step s s' -> given_up e s'.
Proof.
  intros Hc G H. pose proof Hc as (Hst & Hok & _). apply run_micros in H; [|done..].
  clear Hst Hok. induction H as [|s1 s2 s3 Hm _ IH]; [done|].
  apply IH; [by eapply micro_cancelled|]. destruct Hc as (Hst & Hok & Hrec & _).
  by eapply (micro_given_up s1 s2).
Qed.

(** C22. A recovery is final: once a reply displays an authority as cancelled before its commit,
    then for the rest of the life of the process no receipt of the manager names a transaction
    of its revision, and it is neither staged nor active nor on the records of the controller;
    so the predecessor may go on under its own authority without a later surprise. *)
Theorem precommit_recovery_final s request peer fds e s' :
  let '(reply, s1) := serve_authority request peer fds s in
  tunio_reachable s -> rs_precommit_cancelled reply = Some e -> rtc tunio_step s1 s' ->
  staged (authority (ctl s')) <> Some e /\ active (authority (ctl s')) <> Some e /\
  (forall r, known_record (authority (ctl s')) r -> oa_envelope r <> e) /\
  forall tx phase, seen (handover (bridge s')) tx phase -> revision tx <> ae_revision e.
Proof.
  destruct (serve_authority request peer fds s) as [reply s1] eqn:E. intros Hr He Hrun.
  assert (Hr1 : tunio_reachable s1).
  { destruct Hr as (s0 & H0 & Hrun0). exists s0. split; [done|]. eapply rtc_r; [done|].
    replace s1 with (serve_authority request peer fds s).2 by (by rewrite E). constructor. }
  apply reachable_cancelled in Hr1.
  assert (Hc : precommit_cancelled (authority (ctl s1)) = Some e).
  { unfold serve_authority in E. destruct (authority_request request peer fds s) as [r s2].
    injection E as <- <-. simpl in He. destruct (ar_schema_version request =? 3); [|done].
    simpl in He. destruct (precommit_cancelled _) as [e'|]; [|done]. simpl in He.
    by case_bool_decide. }
  assert (Hc' : cancelled_ok s').
  { pose proof Hr1 as (Hst & Hok & _). apply run_micros in Hrun; [|done..]. clear -Hrun Hr1.
    induction Hrun as [|s1 s2 s3 Hm _ IH]; [done|]. by eapply IH, micro_cancelled. }
  destruct (run_given_up s1 s' e Hr1) as [G1 G2 G3 G4 G5]; [by apply Hr1|done|].
  split_and!; [|done| |done].
  - intros H. apply G2 in H. lia.
  - intros r H <-. destruct Hc' as (_ & _ & Hrec & _). destruct (Hrec r H) as (_ & E' & _).
    by apply (G4 r H).
Qed.

(** ** An isolated owner *)

(** The manager is empty, and its highest epoch is at least that of the isolated owner. *)
Definition isolated_now (request : AuthorityControlRequest) s : Prop :=
  exists e, ar_envelope request = Some e /\ isolated_committed (authority (ctl s)) = Some e /\
    owner (bridge s) = None /\ retained (bridge s) = None /\ pending (bridge s) = None /\
    owner_epoch (ae_binding e) <= highest_owner_epoch (bridge s).

Lemma isolated_reached request s rc s1 w epoch r s2 e :
  bridge_ok (bridge s) -> bridge_ok (bridge s1) -> probed s (Ok rc) s1 -> pr_pending rc = None ->
  pr_owner_epoch rc = owner_epoch (ae_binding e) -> ar_envelope request = Some e ->
  applied_change (Revoke epoch) (set_world w s1) (Ok r) s2 ->
  actual_owner_binding (authority (ctl s2)) = None ->
  retained_owner_binding (authority (ctl s2)) = None ->
  isolated_now request (set_ctl (on_authority (with_isolated e) (ctl s2)) s2).
Proof.
  intros Hok Hok1 Hp Hn He Hreq Ha Ho Hr. destruct r.
  destruct (probed_receipt s rc s1) as (b1 & -> & _ & (_ & _ & Wp & _ & We) & _); [done|done|].
  pose proof (revoked_weaker _ _ _ _ Ha) as (_ & _ & _ & _ & We').
  destruct (revoked_empty (set_world w s1) _ _ (ok_env _ (mkEnv w _) Hok1 eq_refl) (Wp (pending_receipt b1 Hn)) Ha Ho Hr)
    as (? & ? & ?).
  exists e. split_and!; try done. simpl in *. lia.
Qed.

Lemma isolate_wp request expected s0 s :
  steady s0 -> bridge_ok (bridge s0) -> micros s0 s ->
  wp (op_isolate_committed request expected : TunioM bool)
    (fun r s' => match r with Ok _ => isolated_now request s' | Err _ => True end) s.
Proof.
  intros H0 Hok Hm. unfold op_isolate_committed. request_paths; try done.
  - absent_facts. eapply (isolated_reached _ s a s' w); try done.
    + by eapply (micros_bridge s0).
    + by eapply (micros_bridge s0).
    + by apply Z.eqb_eq, negb_false_iff.
  - absent_facts. eapply (isolated_reached _ s a s' (get_world s')); rewrite ?set_world_id; try done.
    + by eapply (micros_bridge s0).
    + by eapply (micros_bridge s0).
    + by apply Z.eqb_eq, negb_false_iff.
Qed.

Lemma isolation_wp request expected peer fds s :
  steady s -> bridge_ok (bridge s) -> ar_operation request = OpIsolateCommittedOwner expected ->
  wp (authority_request request peer fds : TunioM unit)
    (fun r s' => match r with Ok _ => isolated_now request s' | Err _ => True end) s.
Proof.
  intros H0 Hok Hop. assert (Hm : micros s s) by done. unfold authority_request.
  apply wp_mbind, wp_reads; [apply reads_authority_fence|]. intros [[]|x] w _; [|done].
  do 2 request_step; [|done]. request_step. request_step; [|done..]. request_step; [|done].
  request_step. unfold run_operation. rewrite Hop. eapply wp_mono; [by apply (isolate_wp _ _ s)|].
  intros [v|x] s1 Hi; [|done]. request_paths; done.
Qed.

(** *** Nothing of its epoch ever again *)

(** Whoever holds, drains or waits is of a higher epoch than [n]. *)
Definition superseded (n : Z) (h : Handover) : Prop :=
  n <= hand_epoch h /\
  (forall b, hand_holder h = Some b -> n < owner_epoch b) /\
  (forall b, hand_draining h = Some b -> n < owner_epoch b) /\
  (forall tx, hand_candidate h = Some tx -> n < owner_epoch (tx_binding tx)).

Lemma superseded_step n h h' : superseded n h -> handover_step h h' -> superseded n h'.
Proof.
  intros (H1 & H2 & H3 & H4) Hs. destruct Hs; split_and!; simpl; try done; try lia; try naive_solver lia.
Qed.

Lemma superseded_run n h h' : superseded n h -> rtc handover_step h h' -> superseded n h'.
Proof. intros H Hr. induction Hr as [|h1 h2 h3 Hs _ IH]; [done|]. by eapply IH, superseded_step. Qed.

(** A step of a manager whose owners are all of higher epochs sends for such an epoch only. *)
Definition sends_above (n : Z) (b b' : Bridge W Authorization) : Prop :=
  exists l, wire (env b') = wire (env b) ++ l /\ Forall (fun x => n < sent_epoch x) l.

Lemma step_sends_above n b b' :
  bridge_ok b -> superseded n (handover b) -> manager_step b b' -> sends_above n b b'.
Proof.
  intros Hb (_ & H2 & H3 & H4) Hs.
  destruct (step_sends b b' Hb Hs) as [Hw|(x & d & o & packet & t & _ & Hx & Hw & _ & _ & Hmay)].
  { exists []. by rewrite Hw, app_nil_r. }
  exists [sent_by d o packet t]. split; [done|]. constructor; [|done]. simpl in *.
  destruct x as [| | |i]; simpl in *; [| | |done].
  - apply H2. by rewrite Hx.
  - apply H3. by rewrite Hx.
  - destruct (pending b) as [c|] eqn:Ec; [|done]. injection Hx as <-.
    destruct (bo_pending b Hb c Ec) as [(Hc & _) _].
    unfold sent_epoch. simpl. rewrite Hc. by apply H4.
Qed.

Lemma run_sends_above n b b' :
  bridge_ok b -> superseded n (handover b) -> rtc manager_step b b' -> sends_above n b b'.
Proof.
  intros Hb Hn H. induction H as [b|b1 b2 b3 Hs _ IH]; [exists []; by rewrite app_nil_r|].
  destruct (step_sends_above n b1 b2) as (l1 & E1 & F1); [done..|].
  destruct IH as (l2 & E2 & F2); [by eapply manager_step_ok|by eapply superseded_run, step_refined|].
  exists (l1 ++ l2). by rewrite E2, E1, app_assoc, Forall_app.
Qed.

(** C26. An isolation is effective and for good: when [IsolateCommittedOwner] is accepted, the
    manager has no owner, no predecessor that drains and no candidate left, the reply names
    exactly the authority of the request, and over the rest of the life of the process every
    packet that crosses does so for a higher owner epoch than the isolated one. *)
Theorem isolation_effective s request peer fds expected s' :
  let '(reply, s1) := serve_authority request peer fds s in
  tunio_reachable s -> ar_operation request = OpIsolateCommittedOwner expected ->
  rs_accepted reply = true -> rtc tunio_step s1 s' ->
  owner (bridge s1) = None /\ retained (bridge s1) = None /\ pending (bridge s1) = None /\
  exists e, ar_envelope request = Some e /\ isolated_committed (authority (ctl s1)) = Some e /\
    sends_above (owner_epoch (ae_binding e)) (bridge s1) (bridge s').
Proof.
  destruct (serve_authority request peer fds s) as [reply s1] eqn:E. intros Hr Hop Hacc Hrun.
  destruct (reachable_sound s Hr) as [Hst Hok].
  assert (Hm : micros s s1).
  { replace s1 with (serve_authority request peer fds s).2 by (by rewrite E). by apply serve_micros. }
  pose proof (micros_steady _ _ Hst Hm) as Hst1. pose proof (micros_bridge _ _ Hst Hok Hm) as Hok1.
  unfold serve_authority in E. destruct (authority_request request peer fds s) as [r s2] eqn:Er.
  injection E as <- <-. simpl in Hacc. destruct r as [[]|]; [|done].
  destruct (wp_run _ _ _ _ _ (isolation_wp request expected peer fds s Hst Hok Hop) Er)
    as (e & He & Hi & Ho & Hret & Hp & Hepoch).
  split_and!; [done..|]. exists e. split_and!; [done..|].
  apply run_sends_above; [done| |].
  - unfold superseded, handover. simpl. rewrite Ho, Hret, Hp. by split_and!.
  - apply (micros_managers (K:=fun _ => True)); [done|]. by apply run_micros.
Qed.
End Recovery.
