(* ===== verification/TunioVouched.v ===== *)
(** * The TUN process: its replies are the manager's word

    What a reply says of an owner transaction the manager has said itself, at a moment of the
    life of the process. *)
From stdpp Require Import base tactics list numbers option gmap strings.
From Stdlib Require Import ZArith Lia.
From S2P Require Import Prelude PacketPort PortManager PortManagerFacts PortManagerInv PortManagerSpec ProcessControl Tunio TunioOps TunioRuns TunioQueue TunioExec TunioMicro TunioRequests TunioFacts TunioRecovery.

#[local] Open Scope Z_scope.

Section Vouched.
Context {W : Type} `{!TunioHost W}.
Implicit Types (s : Tunio W) (c : Controller) (a : AuthorityState).
#[local] Abbreviation TunioM := (@Tunio.TunioM W).
#[local] Abbreviation micro := (@TunioMicro.micro W _ (fun _ => True)).
#[local] Abbreviation micros := (@micro_run W _ (fun _ => True)).

(** The manager was once as [P] says. *)
Definition once (P : Bridge W Authorization -> Prop) (b' : Bridge W Authorization) : Prop :=
  exists b, bridge_ok b /\ rtc manager_step b b' /\ P b.

Lemma once_later P b b' : once P b -> rtc manager_step b b' -> once P b'.
Proof. intros (b0 & Hok & H & HP) H'. exists b0. split_and!; [done|by trans b|done]. Qed.

Lemma said_once b' rc (P : PacketPortReceipt -> Prop) : said b' rc -> P rc -> once (fun b => P (receipt b)) b'.
Proof. intros (b & Hok & H & ->) HP. by exists b. Qed.

(** The records and the owner of the controller come from receipts. *)
Record vouched_by a (b' : Bridge W Authorization) : Prop := {
  vb_terminal r phase : owner_terminal a = Some (r, phase) ->
    once (fun b => last_transaction b = Some (mkReceipt (oa_transaction r) phase)) b';
  vb_candidate r : owner_candidate a = Some r -> oa_prepared r = true ->
    once (fun b => p_transaction <$> pending b = Some (oa_transaction r)) b';
  vb_owner binding : actual_owner_binding a = Some binding ->
    once (fun b => binding_of <$> owner b = Some binding) b';
}.

Definition vouched s : Prop := vouched_by (authority (ctl s)) (bridge s).

Lemma vouched_later a b b' : vouched_by a b -> rtc manager_step b b' -> vouched_by a b'.
Proof. intros [H1 H2 H3] H. constructor; intros; eapply once_later; eauto. Qed.

(** What a receipt makes of the records. *)
Lemma reconciled_terminal rc a r phase :
  owner_terminal (reconcile_authority rc a) = Some (r, phase) ->
  owner_terminal a = Some (r, phase) \/ pr_last_transaction rc = Some (mkReceipt (oa_transaction r) phase).
Proof.
  destruct (reconciled_records rc a) as [_ ->]. intros H.
  assert (H1 : owner_terminal (reconcile_candidate rc (with_receipt rc a)) = Some (r, phase)).
  { unfold reconcile_terminal in H. destruct (owner_terminal (reconcile_candidate _ _)) as [[r' ph]|] eqn:E;
      [|congruence]. revert H. destruct (_ && _), (negb _); simpl; rewrite ?E; congruence. }
  unfold reconcile_candidate in H1. destruct (owner_candidate _) as [record|]; [|by left]. simpl in H1.
  destruct (same_transaction _ _); [by left|].
  destruct (pr_last_transaction rc) as [[tx ph]|] eqn:El; [|by left]. simpl in H1.
  case_bool_decide as Htx; [|by left]. subst tx.
  right. by destruct (bool_decide (staged _ = _)), (bool_decide (ph = Committed)); simplify_eq/=.
Qed.

Lemma reconciled_prepared rc a r :
  owner_candidate (reconcile_authority rc a) = Some r ->
  exists t, pr_pending rc = Some t /\ r_transaction t = oa_transaction r.
Proof.
  destruct (reconciled_records rc a) as [-> _]. rewrite terminal_candidate.
  unfold reconcile_candidate. destruct (owner_candidate (with_receipt rc a)) as [record|] eqn:E; [|congruence].
  simpl. destruct (same_transaction (pr_pending rc) _) eqn:Es.
  - intros [= <-]. simpl. unfold same_transaction in Es. destruct (pr_pending rc) as [t|]; [|done].
    apply bool_decide_eq_true in Es. eauto.
  - destruct (pr_last_transaction rc) as [l|]; [|done]. destruct (bool_decide (r_transaction l = _)); [|done].
    by destruct (bool_decide (staged _ = _)), (bool_decide (r_phase l = Committed)).
Qed.

Lemma step_vouched s a a' : authority_step s a a' -> vouched_by a (bridge s) -> vouched_by a' (bridge s).
Proof.
  intros Hs Hv. destruct Hs as [d|rc Hsaid|e _ _ _ _ _|e r _ _ Hfresh| |e _ _ _ _ _|e _ _ _ _|e|]; try exact Hv;
    try (destruct Hv; by constructor).
  - destruct Hv as [V1 V2 V3]. constructor.
    + intros r phase [H|H]%reconciled_terminal; [by apply V1|].
      by apply (said_once _ rc (fun rc => pr_last_transaction rc = Some (mkReceipt (oa_transaction r) phase))).
    + intros r (t & Ht & E)%reconciled_prepared _.
      destruct Hsaid as (b & Hok & H & ->). exists b. split_and!; [done|done|]. simpl in Ht.
      destruct (pending b) as [p|]; [|done]. simpl in *. injection Ht as <-. simpl in E. by rewrite E.
    + intros binding. destruct (reconciled_owner rc a) as [-> _]. intros H.
      by apply (said_once _ rc (fun rc => pr_binding rc = Some binding)).
  - destruct Hv as [V1 V2 V3]. constructor; try done. intros r' [= <-]. congruence.
Qed.

Lemma micro_vouched s s' : steady s -> micro s s' -> vouched s -> vouched s'.
Proof.
  intros Hst Hm Hv.
  assert (Hb : rtc manager_step (bridge s) (bridge s')) by (by apply (micros_managers (K:=fun _ => True)), rtc_once).
  unfold vouched. destruct (micro_authority _ _ _ Hm) as [->|Ha]; [by eapply vouched_later|].
  eapply vouched_later; [by eapply step_vouched|done].
Qed.

Lemma reachable_vouched s : tunio_reachable s -> vouched s.
Proof.
  intros (s0 & H0 & H). pose proof (started_facts s0 H0) as Hs.
  pose proof (manager_reachable_ok _ (started_reachable s0 H0)) as Hok.
  pose proof (so_steady _ Hs) as Hst. destruct (so_controller _ Hs) as (_ & _ & Ha & _).
  apply run_micros in H; [|done..].
  assert (Hv : vouched s0) by (unfold vouched; rewrite Ha; by constructor).
  clear -H Hv Hst. induction H as [|s1 s2 s3 Hm _ IH]; [done|].
  apply IH; [by eapply micro_steady|by eapply micro_vouched].
Qed.

(** ** What a reply says of an owner transaction *)

Lemma owner_receipt_known a id t :
  owner_receipt a id = Some t ->
  exists r phase, t = owner_authority_receipt r phase /\ ae_transaction_id (oa_envelope r) = id /\
    known_record a r /\
    (owner_candidate a = Some r /\ oa_prepared r = true /\ phase = Prepared \/
     owner_terminal a = Some (r, phase)).
Proof.
  unfold owner_receipt, known_record. intros H.
  assert (Hterm : forall r phase, owner_terminal a = Some (r, phase) ->
    bool_decide (ae_transaction_id (oa_envelope r) = id) = true ->
    t = owner_authority_receipt r phase ->
    exists r phase, t = owner_authority_receipt r phase /\ ae_transaction_id (oa_envelope r) = id /\
      (owner_candidate a = Some r \/ exists phase, owner_terminal a = Some (r, phase)) /\
      (owner_candidate a = Some r /\ oa_prepared r = true /\ phase = Prepared \/
       owner_terminal a = Some (r, phase))).
  { intros r phase Et Hid%bool_decide_eq_true ->. exists r, phase. split_and!; eauto. }
  destruct (owner_candidate a) as [r|] eqn:Ec.
  - destruct (oa_prepared r && _) eqn:E.
    + apply andb_true_iff in E as [Hp Hid%bool_decide_eq_true]. injection H as <-.
      exists r, Prepared. split_and!; eauto.
    + destruct (owner_terminal a) as [[r' phase]|]; [|done]. case_match eqn:Hid; [|done].
      injection H as <-. by eapply Hterm.
  - destruct (owner_terminal a) as [[r' phase]|]; [|done]. case_match eqn:Hid; [|done].
    injection H as <-. by eapply Hterm.
Qed.

(** The receipt is about [tx], at [phase]. *)
Definition reports (t : AuthorityOwnerReceipt) (tx : OwnerTransaction) (phase : OwnerTransactionPhase)
  : Prop :=
  or_phase t = phase_text phase /\ or_revision t = revision tx /\ or_binding t = tx_binding tx /\
  or_expected_active_epoch t = expected_active_epoch tx.

Lemma displayed_said s id t :
  tunio_reachable s -> owner_receipt (authority (ctl s)) id = Some t ->
  exists r phase, known_record (authority (ctl s)) r /\
    or_transaction_id t = id /\ reports t (oa_transaction r) phase /\
    once (fun b => seen (handover b) (oa_transaction r) phase) (bridge s).
Proof.
  intros Hr Ht. destruct (reachable_vouched s Hr) as [V1 V2 _].
  destruct (owner_receipt_known _ _ _ Ht) as (r & phase & -> & Hid & Hk & Hphase).
  exists r, phase. split_and!; try done.
  destruct Hphase as [(Hc & Hp & ->)|Hterm].
  - destruct (V2 r Hc Hp) as (b & Hok & Hb & Hpend). exists b. split_and!; [done|done|]. by left.
  - destruct (V1 r phase Hterm) as (b & Hok & Hb & Hl). exists b. split_and!; [done|done|]. by right.
Qed.

(** What the manager once said it never unsays. *)
Lemma once_settled b' tx phase :
  once (fun b => seen (handover b) tx phase) b' -> settled_as tx phase (handover b').
Proof.
  intros (b & Hok & H & Hs). apply (settled_now b tx phase) in Hs; [|done].
  induction H as [|b1 b2 b3 Hstep _ IH]; [done|]. apply IH; [by eapply manager_step_ok|].
  pose proof (step_refined _ _ Hok Hstep) as Hrun. unfold refined in Hrun. clear -Hrun Hs.
  induction Hrun as [|h1 h2 h3 Hh _ IH]; [done|]. by eapply IH, settled_step.
Qed.

Lemma serve_reached s request peer fds :
  tunio_reachable s -> tunio_reachable (serve_authority request peer fds s).2.
Proof. intros (s0 & H0 & H). exists s0. split; [done|]. eapply rtc_r; [done|constructor]. Qed.

Lemma served_run s request peer fds : rtc tunio_step s (serve_authority request peer fds s).2.
Proof. apply rtc_once. constructor. Qed.

Lemma reached_run s s' : tunio_reachable s -> rtc tunio_step s s' -> tunio_reachable s'.
Proof. intros (s0 & H0 & H) H'. exists s0. split; [done|by trans s]. Qed.

Lemma served_displays s request peer fds t :
  rs_owner_transaction (serve_authority request peer fds s).1 = Some t ->
  owner_receipt (authority (ctl (serve_authority request peer fds s).2)) (ar_transaction_id request) = Some t.
Proof.
  unfold serve_authority. destruct (authority_request request peer fds s) as [r s2]. simpl.
  by destruct (_ =? 3).
Qed.

Lemma served_cancelled s request peer fds e :
  rs_precommit_cancelled (serve_authority request peer fds s).1 = Some e ->
  precommit_cancelled (authority (ctl (serve_authority request peer fds s).2)) = Some e.
Proof.
  unfold serve_authority. destruct (authority_request request peer fds s) as [r s2]. simpl.
  destruct (_ =? 3); [|done]. simpl. destruct (precommit_cancelled _) as [e'|]; [|done]. simpl.
  by case_bool_decide.
Qed.

(** C6. The replies are truthful: what a reply of the TUN process says of an owner transaction,
    its phase, revision, binding and expected predecessor, is what the packet port manager
    said of it at some moment before, and over the rest of the life of the process the manager
    never says of that revision anything else but a later phase of the same transaction. *)
Theorem replies_truthful s request peer fds t :
  let '(reply, s1) := serve_authority request peer fds s in
  tunio_reachable s -> rs_owner_transaction reply = Some t ->
  exists tx phase, or_transaction_id t = ar_transaction_id request /\ reports t tx phase /\
    once (fun b => seen (handover b) tx phase) (bridge s1) /\
    forall s' tx' phase', rtc tunio_step s1 s' ->
      seen (handover (bridge s')) tx' phase' -> revision tx' = revision tx ->
      tx' = tx /\ (phase <> Prepared -> phase' = phase).
Proof.
  pose proof (serve_reached s request peer fds) as Hr1.
  pose proof (served_displays s request peer fds t) as Hd.
  destruct (serve_authority request peer fds s) as [reply s1]. simpl in *. intros Hr Ht.
  destruct (displayed_said s1 _ t (Hr1 Hr) (Hd Ht)) as (r & phase & _ & Hid & Hrep & Honce).
  exists (oa_transaction r), phase. split_and!; [done..|]. intros s' tx' phase' Hrun Hs Hrev.
  destruct (reachable_sound s1 (Hr1 Hr)) as [Hst Hok].
  apply run_micros, (micros_managers (K:=fun _ => True)) in Hrun; [|done..].
  by apply (once_settled (bridge s') (oa_transaction r) phase); [eapply once_later|..].
Qed.

End Vouched.
