(* ===== verification/TunioAgreement.v ===== *)
(** * The TUN process: its replies agree

    Two replies that speak of one revision, at any two moments of the life of the process and
    whatever happens in between, do not contradict one another: a cancellation excludes every
    word about a transaction, and a final phase excludes every other phase. *)
From stdpp Require Import base tactics list numbers option gmap strings.
From Stdlib Require Import ZArith Lia.
From S2P Require Import Prelude PacketPort PortManager PortManagerFacts PortManagerInv PortManagerSpec ProcessControl Tunio TunioOps TunioRuns TunioQueue TunioExec TunioMicro TunioRequests TunioFacts TunioRecovery TunioVouched.

#[local] Open Scope Z_scope.

Section Agreement.
Context {W : Type} `{!TunioHost W}.
Implicit Types (s : Tunio W) (c : Controller) (a : AuthorityState).
#[local] Abbreviation TunioM := (@Tunio.TunioM W).
#[local] Abbreviation micro := (@TunioMicro.micro W _ (fun _ => True)).
#[local] Abbreviation micros := (@micro_run W _ (fun _ => True)).

(** ** Conclusions that exclude one another *)

Lemma step_revision (b b' : Bridge W Authorization) :
  bridge_ok b -> manager_step b b' -> highest_transaction_revision b <= highest_transaction_revision b'.
Proof. intros Hok Hs. apply step_refined in Hs; [|done]. by apply run_seen in Hs as [H _]. Qed.

(** A revision that the manager knows, and that is not displayed as cancelled. *)
Definition taken_up (n : Z) s : Prop :=
  n <= highest_transaction_revision (bridge s) /\
  forall e, precommit_cancelled (authority (ctl s)) = Some e -> ae_revision e <> n.

Lemma micro_taken_up n s s' :
  steady s -> bridge_ok (bridge s) -> micro s s' -> taken_up n s -> taken_up n s'.
Proof.
  intros Hst Hok Hm [H1 H2].
  assert (Hle : highest_transaction_revision (bridge s) <= highest_transaction_revision (bridge s')).
  { assert (Hb : rtc manager_step (bridge s) (bridge s')) by (by apply (micros_managers (K:=fun _ => True)), rtc_once).
    clear -Hok Hb. induction Hb as [|b1 b2 b3 Hs _ IH]; [lia|].
    etrans; [by apply step_revision|]. by apply IH; eapply manager_step_ok. }
  split; [lia|]. intros e He. destruct (micro_authority _ _ _ Hm) as [E|Ha]; [rewrite E in He; by apply H2|].
  remember (authority (ctl s')) as a' eqn:Ea. destruct Ha; simpl in He; try by apply H2.
  - destruct (reconciled_spec receipt (authority (ctl s))) as (_ & _ & _ & E & _).
    simpl in E. rewrite E in He. by apply H2.
  - injection He as <-. lia.
Qed.

Lemma run_taken_up n s s' :
  tunio_reachable s -> rtc tunio_step s s' -> taken_up n s -> taken_up n s'.
Proof.
  intros Hr Hrun. destruct (reachable_sound s Hr) as [Hst Hok]. apply run_micros in Hrun; [|done..].
  clear Hr. induction Hrun as [|s1 s2 s3 Hm _ IH]; [done|]. intros Ht.
  assert (H2 : micros s1 s2) by (by apply rtc_once).
  apply IH; [by eapply micro_steady|by eapply (micros_bridge (K:=fun _ => True) s1)|by eapply micro_taken_up].
Qed.

(** A displayed transaction is taken up, and stays so; a displayed cancellation is given up. *)
Lemma displayed_taken_up s id t :
  tunio_reachable s -> owner_receipt (authority (ctl s)) id = Some t -> taken_up (or_revision t) s.
Proof.
  intros Hr Ht. destruct (displayed_said s id t Hr Ht) as (r & phase & Hk & _ & Hrep & Honce).
  destruct Hrep as (_ & -> & _). destruct (reachable_sound s Hr) as [Hst Hok]. split.
  - by destruct (once_settled _ _ _ Honce) as [H _].
  - intros e He E. destruct (reachable_cancelled s Hr) as (_ & _ & _ & Hg).
    by apply (gu_records e s (Hg e He) r Hk).
Qed.

(** No reply displays as cancelled a revision of which another reply displays a transaction,
    whichever comes first. *)
Lemma displays_exclusive s request peer fds s' request' peer' fds' t e :
  let '(reply, s1) := serve_authority request peer fds s in
  let '(reply', s2) := serve_authority request' peer' fds' s' in
  tunio_reachable s -> rtc tunio_step s1 s' ->
  rs_owner_transaction reply = Some t /\ rs_precommit_cancelled reply' = Some e \/
  rs_precommit_cancelled reply = Some e /\ rs_owner_transaction reply' = Some t ->
  or_revision t <> ae_revision e.
Proof.
  pose proof (serve_reached s request peer fds) as Hr1. pose proof (served_run s' request' peer' fds') as Hrun2.
  pose proof (served_displays s request peer fds t) as Hd1.
  pose proof (served_displays s' request' peer' fds' t) as Hd2.
  pose proof (served_cancelled s request peer fds e) as Hc1.
  pose proof (served_cancelled s' request' peer' fds' e) as Hc2.
  destruct (serve_authority request peer fds s) as [reply s1], (serve_authority request' peer' fds' s') as [reply' s2].
  simpl in *. intros Hr Hrun Hconcl E. specialize (Hr1 Hr).
  assert (Hrun' : rtc tunio_step s1 s2) by (by trans s').
  destruct Hconcl as [[Ht He]|[He Ht]].
  - apply Hd1, displayed_taken_up in Ht; [|done]. apply (run_taken_up _ s1 s2) in Ht as [_ Hn]; [|done..].
    apply (Hn e); [by apply Hc2|done].
  - apply Hc1 in He. pose proof (reachable_cancelled s1 Hr1) as Hok.
    pose proof (run_given_up s1 s2 e Hok (proj2 (proj2 (proj2 Hok)) e He) Hrun') as Hg.
    destruct (displayed_said s2 _ t (reached_run s1 s2 Hr1 Hrun') (Hd2 Ht)) as (r & phase & Hk & _ & Hrep & _).
    apply (gu_records e s2 Hg r Hk). destruct Hrep as (_ & <- & _). done.
Qed.

(** ** A final phase stays *)

(** The revisions of the staged envelope, the candidate and the terminal record, in order. *)
Record ordered a : Prop := {
  od_staged e : staged a = Some e -> ae_revision e <= highest_revision a;
  od_known r : known_record a r -> revision (oa_transaction r) <= highest_revision a;
  od_later r e : known_record a r -> staged a = Some e ->
    oa_envelope r = e /\ owner_candidate a = Some r \/ revision (oa_transaction r) < ae_revision e;
  od_candidate r phase r' : owner_terminal a = Some (r, phase) -> owner_candidate a = Some r' ->
    revision (oa_transaction r) < revision (oa_transaction r');
}.

(** What a receipt does to the three of them. *)
Variant reconciled_to a a' : Prop :=
| to_same : owner_candidate a' = None -> (owner_terminal a' = owner_terminal a \/ owner_terminal a' = None) ->
    reconciled_to a a'
| to_prepared r r' : owner_candidate a = Some r -> owner_candidate a' = Some r' ->
    oa_envelope r' = oa_envelope r -> oa_transaction r' = oa_transaction r ->
    (owner_terminal a' = owner_terminal a \/ owner_terminal a' = None) -> reconciled_to a a'
| to_terminal r phase : owner_candidate a = Some r -> owner_candidate a' = None ->
    (owner_terminal a' = Some (r, phase) \/ owner_terminal a' = None) ->
    staged a' <> Some (oa_envelope r) -> reconciled_to a a'.

Lemma candidate_to rc a : reconciled_to a (reconcile_candidate rc a).
Proof.
  unfold reconcile_candidate. destruct (owner_candidate a) as [record|] eqn:Ec; [|apply to_same; [done|by left]].
  simpl. destruct (same_transaction _ _).
  { eapply to_prepared; simpl; [done|done|done|done|by left]. }
  destruct (pr_last_transaction rc) as [[tx ph]|]; [|apply to_same; [done|by left]]. simpl.
  case_bool_decide as Htx; [|apply to_same; [done|by left]].
  destruct (bool_decide (staged a = _)) eqn:Es.
  - eapply (to_terminal _ _ record ph); simpl;
      destruct (bool_decide (ph = Committed)); simpl; try done; by left.
  - apply bool_decide_eq_false in Es. eapply (to_terminal _ _ record ph); simpl;
      destruct (bool_decide (ph = Committed)); simpl; try done; by left.
Qed.

Lemma same_or_none {T} (x y z : option T) :
  x = y \/ x = None -> y = z \/ y = None -> x = z \/ x = None.
Proof. intros [->| ->]; auto. Qed.

Lemma received_to rc a : reconciled_to a (reconcile_candidate rc (with_receipt rc a)).
Proof.
  destruct (candidate_to rc (with_receipt rc a)); [by apply to_same|by eapply to_prepared|by eapply to_terminal].
Qed.

Lemma terminal_to rc a :
  staged (reconcile_terminal rc a) = staged a /\
  (owner_terminal (reconcile_terminal rc a) = owner_terminal a \/ owner_terminal (reconcile_terminal rc a) = None).
Proof.
  unfold reconcile_terminal. destruct (owner_terminal a) as [[record ph]|] eqn:E; [|by split; [|left]].
  destruct (_ && _), (negb _); simpl; rewrite ?E; auto.
Qed.

Lemma reconciled_staged rc a :
  staged (reconcile_authority rc a) = staged (reconcile_candidate rc (with_receipt rc a)) \/
  staged (reconcile_authority rc a) = None.
Proof.
  unfold reconcile_authority, raise_marks, reconcile_owner. simpl. unfold adopt_staged.
  destruct (terminal_to rc (reconcile_candidate rc (with_receipt rc a))) as [E _].
  set (b := reconcile_terminal _ _) in *. simpl. destruct (staged b) as [e|] eqn:Es; simpl.
  - destruct (_ && _); simpl; [by right|left; congruence].
  - by right.
Qed.

Lemma reconciled_shape rc a : reconciled_to a (reconcile_authority rc a).
Proof.
  destruct (reconciled_records rc a) as [Ec Et]. rewrite terminal_candidate in Ec.
  destruct (terminal_to rc (reconcile_candidate rc (with_receipt rc a))) as [_ Hkeep].
  rewrite <- Et in Hkeep. pose proof (reconciled_staged rc a) as Hst.
  destruct (received_to rc a) as [Hc Ht|r r' Hc Hc' E1 E2 Ht|r ph Hc Hc' Ht Hs].
  - apply to_same; [congruence|by eapply same_or_none].
  - eapply (to_prepared _ _ r r'); [done|congruence|done|done|by eapply same_or_none].
  - eapply (to_terminal _ _ r ph); [done|congruence| |].
    + by eapply same_or_none.
    + destruct Hst as [->| ->]; [done|done].
Qed.

Lemma reconciled_ordered rc a : records_ok a -> ordered a -> ordered (reconcile_authority rc a).
Proof.
  intros Hrec [O1 O2 O3 O4]. pose proof (reconciled_shape rc a) as Hto.
  destruct (reconciled_spec rc a) as (R1 & _ & _ & _ & R5 & _ & R7).
  revert Hto R1 R5 R7. generalize (reconcile_authority rc a). intros a' Hto R1 R5 R7. constructor.
  - intros e He. rewrite R1. by apply O1, R5.
  - intros r Hr. rewrite R1. destruct (R7 r Hr) as (r' & Hr' & _ & <-). by apply O2.
  - intros r e Hr He. pose proof (R5 e He) as He0.
    destruct Hto as [Hc Ht|r0 r0' Hc Hc' E1 E2 Ht|r0 ph Hc Hc' Ht Hs].
    + destruct Hr as [Hr|[ph Hr]]; [congruence|]. destruct Ht as [Ht|Ht]; rewrite Ht in Hr; [|done].
      destruct (O3 r e ltac:(by right; exists ph) He0) as [[_ Hcand]|?]; [|by right].
      specialize (O4 _ _ _ Hr Hcand). lia.
    + destruct Hr as [Hr|[ph Hr]].
      * assert (r = r0') as -> by congruence. rewrite E1, E2.
        destruct (O3 r0 e ltac:(by left) He0) as [[? _]|?]; [by left|by right].
      * destruct Ht as [Ht|Ht]; rewrite Ht in Hr; [|done]. right.
        destruct (O3 r e ltac:(by right; exists ph) He0) as [[_ Hcand]|?]; [|done].
        specialize (O4 _ _ _ Hr Hcand). lia.
    + destruct Hr as [Hr|[ph' Hr]]; [congruence|]. destruct Ht as [Ht|Ht]; rewrite Ht in Hr; [|done].
      injection Hr as <- <-. right. destruct (O3 r0 e ltac:(by left) He0) as [[E _]|?]; [congruence|done].
  - intros r ph r' Ht Hc. destruct Hto as [Hc' Ht'|r0 r0' Hc0 Hc' E1 E2 Ht'|r0 ph0 Hc0 Hc' Ht' Hs]; [congruence| |congruence].
    assert (r' = r0') as -> by congruence. rewrite E2. destruct Ht' as [Ht'|Ht']; rewrite Ht' in Ht; [|done].
    by eapply O4.
Qed.

Lemma step_ordered s a a' : authority_step s a a' -> records_ok a -> ordered a -> ordered a'.
Proof.
  intros Hs Hrec Ho. destruct Hs as [d|rc Hsaid|e Hs Hr _ _ _|e r Hs Hre _| |e _ Hr Hc _ Ht|e _ _ _ _|e|].
  2:{ by apply reconciled_ordered. }
  all: destruct Ho as [O1 O2 O3 O4]; constructor; simpl; try done.
  - by intros ? [= <-].
  - intros r Hk. specialize (O2 r Hk). lia.
  - intros r e' Hk [= <-]. specialize (O2 r Hk). right. lia.
  - destruct Hre as (_ & E & _). intros r' [[= <-]|[ph Ht]]; [rewrite E; by apply O1|].
    apply O2. right. by exists ph.
  - destruct Hre as (Ee & E & _). intros r' e' [[= <-]|[ph Ht]] He'.
    + left. split; [congruence|done].
    + destruct (O3 r' e' ltac:(by right; exists ph) He') as [[_ Hcand]|?]; [|by right].
      specialize (O4 _ _ _ Ht Hcand). right.
      destruct (O3 _ _ (or_introl Hcand) He') as [[E' _]|?]; [|lia].
      destruct (Hrec _ (or_introl Hcand)) as (_ & E'' & _). rewrite E', <- E'' in *. lia.
  - destruct Hre as (_ & E & _). intros r' ph r0 Ht [= <-]. rewrite E.
    destruct (O3 r' e ltac:(by right; exists ph) Hs) as [[_ Hcand]|?]; [|done].
    specialize (O4 _ _ _ Ht Hcand). destruct (O3 _ _ (or_introl Hcand) Hs) as [[E' _]|?]; [|lia].
    destruct (Hrec _ (or_introl Hcand)) as (_ & E'' & _). rewrite E', <- E'' in *. lia.
  - intros r Hk. specialize (O2 r Hk). lia.
Qed.

Definition in_order s : Prop := records_ok (authority (ctl s)) /\ ordered (authority (ctl s)).

Lemma micro_in_order s s' : micro s s' -> in_order s -> in_order s'.
Proof.
  intros Hm [Hr Ho]. split; [by eapply (micro_records s s')|].
  destruct (micro_authority _ _ _ Hm) as [->|Ha]; [done|by eapply step_ordered].
Qed.

Lemma reachable_in_order s : tunio_reachable s -> in_order s.
Proof.
  intros (s0 & H0 & H). pose proof (started_facts s0 H0) as Hs.
  pose proof (manager_reachable_ok _ (started_reachable s0 H0)) as Hok.
  pose proof (so_steady _ Hs) as Hst. destruct (so_controller _ Hs) as (_ & _ & Ha & _).
  apply run_micros in H; [|done..].
  assert (H1 : in_order s0).
  { unfold in_order. rewrite Ha. split; [by intros r [|[]]|]. constructor; try done. by intros r [|[]]. }
  clear -H H1. induction H as [|s1 s2 s3 Hm _ IH]; [done|]. by eapply IH, micro_in_order.
Qed.

(** The revision [n] ended at [phase]: nothing of it is to come, and what is recorded of it is
    this end. *)
Record ended (n : Z) (phase : OwnerTransactionPhase) a : Prop := {
  en_high : n <= highest_revision a;
  en_staged e : staged a = Some e -> n < ae_revision e;
  en_candidate r : owner_candidate a = Some r -> n < revision (oa_transaction r);
  en_terminal r phase' : owner_terminal a = Some (r, phase') -> revision (oa_transaction r) = n ->
    phase' = phase;
}.

Lemma ended_now a r phase :
  ordered a -> owner_terminal a = Some (r, phase) -> ended (revision (oa_transaction r)) phase a.
Proof.
  intros [O1 O2 O3 O4] Ht. assert (Hk : known_record a r) by (right; by exists phase). constructor.
  - by apply O2.
  - intros e He. destruct (O3 r e Hk He) as [[_ Hc]|?]; [|done]. specialize (O4 _ _ _ Ht Hc). lia.
  - intros r' Hc. by eapply O4.
  - intros r' phase' Ht' _. congruence.
Qed.

Lemma step_ended s n phase a a' : authority_step s a a' -> ended n phase a -> ended n phase a'.
Proof.
  intros Hs [E1 E2 E3 E4]. destruct Hs as [d|rc Hsaid|e _ Hr _ _ _|e r Hs Hre _| |e _ Hr _ _ _|e _ _ _ _|e|];
    try (constructor; simpl; try done; lia).
  - pose proof (reconciled_shape rc a) as Hto. destruct (reconciled_spec rc a) as (R1 & _ & _ & _ & R5 & _ & _).
    revert Hto R1 R5. generalize (reconcile_authority rc a). intros a' Hto R1 R5.
    constructor; [lia|intros e He; by apply E2, R5| |].
    + intros r Hc. destruct Hto as [Hc' _|r0 r0' Hc0 Hc' _ E _|r0 ph Hc0 Hc' _ _]; [congruence| |congruence].
      assert (r = r0') as -> by congruence. rewrite E. by apply E3.
    + intros r ph Ht Hn. destruct Hto as [_ [Ht'|Ht']|r0 r0' _ _ _ _ [Ht'|Ht']|r0 ph0 Hc0 _ [Ht'|Ht'] _];
        rewrite Ht' in Ht; try done; try (by apply (E4 r)).
      injection Ht as <- <-. specialize (E3 _ Hc0). lia.
  - constructor; simpl; [lia| |done|done]. intros ? [= <-]. lia.
  - constructor; simpl; try done. intros r' [= <-]. destruct Hre as (_ & -> & _). by apply E2.
Qed.

Lemma run_ended n phase s s' :
  tunio_reachable s -> rtc tunio_step s s' -> ended n phase (authority (ctl s)) ->
  ended n phase (authority (ctl s')).
Proof.
  intros Hr Hrun. destruct (reachable_sound s Hr) as [Hst Hok]. apply run_micros in Hrun; [|done..].
  clear Hr Hst Hok. induction Hrun as [|s1 s2 s3 Hm _ IH]; [done|]. intros He. apply IH.
  destruct (micro_authority _ _ _ Hm) as [->|Ha]; [done|by eapply step_ended].
Qed.

(** A phase that is displayed after [phase] was, of the same revision. *)
Definition may_follow (phase phase' : OwnerTransactionPhase) : Prop := phase <> Prepared -> phase' = phase.

Lemma displays_settled s request peer fds s' request' peer' fds' t t' :
  let '(reply, s1) := serve_authority request peer fds s in
  let '(reply', s2) := serve_authority request' peer' fds' s' in
  tunio_reachable s -> rtc tunio_step s1 s' ->
  rs_owner_transaction reply = Some t -> rs_owner_transaction reply' = Some t' ->
  or_revision t = or_revision t' ->
  exists phase phase', or_phase t = phase_text phase /\ or_phase t' = phase_text phase' /\
    may_follow phase phase'.
Proof.
  pose proof (serve_reached s request peer fds) as Hr1. pose proof (served_run s' request' peer' fds') as Hrun2.
  pose proof (served_displays s request peer fds t) as Hd1.
  pose proof (served_displays s' request' peer' fds' t') as Hd2.
  destruct (serve_authority request peer fds s) as [reply s1], (serve_authority request' peer' fds' s') as [reply' s2].
  simpl in *. intros Hr Hrun Ht Ht' E. specialize (Hr1 Hr).
  assert (Hrun' : rtc tunio_step s1 s2) by (by trans s').
  destruct (owner_receipt_known _ _ _ (Hd1 Ht)) as (r & phase & -> & _ & _ & Hphase).
  destruct (owner_receipt_known _ _ _ (Hd2 Ht')) as (r' & phase' & -> & _ & _ & Hphase').
  exists phase, phase'. split_and!; [done..|]. intros Hfinal. simpl in E.
  destruct Hphase as [(_ & _ & ?)|Hterm]; [done|].
  destruct (reachable_in_order s1 Hr1) as [_ Ho].
  pose proof (run_ended _ _ s1 s2 Hr1 Hrun' (ended_now _ _ _ Ho Hterm)) as He.
  destruct Hphase' as [(Hc & _ & _)|Hterm'].
  - specialize (en_candidate _ _ _ He r' Hc). lia.
  - by apply (en_terminal _ _ _ He r').
Qed.

(** ** A displayed isolation *)

Lemma reconciled_isolated rc a : isolated_committed (reconcile_authority rc a) = isolated_committed a.
Proof.
  assert (Hc : isolated_committed (reconcile_candidate rc (with_receipt rc a)) = isolated_committed a).
  { unfold reconcile_candidate. destruct (owner_candidate _) as [r|]; [|done]. simpl.
    destruct (same_transaction _ _); [done|]. destruct (pr_last_transaction rc) as [l|]; [|done].
    destruct (bool_decide (r_transaction l = _)); [|done].
    by destruct (bool_decide (staged _ = _)), (bool_decide (r_phase l = Committed)). }
  assert (Ht : forall b, isolated_committed (reconcile_terminal rc b) = isolated_committed b).
  { intros b. unfold reconcile_terminal. destruct (owner_terminal b) as [[r ph]|]; [|done].
    by destruct (_ && _), (negb _). }
  unfold reconcile_authority, raise_marks, reconcile_owner. simpl. unfold adopt_staged. simpl.
  destruct (staged _); [destruct (_ && _)|]; simpl; by rewrite Ht.
Qed.

(** Whatever is isolated stays superseded. *)
Definition isolation_holds s : Prop := forall e,
  isolated_committed (authority (ctl s)) = Some e -> superseded (owner_epoch (ae_binding e)) (handover (bridge s)).

Lemma manager_superseded n (b b' : Bridge W Authorization) :
  bridge_ok b -> rtc manager_step b b' -> superseded n (handover b) -> superseded n (handover b').
Proof.
  intros Hok H. induction H as [|b1 b2 b3 Hs _ IH]; [done|]. intros Hn.
  apply IH; [by eapply manager_step_ok|]. by eapply superseded_run, step_refined.
Qed.

Lemma micro_isolated s s' :
  steady s -> bridge_ok (bridge s) -> micro s s' -> isolation_holds s -> isolation_holds s'.
Proof.
  intros Hst Hok Hm Hi e He.
  assert (Hb : rtc manager_step (bridge s) (bridge s')) by (by apply (micros_managers (K:=fun _ => True)), rtc_once).
  eapply manager_superseded; [done|done|].
  destruct (micro_authority _ _ _ Hm) as [E|Ha]; [rewrite E in He; by apply Hi|].
  remember (authority (ctl s')) as a' eqn:Ea. destruct Ha as [d|rc _|e' _ _ _ _ _|e' r _ _ _| |e' _ _ _ _ _|e' Ho Hr Hp Hle|e'|];
    try by apply Hi.
  - rewrite reconciled_isolated in He. by apply Hi.
  - simpl in He. injection He as <-. unfold superseded, handover. simpl. rewrite Ho, Hr, Hp. by split_and!.
Qed.

Lemma reachable_isolated s : tunio_reachable s -> isolation_holds s.
Proof.
  intros (s0 & H0 & H). pose proof (started_facts s0 H0) as Hs.
  pose proof (manager_reachable_ok _ (started_reachable s0 H0)) as Hok.
  pose proof (so_steady _ Hs) as Hst. destruct (so_controller _ Hs) as (_ & _ & Ha & _).
  apply run_micros in H; [|done..].
  assert (H1 : isolation_holds s0) by (intros e; by rewrite Ha).
  clear -H H1 Hst Hok. induction H as [|s1 s2 s3 Hm _ IH]; [done|].
  assert (H2 : micros s1 s2) by (by apply rtc_once).
  apply IH; [by eapply (micros_bridge (K:=fun _ => True) s1)|by eapply micro_steady|by eapply micro_isolated].
Qed.

Lemma served_isolated s request peer fds e :
  rs_isolated_committed (serve_authority request peer fds s).1 = Some e ->
  isolated_committed (authority (ctl (serve_authority request peer fds s).2)) = Some e.
Proof.
  unfold serve_authority. destruct (authority_request request peer fds s) as [r s2]. simpl.
  destruct (_ =? 3); [|done]. simpl. destruct (isolated_committed _) as [e'|]; [|done]. simpl.
  by case_bool_decide.
Qed.

(** From a reply that displays an isolation on, everybody is of a higher epoch. *)
Lemma displayed_isolation s request peer fds e s' :
  let '(reply, s1) := serve_authority request peer fds s in
  tunio_reachable s -> rs_isolated_committed reply = Some e -> rtc tunio_step s1 s' ->
  superseded (owner_epoch (ae_binding e)) (handover (bridge s')).
Proof.
  pose proof (serve_reached s request peer fds) as Hr1. pose proof (served_isolated s request peer fds e) as Hd.
  destruct (serve_authority request peer fds s) as [reply s1]. simpl in *. intros Hr He Hrun. specialize (Hr1 Hr).
  destruct (reachable_sound s1 Hr1) as [Hst Hok].
  eapply manager_superseded; [exact Hok| |by apply reachable_isolated, Hd].
  by apply (micros_managers (K:=fun _ => True)), run_micros.
Qed.
End Agreement.
