(* ===== verification/TunioWarrant.v ===== *)
(** * The TUN process: the authority behind every packet

    Every owner of the manager, and every packet that ever crossed, is covered by an authority
    that the process was given: a verified envelope, or the one it was started with. *)
From stdpp Require Import base tactics list numbers option gmap strings.
From Stdlib Require Import ZArith Lia.
From S2P Require Import Prelude PacketPort PortManager PortManagerFacts PortManagerInv PortManagerOwners PortManagerSpec ProcessControl Tunio TunioOps TunioRuns TunioQueue TunioExec TunioMicro TunioRequests TunioFacts.

#[local] Open Scope Z_scope.

(** ** Owners and what they may do *)

Section Covered.
Context {W A : Type} `{!PacketHost W A}.
Implicit Types (b : Bridge W A) (o : Owner A) (P : PacketPortBinding -> option A -> Prop).

(** What an owner keeps wherever it goes: its binding and its authorization. *)
Definition same_standing o o' : Prop :=
  binding_of o' = binding_of o /\ authorization o' = authorization o.

#[export] Instance same_standing_continues : Continues same_standing.
Proof.
  constructor; [|done..]. split; [done|]. intros o1 o2 o3 [H1 H2] [H3 H4]. split; congruence.
Qed.

Lemma turn_standing d o e o' e' : turn d o e o' e' -> same_standing o o'.
Proof. intros H. destruct (turn_same _ _ _ _ _ H) as (Hp & _ & _ & _ & Ha & _). split; [|done]. unfold binding_of. by rewrite Hp. Qed.

Lemma kept_event ev b : kept same_standing b (bridge_event ev b).
Proof.
  pose proof (event_moves b ev) as H. induction H as [b|b1 b2 b3 Hm _ IH]; [apply (owners_kept_refl same_standing)|].
  eapply (owners_kept_trans same_standing), IH. eapply (kept_moved same_standing), Hm. intros ? ? ? ? ?. apply turn_standing.
Qed.

(** What a change entitles a new owner to. *)
Definition grants (change : PacketPortOwnerChange A) : option (PacketPortBinding * option A) :=
  match change with
  | PrepareOwner _ p a => Some (port_binding p, Some a)
  | Attach p _ => Some (port_binding p, None)
  | AttachAuthorized p _ a => Some (port_binding p, Some a)
  | _ => None
  end.

Lemma brings_grants change o : brings change o -> grants change = Some (binding_of o, authorization o).
Proof. destruct change; simpl; try done; by intros ->. Qed.

Definition covered P b : Prop := forall x o, owner_at x b = Some o -> P (binding_of o) (authorization o).

Lemma covered_kept P b b' : kept same_standing b b' -> covered P b -> covered P b'.
Proof. intros Hk H x o' Hx. destruct (Hk x o' Hx) as (y & o & Hy & -> & ->). by apply (H y). Qed.

Lemma covered_env P b e : covered P b -> covered P (set_env e b).
Proof. intros H x o Hx. apply (H x). by destruct x. Qed.

Lemma covered_effect P b change b' :
  (forall binding a, grants change = Some (binding, a) -> P binding a) ->
  effect b change b' -> covered P b -> covered P b'.
Proof.
  intros Hg He H x o Hx.
  destruct (effect_kept same_standing b change b' He x o Hx) as [(y & o' & Hy & -> & ->)|Hn].
  - by apply (H y).
  - by apply Hg, brings_grants.
Qed.

(** The trace: under what each packet went, and in time. *)
Definition wire_covered P b : Prop :=
  Forall (fun s => P (sent_owner s) (sent_authorization s) /\ sent_at s < sent_deadline s)
    (wire (env b)).

Definition all_covered P b : Prop := covered P b /\ wire_covered P b.

Lemma covered_update P change b :
  (forall binding a, grants change = Some (binding, a) -> P binding a) ->
  all_covered P b -> all_covered P (bridge_update change b).2.
Proof.
  intros Hg [Hc Hw]. split; [|unfold wire_covered; by rewrite update_wire].
  unfold bridge_update. destruct (apply_change change b) as [r b'] eqn:E. simpl.
  destruct (wp_run _ _ _ _ _ (change_changed b change) E) as (e & _ & _ & Hr).
  assert (He : covered P (set_env e b)) by (by apply covered_env).
  destruct r; [by eapply covered_effect|by subst].
Qed.

Lemma covered_event P ev b :
  bridge_ok b -> all_covered P b -> all_covered P (bridge_event ev b).
Proof.
  intros Hok [Hc Hw]. split; [by eapply covered_kept, Hc; apply kept_event|]. unfold wire_covered.
  destruct (event_sends b ev Hok) as [->|(x & d & o & packet & t & _ & Hx & -> & _ & Hg & _)]; [done|].
  apply Forall_app. split; [done|]. constructor; [|done]. simpl. split; [by apply (Hc x)|].
  by apply (gate_deadline _ _ _ _ _ Hg).
Qed.
End Covered.

Section Warrant.
Context {W : Type} `{!TunioHost W}.
Implicit Types (s : Tunio W) (c : Controller).
#[local] Abbreviation micro := (@TunioMicro.micro W _ (fun _ => True)).

Lemma covered_managed P (L : PacketPortOwnerChange Authorization -> Prop) b b' :
  (forall change binding a, L change -> grants change = Some (binding, a) -> P binding a) ->
  managed L b b' -> bridge_ok b -> all_covered P b -> all_covered P b'.
Proof.
  intros HL H. induction H as [|b1 b2 b3 Hs _ IH]; intros Hok Hc; [done|].
  assert (Hm : manager_step b1 b2)
    by (destruct Hs as [Hs|(change & _ & Hst & ->)]; [by apply quiet_manager|by constructor]).
  apply IH; [by eapply manager_step_ok|].
  destruct Hs as [[ev|w|epoch Hst]|(change & HC & Hst & ->)].
  - by apply covered_event.
  - destruct Hc as [Hc Hw]. split; [by apply covered_env|done].
  - by apply covered_update.
  - apply covered_update; [|done]. intros binding a. by apply HL.
Qed.

(** ** The warrants *)

(** An authority that covers [b]: a verified envelope for exactly this binding, whose caps lie
    within what was signed; or that of the start, for the binding of the start or, along with
    a further check, for a successor in the same infrastructure under the same policy. *)
Definition warranted (o : Original) (b : PacketPortBinding) (auth : Authorization) : Prop :=
  (exists e, sound_envelope e /\ b = ae_binding e /\ auth = authorization_check e) \/
  (bootstrap_caps (o_cap_mono_ms o) auth /\ b = o_binding o) \/
  (exists k, auth = o_authorization o ++ [k] /\ fixed_binding_matches b (o_binding o) = true).

Definition warrant (o : Original) (b : PacketPortBinding) (auth : option Authorization) : Prop :=
  exists a, auth = Some a /\ warranted o b a.

Lemma justified_warrant o a change binding auth :
  justified o a change -> grants change = Some (binding, auth) -> warrant o binding auth.
Proof.
  destruct change; simpl; try done; intros Hj [= <- <-].
  - destruct Hj as (r & _ & _ & Hs & Hb & ->). eexists. split; [done|]. left. eauto.
  - destruct Hj as [(e & _ & Hs & Hb & ->)|(k & -> & _ & _ & Hm)]; eexists; (split; [done|]).
    + left. eauto.
    + right. right. eauto.
Qed.

Lemma micro_warrant s s' :
  steady s -> bridge_ok (bridge s) -> micro s s' ->
  original s' = original s /\
  (all_covered (warrant (original s)) (bridge s) -> all_covered (warrant (original s)) (bridge s')).
Proof.
  intros Hst Hok [w|g|t|ev|change r s'' Hj Ho|c _]; try done.
  - destruct (steady_actor ev s Hst) as [_ Hq], (actor_same_controller ev s) as [_ E].
    split; [done|]. eapply (covered_managed _ (fun _ => False)); [done|by apply quiet_managed|done].
  - split; [apply Ho|]. eapply (covered_managed _ (eq change)); [|by eapply outcome_managed|done].
    intros ? binding auth <-. by apply (justified_warrant _ (authority (ctl s))).
Qed.

Lemma started_warrant s : tunio_started s -> all_covered (warrant (original s)) (bridge s).
Proof.
  intros H. destruct (started_facts s H) as [_ _ (p & d & auth & w & w' & b1 & rc & Hu & -> & Hb & Hcap) _].
  assert (H1 : all_covered (warrant (original s)) b1).
  { replace b1 with (bridge_update (AttachAuthorized p d auth) (new_bridge (port_binding p) w)).2
      by (by rewrite Hu).
    apply covered_update.
    - intros binding a [= <- <-]. eexists. split; [done|]. right. by left.
    - split; [|by constructor]. by intros [| | |i] o. }
  destruct H1 as [Hc Hw]. split; [by apply covered_env|done].
Qed.

Lemma reachable_warrant s : tunio_reachable s -> all_covered (warrant (original s)) (bridge s).
Proof.
  intros (s0 & H0 & H). pose proof (so_steady _ (started_facts s0 H0)) as Hst.
  pose proof (manager_reachable_ok _ (started_reachable s0 H0)) as Hok.
  apply run_micros in H; [|done..]. pose proof (started_warrant s0 H0) as Hc. clear H0.
  induction H as [|s1 s2 s3 Hm _ IH]; [done|].
  destruct (micro_warrant s1 s2 Hst Hok Hm) as [E Hw]. apply IH.
  - by eapply micro_steady.
  - eapply micros_bridge; [done|done|by apply rtc_once].
  - rewrite E. by apply Hw.
Qed.

(** *** What a passed check says *)

Definition clock_read (w w' : W) : Prop := w' = (t_boottime_ms w).2 \/ w' = (t_wall w).2.

(** Between [w] and [w'] both clocks were read below the caps. *)
Definition in_force (w w' : W) (c : DeadlineCheck) : Prop :=
  exists w1 mono wall, rtc clock_read w w1 /\
    (t_boottime_ms w1).1 = Some mono /\ mono < cap_mono_ms c /\
    (t_wall (t_boottime_ms w1).2).1 = Some wall /\ wall < wall_cap c /\
    rtc clock_read (t_wall (t_boottime_ms w1).2).2 w'.

Lemma run_in_force a w w' :
  run_authorization a w = (true, w') -> rtc clock_read w w' /\ Forall (in_force w w') a.
Proof.
  revert w. induction a as [|c a IH]; intros w; simpl; [by intros [= <-]|].
  unfold run_deadline_check. destruct (t_boottime_ms w) as [[mono|] w1] eqn:E1; [|done].
  destruct (t_wall w1) as [[wall|] w2] eqn:E2; [|done].
  destruct (negb _) eqn:E; [|done]. intros H. apply IH in H as [Hrun Hall].
  apply negb_true_iff, orb_false_iff in E as [Em%Z.leb_gt Ew%Z.leb_gt].
  assert (H2 : rtc clock_read w w2).
  { eapply rtc_l; [by left|]. rewrite E1. eapply rtc_l; [by right|]. simpl. by rewrite E2. }
  split; [by trans w2|]. constructor.
  - exists w, mono, wall. rewrite E1. simpl. rewrite E2. by split_and!.
  - eapply Forall_impl; [done|]. intros c' (w3 & m & t & H3 & H4). exists w3, m, t.
    split; [by trans w2|done].
Qed.

(** The manager of a reachable process is reachable. *)
Lemma reachable_manager s : tunio_reachable s -> manager_reachable (bridge s).
Proof.
  intros (s0 & H0 & H). pose proof (so_steady _ (started_facts s0 H0)) as Hst.
  pose proof (started_reachable s0 H0) as Hr.
  apply run_micros, (micros_managers (K:=fun _ => True)) in H; [|by try apply manager_reachable_ok..].
  destruct Hr as (infra & w & Hr). exists infra, w. by trans (bridge s0).
Qed.

(** C3. Warranted traffic: every packet that ever crossed between the workers and the TUN
    device did so under an authority that the process was given: a verified envelope for
    exactly the binding of the owner, with caps within what was signed, or the original
    authority, for the infrastructure and policy of the start; and the clock reading with which
    its attempt to cross began lay before the deadline of the owner. When an event makes a
    packet cross, it is the oldest that its queue holds, for an owner whose fence is up; the
    boot clock and the wall clock are read below every cap of that authority within this same
    event; and the monotonic clock is read before the deadline within this event too, or, for
    a packet whose write had been pending, within the earlier step of the manager in which the
    attempt began, the timer of the deadline being asked again in this event and not ended. *)
Theorem traffic_warranted s :
  tunio_reachable s ->
  (forall x, x ∈ wire (env (bridge s)) -> sent_at x < sent_deadline x /\
     warrant (original s) (sent_owner x) (sent_authorization x)) /\
  forall ev, let b' := bridge_event ev (bridge s) in
    wire (env b') = wire (env (bridge s)) \/
    exists x d o packet t auth w w', sends_as (bridge s) b' x d o packet t /\
      in_time (bridge s) b' o t /\
      authorization o = Some auth /\ warranted (original s) (binding_of o) auth /\
      later (world (env (bridge s))) w /\ Forall (in_force w w') auth /\
      later w' (world (env b')).
Proof.
  intros Hr. destruct (reachable_warrant s Hr) as [Hc Hw]. destruct (reachable_sound s Hr) as [_ Hok].
  split.
  - intros x Hx. unfold wire_covered in Hw. rewrite Forall_forall in Hw. by destruct (Hw x Hx).
  - intros ev b'. destruct (event_sends (bridge s) ev Hok)
      as [|(x & d & o & packet & t & Hs)]; [by left|right].
    pose proof (sends_in_time _ _ _ _ _ _ _ (reachable_manager s Hr) Hs) as Ht.
    pose proof Hs as (_ & Hx & _ & _ & Hg & _).
    destruct (Hc x o Hx) as (auth & Ha & Hwar).
    destruct (gate_authorization _ _ _ _ _ Hg auth Ha) as (w & L1 & Hrun & L2).
    destruct (authorized auth w) as [ok w'] eqn:E. simpl in *. subst ok.
    exists x, d, o, packet, t, auth, w, w'. split_and!; try done.
    by apply run_in_force.
Qed.
End Warrant.
