(* ===== verification/TunioScenarios.v ===== *)
(** * The TUN process: scenarios

    A host with a frozen clock and a list of living processes; the start, the registration,
    a hand-over, a recovery, an isolation and a takeover, and the theorems of [TunioFacts],
    [TunioRecovery] and [TunioWarrant] at these states. *)
From stdpp Require Import base tactics list numbers option gmap strings.
From Stdlib Require Import ZArith Lia.
From S2P Require Import Prelude PacketPort PortManager PortManagerFacts PortManagerInv PortManagerSpec ProcessControl Tunio TunioOps TunioRuns TunioQueue TunioExec TunioMicro TunioRequests TunioFacts TunioRecovery TunioWarrant.

#[local] Open Scope Z_scope.

(** The time in milliseconds since the boot, and who runs. *)
Record Moment : Type := mkMoment {
  now_ms : Z;
  living : list ProcessIdentity;
}.

(** [/proc/<pid>/stat] after the name: the state, eighteen fields, the start time. *)
Definition stat_text (ticks : Z) : list Z :=
  [41; 32; 83] ++ concat (replicate 18 [32; 48]) ++ [32; 48 + ticks].

Definition stat_of (number : Z) (m : Moment) : Result StatError (list Z) :=
  match find (fun p => pid p =? number) (living m) with
  | Some p => Ok (stat_text (process_start_ticks p))
  | None => Err StatNotFound
  end.

Definition supervisor : ProcessIdentity := mkProcess 10 5.
Definition successor : ProcessIdentity := mkProcess 11 7.
Definition this_process : ProcessIdentity := mkProcess 20 6.
Definition worker : ProcessIdentity := mkProcess 30 8.

Definition some_boot_id : list Z := replicate 36 97.

#[local] Instance moment_procfs : ProcFs Moment := {
  read_stat := fun number m => (stat_of number m, m);
}.

#[local] Instance moment_host : TunioHost Moment := {
  t_instant := fun m => (now_ms m * MS, m);
  t_timer := fun t m => (t <=? now_ms m * MS, m);
  t_boottime_ms := fun m => (Some (now_ms m), m);
  t_wall := fun m => (Some (now_ms m * MS), m);
  t_boot_id := fun m => (Some some_boot_id, m);
  t_write := fun _ _ m => (Ok true, m);
  t_pending_input := fun _ m => (Ok false, m);
  t_euid := 0;
  t_own_pid := pid this_process;
  t_parent_pid := fun m => (pid supervisor, m);
  publish_status := fun _ m => (true, m);
  sync_status_directory := fun m => (true, m);
  sha256_hex := fun t => t;
  patience := fun m => (([HandleUpdate], false), m);
  request_timed_out := fun m => (false, m);
}.

Definition id_of (n : Z) : list Z := replicate 15 0 ++ [n].
Definition binding_at (e : Z) : PacketPortBinding := mkBinding (id_of 1) (id_of 2) 1 1 e 1.
Definition capability : list Z := replicate 32 97.
Definition nonce : list Z := replicate 32 48.
Definition socket_of (n : nat) : Descriptor := mkDescriptor n true true true 0 (pid supervisor).

Definition all_alive : Moment := mkMoment 1000 [supervisor; successor; this_process; worker].
Definition args : Args := mkArgs 100 (Some 60000) (binding_at 1) (socket_of 1) capability.

Definition outcome : Result string (Tunio Moment) * Moment := start (mret tt) args all_alive.

(** Only for the other case of [began]. *)
Definition nowhere : Tunio Moment :=
  mkTunio (mkController this_process supervisor 1 [] 0 0 (binding_at 1) false false None default_authority)
    (new_bridge (binding_at 1) all_alive) [] [] [] O GuardIdle
    (mkOriginal (binding_at 1) 0 0 [] [] None).

Definition began : Tunio Moment := match outcome.1 with Ok s => s | Err _ => nowhere end.

Lemma began_started : tunio_started began.
Proof. exists (mret tt), args, all_alive, outcome.2. by vm_compute. Qed.

(** *** Runs *)

Inductive Act : Type :=
| Acts (ev : ActorEvent)
| Elsewhere (m : Moment)
| Asks (peer : ProcessIdentity) (request : AuthorityControlRequest) (fds : list Descriptor)
| Controls (peer : ProcessIdentity) (request : ControlRequest)
| Registers.

Definition act (a : Act) (s : Tunio Moment) : Tunio Moment :=
  match a with
  | Acts ev => actor_event ev s
  | Elsewhere m => set_world m s
  | Asks peer request fds => (serve_authority request peer fds s).2
  | Controls peer request => (control_request peer request s).2
  | Registers => (confirm_registration s).2
  end.

Definition perform (l : list Act) (s : Tunio Moment) : Tunio Moment := fold_left (fun s a => act a s) l s.

Lemma perform_rtc l s : rtc tunio_step s (perform l s).
Proof.
  revert s. induction l as [|a l IH]; intros s; [done|]. simpl. eapply rtc_l; [|apply IH].
  destruct a; constructor.
Qed.

Lemma perform_reachable l : tunio_reachable (perform l began).
Proof. exists began. split; [apply began_started|apply perform_rtc]. Qed.

(** *** The scenarios *)

Definition control (op : ControlOperation) : ControlRequest := mkControlRequest 1 op capability nonce.
Definition registered_acts : list Act := [Controls supervisor (control CtProbe); Registers].

Definition transaction : list Z := replicate 32 49.
Definition hash : list Z := replicate 64 97.
Definition envelope : AuthorityEnvelope :=
  mkEnvelope transaction 1 (binding_at 2) worker supervisor 1 hash hash hash hash 90 80 1 1000 50000 some_boot_id.

Definition asks (op : AuthorityOperation) (e : option AuthorityEnvelope) : AuthorityControlRequest :=
  mkAuthorityRequest 3 this_process supervisor 1 capability nonce op e transaction.

Definition recovery : AuthorityControlRequest := asks (OpRecoverPrecommit (binding_at 1)) (Some envelope).

Definition hand_over : list Act :=
  registered_acts ++
  [ Asks supervisor (asks OpStageAuthority (Some envelope)) [];
    Asks supervisor (asks (OpPrepareOwner (Some 1) 21000) (Some envelope)) [socket_of 2];
    Asks supervisor (asks OpCommitOwner (Some envelope)) [] ].

Definition packet_out : Act := Acts (ManagerEvent (EvFromTun [69; 1] 2)).
Definition worker_gone : Act := Elsewhere (mkMoment 1000 [supervisor; successor; this_process]).

Definition isolation : AuthorityControlRequest :=
  asks (OpIsolateCommittedOwner (binding_at 1)) (Some envelope).

Example hands_over :
  let s := perform hand_over began in
  active (authority (ctl s)) = Some envelope /\
  (binding_of <$> owner (bridge s)) = Some (binding_at 2) /\
  (binding_of <$> retained (bridge s)) = Some (binding_at 1).
Proof. by vm_compute. Qed.

(** *** The theorems *)

(** After the recovery the supervisor tries to stage the same authority again. *)
Definition staged_again : list Act := [Asks supervisor (asks OpStageAuthority (Some envelope)) []].

Lemma precommit_recovery_final_witness :
  let '(reply, s1) := serve_authority recovery supervisor [] (perform registered_acts began) in
  rs_precommit_cancelled reply = Some envelope /\
  staged (authority (ctl (perform staged_again s1))) <> Some envelope.
Proof.
  assert (Hc : rs_precommit_cancelled
    (serve_authority recovery supervisor [] (perform registered_acts began)).1 = Some envelope)
    by (by vm_compute).
  pose proof (fun s' => precommit_recovery_final (perform registered_acts began) recovery supervisor []
    envelope s') as H.
  revert Hc H. destruct (serve_authority _ _ _ _) as [reply s1]. intros Hc H. split; [exact Hc|].
  refine (proj1 (H (perform staged_again s1) (perform_reachable registered_acts) Hc (perform_rtc _ _))).
Defined.

Definition isolated_from : list Act := hand_over ++ [packet_out; worker_gone].

Lemma isolation_effective_witness :
  let '(reply, s1) := serve_authority isolation supervisor [] (perform isolated_from began) in
  rs_accepted reply = true /\ is_Some (owner (bridge (perform isolated_from began))) /\
  owner (bridge s1) = None.
Proof.
  assert (Hc : rs_accepted
    (serve_authority isolation supervisor [] (perform isolated_from began)).1 = true) by (by vm_compute).
  assert (Ho : is_Some (owner (bridge (perform isolated_from began)))) by (vm_compute; by eexists).
  pose proof (fun s' => isolation_effective (perform isolated_from began) isolation supervisor []
    (binding_at 1) s') as H.
  revert Hc H. destruct (serve_authority _ _ _ _) as [reply s1]. intros Hc H.
  split; [exact Hc|]. split; [exact Ho|].
  refine (proj1 (H s1 (perform_reachable isolated_from) eq_refl Hc (rtc_refl _ _))).
Defined.

Definition talked : list Act := hand_over ++ [packet_out].

Lemma traffic_warranted_witness :
  exists x, wire (env (bridge (perform talked began))) = [x] /\
    warrant (original (perform talked began)) (sent_owner x) (sent_authorization x).
Proof.
  assert (Hw : exists x, wire (env (bridge (perform talked began))) = [x]) by (vm_compute; by eexists).
  destruct Hw as [x Hx]. exists x. split; [exact Hx|].
  destruct (traffic_warranted _ (perform_reachable talked)) as [H _].
  apply (H x). rewrite Hx. by apply list_elem_of_singleton.
Defined.

Lemma authority_marks_grow_witness :
  marks_grow (authority (ctl (perform [] began))) (authority (ctl (perform hand_over began))) /\
  highest_revision (authority (ctl (perform hand_over began))) = 1.
Proof.
  split; [|by vm_compute].
  exact (authority_marks_grow _ _ (perform_reachable []) (perform_rtc hand_over began)).
Defined.

(** The supervisor is gone, and another process takes over. *)
Definition orphaned_by : list Act :=
  registered_acts ++ [Elsewhere (mkMoment 1000 [successor; this_process; worker])].

Lemma controller_succession_witness :
  let orphaned := perform orphaned_by began in
  let s' := (control_request successor (control CtTakeover) orphaned).2 in
  (same_control (ctl orphaned) (ctl s') \/
   exists peer request, s' = (control_request peer request orphaned).2 /\ taken_over peer request orphaned s') /\
  controller (ctl s') = successor /\ epoch (ctl s') = 2.
Proof.
  cbv zeta. split; [|by vm_compute].
  exact (controller_succession _ _ (perform_reachable orphaned_by) (tunio_control _ successor (control CtTakeover))).
Defined.
