(* ===== verification/Candidate.v ===== *)
(** * Candidate ownership

    The agent hands the packet port of a TUN process to a new worker with a [CandidateOwner]
    ([candidate_ownership.rs]): a durable record of one authority, from its preparation to its
    commit, or to the proof that it never took effect. This file holds the proofs of the peers,
    the record with its operations, and what the agent concludes from the replies of the TUN
    process ([TunioOps]). The requests leave through [exchange], the record is made durable
    by [persist]; both are arguments, as the closures of the code are. *)
From stdpp Require Import base tactics list numbers option strings.
From Stdlib Require Import ZArith Lia.
From S2P Require Import Prelude PacketPort PortManager ProcessControl Tunio TunioOps.

#[local] Open Scope Z_scope.

(** ** The proofs *)

Record RoutingCandidate : Type := mkSelector {
  sel_transaction_id : list Z;
  sel_owner_epoch : Z;
  sel_policy_generation : Z;
  sel_authorization_sha256 : list Z;
  sel_candidate_id : list Z;
  sel_local_attachment_epoch : Z;
  sel_peer_attachment_epoch : Z;
  sel_tunnel_id : Z;
}.

#[export] Instance RoutingCandidate_eq_dec : EqDecision RoutingCandidate.
Proof. solve_decision. Defined.

Record BarrierIdentity : Type := mkBarrier {
  barrier_id : list Z;
  barrier_generation : Z;
  barrier_fence : Z;
  barrier_hash : list Z;
}.

#[export] Instance BarrierIdentity_eq_dec : EqDecision BarrierIdentity.
Proof. solve_decision. Defined.

Record PeerExpectation : Type := mkExpectation {
  pe_attachment_id : list Z;
  pe_selector : RoutingCandidate;
  pe_barrier : BarrierIdentity;
}.

#[export] Instance PeerExpectation_eq_dec : EqDecision PeerExpectation.
Proof. solve_decision. Defined.

Record PeerProof : Type := mkPeerProof {
  pp_attachment_id : list Z;
  pp_selector : RoutingCandidate;
  pp_barrier : BarrierIdentity;
  pp_prepared : bool;
  pp_installed : bool;
  pp_probe_sent : bool;
  pp_probe_received : bool;
  pp_drain_complete : bool;
  pp_drain_failed : bool;
  pp_activation_confirmed : bool;
  pp_transport_live : bool;
  pp_recovery_action : string;
}.

Record LocalProof : Type := mkLocalProof {
  lp_domain : list Z;
  lp_owner_epoch : Z;
  lp_authorization_sha256 : list Z;
  lp_packet_slot : PacketPortBinding;
}.

Record CandidateProof : Type := mkCandidateProof {
  cp_schema_version : Z;
  cp_transaction_id : list Z;
  cp_phase : string;
  cp_local : LocalProof;
  cp_peers : list PeerProof;
  cp_forced_retirement : bool;
  cp_old_owner_drained : bool;
}.

(** [ensure!] in a function without effects. *)
Definition insist (b : bool) (code : string) : Result string unit := if b then Ok tt else Err code.

Definition zeros (n : nat) : list Z := replicate n 0.
Definition nonzero_id (n : nat) (id : list Z) : bool := negb (bool_decide (id = zeros n)).

(** The identity that the peer was asked to install. *)
Definition expectation_valid (peer : PeerExpectation) : bool :=
  nonzero_id 16 (pe_attachment_id peer)
  && bool_decide (sel_transaction_id (pe_selector peer) = barrier_id (pe_barrier peer))
  && nonzero_id 32 (sel_transaction_id (pe_selector peer))
  && negb (sel_owner_epoch (pe_selector peer) =? 0)
  && negb (sel_policy_generation (pe_selector peer) =? 0)
  && nonzero_id 32 (sel_authorization_sha256 (pe_selector peer))
  && nonzero_id 16 (sel_candidate_id (pe_selector peer))
  && negb (sel_local_attachment_epoch (pe_selector peer) =? 0)
  && negb (sel_peer_attachment_epoch (pe_selector peer) =? 0)
  && negb (sel_tunnel_id (pe_selector peer) =? 0)
  && negb (barrier_generation (pe_barrier peer) =? 0)
  && negb (barrier_fence (pe_barrier peer) =? 0)
  && nonzero_id 32 (barrier_hash (pe_barrier peer)).

Definition proof_confirms (proof : PeerProof) (peer : PeerExpectation) : bool :=
  bool_decide (pp_selector proof = pe_selector peer)
  && bool_decide (pp_barrier proof = pe_barrier peer)
  && expectation_valid peer
  && pp_prepared proof && pp_installed proof && pp_probe_sent proof && pp_probe_received proof.

(** The loop over the expected peers; [earlier] is [expected[..index]]. *)
Fixpoint peers_confirmed (peers : list PeerProof) (earlier rest : list PeerExpectation)
  : Result string unit :=
  match rest with
  | [] => Ok tt
  | peer :: rest =>
      check? insist (forallb (fun other => negb (bool_decide (pe_attachment_id other = pe_attachment_id peer)))
                       earlier) "candidate_duplicate_expected_peer" in
      match filter (fun proof => pp_attachment_id proof = pe_attachment_id peer) peers with
      | [proof] =>
          check? insist (proof_confirms proof peer) "candidate_peer_installation_unconfirmed" in
          peers_confirmed peers (earlier ++ [peer]) rest
      | _ => Err "candidate_peer_coverage_mismatch"%string
      end
  end.

Definition require_identity (self : CandidateProof) (e : AuthorityEnvelope)
    (expected : list PeerExpectation) : Result string unit :=
  check? insist ((cp_schema_version self =? 1)
                 && bool_decide (cp_transaction_id self = ae_transaction_id e)
                 && bool_decide (lp_domain (cp_local self) = routing_domain_id (ae_binding e))
                 && (lp_owner_epoch (cp_local self) =? owner_epoch (ae_binding e))
                 && bool_decide (lp_authorization_sha256 (cp_local self) = ae_signed_control_hash e)
                 && bool_decide (lp_packet_slot (cp_local self) = ae_binding e))
           "candidate_local_proof_mismatch" in
  check? insist (negb (bool_decide (expected = []))
                 && Nat.eqb (length expected) (length (cp_peers self)))
           "candidate_peer_coverage_mismatch" in
  peers_confirmed (cp_peers self) [] expected.

Definition require_installed (self : CandidateProof) (e : AuthorityEnvelope)
    (expected : list PeerExpectation) : Result string unit :=
  check? insist (bool_decide (cp_phase self = "installed"%string) && negb (cp_forced_retirement self)
                 && forallb (fun peer => negb (pp_drain_failed peer)) (cp_peers self))
           "candidate_install_phase_mismatch" in
  require_identity self e expected.

(** What is to become of a peer whose predecessor was retired by force. *)
Definition recovery_due (peer : PeerProof) : string :=
  if pp_activation_confirmed peer && pp_transport_live peer
  then "preserve_active_peer" else "redial_affected_peer".

Definition require_failed_retirement (self : CandidateProof) (e : AuthorityEnvelope)
    (expected : list PeerExpectation) : Result string unit :=
  check? require_identity self e expected in
  insist (bool_decide (cp_phase self = "failed_drain_preserved"%string) && cp_forced_retirement self
          && negb (cp_old_owner_drained self)
          && forallb (fun peer => negb (Bool.eqb (pp_drain_complete peer) (pp_drain_failed peer)))
               (cp_peers self)
          && existsb pp_drain_failed (cp_peers self)
          && forallb (fun peer => bool_decide (pp_recovery_action peer = recovery_due peer))
               (cp_peers self))
    "candidate_failed_retirement_unconfirmed".

Definition require_drained (self : CandidateProof) (e : AuthorityEnvelope)
    (expected : list PeerExpectation) : Result string unit :=
  check? require_installed self e expected in
  insist (forallb pp_drain_complete (cp_peers self)) "candidate_peer_drain_unconfirmed".

(** ** The record *)

Inductive OwnerState : Type :=
| StPrepared | StCommitted | StAborted | StExpired | StUnknown | StCancelledBeforePrepare.

#[export] Instance OwnerState_eq_dec : EqDecision OwnerState.
Proof. solve_decision. Defined.

Record CandidateOwner : Type := mkCandidateOwner {
  co_envelope : AuthorityEnvelope;
  co_expected_active : option PacketPortBinding;
  co_prepare_deadline_mono_ms : Z;
  co_expected_peers : list PeerExpectation;
  commit_intent : bool;
  precommit_cancellation : option AuthorityControlResponse;
  committed_failure : option AuthorityControlResponse;
  committed_isolation : option AuthorityControlResponse;
  expired_commit_retirement : option AuthorityControlResponse;
}.

Definition with_commit_intent (v : bool) (o : CandidateOwner) : CandidateOwner :=
  mkCandidateOwner (co_envelope o) (co_expected_active o) (co_prepare_deadline_mono_ms o)
    (co_expected_peers o) v (precommit_cancellation o) (committed_failure o)
    (committed_isolation o) (expired_commit_retirement o).

Definition with_cancellation (v : option AuthorityControlResponse) (o : CandidateOwner)
  : CandidateOwner :=
  mkCandidateOwner (co_envelope o) (co_expected_active o) (co_prepare_deadline_mono_ms o)
    (co_expected_peers o) (commit_intent o) v (committed_failure o)
    (committed_isolation o) (expired_commit_retirement o).

Definition with_failure (v : option AuthorityControlResponse) (o : CandidateOwner)
  : CandidateOwner :=
  mkCandidateOwner (co_envelope o) (co_expected_active o) (co_prepare_deadline_mono_ms o)
    (co_expected_peers o) (commit_intent o) (precommit_cancellation o) v
    (committed_isolation o) (expired_commit_retirement o).

Definition with_isolation (v : option AuthorityControlResponse) (o : CandidateOwner)
  : CandidateOwner :=
  mkCandidateOwner (co_envelope o) (co_expected_active o) (co_prepare_deadline_mono_ms o)
    (co_expected_peers o) (commit_intent o) (precommit_cancellation o) (committed_failure o)
    v (expired_commit_retirement o).

Definition with_retirement (v : option AuthorityControlResponse) (o : CandidateOwner)
  : CandidateOwner :=
  mkCandidateOwner (co_envelope o) (co_expected_active o) (co_prepare_deadline_mono_ms o)
    (co_expected_peers o) (commit_intent o) (precommit_cancellation o) (committed_failure o)
    (committed_isolation o) v.

(** [CandidateOwner::new]. *)
Definition CandidateOwner_new (e : AuthorityEnvelope) (expected_active : option PacketPortBinding)
    (prepare_deadline_mono_ms : Z) (expected_peers : list PeerExpectation)
  : Result string CandidateOwner :=
  check? match expected_active with
         | Some old =>
             insist (infrastructure_matches old (ae_binding e)
                     && (owner_epoch old <? owner_epoch (ae_binding e))
                     && (policy_generation old <=? policy_generation (ae_binding e)))
               "candidate_owner_infrastructure_mismatch"
         | None => Ok tt
         end in
  check? insist (negb (bool_decide (expected_peers = []))) "candidate_peer_coverage_missing" in
  Ok (mkCandidateOwner e expected_active prepare_deadline_mono_ms expected_peers false
        None None None None).

(** The status document of the worker, as far as [proof_from_status] reads it: its fields
    [reported_at_mono_ms] and [worker_candidate_transaction], decoded. *)
Class WorkerStatus (V : Type) := {
  reported_at_mono_ms : V -> option Z;
  worker_candidate_transaction : V -> option CandidateProof;
}.

Definition proof_from_status `{WorkerStatus V} (self : CandidateOwner) (status : V) (now_mono_ms : Z)
  : Result string CandidateProof :=
  check? insist (match reported_at_mono_ms status with
                 | Some reported =>
                     negb (reported =? 0)
                     && (reported <=? u64_saturating_add now_mono_ms 50)
                     && (Z.max 0 (now_mono_ms - reported) <=? 5000)
                 | None => false
                 end
                 && (now_mono_ms <? ae_deadline_mono_ms (co_envelope self)))
           "candidate_worker_proof_stale" in
  let? proof := ok_or (worker_candidate_transaction status) "candidate_worker_proof_missing"%string in
  check? require_installed proof (co_envelope self) (co_expected_peers self) in
  Ok proof.

(** ** Conclusions *)

Definition expected_epoch (self : CandidateOwner) : option Z := owner_epoch <$> co_expected_active self.

(** The receipt is that of this candidate, to the letter. *)
Definition receipt_identity (self : CandidateOwner) (receipt : AuthorityOwnerReceipt) : bool :=
  (or_revision receipt =? ae_revision (co_envelope self))
  && bool_decide (or_binding receipt = ae_binding (co_envelope self))
  && bool_decide (or_expected_active_epoch receipt = expected_epoch self)
  && (or_authorization_cap_mono_ms receipt =? ae_deadline_mono_ms (co_envelope self))
  && (or_requested_prepare_deadline receipt =? co_prepare_deadline_mono_ms self).

Definition at_most (o : option Z) (cap : Z) : bool := match o with Some d => d <=? cap | None => false end.
Definition absent_or {T} (test : T -> bool) (o : option T) : bool :=
  match o with Some x => test x | None => true end.

Definition observe_prepared (self : CandidateOwner) (reply : AuthorityControlResponse)
  : Result string OwnerState :=
  check? insist (bool_decide (rs_pending reply = Some (co_envelope self))
                 && bool_decide (rs_actual_owner_binding reply = co_expected_active self)
                 && (negb (bool_decide (is_Some (co_expected_active self))) || rs_owner_active reply))
           "candidate_owner_active_changed" in
  Ok StPrepared.

Definition observe_committed (self : CandidateOwner) (reply : AuthorityControlResponse)
  : Result string OwnerState :=
  let e := co_envelope self in
  check? insist (bool_decide (rs_active reply = Some e) && rs_owner_active reply
                 && bool_decide (rs_applied_transaction_id reply = Some (ae_transaction_id e))
                 && bool_decide (rs_authority_revision reply = Some (ae_revision e))
                 && bool_decide (rs_actual_owner_binding reply = Some (ae_binding e))
                 && at_most (rs_actual_deadline_mono_ms reply) (ae_deadline_mono_ms e))
           "candidate_owner_commit_unconfirmed" in
  Ok StCommitted.

Definition observe_terminal (self : CandidateOwner) (reply : AuthorityControlResponse)
    (state : OwnerState) : Result string OwnerState :=
  check? insist (negb (bool_decide (rs_active reply = Some (co_envelope self)))
                 && negb (bool_decide (rs_actual_owner_binding reply
                                       = Some (ae_binding (co_envelope self)))))
           "candidate_owner_terminal_mismatch" in
  Ok state.

Definition observe (self : CandidateOwner) (reply : AuthorityControlResponse)
  : Result string OwnerState :=
  match rs_owner_transaction reply with
  | None => Ok StUnknown
  | Some receipt =>
      if negb (bool_decide (or_transaction_id receipt = ae_transaction_id (co_envelope self)))
      then Ok StUnknown
      else
        check? insist ((rs_schema_version reply =? 3) && rs_accepted reply
                       && receipt_identity self receipt) "candidate_owner_receipt_mismatch" in
        let phase := or_phase receipt in
        if bool_decide (phase = "prepared"%string) then observe_prepared self reply
        else if bool_decide (phase = "committed"%string) then observe_committed self reply
        else if bool_decide (phase = "aborted"%string) then observe_terminal self reply StAborted
        else if bool_decide (phase = "expired"%string) then observe_terminal self reply StExpired
        else Ok StUnknown
  end.

Definition require_failed_retirement_receipt (self : CandidateOwner)
    (reply : AuthorityControlResponse) (io_identity : ProcessIdentity) (now_mono_ms : Z)
  : Result string unit :=
  let? state := observe self reply in
  insist (bool_decide (state = StCommitted) && bool_decide (rs_process reply = io_identity)
          && bool_decide (rs_current_binding reply = ae_binding (co_envelope self))
          && rs_forced_retirement reply && negb (rs_old_owner_drained reply)
          && bool_decide (rs_retained_owner_binding reply = None)
          && bool_decide (rs_pending reply = None)
          && (co_prepare_deadline_mono_ms self <=? now_mono_ms)
          && match rs_actual_deadline_mono_ms reply with
             | Some cap => (now_mono_ms <? cap) && (cap <=? ae_deadline_mono_ms (co_envelope self))
             | None => false
             end)
    "mbb_failed_retirement_receipt_mismatch".

Definition require_committed_outcome (self : CandidateOwner) (reply : AuthorityControlResponse)
  : Result string unit :=
  let? receipt := ok_or (rs_owner_transaction reply) "candidate_committed_receipt_missing"%string in
  insist (commit_intent self && (rs_schema_version reply =? 3) && rs_accepted reply
          && bool_decide (or_transaction_id receipt = ae_transaction_id (co_envelope self))
          && bool_decide (or_phase receipt = "committed"%string)
          && receipt_identity self receipt
          && bool_decide (rs_owner_highest_revision reply = Some (ae_revision (co_envelope self)))
          && bool_decide (rs_pending reply = None)
          && absent_or (fun b => bool_decide (b = ae_binding (co_envelope self)))
               (rs_actual_owner_binding reply)
          && absent_or (fun b => bool_decide (Some b = co_expected_active self))
               (rs_retained_owner_binding reply))
    "candidate_committed_recovery_mismatch".

(** [business_current] may itself have failed. *)
Definition committed_isolation_needed (self : CandidateOwner) (reply : AuthorityControlResponse)
    (business_current : Result string bool) : Result string bool :=
  check? require_committed_outcome self reply in
  if negb (rs_owner_active reply) then Ok true
  else let? current := business_current in Ok (negb current).

(** The absence of the candidate is certain, on both sides of the process. *)
Definition cancellation_confirmed (self : CandidateOwner) (expected : PacketPortBinding)
    (reply : AuthorityControlResponse) : bool :=
  let e := co_envelope self in
  bool_decide (rs_precommit_cancelled reply = Some e)
  && (rs_schema_version reply =? 3) && rs_accepted reply && rs_owner_active reply
  && bool_decide (rs_actual_owner_binding reply = Some expected)
  && bool_decide (rs_current_binding reply = expected)
  && negb (bool_decide (rs_active reply = Some e)) && bool_decide (rs_pending reply = None)
  && bool_decide (rs_retained_owner_binding reply = None)
  && negb (bool_decide (is_Some (rs_owner_transaction reply)))
  && match rs_owner_highest_revision reply with
     | Some revision => revision <? ae_revision e | None => false
     end
  && (rs_highest_revision reply =? ae_revision e)
  && (rs_highest_owner_epoch reply =? owner_epoch (ae_binding e))
  && (rs_highest_policy_generation reply =? policy_generation (ae_binding e)).

(** The reply answers this request. *)
Definition fence_matches (reply : AuthorityControlResponse) (request : AuthorityControlRequest) : bool :=
  bool_decide (rs_process reply = ar_process request)
  && bool_decide (rs_controller reply = ar_controller request)
  && (rs_controller_epoch reply =? ar_controller_epoch request)
  && bool_decide (rs_nonce reply = ar_nonce request).

(** ** Requests *)

(** The request, with another operation, envelope and transaction. *)
Definition asking (base : AuthorityControlRequest) (operation : AuthorityOperation)
    (e : AuthorityEnvelope) : AuthorityControlRequest :=
  mkAuthorityRequest 3 (ar_process base) (ar_controller base) (ar_controller_epoch base)
    (ar_token_sha256 base) (ar_nonce base) operation (Some e) (ae_transaction_id e).

Definition probe_request (request : AuthorityControlRequest) (nonce : list Z) : AuthorityControlRequest :=
  mkAuthorityRequest 3 (ar_process request) (ar_controller request) (ar_controller_epoch request)
    (ar_token_sha256 request) nonce OpProbeTransaction None (ar_transaction_id request).

Definition prepare_request (self : CandidateOwner) (base : AuthorityControlRequest) (now_mono_ms : Z)
  : Result string AuthorityControlRequest :=
  check? insist (negb (commit_intent self)
                 && negb (bool_decide (is_Some (precommit_cancellation self)))
                 && negb (bool_decide (is_Some (expired_commit_retirement self)))
                 && negb (bool_decide (is_Some (committed_isolation self)))
                 && (now_mono_ms <? co_prepare_deadline_mono_ms self)
                 && (co_prepare_deadline_mono_ms self <=? ae_deadline_mono_ms (co_envelope self))
                 && (co_prepare_deadline_mono_ms self - now_mono_ms <=? 30000))
           "candidate_owner_prepare_invalid" in
  Ok (asking base (OpPrepareOwner (expected_epoch self) (co_prepare_deadline_mono_ms self))
        (co_envelope self)).

Definition commit_request (self : CandidateOwner) (base : AuthorityControlRequest)
    (proof : CandidateProof) : Result string AuthorityControlRequest :=
  check? require_installed proof (co_envelope self) (co_expected_peers self) in
  check? insist (commit_intent self) "candidate_owner_commit_intent_missing" in
  check? insist (negb (bool_decide (is_Some (expired_commit_retirement self)))
                 && negb (bool_decide (is_Some (committed_isolation self))))
           "candidate_owner_retired" in
  Ok (asking base OpCommitOwner (co_envelope self)).

(** ** The operations *)

(** What the agent uses: a fresh nonce, the durable record, and the control socket of the TUN
    process. *)
Class AgentHost (X : Type) := {
  fresh_nonce : X -> list Z * X;
  persist : CandidateOwner -> X -> Result string unit * X;
  exchange : AuthorityControlRequest -> option Descriptor -> X ->
    Result string AuthorityControlResponse * X;
}.

(** The record in memory, and everything else. *)
Record Agent (X : Type) : Type := mkAgent {
  held : CandidateOwner;
  outside : X;
}.
Arguments mkAgent {X} _ _.
Arguments held {X} _.
Arguments outside {X} _.

Section Operations.
Context {X : Type} `{!AgentHost X}.

Definition AgentM (T : Type) : Type := M (Agent X) string T.

Definition beyond {T} (m : M X string T) : AgentM T :=
  fun a => let '(r, x) := m (outside a) in (r, mkAgent (held a) x).
Definition self : AgentM CandidateOwner := gets held.
Definition update_self (f : CandidateOwner -> CandidateOwner) : AgentM unit :=
  modify (fun a => mkAgent (f (held a)) (outside a)).
Definition persist_self : AgentM unit := let* o := self in beyond (persist o).

(** A failed exchange is followed by one probe of the same transaction. *)
Definition exchange_or_probe (request : AuthorityControlRequest) (port : option Descriptor)
    (code : string) : AgentM AuthorityControlResponse :=
  let* reply := attempt (beyond (exchange request port)) in
  match reply with
  | Ok reply => mret reply
  | Err _ =>
      let* nonce := beyond (fun x => let '(n, x) := fresh_nonce x in (Ok n, x)) in
      let* reply := attempt (beyond (exchange (probe_request request nonce) None)) in
      lift (map_err (fun _ : string => code) reply)
  end.

Definition observe_self (reply : AuthorityControlResponse) : AgentM OwnerState :=
  let* o := self in lift (observe o reply).

Definition prepare_with (base : AuthorityControlRequest) (port : Descriptor) (now_mono_ms : Z)
  : AgentM OwnerState :=
  let* o := self in
  let* request := lift (prepare_request o base now_mono_ms) in
  do* persist_self in
  let* reply := exchange_or_probe request (Some port) "candidate_owner_prepare_unknown" in
  observe_self reply.

Definition begin_commit (base : AuthorityControlRequest) (proof : CandidateProof)
  : AgentM AuthorityControlRequest :=
  let* o := self in
  do* lift (insist (negb (bool_decide (is_Some (precommit_cancellation o)))
                    && negb (bool_decide (is_Some (expired_commit_retirement o)))
                    && negb (bool_decide (is_Some (committed_isolation o))))
              "candidate_owner_cancelled") in
  do* lift (require_installed proof (co_envelope o) (co_expected_peers o)) in
  do* update_self (with_commit_intent true) in
  do* persist_self in
  let* o := self in
  lift (commit_request o base proof).

Definition promote_with (base : AuthorityControlRequest) (proof : CandidateProof)
  : AgentM OwnerState :=
  let* request := begin_commit base proof in
  let* reply := exchange_or_probe request None "candidate_owner_commit_unknown" in
  observe_self reply.

Definition record_committed_failure (reply : AuthorityControlResponse) : AgentM unit :=
  let* o := self in
  do* lift (require_committed_outcome o reply) in
  do* match committed_failure o with
      | None => update_self (with_failure (Some reply))
      | Some _ => mret tt
      end in
  persist_self.

Definition record_committed_isolation (reply : AuthorityControlResponse) : AgentM unit :=
  let* o := self in
  do* lift (require_committed_outcome o reply) in
  do* lift (insist (bool_decide (is_Some (committed_failure o))
                    && bool_decide (rs_isolated_committed reply = Some (co_envelope o))
                    && negb (rs_owner_active reply)
                    && bool_decide (rs_actual_owner_binding reply = None)
                    && bool_decide (rs_retained_owner_binding reply = None))
              "candidate_committed_isolation_unconfirmed") in
  do* update_self (with_isolation (Some reply)) in
  persist_self.

Definition recover_precommit_with (request : AuthorityControlRequest) : AgentM OwnerState :=
  let* o := self in
  do* lift (insist (negb (commit_intent o)) "candidate_owner_commit_unknown") in
  let* expected := lift (ok_or (co_expected_active o) "candidate_precommit_original_owner_missing"%string) in
  let request := asking request (OpRecoverPrecommit expected) (co_envelope o) in
  let* reply := beyond (exchange request None) in
  do* lift (insist (fence_matches reply request) "candidate_precommit_response_fence_mismatch") in
  match rs_precommit_cancelled reply with
  | None => observe_self reply
  | Some _ =>
      do* lift (insist (cancellation_confirmed o expected reply)
                  "candidate_precommit_cancellation_unconfirmed") in
      do* update_self (with_cancellation (Some reply)) in
      do* persist_self in
      mret StCancelledBeforePrepare
  end.

Definition retire_expired_commit_with (request : AuthorityControlRequest) : AgentM unit :=
  let* o := self in
  do* lift (insist (commit_intent o) "candidate_commit_intent_missing") in
  let* expected := lift (ok_or (co_expected_active o) "expired commit original binding absent"%string) in
  let request := asking request (OpRetireExpiredCommit expected) (co_envelope o) in
  let* reply := beyond (exchange request None) in
  let unconfirmed := "candidate_expired_commit_retirement_unconfirmed"%string in
  do* lift (insist (fence_matches reply request
                    && bool_decide (rs_retired_expired_commit reply = Some (co_envelope o)))
              unconfirmed) in
  let* state := lift (observe o reply) in
  do* lift (insist (bool_decide (state = StExpired) && rs_owner_active reply
                    && bool_decide (rs_actual_owner_binding reply = Some expected)
                    && bool_decide (rs_current_binding reply = expected)
                    && bool_decide (rs_pending reply = None)
                    && bool_decide (rs_retained_owner_binding reply = None)
                    && bool_decide (rs_owner_highest_revision reply
                                    = Some (ae_revision (co_envelope o))))
              unconfirmed) in
  do* update_self (with_retirement (Some reply)) in
  persist_self.
End Operations.
