(* ===== verification/CandidateFacts.v ===== *)
(** * Candidate ownership: the proofs of the peers, and the write-ahead record

    What an installation proof says, in one line, and what the durable record guarantees over
    any history of the agent, crashes and restarts included. *)
From stdpp Require Import base tactics list numbers option sets strings.
From Stdlib Require Import ZArith Lia.
From S2P Require Import Prelude PacketPort PortManager ProcessControl Tunio TunioOps TunioRuns Candidate.

#[local] Open Scope Z_scope.

(** ** The proofs of the peers *)

Lemma insist_ok b code v : insist b code = Ok v <-> b = true.
Proof. unfold insist. by destruct b, v. Qed.

Lemma insist_bind {T} b code (k : unit -> Result string T) v :
  result_bind (insist b code) k = Ok v <-> b = true /\ k tt = Ok v.
Proof. unfold insist. destruct b; simpl; [tauto|]. split; [done|by intros [? _]]. Qed.

Lemma forallb_Forall {A} (f : A -> bool) l : forallb f l = true <-> Forall (fun x => f x = true) l.
Proof. rewrite Forall_forall, forallb_forall. by setoid_rewrite list_elem_of_In. Qed.

(** Who a peer is, as the agent expects it and as the worker reports it. *)
Definition expected_identity (p : PeerExpectation) : list Z * RoutingCandidate * BarrierIdentity :=
  (pe_attachment_id p, pe_selector p, pe_barrier p).
Definition reported_identity (p : PeerProof) : list Z * RoutingCandidate * BarrierIdentity :=
  (pp_attachment_id p, pp_selector p, pp_barrier p).

Definition peer_ready (p : PeerProof) : bool :=
  pp_prepared p && pp_installed p && pp_probe_sent p && pp_probe_received p.

Lemma proof_confirms_spec proof peer :
  pp_attachment_id proof = pe_attachment_id peer ->
  proof_confirms proof peer = true <->
  reported_identity proof = expected_identity peer /\ expectation_valid peer = true /\
  peer_ready proof = true.
Proof.
  intros Hid. unfold proof_confirms, peer_ready, reported_identity, expected_identity. rewrite Hid.
  rewrite !andb_true_iff, !bool_decide_eq_true. split; [|naive_solver].
  intros [[[[[[-> ->] ?] ?] ?] ?] ?]. tauto.
Qed.

(** The loop, as a statement about every expected peer. *)
Lemma peers_confirmed_spec peers earlier rest :
  peers_confirmed peers earlier rest = Ok tt <->
  (forall peer, peer ∈ rest -> exists proof,
     filter (fun proof => pp_attachment_id proof = pe_attachment_id peer) peers = [proof] /\
     proof_confirms proof peer = true) /\
  NoDup (pe_attachment_id <$> rest) /\
  (forall other peer, other ∈ earlier -> peer ∈ rest -> pe_attachment_id other <> pe_attachment_id peer).
Proof.
  revert earlier. induction rest as [|peer rest IH]; intros earlier; simpl.
  { split; [|done]. intros _. split_and!; [set_solver|constructor|set_solver]. }
  rewrite insist_bind, forallb_Forall, Forall_forall. split.
  - intros [Hdup H]. destruct (filter _ peers) as [|proof [|]] eqn:Ef; try done.
    apply insist_bind in H as [Hc H]. apply IH in H as (H1 & H2 & H3). split_and!.
    + intros p [->|Hp]%elem_of_cons; [by exists proof|by apply H1].
    + constructor; [|done]. intros (p & E & Hp)%list_elem_of_fmap. apply (H3 peer p); [set_solver|done|done].
    + intros other p Ho [->|Hp]%elem_of_cons; [|apply H3; set_solver].
      specialize (Hdup other Ho). apply negb_true_iff, bool_decide_eq_false in Hdup. done.
  - intros (H1 & [H2 H2']%NoDup_cons & H3). split.
    + intros other Ho. apply negb_true_iff, bool_decide_eq_false. apply H3; set_solver.
    + destruct (H1 peer ltac:(set_solver)) as (proof & -> & Hc). apply insist_bind. split; [done|].
      apply IH. split_and!; [set_solver|done|]. intros other p [Ho| ->%list_elem_of_singleton]%elem_of_app Hp.
      * apply H3; set_solver.
      * intros E. apply H2, list_elem_of_fmap. eauto.
Qed.

Lemma filter_alone {A B} `{EqDecision B} (f : A -> B) (l : list A) x :
  NoDup (f <$> l) -> x ∈ l -> filter (fun y => f y = f x) l = [x].
Proof.
  induction l as [|y l IH]; [set_solver|]. rewrite fmap_cons, NoDup_cons. intros [Hy Hl] Hx.
  assert (Hnone : forall k, k ∉ f <$> l -> filter (fun y => f y = k) l = []).
  { clear. intros k. induction l as [|z l IH]; [done|]. rewrite fmap_cons, not_elem_of_cons. intros [H1 H2].
    rewrite filter_cons_False by congruence. by apply IH. }
  apply elem_of_cons in Hx as [->|Hx].
  - rewrite filter_cons_True by done. by rewrite Hnone.
  - rewrite filter_cons_False; [by apply IH|]. intros E. apply Hy. rewrite E. by apply list_elem_of_fmap_2.
Qed.

(** The peers that were confirmed are the expected ones, in some order. *)
Lemma confirmed_permutation (peers : list PeerProof) (expected : list PeerExpectation) :
  length expected = length peers -> NoDup (pe_attachment_id <$> expected) ->
  (forall peer, peer ∈ expected -> exists proof,
     filter (fun proof => pp_attachment_id proof = pe_attachment_id peer) peers = [proof] /\
     proof_confirms proof peer = true) ->
  Permutation (reported_identity <$> peers) (expected_identity <$> expected) /\
  Forall (fun peer => expectation_valid peer = true) expected /\
  Forall (fun peer => peer_ready peer = true) peers.
Proof.
  intros Hlen Hdup H.
  assert (Hin : forall peer, peer ∈ expected -> exists proof, proof ∈ peers /\
    filter (fun proof => pp_attachment_id proof = pe_attachment_id peer) peers = [proof] /\
    reported_identity proof = expected_identity peer /\ expectation_valid peer = true /\
    peer_ready proof = true).
  { intros peer Hp. destruct (H peer Hp) as (proof & Hf & Hc). exists proof.
    assert (Hm : proof ∈ filter (fun proof => pp_attachment_id proof = pe_attachment_id peer) peers)
      by (rewrite Hf; set_solver).
    apply list_elem_of_filter in Hm as [Hid Hm]. apply proof_confirms_spec in Hc; [|done]. tauto. }
  assert (Hperm : Permutation (expected_identity <$> expected) (reported_identity <$> peers)).
  { apply NoDup_Permutation_bis.
    - apply NoDup_ListNoDup, (NoDup_fmap_1 (fun x => x.1.1)). by rewrite <- list_fmap_compose.
    - by rewrite !length_fmap, Hlen.
    - intros x Hx. apply list_elem_of_In in Hx. apply list_elem_of_In.
      apply list_elem_of_fmap in Hx as (peer & -> & Hp). destruct (Hin peer Hp) as (proof & Hm & _ & <- & _).
      by apply list_elem_of_fmap_2. }
  split_and!; [by symmetry| |].
  - apply Forall_forall. intros peer Hp. destruct (Hin peer Hp) as (? & _ & _ & _ & ? & _). done.
  - apply Forall_forall. intros proof Hp.
    assert (Hm : reported_identity proof ∈ expected_identity <$> expected)
      by (rewrite Hperm; by apply list_elem_of_fmap_2).
    apply list_elem_of_fmap in Hm as (peer & E & He). destruct (Hin peer He) as (proof' & _ & Hf & _ & _ & Hr).
    assert (Hm : proof ∈ filter (fun proof => pp_attachment_id proof = pe_attachment_id peer) peers).
    { apply list_elem_of_filter. split; [|done]. by injection E. }
    rewrite Hf in Hm. by apply list_elem_of_singleton in Hm as ->.
Qed.

Lemma permutation_confirmed (peers : list PeerProof) (expected : list PeerExpectation) :
  NoDup (pe_attachment_id <$> expected) ->
  Permutation (reported_identity <$> peers) (expected_identity <$> expected) ->
  Forall (fun peer => expectation_valid peer = true) expected ->
  Forall (fun peer => peer_ready peer = true) peers ->
  forall peer, peer ∈ expected -> exists proof,
    filter (fun proof => pp_attachment_id proof = pe_attachment_id peer) peers = [proof] /\
    proof_confirms proof peer = true.
Proof.
  intros Hdup Hperm Hv Hr peer Hp. rewrite Forall_forall in Hv. rewrite Forall_forall in Hr.
  assert (Hm : expected_identity peer ∈ reported_identity <$> peers)
    by (rewrite Hperm; by apply list_elem_of_fmap_2).
  apply list_elem_of_fmap in Hm as (proof & E & Hm). exists proof.
  assert (Hid : pp_attachment_id proof = pe_attachment_id peer) by (by injection E).
  split; [|apply proof_confirms_spec; auto].
  assert (Hdup' : NoDup (pp_attachment_id <$> peers)).
  { apply (fmap_Permutation fst), (fmap_Permutation fst) in Hperm.
    rewrite <- !list_fmap_compose in Hperm.
    assert (Hids : Permutation (pp_attachment_id <$> peers) (pe_attachment_id <$> expected)) by exact Hperm.
    by rewrite Hids. }
  rewrite <- (filter_alone pp_attachment_id peers proof Hdup' Hm). apply list_filter_iff. intros x. by rewrite Hid.
Qed.

(** C38. An installation proof, exactly: it is accepted if and only if it is in phase
    [installed], neither forced nor failed, names the transaction, domain, epoch, authority
    and packet slot of the envelope, and its peers are, up to their order, precisely the
    expected ones, each of them once, well formed, prepared, installed and probed both ways. *)
Theorem installed_exact proof e expected :
  require_installed proof e expected = Ok tt <->
  cp_phase proof = "installed"%string /\ cp_forced_retirement proof = false /\
  cp_schema_version proof = 1 /\ cp_transaction_id proof = ae_transaction_id e /\
  cp_local proof = mkLocalProof (routing_domain_id (ae_binding e)) (owner_epoch (ae_binding e))
                     (ae_signed_control_hash e) (ae_binding e) /\
  expected <> [] /\ NoDup (pe_attachment_id <$> expected) /\
  Permutation (reported_identity <$> cp_peers proof) (expected_identity <$> expected) /\
  Forall (fun peer => expectation_valid peer = true) expected /\
  Forall (fun peer => peer_ready peer = true /\ pp_drain_failed peer = false) (cp_peers proof).
Proof.
  unfold require_installed, require_identity. rewrite !insist_bind, peers_confirmed_spec.
  rewrite !andb_true_iff, !bool_decide_eq_true, !negb_true_iff, !Z.eqb_eq, bool_decide_eq_false,
    Nat.eqb_eq, forallb_Forall, Forall_and.
  assert (Hf : Forall (fun x => negb (pp_drain_failed x) = true) (cp_peers proof) <->
               Forall (fun x => pp_drain_failed x = false) (cp_peers proof)).
  { apply Forall_iff. intros x. by destruct (pp_drain_failed x). }
  rewrite Hf. destruct (cp_local proof) as [d oe au sl]. simpl. split.
  - intros ([[H1 H2] H3] & [[[[[H4 H5] H6] H7] H8] H9] & [H10 H11] & H12 & H13 & _).
    destruct (confirmed_permutation _ _ H11 H13 H12) as (P1 & P2 & P3). split_and!; try done. by f_equal.
  - intros (H1 & H2 & H4 & H5 & [= H6 H7 H8 H9] & H10 & H13 & P1 & P2 & P3 & H3).
    split_and!; try done.
    + by apply Permutation_length in P1; rewrite !length_fmap in P1.
    + by apply permutation_confirmed.
    + set_solver.
Qed.
