(* ===== verification/CandidateRuns.v ===== *)
(** * Candidate ownership: histories of the agent

    The agent with its journal and its link to the TUN process, the steps it can take, among
    them the crash and the restart from the journal, and what the journal guarantees: no
    commit is asked for before the intent to commit is durable. *)
From stdpp Require Import base tactics list numbers option sets relations strings.
From Stdlib Require Import ZArith Lia.
From S2P Require Import Prelude PacketPort PortManager ProcessControl Tunio TunioOps TunioRuns Candidate CandidateFacts.

#[local] Open Scope Z_scope.

(** ** The link and the journal

    [tun] is the TUN process as it runs beside the agent, [stored] the record in the journal,
    [asked] the requests that were handed to the control socket. An exchange that returns a
    reply was served at some moment between the call and its return; one that fails may have
    been served or not, as [tun] may take any steps. A failed [persist] may have stored the
    record nevertheless. *)
Class AgentLink (W X : Type) `{!TunioHost W} `{!AgentHost X} := {
  tun : X -> Tunio W;
  stored : X -> option CandidateOwner;
  asked : X -> list AuthorityControlRequest;
  nonce_link x :
    let x' := (fresh_nonce x).2 in
    rtc tunio_step (tun x) (tun x') /\ stored x' = stored x /\ asked x' = asked x;
  persist_link o x :
    let '(r, x') := persist o x in
    rtc tunio_step (tun x) (tun x') /\ asked x' = asked x /\
    (stored x' = Some o \/ is_ok r = false /\ stored x' = stored x);
  exchange_link request port x :
    let '(r, x') := exchange request port x in
    stored x' = stored x /\ asked x' = asked x ++ [request] /\
    match r with
    | Ok reply => exists s peer fds, rtc tunio_step (tun x) s /\
        (serve_authority request peer fds s).1 = reply /\
        rtc tunio_step (serve_authority request peer fds s).2 (tun x')
    | Err _ => rtc tunio_step (tun x) (tun x')
    end;
}.

Section Runs.
Context {W X : Type} `{!TunioHost W} `{!AgentHost X} `{!AgentLink W X}.
Implicit Types (a : Agent X) (o : CandidateOwner) (x : X).
#[local] Abbreviation AgentM := (@Candidate.AgentM X).

(** ** The steps *)

Inductive agent_step a : Agent X -> Prop :=
| agent_prepare base port now : agent_step a (prepare_with base port now a).2
| agent_promote base proof : agent_step a (promote_with base proof a).2
| agent_failure reply : agent_step a (record_committed_failure reply a).2
| agent_isolation reply : agent_step a (record_committed_isolation reply a).2
| agent_recover request : agent_step a (recover_precommit_with request a).2
| agent_retire request : agent_step a (retire_expired_commit_with request a).2
(** What the driver asks by itself: stages, probes, drains, isolations. *)
| agent_other request port :
    ar_operation request <> OpCommitOwner ->
    agent_step a (mkAgent (held a) (exchange request port (outside a)).2)
(** The TUN process and the rest of the world go on. *)
| agent_elsewhere x' :
    rtc tunio_step (tun (outside a)) (tun x') -> stored x' = stored (outside a) ->
    asked x' = asked (outside a) -> agent_step a (mkAgent (held a) x')
(** A crash: the memory is lost, the record is read again. *)
| agent_restart o : stored (outside a) = Some o -> agent_step a (mkAgent o (outside a)).

(** A new record, made durable, before any request to commit. *)
Definition agent_started a : Prop :=
  (exists e expected deadline peers, CandidateOwner_new e expected deadline peers = Ok (held a)) /\
  stored (outside a) = Some (held a) /\
  forall request, request ∈ asked (outside a) -> ar_operation request <> OpCommitOwner.

(** ** The invariant *)

(** What no operation changes. *)
Definition same_plan o o' : Prop :=
  co_envelope o' = co_envelope o /\ co_expected_active o' = co_expected_active o /\
  co_prepare_deadline_mono_ms o' = co_prepare_deadline_mono_ms o /\
  co_expected_peers o' = co_expected_peers o.

(** A record is for a commit, or it is cancelled. *)
Definition undecided_once o : Prop := commit_intent o = true -> precommit_cancellation o = None.

Definition asks_commit (e : AuthorityEnvelope) (request : AuthorityControlRequest) : Prop :=
  ar_operation request = OpCommitOwner /\ ar_envelope request = Some e /\
  ar_transaction_id request = ae_transaction_id e.

(** The commits that were asked for are those of this record, and then the intent is both in
    memory and in the journal. *)
Record journaled o0 a : Prop := {
  jn_held : same_plan o0 (held a);
  jn_decided : undecided_once (held a);
  jn_stored : exists o, stored (outside a) = Some o /\ same_plan o0 o /\ undecided_once o /\
    (commit_intent o = true -> commit_intent (held a) = true);
  jn_asked request : request ∈ asked (outside a) -> ar_operation request = OpCommitOwner ->
    asks_commit (co_envelope o0) request /\
    exists o, stored (outside a) = Some o /\ commit_intent o = true;
}.

Lemma same_plan_refl o : same_plan o o.
Proof. by split_and!. Qed.

Lemma started_journaled a : agent_started a -> journaled (held a) a.
Proof.
  intros ((e & ex & d & ps & Hnew) & Hst & Hno).
  assert (Hi : commit_intent (held a) = false).
  { unfold CandidateOwner_new in Hnew. apply result_bind_Ok in Hnew as (? & _ & Hnew).
    apply insist_bind in Hnew as [_ Hnew]. injection Hnew as <-. done. }
  constructor.
  - apply same_plan_refl.
  - unfold undecided_once. congruence.
  - exists (held a). split_and!; [done|apply same_plan_refl|unfold undecided_once; congruence|done].
  - intros request Hr Hop. by destruct (Hno request Hr).
Qed.

(** *** What the parts of an operation do to it *)

(** The record in memory may take the intent on, and then nothing else. *)
Lemma journaled_held o0 a o :
  journaled o0 a -> same_plan o0 o -> undecided_once o ->
  (commit_intent (held a) = true -> commit_intent o = true) -> journaled o0 (mkAgent o (outside a)).
Proof.
  intros [H1 H2 (os & Hs & Hp & Hu & Hi) H4] Hpl Hun Hint. constructor; simpl; [done|done| |done].
  exists os. split_and!; try done. auto.
Qed.

Lemma journaled_outside o0 a x' :
  journaled o0 a -> stored x' = stored (outside a) -> asked x' = asked (outside a) ->
  journaled o0 (mkAgent (held a) x').
Proof.
  intros [H1 H2 H3 H4] Hs Ha. constructor; simpl; rewrite ?Hs, ?Ha; try done.
Qed.

Lemma persist_wp o0 a (Q : Result string unit -> Agent X -> Prop) :
  journaled o0 a ->
  (forall r a', held a' = held a -> journaled o0 a' ->
     (is_ok r = true -> stored (outside a') = Some (held a)) -> Q r a') ->
  wp (persist_self : AgentM unit) Q a.
Proof.
  intros [H1 H2 (os & Hs & Hp & Hu & Hi) H4] HQ. unfold persist_self, wp, mbind, self, gets, beyond. simpl.
  pose proof (persist_link (held a) (outside a)) as Hl.
  destruct (persist (held a) (outside a)) as [r x']. destruct Hl as (_ & Ha & Hst).
  apply HQ; [done| |].
  - constructor; simpl; [done|done| |].
    + destruct Hst as [->|[_ ->]]; [exists (held a)|exists os]; by split_and!.
    + rewrite Ha. intros request Hr Hop. destruct (H4 request Hr Hop) as (Hc & o & Ho & Hio). split; [done|].
      destruct Hst as [->|[_ ->]]; [exists (held a)|by exists o]. split; [done|].
      apply Hi. congruence.
  - simpl. intros Hok. destruct Hst as [->|[Hr _]]; [done|congruence].
Qed.

Lemma exchange_wp o0 a request port (Q : Result string AuthorityControlResponse -> Agent X -> Prop) :
  journaled o0 a ->
  (ar_operation request = OpCommitOwner -> asks_commit (co_envelope o0) request /\
     exists o, stored (outside a) = Some o /\ commit_intent o = true) ->
  (forall r a', held a' = held a -> stored (outside a') = stored (outside a) -> journaled o0 a' -> Q r a') ->
  wp (beyond (exchange request port) : AgentM _) Q a.
Proof.
  intros [H1 H2 H3 H4] Hc HQ. unfold wp, beyond.
  pose proof (exchange_link request port (outside a)) as Hl.
  destruct (exchange request port (outside a)) as [r x']. destruct Hl as (Hs & Ha & _).
  apply HQ; [done|done|]. constructor; simpl; rewrite ?Hs; [done|done|done|].
  intros rq Hr Hop. rewrite Ha in Hr. apply elem_of_app in Hr as [Hr| ->%list_elem_of_singleton]; auto.
Qed.

Lemma self_wp (Q : Result string CandidateOwner -> Agent X -> Prop) a :
  Q (Ok (held a)) a -> wp (self : AgentM _) Q a.
Proof. done. Qed.

Lemma update_wp f (Q : Result string unit -> Agent X -> Prop) a :
  Q (Ok tt) (mkAgent (f (held a)) (outside a)) -> wp (update_self f : AgentM _) Q a.
Proof. done. Qed.

Lemma exchange_or_probe_wp o0 a request port code (Q : Result string AuthorityControlResponse -> Agent X -> Prop) :
  journaled o0 a ->
  (ar_operation request = OpCommitOwner -> asks_commit (co_envelope o0) request /\
     exists o, stored (outside a) = Some o /\ commit_intent o = true) ->
  (forall r a', held a' = held a -> journaled o0 a' -> Q r a') ->
  wp (exchange_or_probe request port code : AgentM _) Q a.
Proof.
  intros Hj Hc HQ. unfold exchange_or_probe. apply wp_mbind, wp_attempt.
  apply (exchange_wp o0); [done|done|]. intros r a1 Hh Hs Hj1. destruct r as [reply|].
  { apply wp_mret. by apply HQ. }
  apply wp_mbind. unfold wp at 1, beyond. destruct (fresh_nonce (outside a1)) as [n x] eqn:En.
  pose proof (nonce_link (outside a1)) as (_ & Hst & Has). rewrite En in Hst, Has. simpl in *.
  pose proof (journaled_outside o0 a1 x Hj1 Hst Has) as Hj2.
  apply wp_mbind, wp_attempt. apply (exchange_wp o0); [done|done|].
  intros r a2 Hh2 _ Hj3. apply wp_lift, HQ; [|done]. rewrite Hh2. done.
Qed.

(** *** Every step keeps it *)

Ltac agent_paths :=
  repeat lazymatch goal with
  | |- wp (mbind _ _) _ _ => apply wp_mbind; cbv beta
  | |- wp self _ _ => apply self_wp; cbv beta iota
  | |- wp (lift _) _ _ => apply wp_lift
  | |- wp (mret _) _ _ => apply wp_mret
  | |- wp (observe_self _) _ _ => unfold observe_self
  | |- match ?r with Ok _ => _ | Err _ => _ end => destruct r eqn:?; [|done]
  end.

Definition keeps {T} (m : AgentM T) : Prop :=
  forall o0 a, journaled o0 a -> wp m (fun _ a' => journaled o0 a') a.

Lemma keeps_step {T} (m : AgentM T) o0 a : keeps m -> journaled o0 a -> journaled o0 (m a).2.
Proof. intros Hm Hj. specialize (Hm o0 a Hj). unfold wp in Hm. by destruct (m a). Qed.

Lemma persist_keeps o0 a : journaled o0 a -> wp (persist_self : AgentM unit) (fun _ a' => journaled o0 a') a.
Proof. intros Hj. by apply (persist_wp o0). Qed.

Lemma prepare_keeps base port now : keeps (prepare_with base port now).
Proof.
  intros o0 a Hj. unfold prepare_with. agent_paths.
  assert (Hop : ar_operation a0 <> OpCommitOwner).
  { unfold prepare_request in *. apply insist_bind in Heqr as [_ [= <-]]. done. }
  apply (persist_wp o0); [done|]. intros r b1 _ Hj1 _. destruct r as [[]|]; [|done].
  apply wp_mbind. apply (exchange_or_probe_wp o0); [done|done|]. intros r b2 _ Hj2.
  destruct r; [|done]. by agent_paths.
Qed.

Lemma promote_keeps base proof : keeps (promote_with base proof).
Proof.
  intros o0 a Hj. unfold promote_with, begin_commit. agent_paths.
  apply insist_ok in Heqr. apply andb_true_iff in Heqr as [[Hnone _]%andb_true_iff _].
  apply update_wp. agent_paths.
  assert (Hj1 : journaled o0 (mkAgent (with_commit_intent true (held a)) (outside a))).
  { apply journaled_held; [done|apply Hj|intros _|done].
    apply negb_true_iff, bool_decide_eq_false, eq_None_not_Some in Hnone. done. }
  apply (persist_wp o0); [done|]. intros r b1 Hh Hj2 Hst. simpl in Hh, Hst. destruct r as [[]|]; [|done].
  agent_paths. rename select (commit_request _ _ _ = _) into Hrq. apply (exchange_or_probe_wp o0); [done| |].
  - intros _. unfold commit_request in Hrq. apply result_bind_Ok in Hrq as (? & _ & Hrq).
    apply insist_bind in Hrq as [_ Hrq]. apply insist_bind in Hrq as [_ [= <-]].
    destruct (jn_held _ _ Hj2) as (E & _). split; [by rewrite <- E|].
    eexists. split; [by apply Hst|done].
  - intros r b2 _ Hj3. destruct r; [|done]. by agent_paths.
Qed.

Lemma failure_keeps reply : keeps (record_committed_failure reply).
Proof.
  intros o0 a Hj. unfold record_committed_failure. agent_paths.
  destruct (committed_failure (held a)); agent_paths.
  - by apply persist_keeps.
  - apply update_wp, persist_keeps, journaled_held; [done|apply Hj|apply Hj|done].
Qed.

Lemma isolation_keeps reply : keeps (record_committed_isolation reply).
Proof.
  intros o0 a Hj. unfold record_committed_isolation. agent_paths.
  apply update_wp. agent_paths. apply persist_keeps, journaled_held; [done|apply Hj|apply Hj|done].
Qed.

Lemma recover_keeps request : keeps (recover_precommit_with request).
Proof.
  intros o0 a Hj. unfold recover_precommit_with. agent_paths.
  apply insist_ok, negb_true_iff in Heqr.
  apply (exchange_wp o0); [done|done|]. intros r b1 Hh _ Hj1. destruct r as [reply|]; [|done].
  agent_paths. destruct (rs_precommit_cancelled reply); agent_paths; [|done].
  apply update_wp. agent_paths.
  assert (Hj2 : journaled o0 (mkAgent (with_cancellation (Some reply) (held b1)) (outside b1))).
  { apply journaled_held; [done|apply Hj1| |done]. unfold undecided_once. simpl. rewrite Hh. congruence. }
  apply (persist_wp o0); [done|]. intros r b2 _ Hj3 _. destruct r; [|done]. by agent_paths.
Qed.

Lemma retire_keeps request : keeps (retire_expired_commit_with request).
Proof.
  intros o0 a Hj. unfold retire_expired_commit_with. agent_paths.
  apply (exchange_wp o0); [done|done|]. intros r b1 Hh _ Hj1. destruct r as [reply|]; [|done].
  agent_paths. apply update_wp. agent_paths.
  apply persist_keeps, journaled_held; [done|apply Hj1|apply Hj1|done].
Qed.

Lemma step_journaled o0 a a' : journaled o0 a -> agent_step a a' -> journaled o0 a'.
Proof.
  intros Hj Hs. destruct Hs as [base port now|base proof|reply|reply|request|request|request port Hop|x' _ Hs Ha|o Ho].
  - by apply keeps_step, Hj; apply prepare_keeps.
  - by apply keeps_step, Hj; apply promote_keeps.
  - by apply keeps_step, Hj; apply failure_keeps.
  - by apply keeps_step, Hj; apply isolation_keeps.
  - by apply keeps_step, Hj; apply recover_keeps.
  - by apply keeps_step, Hj; apply retire_keeps.
  - assert (H : wp (beyond (exchange request port) : AgentM _) (fun _ a' => journaled o0 a') a)
      by (by apply (exchange_wp o0)).
    unfold wp, beyond in H. by destruct (exchange request port (outside a)).
  - by apply journaled_outside.
  - destruct Hj as [H1 H2 (os & Hs & Hp & Hu & Hi) H4]. assert (os = o) as -> by congruence.
    constructor; simpl; [done|done| |done]. exists o. by split_and!.
Qed.

Lemma run_journaled o0 a a' : journaled o0 a -> rtc agent_step a a' -> journaled o0 a'.
Proof. intros Hj H. induction H as [|a1 a2 a3 Hs _ IH]; [done|]. by eapply IH, step_journaled. Qed.

(** C13. The record is written ahead: over any history of the agent, with failed exchanges,
    failed writes, crashes and restarts, once a commit was handed to the control socket, it is
    that of the one envelope, the journal holds the intent to commit, and from then on the
    agent neither prepares the candidate again nor tries to recover it as never prepared: both
    operations refuse without asking or writing anything. *)
Theorem commit_written_ahead a0 a request :
  agent_started a0 -> rtc agent_step a0 a ->
  request ∈ asked (outside a) -> ar_operation request = OpCommitOwner ->
  asks_commit (co_envelope (held a0)) request /\
  (exists o, stored (outside a) = Some o /\ commit_intent o = true /\ precommit_cancellation o = None) /\
  (forall base, recover_precommit_with base a = (Err "candidate_owner_commit_unknown"%string, a)) /\
  (forall base port now, prepare_with base port now a = (Err "candidate_owner_prepare_invalid"%string, a)).
Proof.
  intros H0 Hrun Hr Hop. pose proof (run_journaled _ a0 a (started_journaled a0 H0) Hrun) as [J1 J2 J3 J4].
  destruct (J4 request Hr Hop) as (Hc & o & Ho & Hi). destruct J3 as (os & Hs & _ & Hu & Hi').
  assert (os = o) as -> by congruence. specialize (Hi' Hi). destruct a as [h x]. simpl in *.
  split_and!; [done|exists o; split_and!; auto| |].
  - intros base. unfold recover_precommit_with, mbind, self, gets, lift, insist. simpl. by rewrite Hi'.
  - intros base port now. unfold prepare_with, mbind, self, gets, lift, prepare_request, insist. simpl.
    by rewrite Hi'.
Qed.
(** ** After an isolation *)

Definition is_isolated o : Prop := is_Some (committed_isolation o).

(** The isolation is recorded, in memory and in the journal, and since [before] was all that
    had been asked no commit was. *)
Record isolated_since (before : list AuthorityControlRequest) a : Prop := {
  iso_held : is_isolated (held a);
  iso_stored : exists o, stored (outside a) = Some o /\ is_isolated o;
  iso_asked : exists l, asked (outside a) = before ++ l /\
    Forall (fun request => ar_operation request <> OpCommitOwner) l;
}.

Lemma isolated_held before a o :
  isolated_since before a -> is_isolated o -> isolated_since before (mkAgent o (outside a)).
Proof. by intros [H1 H2 H3] Ho; constructor. Qed.

Lemma isolated_outside before a x' :
  isolated_since before a -> stored x' = stored (outside a) -> asked x' = asked (outside a) ->
  isolated_since before (mkAgent (held a) x').
Proof. intros [H1 H2 H3] Hs Ha. by constructor; simpl; rewrite ?Hs, ?Ha. Qed.

Lemma isolated_persist before a (Q : Result string unit -> Agent X -> Prop) :
  isolated_since before a -> (forall r a', isolated_since before a' -> Q r a') ->
  wp (persist_self : AgentM unit) Q a.
Proof.
  intros [H1 (o & Hs & Ho) H3] HQ. unfold persist_self, wp, mbind, self, gets, beyond. simpl.
  pose proof (persist_link (held a) (outside a)) as Hl.
  destruct (persist (held a) (outside a)) as [r x']. destruct Hl as (_ & Ha & Hst).
  apply HQ. constructor; simpl; [done| |by rewrite Ha].
  destruct Hst as [->|[_ ->]]; [by exists (held a)|by exists o].
Qed.

Lemma isolated_exchange before a request port (Q : Result string AuthorityControlResponse -> Agent X -> Prop) :
  isolated_since before a -> ar_operation request <> OpCommitOwner ->
  (forall r a', held a' = held a -> isolated_since before a' -> Q r a') ->
  wp (beyond (exchange request port) : AgentM _) Q a.
Proof.
  intros [H1 H2 (l & E & Hl)] Hop HQ. unfold wp, beyond.
  pose proof (exchange_link request port (outside a)) as Hk.
  destruct (exchange request port (outside a)) as [r x']. destruct Hk as (Hs & Ha & _).
  apply HQ; [done|]. constructor; simpl; rewrite ?Hs; [done|done|].
  exists (l ++ [request]). rewrite Ha, E, <- app_assoc. split; [done|].
  apply Forall_app. split; [done|by constructor].
Qed.

Definition keeps_isolated {T} (m : AgentM T) : Prop :=
  forall before a, isolated_since before a -> wp m (fun _ a' => isolated_since before a') a.

(** Nothing commits it: the attempt ends before anything is written or asked. *)
Lemma isolated_promote base proof a :
  is_isolated (held a) -> promote_with base proof a = (Err "candidate_owner_cancelled"%string, a).
Proof.
  destruct a as [h x]. intros [r Hr]. simpl in Hr.
  unfold promote_with, begin_commit, mbind, self, gets, lift, insist. simpl. rewrite Hr.
  by rewrite !andb_false_r.
Qed.

Lemma isolated_prepare base port now : keeps_isolated (prepare_with base port now).
Proof.
  intros before a Hi. unfold prepare_with. agent_paths. exfalso.
  unfold prepare_request in *. apply insist_bind in Heqr as [Hn _].
  rewrite !andb_true_iff in Hn. destruct Hn as ((((_ & Hn) & _) & _) & _).
  apply negb_true_iff, bool_decide_eq_false in Hn. by apply Hn, (iso_held _ _ Hi).
Qed.

Lemma isolated_failure reply : keeps_isolated (record_committed_failure reply).
Proof.
  intros before a Hi. unfold record_committed_failure. agent_paths.
  destruct (committed_failure (held a)); agent_paths; [by apply (isolated_persist before)|].
  apply update_wp, (isolated_persist before); [|done]. apply isolated_held; [done|apply (iso_held _ _ Hi)].
Qed.

Lemma isolated_isolation reply : keeps_isolated (record_committed_isolation reply).
Proof.
  intros before a Hi. unfold record_committed_isolation. agent_paths. apply update_wp. agent_paths.
  apply (isolated_persist before); [|done]. apply isolated_held; [done|by eexists].
Qed.

Lemma isolated_recover request : keeps_isolated (recover_precommit_with request).
Proof.
  intros before a Hi. unfold recover_precommit_with. agent_paths.
  apply (isolated_exchange before); [done|done|]. intros r b1 Hh Hi1. destruct r as [reply|]; [|done].
  agent_paths. destruct (rs_precommit_cancelled reply); agent_paths; [|done].
  apply update_wp. agent_paths. apply (isolated_persist before).
  - apply isolated_held; [done|apply (iso_held _ _ Hi1)].
  - intros r b2 Hi2. destruct r; [|done]. by agent_paths.
Qed.

Lemma isolated_retire request : keeps_isolated (retire_expired_commit_with request).
Proof.
  intros before a Hi. unfold retire_expired_commit_with. agent_paths.
  apply (isolated_exchange before); [done|done|]. intros r b1 Hh Hi1. destruct r as [reply|]; [|done].
  agent_paths. apply update_wp. agent_paths. apply (isolated_persist before); [|done].
  apply isolated_held; [done|apply (iso_held _ _ Hi1)].
Qed.

Lemma isolated_step before a a' : isolated_since before a -> agent_step a a' -> isolated_since before a'.
Proof.
  assert (Hk : forall T (m : AgentM T) a, keeps_isolated m -> isolated_since before a -> isolated_since before (m a).2).
  { intros T m b Hm Hb. specialize (Hm before b Hb). unfold wp in Hm. by destruct (m b). }
  intros Hi Hs. destruct Hs as [base port now|base proof|reply|reply|request|request|request port Hop|x' _ Hs Ha|o Ho].
  - apply Hk, Hi. apply isolated_prepare.
  - by rewrite (isolated_promote base proof a (iso_held _ _ Hi)).
  - apply Hk, Hi. apply isolated_failure.
  - apply Hk, Hi. apply isolated_isolation.
  - apply Hk, Hi. apply isolated_recover.
  - apply Hk, Hi. apply isolated_retire.
  - assert (H : wp (beyond (exchange request port) : AgentM _) (fun _ a' => isolated_since before a') a)
      by (by apply (isolated_exchange before)).
    unfold wp, beyond in H. by destruct (exchange request port (outside a)).
  - by apply isolated_outside.
  - destruct (iso_stored _ _ Hi) as (os & Hs & Hos). apply isolated_held; [done|]. congruence.
Qed.

Lemma isolated_run before a a' : isolated_since before a -> rtc agent_step a a' -> isolated_since before a'.
Proof. intros Hi H. induction H as [|a1 a2 a3 Hs _ IH]; [done|]. by eapply IH, isolated_step. Qed.

(** The record of an isolation that succeeds starts it. *)
Lemma isolation_starts reply a a' :
  record_committed_isolation reply a = (Ok tt, a') -> isolated_since (asked (outside a')) a'.
Proof.
  intros E. assert (H : wp (record_committed_isolation reply)
    (fun r a' => r = Ok tt -> isolated_since (asked (outside a')) a') a); [|by apply (wp_run _ _ _ _ _ H E)].
  unfold record_committed_isolation. agent_paths. apply update_wp. agent_paths.
  unfold persist_self, wp, mbind, self, gets, beyond. simpl.
  match goal with |- context [persist ?o ?x] => pose proof (persist_link o x) as Hl; destruct (persist o x) as [r x'] end.
  destruct Hl as (_ & _ & Hst). simpl in *. intros ->. destruct Hst as [Hst|[? _]]; [|done].
  constructor; simpl; [by eexists|eexists; split; [done|by eexists]|].
  exists []. by rewrite app_nil_r.
Qed.
End Runs.
