(* ===== verification/CandidateConclusions.v ===== *)
(** * Candidate ownership: what the agent concludes

    The operations of the agent ([Candidate]) against the TUN process ([TunioOps]), over the
    link of [CandidateRuns]: what an operation concludes of its candidate is so in the process
    and its packet port manager, and two conclusions about one authority, by whatever records
    of the agent and however long apart, agree. *)
From stdpp Require Import base tactics list numbers option sets relations strings.
From Stdlib Require Import ZArith Lia.
From S2P Require Import Prelude PacketPort PortManager PortManagerInv PortManagerSpec ProcessControl Tunio TunioOps TunioRuns TunioMicro TunioFacts TunioRecovery TunioVouched TunioAgreement Candidate CandidateFacts CandidateRuns.

#[local] Open Scope Z_scope.

Section Conclusions.
Context {W X : Type} `{!TunioHost W} `{!AgentHost X} `{!AgentLink W X}.
Implicit Types (a : Agent X) (o : CandidateOwner) (x : X) (s : Tunio W).
#[local] Abbreviation AgentM := (@Candidate.AgentM X).

(** An operation ends with a conclusion. *)
Definition concludes (state : OwnerState) a a' : Prop :=
  (exists base port now, prepare_with base port now a = (Ok state, a')) \/
  (exists base proof, promote_with base proof a = (Ok state, a')) \/
  (exists request, recover_precommit_with request a = (Ok state, a')).

(** ** The reply behind a conclusion *)

(** The reply was served by the TUN process in between. *)
Definition answered x (reply : AuthorityControlResponse) x' : Prop :=
  exists request s peer fds, rtc tunio_step (tun x) s /\
    (serve_authority request peer fds s).1 = reply /\
    rtc tunio_step (serve_authority request peer fds s).2 (tun x').

Definition state_phase (state : OwnerState) : option OwnerTransactionPhase :=
  match state with
  | StPrepared => Some Prepared
  | StCommitted => Some Committed
  | StAborted => Some Aborted
  | StExpired => Some Expired
  | StUnknown | StCancelledBeforePrepare => None
  end.

(** What the reply says then. *)
Definition evidence o (state : OwnerState) (reply : AuthorityControlResponse) : Prop :=
  match state with
  | StUnknown => True
  | StCancelledBeforePrepare => rs_precommit_cancelled reply = Some (co_envelope o)
  | _ => exists t phase, state_phase state = Some phase /\ rs_owner_transaction reply = Some t /\
      or_phase t = phase_text phase /\ receipt_identity o t = true
  end.

Lemma observe_evidence o reply state :
  observe o reply = Ok state -> state <> StCancelledBeforePrepare /\ evidence o state reply.
Proof.
  unfold observe. destruct (rs_owner_transaction reply) as [t|] eqn:Et; [|by intros [= <-]].
  destruct (negb _); [by intros [= <-]|]. intros [[_ Hid]%andb_true_iff H]%insist_bind.
  repeat case_bool_decide; unfold observe_prepared, observe_committed, observe_terminal in H;
    try (apply insist_bind in H as [_ H]); injection H as <-; (split; [done|]); simpl; eauto 10.
Qed.

Lemma answered_around x x0 x1 x' reply :
  rtc tunio_step (tun x) (tun x0) -> answered x0 reply x1 -> rtc tunio_step (tun x1) (tun x') ->
  answered x reply x'.
Proof.
  intros H0 (rq & s & peer & fds & H1 & Hr & H2) H3. exists rq, s, peer, fds.
  split_and!; [by etrans|done|by etrans].
Qed.

Lemma persist_runs a r a' :
  (persist_self : AgentM unit) a = (r, a') ->
  held a' = held a /\ rtc tunio_step (tun (outside a)) (tun (outside a')).
Proof.
  unfold persist_self, mbind, self, gets, beyond. simpl. intros H.
  pose proof (persist_link (held a) (outside a)) as Hl.
  destruct (persist (held a) (outside a)) as [r' x']. injection H as <- <-. split; [done|apply Hl].
Qed.

Lemma exchange_runs a request port r a' :
  (beyond (exchange request port) : AgentM _) a = (r, a') ->
  held a' = held a /\
  match r with
  | Ok reply => answered (outside a) reply (outside a')
  | Err _ => rtc tunio_step (tun (outside a)) (tun (outside a'))
  end.
Proof.
  unfold beyond. pose proof (exchange_link request port (outside a)) as Hl.
  destruct (exchange request port (outside a)) as [r' x']. intros [= <- <-]. split; [done|].
  destruct Hl as (_ & _ & Hl). simpl. destruct r'; [|done].
  destruct Hl as (s & peer & fds & H). by exists request, s, peer, fds.
Qed.

Lemma exchange_or_probe_answered a request port code reply a' :
  (exchange_or_probe request port code : AgentM _) a = (Ok reply, a') ->
  held a' = held a /\ answered (outside a) reply (outside a').
Proof.
  unfold exchange_or_probe. intros H. apply mbind_ok in H as (r & a1 & H1 & H).
  unfold attempt in H1. destruct (beyond (exchange request port) a) as [r0 a0] eqn:E.
  injection H1 as -> ->. destruct (exchange_runs _ _ _ _ _ E) as [Hh Hr]. destruct r as [rp|].
  { by injection H as -> ->. }
  apply mbind_ok in H as (n & a2 & Hn & H). unfold beyond in Hn.
  pose proof (nonce_link (outside a1)) as (Hrun & _). destruct (fresh_nonce (outside a1)) as [n' x].
  injection Hn as -> <-. simpl in Hrun. apply mbind_ok in H as (r & a2 & H1 & H).
  unfold attempt in H1. destruct (beyond (exchange (probe_request request n) None) _) as [r1 a3] eqn:E1.
  injection H1 as -> ->. destruct (exchange_runs _ _ _ _ _ E1) as [Hh1 Hr1]. simpl in *.
  unfold lift, map_err in H. destruct r as [rp|]; [|done]. injection H as -> ->.
  split; [congruence|]. apply (answered_around _ x (outside a')); [by etrans|done|done].
Qed.

Lemma observed_evidence a a1 reply state a' :
  (observe_self reply : AgentM OwnerState) a1 = (Ok state, a') ->
  co_envelope (held a1) = co_envelope (held a) -> expected_epoch (held a1) = expected_epoch (held a) ->
  co_prepare_deadline_mono_ms (held a1) = co_prepare_deadline_mono_ms (held a) ->
  a' = a1 /\ evidence (held a) state reply.
Proof.
  unfold observe_self, mbind, self, gets, lift. intros [= H <-] E1 E2 E3. split; [done|].
  apply observe_evidence in H as [_ H]. unfold evidence, receipt_identity in *.
  by rewrite E1, E2, E3 in H.
Qed.

Lemma lift_ok {T} (r : Result string T) a v a' : (lift r : AgentM T) a = (Ok v, a') -> r = Ok v /\ a' = a.
Proof. by intros [= -> ->]. Qed.

(** Take a run apart: what each part did to the record and to the TUN process. *)
Ltac peel :=
  repeat match goal with
  | H : mbind _ _ _ = (Ok _, _) |- _ => let Hm := fresh "Hm" in apply mbind_ok in H as (? & ? & Hm & H)
  | H : self _ = (Ok _, _) |- _ => injection H as <- <-
  | H : lift _ _ = (Ok _, _) |- _ => apply lift_ok in H as [? ->]
  | H : mret _ _ = (Ok _, _) |- _ => injection H as <- <-
  | H : update_self _ _ = (Ok _, _) |- _ => injection H as _ <-
  | H : persist_self _ = (Ok _, _) |- _ => apply persist_runs in H as [? ?]
  | H : exchange_or_probe _ _ _ _ = (Ok _, _) |- _ => apply exchange_or_probe_answered in H as [? ?]
  | H : beyond (exchange _ _) _ = (Ok _, _) |- _ => apply exchange_runs in H as [? ?]
  end; simpl in *.

Lemma conclusion_evidence state a a' :
  concludes state a a' ->
  exists reply, answered (outside a) reply (outside a') /\ evidence (held a) state reply.
Proof.
  intros [(base & port & now & H)|[(base & proof & H)|(request & H)]].
  - unfold prepare_with in H. peel.
    match goal with H : answered _ ?reply _ |- _ => exists reply end.
    destruct (observed_evidence a _ _ _ _ H) as [-> He]; [congruence..|]. split; [|done].
    by eapply answered_around.
  - unfold promote_with, begin_commit in H. peel.
    match goal with H : answered _ ?reply _ |- _ => exists reply end.
    match goal with H1 : held ?x = held ?y, H2 : held ?y = with_commit_intent true _ |- _ =>
      assert (E : held x = with_commit_intent true (held a)) by congruence end.
    destruct (observed_evidence a _ _ _ _ H) as [-> He]; rewrite ?E; [done..|]. split; [|done].
    by eapply answered_around.
  - unfold recover_precommit_with in H. peel.
    match goal with H : answered _ ?reply _ |- _ => exists reply; destruct (rs_precommit_cancelled reply) eqn:Ec end.
    + peel. split; [by eapply answered_around|].
      match goal with H : insist (cancellation_confirmed _ _ _) _ = _ |- _ => apply insist_ok in H; rename H into Hc end.
      unfold cancellation_confirmed in Hc. rewrite !andb_true_iff, !bool_decide_eq_true in Hc. tauto.
    + destruct (observed_evidence a _ _ _ _ H) as [-> He]; [congruence..|]. done.
Qed.

Lemma answered_run x reply x' : answered x reply x' -> rtc tunio_step (tun x) (tun x').
Proof. intros (rq & s & peer & fds & H1 & _ & H2). etrans; [done|]. etrans; [apply served_run|done]. Qed.

Lemma concluded_run state a a' : concludes state a a' -> rtc tunio_step (tun (outside a)) (tun (outside a')).
Proof. intros Hc. destruct (conclusion_evidence _ _ _ Hc) as (reply & H & _). by eapply answered_run. Qed.

(** ** Conclusions are true *)

(** The manager has the transaction of the record, at [phase], and says so of its revision from
    now on. *)
Definition settled_from o (phase : OwnerTransactionPhase) s : Prop :=
  exists tx, revision tx = ae_revision (co_envelope o) /\ tx_binding tx = ae_binding (co_envelope o) /\
    expected_active_epoch tx = expected_epoch o /\
    once (fun b => seen (handover b) tx phase) (bridge s) /\
    forall s' tx' phase', rtc tunio_step s s' -> seen (handover (bridge s')) tx' phase' ->
      revision tx' = revision tx -> tx' = tx /\ (phase <> Prepared -> phase' = phase).

(** The authority of the record never comes to anything. *)
Definition void_from o s : Prop := forall s', rtc tunio_step s s' ->
  staged (authority (ctl s')) <> Some (co_envelope o) /\
  active (authority (ctl s')) <> Some (co_envelope o) /\
  forall tx phase, seen (handover (bridge s')) tx phase -> revision tx <> ae_revision (co_envelope o).

Lemma receipt_settled o request peer fds s s' t phase :
  let '(reply, s1) := serve_authority request peer fds s in
  tunio_reachable s -> rtc tunio_step s1 s' -> rs_owner_transaction reply = Some t ->
  receipt_identity o t = true -> or_phase t = phase_text phase -> settled_from o phase s'.
Proof.
  pose proof (serve_reached s request peer fds) as Hr1. pose proof (served_displays s request peer fds t) as Hd.
  destruct (serve_authority request peer fds s) as [reply s1]. simpl in *. intros Hr Hrun Ht Hid Hph.
  specialize (Hr1 Hr). destruct (displayed_said s1 _ t Hr1 (Hd Ht)) as (r & ph & _ & _ & Hrep & Honce).
  unfold receipt_identity in Hid. rewrite !andb_true_iff, !bool_decide_eq_true, !Z.eqb_eq in Hid.
  destruct Hid as ((((E1 & E2) & E3) & _) & _), Hrep as (R1 & R2 & R3 & R4).
  assert (ph = phase) as -> by (destruct ph, phase; simpl in *; congruence).
  assert (Hrun' : forall s'', rtc tunio_step s1 s'' -> rtc manager_step (bridge s1) (bridge s'')).
  { intros s'' H. destruct (reachable_sound s1 Hr1) as [Hst Hok].
    by apply (micros_managers (K:=fun _ => True)), run_micros. }
  exists (oa_transaction r). split_and!; [congruence..| |].
  - eapply once_later; [done|]. by apply Hrun'.
  - intros s2 tx' phase' H Hseen Hrev. apply (once_settled (bridge s2) (oa_transaction r) phase); [|done|done].
    eapply once_later; [done|]. apply Hrun'. by trans s'.
Qed.

Lemma cancellation_void o request peer fds s s' :
  let '(reply, s1) := serve_authority request peer fds s in
  tunio_reachable s -> rtc tunio_step s1 s' -> rs_precommit_cancelled reply = Some (co_envelope o) ->
  void_from o s'.
Proof.
  pose proof (serve_reached s request peer fds) as Hr1.
  pose proof (served_cancelled s request peer fds (co_envelope o)) as Hc.
  destruct (serve_authority request peer fds s) as [reply s1]. simpl in *. intros Hr Hrun He s2 Hrun2.
  pose proof (reachable_cancelled s1 (Hr1 Hr)) as Hok. assert (Hrun' : rtc tunio_step s1 s2) by (by trans s').
  destruct (run_given_up s1 s2 _ Hok (proj2 (proj2 (proj2 Hok)) _ (Hc He)) Hrun') as [_ G2 G3 _ G5].
  split_and!; [|done|done]. intros H. apply G2 in H. lia.
Qed.

(** C8. What the agent concludes is so: an operation that ends in Prepared, Committed, Aborted or
    Expired leaves a TUN process whose packet port manager has had, at that phase, the
    transaction with the revision, the binding and the expected predecessor of the agent's
    record. Every later receipt of this revision names that same transaction, at the same
    phase if it was Committed, Aborted or Expired, and possibly at a later one if it was
    Prepared. An operation that ends in CancelledBeforePrepare leaves a TUN process in which this authority is never staged, never
    active and never part of a transaction. *)
Theorem conclusions_true state a a' :
  tunio_reachable (tun (outside a)) -> concludes state a a' ->
  match state with
  | StUnknown => True
  | StCancelledBeforePrepare => void_from (held a) (tun (outside a'))
  | _ => exists phase, state_phase state = Some phase /\ settled_from (held a) phase (tun (outside a'))
  end.
Proof.
  intros Hr Hc. destruct (conclusion_evidence state a a' Hc) as (reply & (rq & s & peer & fds & H1 & <- & H2) & He).
  pose proof (reached_run _ _ Hr H1) as Hs.
  pose proof (fun t phase => receipt_settled (held a) rq peer fds s (tun (outside a')) t phase) as Hsettle.
  pose proof (cancellation_void (held a) rq peer fds s (tun (outside a'))) as Hvoid.
  destruct (serve_authority rq peer fds s) as [reply s1]. simpl in *.
  destruct state; simpl in He; try done; try by apply Hvoid.
  all: destruct He as (t & phase & Hp & Ht & Htext & Hid); exists phase; split; [done|by eapply Hsettle].
Qed.

(** ** Conclusions agree *)

(** [later] may be concluded after [earlier] was. *)
Definition agrees (earlier later : OwnerState) : bool :=
  match earlier, later with
  | StUnknown, _ | _, StUnknown => true
  | StPrepared, StCancelledBeforePrepare => false
  | StPrepared, _ => true
  | _, _ => bool_decide (earlier = later)
  end.

Lemma identity_revision o t : receipt_identity o t = true -> or_revision t = ae_revision (co_envelope o).
Proof. unfold receipt_identity. rewrite !andb_true_iff, Z.eqb_eq. tauto. Qed.

(** C19. Two conclusions about one authority never contradict one another: let any two records
    of the agent carry envelopes of the same revision, and let the TUN process run in any way
    in between, with other requests, expired deadlines, lost replies and restarts of the agent;
    then Committed, Aborted, Expired and CancelledBeforePrepare are each followed by nothing
    but themselves, Prepared is never followed by CancelledBeforePrepare, and an unknown outcome
    is the only exception. *)
Theorem conclusions_agree earlier later a a' b b' :
  tunio_reachable (tun (outside a)) -> concludes earlier a a' ->
  rtc tunio_step (tun (outside a')) (tun (outside b)) -> concludes later b b' ->
  ae_revision (co_envelope (held a)) = ae_revision (co_envelope (held b)) ->
  agrees earlier later = true.
Proof.
  intros Hr Ha Hrun Hb E.
  destruct (conclusion_evidence _ _ _ Ha) as (reply & (rq & s & peer & fds & H1 & <- & H2) & He).
  destruct (conclusion_evidence _ _ _ Hb) as (reply & (rq' & s' & peer' & fds' & H3 & <- & H4) & He').
  pose proof (reached_run _ _ Hr H1) as Hs. clear Ha Hb.
  pose proof (fun t e => displays_exclusive s rq peer fds s' rq' peer' fds' t e) as Hexcl.
  pose proof (fun t t' => displays_settled s rq peer fds s' rq' peer' fds' t t') as Hsett.
  destruct (serve_authority rq peer fds s) as [reply s1], (serve_authority rq' peer' fds' s') as [reply' s2].
  simpl in *. assert (Hmid : rtc tunio_step s1 s') by (trans (tun (outside a')); [done|by trans (tun (outside b))]).
  assert (Hno : forall t, receipt_identity (held a) t = true -> rs_owner_transaction reply = Some t ->
    rs_precommit_cancelled reply' = Some (co_envelope (held b)) -> False).
  { intros t Hid Ht Hx. apply (Hexcl t _ Hs Hmid (or_introl (conj Ht Hx))). rewrite <- E. by apply identity_revision. }
  assert (Hno' : forall t, receipt_identity (held b) t = true -> rs_owner_transaction reply' = Some t ->
    rs_precommit_cancelled reply = Some (co_envelope (held a)) -> False).
  { intros t Hid Ht Hx. apply (Hexcl t _ Hs Hmid (or_intror (conj Hx Ht))). rewrite E. by apply identity_revision. }
  assert (Hyes : forall t t' phase phase', receipt_identity (held a) t = true -> receipt_identity (held b) t' = true ->
    rs_owner_transaction reply = Some t -> rs_owner_transaction reply' = Some t' ->
    or_phase t = phase_text phase -> or_phase t' = phase_text phase' -> phase <> Prepared -> phase' = phase).
  { intros t t' phase phase' Hid Hid' Ht Ht' Hp Hp'.
    destruct (Hsett t t' Hs Hmid Ht Ht') as (p & p' & Hq & Hq' & Hf).
    { rewrite (identity_revision _ _ Hid), (identity_revision _ _ Hid'). done. }
    assert (p = phase) as -> by (destruct p, phase; simpl in *; congruence).
    assert (p' = phase') as -> by (destruct p', phase'; simpl in *; congruence). exact Hf. }
  destruct earlier, later; try done; simpl in He, He'; exfalso;
    first [ destruct He as (t & p & [= <-] & Ht & Hp & Hid), He' as (t' & p' & [= <-] & Ht' & Hp' & Hid');
            by specialize (Hyes t t' _ _ Hid Hid' Ht Ht' Hp Hp' ltac:(done))
          | destruct He as (t & p & _ & Ht & _ & Hid); by apply (Hno t)
          | destruct He' as (t & p & _ & Ht & _ & Hid); by apply (Hno' t) ].
Qed.

(** ** The isolation of a committed candidate *)

Lemma failure_runs reply a a' :
  record_committed_failure reply a = (Ok tt, a') -> rtc tunio_step (tun (outside a)) (tun (outside a')).
Proof.
  unfold record_committed_failure. intros H. peel. destruct (committed_failure (held a)); by peel.
Qed.

(** C21. A recorded isolation is for good: when the agent records the isolation of its committed
    candidate from a reply of the TUN process, then from the call on every packet that crosses
    the packet port crosses for a higher owner epoch than the candidate's, over the rest of
    the life of the process; and over the rest of the agent's life, with failed writes,
    crashes and restarts, it never asks to commit again, and every attempt to promote the
    candidate is refused before anything is written or asked. *)
Theorem isolation_recorded x reply a a' s' :
  tunio_reachable (tun x) -> answered x reply (outside a) ->
  record_committed_isolation reply a = (Ok tt, a') -> rtc tunio_step (tun (outside a')) s' ->
  sends_above (owner_epoch (ae_binding (co_envelope (held a)))) (bridge (tun (outside a))) (bridge s') /\
  forall later, rtc agent_step a' later ->
    (exists l, asked (outside later) = asked (outside a') ++ l /\
       Forall (fun request => ar_operation request <> OpCommitOwner) l) /\
    forall base proof, promote_with base proof later = (Err "candidate_owner_cancelled"%string, later).
Proof.
  intros Hr (rq & s & peer & fds & H1 & <- & H2) H Hrun. pose proof (reached_run _ _ Hr H1) as Hs.
  pose proof (isolation_starts _ _ _ H) as Hiso.
  unfold record_committed_isolation in H. peel.
  match goal with H : insist (_ && _) _ = _ |- _ => apply insist_ok in H; rename H into Hc end.
  rewrite !andb_true_iff, !bool_decide_eq_true in Hc. destruct Hc as ((((_ & He) & _) & _) & _).
  match goal with H' : rtc _ _ (tun (outside a')) |- _ => rename H' into Hp end.
  pose proof (displayed_isolation s rq peer fds (co_envelope (held a)) (tun (outside a))) as Hd.
  pose proof (serve_reached s rq peer fds Hs) as Hs1.
  destruct (serve_authority rq peer fds s) as [reply s1]. simpl in *.
  pose proof (reached_run _ _ Hs1 H2) as Ha. destruct (reachable_sound _ Ha) as [Hst Hok]. split.
  - apply run_sends_above; [done|by apply Hd|].
    apply (micros_managers (K:=fun _ => True)); [done|]. apply run_micros; [done..|by etrans].
  - intros later Hl. pose proof (isolated_run _ _ _ Hiso Hl) as Hi.
    split; [apply (iso_asked _ _ Hi)|]. intros base proof. apply isolated_promote, (iso_held _ _ Hi).
Qed.
End Conclusions.
