(* ===== verification/CandidateScenarios.v ===== *)
(** * Candidate ownership: scenarios

    A link to the TUN process of [TunioScenarios] that loses requests and replies by a script,
    and a journal; on it a preparation, a commit whose reply is lost, a recovery, an isolation,
    and the theorems of [CandidateFacts], [CandidateRuns], [CandidateConclusions] and
    [TunioVouched] there. *)
From stdpp Require Import base tactics list numbers option sets relations strings.
From Stdlib Require Import ZArith Lia.
From S2P Require Import Prelude PacketPort PortManager PortManagerInv PortManagerSpec ProcessControl Tunio TunioOps TunioRuns TunioMicro TunioFacts TunioRecovery TunioVouched TunioAgreement TunioScenarios Candidate CandidateFacts CandidateRuns CandidateConclusions.

#[local] Open Scope Z_scope.
#[local] Existing Instance moment_host.

(** ** The link *)

Inductive Fate : Type := Delivered | RequestLost | ReplyLost.

Record Desk : Type := mkDesk {
  desk_tun : Tunio Moment;
  journal : option CandidateOwner;
  sent_requests : list AuthorityControlRequest;
  fates : list Fate;
}.

Definition desk_exchange (request : AuthorityControlRequest) (port : option Descriptor) (d : Desk)
  : Result string AuthorityControlResponse * Desk :=
  let log := sent_requests d ++ [request] in
  let '(reply, s) := serve_authority request supervisor (option_list port) (desk_tun d) in
  match head (fates d) with
  | Some RequestLost => (Err "timeout"%string, mkDesk (desk_tun d) (journal d) log (tail (fates d)))
  | Some ReplyLost => (Err "timeout"%string, mkDesk s (journal d) log (tail (fates d)))
  | _ => (Ok reply, mkDesk s (journal d) log (tail (fates d)))
  end.

#[local] Instance desk_host : AgentHost Desk := {
  fresh_nonce := fun d => (nonce, d);
  persist := fun o d => (Ok tt, mkDesk (desk_tun d) (Some o) (sent_requests d) (fates d));
  exchange := desk_exchange;
}.

Lemma desk_exchange_link request port d :
  let '(r, d') := desk_exchange request port d in
  journal d' = journal d /\ sent_requests d' = sent_requests d ++ [request] /\
  match r with
  | Ok reply => exists s peer fds, rtc tunio_step (desk_tun d) s /\
      (serve_authority request peer fds s).1 = reply /\
      rtc tunio_step (serve_authority request peer fds s).2 (desk_tun d')
  | Err _ => rtc tunio_step (desk_tun d) (desk_tun d')
  end.
Proof.
  unfold desk_exchange.
  pose proof (served_run (desk_tun d) request supervisor (option_list port)) as Hrun.
  destruct (serve_authority request supervisor (option_list port) (desk_tun d)) as [reply s] eqn:E.
  destruct (head (fates d)) as [[]|]; simpl in *; split_and!; try done;
    exists (desk_tun d), supervisor, (option_list port); rewrite E; by split_and!.
Qed.

#[local] Instance desk_link : AgentLink Moment Desk := {
  tun := desk_tun;
  stored := journal;
  asked := sent_requests;
  nonce_link := fun d => conj (rtc_refl tunio_step (desk_tun d)) (conj eq_refl eq_refl);
  persist_link := fun o d => conj (rtc_refl tunio_step (desk_tun d)) (conj eq_refl (or_introl eq_refl));
  exchange_link := desk_exchange_link;
}.

(** ** The candidate *)

Definition id32 (n : Z) : list Z := replicate 31 0 ++ [n].
Definition peer_one : PeerExpectation :=
  mkExpectation (id_of 7) (mkSelector (id32 4) 2 1 (id32 5) (id_of 8) 1 1 9) (mkBarrier (id32 4) 1 1 (id32 6)).
Definition confirmation : PeerProof :=
  mkPeerProof (id_of 7) (pe_selector peer_one) (pe_barrier peer_one) true true true true false false false false "".
Definition installation : CandidateProof :=
  mkCandidateProof 1 transaction "installed" (mkLocalProof (id_of 2) 2 hash (binding_at 2)) [confirmation] false false.

Definition fresh_candidate : CandidateOwner :=
  mkCandidateOwner envelope (Some (binding_at 1)) 21000 [peer_one] false None None None None.

Example fresh_is_new :
  CandidateOwner_new envelope (Some (binding_at 1)) 21000 [peer_one] = Ok fresh_candidate.
Proof. by vm_compute. Qed.

Definition base : AuthorityControlRequest := asks OpProbeTransaction None.

(** The process is registered, the authority staged, the record written. *)
Definition staged_acts : list Act := registered_acts ++ [Asks supervisor (asks OpStageAuthority (Some envelope)) []].
Definition desk (l : list Fate) : Desk := mkDesk (perform staged_acts began) (Some fresh_candidate) [] l.
Definition ready (l : list Fate) : Agent Desk := mkAgent fresh_candidate (desk l).

(** Prepared at once; the reply to the commit is lost, and the probe finds it committed. *)
Definition lossy : list Fate := [Delivered; ReplyLost; Delivered].
Definition prepared : Agent Desk := (prepare_with base (socket_of 2) 1000 (ready lossy)).2.
Definition promoted : Agent Desk := (promote_with base installation prepared).2.

Example prepares : (prepare_with base (socket_of 2) 1000 (ready lossy)).1 = Ok StPrepared.
Proof. by vm_compute. Qed.
Example promotes : (promote_with base installation prepared).1 = Ok StCommitted.
Proof. by vm_compute. Qed.

(** A record without the intent, as it was before the commit, recovers. *)
Definition recollect (a : Agent Desk) : Agent Desk := mkAgent fresh_candidate (outside a).
Example recovers : (recover_precommit_with base (recollect promoted)).1 = Ok StCommitted.
Proof. by vm_compute. Qed.
(** Without a preparation the recovery cancels. *)
Example cancels : (recover_precommit_with base (ready [])).1 = Ok StCancelledBeforePrepare.
Proof. by vm_compute. Qed.

(** ** The theorems *)

Lemma ready_reachable l : tunio_reachable (tun (outside (ready l))).
Proof. apply perform_reachable. Qed.

Lemma ready_started l : agent_started (ready l).
Proof.
  split_and!; [|done|set_solver]. exists envelope, (Some (binding_at 1)), 21000, [peer_one]. apply fresh_is_new.
Qed.

Lemma run_of {T} (m : AgentM (X:=Desk) T) a v : (m a).1 = Ok v -> m a = (Ok v, (m a).2).
Proof. destruct (m a). by intros [= ->]. Qed.

Lemma histories : rtc agent_step (ready lossy) promoted.
Proof.
  exact (rtc_l agent_step (ready lossy) prepared promoted (agent_prepare (ready lossy) base (socket_of 2) 1000)
           (rtc_once prepared promoted (agent_promote prepared base installation))).
Qed.

Lemma commit_written_ahead_witness :
  exists request, request ∈ asked (outside promoted) /\ ar_operation request = OpCommitOwner /\
  exists o, stored (outside promoted) = Some o /\ commit_intent o = true.
Proof.
  exists (asking base OpCommitOwner envelope).
  assert (Hin : asking base OpCommitOwner envelope ∈ asked (outside promoted)).
  { assert (Hlog : nth_error (asked (outside promoted)) 1 = Some (asking base OpCommitOwner envelope)) by (by vm_compute).
    apply list_elem_of_In. by eapply nth_error_In. }
  split; [exact Hin|]. split; [reflexivity|].
  destruct (commit_written_ahead (ready lossy) promoted _ (ready_started lossy) histories Hin eq_refl)
    as (_ & (o & Ho & Hi & _) & _). exists o. split; [exact Ho|exact Hi].
Defined.

Lemma conclusions_true_witness :
  void_from fresh_candidate (tun (outside (recover_precommit_with base (ready [])).2)).
Proof.
  refine (conclusions_true StCancelledBeforePrepare (ready []) _ (ready_reachable []) _).
  right. right. exists base. exact (run_of (recover_precommit_with base) (ready []) _ cancels).
Defined.

Lemma prepared_reached : tunio_reachable (tun (outside prepared)).
Proof.
  apply (reached_run _ _ (ready_reachable lossy)), (concluded_run StPrepared).
  left. exists base, (socket_of 2), 1000. exact (run_of (prepare_with base (socket_of 2) 1000) (ready lossy) _ prepares).
Qed.

Lemma recollect_run (a : Agent Desk) : rtc tunio_step (tun (outside a)) (tun (outside (recollect a))).
Proof. apply rtc_refl. Qed.

Lemma same_revision :
  ae_revision (co_envelope (held prepared)) = ae_revision (co_envelope (held (recollect promoted))).
Proof. by vm_compute. Qed.

Lemma conclusions_agree_witness : agrees StCommitted StCommitted = true.
Proof.
  refine (conclusions_agree StCommitted StCommitted prepared promoted (recollect promoted)
    (recover_precommit_with base (recollect promoted)).2 prepared_reached _ (recollect_run promoted) _
    same_revision).
  - right. left. exists base, installation. exact (run_of (promote_with base installation) prepared _ promotes).
  - right. right. exists base. exact (run_of (recover_precommit_with base) (recollect promoted) _ recovers).
Defined.

(** The worker is gone: the agent records the failure, isolates, and records that. *)
Definition mourning : Agent Desk :=
  mkAgent (held promoted)
    (mkDesk (perform [worker_gone] (desk_tun (outside promoted))) (stored (outside promoted)) [] []).
Definition probed_reply : AuthorityControlResponse :=
  match (exchange base None (outside mourning)).1 with Ok r => r | Err _ => authority_response base false (ctl began) end.
Definition failed : Agent Desk := (record_committed_failure probed_reply mourning).2.
Definition isolated_reply : AuthorityControlResponse :=
  match (desk_exchange isolation None (outside failed)).1 with Ok r => r | Err _ => probed_reply end.
Definition after_isolation (a : Agent Desk) : Agent Desk :=
  mkAgent (held a) (desk_exchange isolation None (outside a)).2.

Example records_failure : (record_committed_failure probed_reply mourning).1 = Ok tt.
Proof. by vm_compute. Qed.
Example isolates : (desk_exchange isolation None (outside failed)).1 = Ok isolated_reply.
Proof. by vm_compute. Qed.
Example records_isolation : (record_committed_isolation isolated_reply (after_isolation failed)).1 = Ok tt.
Proof. by vm_compute. Qed.

Lemma mourned (a : Agent Desk) :
  rtc tunio_step (tun (outside a))
    (desk_tun (mkDesk (perform [worker_gone] (desk_tun (outside a))) (stored (outside a)) [] [])).
Proof. apply perform_rtc. Qed.

Lemma failed_reached : tunio_reachable (tun (outside failed)).
Proof.
  assert (H1 : tunio_reachable (tun (outside promoted))).
  { apply (reached_run _ _ prepared_reached), (concluded_run StCommitted).
    right. left. exists base, installation. exact (run_of (promote_with base installation) prepared _ promotes). }
  assert (H2 : tunio_reachable (tun (outside mourning))) by exact (reached_run _ _ H1 (mourned promoted)).
  exact (reached_run _ _ H2 (failure_runs _ _ _ (run_of (record_committed_failure probed_reply) mourning _ records_failure))).
Qed.

Lemma desk_answered request port d reply :
  (desk_exchange request port d).1 = Ok reply -> answered d reply (desk_exchange request port d).2.
Proof.
  pose proof (desk_exchange_link request port d) as H. destruct (desk_exchange request port d) as [r d']. simpl.
  intros ->. destruct H as (_ & _ & s & peer & fds & H). by exists request, s, peer, fds.
Qed.

Lemma isolation_answered (a : Agent Desk) reply :
  (desk_exchange isolation None (outside a)).1 = Ok reply ->
  answered (outside a) reply (outside (after_isolation a)).
Proof. apply desk_answered. Qed.

Lemma isolation_recorded_witness :
  exists a', record_committed_isolation isolated_reply (after_isolation failed) = (Ok tt, a') /\
    let later := (promote_with base installation a').2 in
    asked (outside later) = asked (outside a') /\
    promote_with base installation later = (Err "candidate_owner_cancelled"%string, later).
Proof.
  pose proof (run_of (record_committed_isolation isolated_reply) (after_isolation failed) _ records_isolation) as H.
  exists (record_committed_isolation isolated_reply (after_isolation failed)).2. split; [exact H|]. cbv zeta.
  pose proof (proj2 (isolation_recorded (outside failed) isolated_reply (after_isolation failed) _ _ failed_reached
    (isolation_answered failed isolated_reply isolates) H (rtc_refl _ _))) as Hl.
  pose proof (proj2 (Hl _ (rtc_refl _ _)) base installation) as E.
  split; [by rewrite E|]. apply Hl, rtc_once, agent_promote.
Defined.

(** A probe after the hand-over: the receipt in its reply. *)
Definition handed_over : Tunio Moment := perform hand_over began.
Definition probe : AuthorityControlRequest := asks OpProbeTransaction None.
Definition receipt_shown : AuthorityOwnerReceipt :=
  mkOwnerReceipt transaction 1 "committed" (binding_at 2) (Some 1) 50000 21000.

Lemma replies_truthful_witness :
  exists tx phase, reports receipt_shown tx phase.
Proof.
  assert (Ht : rs_owner_transaction (serve_authority probe supervisor [] handed_over).1 = Some receipt_shown)
    by (by vm_compute).
  pose proof (replies_truthful handed_over probe supervisor [] receipt_shown) as H.
  revert Ht H. destruct (serve_authority _ _ _ _) as [reply s1]. intros Ht H.
  destruct (H (perform_reachable hand_over) Ht) as (tx & phase & _ & Hrep & _). exists tx, phase. exact Hrep.
Defined.
