(* ===== verification/Grant.v ===== *)
(** * Access grants

    candy-cloud-sync keeps, for every signed authorization, the access grant that Cloud issued
    for it ([grant.rs]): [GrantStore] requests it, has it verified by Core, keeps it in a
    private file and renews it, so that a request that may have been received is repeated
    with the same identity until its answer is stored. This file holds the data, their
    validation, the reading of the HTTP answer, the store and the renewal. The hash, base64,
    the JSON documents and the HTTP client are arguments; file operations are those of
    [GrantFs]. *)
From stdpp Require Import base tactics list numbers option strings.
From Stdlib Require Import ZArith Lia.
From S2P Require Import Prelude.

#[local] Open Scope Z_scope.

Definition GRANT_STATE_SCHEMA_VERSION : Z := 2.
Definition MAX_GRANT_ENVELOPE_BYTES : Z := 8 * 1024.
Definition MAX_GRANT_STATE_BYTES : Z := 64 * 1024.

(** ** Errors

    An [anyhow::Error]: its contexts from the outside in. [downcast_ref::<GrantFailure>] finds
    the first one that is a [GrantFailure]. *)

Inductive Layer : Type := Msg (text : string) | Failed (stage code : string).
Definition Error : Type := list Layer.

Definition context {T} (layer : Layer) (r : Result Error T) : Result Error T :=
  map_err (fun e => layer :: e) r.

Fixpoint downcast (e : Error) : option (string * string) :=
  match e with
  | [] => None
  | Failed stage code :: _ => Some (stage, code)
  | Msg _ :: e => downcast e
  end.

Definition resolution_error_code (e : Error) : string :=
  match downcast e with Some (_, code) => code | None => "grant_resolution_unclassified" end.
Definition resolution_error_stage (e : Error) : string :=
  match downcast e with Some (stage, _) => stage | None => "grant_resolution" end.

Definition RETRYABLE : list string :=
  [ "route_policy_resync_required"; "grant_transport_failed"; "grant_rate_limited";
    "grant_service_unavailable"; "grant_response_media_type_invalid"; "grant_response_too_large";
    "grant_response_read_failed"; "grant_response_size_invalid"; "grant_response_json_invalid";
    "grant_fetch_transient_failed"; "grant_expired"; "grant_not_yet_valid" ]%string.

Definition resolution_is_retryable (e : Error) : bool :=
  existsb (fun code => bool_decide (code = resolution_error_code e)) RETRYABLE.

(** [if !b { bail!(..) }]. *)
Definition demand (b : bool) (text : string) : Result Error unit :=
  if b then Ok tt else Err [Msg text].

(** A row of a table of checks. *)
Definition row (valid : bool) (stage code : string) : bool * string * string := (valid, stage, code).

(** The checks of a table: the first that fails names the error. *)
Fixpoint all_checks (checks : list (bool * string * string)) : Result Error unit :=
  match checks with
  | [] => Ok tt
  | (valid, stage, code) :: rest => if valid then all_checks rest else Err [Failed stage code]
  end.

(** ** Data *)

Definition Uuid : Type := list Z.
Definition is_nil (id : Uuid) : bool := bool_decide (id = replicate 16 0).

Record GrantSubject : Type := mkSubject {
  node_pool_id : Uuid;
  tenant_id : Uuid;
  device_id : Uuid;
  device_key_id : Uuid;
  projection_id : Uuid;
  projection_generation : Z;
  projection_content_hash : list Z;
}.

#[export] Instance GrantSubject_eq_dec : EqDecision GrantSubject.
Proof. solve_decision. Defined.

Record GrantRoutePolicyRequest : Type := mkRoutePolicyRequest {
  rp_policy_id : Uuid;
  rp_generation : Z;
  rp_content_hash : list Z;
}.

Record GrantIssueRequest : Type := mkIssueRequest {
  gq_request_id : list Z;
  gq_node_pool_id : Uuid;
  gq_service_class : list Z;
  gq_service_permission : list Z;
  gq_route_policy : GrantRoutePolicyRequest;
}.

Record GrantIssueResponse : Type := mkIssueResponse {
  gr_grant_id : Uuid;
  gr_expires_at_unix : Z;
  gr_refresh_after_unix : Z;
  gr_replayed : bool;
  gr_access_grant : list Z;
}.

Record VerifiedGrantReport : Type := mkReport {
  vr_schema_version : Z;
  vr_ok : bool;
  vr_grant_id : Uuid;
  vr_tenant_id : Uuid;
  vr_device_id : Uuid;
  vr_device_key_id : Uuid;
  vr_node_pool_id : Uuid;
  vr_service_permission : list Z;
  vr_route_policy_id : Uuid;
  vr_route_policy_generation : Z;
  vr_route_policy_content_hash : list Z;
  vr_not_before_unix : Z;
  vr_refresh_after_unix : Z;
  vr_expires_at_unix : Z;
}.

#[export] Instance VerifiedGrantReport_eq_dec : EqDecision VerifiedGrantReport.
Proof. solve_decision. Defined.

Record CachedGrant : Type := mkCachedGrant {
  cg_sequence : Z;
  cg_request_id : list Z;
  cg_grant_id : Uuid;
  cg_fetched_at_unix : Z;
  cg_expires_at_unix : Z;
  cg_access_grant : list Z;
  cg_verification : VerifiedGrantReport;
}.

#[export] Instance CachedGrant_eq_dec : EqDecision CachedGrant.
Proof. solve_decision. Defined.

Record PendingIssuance : Type := mkPending {
  pi_sequence : Z;
  pi_request_id : list Z;
  pi_created_at_unix : Z;
}.

#[export] Instance PendingIssuance_eq_dec : EqDecision PendingIssuance.
Proof. solve_decision. Defined.

Record GrantState : Type := mkGrantState {
  st_schema_version : Z;
  st_subject : GrantSubject;
  completed_sequence : Z;
  st_pending : option PendingIssuance;
  st_active : option CachedGrant;
  revoked_at_unix : option Z;
}.

#[export] Instance GrantState_eq_dec : EqDecision GrantState.
Proof. solve_decision. Defined.

(** What the code takes from crates: SHA-256, and base64 without padding. *)
Class GrantCrypto : Type := {
  sha256 : list Z -> list Z;
  url_safe_decode : list Z -> option (list Z);
}.

(** ** Validation *)

Definition hex_lower (c : Z) : bool := ((48 <=? c) && (c <=? 57)) || ((97 <=? c) && (c <=? 102)).
Definition canonical_hex (value : list Z) (bytes : Z) : bool :=
  (Z.of_nat (length value) =? bytes * 2) && forallb hex_lower value.

Definition subject_validate (s : GrantSubject) : Result Error unit :=
  demand (negb (is_nil (node_pool_id s)) && negb (is_nil (tenant_id s)) && negb (is_nil (device_id s))
          && negb (is_nil (device_key_id s)) && negb (is_nil (projection_id s))
          && negb (projection_generation s =? 0) && canonical_hex (projection_content_hash s) 32)
    "Grant subject contains an invalid signed authorization binding".

(** [format!("{:x}", digest)]. *)
Definition hex_char (d : Z) : Z := if d <? 10 then 48 + d else 87 + d.
Definition lower_hex (bytes : list Z) : list Z :=
  flat_map (fun b => [hex_char (b / 16); hex_char (b mod 16)]) bytes.

Definition id_byte (c : Z) : bool :=
  ((48 <=? c) && (c <=? 57)) || ((65 <=? c) && (c <=? 90)) || ((97 <=? c) && (c <=? 122))
  || (c =? 45) || (c =? 95) || (c =? 46).

Definition validate_request_id (value : list Z) : Result Error unit :=
  demand (negb (Nat.eqb (length value) 0) && (Z.of_nat (length value) <=? 120) && forallb id_byte value)
    "Grant request id is invalid".

Definition validate_verified_grant_binding (s : GrantSubject) (r : VerifiedGrantReport) : Result Error unit :=
  all_checks
    [ row (vr_schema_version r =? 1) "grant_core_report" "grant_report_schema_unsupported";
      row (vr_ok r) "grant_core_report" "grant_report_rejected";
      row (negb (is_nil (vr_grant_id r))) "grant_core_report" "grant_report_id_invalid";
      row (bool_decide (vr_tenant_id r = tenant_id s))
        "grant_candidate_binding" "grant_tenant_mismatch";
      row (bool_decide (vr_device_id r = device_id s))
        "grant_candidate_binding" "grant_device_mismatch";
      row (bool_decide (vr_device_key_id r = device_key_id s))
        "grant_candidate_binding" "grant_device_key_mismatch";
      row (bool_decide (vr_node_pool_id r = node_pool_id s))
        "grant_candidate_binding" "grant_node_pool_mismatch";
      row (bool_decide (vr_service_permission r = bytes_of "private.tun.connect"))
        "grant_candidate_binding" "grant_service_permission_mismatch";
      row (bool_decide (vr_route_policy_id r = projection_id s))
        "grant_candidate_binding" "grant_route_policy_id_mismatch";
      row (vr_route_policy_generation r =? projection_generation s)
        "grant_candidate_binding" "grant_route_policy_generation_mismatch";
      row (bool_decide (vr_route_policy_content_hash r = projection_content_hash s))
        "grant_candidate_binding" "grant_route_policy_hash_mismatch";
      row (negb (vr_not_before_unix r =? 0)) "grant_validity" "grant_not_before_invalid";
      row (vr_not_before_unix r <=? vr_refresh_after_unix r)
        "grant_validity" "grant_refresh_before_validity";
      row (vr_refresh_after_unix r <? vr_expires_at_unix r)
        "grant_validity" "grant_refresh_after_expiry" ].

(** The response agrees with the report, and the grant is valid at [now]. *)
Definition validate_verified_grant (s : GrantSubject) (response : GrantIssueResponse)
    (r : VerifiedGrantReport) (now : Z) : Result Error unit :=
  check? validate_verified_grant_binding s r in
  all_checks
    [ row (bool_decide (vr_grant_id r = gr_grant_id response))
        "grant_response_binding" "grant_response_id_mismatch";
      row (vr_expires_at_unix r =? gr_expires_at_unix response)
        "grant_response_binding" "grant_response_expiry_mismatch";
      row (vr_refresh_after_unix r =? gr_refresh_after_unix response)
        "grant_response_binding" "grant_response_refresh_mismatch";
      row (negb (now <? vr_not_before_unix r)) "grant_validity" "grant_not_yet_valid";
      row (negb (vr_expires_at_unix r <=? now)) "grant_validity" "grant_expired";
      row (negb ((vr_refresh_after_unix r <? vr_not_before_unix r) || (vr_expires_at_unix r <=? vr_refresh_after_unix r)))
        "grant_validity" "grant_validity_window_invalid" ].

Section Validation.
Context `{!GrantCrypto}.

Definition valid_access_grant (value : list Z) : bool :=
  negb (Nat.eqb (length value) 0) && (Z.of_nat (length value) <=? 10924)
  && match url_safe_decode value with
     | Some bytes => negb (Nat.eqb (length bytes) 0)
                     && (Z.of_nat (length bytes) <=? MAX_GRANT_ENVELOPE_BYTES)
     | None => false
     end.

Definition validate_cloud_grant_response (response : GrantIssueResponse) : Result Error unit :=
  demand (negb (is_nil (gr_grant_id response)) && valid_access_grant (gr_access_grant response))
    "Cloud returned a malformed Grant response".

Definition domain_hash (domain : list Z) (s : GrantSubject) (sequence : option Z) : list Z :=
  lower_hex (sha256
    (domain ++ node_pool_id s ++ tenant_id s ++ device_id s ++ device_key_id s ++ projection_id s
     ++ to_be_bytes 8 (projection_generation s) ++ projection_content_hash s
     ++ match sequence with Some n => to_be_bytes 8 n | None => [] end)).

Definition storage_id (s : GrantSubject) : Result Error (list Z) :=
  check? subject_validate s in
  Ok (domain_hash (bytes_of "candy/sdwan-grant-state-v2" ++ [0]) s None).

Definition request_id (s : GrantSubject) (sequence : Z) : Result Error (list Z) :=
  check? subject_validate s in
  check? demand (negb (sequence =? 0)) "Grant renewal sequence must be non-zero" in
  Ok (bytes_of "sdwan-v2-" ++ domain_hash (bytes_of "candy/sdwan-grant-request-v2" ++ [0]) s (Some sequence)).

(** [GrantIssueRequest::new]. *)
Definition GrantIssueRequest_new (s : GrantSubject) (id : list Z) : GrantIssueRequest :=
  mkIssueRequest id (node_pool_id s) (bytes_of "private") (bytes_of "private.tun.connect")
    (mkRoutePolicyRequest (projection_id s) (projection_generation s) (projection_content_hash s)).

Definition CachedGrant_from_response (s : GrantSubject) (sequence : Z) (id : list Z)
    (response : GrantIssueResponse) (verification : VerifiedGrantReport) (now : Z)
  : Result Error CachedGrant :=
  check? validate_request_id id in
  let? expected := request_id s sequence in
  check? demand (bool_decide (id = expected))
           "Grant response request id is not bound to its renewal transaction" in
  check? validate_cloud_grant_response response in
  check? validate_verified_grant s response verification now in
  Ok (mkCachedGrant sequence id (gr_grant_id response) now (vr_expires_at_unix verification)
        (gr_access_grant response) verification).

(** [CachedGrant::validate_for]. *)
Definition cached_validate_for (g : CachedGrant) (s : GrantSubject) : Result Error unit :=
  let mismatch := "cached Grant does not match its renewal transaction"%string in
  check? demand (negb (cg_sequence g =? 0)) mismatch in
  let? expected := request_id s (cg_sequence g) in
  check? demand (bool_decide (cg_request_id g = expected) && negb (is_nil (cg_grant_id g))
                 && negb (cg_fetched_at_unix g =? 0)
                 && (cg_fetched_at_unix g <? cg_expires_at_unix g)
                 && valid_access_grant (cg_access_grant g)) mismatch in
  check? validate_verified_grant_binding s (cg_verification g) in
  demand (bool_decide (vr_grant_id (cg_verification g) = cg_grant_id g)
          && (vr_expires_at_unix (cg_verification g) =? cg_expires_at_unix g))
    "cached Grant metadata does not match its Core verification".

Definition is_usable_at (g : CachedGrant) (now : Z) : bool :=
  (vr_not_before_unix (cg_verification g) <=? now) && (now <? cg_expires_at_unix g)
  && valid_access_grant (cg_access_grant g).

Definition should_refresh_at (g : CachedGrant) (now : Z) : bool :=
  is_usable_at g now && (vr_refresh_after_unix (cg_verification g) <=? now).

(** [GrantState::new]. *)
Definition GrantState_new (s : GrantSubject) : GrantState :=
  mkGrantState GRANT_STATE_SCHEMA_VERSION s 0 None None None.

Definition checked_add1 (n : Z) : option Z := if n <? u64_MAX then Some (n + 1) else None.

Definition pending_validate (st : GrantState) (s : GrantSubject) (p : PendingIssuance) : Result Error unit :=
  let inconsistent := "pending Grant transaction is inconsistent"%string in
  check? validate_request_id (pi_request_id p) in
  let? next := ok_or (checked_add1 (completed_sequence st)) [Msg "Grant sequence overflow"] in
  check? demand (pi_sequence p =? next) inconsistent in
  let? expected := request_id s (pi_sequence p) in
  demand (bool_decide (pi_request_id p = expected) && negb (pi_created_at_unix p =? 0)) inconsistent.

(** [GrantState::validate_for]. *)
Definition state_validate_for (st : GrantState) (s : GrantSubject) : Result Error unit :=
  check? subject_validate s in
  check? demand ((st_schema_version st =? GRANT_STATE_SCHEMA_VERSION) && bool_decide (st_subject st = s))
           "Grant state does not match its signed candidate" in
  check? match st_active st with
         | Some active =>
             check? cached_validate_for active s in
             demand (cg_sequence active =? completed_sequence st)
               "active Grant sequence does not match committed renewal state"
         | None => demand (completed_sequence st =? 0)
                     "Grant state has a completed sequence without an active Grant"
         end in
  check? match st_pending st with Some p => pending_validate st s p | None => Ok tt end in
  demand (negb (bool_decide (is_Some (revoked_at_unix st)) && bool_decide (is_Some (st_active st))))
    "revoked Grant state still contains an active credential".

(** [GrantState::usable]. *)
Definition usable (st : GrantState) (now : Z) : option CachedGrant :=
  match revoked_at_unix st, st_active st with
  | None, Some g => if is_usable_at g now then Some g else None
  | _, _ => None
  end.
End Validation.
