(* ===== verification/GrantStore.v ===== *)
(** * Access grants: the store and the renewal

    [fetch_from_cloud] up to the HTTP client, [GrantStore] on its files, and
    [refresh_with_clock], which keeps the grant of a subject current ([grant.rs]). *)
From stdpp Require Import base tactics list numbers option strings.
From Stdlib Require Import ZArith Lia.
From S2P Require Import Prelude Grant.

#[local] Open Scope Z_scope.

(** ** The answer of Cloud *)

Inductive FetchFailure : Type :=
| Transient (e : Error)
| Denied (e : Error)
| PolicyResyncRequired.

(** An HTTP response: its status, its headers, and what reading at most so many bytes of the
    body gives. *)
Record HttpResponse : Type := mkResponse {
  http_status : Z;
  content_type : option (list Z);
  content_length : option Z;
  http_read : Z -> Result Error (list Z);
}.

(** [serde_json] on the body of a grant and of a problem. *)
Class GrantJson : Type := {
  parse_response : list Z -> option GrantIssueResponse;
  parse_problem_code : list Z -> option (list Z);
}.

Inductive StatusClass : Type := Success | TransientStatus | DeniedStatus.

Definition is_server_error (status : Z) : bool := (500 <=? status) && (status <? 600).

Definition classify_grant_http_status (status : Z) : StatusClass :=
  if status =? 200 then Success
  else if (status =? 429) || is_server_error status then TransientStatus
  else DeniedStatus.

(** The text up to the first [;], trimmed. *)
Fixpoint drop_blanks (l : list Z) : list Z :=
  match l with
  | c :: rest => if (c =? 32) || (c =? 9) then drop_blanks rest else l
  | [] => []
  end.
Fixpoint before_semicolon (l : list Z) : list Z :=
  match l with
  | c :: rest => if c =? 59 then [] else c :: before_semicolon rest
  | [] => []
  end.
Definition media_type (header : option (list Z)) : list Z :=
  let text := match header with Some value => value | None => [] end in
  rev (drop_blanks (rev (drop_blanks (before_semicolon text)))).

Section Fetch.
Context `{!GrantJson}.

Definition is_policy_resync_response (bytes : list Z) : bool :=
  (Z.of_nat (length bytes) <=? MAX_GRANT_ENVELOPE_BYTES)
  && bool_decide (parse_problem_code bytes = Some (bytes_of "route_policy_resync_required")).

Definition transient {T} (layers : Error) : Result FetchFailure T := Err (Transient layers).

(** What is not a success. *)
Definition refused (response : HttpResponse) : FetchFailure :=
  let said := Msg "Grant issuance returned HTTP status" in
  match classify_grant_http_status (http_status response) with
  | TransientStatus =>
      Transient [Failed "grant_http_response"
                   (if http_status response =? 429 then "grant_rate_limited"
                    else "grant_service_unavailable"); said]
  | _ =>
      let resync :=
        (http_status response =? 409)
        && match http_read response (MAX_GRANT_ENVELOPE_BYTES + 1) with
           | Ok bytes => is_policy_resync_response bytes
           | Err _ => false
           end in
      if resync then PolicyResyncRequired
      else Denied [Failed "grant_http_response" "grant_http_request_rejected"; said]
  end.

(** The body of a success. *)
Definition read_grant (response : HttpResponse) : Result FetchFailure GrantIssueResponse :=
  if negb (bool_decide (media_type (content_type response) = bytes_of "application/json"))
  then transient [Failed "grant_http_response" "grant_response_media_type_invalid";
                  Msg "Cloud Grant response has an unexpected media type"]
  else if match content_length response with
          | Some n => MAX_GRANT_STATE_BYTES <? n | None => false
          end
  then transient [Failed "grant_http_response" "grant_response_too_large";
                  Msg "Cloud Grant response exceeds the bounded size"]
  else
    match http_read response (MAX_GRANT_STATE_BYTES + 1) with
    | Err e => transient (Failed "grant_http_body" "grant_response_read_failed" :: e)
    | Ok bytes =>
        if Nat.eqb (length bytes) 0 || (MAX_GRANT_STATE_BYTES <? Z.of_nat (length bytes))
        then transient [Failed "grant_http_body" "grant_response_size_invalid";
                        Msg "Cloud Grant response has an invalid size"]
        else
          match parse_response bytes with
          | Some grant => Ok grant
          | None => transient [Failed "grant_response_decode" "grant_response_json_invalid"; Msg "json"]
          end
    end.

(** [fetch_from_cloud], from what [client.send] returned. *)
Definition fetch_from_cloud (sent : Result Error HttpResponse) : Result FetchFailure GrantIssueResponse :=
  match sent with
  | Err e => transient (Failed "grant_http_request" "grant_transport_failed" :: e)
  | Ok response =>
      match classify_grant_http_status (http_status response) with
      | Success => read_grant response
      | _ => Err (refused response)
      end
  end.
End Fetch.

(** ** Files

    The names are [<id>.json] for the state, [.candidate-grant.<uuid>.tmp] and
    [.grant.<uuid>.tmp], all in the private directory. *)

Inductive GrantPath : Type :=
| StatePath (id : list Z)
| CandidatePath (uuid : Uuid)
| TempPath (uuid : Uuid).

#[export] Instance GrantPath_eq_dec : EqDecision GrantPath.
Proof. solve_decision. Defined.

(** [io::ErrorKind]. *)
Inductive IoKind : Type := NotFound | OtherKind.

Record FileMeta : Type := mkFileMeta {
  is_file : bool;
  is_dir : bool;
  meta_len : Z;
}.

(** The content of files: the JSON document of a state, or the bytes of an envelope. *)
Class GrantDocs (Doc : Type) : Type := {
  to_json : GrantState -> Doc;
  from_json : Doc -> option GrantState;
  raw_bytes : list Z -> Doc;
  doc_size : Doc -> Z;
}.

(** The operations on files; a path is in the directory. *)
Class GrantFs (X Doc : Type) : Type := {
  new_uuid : X -> Uuid * X;
  symlink_metadata : GrantPath -> X -> Result IoKind FileMeta * X;
  directory_metadata : X -> Result IoKind FileMeta * X;
  set_private : X -> bool * X;
  create_dir : X -> bool * X;
  read_file : GrantPath -> X -> option Doc * X;
  create_new : GrantPath -> X -> bool * X;
  write_and_sync : GrantPath -> Doc -> X -> bool * X;
  rename : GrantPath -> GrantPath -> X -> bool * X;
  sync_directory : X -> bool * X;
  remove_file : GrantPath -> X -> bool * X;
}.

Section Store.
Context {X Doc : Type} `{!GrantCrypto} `{!GrantDocs Doc} `{!GrantFs X Doc}.

Definition GrantM (T : Type) : Type := M X Error T.

Definition io_error : Layer := Msg "io".
Definition bail {T} (text : string) : GrantM T := mfail [Msg text].
Definition within {T} (layer : Layer) (m : GrantM T) : GrantM T :=
  fun x => let '(r, x) := m x in (context layer r, x).
Definition reads {T} (f : X -> T * X) : GrantM T := fun x => let '(v, x) := f x in (Ok v, x).
(** An operation that says whether it succeeded. *)
Definition io (f : X -> bool * X) : GrantM unit :=
  let* done := reads f in if done : bool then mret tt else mfail [io_error].

Definition ensure_private_directory : GrantM unit :=
  let* meta := reads directory_metadata in
  match meta with
  | Ok m =>
      do* lift (demand (is_dir m) "private Grant path is not a real directory") in
      io set_private
  | Err NotFound =>
      do* within (Msg "create private Grant directory") (io create_dir) in
      io set_private
  | Err OtherKind => mfail [Msg "inspect private Grant directory"; io_error]
  end.

(** The closure of [atomic_private_json]. *)
Definition publish_file (temporary path : GrantPath) (doc : Doc) : GrantM unit :=
  do* within (Msg "create staged Grant state") (io (create_new temporary)) in
  do* within (Msg "write staged Grant state") (io (write_and_sync temporary doc)) in
  do* within (Msg "publish Grant state") (io (rename temporary path)) in
  within (Msg "sync Grant state directory") (io sync_directory).

Definition atomic_private_json (path : GrantPath) (st : GrantState) : GrantM unit :=
  do* ensure_private_directory in
  let doc := to_json st in
  do* lift (demand (negb ((doc_size doc =? 0) || (MAX_GRANT_STATE_BYTES <? doc_size doc)))
              "serialized Grant state size is invalid") in
  let* uuid := reads new_uuid in
  let* result := attempt (publish_file (TempPath uuid) path doc) in
  match result with
  | Ok _ => mret tt
  | Err e => do* reads (remove_file (TempPath uuid)) in mfail e
  end.

Definition state_path (s : GrantSubject) : Result Error GrantPath :=
  let? id := storage_id s in Ok (StatePath id).

Definition load_state (s : GrantSubject) : GrantM (option GrantState) :=
  let* path := lift (state_path s) in
  let* meta := reads (symlink_metadata path) in
  match meta with
  | Err NotFound => mret None
  | Err OtherKind => mfail [Msg "inspect Grant state"; io_error]
  | Ok m =>
      do* lift (demand (is_file m && negb (meta_len m =? 0) && (meta_len m <=? MAX_GRANT_STATE_BYTES))
                  "Grant state must be a bounded regular file") in
      let* content := reads (read_file path) in
      let* doc := lift (ok_or content [Msg "read Grant state"; io_error]) in
      let* st := lift (ok_or (from_json doc) [Msg "parse Grant state"; Msg "json"]) in
      do* lift (state_validate_for st s) in
      mret (Some st)
  end.

Definition store_state (s : GrantSubject) (st : GrantState) : GrantM unit :=
  do* lift (state_validate_for st s) in
  do* ensure_private_directory in
  let* path := lift (state_path s) in
  atomic_private_json path st.

Definition stage_unverified (access_grant : list Z) : GrantM GrantPath :=
  do* lift (demand (valid_access_grant access_grant) "Cloud returned a malformed Grant response") in
  let* raw := lift (ok_or (url_safe_decode access_grant) [Msg "decode staged Grant envelope"; Msg "base64"]) in
  do* ensure_private_directory in
  let* uuid := reads new_uuid in
  let path := CandidatePath uuid in
  do* within (Msg "create staged candidate Grant") (io (create_new path)) in
  let* written := reads (write_and_sync path (raw_bytes raw)) in
  if written : bool then mret path
  else
    do* reads (remove_file path) in
    mfail [Msg "write staged candidate Grant"; io_error].

(** ** The renewal *)

Inductive RefreshOutcome : Type :=
| Current (g : CachedGrant)
| Refreshed (g : CachedGrant)
| RetainedAfterTransientFailure (g : CachedGrant) (e : Error).

Definition outcome_grant (o : RefreshOutcome) : CachedGrant :=
  match o with
  | Current g | Refreshed g => g
  | RetainedAfterTransientFailure g _ => g
  end.

(** What the caller passes in: the exchange with Cloud, the verification of a staged envelope by
    Core, and the clock of the validation. *)
Record RefreshHooks : Type := mkHooks {
  fetch : GrantIssueRequest -> X -> Result FetchFailure GrantIssueResponse * X;
  verify : GrantPath -> GrantM VerifiedGrantReport;
  validation_now : GrantM Z;
}.

(** The error already names a [GrantFailure], or it gets this one. *)
Definition classified (e : Error) (stage code : string) : Error :=
  match downcast e with Some _ => e | None => Failed stage code :: e end.

Definition with_pending (p : option PendingIssuance) (st : GrantState) : GrantState :=
  mkGrantState (st_schema_version st) (st_subject st) (completed_sequence st) p (st_active st)
    (revoked_at_unix st).
Definition with_grant (g : CachedGrant) (sequence : Z) (st : GrantState) : GrantState :=
  mkGrantState (st_schema_version st) (st_subject st) sequence None (Some g) None.
Definition with_revocation (now : Z) (st : GrantState) : GrantState :=
  mkGrantState (st_schema_version st) (st_subject st) 0 None None (Some (Z.max now 1)).

(** A state with a pending issuance: the one it has, or the next, which is stored first. *)
Definition begin_issuance (s : GrantSubject) (st : GrantState) (now : Z) : GrantM GrantState :=
  match st_pending st with
  | Some _ => mret st
  | None =>
      let* sequence := lift (ok_or (checked_add1 (completed_sequence st))
                               [Msg "Grant renewal sequence overflow"]) in
      let* id := lift (request_id s sequence) in
      let st := with_pending (Some (mkPending sequence id (Z.max now 1))) st in
      do* within (Failed "grant_pending_persist" "grant_pending_persist_failed") (store_state s st) in
      mret st
  end.

(** Stage, verify, clean up; the error of the verification comes first. *)
Definition verify_staged (hooks : RefreshHooks) (response : GrantIssueResponse) : GrantM VerifiedGrantReport :=
  let* staging := within (Failed "grant_stage" "grant_staging_failed")
                    (stage_unverified (gr_access_grant response)) in
  let* verified := attempt (within (Failed "grant_core_verification" "grant_core_verification_failed")
                              (verify hooks staging)) in
  let* cleanup := attempt (within (Failed "grant_stage_cleanup" "grant_staging_cleanup_failed")
                             (io (remove_file staging))) in
  match verified, cleanup with
  | Ok report, Ok _ => mret report
  | Err e, _ => mfail e
  | Ok _, Err e => mfail e
  end.

Definition accept_grant (hooks : RefreshHooks) (s : GrantSubject) (st : GrantState)
    (p : PendingIssuance) (response : GrantIssueResponse) : GrantM RefreshOutcome :=
  do* within (Failed "grant_response_validation" "grant_response_invalid")
        (lift (validate_cloud_grant_response response)) in
  let* report := verify_staged hooks response in
  let* now := within (Msg "read time after Grant verification") (validation_now hooks) in
  let* g := lift (CachedGrant_from_response s (pi_sequence p) (pi_request_id p) response report now) in
  do* within (Failed "grant_active_persist" "grant_active_persist_failed")
        (store_state s (with_grant g (pi_sequence p) st)) in
  mret (Refreshed g).

Definition settle_failure (s : GrantSubject) (st : GrantState) (now : Z) (f : FetchFailure)
  : GrantM RefreshOutcome :=
  match f with
  | Transient e =>
      match usable st now with
      | None =>
          mfail (Msg "Grant fetch failed and no unexpired cached Grant exists"
                 :: classified e "grant_fetch" "grant_fetch_transient_failed")
      | Some g => mret (RetainedAfterTransientFailure g e)
      end
  | PolicyResyncRequired => mfail [Failed "grant_policy_binding" "route_policy_resync_required"]
  | Denied e =>
      do* within (Failed "grant_revocation_persist" "grant_revocation_persist_failed")
            (store_state s (with_revocation now st)) in
      mfail (Msg "Grant request rejected; cached credential invalidated"
             :: classified e "grant_http_response" "grant_authorization_denied")
  end.

Definition request_grant (hooks : RefreshHooks) (s : GrantSubject) (st : GrantState) (now : Z)
  : GrantM RefreshOutcome :=
  let* st := begin_issuance s st now in
  let* p := lift (ok_or (st_pending st) [Msg "missing pending Grant transaction"]) in
  let* answer := reads (fetch hooks (GrantIssueRequest_new s (pi_request_id p))) in
  match answer with
  | Ok response => accept_grant hooks s st p response
  | Err f => settle_failure s st now f
  end.

Definition refresh_with_clock (hooks : RefreshHooks) (s : GrantSubject) (now : Z) : GrantM RefreshOutcome :=
  do* within (Failed "grant_subject_validation" "grant_subject_invalid") (lift (subject_validate s)) in
  let* loaded := within (Failed "grant_state_load" "grant_state_load_failed") (load_state s) in
  let st := match loaded with Some st => st | None => GrantState_new s end in
  match revoked_at_unix st with
  | Some _ =>
      mfail [Failed "grant_cached_authorization" "grant_authorization_revoked";
             Msg "Grant was definitively revoked for this signed authorization generation"]
  | None =>
      match usable st now with
      | Some g => if should_refresh_at g now then request_grant hooks s st now else mret (Current g)
      | None => request_grant hooks s st now
      end
  end.

(** [unix_now]: [now] is [None] when the clock is before the epoch. *)
Definition unix_now (clock : X -> option Z * X) : GrantM Z :=
  let* now := reads clock in
  lift (ok_or now [Msg "read Grant validation clock"; Msg "clock"]).

Definition refresh_current (clock : X -> option Z * X)
    (fetch : GrantIssueRequest -> X -> Result FetchFailure GrantIssueResponse * X)
    (verify : GrantPath -> GrantM VerifiedGrantReport) (s : GrantSubject) : GrantM RefreshOutcome :=
  let* now := unix_now clock in
  refresh_with_clock (mkHooks fetch verify (unix_now clock)) s now.
End Store.

Arguments RefreshHooks X : clear implicits.
