(* ===== verification/GrantFacts.v ===== *)
(** * Access grants: validation

    What a validated grant says, and that the states which a renewal writes are valid again,
    so that the store never refuses what it has itself written. *)
From stdpp Require Import base tactics list numbers option strings.
From Stdlib Require Import ZArith Lia.
From S2P Require Import Prelude Grant GrantStore.

#[local] Open Scope Z_scope.

Lemma demand_ok b text v : demand b text = Ok v <-> b = true.
Proof. unfold demand. by destruct b, v. Qed.

Lemma demand_bind {T} b text (k : unit -> Result Error T) v :
  result_bind (demand b text) k = Ok v <-> b = true /\ k tt = Ok v.
Proof. unfold demand. destruct b; simpl; [tauto|]. split; [done|by intros [? _]]. Qed.

Lemma demand_inv {T} b text (k : unit -> Result Error T) v :
  result_bind (demand b text) k = Ok v -> b = true /\ k tt = Ok v.
Proof. apply demand_bind. Qed.

Lemma bind_ok {E A B} (r : Result E A) (k : A -> Result E B) v :
  result_bind r k = Ok v <-> exists a, r = Ok a /\ k a = Ok v.
Proof. split; [apply result_bind_Ok|]. by intros (a & -> & ?). Qed.

Lemma unit_ok {E} (r : Result E unit) v : r = Ok v <-> r = Ok tt.
Proof. by destruct v. Qed.

Lemma all_checks_ok checks :
  all_checks checks = Ok tt <-> Forall (fun c => c.1.1 = true) checks.
Proof.
  induction checks as [|[[valid stage] code] rest IH]; simpl; [by split|].
  rewrite Forall_cons. destruct valid; simpl; [rewrite IH; tauto|]. split; [done|by intros [? _]].
Qed.

(** ** What a report says of a subject *)

Record binds (s : GrantSubject) (r : VerifiedGrantReport) : Prop := {
  b_schema : vr_schema_version r = 1;
  b_ok : vr_ok r = true;
  b_grant : is_nil (vr_grant_id r) = false;
  b_tenant : vr_tenant_id r = tenant_id s;
  b_device : vr_device_id r = device_id s;
  b_key : vr_device_key_id r = device_key_id s;
  b_pool : vr_node_pool_id r = node_pool_id s;
  b_permission : vr_service_permission r = bytes_of "private.tun.connect";
  b_policy : vr_route_policy_id r = projection_id s;
  b_generation : vr_route_policy_generation r = projection_generation s;
  b_hash : vr_route_policy_content_hash r = projection_content_hash s;
  b_window : 0 <> vr_not_before_unix r /\ vr_not_before_unix r <= vr_refresh_after_unix r < vr_expires_at_unix r;
}.

Lemma binding_spec s r : validate_verified_grant_binding s r = Ok tt <-> binds s r.
Proof.
  unfold validate_verified_grant_binding. rewrite all_checks_ok. rewrite !Forall_cons, Forall_nil. simpl.
  rewrite !bool_decide_eq_true, !negb_true_iff, !Z.eqb_eq, Z.eqb_neq, Z.leb_le, Z.ltb_lt. split.
  - intros H. decompose [and] H. by constructor.
  - intros [? ? ? ? ? ? ? ? ? ? ? [? [? ?]]]. by split_and!.
Qed.

Section Facts.
Context {crypto : GrantCrypto}.

(** The grant [g] authorizes the device of [s], by a report of Core, for its own request. *)
Record authorizes (g : CachedGrant) (s : GrantSubject) : Prop := {
  au_binds : binds s (cg_verification g);
  au_grant : vr_grant_id (cg_verification g) = cg_grant_id g;
  au_expires : vr_expires_at_unix (cg_verification g) = cg_expires_at_unix g;
  au_request : request_id s (cg_sequence g) = Ok (cg_request_id g);
  au_fetched : cg_fetched_at_unix g <> 0 /\ cg_fetched_at_unix g < cg_expires_at_unix g;
  au_envelope : valid_access_grant (cg_access_grant g) = true;
}.

Lemma request_id_nonzero s n id : request_id s n = Ok id -> subject_validate s = Ok tt /\ n <> 0.
Proof.
  unfold request_id. intros ([] & Hs & [Hn _]%demand_bind)%bind_ok. split; [done|].
  by apply Z.eqb_neq, negb_true_iff.
Qed.

Lemma cached_valid_spec g s : cached_validate_for g s = Ok tt <-> authorizes g s.
Proof.
  unfold cached_validate_for. rewrite demand_bind, bind_ok, negb_true_iff, Z.eqb_neq. split.
  - intros (H0 & id & Hid & [H1 Hr]%demand_bind). apply result_bind_Ok in Hr as ([] & H2%binding_spec & H3%demand_ok).
    rewrite !andb_true_iff, !bool_decide_eq_true, !negb_true_iff, Z.eqb_neq, Z.ltb_lt in H1.
    rewrite andb_true_iff, bool_decide_eq_true, Z.eqb_eq in H3. destruct H1 as ((((E & _) & ?) & ?) & ?), H3.
    constructor; try done. by rewrite E.
  - intros [H2 H3 H4 H5 [H6 H7] H8]. split; [by apply (request_id_nonzero s _ (cg_request_id g))|].
    exists (cg_request_id g). split; [done|]. apply demand_bind. split.
    + rewrite !andb_true_iff, bool_decide_eq_true, !negb_true_iff, Z.eqb_neq, Z.ltb_lt.
      split_and!; try done. rewrite <- H3. apply H2.
    + apply bind_ok. exists tt. split; [by apply binding_spec|]. apply demand_ok.
      by rewrite andb_true_iff, bool_decide_eq_true, Z.eqb_eq.
Qed.

(** A grant made from a response authorizes, and is usable at the time of its validation. *)
Lemma from_response_spec s n id response report now g :
  CachedGrant_from_response s n id response report now = Ok g -> 0 <= vr_not_before_unix report ->
  authorizes g s /\ is_usable_at g now = true /\ cg_sequence g = n /\ cg_request_id g = id /\
  cg_access_grant g = gr_access_grant response /\ cg_verification g = report.
Proof.
  unfold CachedGrant_from_response. intros H Hu64.
  apply result_bind_Ok in H as (? & ? & H). apply result_bind_Ok in H as (id' & Hid & H).
  apply demand_inv in H as [E Hk]. apply bool_decide_eq_true in E as <-. apply result_bind_Ok in Hk as (? & Hresp%unit_ok & Hk).
  apply result_bind_Ok in Hk as (? & Hv%unit_ok & [= <-]).
  unfold validate_cloud_grant_response in Hresp. apply demand_ok in Hresp.
  apply andb_true_iff in Hresp as [_ Henv].
  unfold validate_verified_grant in Hv. apply result_bind_Ok in Hv as ([] & Hb%binding_spec & Hc).
  apply all_checks_ok in Hc. rewrite !Forall_cons in Hc. simpl in Hc.
  rewrite !negb_true_iff, bool_decide_eq_true, !Z.eqb_eq, Z.ltb_ge, Z.leb_gt in Hc.
  destruct Hc as (H1 & H2 & H3 & H4 & H5 & _). split_and!; try done.
  - constructor; simpl; try done. split; [|done]. destruct (b_window _ _ Hb) as [? ?]. lia.
  - unfold is_usable_at. simpl. by rewrite !andb_true_iff, Z.leb_le, Z.ltb_lt.
Qed.

(** ** Valid states *)

(** What [validate_for] demands of a state. *)
Record state_ok (s : GrantSubject) (st : GrantState) : Prop := {
  so_subject : subject_validate s = Ok tt;
  so_schema : st_schema_version st = GRANT_STATE_SCHEMA_VERSION;
  so_same : st_subject st = s;
  so_active g : st_active st = Some g ->
    authorizes g s /\ cg_sequence g = completed_sequence st /\ revoked_at_unix st = None;
  so_none : st_active st = None -> completed_sequence st = 0;
  so_pending p : st_pending st = Some p ->
    completed_sequence st < u64_MAX /\ pi_sequence p = completed_sequence st + 1 /\
    request_id s (pi_sequence p) = Ok (pi_request_id p) /\ pi_created_at_unix p <> 0;
}.

(** What [validate_request_id] demands of the identifiers that the store makes. *)
Definition digest_ok : Prop := forall s n id,
  request_id s n = Ok id -> validate_request_id id = Ok tt.

Lemma checked_add1_ok n m : checked_add1 n = Some m <-> n < u64_MAX /\ m = n + 1.
Proof.
  unfold checked_add1. destruct (Z.ltb_spec n u64_MAX) as [Hlt|Hge].
  - split; [intros [= <-]; done|intros [_ ->]; done].
  - split; [done|lia].
Qed.

Lemma pending_spec st s p :
  digest_ok ->
  pending_validate st s p = Ok tt <->
  completed_sequence st < u64_MAX /\ pi_sequence p = completed_sequence st + 1 /\
  request_id s (pi_sequence p) = Ok (pi_request_id p) /\ pi_created_at_unix p <> 0.
Proof.
  intros Hd. unfold pending_validate. rewrite !bind_ok. split.
  - intros (_ & _ & H). apply result_bind_Ok in H as (next & Hn & H). apply demand_inv in H as [Hs H].
    apply result_bind_Ok in H as (id & Hid & H). apply demand_ok in H.
    rewrite andb_true_iff, bool_decide_eq_true, negb_true_iff, Z.eqb_neq in H. destruct H as [-> ?].
    destruct (checked_add1 _) as [m|] eqn:E; [|done]. injection Hn as ->.
    apply checked_add1_ok in E as [? ->]. apply Z.eqb_eq in Hs. by split_and!.
  - intros (H1 & H2 & H3 & H4). exists tt. split; [by eapply Hd|]. apply bind_ok.
    exists (completed_sequence st + 1). split.
    { by rewrite (proj2 (checked_add1_ok _ _) (conj H1 eq_refl)). }
    apply demand_bind. split; [by apply Z.eqb_eq|]. apply bind_ok. exists (pi_request_id p). split; [done|].
    apply demand_ok. by rewrite andb_true_iff, bool_decide_eq_true, negb_true_iff, Z.eqb_neq.
Qed.

Lemma state_valid_spec s st : digest_ok -> state_validate_for st s = Ok tt <-> state_ok s st.
Proof.
  intros Hd. unfold state_validate_for. rewrite bind_ok. split.
  - intros ([] & H0 & [H1 Hrest]%demand_bind). apply result_bind_Ok in Hrest as (? & Ha%unit_ok & H).
    apply result_bind_Ok in H as (? & Hp%unit_ok & Hr%demand_ok).
    rewrite andb_true_iff, bool_decide_eq_true, Z.eqb_eq in H1. destruct H1.
    rewrite negb_true_iff, andb_false_iff, !bool_decide_eq_false, <- !eq_None_not_Some in Hr.
    constructor; try done.
    + intros g Hg. rewrite Hg in Ha. apply result_bind_Ok in Ha as ([] & Hc%cached_valid_spec & Hs%demand_ok).
      apply Z.eqb_eq in Hs. split_and!; [done..|]. by destruct Hr as [?|Hr]; [|rewrite Hr in Hg].
    + intros Hg. rewrite Hg in Ha. apply demand_ok in Ha. by apply Z.eqb_eq.
    + intros p Hpp. rewrite Hpp in Hp. by apply pending_spec in Hp.
  - intros [H0 H1 H2 H3 H4 H5]. exists tt. split; [done|]. apply demand_bind. split.
    { by rewrite andb_true_iff, bool_decide_eq_true, Z.eqb_eq. }
    apply bind_ok. exists tt. split.
    { destruct (st_active st) as [g|]; [|apply demand_ok, Z.eqb_eq; auto].
      destruct (H3 g eq_refl) as (Ha & Hs & _). apply bind_ok. exists tt. split; [by apply cached_valid_spec|].
      by apply demand_ok, Z.eqb_eq. }
    apply bind_ok. exists tt. split.
    { destruct (st_pending st) as [p|]; [|done]. by apply pending_spec; auto. }
    apply demand_ok. rewrite negb_true_iff, andb_false_iff, !bool_decide_eq_false.
    destruct (st_active st) as [g|]; [left|right; by intros []].
    destruct (H3 g eq_refl) as (_ & _ & ->). by intros [].
Qed.

Lemma new_state_ok s : subject_validate s = Ok tt -> state_ok s (GrantState_new s).
Proof. intros H. by constructor. Qed.

Lemma pending_state_ok s st id now :
  state_ok s st -> completed_sequence st < u64_MAX -> request_id s (completed_sequence st + 1) = Ok id ->
  state_ok s (with_pending (Some (mkPending (completed_sequence st + 1) id (Z.max now 1))) st).
Proof.
  intros [H0 H1 H2 H3 H4 H5] Hlt Hid. constructor; simpl; try done. intros p [= <-]. simpl.
  split_and!; [done..|lia].
Qed.

Lemma grant_state_ok s st g :
  state_ok s st -> authorizes g s -> state_ok s (with_grant g (cg_sequence g) st).
Proof.
  intros [H0 H1 H2 H3 H4 H5] Hg. constructor; simpl; try done. by intros g' [= <-].
Qed.

Lemma revoked_state_ok s st now : state_ok s st -> state_ok s (with_revocation now st).
Proof. intros [H0 H1 H2 H3 H4 H5]. by constructor. Qed.

(** ** The identifiers are well formed *)

Lemma hex_char_id d : 0 <= d < 16 -> id_byte (hex_char d) = true.
Proof. intros H. unfold hex_char, id_byte. destruct (Z.ltb_spec d 10); lia. Qed.

Lemma lower_hex_ids bytes : Forall is_byte bytes -> forallb id_byte (lower_hex bytes) = true.
Proof.
  induction 1 as [|b bytes Hb _ IH]; [done|]. unfold is_byte, is_u in Hb. simpl. rewrite IH, !hex_char_id; [done| |].
  - apply Z.mod_pos_bound. lia.
  - split; [apply Z.div_pos; lia|apply Z.div_lt_upper_bound; lia].
Qed.

Lemma length_lower_hex bytes : length (lower_hex bytes) = (2 * length bytes)%nat.
Proof. induction bytes as [|b bytes IH]; [done|]. simpl. rewrite IH. lia. Qed.

Lemma digests_ok : (forall message, is_array 32 (sha256 message)) -> digest_ok.
Proof.
  intros Hsha s n id H. unfold request_id in H. apply result_bind_Ok in H as (? & ? & H).
  apply demand_inv in H as [_ [= <-]]. unfold validate_request_id. apply demand_ok.
  unfold domain_hash. match goal with |- context [sha256 ?m] => destruct (Hsha m) as [Hl Hb] end.
  rewrite !andb_true_iff. split_and!; [done| |].
  - cbn [length]. by rewrite length_lower_hex, Hl.
  - cbn [forallb]. by rewrite lower_hex_ids.
Qed.
End Facts.
