(* ===== verification/GrantRuns.v ===== *)
(** * Access grants: renewals over a history

    The laws of the files, what every part of a renewal does to the state file and to the
    requests that were sent, and the theorems on [refresh_with_clock]: what the grants that
    it returns authorize, the order of the issuances, and the finality of a revocation. *)
From stdpp Require Import base tactics list numbers option relations strings.
From Stdlib Require Import ZArith Lia.
From S2P Require Import Prelude Grant GrantStore GrantFacts.

#[local] Open Scope Z_scope.

(** ** The laws

    [file_at] is what the directory holds, [asked_ids] the request identifiers that went to Cloud.
    An operation on a file changes that file only; a failed write may leave anything in it, a
    failed rename nothing. JSON documents are read as they were written. *)
Class GrantFsLaws (X Doc : Type) `{!GrantDocs Doc} `{!GrantFs X Doc} : Type := {
  file_at : X -> GrantPath -> option Doc;
  asked_ids : X -> list (list Z);
  new_uuid_law x : let x' := (new_uuid x).2 in asked_ids x' = asked_ids x /\ forall q, file_at x' q = file_at x q;
  metadata_law p x : let '(r, x') := symlink_metadata p x in
    asked_ids x' = asked_ids x /\ (forall q, file_at x' q = file_at x q) /\
    (r = Err NotFound -> file_at x p = None);
  directory_law x : let x' := (directory_metadata x).2 in
    asked_ids x' = asked_ids x /\ forall q, file_at x' q = file_at x q;
  private_law x : let x' := (set_private x).2 in
    asked_ids x' = asked_ids x /\ forall q, file_at x' q = file_at x q;
  create_dir_law x : let x' := (create_dir x).2 in
    asked_ids x' = asked_ids x /\ forall q, file_at x' q = file_at x q;
  read_law p x : let '(r, x') := read_file p x in
    asked_ids x' = asked_ids x /\ (forall q, file_at x' q = file_at x q) /\
    forall doc, r = Some doc -> file_at x p = Some doc;
  create_law p x : let x' := (create_new p x).2 in
    asked_ids x' = asked_ids x /\ forall q, q <> p -> file_at x' q = file_at x q;
  write_law p doc x : let '(done, x') := write_and_sync p doc x in
    asked_ids x' = asked_ids x /\ (forall q, q <> p -> file_at x' q = file_at x q) /\
    (done = true -> file_at x' p = Some doc);
  rename_law p p' x : let '(done, x') := rename p p' x in
    asked_ids x' = asked_ids x /\ (forall q, q <> p -> q <> p' -> file_at x' q = file_at x q) /\
    file_at x' p' = if done : bool then file_at x p else file_at x p';
  sync_law x : let x' := (sync_directory x).2 in
    asked_ids x' = asked_ids x /\ forall q, file_at x' q = file_at x q;
  remove_law p x : let x' := (remove_file p x).2 in
    asked_ids x' = asked_ids x /\ forall q, q <> p -> file_at x' q = file_at x q;
  json_law st : from_json (to_json st) = Some st;
}.

Section Runs.
Context {X Doc : Type} {crypto : GrantCrypto} `{!GrantDocs Doc} `{!GrantFs X Doc} `{!GrantFsLaws X Doc}.
Implicit Types (x : X) (s : GrantSubject) (st : GrantState).
#[local] Abbreviation GrantM := (@GrantStore.GrantM X).

(** What the closures may do: the fetch is one request, and neither it nor Core touches a state
    file; reports carry unsigned times. *)
Record hooks_ok (hooks : RefreshHooks X) : Prop := {
  hk_fetch q x : let x' := (fetch hooks q x).2 in
    asked_ids x' = asked_ids x ++ [gq_request_id q] /\ forall id, file_at x' (StatePath id) = file_at x (StatePath id);
  hk_verify p x : let '(r, x') := verify hooks p x in
    asked_ids x' = asked_ids x /\ (forall id, file_at x' (StatePath id) = file_at x (StatePath id)) /\
    forall report, r = Ok report -> 0 <= vr_not_before_unix report;
  hk_clock x : let x' := (validation_now hooks x).2 in
    asked_ids x' = asked_ids x /\ forall id, file_at x' (StatePath id) = file_at x (StatePath id);
}.

(** No request, and no state file changed. *)
Definition calm x x' : Prop :=
  asked_ids x' = asked_ids x /\ forall id, file_at x' (StatePath id) = file_at x (StatePath id).

Lemma calm_refl x : calm x x.
Proof. done. Qed.

Lemma calm_trans x1 x2 x3 : calm x1 x2 -> calm x2 x3 -> calm x1 x3.
Proof. intros [E1 F1] [E2 F2]. split; [congruence|]. intros id. by rewrite F2. Qed.

(** ** Rules *)

Definition calm_m {T} (m : GrantM T) : Prop := forall x, calm x (m x).2.

Lemma calm_seq {T U} (m : GrantM T) (k : T -> GrantM U) :
  calm_m m -> (forall v, calm_m (k v)) -> calm_m (mbind m k).
Proof.
  intros Hm Hk x. unfold mbind. specialize (Hm x). destruct (m x) as [[v|e] x']; [|done].
  eapply calm_trans; [done|apply Hk].
Qed.

Lemma calm_pure {T} (r : Result Error T) : calm_m (fun x => (r, x)).
Proof. intros x. apply calm_refl. Qed.

Lemma calm_reads {T} (f : X -> T * X) : (forall x, calm x (f x).2) -> calm_m (reads f).
Proof. intros Hf x. unfold reads. specialize (Hf x). by destruct (f x). Qed.

Lemma calm_within {T} layer (m : GrantM T) : calm_m m -> calm_m (within layer m).
Proof. intros Hm x. unfold within. specialize (Hm x). by destruct (m x). Qed.

Lemma calm_attempt {T} (m : GrantM T) : calm_m m -> calm_m (attempt m : GrantM _).
Proof. intros Hm x. unfold attempt. specialize (Hm x). by destruct (m x). Qed.

Lemma calm_uuid : calm_m (reads new_uuid).
Proof. apply calm_reads. intros x. destruct (new_uuid_law x). by split. Qed.
Lemma calm_metadata p : calm_m (reads (symlink_metadata p)).
Proof.
  apply calm_reads. intros x. pose proof (metadata_law p x) as H. destruct (symlink_metadata p x).
  destruct H as (? & ? & _). by split.
Qed.
Lemma calm_read p : calm_m (reads (read_file p)).
Proof.
  apply calm_reads. intros x. pose proof (read_law p x) as H. destruct (read_file p x).
  destruct H as (? & ? & _). by split.
Qed.
Lemma calm_directory : calm_m (reads directory_metadata).
Proof. apply calm_reads. intros x. destruct (directory_law x). by split. Qed.
Lemma calm_private : calm_m (io set_private).
Proof.
  apply calm_seq; [apply calm_reads; intros x; destruct (private_law x); by split|].
  intros []; apply calm_pure.
Qed.
Lemma calm_create_dir : calm_m (io create_dir).
Proof.
  apply calm_seq; [apply calm_reads; intros x; destruct (create_dir_law x); by split|].
  intros []; apply calm_pure.
Qed.
Lemma calm_create p : (forall id, p <> StatePath id) -> calm_m (io (create_new p)).
Proof.
  intros Hp. apply calm_seq; [|intros []; apply calm_pure].
  apply calm_reads. intros x. destruct (create_law p x) as [? H]. split; [done|]. intros id. apply H.
  intros E. by apply (Hp id).
Qed.
Lemma calm_write p doc : (forall id, p <> StatePath id) -> calm_m (reads (write_and_sync p doc)).
Proof.
  intros Hp. apply calm_reads. intros x. pose proof (write_law p doc x) as Hw.
  destruct (write_and_sync p doc x). destruct Hw as (? & H & _). split; [done|]. intros id. apply H.
  intros E. by apply (Hp id).
Qed.
Lemma calm_sync : calm_m (io sync_directory).
Proof.
  apply calm_seq; [apply calm_reads; intros x; destruct (sync_law x); by split|].
  intros []; apply calm_pure.
Qed.
Lemma calm_remove p : (forall id, p <> StatePath id) -> calm_m (reads (remove_file p)).
Proof.
  intros Hp. apply calm_reads. intros x. destruct (remove_law p x) as [? H]. split; [done|]. intros id.
  apply H. intros E. by apply (Hp id).
Qed.

Create HintDb calm.
#[local] Hint Resolve calm_uuid calm_metadata calm_read calm_directory calm_private calm_create_dir calm_sync : calm.
#[local] Hint Resolve calm_pure calm_within calm_attempt : calm.

Ltac calm_tac :=
  repeat match goal with
  | |- calm_m (mbind _ _) => apply calm_seq; [|intros ?]
  | |- calm_m (within _ _) => apply calm_within
  | |- calm_m (attempt _) => apply calm_attempt
  | |- calm_m (lift _) => apply calm_pure
  | |- calm_m (mret _) => apply calm_pure
  | |- calm_m (mfail _) => apply calm_pure
  | |- calm_m (io (create_new _)) => apply calm_create; done
  | |- calm_m (reads (write_and_sync _ _)) => apply calm_write; done
  | |- calm_m (reads (remove_file _)) => apply calm_remove; done
  | |- calm_m (match ?c with _ => _ end) => destruct c
  | |- calm_m _ => solve [auto with calm]
  end.

Lemma calm_ensure : calm_m (ensure_private_directory : GrantM unit).
Proof. unfold ensure_private_directory. calm_tac. Qed.
#[local] Hint Resolve calm_ensure : calm.

Lemma calm_stage grant : calm_m (stage_unverified grant : GrantM GrantPath).
Proof. unfold stage_unverified. calm_tac. Qed.
#[local] Hint Resolve calm_stage : calm.

Lemma calm_staged grant x p x' : stage_unverified grant x = (Ok p, x') -> forall id, p <> StatePath id.
Proof.
  unfold stage_unverified. intros H id ->.
  repeat match type of H with
  | mbind ?m ?k ?y = _ => unfold mbind at 1 in H; destruct (m y) as [[?|?] ?]; [|done]
  | (match ?b with _ => _ end) _ = _ => destruct b
  end; done.
Qed.

(** ** Publishing a state *)

(** A file replaced by a document, or left as it was. *)
Lemma publish_wp u id doc x :
  let '(r, x') := publish_file (TempPath u) (StatePath id) doc x in
  asked_ids x' = asked_ids x /\ (forall id', id' <> id -> file_at x' (StatePath id') = file_at x (StatePath id')) /\
  (file_at x' (StatePath id) = Some doc \/ is_ok r = false /\ file_at x' (StatePath id) = file_at x (StatePath id)).
Proof.
  unfold publish_file, mbind, within, io, reads, mret, mfail. unfold mbind.
  pose proof (create_law (TempPath u) x) as Hc. destruct (create_new (TempPath u) x) as [[] x1]; simpl in *;
    destruct Hc as [A1 F1]; [|split_and!; [done|intros; by apply F1|right; by rewrite F1]].
  pose proof (write_law (TempPath u) doc x1) as Hw. destruct (write_and_sync (TempPath u) doc x1) as [[] x2]; simpl in *;
    destruct Hw as (A2 & F2 & D2);
    [|split_and!; [congruence|intros; by rewrite F2, F1|right; by rewrite F2, F1]].
  pose proof (rename_law (TempPath u) (StatePath id) x2) as Hr.
  destruct (rename (TempPath u) (StatePath id) x2) as [[] x3]; simpl in *; destruct Hr as (A3 & F3 & D3).
  - rewrite D2 in D3 by done. pose proof (sync_law x3) as Hs. destruct (sync_directory x3) as [[] x4]; simpl in *;
      destruct Hs as [A4 F4]; (split_and!; [congruence| |left; by rewrite F4]);
      intros id' Hne; rewrite F4, F3, F2, F1 by congruence; done.
  - split_and!; [congruence|intros id' Hne; rewrite F3, F2, F1 by congruence; done|right].
    by rewrite D3, F2, F1.
Qed.

Lemma atomic_wp id st x :
  let '(r, x') := atomic_private_json (StatePath id) st x in
  asked_ids x' = asked_ids x /\ (forall id', id' <> id -> file_at x' (StatePath id') = file_at x (StatePath id')) /\
  (file_at x' (StatePath id) = Some (to_json st) \/
   is_ok r = false /\ file_at x' (StatePath id) = file_at x (StatePath id)).
Proof.
  unfold atomic_private_json. unfold mbind at 1.
  pose proof (calm_ensure x) as [A1 F1]. destruct (ensure_private_directory x) as [[[]|e] x1]; simpl in A1, F1;
    [|split_and!; [done|intros; apply F1|right; by rewrite F1]].
  unfold mbind at 1, lift at 1. destruct (demand _ _) as [[]|e]; [|split_and!; [done|intros; apply F1|right; by rewrite F1]].
  unfold mbind at 1. pose proof (calm_uuid x1) as [A2 F2]. destruct (reads new_uuid x1) as [[u|e] x2]; simpl in A2, F2;
    [|split_and!; [congruence|intros; by rewrite F2, F1|right; by rewrite F2, F1]].
  unfold mbind at 1, attempt. pose proof (publish_wp u id (to_json st) x2) as Hp.
  destruct (publish_file (TempPath u) (StatePath id) (to_json st) x2) as [[[]|e] x3]; destruct Hp as (A3 & F3 & D3).
  - split_and!; [simpl; congruence|intros; simpl; by rewrite F3, F2, F1|]. left. by destruct D3 as [?|[? _]].
  - unfold mbind. pose proof (calm_remove (TempPath u) ltac:(done) x3) as [A4 F4].
    destruct (reads (remove_file (TempPath u)) x3) as [[b|e'] x4]; simpl in *;
      (split_and!; [congruence|intros; rewrite F4, F3, F2, F1; done|]);
      rewrite F4; (destruct D3 as [D3|[_ D3]]; [by left|right]); by rewrite D3, F2, F1.
Qed.

(** The state file after a store: the new state, if it was valid, or what it was. *)
Lemma store_wp s id st x :
  storage_id s = Ok id ->
  let '(r, x') := store_state s st x in
  asked_ids x' = asked_ids x /\
  (file_at x' (StatePath id) = Some (to_json st) /\ state_validate_for st s = Ok tt \/
   is_ok r = false /\ file_at x' (StatePath id) = file_at x (StatePath id)).
Proof.
  intros Hid. unfold store_state. unfold mbind at 1, lift at 1.
  destruct (state_validate_for st s) as [[]|e]; [|by auto].
  unfold mbind at 1. pose proof (calm_ensure x) as [A1 F1].
  destruct (ensure_private_directory x) as [[[]|e] x1]; simpl in A1, F1; [|by auto].
  unfold mbind, lift, state_path. rewrite Hid. simpl.
  pose proof (atomic_wp id st x1) as Ha. destruct (atomic_private_json (StatePath id) st x1) as [r x2].
  destruct Ha as (A2 & _ & D2). split; [congruence|]. destruct D2 as [?|[? D2]]; [by left|right]. by rewrite D2.
Qed.

Lemma load_calm s : calm_m (load_state s : GrantM (option GrantState)).
Proof.
  unfold load_state. calm_tac.
Qed.

(** What is loaded is what the file holds, and valid. *)
Lemma load_wp s id x :
  storage_id s = Ok id ->
  match (load_state s x).1 with
  | Ok None => file_at x (StatePath id) = None
  | Ok (Some st) => (exists doc, file_at x (StatePath id) = Some doc /\ from_json doc = Some st) /\
      state_validate_for st s = Ok tt
  | Err _ => True
  end.
Proof.
  intros Hid. unfold load_state, mbind, lift, state_path, reads. rewrite Hid. simpl.
  pose proof (metadata_law (StatePath id) x) as Hm. destruct (symlink_metadata (StatePath id) x) as [[m|[]] x1];
    destruct Hm as (_ & Hm & Hn); simpl; [|by apply Hn|done].
  destruct (demand _ _); [|done]. pose proof (read_law (StatePath id) x1) as Hr.
  destruct (read_file (StatePath id) x1) as [[doc|] x2]; destruct Hr as (_ & _ & Hr); simpl; [|done].
  destruct (from_json doc) as [st|] eqn:Ej; [|done]. simpl.
  destruct (state_validate_for st s) as [[]|] eqn:Ev; [|done]. simpl. split; [|done].
  exists doc. split; [|done]. by rewrite <- Hm, (Hr doc).
Qed.

(** ** The parts of a renewal *)

Lemma wp_calm {T} (m : GrantM T) (Q : Result Error T -> X -> Prop) x :
  calm_m m -> (forall r x', calm x x' -> Q r x') -> wp m Q x.
Proof. intros Hm HQ. unfold wp. apply HQ. apply Hm. Qed.

Lemma wp_within {T} layer (m : GrantM T) (Q : Result Error T -> X -> Prop) x :
  wp m (fun r x' => Q (context layer r) x') x -> wp (within layer m) Q x.
Proof. unfold wp, within. by destruct (m x). Qed.

Lemma verify_staged_wp hooks response (Q : Result Error VerifiedGrantReport -> X -> Prop) x :
  hooks_ok hooks ->
  (forall r x', calm x x' -> (forall report, r = Ok report -> 0 <= vr_not_before_unix report) -> Q r x') ->
  wp (verify_staged hooks response) Q x.
Proof.
  intros Hh HQ. unfold verify_staged. apply wp_mbind, wp_within. unfold wp at 1.
  pose proof (calm_stage (gr_access_grant response) x) as C1.
  destruct (stage_unverified (gr_access_grant response) x) as [[p|e] x1] eqn:Es; simpl in *; [|by apply HQ].
  pose proof (calm_staged _ _ _ _ Es) as Hp. apply wp_mbind, wp_attempt, wp_within. unfold wp at 1.
  pose proof (hk_verify _ Hh p x1) as Hv. destruct (verify hooks p x1) as [r x2]. destruct Hv as (A2 & F2 & Hr). simpl.
  assert (C2 : calm x x2) by (eapply calm_trans; [done|by split]).
  apply wp_mbind, wp_attempt, wp_within, wp_calm; [unfold io; calm_tac; by apply calm_remove|].
  intros c x3 C3. assert (C4 : calm x x3) by (by eapply calm_trans).
  destruct r as [report|e]; simpl; [destruct c; simpl|]; unfold wp; simpl; apply HQ; try done.
Qed.

(** ** The order of the issuances *)

Definition last_of (l : list Z) : Z := List.last l 0.

(** From [from] on, the same or the next. *)
Fixpoint climbs (from : Z) (l : list Z) : Prop :=
  match l with
  | [] => True
  | n :: rest => (n = from \/ n = from + 1) /\ climbs n rest
  end.

Lemma last_snoc l n : last_of (l ++ [n]) = n.
Proof. unfold last_of. by rewrite List.last_last. Qed.

Lemma climbs_snoc from l n :
  climbs from l -> (n = List.last l from \/ n = List.last l from + 1) -> climbs from (l ++ [n]).
Proof.
  revert from. induction l as [|m l IH]; intros from; simpl; [by split|]. intros [? Hl] Hn. split; [done|].
  apply IH; [done|]. destruct l as [|k l]; [done|].
  assert (E : forall d d', List.last (k :: l) d = List.last (k :: l) d').
  { clear. revert k. induction l as [|j l IH]; intros k d d'; [done|]. apply (IH j). }
  by rewrite (E m from).
Qed.

(** The state file, when [n] is the last sequence that was asked for. *)
Definition recorded (s : GrantSubject) (n : Z) (file : option Doc) : Prop :=
  match file with
  | None => n = 0
  | Some doc => exists st, from_json doc = Some st /\ state_ok s st /\
      (revoked_at_unix st = None ->
       n = completed_sequence st \/ n = completed_sequence st + 1 /\ is_Some (st_pending st))
  end.

(** The requests that were sent carry the sequences 1, 2, .. in order, each any number of times,
    and the state file accounts for the last. *)
Definition in_order (s : GrantSubject) (n : Z) x : Prop :=
  exists id l, storage_id s = Ok id /\ Forall2 (fun n id => request_id s n = Ok id) l (asked_ids x) /\
    climbs 0 l /\ last_of l = n /\ recorded s n (file_at x (StatePath id)).

Lemma calm_in_order s n x x' : calm x x' -> in_order s n x -> in_order s n x'.
Proof. intros [A F] (id & l & H). exists id, l. by rewrite A, F. Qed.

(** The state in memory is the one in the file, or the file is not there yet. *)
Definition synced (s : GrantSubject) st x : Prop :=
  state_ok s st /\ exists id, storage_id s = Ok id /\
    match file_at x (StatePath id) with
    | Some doc => from_json doc = Some st
    | None => st = GrantState_new s
    end.

Lemma calm_synced s st x x' : calm x x' -> synced s st x -> synced s st x'.
Proof. intros [_ F] (H & id & Hid & Hf). split; [done|]. exists id. by rewrite F. Qed.

(** The state accounts for [n]. *)
Definition accounts (st : GrantState) (n : Z) : Prop :=
  revoked_at_unix st = None ->
  n = completed_sequence st \/ n = completed_sequence st + 1 /\ is_Some (st_pending st).

Lemma synced_accounts s n st x : in_order s n x -> synced s st x -> accounts st n.
Proof.
  intros (id & l & Hid & _ & _ & _ & Hr) (_ & id' & Hid' & Hf). assert (id' = id) as -> by congruence.
  unfold recorded in Hr. destruct (file_at x (StatePath id)) as [doc|].
  - destruct Hr as (st0 & Hj & _ & H). assert (st0 = st) as -> by congruence. exact H.
  - subst st n. intros _. by left.
Qed.

(** A stored state, if it accounts for what was asked. *)
Lemma store_in_order s n st x (Q : Result Error unit -> X -> Prop) :
  digest_ok -> in_order s n x -> accounts st n ->
  (forall r x', in_order s n x' -> (is_ok r = true -> synced s st x' /\
     exists id, storage_id s = Ok id /\ file_at x' (StatePath id) = Some (to_json st)) -> Q r x') ->
  wp (store_state s st) Q x.
Proof.
  intros Hd (id & l & Hid & Hl & Hc & Hn & Hr) Hst HQ. unfold wp.
  pose proof (store_wp s id st x Hid) as Hs. destruct (store_state s st x) as [r x']. destruct Hs as [A D].
  simpl. apply HQ.
  - exists id, l. rewrite A. split_and!; [done..|]. destruct D as [[-> Hv]|[_ ->]]; [|done].
    apply state_valid_spec in Hv; [|done]. exists st. split_and!; [apply json_law|done|done].
  - intros Hok. destruct D as [[D Hv]|[Hno _]]; [|congruence]. apply state_valid_spec in Hv; [|done]. split.
    + split; [done|]. exists id. split; [done|]. rewrite D. apply json_law.
    + by exists id.
Qed.

(** A renewal's request: the pending issuance is in the file before it is sent. *)
Lemma begin_issuance_wp s n st now x (Q : Result Error GrantState -> X -> Prop) :
  digest_ok -> in_order s n x -> synced s st x -> revoked_at_unix st = None ->
  (forall r x', in_order s n x' ->
     (forall st', r = Ok st' -> synced s st' x' /\ revoked_at_unix st' = None /\
        exists id p, storage_id s = Ok id /\ is_Some (file_at x' (StatePath id)) /\ st_pending st' = Some p) ->
     Q r x') ->
  wp (begin_issuance s st now) Q x.
Proof.
  intros Hd Ho Hsync Hrev HQ. unfold begin_issuance. destruct (st_pending st) as [p|] eqn:Ep.
  { apply wp_mret, HQ; [done|]. intros st' [= <-]. split_and!; [done..|].
    destruct Hsync as (Hok & id & Hid & Hf). exists id, p. split_and!; [done| |done].
    destruct (file_at x (StatePath id)); [by eexists|]. by subst st. }
  apply wp_mbind, wp_lift. destruct (checked_add1 _) as [m|] eqn:En; simpl; [|by apply HQ].
  apply checked_add1_ok in En as [Hlt ->].
  apply wp_mbind, wp_lift. destruct (request_id s _) as [id|e] eqn:Eid; [|by apply HQ].
  pose proof (pending_state_ok s st id now (proj1 Hsync) Hlt Eid) as Hok'.
  pose proof (synced_accounts _ _ _ _ Ho Hsync Hrev) as Hacc.
  set (st' := with_pending _ st) in *. apply wp_mbind, wp_within.
  apply (store_in_order s n); [done|done| |].
  - intros _. destruct Hacc as [?|[? _]]; [by left|right]. by split.
  - intros r x' Ho' Hs. destruct r as [[]|e]; simpl; [|by apply HQ].
    destruct (Hs eq_refl) as [Hsy (fid & Hfid & Hfile)]. apply wp_mret, HQ; [done|]. intros ? [= <-].
    split_and!; [done..|]. exists fid, (mkPending (completed_sequence st + 1) id (Z.max now 1)).
    split_and!; [done|by eexists|done].
Qed.

Lemma fetch_in_order hooks s n st p x :
  hooks_ok hooks -> in_order s n x -> synced s st x -> st_pending st = Some p -> revoked_at_unix st = None ->
  (exists id, storage_id s = Ok id /\ is_Some (file_at x (StatePath id))) ->
  let x' := (fetch hooks (GrantIssueRequest_new s (pi_request_id p)) x).2 in
  in_order s (pi_sequence p) x' /\ synced s st x'.
Proof.
  intros Hh Ho Hsync Hp Hrev (id'' & Hid'' & [doc Hdoc]).
  pose proof (synced_accounts _ _ _ _ Ho Hsync Hrev) as Hacc.
  destruct Ho as (id & l & Hid & Hl & Hc & Hn & Hr), Hsync as (Hok & id' & Hid' & Hf).
  assert (id' = id) as -> by congruence. assert (id'' = id) as -> by congruence.
  destruct (hk_fetch _ Hh (GrantIssueRequest_new s (pi_request_id p)) x) as [A F]. simpl in A. simpl.
  destruct (so_pending _ _ Hok p Hp) as (_ & Hseq & Hreq & _). split.
  - exists id, (l ++ [pi_sequence p]). rewrite A, F, Hdoc. rewrite Hdoc in Hf. split_and!; [done| | |apply last_snoc|].
    + apply Forall2_app; [done|by repeat constructor].
    + apply climbs_snoc; [done|]. unfold last_of in Hn. rewrite Hn, Hseq.
      destruct Hacc as [->|[-> _]]; [by right|by left].
    + exists st. split_and!; [done..|]. intros _. right. by split.
  - split; [done|]. exists id. by rewrite F.
Qed.

(** What a renewal returns. *)
Definition returns_ok (hooks : RefreshHooks X) (s : GrantSubject) (now : Z) (o : RefreshOutcome) : Prop :=
  match o with
  | Current g => authorizes g s /\ is_usable_at g now = true /\ now < vr_refresh_after_unix (cg_verification g)
  | Refreshed g => authorizes g s /\
      exists t x x', validation_now hooks x = (Ok t, x') /\ is_usable_at g t = true
  | RetainedAfterTransientFailure g _ => authorizes g s /\ is_usable_at g now = true
  end.

Lemma usable_spec s st now g :
  state_ok s st -> usable st now = Some g -> authorizes g s /\ is_usable_at g now = true.
Proof.
  intros Hok. unfold usable. destruct (revoked_at_unix st); [done|].
  destruct (st_active st) as [g'|] eqn:Ea; [|done]. destruct (is_usable_at g' now) eqn:Eu; [|done].
  intros [= <-]. split; [|done]. by apply (so_active _ _ Hok).
Qed.

Lemma accept_wp hooks s st p response now x (Q : Result Error RefreshOutcome -> X -> Prop) :
  digest_ok -> hooks_ok hooks -> in_order s (pi_sequence p) x -> synced s st x -> st_pending st = Some p ->
  (forall r x', in_order s (pi_sequence p) x' -> (forall o, r = Ok o -> returns_ok hooks s now o) -> Q r x') ->
  wp (accept_grant hooks s st p response) Q x.
Proof.
  intros Hd Hh Ho Hsync Hp HQ. unfold accept_grant.
  apply wp_mbind, wp_within, wp_lift. destruct (validate_cloud_grant_response response); simpl; [|by apply HQ].
  apply wp_mbind, verify_staged_wp; [done|]. intros r x1 C1 Hu.
  pose proof (calm_in_order _ _ _ _ C1 Ho) as Ho1. destruct r as [report|e]; [|by apply HQ].
  apply wp_mbind, wp_within. unfold wp at 1. pose proof (hk_clock _ Hh x1) as C2.
  destruct (validation_now hooks x1) as [[t|e] x2] eqn:Et; simpl in *;
    pose proof (calm_in_order s (pi_sequence p) x1 x2 C2 Ho1) as Ho2; [|by apply HQ].
  apply wp_mbind, wp_lift. destruct (CachedGrant_from_response _ _ _ _ _ _) as [g|e] eqn:Eg; [|by apply HQ].
  apply from_response_spec in Eg as (Hg & Hus & Hseq & _ & _ & _); [|by apply Hu].
  apply wp_mbind, wp_within. apply (store_in_order s (pi_sequence p)); [done|done|by left|].
  intros r x3 Ho3 _. destruct r; simpl; [|by apply HQ]. apply wp_mret, HQ; [done|]. intros ? [= <-].
  split; [done|]. by exists t, x1, x2.
Qed.

Lemma settle_wp hooks s n st now f x (Q : Result Error RefreshOutcome -> X -> Prop) :
  digest_ok -> in_order s n x -> synced s st x ->
  (forall r x', in_order s n x' -> (forall o, r = Ok o -> returns_ok hooks s now o) -> Q r x') ->
  wp (settle_failure s st now f) Q x.
Proof.
  intros Hd Ho Hsync HQ. unfold settle_failure. destruct f as [e|e|].
  - destruct (usable st now) as [g|] eqn:Eu; [|by apply wp_mfail, HQ].
    apply wp_mret, HQ; [done|]. intros ? [= <-]. by apply (usable_spec s st now g (proj1 Hsync)).
  - apply wp_mbind, wp_within. apply (store_in_order s n); [done|done|done|].
    intros r x1 Ho1 _. destruct r; simpl; [|by apply HQ]. by apply wp_mfail, HQ.
  - by apply wp_mfail, HQ.
Qed.

Lemma request_grant_wp hooks s n st now x (Q : Result Error RefreshOutcome -> X -> Prop) :
  digest_ok -> hooks_ok hooks -> in_order s n x -> synced s st x -> revoked_at_unix st = None ->
  (forall r n' x', in_order s n' x' -> (forall o, r = Ok o -> returns_ok hooks s now o) -> Q r x') ->
  wp (request_grant hooks s st now) Q x.
Proof.
  intros Hd Hh Ho Hsync Hrev HQ. unfold request_grant. apply wp_mbind.
  apply (begin_issuance_wp s n); [done..|]. intros r x1 Ho1 Hst. destruct r as [st'|e]; [|by apply (HQ _ n)].
  destruct (Hst st' eq_refl) as (Hs1 & Hrev1 & id & p & Hid & Hf & Hp). rewrite Hp. simpl.
  apply wp_mbind, wp_lift. simpl. apply wp_mbind. unfold wp at 1, reads.
  destruct (fetch_in_order hooks s n st' p x1 Hh Ho1 Hs1 Hp Hrev1 (ex_intro _ id (conj Hid Hf))) as [Ho2 Hs2].
  destruct (fetch hooks _ x1) as [answer x2]. simpl in *. destruct answer as [response|f].
  - eapply accept_wp; try done. intros r x3 Ho3. by apply (HQ _ (pi_sequence p)).
  - eapply (settle_wp hooks); try done. intros r x3 Ho3. by apply (HQ _ (pi_sequence p)).
Qed.

Lemma loaded_synced s n x :
  digest_ok -> subject_validate s = Ok tt -> in_order s n x ->
  wp (load_state s : GrantM _) (fun r x' => in_order s n x' /\ forall o, r = Ok o ->
    synced s (match o with Some st => st | None => GrantState_new s end) x') x.
Proof.
  intros Hd Hv Ho. pose proof (load_calm s x) as C. pose proof (calm_in_order _ _ _ _ C Ho) as Ho1.
  destruct Ho1 as (id & l & Hid & Hrest). pose proof (load_wp s id x Hid) as Hl. unfold wp.
  destruct (load_state s x) as [r x']. simpl in *. split; [by exists id, l|]. intros o ->.
  destruct C as [_ F]. destruct o as [st|].
  - destruct Hl as ((doc & Hf & Hj) & Hst). apply state_valid_spec in Hst; [|done]. split; [done|].
    exists id. by rewrite F, Hf.
  - split; [by apply new_state_ok|]. exists id. by rewrite F, Hl.
Qed.

Lemma refresh_wp hooks s n now x :
  digest_ok -> hooks_ok hooks -> in_order s n x ->
  wp (refresh_with_clock hooks s now)
    (fun r x' => (exists n', in_order s n' x') /\ forall o, r = Ok o -> returns_ok hooks s now o) x.
Proof.
  intros Hd Hh Ho. unfold refresh_with_clock. apply wp_mbind, wp_within, wp_lift.
  destruct (subject_validate s) as [[]|e] eqn:Hv; simpl; [|split; [by exists n|done]].
  apply wp_mbind, wp_within. eapply wp_mono; [by apply (loaded_synced s n)|].
  intros r x1 (Ho1 & Hs1). destruct r as [o|e]; simpl; [|split; [by exists n|done]].
  specialize (Hs1 o eq_refl). set (st := match o with Some st => st | None => _ end) in *.
  destruct (revoked_at_unix st) eqn:Hrev; [apply wp_mfail; split; [by exists n|done]|].
  assert (Hreq : wp (request_grant hooks s st now) (fun r x' => (exists n', in_order s n' x') /\
    forall o, r = Ok o -> returns_ok hooks s now o) x1).
  { eapply (request_grant_wp hooks s n); try done. intros r n' x' H1 H2. split; [by exists n'|done]. }
  destruct (usable st now) as [g|] eqn:Eu; [|done]. destruct (should_refresh_at g now) eqn:Es; [done|].
  apply wp_mret. split; [by exists n|]. intros ? [= <-].
  destruct (usable_spec s st now g (proj1 Hs1) Eu) as [H1 H2]. split_and!; [done..|].
  unfold should_refresh_at in Es. rewrite H2 in Es. by apply Z.leb_gt.
Qed.

(** ** Histories *)

(** Renewals of one subject, each with its own closures, and whatever else leaves the state
    files and Cloud alone. *)
Inductive grant_step (s : GrantSubject) x : X -> Prop :=
| grant_refresh hooks now : hooks_ok hooks -> grant_step s x (refresh_with_clock hooks s now x).2
| grant_elsewhere x' : calm x x' -> grant_step s x x'.

(** Nothing stored, nothing asked. *)
Definition grant_fresh (s : GrantSubject) x : Prop :=
  asked_ids x = [] /\ exists id, storage_id s = Ok id /\ file_at x (StatePath id) = None.

Lemma run_in_order s n x x' :
  digest_ok -> in_order s n x -> rtc (grant_step s) x x' -> exists n', in_order s n' x'.
Proof.
  intros Hd Ho H. revert n Ho. induction H as [x|x1 x2 x3 Hs _ IH]; intros n Ho; [by exists n|].
  assert (H : exists n', in_order s n' x2).
  { destruct Hs as [hooks now Hh|x2 Hc]; [|exists n; by eapply calm_in_order].
    pose proof (refresh_wp hooks s n now x1 Hd Hh Ho) as Hw. unfold wp in Hw. apply Hw. }
  destruct H as [n' H]. by eapply IH.
Qed.

Lemma fresh_in_order s x : grant_fresh s x -> in_order s 0 x.
Proof. intros (Ha & id & Hid & Hf). exists id, []. rewrite Ha, Hf. by split_and!. Qed.

(** C17. Issuances happen in order and are never forgotten: over any history of renewals of a
    subject, with failed and half-done writes, lost answers and refusals, the identifiers that
    were sent to Cloud are those of the sequences 1, 2, 3, .. in this order, each repeated any
    number of times; and the last of them is, unless the authorization was revoked, either the
    sequence of the stored grant or the stored pending issuance, so that a request which may
    have been received is repeated with the same identity until its answer is stored. *)
Theorem issuances_in_order s x x' :
  (forall message, is_array 32 (sha256 message)) -> grant_fresh s x -> rtc (grant_step s) x x' ->
  exists id l, storage_id s = Ok id /\ Forall2 (fun n id => request_id s n = Ok id) l (asked_ids x') /\
    climbs 0 l /\ recorded s (last_of l) (file_at x' (StatePath id)).
Proof.
  intros Hsha H0 Hrun. destruct (run_in_order s 0 x x' (digests_ok Hsha) (fresh_in_order s x H0) Hrun)
    as (n & id & l & H1 & H2 & H3 & <- & H4). by exists id, l.
Qed.

(** C11. What a renewal returns authorizes: any grant that it returns, kept, renewed or retained
    after a failure, carries a report of Core that names the tenant, the device and its key,
    the pool, the permission and the signed policy of the subject, belongs to a request of this
    subject, and is within its validity at the time of the renewal or, for a new grant, at the
    time read after its verification. *)
Theorem renewal_authorizes s x x' hooks now o x'' :
  (forall message, is_array 32 (sha256 message)) -> grant_fresh s x -> rtc (grant_step s) x x' ->
  hooks_ok hooks -> refresh_with_clock hooks s now x' = (Ok o, x'') -> returns_ok hooks s now o.
Proof.
  intros Hsha H0 Hrun Hh Hr. pose proof (digests_ok Hsha) as Hd.
  destruct (run_in_order s 0 x x' Hd (fresh_in_order s x H0) Hrun) as [n Ho].
  pose proof (refresh_wp hooks s n now x' Hd Hh Ho) as Hw. unfold wp in Hw. rewrite Hr in Hw. by apply Hw.
Qed.

(** ** Revocation *)

Definition DENIED : string := "Grant request rejected; cached credential invalidated".

(** The error of a denial that was stored. *)
Definition is_denial (e : Error) : bool :=
  match e with Msg text :: _ => bool_decide (text = DENIED) | _ => false end.

(** A method whose errors are no denials. *)
Definition no_denial {T} (r : Result Error T) : Prop := forall e, r = Err e -> is_denial e = false.
Definition plain {T} (m : GrantM T) : Prop := forall x, no_denial (m x).1.

Lemma plain_bind {T U} (m : GrantM T) (k : T -> GrantM U) : plain m -> (forall v, plain (k v)) -> plain (mbind m k).
Proof.
  intros Hm Hk x. unfold mbind. specialize (Hm x). destruct (m x) as [[v|e] x']; [apply Hk|].
  intros e' [= <-]. by apply Hm.
Qed.
Lemma plain_failed {T} stage code (m : GrantM T) : plain (within (Failed stage code) m).
Proof. intros x. unfold within. destruct (m x) as [[v|e] x']; intros e' [= <-]. done. Qed.
Lemma plain_msg {T} text (m : GrantM T) : text <> DENIED -> plain (within (Msg text) m).
Proof.
  intros Ht x. unfold within. destruct (m x) as [[v|e] x']; intros e' [= <-]. by apply bool_decide_eq_false.
Qed.
Lemma plain_lift {T} (r : Result Error T) : no_denial r -> plain (lift r).
Proof. by intros Hr x. Qed.
Lemma plain_ok {T} (v : T) : plain (mret v).
Proof. by intros x. Qed.
Lemma plain_reads {T} (f : X -> T * X) : plain (reads f).
Proof. intros x. unfold reads. by destruct (f x). Qed.
Lemma plain_attempt {T} (m : GrantM T) : plain (attempt m : GrantM _).
Proof. intros x. unfold attempt. by destruct (m x). Qed.

Lemma no_denial_bind {T U} (r : Result Error T) (k : T -> Result Error U) :
  no_denial r -> (forall v, no_denial (k v)) -> no_denial (result_bind r k).
Proof. intros Hr Hk. destruct r as [v|e]; [apply Hk|]. intros e' [= <-]. by apply Hr. Qed.
Lemma no_denial_demand b text : text <> DENIED -> no_denial (demand b text).
Proof. intros Ht. unfold demand. destruct b; [done|]. intros e [= <-]. by apply bool_decide_eq_false. Qed.
Lemma no_denial_checks checks : no_denial (all_checks checks).
Proof.
  induction checks as [|[[valid stage] code] rest IH]; simpl; [done|]. destruct valid; [done|]. by intros e [= <-].
Qed.
Lemma no_denial_or {T} (o : option T) e : is_denial e = false -> no_denial (ok_or o e).
Proof. intros He. by destruct o; [|intros ? [= <-]]. Qed.
Lemma no_denial_ok {T} (v : T) : no_denial (Ok v : Result Error T).
Proof. done. Qed.
Lemma no_denial_request s n : no_denial (request_id s n).
Proof.
  apply no_denial_bind; [by apply no_denial_demand|intros _]. apply no_denial_bind; [by apply no_denial_demand|done].
Qed.

Lemma no_denial_from s n id response report now : no_denial (CachedGrant_from_response s n id response report now).
Proof.
  apply no_denial_bind; [by apply no_denial_demand|intros _].
  apply no_denial_bind; [apply no_denial_request|intros ?].
  apply no_denial_bind; [by apply no_denial_demand|intros _].
  apply no_denial_bind; [by apply no_denial_demand|intros _].
  apply no_denial_bind; [|done]. apply no_denial_bind; [apply no_denial_checks|intros _; apply no_denial_checks].
Qed.

Lemma plain_begin s st now : plain (begin_issuance s st now).
Proof.
  unfold begin_issuance. destruct (st_pending st); [apply plain_ok|].
  apply plain_bind; [by apply plain_lift, no_denial_or|intros n].
  apply plain_bind; [apply plain_lift, no_denial_request|intros id].
  apply plain_bind; [apply plain_failed|intros _; apply plain_ok].
Qed.

Lemma plain_verify hooks response : plain (verify_staged hooks response).
Proof.
  unfold verify_staged. apply plain_bind; [apply plain_failed|intros p].
  intros x. unfold mbind, attempt.
  pose proof (plain_failed "grant_core_verification" "grant_core_verification_failed" (verify hooks p) x) as Hv.
  destruct (within _ (verify hooks p) x) as [r x1]. simpl in Hv.
  pose proof (plain_failed "grant_stage_cleanup" "grant_staging_cleanup_failed" (io (remove_file p)) x1) as Hc.
  destruct (within _ (io (remove_file p)) x1) as [c x2]. simpl in Hc.
  destruct r as [report|e]; [destruct c as [?|e]|]; simpl; [done| |]; intros e' [= <-]; auto.
Qed.

Lemma plain_accept hooks s st p response : plain (accept_grant hooks s st p response).
Proof.
  unfold accept_grant. apply plain_bind; [apply plain_failed|intros _].
  apply plain_bind; [apply plain_verify|intros report]. apply plain_bind; [by apply plain_msg|intros now].
  apply plain_bind; [apply plain_lift, no_denial_from|intros g].
  apply plain_bind; [apply plain_failed|intros _; apply plain_ok].
Qed.

(** The state file says that the authorization was revoked. *)
Definition revoked_in (s : GrantSubject) x : Prop :=
  exists id doc st, storage_id s = Ok id /\ file_at x (StatePath id) = Some doc /\ from_json doc = Some st /\
    is_Some (revoked_at_unix st).

Lemma calm_revoked s x x' : calm x x' -> revoked_in s x -> revoked_in s x'.
Proof. intros [_ F] (id & doc & st & H). exists id, doc, st. by rewrite F. Qed.

(** With a revoked state a renewal fails, and does nothing. *)
Lemma revoked_refresh hooks s now x :
  revoked_in s x -> calm x (refresh_with_clock hooks s now x).2 /\
    exists e, (refresh_with_clock hooks s now x).1 = Err e.
Proof.
  intros (id & doc & st & Hid & Hf & Hj & Hr). unfold refresh_with_clock, mbind, within, lift.
  destruct (subject_validate s) as [[]|e]; simpl; [|split; [done|by eexists]].
  pose proof (load_calm s x) as C. pose proof (load_wp s id x Hid) as Hl.
  destruct (load_state s x) as [[o|e] x1]; simpl in *; [|split; [done|by eexists]].
  destruct o as [st'|].
  - destruct Hl as ((doc' & Hf' & Hj') & _). assert (st' = st) as -> by congruence. destruct Hr as [t ->].
    split; [done|by eexists].
  - congruence.
Qed.

Lemma settle_denial s st now f x e x' :
  settle_failure s st now f x = (Err e, x') -> is_denial e = true -> revoked_in s x'.
Proof.
  unfold settle_failure. destruct f as [e0|e0|]; [|unfold mbind, within|by intros [= <- _]].
  - destruct (usable st now); [done|]. by intros [= <- _].
  - assert (Hid : exists id, storage_id s = Ok id \/ exists e1, storage_id s = Err e1).
    { destruct (storage_id s) as [id|e1]; [exists id; by left|exists []; right; by exists e1]. }
    destruct Hid as (id & [Hid|[e1 Hid]]).
    + pose proof (store_wp s id (with_revocation now st) x Hid) as Hs.
      destruct (store_state s (with_revocation now st) x) as [r x1]. destruct Hs as (_ & D).
      destruct r as [[]|e1]; simpl; [|intros [= <- _]; done]. intros [= _ <-] _.
      destruct D as [[D _]|[? _]]; [|done]. exists id, (to_json (with_revocation now st)), (with_revocation now st).
      split_and!; [done..|apply json_law|by eexists].
    + unfold store_state, mbind, lift, state_path. rewrite Hid.
      destruct (state_validate_for _ s) as [[]|]; simpl; [|by intros [= <- _]].
      destruct (ensure_private_directory x) as [[[]|] x1]; simpl; by intros [= <- _].
Qed.

(** C18. A denial is final: once a renewal has reported that Cloud refused the request and the cached
    credential was invalidated, then over any later history no further request is sent for
    this subject and no renewal returns a grant, whatever the clock says. *)
Theorem denial_final s hooks now x e x' :
  refresh_with_clock hooks s now x = (Err e, x') -> is_denial e = true ->
  forall x'', rtc (grant_step s) x' x'' ->
    asked_ids x'' = asked_ids x' /\
    forall hooks' now', exists e', (refresh_with_clock hooks' s now' x'').1 = Err e'.
Proof.
  intros Hr He.
  assert (H : revoked_in s x').
  { assert (Hreq : forall st y, request_grant hooks s st now y = (Err e, x') -> revoked_in s x').
    { intros st y H. unfold request_grant in H. unfold mbind at 1 in H.
      pose proof (plain_begin s st now y) as Hb. destruct (begin_issuance s st now y) as [[st'|e1] y1];
        [|injection H as -> _; by rewrite (Hb e eq_refl) in He].
      unfold mbind at 1, lift at 1 in H. destruct (st_pending st') as [p|]; simpl in H; [|by injection H as <- _].
      unfold mbind at 1, reads at 1 in H. destruct (fetch hooks _ y1) as [[response|f] y2]; simpl in H.
      - pose proof (plain_accept hooks s st' p response y2) as Ha. rewrite H in Ha. by rewrite (Ha e eq_refl) in He.
      - by eapply settle_denial. }
    unfold refresh_with_clock in Hr. unfold mbind at 1, within at 1, lift in Hr.
    destruct (subject_validate s) as [[]|]; simpl in Hr; [|by injection Hr as <- _].
    unfold mbind at 1, within at 1 in Hr. destruct (load_state s x) as [[o|e1] x1]; simpl in Hr; [|by injection Hr as <- _].
    set (st := match o with Some st => st | None => _ end) in *.
    destruct (revoked_at_unix st); [by injection Hr as <- _|].
    destruct (usable st now) as [g|]; [destruct (should_refresh_at g now)|]; [by eapply Hreq|done|by eapply Hreq]. }
  clear Hr He. intros x'' Hrun.
  assert (Hrev : revoked_in s x'' /\ asked_ids x'' = asked_ids x').
  { induction Hrun as [x0|x0 x1 x2 Hs _ IH]; [done|].
    assert (C : calm x0 x1) by (destruct Hs as [hooks' now' _|x1 Hc]; [by apply revoked_refresh|done]).
    destruct IH as [H1 H2]; [by eapply calm_revoked|]. split; [done|]. rewrite H2. apply C. }
  destruct Hrev as [Hrev Hids]. split; [done|]. intros hooks' now'.
  exact (proj2 (revoked_refresh hooks' s now' x'' Hrev)).
Qed.
End Runs.

(** ** Failures of the exchange *)

Section Failures.
Context {X Doc : Type} `{!GrantCrypto} `{!GrantDocs Doc} `{!GrantFs X Doc} `{!GrantJson}.

(** Cloud answered, with a status that is no success, no rate limit and no server error, and
    the answer is not the one that asks for another policy. *)
Definition definitive (sent : Result Error HttpResponse) : bool :=
  match sent with
  | Ok response =>
      let status := http_status response in
      negb ((status =? 200) || (status =? 429) || is_server_error status)
      && negb ((status =? 409)
               && match http_read response (MAX_GRANT_ENVELOPE_BYTES + 1) with
                  | Ok bytes => is_policy_resync_response bytes | Err _ => false
                  end)
  | Err _ => false
  end.

(** The failures that a renewal retries keep a retryable name inside. *)
Definition names_retryable (f : FetchFailure) : bool :=
  match f with
  | Transient e => bool_decide (is_Some (downcast e)) && resolution_is_retryable e
  | Denied e => bool_decide (is_Some (downcast e)) && negb (resolution_is_retryable e)
  | PolicyResyncRequired => true
  end.
Definition is_denied (f : FetchFailure) : bool := match f with Denied _ => true | _ => false end.

Lemma read_grant_named response f : read_grant response = Err f -> names_retryable f = true /\ is_denied f = false.
Proof.
  unfold read_grant, transient. intros Hread. by repeat case_match; simplify_eq.
Qed.

Lemma fetch_named sent f :
  fetch_from_cloud sent = Err f -> names_retryable f = true /\ is_denied f = definitive sent.
Proof.
  unfold fetch_from_cloud, definitive, classify_grant_http_status, refused, transient. destruct sent as [response|e].
  - unfold classify_grant_http_status.
    destruct (http_status response =? 200); simpl; [apply read_grant_named|].
    destruct (http_status response =? 429) eqn:E; simpl; [by intros [= <-]|].
    destruct (is_server_error (http_status response)); simpl; [by intros [= <-]|].
    by destruct (_ && _); intros [= <-].
  - by intros [= <-].
Qed.

(** C40. Failures are classified by what Cloud said: the error with which a renewal ends after a
    failed exchange is one that the agent retries, unless Cloud definitively refused the
    request: an answer that is not a success, a rate limit, a server error or the request for
    another policy. *)
Theorem retryable_unless_refused s st now sent f x e x' :
  fetch_from_cloud sent = Err f -> settle_failure s st now f x = (Err e, x') ->
  resolution_is_retryable e = negb (definitive sent).
Proof.
  intros Hf. destruct (fetch_named sent f Hf) as [Hn <-]. unfold settle_failure, classified.
  destruct f as [e0|e0|]; simpl in *; [|unfold mbind, within|by intros [= <- _]].
  - destruct (usable st now); [done|]. destruct (downcast e0) eqn:E; [|done].
    intros [= <- _]. apply andb_prop in Hn as [_ <-]. unfold resolution_is_retryable, resolution_error_code. done.
  - destruct (downcast e0) eqn:E; [|done]. apply andb_prop in Hn as [_ Hn].
    destruct (store_state s _ x) as [[]]; simpl; intros [= <- _]; [|done].
    by apply negb_true_iff in Hn.
Qed.
End Failures.
