(* ===== verification/GrantScenarios.v ===== *)
(** * Access grants: scenarios

    A directory, a clock and a Cloud that answers by a script; on them a lost answer, the renewal
    that repeats the request, a later renewal that fails while the grant is still valid, a
    denial, and the theorems of [GrantRuns] there. *)
From stdpp Require Import base tactics list numbers option relations strings.
From Stdlib Require Import ZArith Lia.
From S2P Require Import Prelude Grant GrantStore GrantFacts GrantRuns.

#[local] Open Scope Z_scope.

(** ** The directory *)

Inductive Content : Type := StateText (st : GrantState) | Envelope (bytes : list Z).

Record Shelf : Type := mkShelf {
  shelf_file : GrantPath -> option Content;
  shelf_asked : list (list Z);
  shelf_uuids : Z;
  shelf_answers : list (Result FetchFailure GrantIssueResponse);
}.

Definition put_file (p : GrantPath) (doc : option Content) (x : Shelf) : Shelf :=
  mkShelf (fun q => if decide (q = p) then doc else shelf_file x q) (shelf_asked x) (shelf_uuids x)
    (shelf_answers x).

#[local] Instance shelf_docs : GrantDocs Content := {
  to_json := StateText;
  from_json := fun doc => match doc with StateText st => Some st | Envelope _ => None end;
  raw_bytes := Envelope;
  doc_size := fun doc => match doc with StateText _ => 900 | Envelope bytes => Z.of_nat (length bytes) end;
}.

(** A digest that tells messages of different sums apart, and the identity as base64. *)
#[local] Instance shelf_crypto : GrantCrypto := {
  sha256 := fun message => replicate 30 0 ++ [foldr Z.add 0 message / 256 mod 256; foldr Z.add 0 message mod 256];
  url_safe_decode := Some;
}.

Definition uuid_at (n : Z) : Uuid := replicate 15 0 ++ [n].

#[local] Instance shelf_fs : GrantFs Shelf Content := {
  new_uuid := fun x => (uuid_at (shelf_uuids x),
                        mkShelf (shelf_file x) (shelf_asked x) (shelf_uuids x + 1) (shelf_answers x));
  symlink_metadata := fun p x =>
    (match shelf_file x p with Some doc => Ok (mkFileMeta true false (doc_size doc)) | None => Err NotFound end, x);
  directory_metadata := fun x => (Ok (mkFileMeta false true 0), x);
  set_private := fun x => (true, x);
  create_dir := fun x => (true, x);
  read_file := fun p x => (shelf_file x p, x);
  create_new := fun p x =>
    match shelf_file x p with Some _ => (false, x) | None => (true, put_file p (Some (Envelope [])) x) end;
  write_and_sync := fun p doc x => (true, put_file p (Some doc) x);
  rename := fun p p' x =>
    match shelf_file x p with
    | Some doc => if decide (p = p') then (true, x) else (true, put_file p None (put_file p' (Some doc) x))
    | None => (false, x)
    end;
  sync_directory := fun x => (true, x);
  remove_file := fun p x => (true, put_file p None x);
}.

#[local] Instance shelf_laws : GrantFsLaws Shelf Content.
Proof.
  unshelve econstructor; [exact shelf_file|exact shelf_asked|..]; simpl; try done.
  - intros p x. split_and!; [done..|]. by destruct (shelf_file x p).
  - intros p x. destruct (shelf_file x p); simpl; split_and!; try done. intros q Hq. by rewrite decide_False.
  - intros p doc x. simpl. split_and!; [done| |]; [intros q Hq; by rewrite decide_False|].
    intros _. by rewrite decide_True.
  - intros p p' x. destruct (shelf_file x p) as [doc|] eqn:E; [|done].
    destruct (decide (p = p')) as [->|Hp]; simpl; [done|]. split_and!; [done| |].
    + intros q H1 H2. by rewrite !decide_False.
    + by rewrite decide_False, decide_True by congruence.
  - intros p x. split; [done|]. intros q Hq. by rewrite decide_False.
Defined.

(** ** The subject, the answers and Core *)

Definition text_hash : list Z := replicate 64 97.
Definition subject : GrantSubject :=
  mkSubject (uuid_at 1) (uuid_at 2) (uuid_at 3) (uuid_at 4) (uuid_at 5) 7 text_hash.

(** Core's report on a grant that is valid from [t], to be renewed at [t + 50]. *)
Definition report_of (n t : Z) : VerifiedGrantReport :=
  mkReport 1 true (uuid_at n) (uuid_at 2) (uuid_at 3) (uuid_at 4) (uuid_at 1)
    (bytes_of "private.tun.connect") (uuid_at 5) 7 text_hash t (t + 50) (t + 100).
Definition answer_of (n t : Z) : GrantIssueResponse :=
  mkIssueResponse (uuid_at n) (t + 100) (t + 50) false (repeat n 8).

Definition shelf_hooks (report : VerifiedGrantReport) (now : Z) : RefreshHooks Shelf :=
  mkHooks
    (fun q x =>
       let log := shelf_asked x ++ [gq_request_id q] in
       match shelf_answers x with
       | r :: rest => (r, mkShelf (shelf_file x) log (shelf_uuids x) rest)
       | [] => (Err (Transient [Msg "timeout"]), mkShelf (shelf_file x) log (shelf_uuids x) [])
       end)
    (fun p => match p with CandidatePath _ => mret report | _ => mfail [] end)
    (mret now).

Lemma shelf_hooks_ok report now : 0 <= vr_not_before_unix report -> hooks_ok (shelf_hooks report now).
Proof.
  intros Hr. constructor; simpl; [|intros [| |] x; simpl; split_and!; try done|done].
  - intros q x. by destruct (shelf_answers x).
  - by intros r [= <-].
Qed.

Lemma shelf_digest message : is_array 32 (sha256 message).
Proof.
  split; [done|]. assert (H : forall n, is_byte (n mod 256)) by (intros n; by apply Z.mod_pos_bound).
  apply Forall_app; split; [by apply Forall_replicate|]. by repeat constructor; apply H.
Qed.

(** ** The history *)

Definition empty_shelf : Shelf :=
  mkShelf (fun _ => None) [] 20
    [ Err (Transient [Msg "timeout"]); Ok (answer_of 10 1000); Err (Transient [Msg "timeout"]);
      Err (Denied [Failed "grant_http_response" "grant_http_request_rejected"]) ].

#[local] Abbreviation renew now x :=
  (refresh_with_clock (shelf_hooks (report_of 10 1000) now) subject now x).

Definition shelf1 : Shelf := (renew 1000 empty_shelf).2.
Definition shelf2 : Shelf := (renew 1010 shelf1).2.
Definition shelf3 : Shelf := (renew 1020 shelf2).2.
Definition shelf4 : Shelf := (renew 1060 shelf3).2.
Definition shelf5 : Shelf := (renew 1070 shelf4).2.

Definition outcome_said (r : Result Error RefreshOutcome) : string :=
  match r with
  | Ok (Current _) => "current"
  | Ok (Refreshed _) => "refreshed"
  | Ok (RetainedAfterTransientFailure _ _) => "retained"
  | Err e => resolution_error_code e
  end.

(** The answer is lost, the repeated request is answered, the grant is kept, its renewal fails
    while it is still valid, and then is denied, for good. *)
Example shelf_outcomes :
  map outcome_said
    [ (renew 1000 empty_shelf).1; (renew 1010 shelf1).1; (renew 1020 shelf2).1; (renew 1060 shelf3).1;
      (renew 1070 shelf4).1; (renew 1080 shelf5).1 ]
  = ["grant_fetch_transient_failed"; "refreshed"; "current"; "retained";
     "grant_http_request_rejected"; "grant_authorization_revoked"]%string.
Proof. vm_compute. reflexivity. Qed.

(** Two requests for the first sequence, two for the second. *)
Example shelf_requests :
  match request_id subject 1, request_id subject 2 with
  | Ok a, Ok b => shelf_asked shelf5 = [a; a; b; b] /\ a <> b
  | _, _ => False
  end.
Proof. split; [vm_compute; reflexivity|by vm_compute]. Qed.

Lemma empty_is_fresh : grant_fresh subject empty_shelf.
Proof. split; [done|]. eexists. split; [vm_compute; reflexivity|done]. Qed.

Lemma renew_step now (x : Shelf) : rtc (grant_step subject) x (renew now x).2.
Proof. apply rtc_once. by apply grant_refresh, shelf_hooks_ok. Qed.

Lemma shelf_run : rtc (grant_step subject) empty_shelf shelf4.
Proof.
  etrans; [apply (renew_step 1000)|]. etrans; [apply (renew_step 1010)|].
  etrans; [apply (renew_step 1020)|]. apply (renew_step 1060).
Qed.

Lemma issuances_in_order_witness :
  exists id l, storage_id subject = Ok id /\ Forall2 (fun n id => request_id subject n = Ok id) l (shelf_asked shelf4) /\ climbs 0 l /\ recorded subject (last_of l) (shelf_file shelf4 (StatePath id)).
Proof. exact (issuances_in_order subject empty_shelf shelf4 shelf_digest empty_is_fresh shelf_run). Defined.

Definition from_ok (d : RefreshOutcome) (r : Result Error RefreshOutcome) : RefreshOutcome :=
  match r with Ok o => o | Err _ => d end.
Definition from_err (r : Result Error RefreshOutcome) : Error := match r with Ok _ => [] | Err e => e end.

Lemma ran_ok d (p : Result Error RefreshOutcome * Shelf) :
  match p.1 with Ok _ => True | Err _ => False end -> p = (Ok (from_ok d p.1), p.2).
Proof. by destruct p as [[]]. Qed.
Lemma ran_err (p : Result Error RefreshOutcome * Shelf) :
  match p.1 with Ok _ => False | Err _ => True end -> p = (Err (from_err p.1), p.2).
Proof. by destruct p as [[]]. Qed.

Definition no_outcome : RefreshOutcome := Current (mkCachedGrant 0 [] [] 0 0 [] (report_of 0 0)).
Definition retained_outcome : RefreshOutcome := from_ok no_outcome (renew 1060 shelf3).1.

Lemma retained_eq : renew 1060 shelf3 = (Ok retained_outcome, shelf4).
Proof. unfold retained_outcome, shelf4. apply ran_ok. vm_compute. exact I. Qed.

Lemma shelf_run3 : rtc (grant_step subject) empty_shelf shelf3.
Proof.
  etrans; [apply (renew_step 1000)|]. etrans; [apply (renew_step 1010)|].
  apply (renew_step 1020).
Qed.

Lemma renewal_authorizes_witness :
  returns_ok (shelf_hooks (report_of 10 1000) 1060) subject 1060 retained_outcome.
Proof.
  exact (renewal_authorizes subject empty_shelf shelf3 (shelf_hooks (report_of 10 1000) 1060) 1060
           retained_outcome shelf4 shelf_digest empty_is_fresh shelf_run3
           (shelf_hooks_ok (report_of 10 1000) 1060 ltac:(done)) retained_eq).
Defined.

Definition denial_error : Error := from_err (renew 1070 shelf4).1.

Lemma denial_eq : renew 1070 shelf4 = (Err denial_error, shelf5).
Proof. unfold denial_error, shelf5. apply ran_err. vm_compute. exact I. Qed.

Lemma denial_is_denial : is_denial denial_error = true.
Proof. vm_compute. reflexivity. Qed.

Lemma denial_final_witness :
  shelf_asked (renew 1080 shelf5).2 = shelf_asked shelf5 /\
  forall hooks' now', exists e', (refresh_with_clock hooks' subject now' (renew 1080 shelf5).2).1 = Err e'.
Proof.
  exact (denial_final subject (shelf_hooks (report_of 10 1000) 1070) 1070 shelf4 denial_error shelf5
           denial_eq denial_is_denial (renew 1080 shelf5).2 (renew_step 1080 shelf5)).
Defined.

(** A rate limit, answered while no grant is cached, and what becomes of it. *)
#[local] Instance shelf_json : GrantJson := { parse_response := fun _ => None; parse_problem_code := fun _ => None }.

Definition rate_limited : Result Error HttpResponse :=
  Ok (mkResponse 429 None None (fun _ => Ok [])).
Definition limited_failure : FetchFailure :=
  Transient [Failed "grant_http_response" "grant_rate_limited"; Msg "Grant issuance returned HTTP status"].

Lemma retryable_unless_refused_witness :
  resolution_is_retryable
    (from_err (settle_failure (X := Shelf) subject (GrantState_new subject) 1000 limited_failure empty_shelf).1)
  = negb (definitive rate_limited).
Proof.
  exact (retryable_unless_refused subject (GrantState_new subject) 1000 rate_limited limited_failure empty_shelf
           _ _ eq_refl
           (ran_err (settle_failure (X := Shelf) subject (GrantState_new subject) 1000 limited_failure empty_shelf) I)).
Defined.
