(* ===== verification/Upgrade.v ===== *)
(** * Upgrades: data and pure functions

    candy-cloud-sync/src/upgrade.rs installs new versions of the runtime and of Core on a node:
    Cloud chooses a target, the signed catalog names the artifact, and a durable journal says
    how far the installation went, so that a crash never repeats one and never loses its
    outcome. This file holds the data, the text functions of the standard library that the
    code uses, and everything that does not touch the machine; [UpgradeOps] holds the rest.
    A [String] is the list of its Unicode scalar values. JSON and SHA-256 are arguments. *)
From stdpp Require Import base tactics list numbers option strings.
From Stdlib Require Import ZArith Lia.
From S2P Require Import Prelude.

#[local] Open Scope Z_scope.

Definition Text : Type := list Z.
Definition Uuid : Type := list Z.
Definition is_nil (id : Uuid) : bool := bool_decide (id = replicate 16 0).

(** An [anyhow::Error]: its contexts from the outside in; [{error:#}] joins them. *)
Definition Error : Type := list Text.

Fixpoint error_text (e : Error) : Text :=
  match e with
  | [] => []
  | [m] => m
  | m :: e => m ++ bytes_of ": " ++ error_text e
  end.

Definition said (text : string) : Error := [bytes_of text].
(** [if !b { bail!(..) }]. *)
Definition demand (b : bool) (text : string) : Result Error unit := if b then Ok tt else Err (said text).

(** ** Text *)

Definition digit (c : Z) : bool := (48 <=? c) && (c <=? 57).
Definition alphanumeric (c : Z) : bool :=
  digit c || ((65 <=? c) && (c <=? 90)) || ((97 <=? c) && (c <=? 122)).
Definition hex_digit (c : Z) : bool := digit c || ((97 <=? c) && (c <=? 102)).

Definition token (value : Text) : bool :=
  negb (Nat.eqb (length value) 0) && (Z.of_nat (length value) <=? 80)
  && forallb (fun c => alphanumeric c || bool_decide (c ∈ bytes_of "._+-")) value.

Definition git_object_id (value : Text) : bool :=
  (Nat.eqb (length value) 40 || Nat.eqb (length value) 64) && forallb hex_digit value.

(** [str::strip_prefix], [starts_with], [contains]. *)
Fixpoint strip_prefix (prefix value : Text) : option Text :=
  match prefix, value with
  | [], _ => Some value
  | a :: prefix, b :: value => if a =? b then strip_prefix prefix value else None
  | _ :: _, [] => None
  end.
Definition starts_with (value prefix : Text) : bool := bool_decide (is_Some (strip_prefix prefix value)).
Fixpoint contains_text (value needle : Text) : bool :=
  starts_with value needle || match value with _ :: value => contains_text value needle | [] => false end.

(** [str::lines]: without the end of line, and without an empty last line. *)
Definition drop_cr (line : Text) : Text :=
  match rev line with 13 :: l => rev l | _ => line end.
Fixpoint lines_from (line : Text) (value : Text) : list Text :=
  match value with
  | [] => match line with [] => [] | _ => [rev line] end
  | 10 :: value => drop_cr (rev line) :: lines_from [] value
  | c :: value => lines_from (c :: line) value
  end.
Definition lines (value : Text) : list Text := lines_from [] value.

(** [split_ascii_whitespace]. *)
Definition ascii_blank (c : Z) : bool := (c =? 32) || (c =? 9) || (c =? 10) || (c =? 12) || (c =? 13).
Fixpoint words_from (word : Text) (value : Text) : list Text :=
  let flush := match word with [] => [] | _ => [rev word] end in
  match value with
  | [] => flush
  | c :: value => if ascii_blank c then flush ++ words_from [] value else words_from (c :: word) value
  end.
Definition words (value : Text) : list Text := words_from [] value.

(** [char::is_whitespace], [char::is_control], [str::trim]. *)
Definition whitespace (c : Z) : bool :=
  ((9 <=? c) && (c <=? 13)) || (c =? 32) || (c =? 133) || (c =? 160) || (c =? 5760)
  || ((8192 <=? c) && (c <=? 8202)) || (c =? 8232) || (c =? 8233) || (c =? 8239) || (c =? 8287) || (c =? 12288).
Definition control (c : Z) : bool := (c <? 32) || ((127 <=? c) && (c <=? 159)).
Fixpoint trim_start (value : Text) : Text :=
  match value with
  | c :: rest => if whitespace c then trim_start rest else value
  | [] => []
  end.
Definition trim (value : Text) : Text := rev (trim_start (rev (trim_start value))).

(** [u64::to_string] (twenty digits are enough) and [str::parse::<u64>]. *)
Fixpoint decimal_from (fuel : nat) (n : Z) (after : Text) : Text :=
  match fuel with
  | O => after
  | S fuel =>
      let after := 48 + n mod 10 :: after in
      if n / 10 =? 0 then after else decimal_from fuel (n / 10) after
  end.
Definition decimal (n : Z) : Text := decimal_from 40 n [].
Fixpoint parse_digits (n : Z) (value : Text) : option Z :=
  match value with
  | [] => Some n
  | c :: value =>
      if digit c && (10 * n + (c - 48) <=? u64_MAX) then parse_digits (10 * n + (c - 48)) value else None
  end.
Definition parse_u64 (value : Text) : option Z :=
  match value with
  | [] => None
  | [43] => None
  | 43 :: value => parse_digits 0 value
  | _ => parse_digits 0 value
  end.

(** One step of the decoding of UTF-8: a scalar, or the length of an invalid piece. *)
Definition next_in (lo hi : Z) (l : list Z) : option (Z * list Z) :=
  match l with b :: l => if (lo <=? b) && (b <=? hi) then Some (b mod 64, l) else None | [] => None end.
Definition utf8_second (b : Z) : option (Z * Z * nat) :=
  if (194 <=? b) && (b <=? 223) then Some (128, 191, 0%nat)
  else if b =? 224 then Some (160, 191, 1%nat)
  else if b =? 237 then Some (128, 159, 1%nat)
  else if (225 <=? b) && (b <=? 239) then Some (128, 191, 1%nat)
  else if b =? 240 then Some (144, 191, 2%nat)
  else if (241 <=? b) && (b <=? 243) then Some (128, 191, 2%nat)
  else if b =? 244 then Some (128, 143, 2%nat)
  else None.
Fixpoint utf8_more (n : nat) (acc : Z) (l : list Z) : option Z * list Z :=
  match n with
  | O => (Some acc, l)
  | S n => match next_in 128 191 l with Some (v, l) => utf8_more n (64 * acc + v) l | None => (None, l) end
  end.
Definition utf8_step (b : Z) (l : list Z) : option Z * list Z :=
  if b <? 128 then (Some b, l)
  else match utf8_second b with
       | None => (None, l)
       | Some (lo, hi, more) =>
           match next_in lo hi l with
           | None => (None, l)
           | Some (v, l) => utf8_more more (64 * (b mod (if Nat.eqb more 0 then 32 else if Nat.eqb more 1 then 16 else 8)) + v) l
           end
       end.
Fixpoint utf8_run (fuel : nat) (l : list Z) : list (option Z) :=
  match fuel, l with
  | S fuel, b :: l => let '(c, l) := utf8_step b l in c :: utf8_run fuel l
  | _, _ => []
  end.
Definition utf8 (l : list Z) : list (option Z) := utf8_run (length l) l.
Definition from_utf8 (l : list Z) : option Text := mapM id (utf8 l).
Definition from_utf8_lossy (l : list Z) : Text := map (fun c => default 65533 c) (utf8 l).

(** ** Data *)

Definition RELEASE_ROOT : Text :=
  bytes_of "https://github.com/reTsubasa/candy-release/releases/download/".
Definition CATALOG_REF_URL : Text :=
  bytes_of "https://api.github.com/repos/reTsubasa/candy-release/git/ref/heads/main".
Definition CATALOG_RAW_ROOT : Text := bytes_of "https://raw.githubusercontent.com/reTsubasa/candy-release".
Definition MAX_BUNDLE : Z := 256 * 1024 * 1024.
Definition CATALOG_FETCH_ATTEMPTS : nat := 3.
Definition CATALOG_CACHE_SECONDS : Z := 120.
Definition OPENWRT_RUNTIME_HANDOFF_TIMEOUT_SECONDS : Z := 5 * 60.
Definition MAX_OPERATION_BYTES : Z := 64 * 1024.
Definition MAX_PROFILE_BYTES : Z := 64 * 1024.
Definition MAX_FAILURE_DETAIL_CHARS : nat := 512.

Inductive UpgradeOutcome : Type := Continue | RestartRequired.

Record Target : Type := mkTarget {
  component : Text;
  current_version : Text;
  tg_version : Text;
  version_key : Text;
  tg_digest : Text;
}.
#[export] Instance Target_eq_dec : EqDecision Target.
Proof. solve_decision. Defined.

Record Job : Type := mkJob {
  jb_id : Uuid;
  jb_node_id : Uuid;
  jb_device_id : Uuid;
  jb_device_key_id : Uuid;
  jb_target : Target;
  jb_state : Text;
  jb_error_code : option Text;
  jb_phase : option Text;
  jb_created_at : Text;
  jb_updated_at : Text;
}.
#[export] Instance Job_eq_dec : EqDecision Job.
Proof. solve_decision. Defined.

Record Journal : Type := mkJournal {
  jn_job : Job;
  jn_phase : Text;
  jn_error_code : option Text;
  jn_failure_phase : option Text;
  jn_error_detail : option Text;
}.
#[export] Instance Journal_eq_dec : EqDecision Journal.
Proof. solve_decision. Defined.

Definition with_phase (phase : Text) (j : Journal) : Journal :=
  mkJournal (jn_job j) phase (jn_error_code j) (jn_failure_phase j) (jn_error_detail j).
Definition in_phase (j : Journal) (phase : string) : bool := bool_decide (jn_phase j = bytes_of phase).

Record RuntimeHandoffMarker : Type := mkMarker {
  hm_schema_version : Z;
  hm_job_id : Uuid;
  hm_version : Text;
  hm_sync_binary_sha256 : Text;
  hm_sync_loop_sha256 : Text;
  hm_requested_at : Z;
}.
#[export] Instance RuntimeHandoffMarker_eq_dec : EqDecision RuntimeHandoffMarker.
Proof. solve_decision. Defined.

Record RuntimeHandoffFailure : Type := mkHandoffFailure {
  hf_schema_version : Z;
  hf_state : Text;
  hf_phase : Text;
  hf_error_code : Text;
  hf_version : Text;
  hf_updated_at : Z;
}.
#[export] Instance RuntimeHandoffFailure_eq_dec : EqDecision RuntimeHandoffFailure.
Proof. solve_decision. Defined.

Record ManagerOperation : Type := mkOperation {
  mo_state : Text;
  mo_action : Text;
  mo_phase : Text;
  mo_error_code : Text;
  mo_detail : Text;
  mo_updated_at : Z;
}.

Record UpgradeFailure : Type := mkFailure {
  uf_phase : Text;
  uf_error_code : Text;
  uf_detail : Text;
}.

Record InstalledCore : Type := mkInstalled {
  ic_version : Text;
  ic_active : bool;
  ic_rollback : bool;
  ic_managed : bool;
}.
Record CoreManagerStatus : Type := mkCoreStatus {
  cs_current_version : option Text;
  cs_previous_version : option Text;
  cs_installed : list InstalledCore;
}.

Record Inventory : Type := mkInventory {
  iv_schema_version : Z;
  iv_platform : Text;
  iv_architecture : Text;
  iv_targets : list Target;
}.

Record DeviceIdentity : Type := mkIdentity {
  di_schema_version : Z;
  di_cloud_address : Text;
  di_organization_id : Uuid;
  di_tenant_id : option Uuid;
  di_site_id : option Uuid;
  di_display_name : option Text;
  di_device_id : Uuid;
  di_device_key_id : Uuid;
  di_not_after : Text;
}.

(** The number of bytes of a string. *)
Definition utf8_length (value : Text) : Z :=
  foldr (fun c n => n + (if c <? 128 then 1 else if c <? 2048 then 2 else if c <? 65536 then 3 else 4)) 0 value.

(** [validate_identity] of lib.rs. *)
Definition validate_identity (identity : DeviceIdentity) : Result Error unit :=
  let named_nil (o : option Uuid) := match o with Some id => is_nil id | None => false end in
  demand (negb (negb (di_schema_version identity =? 1) || is_nil (di_organization_id identity)
                || named_nil (di_tenant_id identity) || named_nil (di_site_id identity)
                || match di_display_name identity with
                   | Some name => Nat.eqb (length (trim name)) 0 || (200 <? utf8_length name)
                   | None => false
                   end
                || is_nil (di_device_id identity) || is_nil (di_device_key_id identity)
                || Nat.eqb (length (trim (di_not_after identity))) 0 || (64 <? utf8_length (di_not_after identity))))
    "invalid local Cloud device identity".

(** What the code takes from crates: [serde_json] values ([v] with a key is [Null] when there is
    no such field) and documents, and SHA-256 as a hexadecimal string. *)
Class UpgradeJson (V : Type) : Type := {
  json_key : V -> Text -> V;
  json_str : V -> option Text;
  json_u64 : V -> option Z;
  json_null : V -> bool;
  json_vec : V -> list Z;
  parse_json : list Z -> option V;
  journal_bytes : Journal -> list Z;
  parse_journal : list Z -> option Journal;
  marker_bytes : RuntimeHandoffMarker -> list Z;
  parse_marker : list Z -> option RuntimeHandoffMarker;
  failure_bytes : RuntimeHandoffFailure -> list Z;
  parse_failure : list Z -> option RuntimeHandoffFailure;
  parse_operation : list Z -> option ManagerOperation;
  parse_core_status : list Z -> option CoreManagerStatus;
  parse_job : list Z -> option (option Job);
  parse_identity : list Z -> option DeviceIdentity;
  sha256_hex : list Z -> Text;
}.

(** ** Decisions *)

Definition completed_upgrade_outcome (component phase : Text) : UpgradeOutcome :=
  if bool_decide (component = bytes_of "runtime") && bool_decide (phase = bytes_of "succeeded")
  then RestartRequired else Continue.

Definition valid_digest (value : Text) : bool := Nat.eqb (length value) 64 && forallb hex_digit value.

Definition validate_runtime_handoff_marker (m : RuntimeHandoffMarker) : Result Error unit :=
  demand ((hm_schema_version m =? 1) && token (hm_version m) && valid_digest (hm_sync_binary_sha256 m)
          && valid_digest (hm_sync_loop_sha256 m) && negb (hm_requested_at m =? 0))
    "runtime_handoff_marker_invalid".

Definition runtime_handoff_timed_out (m : RuntimeHandoffMarker) (now : Z) : bool :=
  OPENWRT_RUNTIME_HANDOFF_TIMEOUT_SECONDS <=? Z.max 0 (now - hm_requested_at m).

Definition catalog_cache_fresh (checked_at now : Z) : bool :=
  (0 <? checked_at) && (checked_at <=? now) && (Z.max 0 (now - checked_at) <? CATALOG_CACHE_SECONDS).

Definition manager (openwrt : bool) : Text :=
  if openwrt then bytes_of "/usr/libexec/candy-core-manager" else bytes_of "/usr/local/bin/candy-core-manager".

Definition openwrt_runtime_version (output : Text) : option Text :=
  let first := fix first (l : list Text) := match l with
                 | [] => None
                 | line :: l => match words line with w :: _ => Some w | [] => first l end
                 end in
  match first (lines output) with
  | Some package =>
      match strip_prefix (bytes_of "candy-client-") package with
      | Some version => if token version then Some version else None
      | None => None
      end
  | None => None
  end.

Definition target_key (component : Text) (openwrt : bool) (arch : Text) : Result Error Text :=
  let same (v : Text) (s : string) : bool := bool_decide (v = bytes_of s) in
  let two := same arch "x86_64" || same arch "aarch64" in
  if same component "core" && two then Ok (bytes_of "linux_musl_" ++ arch)
  else if same component "core" && openwrt && same arch "arm" then Ok (bytes_of "linux_musl_armv7")
  else if same component "runtime" && negb openwrt && two then Ok (bytes_of "linux_" ++ arch)
  else if same component "runtime" && openwrt && same arch "x86_64" then Ok (bytes_of "openwrt_25_12_4_x86_64")
  else if same component "runtime" && openwrt && same arch "arm"
       then Ok (bytes_of "openwrt_25_12_4_arm_cortex_a7_neon_vfpv4")
  else Err (said "unsupported_upgrade_platform").

Definition openwrt_manager_action (component : Text) : Result Error Text :=
  if bool_decide (component = bytes_of "core") then Ok (bytes_of "install-core")
  else if bool_decide (component = bytes_of "runtime") then Ok (bytes_of "install-runtime")
  else Err (said "invalid_upgrade_target").

Definition linux_runtime_installer_arguments (script bundle digest version : Text) : list Text :=
  [script; bytes_of "--bundle-file"; bundle; bytes_of "--sha256"; digest; bytes_of "--version"; version].

Definition catalog_query (pid nonce attempt : Z) : Text :=
  bytes_of "?candy_catalog_attempt=" ++ decimal nonce ++ bytes_of "-" ++ decimal pid ++ bytes_of "-" ++ decimal attempt.
Definition catalog_ref_attempt_url (pid nonce attempt : Z) : Text :=
  CATALOG_REF_URL ++ catalog_query pid nonce attempt.
Definition catalog_attempt_urls (commit : Text) (pid nonce attempt : Z) : Text * Text :=
  let at_commit (name : string) :=
    CATALOG_RAW_ROOT ++ bytes_of "/" ++ commit ++ bytes_of name ++ catalog_query pid nonce attempt in
  (at_commit "/channels/stable.json", at_commit "/channels/stable.json.sig").

(** ** Failures *)

(** The first row with a text that occurs in the error. *)
Definition ERROR_CODES : list (list string * string) :=
  [ (["artifact_size_invalid"; "artifact_size_limit"], "upgrade_artifact_invalid_size");
    (["artifact_integrity_mismatch"], "upgrade_checksum_mismatch");
    (["untrusted_artifact_origin"], "upgrade_artifact_untrusted_origin");
    (["runtime_installer_invalid"], "upgrade_installer_invalid");
    (["unsupported_upgrade_platform"; "target_not_in_signed_catalog"], "upgrade_platform_mismatch");
    (["catalog_target_changed"; "catalog_or_installed_version_changed"], "upgrade_catalog_changed");
    (["installed_version_mismatch"], "upgrade_post_install_version_mismatch");
    (["installer_timeout"], "upgrade_install_timeout");
    (["core_status_failed"; "runtime_status_failed"], "upgrade_pre_install_status_failed");
    (["signature"; "signature_verification_failed"], "upgrade_signature_invalid");
    (["rollback"; "rollback_failed"], "upgrade_rollback_failed");
    (["health"], "upgrade_health_check_failed");
    (["command_exit_"], "upgrade_install_failed") ]%string.

Fixpoint first_code (text : Text) (rows : list (list string * string)) : Text :=
  match rows with
  | [] => bytes_of "upgrade_execution_failed"
  | (needles, code) :: rows =>
      if existsb (fun needle => contains_text text (bytes_of needle)) needles then bytes_of code
      else first_code text rows
  end.
Definition upgrade_error_code (e : Error) : Text := first_code (error_text e) ERROR_CODES.

Definition safe_failure_detail (value : Text) : Text :=
  trim (map (fun c => if control c then 32 else c) (take MAX_FAILURE_DETAIL_CHARS value)).

Definition cloud_failure_phase (manager_phase : Text) : Text :=
  let one_of (names : list string) := existsb (fun s => bool_decide (manager_phase = bytes_of s)) names in
  if contains_text manager_phase (bytes_of "rollback") then bytes_of "rolled_back"
  else if contains_text manager_phase (bytes_of "health") then bytes_of "health_check"
  else if one_of ["preflight"; "request"]%string then bytes_of "prepared"
  else if one_of ["download"; "archive"; "signature"; "manifest"; "validation"; "process_probe";
                  "executable"; "upload"]%string then bytes_of "verifying"
  else if one_of ["install"]%string then bytes_of "installing"
  else bytes_of "executing".

(** The last field of each name wins. *)
Fixpoint log_fields (phase code : option Text) (fields : list Text) : option Text * option Text :=
  match fields with
  | [] => (phase, code)
  | field :: fields =>
      let valid (prefix : string) (old : option Text) :=
        match strip_prefix (bytes_of prefix) field with
        | Some value => if token value then Some value else old
        | None => old
        end in
      log_fields (valid "stage=" phase) (valid "error_code=" code) fields
  end.
Definition structured_failure_from_log (value : Text) : option UpgradeFailure :=
  match log_fields None None (words value) with
  | (Some phase, Some code) => Some (mkFailure (cloud_failure_phase phase) code (safe_failure_detail value))
  | _ => None
  end.

Fixpoint find_map {A B} (f : A -> option B) (l : list A) : option B :=
  match l with
  | [] => None
  | a :: l => match f a with Some b => Some b | None => find_map f l end
  end.

(** The versions of Core that nothing refers to. *)
Definition removable (status : CoreManagerStatus) (i : InstalledCore) : bool :=
  ic_managed i && negb (ic_active i) && negb (ic_rollback i)
  && negb (bool_decide (cs_current_version status = Some (ic_version i)))
  && negb (bool_decide (cs_previous_version status = Some (ic_version i))) && token (ic_version i).
Definition managed_core_cleanup_versions (status : CoreManagerStatus) : list Text :=
  map ic_version (List.filter (removable status) (cs_installed status)).

(** ** Receipts *)

Record ReceiptBody : Type := mkReceipt {
  rb_id : Uuid;
  rb_state : Text;
  rb_phase : Text;
  rb_error_code : option Text;
  rb_error_detail : option Text;
}.
#[export] Instance ReceiptBody_eq_dec : EqDecision ReceiptBody.
Proof. solve_decision. Defined.

Definition receipt_body (j : Journal) (state : Text) : ReceiptBody :=
  mkReceipt (jb_id (jn_job j)) state (default (jn_phase j) (jn_failure_phase j)) (jn_error_code j)
    (jn_error_detail j).

Section Operations.
Context {V : Type} `{!UpgradeJson V}.

(** [operation_failure_from_bytes]. *)
Definition operation_failure_from_bytes (bytes : list Z) : option (ManagerOperation * UpgradeFailure) :=
  match parse_operation bytes with
  | None => None
  | Some operation =>
      if negb (bool_decide (mo_state operation = bytes_of "error")) || negb (token (mo_action operation))
         || negb (token (mo_phase operation)) || negb (token (mo_error_code operation))
      then None
      else Some (operation,
                 mkFailure (cloud_failure_phase (mo_phase operation)) (mo_error_code operation)
                   (safe_failure_detail (mo_detail operation)))
  end.

(** The signed catalog's entry, up to the version that is installed now. *)
Definition candidate_release (catalog : V) (component : Text) (openwrt : bool) (arch key : Text)
  : Result Error (Text * V * Text) :=
  check? demand (token key && (bool_decide (component = bytes_of "core")
                               || bool_decide (component = bytes_of "runtime"))) "invalid_upgrade_target" in
  let release := json_key (json_key (json_key catalog component) (bytes_of "releases")) key in
  let? target := target_key component openwrt arch in
  let artifact := json_key (json_key release (bytes_of "targets")) target in
  check? demand (negb (json_null artifact)) "target_not_in_signed_catalog" in
  let? version := ok_or (json_str (json_key release
                           (if bool_decide (component = bytes_of "runtime") then bytes_of "display_version"
                            else bytes_of "version"))) (said "catalog_version_missing") in
  check? demand (token version) "invalid_catalog_version" in
  Ok (version, artifact, sha256_hex (json_vec artifact)).
End Operations.
