(* ===== verification/UpgradeOps.v ===== *)
(** * Upgrades: operations

    Everything of candy-cloud-sync/src/upgrade.rs that touches the machine, down to [run], with
    the file functions of lib.rs that it uses. Files, programs, the clock, and the exchanges
    with Cloud and with the release server are operations of [UpgradeHost]. Log lines are
    omitted. *)
From stdpp Require Import base tactics list numbers option strings.
From Stdlib Require Import ZArith Lia.
From S2P Require Import Prelude Upgrade.

#[local] Open Scope Z_scope.

(** ** The machine *)

Inductive UpPath : Type :=
| ReceiptJson | HandoffMarker | HandoffCompleted | HandoffFailed
| ExecutionLog | UpgradeScript | Bundle (name : Text)
| CatalogPub | CatalogJson | CatalogSig | CatalogSequence | CatalogCheckedAt
| DownloadRef | DownloadJson | DownloadSig
| IdentityJson | ManagerCatalog | UpdateOperation | CoreOperation
| SyncBin | SyncLoop | SelfExe | RuntimeRelease
| TempOf (path : UpPath) (uuid : Uuid).
#[export] Instance UpPath_eq_dec : EqDecision UpPath.
Proof. solve_decision. Defined.

(** The state directory and its parent. *)
Inductive Dir : Type := RootDir | RootParent.

Record FileMeta : Type := mkMeta {
  fm_is_file : bool;
  fm_is_dir : bool;
  fm_is_symlink : bool;
  fm_uid : Z;
  fm_mode : Z;
  fm_len : Z;
}.

(** An HTTP answer: reading at most so many bytes of its body gives them. *)
Record HttpAnswer : Type := mkAnswer {
  ha_status : Z;
  ha_length : option Z;
  ha_body : Z -> Result Error (list Z);
}.

(** How a child ended: an exit code, a signal, or fifteen minutes passed and it was terminated. *)
Inductive ChildEnd : Type := Exited (code : Z) | Signalled | Overdue.

Record ChildOutput : Type := mkOutput {
  co_success : bool;
  co_stdout : list Z;
}.

Inductive RemoveResult : Type := Removed | NotThere | RemoveFailed (e : Error).

Class UpgradeHost (X : Type) : Type := {
  openwrt : bool;
  ARCH : Text;
  process_id : Z;
  is_root : X -> bool * X;
  exists_path : UpPath -> X -> bool * X;
  stat : bool -> UpPath -> M X Error FileMeta;
  read_file : UpPath -> M X Error (list Z);
  read_tail : UpPath -> Z -> Z -> M X Error (list Z);
  new_uuid : X -> Uuid * X;
  create_new : UpPath -> M X Error unit;
  open_truncate : UpPath -> M X Error unit;
  write_all : UpPath -> list Z -> M X Error unit;
  io_copy : UpPath -> HttpAnswer -> Z -> M X Error Z;
  sync_all : UpPath -> M X Error unit;
  set_file_owner : UpPath -> FileMeta -> M X Error unit;
  set_file_mode : UpPath -> Z -> M X Error unit;
  rename : UpPath -> UpPath -> M X Error unit;
  remove_file : UpPath -> X -> RemoveResult * X;
  sync_root : M X Error unit;
  dir_exists : Dir -> X -> bool * X;
  dir_stat : Dir -> M X Error FileMeta;
  dir_create : Dir -> M X Error unit;
  dir_create_all : Dir -> M X Error unit;
  dir_set_owner : Dir -> FileMeta -> M X Error unit;
  dir_set_mode : Dir -> Z -> M X Error unit;
  lock_root : M X Error unit;
  system_time : M X Error Z;
  system_nanos : M X Error Z;
  sleep_second : X -> X;
  open_log : M X Error unit;
  run_child : Text -> list Text -> list (Text * Text) -> M X Error ChildEnd;
  output : Text -> list Text -> M X Error ChildOutput;
  https_client : M X Error unit;
  http_get : Text -> M X Error HttpAnswer;
  connect : DeviceIdentity -> M X Error unit;
  put_receipt : ReceiptBody -> M X Error Z;
  put_inventory : Inventory -> M X Error Z;
  get_upgrades : M X Error HttpAnswer;
}.

Section Operations.
Context {X V : Type} `{!UpgradeJson V} `{!UpgradeHost X}.

Definition UpM (T : Type) : Type := M X Error T.
Definition within {T} (text : Text) (m : UpM T) : UpM T :=
  fun x => let '(r, x) := m x in (map_err (fun e => text :: e) r, x).
Definition reads {T} (f : X -> T * X) : UpM T := fun x => let '(v, x) := f x in (Ok v, x).
Definition bail {T} (text : string) : UpM T := mfail (said text).

(** ** Paths *)

Definition root_text : Text :=
  if openwrt then bytes_of "/etc/candy/node-upgrades" else bytes_of "/var/lib/candy/node-upgrades".
(** A path, as far as it occurs in messages and arguments. *)
Definition path_text (p : UpPath) : Text :=
  let at_root (name : string) := root_text ++ bytes_of "/" ++ bytes_of name in
  match p with
  | ReceiptJson => at_root "receipt.json"
  | HandoffMarker => at_root "runtime-restart-required.json"
  | HandoffCompleted => at_root "runtime-restart-completed.json"
  | HandoffFailed => at_root "runtime-restart-failed.json"
  | ExecutionLog => at_root "execution.log"
  | UpgradeScript => at_root "upgrade.sh"
  | Bundle name => root_text ++ bytes_of "/" ++ name
  | CatalogPub => at_root "catalog.pub"
  | CatalogJson => at_root "catalog.json"
  | CatalogSig => at_root "catalog.sig"
  | CatalogSequence => at_root "catalog-sequence"
  | CatalogCheckedAt => at_root "catalog-checked-at"
  | DownloadRef => at_root "catalog.download.ref.json"
  | DownloadJson => at_root "catalog.download.json"
  | DownloadSig => at_root "catalog.download.sig"
  | IdentityJson => bytes_of "device-identity-v1.json"
  | ManagerCatalog => bytes_of "/var/lib/candy/update/stable.json"
  | UpdateOperation => bytes_of "/tmp/candy-update-operation.json"
  | CoreOperation => bytes_of "/tmp/candy-core-operation.json"
  | SyncBin => bytes_of "/usr/libexec/candy-cloud-sync"
  | SyncLoop => bytes_of "/usr/libexec/candy-cloud-sync-loop"
  | SelfExe => bytes_of "/proc/self/exe"
  | RuntimeRelease => bytes_of "/opt/candy/current/RUNTIME-RELEASE"
  | TempOf _ _ => []
  end.

(** ** Files *)

(** [private_root]. *)
Definition private_root : UpM unit :=
  let* there := reads (dir_exists RootDir) in
  do* (if there : bool then mret tt else dir_create RootDir) in
  let* m := dir_stat RootDir in
  do* lift (demand (fm_is_dir m && (fm_uid m =? 0) && (Z.land (fm_mode m) 18 =? 0))
              "stage=upgrade_journal error_code=unsafe_state_directory") in
  dir_set_mode RootDir 448.

Definition ensure_private_directory : UpM unit :=
  let* there := reads (dir_exists RootDir) in
  do* (if there : bool then
         let* m := within (bytes_of "inspect Runtime state directory") (dir_stat RootDir) in
         lift (demand (negb (fm_is_symlink m) && fm_is_dir m) "Runtime state directory must be a real directory")
       else
         let* parent := reads (dir_exists RootParent) in
         do* (if parent : bool then mret tt
              else within (bytes_of "create Runtime state parent directory") (dir_create_all RootParent)) in
         let* m := within (bytes_of "inspect Runtime state parent directory") (dir_stat RootParent) in
         do* lift (demand (negb (fm_is_symlink m) && fm_is_dir m) "Runtime state parent must be a real directory") in
         do* within (bytes_of "create Runtime state directory") (dir_create RootDir) in
         do* dir_set_owner RootDir m in
         dir_set_mode RootDir 448) in
  dir_set_mode RootDir 448.

(** [atomic_bytes] on a file of the state directory. *)
Definition atomic_bytes (path : UpPath) (bytes : list Z) (mode : Z) : UpM unit :=
  do* ensure_private_directory in
  let* uuid := reads new_uuid in
  let temporary := TempOf path uuid in
  do* within (bytes_of "create atomic state file") (create_new temporary) in
  let* m := within (bytes_of "inspect state file parent") (dir_stat RootDir) in
  do* within (bytes_of "set state file owner") (set_file_owner temporary m) in
  do* within (bytes_of "write atomic state file") (write_all temporary bytes) in
  do* within (bytes_of "sync atomic state file") (sync_all temporary) in
  do* set_file_mode temporary mode in
  do* within (bytes_of "replace atomic state file") (rename temporary path) in
  within (bytes_of "sync Runtime state directory") sync_root.

Definition read_bounded (path : UpPath) (maximum : Z) : UpM (list Z) :=
  let* m := within (bytes_of "inspect " ++ path_text path) (stat false path) in
  if negb (fm_is_symlink m) && fm_is_file m && negb (fm_len m =? 0) && (fm_len m <=? maximum)
  then within (bytes_of "read " ++ path_text path) (read_file path)
  else mfail [path_text path ++ bytes_of " is not a bounded regular file"].

Definition read_bounded_json {T} (parse : list Z -> option T) (path : UpPath) (maximum : Z) : UpM T :=
  let* bytes := read_bounded path maximum in
  lift (ok_or (parse bytes) [bytes_of "parse " ++ path_text path; bytes_of "json"]).

(** [fs::read_to_string]. *)
Definition read_to_string (path : UpPath) : UpM Text :=
  let* bytes := read_file path in
  lift (ok_or (from_utf8 bytes) (said "stream did not contain valid UTF-8")).

Definition error_for_status (status : Z) : Result Error unit :=
  demand (negb ((400 <=? status) && (status <? 600))) "HTTP status error".

Definition fetch (url : Text) (destination : UpPath) (limit : Z) : UpM unit :=
  let* response := http_get url in
  do* lift (error_for_status (ha_status response)) in
  do* lift (demand (match ha_length response with Some n => n <=? limit | None => true end)
              "artifact_size_limit") in
  do* open_truncate destination in
  let* length := io_copy destination response (limit + 1) in
  do* sync_all destination in
  lift (demand (negb ((length =? 0) || (limit <? length))) "artifact_size_limit").

(** [bounded_response] of lib.rs. *)
Definition bounded_response (response : HttpAnswer) (maximum : Z) : UpM (list Z) :=
  do* lift (demand (match ha_length response with Some n => n <=? maximum | None => true end)
              "Cloud Runtime response exceeds") in
  let* bytes := within (bytes_of "read bounded Cloud Runtime response")
                  (lift (ha_body response (u64_saturating_add maximum 1))) in
  do* lift (demand (negb (Nat.eqb (length bytes) 0) && (Z.of_nat (length bytes) <=? maximum))
              "Cloud Runtime response size is invalid") in
  mret bytes.

(** ** Programs *)

Definition command_with_env (program : Text) (arguments : list Text) (environment : list (Text * Text))
  : UpM unit :=
  do* open_log in
  let* ended := run_child program arguments environment in
  match ended with
  | Exited 0 => mret tt
  | Exited code =>
      mfail [bytes_of "command_exit_" ++ (if code <? 0 then bytes_of "-" else []) ++ decimal (Z.abs code)]
  | Signalled => mfail [bytes_of "command_exit_-1"]
  | Overdue => bail "installer_timeout"
  end.
Definition command (program : Text) (arguments : list Text) : UpM unit := command_with_env program arguments [].

Definition artifact_sha256 (path : UpPath) (reject_symlink : bool) : UpM Text :=
  let* m := stat (negb reject_symlink) path in
  do* lift (demand (fm_is_file m && negb (reject_symlink && fm_is_symlink m) && (Z.land (fm_mode m) 18 =? 0)
                    && negb (fm_len m =? 0) && (fm_len m <=? MAX_BUNDLE)) "runtime_handoff_artifact_unsafe") in
  let* bytes := read_file path in
  mret (sha256_hex bytes).

Definition installed_artifact_sha256 (path : UpPath) : UpM Text :=
  let* m := stat false path in
  do* lift (demand (fm_uid m =? 0) "runtime_handoff_artifact_unsafe") in
  artifact_sha256 path true.

Definition running_executable_sha256 : UpM Text := artifact_sha256 SelfExe false.

(** ** The handoff to a new worker *)

Definition runtime_handoff_marker (j : Journal) : UpM RuntimeHandoffMarker :=
  let* binary := installed_artifact_sha256 SyncBin in
  let* loop := installed_artifact_sha256 SyncLoop in
  let* now := system_time in
  let marker := mkMarker 1 (jb_id (jn_job j)) (tg_version (jb_target (jn_job j))) binary loop now in
  let* there := reads (exists_path HandoffMarker) in
  if negb there then mret marker
  else
    let* committed := read_bounded_json parse_marker HandoffMarker MAX_PROFILE_BYTES in
    do* lift (demand ((hm_schema_version committed =? hm_schema_version marker)
                      && bool_decide (hm_job_id committed = hm_job_id marker)
                      && bool_decide (hm_version committed = hm_version marker)
                      && bool_decide (hm_sync_binary_sha256 committed = hm_sync_binary_sha256 marker)
                      && bool_decide (hm_sync_loop_sha256 committed = hm_sync_loop_sha256 marker)
                      && negb (hm_requested_at committed =? 0)) "runtime_handoff_marker_conflict") in
    mret committed.

Definition schedule_openwrt_runtime_handoff : UpM unit :=
  within (bytes_of "runtime_handoff_schedule_failed")
    (command (bytes_of "/etc/init.d/candy-cloud-sync") [bytes_of "handoff_runtime_upgrade"]).

Definition ensure_runtime_handoff_marker (marker : RuntimeHandoffMarker) : UpM unit :=
  do* lift (validate_runtime_handoff_marker marker) in
  let* there := reads (exists_path HandoffMarker) in
  if there : bool then
    let* committed := read_bounded_json parse_marker HandoffMarker MAX_PROFILE_BYTES in
    lift (demand (bool_decide (committed = marker)) "runtime_handoff_marker_conflict")
  else
    do* atomic_bytes HandoffMarker (marker_bytes marker) 384 in
    sync_root.

Definition remove (path : UpPath) : UpM unit :=
  let* r := reads (remove_file path) in
  match r with Removed => mret tt | NotThere => mfail (said "not found") | RemoveFailed e => mfail e end.
(** A file that is not there is as good as removed. *)
Definition remove_if_there (path : UpPath) : UpM unit :=
  let* r := reads (remove_file path) in
  match r with RemoveFailed e => mfail e | _ => mret tt end.

Definition read_runtime_handoff_completion (marker : RuntimeHandoffMarker) : UpM bool :=
  let* there := reads (exists_path HandoffCompleted) in
  if negb there then mret false
  else
    let* completed := read_bounded_json parse_marker HandoffCompleted MAX_PROFILE_BYTES in
    if bool_decide (completed = marker) then mret true
    else if (hm_schema_version completed =? hm_schema_version marker) && token (hm_version completed)
            && negb (bool_decide (hm_version completed = hm_version marker))
    then
      do* remove HandoffCompleted in
      do* sync_root in
      mret false
    else bail "runtime_handoff_completion_conflict".

Definition read_runtime_handoff_failure (marker : RuntimeHandoffMarker) : UpM (option RuntimeHandoffFailure) :=
  let* there := reads (exists_path HandoffFailed) in
  if negb there then mret None
  else
    let* failure := read_bounded_json parse_failure HandoffFailed MAX_PROFILE_BYTES in
    do* lift (demand ((hf_schema_version failure =? 1) && bool_decide (hf_state failure = bytes_of "failed")
                      && bool_decide (hf_phase failure = bytes_of "runtime_handoff")
                      && token (hf_error_code failure) && token (hf_version failure)
                      && negb (hf_updated_at failure =? 0)) "runtime_handoff_failure_invalid") in
    if bool_decide (hf_version failure = hm_version marker) then mret (Some failure)
    else
      do* remove HandoffFailed in
      do* sync_root in
      mret None.

Definition record_runtime_handoff_failure (marker : RuntimeHandoffMarker) (error_code : string) : UpM unit :=
  let* now := system_time in
  let failure := mkHandoffFailure 1 (bytes_of "failed") (bytes_of "runtime_handoff") (bytes_of error_code)
                   (hm_version marker) now in
  do* atomic_bytes HandoffFailed (failure_bytes failure) 384 in
  sync_root.

Definition schedule_committed_runtime_handoff (marker : RuntimeHandoffMarker) : UpM unit :=
  let* scheduled := attempt schedule_openwrt_runtime_handoff in
  match scheduled with
  | Ok _ => mret tt
  | Err e => do* record_runtime_handoff_failure marker "handoff_schedule_failed" in mfail e
  end.

(** ** Receipts *)

Definition receipt (j : Journal) (state : Text) : UpM unit :=
  let* status := put_receipt (receipt_body j state) in
  lift (error_for_status status).

Definition store_journal (j : Journal) : UpM unit := atomic_bytes ReceiptJson (journal_bytes j) 384.

Definition finalize_terminal_journal (j : Journal) (submit_receipt : UpM unit) : UpM UpgradeOutcome :=
  do* submit_receipt in
  do* remove ReceiptJson in
  do* sync_root in
  mret (completed_upgrade_outcome (component (jb_target (jn_job j))) (jn_phase j)).

Definition begin_runtime_handoff (marker : RuntimeHandoffMarker) (schedule_handoff : UpM unit)
  : UpM UpgradeOutcome :=
  do* ensure_runtime_handoff_marker marker in
  let* there := reads (exists_path ReceiptJson) in
  do* lift (demand there "runtime_handoff_journal_missing") in
  do* schedule_handoff in
  mret Continue.

Definition remove_handoff_evidence : UpM unit :=
  do* remove_if_there HandoffMarker in
  do* remove_if_there HandoffCompleted in
  do* remove_if_there HandoffFailed in
  sync_root.

Definition finalize_completed_runtime_handoff (submit_receipt : UpM unit) : UpM UpgradeOutcome :=
  do* submit_receipt in
  do* remove ReceiptJson in
  do* remove_handoff_evidence in
  mret Continue.

Definition failed_handoff_journal (j : Journal) (marker : RuntimeHandoffMarker) (failure : RuntimeHandoffFailure)
  : Journal :=
  mkJournal (jn_job j) (bytes_of "failed") (Some (hf_error_code failure)) (Some (bytes_of "runtime_handoff"))
    (Some (bytes_of "Runtime " ++ hm_version marker
           ++ bytes_of " installed but the full Cloud sync service handoff failed")).

Definition finalize_failed_runtime_handoff (j : Journal) (marker : RuntimeHandoffMarker)
    (failure : RuntimeHandoffFailure) (submit_receipt : Journal -> UpM unit) : UpM UpgradeOutcome :=
  let j := failed_handoff_journal j marker failure in
  do* store_journal j in
  do* sync_root in
  do* submit_receipt j in
  do* remove ReceiptJson in
  do* sync_root in
  mret Continue.

(** What [finish_terminal_upgrade] does after the installation of a runtime on OpenWrt. *)
Definition finish_handoff (j : Journal) : UpM UpgradeOutcome :=
  let* marker := runtime_handoff_marker j in
  do* ensure_runtime_handoff_marker marker in
  let* completed := read_runtime_handoff_completion marker in
  if completed : bool then
    let* running := running_executable_sha256 in
    if negb (bool_decide (running = hm_sync_binary_sha256 marker)) then
      do* schedule_committed_runtime_handoff marker in
      mret Continue
    else finalize_completed_runtime_handoff (receipt j (bytes_of "succeeded"))
  else
    let* failure := read_runtime_handoff_failure marker in
    do* match failure with
        | None =>
            let* now := system_time in
            if runtime_handoff_timed_out marker now then record_runtime_handoff_failure marker "handoff_timeout"
            else mret tt
        | Some _ => mret tt
        end in
    let* failure := read_runtime_handoff_failure marker in
    match failure with
    | Some failure =>
        do* finalize_failed_runtime_handoff j marker failure (fun j => receipt j (bytes_of "failed")) in
        do* schedule_committed_runtime_handoff marker in
        mret Continue
    | None => begin_runtime_handoff marker (schedule_committed_runtime_handoff marker)
    end.

Definition finish_terminal_upgrade (j : Journal) : UpM UpgradeOutcome :=
  if openwrt && in_phase j "succeeded" && bool_decide (component (jb_target (jn_job j)) = bytes_of "runtime")
  then finish_handoff j
  else finalize_terminal_journal j (receipt j (jn_phase j)).

(** ** The catalog *)

Definition verify_catalog_signature (catalog signature : UpPath) : UpM bool :=
  let* ran := attempt (output (bytes_of "usign")
                [ bytes_of "-V"; bytes_of "-p"; path_text CatalogPub; bytes_of "-m"; path_text catalog;
                  bytes_of "-x"; path_text signature ]) in
  mret (match ran with Ok o => co_success o | Err _ => false end).

(** A recorded sequence that cannot be read counts as 0. *)
Definition recorded_sequence : UpM Z :=
  let* text := attempt (read_to_string CatalogSequence) in
  mret (match text with Ok text => default 0 (parse_u64 text) | Err _ => 0 end).

Definition validate_catalog_sequence (value : V) : UpM Z :=
  let* sequence := lift (ok_or (json_u64 (json_key value (bytes_of "sequence"))) (said "catalog_sequence_missing")) in
  let* previous := recorded_sequence in
  do* lift (demand (negb ((sequence <? previous)
                          || negb (bool_decide (json_u64 (json_key value (bytes_of "schema_version")) = Some 1))
                          || negb (bool_decide (json_str (json_key value (bytes_of "channel")) = Some (bytes_of "stable")))))
              "catalog_rollback_or_invalid_schema") in
  mret sequence.

(** The steps of [cached_catalog] that end in [None] are errors here. *)
Definition cached_steps (now : Z) : UpM V :=
  let* text := read_to_string CatalogCheckedAt in
  let* checked_at := lift (ok_or (parse_u64 text) []) in
  do* lift (if catalog_cache_fresh checked_at now then Ok tt else Err []) in
  let* verified := verify_catalog_signature CatalogJson CatalogSig in
  do* lift (if verified : bool then Ok tt else Err []) in
  let* value := read_bounded_json parse_json CatalogJson (4 * 1024 * 1024) in
  let* sequence := validate_catalog_sequence value in
  let* text := read_to_string CatalogSequence in
  let* recorded := lift (ok_or (parse_u64 text) []) in
  do* lift (if sequence =? recorded then Ok tt else Err []) in
  mret value.
Definition cached_catalog (now : Z) : UpM (option V) :=
  let* r := attempt (cached_steps now) in
  mret (match r with Ok value => Some value | Err _ => None end).

(** The attempts that remain, from the given one on. *)
Fixpoint catalog_attempts (more : nat) (attempt nonce : Z) : UpM bool :=
  match more with
  | O => mret false
  | S more =>
      do* fetch (catalog_ref_attempt_url process_id nonce attempt) DownloadRef (64 * 1024) in
      let* reference := read_bounded_json parse_json DownloadRef (64 * 1024) in
      let sha := json_str (json_key (json_key reference (bytes_of "object")) (bytes_of "sha")) in
      let* commit := lift (ok_or (match sha with
                                  | Some value => if git_object_id value then Some value else None
                                  | None => None
                                  end) (said "catalog_ref_invalid_commit")) in
      let '(catalog_url, signature_url) := catalog_attempt_urls commit process_id nonce attempt in
      do* fetch catalog_url DownloadJson (4 * 1024 * 1024) in
      do* fetch signature_url DownloadSig 4096 in
      let* verified := verify_catalog_signature DownloadJson DownloadSig in
      if verified : bool then mret true
      else
        do* (if attempt <? Z.of_nat CATALOG_FETCH_ATTEMPTS then modify sleep_second else mret tt) in
        catalog_attempts more (attempt + 1) nonce
  end.

Definition publish_catalog (now : Z) : UpM V :=
  let* value := read_bounded_json parse_json DownloadJson (4 * 1024 * 1024) in
  let* sequence := validate_catalog_sequence value in
  let* bytes := read_bounded DownloadJson (4 * 1024 * 1024) in
  do* atomic_bytes CatalogJson bytes 384 in
  let* signature := read_bounded DownloadSig 4096 in
  do* atomic_bytes CatalogSig signature 384 in
  do* atomic_bytes CatalogSequence (decimal sequence) 384 in
  do* atomic_bytes CatalogCheckedAt (decimal now) 384 in
  mret value.

(** [CATALOG_KEY] is a file of the repository, an argument here. *)
Definition catalog (CATALOG_KEY : list Z) : UpM V :=
  do* https_client in
  do* atomic_bytes CatalogPub CATALOG_KEY 384 in
  let* now := system_time in
  let* cached := cached_catalog now in
  match cached with
  | Some value => mret value
  | None =>
      let* nonce := system_nanos in
      let* verified := catalog_attempts CATALOG_FETCH_ATTEMPTS 1 nonce in
      do* lift (demand verified "stage=catalog_signature error_code=signature_verification_failed") in
      publish_catalog now
  end.

(** ** Targets *)

Definition is_core (name : Text) : bool := bool_decide (name = bytes_of "core").

Definition current (name : Text) : UpM Text :=
  if is_core name then
    let* o := output (manager openwrt) [bytes_of "status"] in
    do* lift (demand (co_success o) "core_status_failed") in
    let* status := lift (ok_or (parse_json (co_stdout o)) (said "json")) in
    mret (default (bytes_of "uninstalled") (json_str (json_key status (bytes_of "current_version"))))
  else if openwrt then
    let* o := output (bytes_of "apk") [bytes_of "list"; bytes_of "--installed"; bytes_of "candy-client"] in
    do* lift (demand (co_success o) "runtime_status_failed") in
    let* text := lift (ok_or (from_utf8 (co_stdout o)) (said "invalid utf-8 sequence")) in
    lift (ok_or (openwrt_runtime_version text) (said "runtime_version_missing"))
  else
    let* text := read_to_string RuntimeRelease in
    mret (trim text).

Definition candidate (catalog : V) (name : Text) (on_openwrt : bool) (key : Text) : UpM (Target * V) :=
  let* entry := lift (candidate_release catalog name on_openwrt ARCH key) in
  let '(version, artifact, digest) := entry in
  let* installed := current name in
  mret (mkTarget name installed version key digest, artifact).

Definition download_artifact (artifact : V) (name : Text) : UpM UpPath :=
  let* url := lift (ok_or (json_str (json_key artifact (bytes_of "url"))) (said "artifact_url_missing")) in
  do* lift (demand (starts_with url RELEASE_ROOT) "untrusted_artifact_origin") in
  let* size := lift (ok_or (match json_u64 (json_key artifact (bytes_of "size")) with
                            | Some n => if (0 <? n) && (n <=? MAX_BUNDLE) then Some n else None
                            | None => None
                            end) (said "artifact_size_invalid")) in
  let path := Bundle name in
  do* https_client in
  do* fetch url path size in
  let* bytes := read_bounded path MAX_BUNDLE in
  do* lift (demand ((Z.of_nat (length bytes) =? size)
                    && bool_decide (sha256_hex bytes = default [] (json_str (json_key artifact (bytes_of "sha256")))))
              "artifact_integrity_mismatch") in
  mret path.

Definition verify_openwrt_manager_target (target : Target) : UpM unit :=
  do* command (bytes_of "/usr/libexec/candy-update-manager") [bytes_of "check"] in
  let* cache := read_bounded_json parse_json ManagerCatalog (4 * 1024 * 1024) in
  let* checked := candidate cache (component target) true (version_key target) in
  lift (demand (bool_decide (tg_digest checked.1 = tg_digest target)
                && bool_decide (tg_version checked.1 = tg_version target)) "catalog_target_changed").

(** Errors are only logged. *)
Definition cleanup_managed_cores : UpM unit :=
  let* ran := attempt (output (manager openwrt) [bytes_of "status"]) in
  match ran with
  | Err _ => mret tt
  | Ok o =>
      if negb (co_success o && (Z.of_nat (length (co_stdout o)) <=? MAX_OPERATION_BYTES)) then mret tt
      else match parse_core_status (co_stdout o) with
           | None => mret tt
           | Some status =>
               foldr (fun version rest =>
                        do* ignore (command (manager openwrt) [bytes_of "remove"; version]) in rest)
                 (mret tt) (managed_core_cleanup_versions status)
           end
  end.

(** ** Installation *)

Definition install_openwrt (target : Target) : UpM unit :=
  do* verify_openwrt_manager_target target in
  let* action := lift (openwrt_manager_action (component target)) in
  do* command_with_env (bytes_of "/usr/libexec/candy-update-manager") [action; version_key target]
        [(bytes_of "CANDY_UPDATE_PRESERVE_CLOUD_UPGRADE_WORKER", bytes_of "1")] in
  if is_core (component target) then
    do* command (manager true) [bytes_of "activate"; tg_version target] in
    cleanup_managed_cores
  else mret tt.

Definition install_core (target : Target) (artifact : V) : UpM unit :=
  let* bundle := download_artifact artifact (bytes_of "core.tar.gz") in
  let* digest := lift (ok_or (json_str (json_key artifact (bytes_of "sha256"))) (said "digest")) in
  do* command (manager false) [bytes_of "install"; tg_version target; path_text bundle; digest] in
  do* command (manager false) [bytes_of "activate"; tg_version target] in
  cleanup_managed_cores.

Definition install_runtime (target : Target) (artifact : V) : UpM unit :=
  let runtime := json_key artifact (bytes_of "runtime") in
  let* bundle := download_artifact runtime (bytes_of "runtime.tar.gz") in
  let* o := output (bytes_of "tar")
              [bytes_of "-xOf"; path_text bundle; bytes_of "./install/upgrade-candy-server.sh"] in
  do* lift (demand (co_success o && negb (Nat.eqb (length (co_stdout o)) 0)
                    && (Z.of_nat (length (co_stdout o)) <=? 128 * 1024)) "runtime_installer_invalid") in
  do* atomic_bytes UpgradeScript (co_stdout o) 448 in
  let* digest := lift (ok_or (json_str (json_key runtime (bytes_of "sha256"))) (said "digest")) in
  command (bytes_of "sh")
    (linux_runtime_installer_arguments (path_text UpgradeScript) (path_text bundle) digest (tg_version target)).

Definition install (target : Target) (artifact : V) : UpM unit :=
  do* (if openwrt : bool then install_openwrt target
       else if is_core (component target) then install_core target artifact
       else install_runtime target artifact) in
  let* installed := current (component target) in
  lift (demand (bool_decide (installed = tg_version target)) "installed_version_mismatch").

(** ** What went wrong *)

(** The options of [operation_failure] and [execution_log_failure] are errors here. *)
Definition operation_failure (path : UpPath) : UpM (ManagerOperation * UpgradeFailure) :=
  let* m := stat false path in
  do* lift (if fm_is_file m && negb (fm_is_symlink m) && (fm_uid m =? 0) && (Z.land (fm_mode m) 18 =? 0)
               && negb (fm_len m =? 0) && (fm_len m <=? MAX_OPERATION_BYTES)
            then Ok tt else Err []) in
  let* bytes := read_bounded path MAX_OPERATION_BYTES in
  lift (ok_or (operation_failure_from_bytes bytes) []).

Definition execution_log_failure : UpM UpgradeFailure :=
  let* m := stat false ExecutionLog in
  do* lift (if fm_is_file m && negb (fm_is_symlink m) && (Z.land (fm_mode m) 18 =? 0) then Ok tt else Err []) in
  let keep := Z.min (fm_len m) 4096 in
  let* bytes := read_tail ExecutionLog (Z.max 0 (fm_len m - keep)) keep in
  lift (ok_or (find_map structured_failure_from_log (rev (lines (from_utf8_lossy bytes)))) []).

Definition action_matches (name : Text) (operation : ManagerOperation) : bool :=
  if bool_decide (name = bytes_of "runtime") then bool_decide (mo_action operation = bytes_of "install-runtime")
  else if is_core name then bool_decide (mo_action operation = bytes_of "install-core")
                            || bool_decide (mo_action operation = bytes_of "activate")
  else false.

(** The failures of this component, each with its time. *)
Fixpoint operation_failures (name : Text) (paths : list UpPath) : UpM (list (Z * UpgradeFailure)) :=
  match paths with
  | [] => mret []
  | path :: paths =>
      let* r := attempt (operation_failure path) in
      let* rest := operation_failures name paths in
      mret (match r with
            | Ok (operation, failure) =>
                if action_matches name operation then (mo_updated_at operation, failure) :: rest else rest
            | Err _ => rest
            end)
  end.

(** The last of the newest ones: [sort_by_key] is stable. *)
Fixpoint newest (best : option (Z * UpgradeFailure)) (l : list (Z * UpgradeFailure)) : option UpgradeFailure :=
  match l with
  | [] => option_map snd best
  | (t, f) :: l =>
      newest (match best with
              | Some (t', _) => if t' <=? t then Some (t, f) else best
              | None => Some (t, f)
              end) l
  end.

Definition upgrade_failure (name : Text) (e : Error) : UpM UpgradeFailure :=
  let* operation :=
    if openwrt : bool then
      let paths := if bool_decide (name = bytes_of "runtime") then [UpdateOperation]
                   else [UpdateOperation; CoreOperation] in
      let* found := operation_failures name paths in
      mret (newest None found)
    else mret None in
  match operation with
  | Some failure => mret failure
  | None =>
      let* logged := attempt execution_log_failure in
      match logged with
      | Ok failure => mret failure
      | Err _ => mret (mkFailure (bytes_of "executing") (upgrade_error_code e) (safe_failure_detail (error_text e)))
      end
  end.

Definition reset_execution_log : UpM unit :=
  do* open_truncate ExecutionLog in
  do* set_file_mode ExecutionLog 384 in
  sync_all ExecutionLog.

(** ** The run *)

(** The journal of an earlier run: a terminal one is finished first. *)
Definition resume_journal (identity : DeviceIdentity) : UpM (option UpgradeOutcome) :=
  let* there := reads (exists_path ReceiptJson) in
  if negb there then mret None
  else
    let* j := read_bounded_json parse_journal ReceiptJson MAX_PROFILE_BYTES in
    do* lift (demand (bool_decide (jb_device_id (jn_job j) = di_device_id identity)
                      && bool_decide (jb_device_key_id (jn_job j) = di_device_key_id identity))
                "upgrade_journal_identity_changed") in
    let interrupted := mkJournal (jn_job j) (bytes_of "failed")
                         (Some (bytes_of "upgrade_interrupted_verify_required")) (jn_failure_phase j)
                         (jn_error_detail j) in
    let* j := if in_phase j "executing" then do* store_journal interrupted in mret interrupted else mret j in
    if in_phase j "succeeded" || in_phase j "failed" then
      let* outcome := finish_terminal_upgrade j in mret (Some outcome)
    else mret None.

(** A handoff whose job is already reported. *)
Definition resume_handoff : UpM (option UpgradeOutcome) :=
  if negb openwrt then mret None
  else
    let* there := reads (exists_path HandoffMarker) in
    if negb there then mret None
    else
      let* marker := read_bounded_json parse_marker HandoffMarker MAX_PROFILE_BYTES in
      do* lift (validate_runtime_handoff_marker marker) in
      let* completed := read_runtime_handoff_completion marker in
      let* loaded :=
        if completed : bool then
          let* running := running_executable_sha256 in
          mret (bool_decide (running = hm_sync_binary_sha256 marker))
        else mret false in
      if loaded : bool then do* remove_handoff_evidence in mret (Some Continue)
      else
        do* schedule_committed_runtime_handoff marker in
        mret (Some Continue).

(** The targets that the inventory names. *)
Fixpoint inventory_targets (catalog : V) (names : list Text) : UpM (list Target) :=
  match names with
  | [] => mret []
  | name :: names =>
      let* found :=
        match json_str (json_key (json_key catalog name) (bytes_of "latest")) with
        | None => mret (Err [])
        | Some key => attempt (candidate catalog name openwrt key)
        end in
      let* rest := inventory_targets catalog names in
      mret (match found with Ok (target, _) => target :: rest | Err _ => rest end)
  end.

(** From the prepared journal on. *)
Definition settled (j : Journal) (failure : option UpgradeFailure) : Journal :=
  match failure with
  | None => with_phase (bytes_of "succeeded") j
  | Some f => mkJournal (jn_job j) (bytes_of "failed") (Some (uf_error_code f)) (Some (uf_phase f)) (Some (uf_detail f))
  end.

Definition execute (j : Journal) (target : Target) (artifact : V) : UpM UpgradeOutcome :=
  do* reset_execution_log in
  do* store_journal j in
  do* receipt j (bytes_of "running") in
  let j := with_phase (bytes_of "executing") j in
  do* store_journal j in
  let* result := attempt (if bool_decide (target = jb_target (jn_job j)) then install target artifact
                          else bail "catalog_or_installed_version_changed") in
  let* failure := match result with
                  | Ok _ => mret None
                  | Err e => let* f := upgrade_failure (component target) e in mret (Some f)
                  end in
  let j := settled j failure in
  do* store_journal j in
  finish_terminal_upgrade j.

Definition poll_job (CATALOG_KEY : list Z) (identity : DeviceIdentity) : UpM UpgradeOutcome :=
  let* catalog := catalog CATALOG_KEY in
  let* targets := inventory_targets catalog [bytes_of "runtime"; bytes_of "core"] in
  let* status := put_inventory (mkInventory 1 (if openwrt then bytes_of "openwrt" else bytes_of "linux") ARCH targets) in
  do* lift (error_for_status status) in
  let* response := get_upgrades in
  do* lift (error_for_status (ha_status response)) in
  let* bytes := bounded_response response MAX_PROFILE_BYTES in
  let* job := lift (ok_or (parse_job bytes) (said "json")) in
  match job with
  | None => mret Continue
  | Some job =>
      do* lift (demand (bool_decide (jb_device_id job = di_device_id identity)
                        && bool_decide (jb_device_key_id job = di_device_key_id identity))
                  "upgrade_identity_mismatch") in
      let* found := candidate catalog (component (jb_target job)) openwrt (version_key (jb_target job)) in
      execute (mkJournal job (bytes_of "prepared") None None None) found.1 found.2
  end.

Definition run (CATALOG_KEY : list Z) : UpM UpgradeOutcome :=
  let* root := reads is_root in
  do* lift (demand root "upgrade_requires_root") in
  do* private_root in
  do* lock_root in
  let* identity := read_bounded_json parse_identity IdentityJson MAX_PROFILE_BYTES in
  do* lift (validate_identity identity) in
  do* connect identity in
  let* finished := resume_journal identity in
  match finished with
  | Some outcome => mret outcome
  | None =>
      let* handed := resume_handoff in
      match handed with
      | Some outcome => mret outcome
      | None => poll_job CATALOG_KEY identity
      end
  end.
End Operations.
