(* ===== verification/UpgradeRuns.v ===== *)
(** * Upgrades: histories of runs

    The laws of the machine, what every part of [run] does to the journal, the recorded
    sequence and the log of installers and receipts, and the theorems on histories of runs
    with failures and crashes anywhere. *)
From stdpp Require Import base tactics list numbers option relations strings.
From Stdlib Require Import ZArith Lia.
From S2P Require Import Prelude Upgrade UpgradeOps.

#[local] Open Scope Z_scope.

Create HintDb upgrade.

(** ** Numbers as text *)

Lemma utf8_ascii l : Forall (fun c => 0 <= c < 128) l -> from_utf8 l = Some l.
Proof.
  unfold from_utf8, utf8. intros H. assert (E : utf8_run (length l) l = map Some l).
  { induction H as [|c l Hc _ IH]; [done|]. simpl. unfold utf8_step.
    rewrite (proj2 (Z.ltb_lt c 128)) by lia. by rewrite IH. }
  rewrite E. clear. induction l as [|c l IH]; [done|]. simpl. simpl in IH. by rewrite IH.
Qed.

Definition digits_value (m : Z) (l : Text) : Z := foldl (fun m c => 10 * m + (c - 48)) m l.

Lemma digits_grow m l : Forall (fun c => digit c = true) l -> 0 <= m -> m <= digits_value m l.
Proof.
  revert m. induction l as [|c l IH]; intros m; [done|]. intros [Hc Hl]%Forall_cons Hm. unfold digit in Hc.
  simpl. apply andb_prop in Hc as [H1%Z.leb_le H2%Z.leb_le]. etransitivity; [|apply IH; [done|lia]]. lia.
Qed.

Lemma parse_digits_value m l :
  Forall (fun c => digit c = true) l -> 0 <= m -> digits_value m l <= u64_MAX ->
  parse_digits m l = Some (digits_value m l).
Proof.
  revert m. induction l as [|c l IH]; intros m; [done|]. intros [Hc Hl]%Forall_cons Hm Hv. simpl in *. rewrite Hc.
  unfold digit in Hc. apply andb_prop in Hc as [H1%Z.leb_le H2%Z.leb_le].
  assert (Hle : 10 * m + (c - 48) <= digits_value (10 * m + (c - 48)) l) by (apply digits_grow; [done|lia]).
  rewrite (proj2 (Z.leb_le _ _)) by (unfold digits_value in *; lia). simpl. apply IH; [done|lia|done].
Qed.

Lemma decimal_from_spec fuel n after :
  0 <= n < 10 ^ Z.of_nat (S fuel) ->
  exists ds, decimal_from (S fuel) n after = ds ++ after /\ ds <> [] /\
    Forall (fun c => digit c = true) ds /\ digits_value 0 ds = n.
Proof.
  revert n after. induction fuel as [|fuel IH]; intros n after Hn.
  - exists [48 + n]. change (10 ^ Z.of_nat 1) with 10 in Hn. assert (H1 : n mod 10 = n) by (apply Z.mod_small; lia).
    assert (H2 : n / 10 = 0) by (apply Z.div_small; lia). simpl. rewrite H1, H2. split_and!; [done..| |].
    + repeat constructor. unfold digit. apply andb_true_intro. split; apply Z.leb_le; lia.
    + unfold digits_value. simpl. lia.
  - set (f := S fuel) in *. change (decimal_from (S f) n after) with
      (if n / 10 =? 0 then 48 + n mod 10 :: after else decimal_from f (n / 10) (48 + n mod 10 :: after)).
    pose proof (Z.mod_pos_bound n 10 ltac:(lia)) as Hm. pose proof (Z.div_mod n 10 ltac:(lia)) as Hd.
    assert (Hc : digit (48 + n mod 10) = true) by (unfold digit; apply andb_true_intro; split; apply Z.leb_le; lia).
    destruct (Z.eqb_spec (n / 10) 0) as [Hz|Hz].
    + exists [48 + n mod 10]. split_and!; [done..|by repeat constructor|]. unfold digits_value. simpl. lia.
    + destruct (IH (n / 10) (48 + n mod 10 :: after)) as (ds & -> & Hne & Hds & Hv).
      { replace (Z.of_nat (S f)) with (Z.succ (Z.of_nat f)) in Hn by lia. rewrite Z.pow_succ_r in Hn by lia. lia. }
      exists (ds ++ [48 + n mod 10]). rewrite <- app_assoc. split_and!; [done| |by apply Forall_app_2; [|repeat constructor]|].
      * by destruct ds.
      * unfold digits_value. rewrite foldl_app. fold (digits_value 0 ds). rewrite Hv. simpl. lia.
Qed.

Lemma decimal_roundtrip n : 0 <= n <= u64_MAX ->
  from_utf8 (decimal n) = Some (decimal n) /\ parse_u64 (decimal n) = Some n.
Proof.
  intros Hn. destruct (decimal_from_spec 39 n []) as (ds & E & Hne & Hds & Hv).
  { change u64_MAX with 18446744073709551615 in Hn. change (10 ^ Z.of_nat 40) with 10000000000000000000000000000000000000000. lia. }
  rewrite app_nil_r in E. unfold decimal. rewrite E. split.
  - apply utf8_ascii. eapply Forall_impl; [exact Hds|]. intros c Hc. unfold digit in Hc.
    apply andb_prop in Hc as [H1%Z.leb_le H2%Z.leb_le]. lia.
  - assert (Hp : parse_digits 0 ds = Some n) by (rewrite parse_digits_value, Hv; [done|done|lia|lia]).
    destruct ds as [|c ds]; [done|]. apply Forall_cons in Hds as [Hc _]. unfold digit in Hc.
    apply andb_prop in Hc as [H1%Z.leb_le H2%Z.leb_le]. unfold parse_u64.
    assert (Hcase : c = 48 \/ c = 49 \/ c = 50 \/ c = 51 \/ c = 52 \/ c = 53 \/ c = 54 \/ c = 55 \/ c = 56 \/ c = 57) by lia.
    by destruct Hcase as [->|[->|[->|[->|[->|[->|[->|[->|[->| ->]]]]]]]]].
Qed.

(** ** The laws

    What happened outside: programs that were started, and receipts that were handed to the
    client, with whether Cloud accepted them. *)
Inductive Event : Type :=
| Ran (program : Text) (arguments : list Text)
| Sent (body : ReceiptBody) (accepted : bool).

Definition accepts (status : Z) : bool := negb ((400 <=? status) && (status <? 600)).

(** The files that only this program writes, and its temporary files. *)
Definition kept (p : UpPath) : bool :=
  match p with ReceiptJson | CatalogSequence | TempOf _ _ => true | _ => false end.

Section Laws.
Context {X : Type}.
Variables (up_file : X -> UpPath -> option (list Z)) (events : X -> list Event).

(** Nothing that matters here changed, but for the file [p]. *)
Definition untouched_but (p : UpPath) (x x' : X) : Prop :=
  events x' = events x /\ forall q, kept q = true -> q <> p -> up_file x' q = up_file x q.
Definition untouched (x x' : X) : Prop :=
  events x' = events x /\ forall q, kept q = true -> up_file x' q = up_file x q.
Definition untouching {T} (m : X -> T * X) : Prop := forall x, untouched x (m x).2.
(** At most this event was added. *)
Definition logs (e : Event) (x x' : X) : Prop := events x' = events x \/ events x' = events x ++ [e].
End Laws.

(** An operation changes at most the file it is about; a program that was started may change
    anything but the files of this one; what fails may have had its effect. *)
Class UpgradeLaws (X V : Type) `{!UpgradeJson V} `{!UpgradeHost X} : Type := {
  up_file : X -> UpPath -> option (list Z);
  events : X -> list Event;
  is_root_law : untouching up_file events is_root;
  exists_law p : untouching up_file events (exists_path p);
  stat_law follow p : untouching up_file events (stat follow p);
  read_law p x : let '(r, x') := read_file p x in
    untouched up_file events x x' /\ (kept p = true -> forall bytes, r = Ok bytes -> up_file x p = Some bytes);
  read_tail_law p start n : untouching up_file events (read_tail p start n);
  new_uuid_law : untouching up_file events new_uuid;
  create_law p x : let '(r, x') := create_new p x in
    untouched_but up_file events p x x' /\ (r = Ok tt -> up_file x' p = Some []);
  truncate_law p x : untouched_but up_file events p x (open_truncate p x).2;
  write_law p bytes x : let '(r, x') := write_all p bytes x in
    untouched_but up_file events p x x' /\ (r = Ok tt -> up_file x p = Some [] -> up_file x' p = Some bytes);
  io_copy_law p answer limit x : untouched_but up_file events p x (io_copy p answer limit x).2;
  sync_all_law p : untouching up_file events (sync_all p);
  file_owner_law p m : untouching up_file events (set_file_owner p m);
  file_mode_law p mode : untouching up_file events (set_file_mode p mode);
  rename_law p p' x : let '(r, x') := rename p p' x in
    events x' = events x /\
    (forall q, kept q = true -> q <> p -> q <> p' -> up_file x' q = up_file x q) /\
    match r with Ok _ => up_file x' p' = up_file x p | Err _ => up_file x' p' = up_file x p' end;
  remove_law p x : let '(r, x') := remove_file p x in
    untouched_but up_file events p x x' /\ up_file x' p = match r with Removed | NotThere => None | RemoveFailed _ => up_file x p end;
  sync_root_law : untouching up_file events sync_root;
  dir_exists_law d : untouching up_file events (dir_exists d);
  dir_stat_law d : untouching up_file events (dir_stat d);
  dir_create_law d : untouching up_file events (dir_create d);
  dir_create_all_law d : untouching up_file events (dir_create_all d);
  dir_owner_law d m : untouching up_file events (dir_set_owner d m);
  dir_mode_law d mode : untouching up_file events (dir_set_mode d mode);
  lock_law : untouching up_file events lock_root;
  system_time_law : untouching up_file events system_time;
  system_nanos_law : untouching up_file events system_nanos;
  sleep_law x : untouched up_file events x (sleep_second x);
  open_log_law : untouching up_file events open_log;
  child_law program arguments environment x : let '(r, x') := run_child program arguments environment x in
    (forall q, kept q = true -> up_file x' q = up_file x q) /\ logs events (Ran program arguments) x x';
  output_law program arguments : untouching up_file events (output program arguments);
  client_law : untouching up_file events https_client;
  http_get_law url : untouching up_file events (http_get url);
  connect_law identity : untouching up_file events (connect identity);
  put_receipt_law body x : let '(r, x') := put_receipt body x in
    (forall q, kept q = true -> up_file x' q = up_file x q) /\
    match r with
    | Ok status => events x' = events x ++ [Sent body (accepts status)]
    | Err _ => logs events (Sent body false) x x'
    end;
  put_inventory_law inventory : untouching up_file events (put_inventory inventory);
  get_upgrades_law : untouching up_file events get_upgrades;
  journal_law j : parse_journal (journal_bytes j) = Some j;
  u64_law v n : json_u64 v = Some n -> is_u 64 n;
}.

Section Runs.
Context {X V : Type} `{!UpgradeJson V} `{!UpgradeHost X} `{laws : !UpgradeLaws X V}.
Implicit Types (x : X) (j : Journal).
#[local] Abbreviation UpM := (@UpgradeOps.UpM X).

(** ** Relations between the world before and after *)

(** Neither the log, nor the journal, nor the recorded sequence changed. *)
Definition still x x' : Prop :=
  events x' = events x /\ up_file x' ReceiptJson = up_file x ReceiptJson /\ up_file x' CatalogSequence = up_file x CatalogSequence.

(** A relation that a method keeps to, whatever its outcome. *)
Definition keeps_to (R : X -> X -> Prop) {T} (m : UpM T) : Prop := forall x, R x (m x).2.

(** The relations of interest contain [still] and compose. *)
Class Coarse (R : X -> X -> Prop) : Prop := {
  coarse_still x x' : still x x' -> R x x';
  coarse_trans x1 x2 x3 : R x1 x2 -> R x2 x3 -> R x1 x3;
}.

#[local] Instance still_coarse : Coarse still.
Proof. constructor; [done|]. intros x1 x2 x3 (?&?&?) (?&?&?). split_and!; congruence. Qed.

Lemma still_refl x : still x x.
Proof. done. Qed.

Section Coarse.
Context (R : X -> X -> Prop) `{!Coarse R}.

Lemma kt_still {T} (m : UpM T) : keeps_to still m -> keeps_to R m.
Proof. intros H x. apply coarse_still, H. Qed.

Lemma kt_bind {T U} (m : UpM T) (k : T -> UpM U) :
  keeps_to R m -> (forall v, keeps_to R (k v)) -> keeps_to R (mbind m k).
Proof.
  intros Hm Hk x. unfold mbind. specialize (Hm x). destruct (m x) as [[v|e] x']; [|done].
  eapply coarse_trans; [done|apply Hk].
Qed.

Lemma kt_pure {T} (r : Result Error T) : keeps_to R (fun x => (r, x)).
Proof. intros x. by apply coarse_still. Qed.
Lemma kt_ret {T} (v : T) : keeps_to R (mret v).
Proof. apply kt_pure. Qed.
Lemma kt_fail {T} e : keeps_to R (mfail e : UpM T).
Proof. apply kt_pure. Qed.
Lemma kt_lift {T} (r : Result Error T) : keeps_to R (lift r).
Proof. apply kt_pure. Qed.

Lemma kt_within {T} text (m : UpM T) : keeps_to R m -> keeps_to R (within text m).
Proof. intros Hm x. unfold within. specialize (Hm x). by destruct (m x). Qed.
Lemma kt_attempt {T} (m : UpM T) : keeps_to R m -> keeps_to R (attempt m : UpM _).
Proof. intros Hm x. unfold attempt. specialize (Hm x). by destruct (m x). Qed.
Lemma kt_ignore {T} (m : UpM T) : keeps_to R m -> keeps_to R (ignore m : UpM _).
Proof. intros Hm x. unfold ignore, attempt, mbind. specialize (Hm x). by destruct (m x). Qed.
Lemma kt_reads {T} (f : X -> T * X) : (forall x, R x (f x).2) -> keeps_to R (reads f).
Proof. intros Hf x. unfold reads. specialize (Hf x). by destruct (f x). Qed.
Lemma kt_if {T} (b : bool) (m m' : UpM T) : keeps_to R m -> keeps_to R m' -> keeps_to R (if b then m else m').
Proof. by destruct b. Qed.
End Coarse.

(** ** The operations of the machine *)

Lemma untouched_still x x' : untouched up_file events x x' -> still x x'.
Proof. intros [E F]. split_and!; [done|by apply F..]. Qed.
Lemma untouched_but_still p x x' :
  untouched_but up_file events p x x' -> p <> ReceiptJson -> p <> CatalogSequence -> still x x'.
Proof. intros [E F] H1 H2. split_and!; [done|by apply F..]. Qed.

Lemma still_untouching {T} (m : UpM T) : untouching up_file events m -> keeps_to still m.
Proof. intros H x. apply untouched_still, H. Qed.
Lemma still_reads {T} (f : X -> T * X) : untouching up_file events f -> keeps_to still (reads f).
Proof. intros H. apply kt_reads. intros x. apply untouched_still, H. Qed.

Definition working (p : UpPath) : Prop := p <> ReceiptJson /\ p <> CatalogSequence.

Lemma still_exists p : keeps_to still (reads (exists_path p)).
Proof. apply still_reads, exists_law. Qed.
Lemma still_read p : keeps_to still (read_file p).
Proof. intros x. pose proof (read_law p x) as H. destruct (read_file p x).
  destruct H as [H _]. by apply untouched_still. Qed.
Lemma still_truncate p : working p -> keeps_to still (open_truncate p).
Proof. intros [] x. apply (untouched_but_still p); [apply truncate_law|done..]. Qed.
Lemma still_copy p answer limit : working p -> keeps_to still (io_copy p answer limit).
Proof. intros [] x. apply (untouched_but_still p); [apply io_copy_law|done..]. Qed.
Lemma still_remove p : working p -> keeps_to still (reads (remove_file p)).
Proof.
  intros []. apply kt_reads. intros x. pose proof (remove_law p x) as Hl. destruct (remove_file p x).
  destruct Hl as [Hl _]. by apply (untouched_but_still p).
Qed.
Lemma still_sleep : keeps_to still (modify sleep_second).
Proof. intros x. apply untouched_still, sleep_law. Qed.
End Runs.

#[export] Existing Instance still_coarse.
#[export] Hint Extern 1 (working _) => by split : upgrade.
#[export] Hint Resolve is_root_law stat_law read_tail_law new_uuid_law sync_all_law file_owner_law file_mode_law
  sync_root_law dir_exists_law dir_stat_law dir_create_law dir_create_all_law dir_owner_law dir_mode_law lock_law
  system_time_law system_nanos_law open_log_law output_law client_law http_get_law connect_law
  put_inventory_law get_upgrades_law : upgrade.
#[export] Hint Resolve still_untouching still_reads still_exists still_read still_truncate still_copy still_remove
  still_sleep : upgrade.

(** Take a method apart down to operations that have a lemma. *)
Ltac kt_step :=
  match goal with
  | |- keeps_to _ (mbind _ _) => apply kt_bind; [apply _| |intros ?]
  | |- keeps_to _ (within _ _) => apply kt_within
  | |- keeps_to _ (lift _) => apply kt_lift; apply _
  | |- keeps_to _ (mret _) => apply kt_ret; apply _
  | |- keeps_to _ (mfail _) => apply kt_fail; apply _
  | |- keeps_to _ (bail _) => apply kt_fail; apply _
  | |- keeps_to _ (ignore _) => apply kt_ignore
  | |- keeps_to _ (if ?b then _ else _) => destruct b
  | |- keeps_to _ (match ?v with _ => _ end) => destruct v
  | |- keeps_to _ (let '(_, _) := ?v in _) => destruct v
  | |- working _ => by split
  | |- keeps_to _ (attempt _) => apply kt_attempt
  end.
Ltac kt_hint :=
  solve [eauto with upgrade nocore | apply kt_still; [apply _|]; eauto with upgrade nocore].
Ltac kt := repeat first [kt_hint | kt_step].

Section Parts.
Context {X V : Type} `{!UpgradeJson V} `{!UpgradeHost X} `{laws : !UpgradeLaws X V}.
Implicit Types (x : X) (j : Journal).
#[local] Abbreviation UpM := (@UpgradeOps.UpM X).

(** ** Parts that change nothing of interest *)

Lemma still_private_root : keeps_to still private_root.
Proof. unfold private_root. kt. Qed.
Lemma still_directory : keeps_to still (ensure_private_directory).
Proof. unfold ensure_private_directory. kt. Qed.
#[local] Hint Resolve still_private_root still_directory : upgrade.

Lemma still_read_bounded p n : keeps_to still (read_bounded p n).
Proof. unfold read_bounded. kt. Qed.
#[local] Hint Resolve still_read_bounded : upgrade.
Lemma still_read_json {T} (parse : list Z -> option T) p n : keeps_to still (read_bounded_json parse p n).
Proof. unfold read_bounded_json. kt. Qed.
Lemma still_read_string p : keeps_to still (read_to_string p).
Proof. unfold read_to_string. kt. Qed.
Lemma still_fetch url p limit : working p -> keeps_to still (fetch url p limit).
Proof. intros Hp. unfold fetch. kt. Qed.
Lemma still_response response n : keeps_to still (bounded_response response n).
Proof. unfold bounded_response. kt. Qed.
#[local] Hint Resolve still_read_json still_read_string still_fetch still_response : upgrade.
Lemma still_sha256 p b : keeps_to still (artifact_sha256 p b).
Proof. unfold artifact_sha256. kt. Qed.
#[local] Hint Resolve still_sha256 : upgrade.
Lemma still_installed_sha256 p : keeps_to still (installed_artifact_sha256 p).
Proof. unfold installed_artifact_sha256. kt. Qed.
Lemma still_running_sha256 : keeps_to still running_executable_sha256.
Proof. unfold running_executable_sha256. kt. Qed.
#[local] Hint Resolve still_installed_sha256 still_running_sha256 : upgrade.
Lemma still_marker j : keeps_to still (runtime_handoff_marker j).
Proof. unfold runtime_handoff_marker. kt. Qed.
Lemma still_removed p : working p -> keeps_to still (remove p).
Proof. intros Hp. unfold remove. kt. Qed.
Lemma still_removed_if_there p : working p -> keeps_to still (remove_if_there p).
Proof. intros Hp. unfold remove_if_there. kt. Qed.
#[local] Hint Resolve still_marker still_removed still_removed_if_there : upgrade.
Lemma still_completion marker : keeps_to still (read_runtime_handoff_completion marker).
Proof. unfold read_runtime_handoff_completion. kt. Qed.
Lemma still_failure marker : keeps_to still (read_runtime_handoff_failure marker).
Proof. unfold read_runtime_handoff_failure. kt. Qed.
Lemma still_evidence : keeps_to still remove_handoff_evidence.
Proof. unfold remove_handoff_evidence. kt. Qed.
Lemma still_signature p q : keeps_to still (verify_catalog_signature p q).
Proof. unfold verify_catalog_signature. kt. Qed.
Lemma still_recorded : keeps_to still recorded_sequence.
Proof. unfold recorded_sequence. kt. Qed.
#[local] Hint Resolve still_completion still_failure still_evidence still_signature still_recorded : upgrade.
Lemma still_validate_sequence value : keeps_to still (validate_catalog_sequence value).
Proof. unfold validate_catalog_sequence. kt. Qed.
#[local] Hint Resolve still_validate_sequence : upgrade.
Lemma still_cached now : keeps_to still (cached_catalog now).
Proof. unfold cached_catalog, cached_steps. kt. Qed.
Lemma still_attempts more n nonce : keeps_to still (catalog_attempts more n nonce).
Proof. revert n. induction more as [|more IH]; intros n; simpl; kt. Qed.
Lemma still_current name : keeps_to still (current name).
Proof. unfold current. kt. Qed.
#[local] Hint Resolve still_cached still_attempts still_current : upgrade.
Lemma still_candidate value name b key : keeps_to still (candidate value name b key).
Proof. unfold candidate. kt. Qed.
#[local] Hint Resolve still_candidate : upgrade.
Lemma still_download artifact name : keeps_to still (download_artifact artifact name).
Proof. unfold download_artifact. kt. Qed.
Lemma still_operation_failure p : keeps_to still (operation_failure p).
Proof. unfold operation_failure. kt. Qed.
Lemma still_log_failure : keeps_to still execution_log_failure.
Proof. unfold execution_log_failure. kt. Qed.
#[local] Hint Resolve still_download still_operation_failure still_log_failure : upgrade.
Lemma still_operation_failures name paths : keeps_to still (operation_failures name paths).
Proof. induction paths; simpl; kt. Qed.
#[local] Hint Resolve still_operation_failures : upgrade.
Lemma still_upgrade_failure name e : keeps_to still (upgrade_failure name e).
Proof. unfold upgrade_failure. kt. Qed.
Lemma still_reset_log : keeps_to still reset_execution_log.
Proof. unfold reset_execution_log. kt. Qed.
Lemma still_inventory value names : keeps_to still (inventory_targets value names).
Proof. induction names; simpl; kt. Qed.
#[local] Hint Resolve still_upgrade_failure still_reset_log still_inventory : upgrade.

(** ** Writing a state file *)

Lemma wp_keeps R {T} (m : UpM T) (Q : Result Error T -> X -> Prop) x :
  keeps_to R m -> (forall r x', R x x' -> Q r x') -> wp m Q x.
Proof. intros H HQ. unfold wp. specialize (H x). destruct (m x). by apply HQ. Qed.

(** A step that changes nothing of interest, on the way from [x0]. *)
Lemma wp_still_bind {T U} (m : UpM T) (k : T -> UpM U) (Q : Result Error U -> X -> Prop) x0 x :
  keeps_to still m -> still x0 x -> (forall e x', still x0 x' -> Q (Err e) x') ->
  (forall v x', still x0 x' -> wp (k v) Q x') -> wp (mbind m k) Q x.
Proof.
  intros Hm S He Hk. apply wp_mbind. eapply wp_keeps; [done|].
  intros [v|e] x' S'; [apply Hk|apply He]; by eapply coarse_trans.
Qed.

Lemma wp_inside {T} text (m : UpM T) (Q : Result Error T -> X -> Prop) x :
  wp m (fun r => Q (map_err (fun e => text :: e) r)) x -> wp (within text m) Q x.
Proof. unfold wp, within. by destruct (m x). Qed.

(** What an atomic write may have done: the file is the old one, which is an error, or the new one;
    other files of interest are the same. *)
Definition written (p : UpPath) (bytes : list Z) {T} (r : Result Error T) x x' : Prop :=
  events x' = events x /\
  (p <> ReceiptJson -> up_file x' ReceiptJson = up_file x ReceiptJson) /\
  (p <> CatalogSequence -> up_file x' CatalogSequence = up_file x CatalogSequence) /\
  ((p = ReceiptJson \/ p = CatalogSequence) ->
   up_file x' p = Some bytes \/ (up_file x' p = up_file x p /\ is_err r = true)).

Lemma still_written p bytes {T} (e : Error) x x' : still x x' -> written p bytes (Err e : Result Error T) x x'.
Proof. intros (E & F & G). split_and!; [done..|]. intros [->| ->]; by right. Qed.

(** Renaming the temporary file, and what follows. *)
Lemma rename_written p bytes uuid x0 x : still x0 x -> up_file x (TempOf p uuid) = Some bytes ->
  wp (do* within (bytes_of "replace atomic state file") (rename (TempOf p uuid) p) in
      within (bytes_of "sync Runtime state directory") sync_root) (fun r x' => written p bytes r x0 x') x.
Proof.
  intros (E & F & G) Ht. apply wp_mbind, wp_inside. unfold wp at 1.
  pose proof (rename_law (TempOf p uuid) p x) as Hl. destruct (rename (TempOf p uuid) p x) as [r x1].
  destruct Hl as (E1 & Fo & Hr). rewrite E in E1.
  assert (Hrest : forall q, kept q = true -> q <> TempOf p uuid -> q <> p -> up_file x1 q = up_file x q) by done.
  destruct r as [[]|e]; simpl.
  - apply wp_inside. eapply (wp_keeps still); [eauto with upgrade nocore|]. intros r x2 (E2 & F2 & G2).
    rewrite E1 in E2. split_and!; [done| | |].
    + intros Hp. by rewrite F2, <- F; apply Hrest.
    + intros Hp. by rewrite G2, <- G; apply Hrest.
    + intros [->| ->]; left; [by rewrite F2, Hr|by rewrite G2, Hr].
  - split_and!; [done| | |].
    + intros Hp. by rewrite <- F; apply Hrest.
    + intros Hp. by rewrite <- G; apply Hrest.
    + intros [->| ->]; right; (split; [congruence|done]).
Qed.

Lemma atomic_written p bytes mode x : wp (atomic_bytes p bytes mode) (fun r x' => written p bytes r x x') x.
Proof.
  unfold atomic_bytes. apply wp_mbind. eapply (wp_keeps still); [apply still_directory|].
  intros [[]|e] x1 S1; [|by apply still_written].
  apply wp_mbind. eapply (wp_keeps still); [eauto with upgrade nocore|]. intros [uuid|e] x2 S2; [|by eapply still_written, coarse_trans].
  pose proof (coarse_trans _ _ _ S1 S2) as S. clear S1 S2 x1.
  apply wp_mbind, wp_inside. unfold wp at 1. pose proof (create_law (TempOf p uuid) x2) as Hc.
  destruct (create_new (TempOf p uuid) x2) as [[[]|e] x3]; destruct Hc as [U3 F3];
    apply untouched_but_still in U3; [| |try done..]; try done; pose proof (coarse_trans _ _ _ S U3) as S3;
    [|by apply still_written].
  clear S U3 x2. specialize (F3 eq_refl).
  assert (Hstep : forall {T} text (m : UpM T) (k : T -> UpM unit) content y,
             untouching up_file events m -> still x y -> up_file y (TempOf p uuid) = content ->
             (forall v y', still x y' -> up_file y' (TempOf p uuid) = content ->
                           wp (k v) (fun r x' => written p bytes r x x') y') ->
             wp (mbind (within text m) k) (fun r x' => written p bytes r x x') y).
  { intros T text m k content y Hm Sy Fy Hk. apply wp_mbind, wp_inside. unfold wp at 1. specialize (Hm y).
    destruct (m y) as [[v|e] y']; simpl in *.
    - apply Hk; [eapply coarse_trans; [done|by apply untouched_still]|]. rewrite <- Fy. by apply Hm.
    - eapply still_written, coarse_trans; [done|by apply untouched_still]. }
  eapply Hstep; [apply dir_stat_law|done..|]. clear x3 S3 F3. intros m x3 S3 F3.
  eapply Hstep; [apply file_owner_law|done..|]. clear x3 S3 F3. intros [] x3 S3 F3.
  apply wp_mbind, wp_inside. unfold wp at 1. pose proof (write_law (TempOf p uuid) bytes x3) as Hw.
  destruct (write_all (TempOf p uuid) bytes x3) as [[[]|e] x4]; destruct Hw as [U4 F4];
    apply untouched_but_still in U4; try done; pose proof (coarse_trans _ _ _ S3 U4) as S4; [|by apply still_written].
  specialize (F4 eq_refl F3). clear x3 S3 F3 U4.
  eapply Hstep; [apply sync_all_law|done..|]. clear x4 S4 F4. intros [] x4 S4 F4.
  apply wp_mbind. unfold wp at 1. pose proof (file_mode_law (TempOf p uuid) mode x4) as Um.
  destruct (set_file_mode (TempOf p uuid) mode x4) as [[[]|e] x5]; simpl in Um.
  - apply rename_written; [eapply coarse_trans; [done|by apply untouched_still]|]. rewrite <- F4. by apply Um.
  - eapply still_written, coarse_trans; [done|by apply untouched_still].
Qed.
End Parts.

#[export] Hint Resolve still_private_root still_directory still_read_bounded still_read_json still_read_string still_fetch still_response still_sha256 still_installed_sha256 still_running_sha256 still_marker still_removed still_removed_if_there still_completion still_failure still_evidence still_signature still_recorded still_validate_sequence still_cached still_attempts still_current still_candidate still_download still_operation_failure still_log_failure still_operation_failures still_upgrade_failure still_reset_log still_inventory : upgrade.

(** ** Histories *)

(** Runs of the program, one at a time, which the lock sees to, and whatever else leaves its files
    alone. *)
Inductive upgrade_step {X V : Type} `{!UpgradeJson V} `{!UpgradeHost X} `{!UpgradeLaws X V} (x : X) : X -> Prop :=
| step_run key : upgrade_step x (run key x).2
| step_elsewhere x' : still x x' -> upgrade_step x x'.
