(* ===== verification/UpgradeCatalog.v ===== *)
(** * Upgrades: the catalog never goes back

    The recorded sequence over histories of runs, and the catalogs that [catalog] returns. *)
From stdpp Require Import base tactics list numbers option relations strings.
From Stdlib Require Import ZArith Lia.
From S2P Require Import Prelude Upgrade UpgradeOps UpgradeRuns.

#[local] Open Scope Z_scope.

Section Catalog.
Context {X V : Type} `{!UpgradeJson V} `{!UpgradeHost X} `{laws : !UpgradeLaws X V}.
Implicit Types (x : X) (j : Journal).
#[local] Abbreviation UpM := (@UpgradeOps.UpM X).

(** What a recorded text stands for. *)
Definition sequence_of (file : option (list Z)) : Z :=
  match file with
  | Some bytes => match from_utf8 bytes with Some text => default 0 (parse_u64 text) | None => 0 end
  | None => 0
  end.
Definition recorded_at x : Z := sequence_of (up_file x CatalogSequence).

Definition grows x x' : Prop := recorded_at x <= recorded_at x'.

#[local] Instance grows_coarse : Coarse grows.
Proof.
  constructor; [|intros x1 x2 x3; unfold grows; lia]. intros x x' (_ & _ & E). unfold grows, recorded_at. rewrite E. lia.
Qed.

(** ** Parts that write or run something else *)

Lemma grows_written p bytes {T} (r : Result Error T) x x' :
  p <> CatalogSequence -> written p bytes r x x' -> grows x x'.
Proof. intros Hp (_ & _ & G & _). unfold grows, recorded_at. rewrite G by done. lia. Qed.

Lemma grows_atomic p bytes mode : p <> CatalogSequence -> keeps_to grows (atomic_bytes p bytes mode).
Proof.
  intros Hp x. pose proof (atomic_written p bytes mode x) as Hw. unfold wp in Hw.
  destruct (atomic_bytes p bytes mode x) as [r x']. by eapply grows_written.
Qed.

Lemma grows_child program arguments environment : keeps_to grows (run_child program arguments environment).
Proof.
  intros x. pose proof (child_law program arguments environment x) as Hl.
  destruct (run_child program arguments environment x) as [r x']. destruct Hl as [F _].
  unfold grows, recorded_at. rewrite F by done. simpl. lia.
Qed.

Lemma grows_put body : keeps_to grows (put_receipt body).
Proof.
  intros x. pose proof (put_receipt_law body x) as Hl. destruct (put_receipt body x) as [r x'].
  destruct Hl as [F _]. unfold grows, recorded_at. rewrite F by done. simpl. lia.
Qed.

Lemma grows_remove : keeps_to grows (reads (remove_file ReceiptJson)).
Proof.
  intros x. unfold reads. pose proof (remove_law ReceiptJson x) as Hl.
  destruct (remove_file ReceiptJson x) as [r x']. destruct Hl as [[_ F] _].
  unfold grows, recorded_at. simpl. rewrite F by done. lia.
Qed.

#[local] Hint Extern 1 (_ <> CatalogSequence) => done : upgrade.
#[local] Hint Resolve grows_atomic grows_child grows_put grows_remove : upgrade.

Lemma grows_command_env program arguments environment :
  keeps_to grows (command_with_env program arguments environment).
Proof. unfold command_with_env. kt. Qed.
#[local] Hint Resolve grows_command_env : upgrade.
Lemma grows_command program arguments : keeps_to grows (command program arguments).
Proof. unfold command. kt. Qed.
#[local] Hint Resolve grows_command : upgrade.
Lemma grows_receipt j state : keeps_to grows (receipt j state).
Proof. unfold receipt. kt. Qed.
Lemma grows_store j : keeps_to grows (store_journal j).
Proof. unfold store_journal. kt. Qed.
Lemma grows_journal_removed : keeps_to grows (remove ReceiptJson).
Proof. unfold remove. kt. Qed.
Lemma grows_ensure marker : keeps_to grows (ensure_runtime_handoff_marker marker).
Proof. unfold ensure_runtime_handoff_marker. kt. Qed.
Lemma grows_record marker code : keeps_to grows (record_runtime_handoff_failure marker code).
Proof. unfold record_runtime_handoff_failure. kt. Qed.
#[local] Hint Resolve grows_receipt grows_store grows_journal_removed grows_ensure grows_record : upgrade.
Lemma grows_schedule marker : keeps_to grows (schedule_committed_runtime_handoff marker).
Proof. unfold schedule_committed_runtime_handoff, schedule_openwrt_runtime_handoff. kt. Qed.
#[local] Hint Resolve grows_schedule : upgrade.
Lemma grows_finish j : keeps_to grows (finish_terminal_upgrade j).
Proof.
  unfold finish_terminal_upgrade, finish_handoff, finalize_terminal_journal, finalize_completed_runtime_handoff,
    finalize_failed_runtime_handoff, begin_runtime_handoff. kt.
Qed.
Lemma grows_cleanup : keeps_to grows cleanup_managed_cores.
Proof.
  unfold cleanup_managed_cores. kt. induction (managed_core_cleanup_versions _) as [|v l IH]; simpl; kt.
Qed.
#[local] Hint Resolve grows_finish grows_cleanup : upgrade.
Lemma grows_install target artifact : keeps_to grows (install target artifact).
Proof.
  unfold install, install_openwrt, verify_openwrt_manager_target, install_core, install_runtime. kt.
Qed.
#[local] Hint Resolve grows_install : upgrade.
Lemma grows_execute j target artifact : keeps_to grows (execute j target artifact).
Proof. unfold execute. kt. Qed.
Lemma grows_resume identity : keeps_to grows (resume_journal identity).
Proof. unfold resume_journal. kt. Qed.
Lemma grows_resume_handoff : keeps_to grows resume_handoff.
Proof. unfold resume_handoff. kt. Qed.
#[local] Hint Resolve grows_execute grows_resume grows_resume_handoff : upgrade.

(** ** The catalog *)

(** The file of the sequence can be read when it is there. *)
Definition sequence_readable : Prop :=
  forall x bytes, up_file x CatalogSequence = Some bytes -> (read_file CatalogSequence x).1 = Ok bytes.

Lemma recorded_wp (Q : Result Error Z -> X -> Prop) x :
  sequence_readable -> (forall x', still x x' -> Q (Ok (recorded_at x)) x') -> wp recorded_sequence Q x.
Proof.
  intros Hr HQ. unfold recorded_sequence, wp, mbind, attempt, read_to_string.
  pose proof (read_law CatalogSequence x) as Hl. pose proof (Hr x) as Hrx.
  destruct (read_file CatalogSequence x) as [[bytes|e] x'] eqn:E; unfold mbind; rewrite E; simpl in *; destruct Hl as [U Hb].
  - specialize (Hb eq_refl bytes eq_refl). unfold recorded_at, sequence_of in HQ. rewrite Hb in HQ.
    destruct (from_utf8 bytes) as [text|]; simpl; apply HQ; by apply untouched_still.
  - assert (Hn : up_file x CatalogSequence = None).
    { destruct (up_file x CatalogSequence) as [bytes|]; [|done]. by specialize (Hrx bytes eq_refl). }
    unfold recorded_at, sequence_of in HQ. rewrite Hn in HQ. apply HQ. by apply untouched_still.
Qed.

(** A catalog that may be used when [n] is recorded. *)
Definition admissible (n : Z) (value : V) : Prop :=
  exists sequence, json_u64 (json_key value (bytes_of "sequence")) = Some sequence /\ n <= sequence /\
    json_u64 (json_key value (bytes_of "schema_version")) = Some 1 /\
    json_str (json_key value (bytes_of "channel")) = Some (bytes_of "stable").

Lemma validate_sequence_wp value (Q : Result Error Z -> X -> Prop) x :
  sequence_readable ->
  (forall r x', still x x' ->
     (forall n, r = Ok n -> admissible (recorded_at x) value /\
                json_u64 (json_key value (bytes_of "sequence")) = Some n /\ recorded_at x <= n) -> Q r x') ->
  wp (validate_catalog_sequence value) Q x.
Proof.
  intros Hr HQ. unfold validate_catalog_sequence. apply wp_mbind, wp_lift.
  destruct (json_u64 (json_key value (bytes_of "sequence"))) as [n|] eqn:En; simpl; [|by apply HQ].
  apply wp_mbind, recorded_wp; [done|]. intros x' S. apply wp_mbind, wp_lift. unfold demand.
  destruct (Z.ltb_spec n (recorded_at x)); simpl; [by apply HQ|].
  destruct (bool_decide_reflect (json_u64 (json_key value (bytes_of "schema_version")) = Some 1)); simpl; [|by apply HQ].
  destruct (bool_decide_reflect (json_str (json_key value (bytes_of "channel")) = Some (bytes_of "stable"))); simpl; [|by apply HQ].
  apply wp_mret, HQ; [done|]. intros m [= <-]. split_and!; [by exists n|done|lia].
Qed.

Lemma still_atomic p bytes mode : working p -> keeps_to still (atomic_bytes p bytes mode).
Proof.
  intros [] x. pose proof (atomic_written p bytes mode x) as Hw. unfold wp in Hw.
  destruct (atomic_bytes p bytes mode x). destruct Hw as (E & F & G & _). split_and!; [done|by apply F|by apply G].
Qed.
#[local] Hint Resolve still_atomic : upgrade.

(** Recording [n], which is at least what was recorded. *)
Lemma record_wp n x : is_u 64 n -> recorded_at x <= n -> grows x (atomic_bytes CatalogSequence (decimal n) 384 x).2.
Proof.
  intros [H0 H1] Hx. pose proof (atomic_written CatalogSequence (decimal n) 384 x) as Hw. unfold wp in Hw.
  destruct (atomic_bytes CatalogSequence (decimal n) 384 x) as [r x']. destruct Hw as (_ & _ & _ & Hc).
  unfold grows, recorded_at at 2. simpl in *. destruct (Hc (or_intror eq_refl)) as [->|[-> _]]; [|done]. unfold sequence_of.
  change (2 ^ 64) with 18446744073709551616 in H1.
  destruct (decimal_roundtrip n) as [-> ->]; [unfold u64_MAX; lia|done].
Qed.

Lemma publish_catalog_wp now x :
  sequence_readable ->
  wp (publish_catalog now) (fun r x' => grows x x' /\ forall value, r = Ok value -> admissible (recorded_at x) value) x.
Proof.
  intros Hr. unfold publish_catalog.
  assert (Hq : forall (e : Error) x', still x x' -> grows x x' /\
            forall value, (Err e : Result Error V) = Ok value -> admissible (recorded_at x) value).
  { intros e x' S. split; [by apply coarse_still|done]. }
  apply (wp_still_bind _ _ _ x); [kt|done..|]. intros value x1 S1.
  apply wp_mbind, validate_sequence_wp; [done|]. intros r x2 S2 Hv. pose proof (coarse_trans _ _ _ S1 S2) as S.
  destruct r as [n|e]; [|by apply Hq]. destruct (Hv n eq_refl) as (Ha & En & Hn). clear Hv.
  assert (E1 : recorded_at x1 = recorded_at x) by (destruct S1 as (_ & _ & E); unfold recorded_at; by rewrite E).
  rewrite E1 in Ha, Hn. clear S1 S2 E1 x1.
  apply (wp_still_bind _ _ _ x); [kt|done..|]. clear S x2. intros bytes x2 S.
  apply (wp_still_bind _ _ _ x); [kt|done..|]. clear S x2. intros _ x2 S.
  apply (wp_still_bind _ _ _ x); [kt|done..|]. clear S x2. intros signature x2 S.
  apply (wp_still_bind _ _ _ x); [kt|done..|]. clear S x2. intros _ x2 S.
  assert (E2 : recorded_at x2 = recorded_at x) by (destruct S as (_ & _ & E); unfold recorded_at; by rewrite E).
  apply wp_mbind. unfold wp at 1. pose proof (record_wp n x2 (u64_law _ _ En) ltac:(lia)) as G.
  destruct (atomic_bytes CatalogSequence (decimal n) 384 x2) as [[[]|e] x3]; simpl in G;
    pose proof (coarse_trans _ _ _ (coarse_still _ _ S) G) as G3; [|by split].
  apply wp_mbind. eapply (wp_keeps grows); [kt|].
  intros [[]|e] x4 G4; [apply wp_mret|]; (split; [by eapply coarse_trans|]); [|done]. by intros ? [= <-].
Qed.

Lemma cached_wp now x :
  sequence_readable ->
  wp (cached_catalog now) (fun r x' => still x x' /\ forall value, r = Ok (Some value) -> admissible (recorded_at x) value) x.
Proof.
  intros Hr. unfold cached_catalog. apply wp_mbind, wp_attempt.
  eapply (wp_mono _ (fun r x' => still x x' /\ forall value, r = Ok value -> admissible (recorded_at x) value)).
  - unfold cached_steps.
    assert (Hq : forall (e : Error) x', still x x' -> still x x' /\
              forall value, (Err e : Result Error V) = Ok value -> admissible (recorded_at x) value) by done.
    do 5 (apply (wp_still_bind _ _ _ x); [kt|done..|]; intros ? ? ?).
    apply (wp_still_bind _ _ _ x); [kt|done..|]. intros value x1 S1.
    apply wp_mbind, validate_sequence_wp; [done|]. intros r x2 S2 Hv. pose proof (coarse_trans _ _ _ S1 S2) as S.
    destruct r as [n|e]; [|by apply Hq]. destruct (Hv n eq_refl) as (Ha & _). clear Hv.
    assert (E1 : recorded_at x1 = recorded_at x) by (destruct S1 as (_ & _ & E); unfold recorded_at; by rewrite E).
    rewrite E1 in Ha.
    do 3 (apply (wp_still_bind _ _ _ x); [kt|done..|]; intros ? ? ?). apply wp_mret. split; [done|]. by intros ? [= <-].
  - intros [value|e] x' [S Ha]; apply wp_mret; (split; [done|]); [|done]. intros ? [= <-]. by apply Ha.
Qed.

Lemma catalog_wp key x :
  sequence_readable ->
  wp (catalog key) (fun r x' => grows x x' /\ forall value, r = Ok value -> admissible (recorded_at x) value) x.
Proof.
  intros Hr. unfold catalog.
  assert (Hq : forall (e : Error) x', still x x' -> grows x x' /\
            forall value, (Err e : Result Error V) = Ok value -> admissible (recorded_at x) value).
  { intros e x' S. split; [by apply coarse_still|done]. }
  apply (wp_still_bind _ _ _ x); [kt|done..|]. intros _ x1 S1.
  apply (wp_still_bind _ _ _ x); [kt|done..|]. clear S1 x1. intros _ x1 S1.
  apply (wp_still_bind _ _ _ x); [kt|done..|]. clear S1 x1. intros now x1 S1.
  assert (Es : forall y, still x y -> recorded_at y = recorded_at x) by (intros y (_ & _ & E); unfold recorded_at; by rewrite E).
  apply wp_mbind. eapply wp_mono; [by apply cached_wp|]. intros [cached|e] x2 [S2 Ha];
    pose proof (coarse_trans _ _ _ S1 S2) as S; [|by apply Hq].
  destruct cached as [value|].
  - apply wp_mret. split; [by apply coarse_still|]. intros ? [= <-]. rewrite <- (Es x1 S1). by apply Ha.
  - clear Ha. apply (wp_still_bind _ _ _ x); [kt|done..|]. intros nonce x3 S3.
    apply (wp_still_bind _ _ _ x); [kt|done..|]. clear S3 x3. intros verified x3 S3.
    apply (wp_still_bind _ _ _ x); [kt|done..|]. clear S3 x3. intros _ x3 S3.
    eapply wp_mono; [by apply publish_catalog_wp|]. intros r x4 [G Ha]. rewrite (Es x3 S3) in Ha. split; [|done].
    eapply coarse_trans; [by apply coarse_still|done].
Qed.

(** ** Histories *)

Lemma grows_catalog key : sequence_readable -> keeps_to grows (catalog key).
Proof. intros Hr x. pose proof (catalog_wp key x Hr) as Hw. unfold wp in Hw. destruct (catalog key x). apply Hw. Qed.

Lemma grows_run key : sequence_readable -> keeps_to grows (run key).
Proof. intros Hr. unfold run, poll_job. pose proof (grows_catalog key Hr). kt. Qed.

Lemma run_grows x x' : sequence_readable -> rtc upgrade_step x x' -> grows x x'.
Proof.
  intros Hr H. induction H as [x|x1 x2 x3 Hs _ IH]; [unfold grows; lia|].
  apply (coarse_trans _ x2); [|done]. destruct Hs as [key|x2 S]; [by apply grows_run|by apply coarse_still].
Qed.

(** C16. The catalog never goes back: over any history of runs, with failed downloads and writes,
    crashes and upgrades, the recorded sequence of the signed catalog never decreases, and a
    catalog from which a run chooses its targets, cached or downloaded, has a sequence at
    least as high as any that was recorded before, and the schema and channel of this
    program, provided that the record can be read whenever it is there. *)
Theorem catalog_never_back x0 x key :
  sequence_readable -> rtc upgrade_step x0 x ->
  let '(r, x') := catalog key x in
  recorded_at x0 <= recorded_at x <= recorded_at x' /\
  forall value, r = Ok value -> admissible (recorded_at x) value.
Proof.
  intros Hr Hrun. pose proof (catalog_wp key x Hr) as Hw. unfold wp in Hw. destruct (catalog key x) as [r x'].
  destruct Hw as [G Ha]. split; [|done]. split; [by apply (run_grows x0)|done].
Qed.
End Catalog.
