(* ===== verification/UpgradeJournal.v ===== *)
(** * Upgrades: the journal

    What the journal says over histories of runs: no installation is forgotten or repeated
    before its outcome was accepted by Cloud, and a success that is reported happened. *)
From stdpp Require Import base tactics list numbers option relations strings.
From Stdlib Require Import ZArith Lia.
From S2P Require Import Prelude Upgrade UpgradeOps UpgradeRuns.

#[local] Open Scope Z_scope.

(** ** The log *)

Definition among (value : Text) (names : list string) : bool :=
  existsb (fun s => bool_decide (value = bytes_of s)) names.

(** The programs that change what is installed. *)
Definition installs (e : Event) : bool :=
  match e with
  | Ran program (action :: _) =>
      (among program ["/usr/libexec/candy-update-manager"] && among action ["install-core"; "install-runtime"])
      || (among program ["/usr/libexec/candy-core-manager"; "/usr/local/bin/candy-core-manager"]
          && among action ["install"; "activate"])
      || among program ["sh"]
  | _ => false
  end%string.

Definition terminal (state : Text) : bool := among state ["succeeded"; "failed"]%string.

(** Something was installed, or may have been, and no outcome was accepted since. *)
Definition outstanding_after (before : bool) (l : list Event) : bool :=
  foldl (fun b e => match e with
                    | Ran _ _ => b || installs e
                    | Sent body accepted => if accepted && terminal (rb_state body) then false else b
                    end) before l.
Definition outstanding (l : list Event) : bool := outstanding_after false l.

Lemma outstanding_app l1 l2 : outstanding (l1 ++ l2) = outstanding_after (outstanding l1) l2.
Proof. apply foldl_app. Qed.

Definition harmless (e : Event) : Prop := match e with Ran _ _ => installs e = false | Sent _ _ => False end.
Definition started (e : Event) : Prop := match e with Ran _ _ => True | Sent _ _ => False end.
Definition quiet (e : Event) : Prop := installs e = false.

Lemma outstanding_harmless b l : Forall harmless l -> outstanding_after b l = b.
Proof.
  intros H. revert b. induction H as [|e l He _ IH]; intros b; [done|]. simpl.
  destruct e as [program arguments|]; [|done]. unfold harmless in He. rewrite He, orb_false_r. apply IH.
Qed.

Section Journal.
Context {X V : Type} `{!UpgradeJson V} `{!UpgradeHost X} `{laws : !UpgradeLaws X V}.
Implicit Types (x : X) (j : Journal).
#[local] Abbreviation UpM := (@UpgradeOps.UpM X).

(** Only such events were added, and the journal is as it was. *)
Definition adds (P : Event -> Prop) x x' : Prop :=
  (exists l, events x' = events x ++ l /\ Forall P l) /\ up_file x' ReceiptJson = up_file x ReceiptJson.
(** Only such events were added. *)
Definition appends (P : Event -> Prop) x x' : Prop := exists l, events x' = events x ++ l /\ Forall P l.

Lemma appends_trans P x1 x2 x3 : appends P x1 x2 -> appends P x2 x3 -> appends P x1 x3.
Proof.
  intros (l & E & F) (l' & E' & F'). exists (l ++ l'). rewrite E', E, app_assoc. split; [done|by apply Forall_app].
Qed.
Lemma still_appends P x x' : still x x' -> appends P x x'.
Proof. intros (E & _). exists []. by rewrite app_nil_r. Qed.

#[local] Instance adds_coarse P : Coarse (adds P).
Proof.
  constructor.
  - intros x x' S. split; [by apply still_appends|apply S].
  - intros x1 x2 x3 [A1 F1] [A2 F2]. split; [by eapply appends_trans|congruence].
Qed.
#[local] Instance appends_coarse P : Coarse (appends P).
Proof. constructor; [apply still_appends|apply appends_trans]. Qed.

Lemma adds_mono (P Q : Event -> Prop) x x' : (forall e, P e -> Q e) -> adds P x x' -> adds Q x x'.
Proof. intros H [(l & E & F) G]. split; [|done]. exists l. split; [done|by eapply Forall_impl]. Qed.
Lemma adds_appends P x x' : adds P x x' -> appends P x x'.
Proof. by intros []. Qed.
Lemma kt_mono {T} (R R' : X -> X -> Prop) (m : UpM T) :
  (forall x x', R x x' -> R' x x') -> keeps_to R m -> keeps_to R' m.
Proof. intros H Hm x. apply H, Hm. Qed.

Section Adds.
Variable P : Event -> Prop.

Lemma adds_child program arguments environment :
  P (Ran program arguments) -> keeps_to (adds P) (run_child program arguments environment).
Proof.
  intros HP x. pose proof (child_law program arguments environment x) as Hl.
  destruct (run_child program arguments environment x) as [r x']. destruct Hl as [F [E|E]]; simpl.
  - split; [|by apply F]. exists []. by rewrite app_nil_r.
  - split; [|by apply F]. exists [Ran program arguments]. split; [done|by constructor].
Qed.

Lemma adds_command_env program arguments environment :
  P (Ran program arguments) -> keeps_to (adds P) (command_with_env program arguments environment).
Proof. intros HP. unfold command_with_env. pose proof (adds_child program arguments environment HP). kt. Qed.
Lemma adds_command program arguments : P (Ran program arguments) -> keeps_to (adds P) (command program arguments).
Proof. apply adds_command_env. Qed.

Lemma adds_atomic p bytes mode : p <> ReceiptJson -> keeps_to (adds P) (atomic_bytes p bytes mode).
Proof.
  intros Hp x. pose proof (atomic_written p bytes mode x) as Hw. unfold wp in Hw.
  destruct (atomic_bytes p bytes mode x) as [r x']. destruct Hw as (E & F & _).
  split; [|by apply F]. exists []. by rewrite app_nil_r.
Qed.
End Adds.

#[local] Hint Extern 1 (_ <> ReceiptJson) => done : upgrade.
#[local] Hint Resolve adds_atomic : upgrade.

Lemma adds_catalog P key : keeps_to (adds P) (catalog key).
Proof. unfold catalog, publish_catalog. kt. Qed.
Lemma adds_ensure P marker : keeps_to (adds P) (ensure_runtime_handoff_marker marker).
Proof. unfold ensure_runtime_handoff_marker. kt. Qed.
Lemma adds_record P marker code : keeps_to (adds P) (record_runtime_handoff_failure marker code).
Proof. unfold record_runtime_handoff_failure. kt. Qed.
#[local] Hint Resolve adds_catalog adds_ensure adds_record : upgrade.

Lemma adds_schedule marker : keeps_to (adds harmless) (schedule_committed_runtime_handoff marker).
Proof.
  unfold schedule_committed_runtime_handoff, schedule_openwrt_runtime_handoff.
  assert (H : keeps_to (adds harmless) (command (bytes_of "/etc/init.d/candy-cloud-sync")
                                          [bytes_of "handoff_runtime_upgrade"])) by by apply adds_command.
  kt.
Qed.
#[local] Hint Resolve adds_schedule : upgrade.
Lemma adds_resume_handoff : keeps_to (adds harmless) resume_handoff.
Proof. unfold resume_handoff. kt. Qed.

Lemma adds_started program arguments : keeps_to (adds started) (command program arguments).
Proof. by apply adds_command. Qed.
Lemma adds_started_env program arguments environment :
  keeps_to (adds started) (command_with_env program arguments environment).
Proof. by apply adds_command_env. Qed.
#[local] Hint Resolve adds_started adds_started_env : upgrade.
Lemma adds_cleanup : keeps_to (adds started) cleanup_managed_cores.
Proof. unfold cleanup_managed_cores. kt. induction (managed_core_cleanup_versions _) as [|v l IH]; simpl; kt. Qed.
#[local] Hint Resolve adds_cleanup : upgrade.
Lemma adds_install target artifact : keeps_to (adds started) (install target artifact).
Proof. unfold install, install_openwrt, verify_openwrt_manager_target, install_core, install_runtime. kt. Qed.

(** ** What the journal and the receipts stand for *)

Definition executed (j : Journal) : bool := among (jn_phase j) ["executing"; "succeeded"; "failed"]%string.

(** The last installation was that of this target, and nothing was installed since. *)
Definition begun (target : Target) x : Prop :=
  exists artifact y rest, outstanding (events y) = false /\
    events x = events (install target artifact y).2 ++ rest /\ Forall quiet rest.
(** Its installation succeeded. *)
Definition installed_before (target : Target) x : Prop :=
  exists artifact y, (install target artifact y).1 = Ok tt /\ events (install target artifact y).2 `prefix_of` events x.

(** A runtime on OpenWrt is handed over to a new worker. *)
Definition needs_handoff (j : Journal) : bool :=
  openwrt && bool_decide (component (jb_target (jn_job j)) = bytes_of "runtime").
(** The evidence of the handoff was complete, and the program that looked at it was the installed one. *)
Definition handed_over (j : Journal) x : Prop :=
  exists marker y z, hm_job_id marker = jb_id (jn_job j) /\ hm_version marker = tg_version (jb_target (jn_job j)) /\
    (installed_artifact_sha256 SyncBin z).1 = Ok (hm_sync_binary_sha256 marker) /\ events z `prefix_of` events x /\
    (read_runtime_handoff_completion marker y).1 = Ok true /\
    (running_executable_sha256 (read_runtime_handoff_completion marker y).2).1 = Ok (hm_sync_binary_sha256 marker) /\
    events y `prefix_of` events x.

(** The receipt is that of a journal, which was on disk; its target was installed, and handed over
    if it is a runtime on OpenWrt. *)
Definition backed (body : ReceiptBody) x : Prop :=
  exists j, body = receipt_body j (rb_state body) /\
    (exists y, up_file y ReceiptJson = Some (journal_bytes j) /\ events y `prefix_of` events x) /\
    installed_before (jb_target (jn_job j)) x /\
    (needs_handoff j = true -> handed_over j x).
Definition truthful x : Prop :=
  forall body accepted, Sent body accepted ∈ events x -> rb_state body = bytes_of "succeeded" -> backed body x.

(** The journal is seen when it is there: [Path::exists] says no as well when the call fails. *)
Definition journal_visible : Prop :=
  forall x, up_file x ReceiptJson <> None -> (exists_path ReceiptJson x).1 = true.

(** As far as that holds, nothing is outstanding. *)
Definition clear x : Prop := journal_visible -> outstanding (events x) = false.

Definition sound (j : Journal) x : Prop :=
  (journal_visible -> outstanding (events x) = true ->
     executed j = true /\ begun (jb_target (jn_job j)) x) /\
  (jn_phase j = bytes_of "succeeded" -> installed_before (jb_target (jn_job j)) x).

Record journaled x : Prop := {
  jd_file : up_file x ReceiptJson = None /\ clear x \/
            exists j, up_file x ReceiptJson = Some (journal_bytes j) /\ sound j x;
  jd_truth : truthful x;
}.

(** ** Later on *)

Lemma installed_later target x x' : events x `prefix_of` events x' -> installed_before target x -> installed_before target x'.
Proof. intros Hp (artifact & y & H & Hy). exists artifact, y. split; [done|]. by etrans. Qed.
Lemma handed_later j x x' : events x `prefix_of` events x' -> handed_over j x -> handed_over j x'.
Proof.
  intros Hp (marker & y & z & H1 & H2 & H3 & Hz & H4 & H5 & Hy). exists marker, y, z.
  split_and!; try done; by etrans.
Qed.
Lemma backed_later body x x' : events x `prefix_of` events x' -> backed body x -> backed body x'.
Proof.
  intros Hp (j & H1 & (y & Hy & Hpy) & H2 & H3). exists j.
  split_and!; [done|by exists y; split; [|by etrans]|by eapply installed_later|].
  intros Hn. eapply handed_later; [done|by apply H3].
Qed.
Lemma appends_prefix P x x' : appends P x x' -> events x `prefix_of` events x'.
Proof. intros (l & -> & _). by exists l. Qed.

Lemma begun_later target x x' : appends quiet x x' -> begun target x -> begun target x'.
Proof.
  intros (l & E & Hl) (artifact & y & rest & H1 & H2 & H3). exists artifact, y, (rest ++ l).
  split_and!; [done| |by apply Forall_app]. by rewrite E, H2, app_assoc.
Qed.

Lemma truthful_later P x x' :
  (forall body accepted, P (Sent body accepted) -> rb_state body = bytes_of "succeeded" -> backed body x') ->
  appends P x x' -> truthful x -> truthful x'.
Proof.
  intros HP A Ht body accepted Hin Hs. pose proof (appends_prefix _ _ _ A) as Hp. destruct A as (l & E & Hl).
  rewrite E in Hin. apply elem_of_app in Hin as [Hin|Hin].
  - eapply backed_later; [done|by eapply Ht].
  - rewrite Forall_forall in Hl. by eapply HP; [apply Hl|].
Qed.

Lemma harmless_quiet e : harmless e -> quiet e.
Proof. by destruct e. Qed.

Lemma sound_harmless j x x' : appends harmless x x' -> sound j x -> sound j x'.
Proof.
  intros A [Ho Hs]. pose proof (appends_prefix _ _ _ A) as Hp.
  assert (Q : appends quiet x x').
  { destruct A as (l & E & Hl). exists l. split; [done|]. eapply Forall_impl; [done|]. apply harmless_quiet. }
  destruct A as (l & E & Hl). split.
  - rewrite E, outstanding_app, outstanding_harmless by done. intros Hv Hout. destruct (Ho Hv Hout) as [He Hb].
    split; [done|by eapply begun_later].
  - intros Hsucc. eapply installed_later; [done|by apply Hs].
Qed.

Lemma journaled_harmless x x' : adds harmless x x' -> journaled x -> journaled x'.
Proof.
  intros [A F] [Hf Ht]. split.
  - destruct Hf as [[Hn Ho]|(j & Hj & Hs)].
    + left. split; [congruence|]. intros Hv. destruct A as (l & -> & Hl).
      rewrite outstanding_app, outstanding_harmless by done. by apply Ho.
    + right. exists j. split; [congruence|by eapply sound_harmless].
  - eapply truthful_later; [|done..]. by intros body accepted [].
Qed.

Lemma journaled_still x x' : still x x' -> journaled x -> journaled x'.
Proof. intros S. apply journaled_harmless, (coarse_still _ _ S). Qed.

Lemma wp_journaled {T} (m : UpM T) (Q : Result Error T -> X -> Prop) x :
  keeps_to (adds harmless) m -> journaled x ->
  (forall r x', adds harmless x x' -> journaled x' -> Q r x') -> wp m Q x.
Proof. intros Hm Hj HQ. eapply wp_keeps; [done|]. intros r x' A. apply HQ; [done|by eapply journaled_harmless]. Qed.

(** ** Storing, reporting, removing *)

Lemma sound_same j x x' : events x' = events x -> sound j x -> sound j x'.
Proof. intros E. apply sound_harmless. exists []. by rewrite app_nil_r. Qed.

Lemma store_journal_wp j x (Q : Result Error unit -> X -> Prop) :
  journaled x -> sound j x ->
  (forall r x', journaled x' -> events x' = events x ->
     (r = Ok tt -> up_file x' ReceiptJson = Some (journal_bytes j)) -> Q r x') -> wp (store_journal j) Q x.
Proof.
  intros [Hf Ht] Hs HQ. unfold store_journal, wp. pose proof (atomic_written ReceiptJson (journal_bytes j) 384 x) as Hw.
  unfold wp in Hw. destruct (atomic_bytes ReceiptJson (journal_bytes j) 384 x) as [r x'].
  simpl in *. destruct Hw as (E & _ & _ & Hc). specialize (Hc (or_introl eq_refl)).
  assert (Ht' : truthful x').
  { eapply (truthful_later (fun _ => False)); [done| |done]. exists []. by rewrite app_nil_r. }
  apply HQ; [|done|].
  - split; [|done]. destruct Hc as [Hc|[Hc _]].
    + right. exists j. split; [done|by eapply sound_same].
    + unfold clear. rewrite Hc, E. destruct Hf as [Hf|(j' & Hj' & Hs')]; [by left|right]. exists j'. split; [done|by eapply sound_same].
  - intros ->. destruct Hc as [Hc|[_ Hc]]; done.
Qed.

(** The log after a receipt. *)
Definition reported (j : Journal) (state : Text) x x' : Prop :=
  up_file x' ReceiptJson = up_file x ReceiptJson /\
  exists l, events x' = events x ++ l /\ Forall (fun e => exists accepted, e = Sent (receipt_body j state) accepted) l.

Lemma outstanding_sent b j state l :
  Forall (fun e => exists accepted, e = Sent (receipt_body j state) accepted) l ->
  outstanding_after b l = true -> b = true.
Proof.
  intros H. revert b. induction H as [|e l [accepted ->] _ IH]; intros b; [done|]. simpl. intros Ho%IH.
  by destruct (accepted && terminal state).
Qed.

Lemma reported_appends j state x x' : reported j state x x' -> appends quiet x x'.
Proof.
  intros (_ & l & E & Hl). exists l. split; [done|]. eapply Forall_impl; [done|]. by intros e [accepted ->].
Qed.

Lemma journaled_reported j state x x' :
  (state = bytes_of "succeeded" -> backed (receipt_body j state) x) ->
  reported j state x x' -> journaled x -> journaled x'.
Proof.
  intros Hb R [Hf Ht]. pose proof (reported_appends _ _ _ _ R) as A. pose proof (appends_prefix _ _ _ A) as Hp.
  destruct R as (F & l & E & Hl). split.
  - assert (Ho : outstanding (events x') = true -> outstanding (events x) = true).
    { rewrite E, outstanding_app. by eapply outstanding_sent. }
    destruct Hf as [[Hn Hno]|(j' & Hj & Hs1 & Hs2)].
    + left. split; [congruence|]. intros Hv. destruct (outstanding (events x')); [|done].
      specialize (Hno Hv). by rewrite Ho in Hno.
    + right. exists j'. split; [congruence|]. split; [|intros H; by eapply installed_later, Hs2].
      intros Hv H. destruct (Hs1 Hv (Ho H)) as [He Hbg]. split; [done|by eapply begun_later].
  - eapply (truthful_later (fun e => exists accepted, e = Sent (receipt_body j state) accepted)); [|by exists l|done].
    intros body accepted [? [= -> _]] Hs. eapply backed_later; [done|by apply Hb].
Qed.

Lemma receipt_wp j state x (Q : Result Error unit -> X -> Prop) :
  (forall r x', reported j state x x' ->
     (r = Ok tt -> terminal state = true -> outstanding (events x') = false) -> Q r x') ->
  wp (receipt j state) Q x.
Proof.
  intros HQ. unfold receipt, wp, mbind. pose proof (put_receipt_law (receipt_body j state) x) as Hl.
  destruct (put_receipt (receipt_body j state) x) as [[status|e] x']; destruct Hl as [F He].
  - unfold lift, error_for_status, demand. apply HQ.
    + split; [by apply F|]. eexists. split; [done|]. constructor; [by eexists|done].
    + simpl. rewrite He, outstanding_app. unfold accepts. simpl. intros Hr ->.
      by destruct (negb ((400 <=? status) && (status <? 600))).
  - apply HQ; [|done]. split; [by apply F|]. destruct He as [He|He].
    + exists []. by rewrite app_nil_r.
    + eexists. split; [done|]. constructor; [by eexists|done].
Qed.

Lemma remove_wp x (Q : Result Error unit -> X -> Prop) :
  journaled x -> clear x ->
  (forall r x', journaled x' -> Q r x') -> wp (remove ReceiptJson) Q x.
Proof.
  intros [Hf Ht] Ho HQ. unfold remove, wp, mbind, reads. pose proof (remove_law ReceiptJson x) as Hl.
  destruct (remove_file ReceiptJson x) as [r x']. destruct Hl as [[E _] Hr].
  assert (Hj : journaled x').
  { split; [|eapply (truthful_later (fun _ => False)); [done|exists []; by rewrite app_nil_r|done]].
    unfold clear in *. rewrite E, Hr. destruct r; [by left|by left|]. destruct Hf as [[Hn _]|(j & Hj & Hs)]; [by left|right].
    exists j. split; [done|by eapply sound_same]. }
  by destruct r; apply HQ.
Qed.

(** ** Finishing a terminal journal *)

(** The journal in the file is this one. *)
Definition holds (j : Journal) x : Prop := journaled x /\ up_file x ReceiptJson = Some (journal_bytes j).

Lemma holds_sound j x : holds j x -> sound j x.
Proof.
  intros [[[[Hn _]|(j' & Hj & Hs)] _] Hf]; [congruence|]. rewrite Hf in Hj. injection Hj as Hj.
  pose proof (journal_law j) as E. rewrite Hj, journal_law in E. by injection E as ->.
Qed.
Lemma holds_harmless j x x' : adds harmless x x' -> holds j x -> holds j x'.
Proof. intros A [Hj Hf]. split; [by eapply journaled_harmless|]. destruct A as [_ F]. congruence. Qed.

(** A step that may run or write something else, on the way. *)
Lemma wp_holds {T U} (m : UpM T) (k : T -> UpM U) j x :
  keeps_to (adds harmless) m -> holds j x ->
  (forall v x', m x = (Ok v, x') -> adds harmless x x' -> holds j x' -> wp (k v) (fun _ => journaled) x') ->
  wp (mbind m k) (fun _ => journaled) x.
Proof.
  intros Hm Hj Hk. apply wp_mbind. unfold wp at 1. specialize (Hm x). destruct (m x) as [[v|e] x'] eqn:E; simpl in *.
  - apply Hk; [done..|]. by eapply holds_harmless.
  - by eapply journaled_harmless; [|apply Hj].
Qed.

Lemma journaled_end {T} (m : UpM T) x : keeps_to (adds harmless) m -> journaled x -> wp m (fun _ => journaled) x.
Proof. intros Hm Hj. by eapply wp_journaled. Qed.

(** The receipt, and then the journal goes. *)
Lemma submit_wp {T} j state (k : unit -> UpM T) x :
  holds j x -> terminal state = true -> (state = bytes_of "succeeded" -> backed (receipt_body j state) x) ->
  (forall v, keeps_to (adds harmless) (k v)) ->
  wp (do* receipt j state in do* remove ReceiptJson in k tt) (fun _ => journaled) x.
Proof.
  intros [Hj _] Ht Hb Hk. apply wp_mbind, receipt_wp. intros r x1 R Ho.
  pose proof (journaled_reported _ _ _ _ Hb R Hj) as Hj1. destruct r as [[]|e]; [|done].
  apply wp_mbind, remove_wp; [done|by intros _; apply Ho|]. intros r x2 Hj2. destruct r as [[]|e]; [|done].
  by apply journaled_end.
Qed.

Lemma in_phase_eq j phase : in_phase j phase = true <-> jn_phase j = bytes_of phase.
Proof. unfold in_phase. apply bool_decide_eq_true. Qed.

Lemma finalize_terminal_wp j x :
  holds j x -> terminal (jn_phase j) = true ->
  openwrt && in_phase j "succeeded" && bool_decide (component (jb_target (jn_job j)) = bytes_of "runtime") = false ->
  wp (finalize_terminal_journal j (receipt j (jn_phase j))) (fun _ => journaled) x.
Proof.
  intros Hh Ht Hn. unfold finalize_terminal_journal.
  apply (submit_wp _ _ (fun _ => do* sync_root in mret _)); [done..| |intros; kt].
  intros Hp. exists j.
  split_and!; [done|by exists x; split; [apply Hh|]|by apply (proj2 (holds_sound j x Hh))|].
  unfold needs_handoff. rewrite (proj2 (in_phase_eq j "succeeded") Hp), andb_true_r in Hn. by rewrite Hn.
Qed.

Lemma marker_spec j x marker x' :
  runtime_handoff_marker j x = (Ok marker, x') ->
  hm_job_id marker = jb_id (jn_job j) /\ hm_version marker = tg_version (jb_target (jn_job j)) /\
  (installed_artifact_sha256 SyncBin x).1 = Ok (hm_sync_binary_sha256 marker).
Proof.
  unfold runtime_handoff_marker, mbind.
  destruct (installed_artifact_sha256 SyncBin x) as [[binary|] x1]; [|done].
  destruct (installed_artifact_sha256 SyncLoop x1) as [[loop|] x2]; [|done].
  destruct (system_time x2) as [[now|] x3]; [|done]. unfold reads.
  destruct (exists_path HandoffMarker x3) as [[] x4]; simpl; [|by intros [= <- _]].
  destruct (read_bounded_json parse_marker HandoffMarker MAX_PROFILE_BYTES x4) as [[committed|] x5]; [|done].
  unfold lift, demand. destruct (_ && _) eqn:E; [|done]. intros [= <- _].
  repeat (apply andb_prop in E as [E ?]); repeat match goal with H : bool_decide _ = true |- _ => apply bool_decide_eq_true in H end.
  split_and!; [done..|congruence].
Qed.

Lemma sound_failed j j' x :
  jn_job j' = jn_job j -> jn_phase j' = bytes_of "failed" -> executed j = true -> sound j x -> sound j' x.
Proof.
  intros E Ep He [Ho _]. split; rewrite E.
  - intros Hv Hout. destruct (Ho Hv Hout). split; [|done]. unfold executed. by rewrite Ep.
  - by rewrite Ep.
Qed.

Lemma failed_handoff_wp j marker failure x :
  holds j x -> executed j = true ->
  wp (finalize_failed_runtime_handoff j marker failure (fun j => receipt j (bytes_of "failed")))
    (fun _ => journaled) x.
Proof.
  intros Hh He. unfold finalize_failed_runtime_handoff. set (j' := failed_handoff_journal j marker failure).
  apply wp_mbind, store_journal_wp; [apply Hh|apply (sound_failed j); [done..|by apply holds_sound]|].
  intros r x1 Hj1 E1 Hf1. destruct r as [[]|e]; [|done].
  apply (wp_holds _ _ j'); [kt|by split; [|apply Hf1]|]. intros _ x2 _ _ H2.
  apply (submit_wp _ _ (fun _ => do* sync_root in mret _)); [done..|intros; kt].
Qed.

Lemma completed_handoff_wp j marker x0 x1 x :
  holds j x -> jn_phase j = bytes_of "succeeded" ->
  hm_job_id marker = jb_id (jn_job j) -> hm_version marker = tg_version (jb_target (jn_job j)) ->
  (installed_artifact_sha256 SyncBin x0).1 = Ok (hm_sync_binary_sha256 marker) -> events x0 `prefix_of` events x ->
  (read_runtime_handoff_completion marker x1).1 = Ok true ->
  (running_executable_sha256 (read_runtime_handoff_completion marker x1).2).1 = Ok (hm_sync_binary_sha256 marker) ->
  events x1 `prefix_of` events x ->
  wp (finalize_completed_runtime_handoff (receipt j (bytes_of "succeeded"))) (fun _ => journaled) x.
Proof.
  intros Hh Hp H1 H2 H3 H4 H5 H6 H7. unfold finalize_completed_runtime_handoff.
  apply (submit_wp _ _ (fun _ => do* remove_handoff_evidence in mret _)); [done..| |intros; kt].
  intros _. exists j.
  split_and!; [done|by exists x; split; [apply Hh|]|by apply (proj2 (holds_sound j x Hh))|].
  intros _. exists marker, x1, x0. by split_and!.
Qed.

Lemma harmless_prefix x x' : adds harmless x x' -> events x `prefix_of` events x'.
Proof. intros [A _]. by eapply appends_prefix. Qed.

Lemma finish_handoff_wp j x :
  holds j x -> jn_phase j = bytes_of "succeeded" -> wp (finish_handoff j) (fun _ => journaled) x.
Proof.
  intros Hh Hp. assert (He : executed j = true) by (unfold executed; by rewrite Hp). unfold finish_handoff.
  apply (wp_holds _ _ j); [kt|done|]. intros marker x1 E1 A1 Hh1. destruct (marker_spec _ _ _ _ E1) as (M1 & M2 & M3).
  apply (wp_holds _ _ j); [kt|done|]. intros _ x2 _ A2 Hh2.
  apply (wp_holds _ _ j); [kt|done|]. intros completed x3 E3 A3 Hh3. destruct completed.
  - apply (wp_holds _ _ j); [kt|done|]. intros running x4 E4 A4 Hh4.
    destruct (bool_decide_reflect (running = hm_sync_binary_sha256 marker)) as [->|]; simpl; [|apply journaled_end; [kt|apply Hh4]].
    eapply (completed_handoff_wp j marker x x2); try done.
    + exact (harmless_prefix _ _ (coarse_trans _ _ _ A1 (coarse_trans _ _ _ A2 (coarse_trans _ _ _ A3 A4)))).
    + by rewrite E3.
    + rewrite E3. simpl. by rewrite E4.
    + exact (harmless_prefix _ _ (coarse_trans _ _ _ A3 A4)).
  - apply (wp_holds _ _ j); [kt|done|]. intros f0 x4 _ _ Hh4.
    apply (wp_holds _ _ j); [kt|done|]. intros _ x5 _ _ Hh5.
    apply (wp_holds _ _ j); [kt|done|]. intros [failure|] x6 _ _ Hh6.
    + apply wp_mbind. eapply wp_mono; [by apply failed_handoff_wp|]. intros r x7 Hj7. destruct r; [|done].
      apply journaled_end; [kt|done].
    + unfold begin_runtime_handoff. apply journaled_end; [kt|apply Hh6].
Qed.

Lemma finish_wp j x :
  holds j x -> terminal (jn_phase j) = true -> wp (finish_terminal_upgrade j) (fun _ => journaled) x.
Proof.
  intros Hh Ht. unfold finish_terminal_upgrade.
  destruct (openwrt && in_phase j "succeeded" && bool_decide (component (jb_target (jn_job j)) = bytes_of "runtime")) eqn:E.
  - apply andb_prop in E as [[_ E]%andb_prop _]. apply finish_handoff_wp; [done|by apply in_phase_eq].
  - by apply finalize_terminal_wp.
Qed.

(** ** Executing a job *)

(** Nothing is outstanding. *)
Definition ready x : Prop := journaled x /\ clear x.

Lemma ready_harmless x x' : adds harmless x x' -> ready x -> ready x'.
Proof.
  intros A [Hj Ho]. split; [by eapply journaled_harmless|]. intros Hv. destruct A as [(l & -> & Hl) _].
  rewrite outstanding_app, outstanding_harmless by done. by apply Ho.
Qed.

Lemma wp_ready {T U} (m : UpM T) (k : T -> UpM U) x :
  keeps_to (adds harmless) m -> ready x ->
  (forall v x', ready x' -> wp (k v) (fun _ => journaled) x') -> wp (mbind m k) (fun _ => journaled) x.
Proof.
  intros Hm Hr Hk. apply wp_mbind. eapply wp_keeps; [done|]. intros [v|e] x' A.
  - apply Hk. by eapply ready_harmless.
  - by eapply journaled_harmless; [|apply Hr].
Qed.

Lemma sound_ready j x : ready x -> jn_phase j <> bytes_of "succeeded" -> sound j x.
Proof. intros [_ Ho] Hp. split; [|done]. intros Hv. by rewrite Ho. Qed.

Lemma store_ready {T} j x (k : unit -> UpM T) (Q : Result Error T -> X -> Prop) :
  ready x -> jn_phase j <> bytes_of "succeeded" -> (forall e x', journaled x' -> Q (Err e) x') ->
  (forall x', ready x' -> up_file x' ReceiptJson = Some (journal_bytes j) -> wp (k tt) Q x') ->
  wp (mbind (store_journal j) k) Q x.
Proof.
  intros Hr Hp He Hk. apply wp_mbind, store_journal_wp; [apply Hr|by apply sound_ready|].
  intros r x' Hj E Hf. destruct r as [[]|e]; [|by apply He]. apply Hk; [|by apply Hf]. split; [done|].
  unfold clear. rewrite E. apply Hr.
Qed.

Lemma running_wp {T} j x (k : unit -> UpM T) (Q : Result Error T -> X -> Prop) :
  ready x -> (forall e x', journaled x' -> Q (Err e) x') -> (forall x', ready x' -> wp (k tt) Q x') ->
  wp (mbind (receipt j (bytes_of "running")) k) Q x.
Proof.
  intros [Hj Ho] He Hk. apply wp_mbind, receipt_wp. intros r x' R _.
  assert (Hj' : journaled x') by exact (journaled_reported j (bytes_of "running") x x' ltac:(discriminate) R Hj).
  destruct r as [[]|e]; [|by apply He]. apply Hk. split; [done|]. intros Hv. destruct R as (_ & l & E & Hl).
  rewrite E, outstanding_app, (Ho Hv). destruct (outstanding_after false l) eqn:E'; [|done].
  by apply (outstanding_sent _ j (bytes_of "running")) in E'.
Qed.

(** The installation itself, from the executing journal. *)
Lemma installing_wp j target artifact x (Q : Result Error (Result Error unit) -> X -> Prop) :
  ready x -> up_file x ReceiptJson = Some (journal_bytes j) -> jn_phase j = bytes_of "executing" ->
  (forall r x', holds j x' -> (r = Ok tt -> installed_before (jb_target (jn_job j)) x') -> Q (Ok r) x') ->
  wp (attempt (if bool_decide (target = jb_target (jn_job j)) then install target artifact
               else bail "catalog_or_installed_version_changed")) Q x.
Proof.
  intros [Hj Ho] Hf Hp HQ. apply wp_attempt.
  destruct (bool_decide_reflect (target = jb_target (jn_job j))) as [->|]; [|by apply wp_mfail, HQ].
  unfold wp. pose proof (adds_install (jb_target (jn_job j)) artifact x) as A.
  destruct (install (jb_target (jn_job j)) artifact x) as [r x'] eqn:E; simpl in *.
  assert (He : events x' = events (install (jb_target (jn_job j)) artifact x).2) by by rewrite E.
  destruct A as [(l & El & Hl) F]. apply HQ.
  - split; [|congruence]. split.
    + right. exists j. split; [congruence|]. split; [|by rewrite Hp]. intros Hv _.
      split; [unfold executed; by rewrite Hp|]. exists artifact, x, []. rewrite app_nil_r.
      split_and!; [by apply Ho|done..].
    + eapply truthful_later; [|by exists l|apply Hj]. by intros body accepted [].
  - intros ->. exists artifact, x. split; [by rewrite E|]. by rewrite He.
Qed.

Lemma settled_sound j failure x :
  holds j x -> executed j = true -> (failure = None -> installed_before (jb_target (jn_job j)) x) ->
  sound (settled j failure) x.
Proof.
  intros Hh He Hi. destruct (holds_sound _ _ Hh) as [Ho _]. destruct failure as [f|]; split; simpl; try done.
  all: try (intros Hv Hout; by destruct (Ho Hv Hout)). intros _. by apply Hi.
Qed.

Lemma execute_wp j target artifact x :
  ready x -> jn_phase j = bytes_of "prepared" -> wp (execute j target artifact) (fun _ => journaled) x.
Proof.
  intros Hr Hp. unfold execute. apply wp_ready; [kt|done|]. intros _ x1 Hr1.
  apply store_ready; [done|by rewrite Hp|done|]. intros x2 Hr2 _. apply running_wp; [done..|]. intros x3 Hr3.
  set (j' := with_phase (bytes_of "executing") j).
  apply store_ready; [done..|]. intros x4 Hr4 Hf4. apply wp_mbind.
  apply installing_wp; [done..|]. intros result x5 Hh5 Hi5.
  apply (wp_holds _ _ j'); [destruct result; kt|done|]. intros failure x6 E6 A6 Hh6.
  assert (Hi6 : failure = None -> installed_before (jb_target (jn_job j')) x6).
  { intros ->. destruct result as [[]|e]; [eapply installed_later; [by apply harmless_prefix|by apply Hi5]|].
    unfold mbind in E6. destruct (upgrade_failure (component target) e x5) as [[f|] ?]; by inversion E6. }
  apply wp_mbind, store_journal_wp; [apply Hh6|by apply settled_sound|]. intros r x7 Hj7 _ Hf7. destruct r as [[]|e]; [|done].
  apply finish_wp; [by split; [|apply Hf7]|]. by destruct failure.
Qed.

(** ** The run *)

Lemma read_json_spec {T} (parse : list Z -> option T) p maximum x v x' :
  kept p = true -> read_bounded_json parse p maximum x = (Ok v, x') ->
  exists bytes, up_file x p = Some bytes /\ parse bytes = Some v.
Proof.
  intros Hk. unfold read_bounded_json, read_bounded, mbind, within.
  pose proof (stat_law false p x) as Hs. destruct (stat false p x) as [[m|] x1]; simpl; [|done].
  destruct (_ && _); [|done]. pose proof (read_law p x1) as Hl. destruct (read_file p x1) as [[bytes|] x2]; simpl; [|done].
  destruct Hl as [_ Hl]. unfold lift. destruct (parse bytes) as [v'|] eqn:E; [|done]. intros [= -> _].
  exists bytes. split; [|done]. rewrite <- (proj2 Hs) by done. by apply Hl.
Qed.

Lemma read_journal_holds x j x' :
  journaled x -> read_bounded_json parse_journal ReceiptJson MAX_PROFILE_BYTES x = (Ok j, x') -> holds j x'.
Proof.
  intros Hj E. pose proof (still_read_json parse_journal ReceiptJson MAX_PROFILE_BYTES x) as S. rewrite E in S.
  destruct (read_json_spec parse_journal ReceiptJson MAX_PROFILE_BYTES x j x' eq_refl E) as (bytes & Hf & Hp).
  apply (holds_harmless j x); [by apply coarse_still|]. split; [done|].
  destruct (jd_file _ Hj) as [[Hn _]|(j' & Hj' & _)]; [congruence|].
  rewrite Hf in Hj'. injection Hj' as ->. rewrite journal_law in Hp. by injection Hp as ->.
Qed.

Lemma resume_wp identity x :
  journaled x ->
  wp (resume_journal identity) (fun r x' => journaled x' /\ (r = Ok None -> still x x' /\ ready x')) x.
Proof.
  intros Hj. unfold resume_journal. apply wp_mbind. unfold wp at 1.
  pose proof (still_exists ReceiptJson x) as S1. unfold reads in *.
  destruct (exists_path ReceiptJson x) as [there x1] eqn:Ee. simpl in S1.
  pose proof (journaled_still _ _ S1 Hj) as Hj1. destruct there; simpl.
  2:{ apply wp_mret. split; [done|]. intros _. split; [done|]. split; [done|].
      intros Hv. destruct S1 as [E _]. rewrite E.
      destruct (jd_file _ Hj) as [[_ Ho]|(j & Hf & _)]; [by apply Ho|]. exfalso.
      assert (Hn : (exists_path ReceiptJson x).1 = true) by (apply Hv; congruence). by rewrite Ee in Hn. }
  clear Ee. apply wp_mbind. unfold wp at 1.
  pose proof (still_read_json parse_journal ReceiptJson MAX_PROFILE_BYTES x1) as S2.
  destruct (read_bounded_json parse_journal ReceiptJson MAX_PROFILE_BYTES x1) as [[j|e] x2] eqn:E2; simpl in S2;
    [|by split; [eapply journaled_still|]].
  pose proof (read_journal_holds _ _ _ Hj1 E2) as Hh. pose proof (coarse_trans _ _ _ S1 S2) as S. clear S1 S2 E2 Hj1 x1.
  apply wp_mbind, wp_lift. unfold demand. destruct (_ && _); [|by split; [apply Hh|]]. cbn [negb].
  destruct (in_phase j "executing") eqn:Ep.
  - apply in_phase_eq in Ep. assert (He : executed j = true) by (unfold executed; by rewrite Ep).
    apply wp_mbind, wp_mbind, store_journal_wp; [apply Hh|apply (sound_failed j); [done..|by apply holds_sound]|].
    intros r x3 Hj3 _ Hf3. destruct r as [[]|e]; [|by split]. apply wp_mret. simpl.
    apply wp_mbind. eapply wp_mono; [apply finish_wp; [by split; [|apply Hf3]|done]|].
    intros r x4 Hj4. destruct r; [apply wp_mret|]; by split.
  - apply wp_mbind, wp_mret. destruct (in_phase j "succeeded" || in_phase j "failed") eqn:Et.
    + apply wp_mbind. eapply wp_mono; [apply finish_wp; [done|]|].
      * unfold terminal, among, in_phase in *. simpl. by rewrite orb_false_r.
      * intros r x4 Hj4. destruct r; [apply wp_mret|]; by split.
    + apply wp_mret. split; [apply Hh|]. intros _. split; [done|]. split; [apply Hh|].
      intros Hv. destruct (outstanding (events x2)) eqn:Eo; [|done]. destruct (holds_sound _ _ Hh) as [Ho _].
      destruct (Ho Hv Eo) as [He _]. unfold executed, among, in_phase in *.
      simpl in He. by repeat (destruct (bool_decide _); simpl in *; try done).
Qed.

Lemma resume_handoff_still x x' : resume_handoff x = (Ok None, x') -> still x x'.
Proof.
  unfold resume_handoff. destruct openwrt; simpl; [|by intros [= <-]]. unfold mbind at 1.
  pose proof (still_exists HandoffMarker x) as S. destruct (reads (exists_path HandoffMarker) x) as [[[]|] x1]; simpl in *;
    [|by intros [= <-]|done].
  unfold mbind at 1. destruct (read_bounded_json parse_marker HandoffMarker MAX_PROFILE_BYTES x1) as [[marker|] x2]; [|done].
  unfold mbind at 1. destruct (lift (validate_runtime_handoff_marker marker) x2) as [[|] x3]; [|done].
  unfold mbind at 1. destruct (read_runtime_handoff_completion marker x3) as [[completed|] x4]; [|done].
  unfold mbind at 1. case_match. destruct r as [[]|]; [| |done]; unfold mbind, mret; by repeat case_match.
Qed.

Lemma poll_wp key identity x : ready x -> wp (poll_job key identity) (fun _ => journaled) x.
Proof.
  intros Hr. unfold poll_job. do 7 (apply wp_ready; [kt|done|]; clear dependent x; intros ? x Hr).
  apply wp_ready; [kt|done|]; clear dependent x; intros [job|] x Hr; [|by apply wp_mret; apply Hr].
  do 2 (apply wp_ready; [kt|done|]; clear dependent x; intros ? x Hr). by apply execute_wp.
Qed.

(** ** Runs that install nothing *)

Lemma quiet_receipt j state : keeps_to (appends quiet) (receipt j state).
Proof.
  intros x. assert (H : wp (receipt j state) (fun _ x' => appends quiet x x') x).
  { apply receipt_wp. intros r x' R _. by eapply reported_appends. }
  unfold wp in H. by destruct (receipt j state x).
Qed.
Lemma quiet_harmless {T} (m : UpM T) : keeps_to (adds harmless) m -> keeps_to (appends quiet) m.
Proof.
  apply kt_mono. intros x x' [(l & E & Hl) _]. exists l. split; [done|]. eapply Forall_impl; [done|]. apply harmless_quiet.
Qed.
Lemma quiet_atomic p bytes mode : keeps_to (appends quiet) (atomic_bytes p bytes mode).
Proof.
  intros x. pose proof (atomic_written p bytes mode x) as Hw. unfold wp in Hw.
  destruct (atomic_bytes p bytes mode x) as [r x']. destruct Hw as (E & _). exists []. by rewrite app_nil_r.
Qed.
Lemma quiet_removed : keeps_to (appends quiet) (remove ReceiptJson).
Proof.
  intros x. unfold remove, mbind, reads. pose proof (remove_law ReceiptJson x) as Hl.
  destruct (remove_file ReceiptJson x) as [r x']. destruct Hl as [[E _] _].
  destruct r; simpl; (exists []; by rewrite app_nil_r).
Qed.
#[local] Hint Resolve quiet_receipt quiet_atomic quiet_removed : upgrade.
#[local] Hint Extern 3 (keeps_to (appends quiet) (schedule_committed_runtime_handoff _)) =>
  apply quiet_harmless, adds_schedule : upgrade.

Lemma quiet_resume identity : keeps_to (appends quiet) (resume_journal identity).
Proof.
  unfold resume_journal, finish_terminal_upgrade, finish_handoff, finalize_terminal_journal,
    finalize_completed_runtime_handoff, finalize_failed_runtime_handoff, begin_runtime_handoff,
    ensure_runtime_handoff_marker, record_runtime_handoff_failure, store_journal. kt.
Qed.

Lemma run_wp key x : journaled x -> wp (run key) (fun _ x' => journaled x') x.
Proof.
  intros Hj. unfold run.
  do 7 (apply wp_mbind; eapply (wp_keeps still); [kt|]; intros [?|?] ? ?; [|eapply journaled_still; eassumption];
        match goal with S : still x ?y |- _ => pose proof (journaled_still _ _ S Hj) as Hj'; clear S Hj x; rename y into x, Hj' into Hj end).
  apply wp_mbind. eapply wp_mono; [by apply resume_wp|]. intros [[outcome|]|e] x1 [Hj1 Hn];
    [by apply wp_mret| |done]. destruct (Hn eq_refl) as [_ Hr].
  apply wp_ready; [apply adds_resume_handoff|done|]. intros [outcome|] x2 Hr2; [by apply wp_mret; apply Hr2|by apply poll_wp].
Qed.

Lemma appends_same P x x' y : events x = events x' -> appends P x' y -> appends P x y.
Proof. unfold appends. by intros ->. Qed.

(** While something is outstanding a run goes no further than [resume_journal]. *)
Lemma run_quiet key x : journal_visible -> journaled x -> outstanding (events x) = true -> wp (run key) (fun _ => appends quiet x) x.
Proof.
  intros Hv Hj Ho. unfold run.
  assert (H : forall {T U} (m : UpM T) (k : T -> UpM U) y, keeps_to still m -> still x y ->
            (forall v y', still x y' -> wp (k v) (fun _ => appends quiet x) y') ->
            wp (mbind m k) (fun _ => appends quiet x) y).
  { intros T U m k y Hm S Hk. apply (wp_still_bind _ _ _ x); [done..| |done]. intros e y' S'. by apply still_appends. }
  do 6 (apply H; [kt|done|]; intros ? ? ?). apply H; [kt|done|]. intros u y S.
  apply wp_mbind. unfold wp at 1.
  pose proof (journaled_still _ _ S Hj) as Hj'. pose proof (quiet_resume v3 y) as A.
  pose proof (resume_wp v3 y Hj') as Hw. unfold wp in Hw.
  destruct (resume_journal v3 y) as [[[outcome|]|e] x1]; simpl in *;
    pose proof (appends_same _ _ _ _ (eq_sym (proj1 S)) A) as Ax; [by apply wp_mret| |done].
  destruct Hw as [_ Hn]. destruct (Hn eq_refl) as [S' [_ Ho']]. specialize (Ho' Hv).
  rewrite (proj1 S'), (proj1 S) in Ho'. congruence.
Qed.

(** ** Histories *)

(** No journal, nothing done. *)
Definition upgrade_fresh x : Prop := up_file x ReceiptJson = None /\ events x = [].

Lemma fresh_journaled x : upgrade_fresh x -> journaled x.
Proof.
  intros [Hf He]. split; [left; split; [done|]; intros _; by rewrite He|]. intros body accepted Hin. rewrite He in Hin. by apply elem_of_nil in Hin.
Qed.

Lemma upgrades_journaled x0 x : upgrade_fresh x0 -> rtc upgrade_step x0 x -> journaled x.
Proof.
  intros Hf%fresh_journaled H. induction H as [x|x1 x2 x3 Hs _ IH]; [done|]. apply IH.
  destruct Hs as [key|x2 S]; [|by eapply journaled_still]. pose proof (run_wp key x1 Hf) as Hw. exact Hw.
Qed.

(** C9. No installation is forgotten, and none is repeated before it was reported: over any
    history of runs, with failed writes, lost receipts and crashes at any point, while an
    installer was started and no final receipt was accepted since, the journal on disk holds
    the job of this target in a phase that says so, and the next run starts no
    installer, whatever Cloud asks for. This presumes that no look for the journal fails while
    it is there, since the code takes a failed look for an absent journal. *)
Theorem nothing_forgotten x0 x key :
  journal_visible -> upgrade_fresh x0 -> rtc upgrade_step x0 x -> outstanding (events x) = true ->
  (exists j, up_file x ReceiptJson = Some (journal_bytes j) /\ executed j = true /\
             begun (jb_target (jn_job j)) x) /\
  appends quiet x (run key x).2.
Proof.
  intros Hv Hf Hrun Ho. pose proof (upgrades_journaled _ _ Hf Hrun) as Hj. split.
  - destruct (jd_file _ Hj) as [[_ Hn]|(j & Hfile & Hs & _)]; [specialize (Hn Hv); congruence|].
    exists j. by destruct (Hs Hv Ho).
  - exact (run_quiet key x Hv Hj Ho).
Qed.

(** C15. A reported success is one: every receipt that says [succeeded], accepted or not, is that
    of a journal that was on disk, about a job whose installation ended without error before, with its target's version as the
    installed one; and for a runtime on OpenWrt it was sent by a program whose own image had
    the digest of the binary that was installed, after the complete evidence of the
    handoff for this job and version was read. *)
Theorem success_reported_truly x0 x body accepted :
  upgrade_fresh x0 -> rtc upgrade_step x0 x ->
  Sent body accepted ∈ events x -> rb_state body = bytes_of "succeeded" -> backed body x.
Proof. intros Hf Hrun. exact (jd_truth _ (upgrades_journaled _ _ Hf Hrun) body accepted). Qed.
End Journal.
