(* ===== verification/UpgradeScenarios.v ===== *)
(** * Upgrades: scenarios

    A Linux node with a release server and a Cloud that answers receipts by a script; on it an
    upgrade of Core whose last receipt is lost, the run that reports it, and the theorems of
    [UpgradeJournal] and [UpgradeCatalog] there. *)
From stdpp Require Import base tactics list numbers option relations strings countable.
From Stdlib Require Import ZArith Lia.
From S2P Require Import Prelude Upgrade UpgradeOps UpgradeRuns UpgradeCatalog UpgradeJournal.

#[local] Open Scope Z_scope.

(** ** Documents *)

(** An object is a list of fields that ends in [JNull]. *)
Inductive Json : Type :=
| JNull | JText (t : Text) | JNumber (n : Z) | JField (key : Text) (v rest : Json).

Fixpoint field (v : Json) (key : Text) : Json :=
  match v with
  | JField k v rest => if bool_decide (k = key) then v else field rest key
  | _ => JNull
  end.
Definition obj (fields : list (string * Json)) : Json :=
  foldr (fun f rest => JField (bytes_of f.1) f.2 rest) JNull fields.
Definition txt (s : string) : Json := JText (bytes_of s).

#[local] Instance Target_countable : Countable Target.
Proof.
  refine (inj_countable' (fun t => (component t, current_version t, tg_version t, version_key t, tg_digest t))
            (fun t => let '(a, b, c, d, e) := t in mkTarget a b c d e) _). by intros [].
Defined.
#[local] Instance Job_countable : Countable Job.
Proof.
  refine (inj_countable' (fun t => (jb_id t, jb_node_id t, jb_device_id t, jb_device_key_id t, jb_target t, jb_state t,
                                    jb_error_code t, jb_phase t, jb_created_at t, jb_updated_at t))
            (fun t => let '(a, b, c, d, e, f, g, h, i, j) := t in mkJob a b c d e f g h i j) _). by intros [].
Defined.
#[local] Instance Journal_countable : Countable Journal.
Proof.
  refine (inj_countable' (fun t => (jn_job t, jn_phase t, jn_error_code t, jn_failure_phase t, jn_error_detail t))
            (fun t => let '(a, b, c, d, e) := t in mkJournal a b c d e) _). by intros [].
Defined.

Definition id_at (n : Z) : Uuid := replicate 15 0 ++ [n].
Definition node_identity : DeviceIdentity :=
  mkIdentity 1 (bytes_of "https://cloud") (id_at 1) None None None (id_at 2) (id_at 3) (bytes_of "2030").
Definition some_digest : Text := replicate 64 97.
Definition wanted : Target := mkTarget (bytes_of "core") (bytes_of "1.0") (bytes_of "2.0") (bytes_of "k2") some_digest.
Definition wanted_job : Job :=
  mkJob (id_at 9) (id_at 4) (id_at 2) (id_at 3) wanted (bytes_of "queued") None None (bytes_of "t") (bytes_of "t").

Definition core_artifact : Json :=
  obj [("url", JText (app RELEASE_ROOT (bytes_of "core"))); ("size", JNumber 3); ("sha256", JText some_digest)]%string.
Definition signed_catalog : Json :=
  obj [("sequence", JNumber 7); ("schema_version", JNumber 1); ("channel", txt "stable");
       ("core", obj [("latest", txt "k2");
                     ("releases", obj [("k2", obj [("version", txt "2.0");
                                                   ("targets", obj [("linux_musl_x86_64", core_artifact)])])])])]%string.

(** Documents are read from marks. *)
#[local] Instance node_json : UpgradeJson Json := {
  json_key := field;
  json_str := fun v => match v with JText t => Some t | _ => None end;
  json_u64 := fun v => match v with JNumber n => try_from_u 64 (Z.max 0 n) | _ => None end;
  json_null := fun v => match v with JNull => true | _ => false end;
  json_vec := fun _ => [7];
  parse_json := fun bytes =>
    match bytes with
    | [1] => Some signed_catalog
    | [2] => Some (obj [("object", obj [("sha", JText (replicate 40 97))])])%string
    | 3 :: version => Some (obj [("current_version", JText version)])%string
    | _ => None
    end;
  journal_bytes := fun j => [Zpos (encode j)];
  parse_journal := fun bytes => match bytes with [Zpos p] => decode p | _ => None end;
  marker_bytes := fun _ => [10];
  parse_marker := fun _ => None;
  failure_bytes := fun _ => [11];
  parse_failure := fun _ => None;
  parse_operation := fun _ => None;
  parse_core_status := fun _ => None;
  parse_job := fun bytes => match bytes with [9] => Some (Some wanted_job) | _ => Some None end;
  parse_identity := fun bytes => match bytes with [5] => Some node_identity | _ => None end;
  sha256_hex := fun _ => some_digest;
}.

(** ** The node *)

Record Node : Type := mkNode {
  node_file : UpPath -> option (list Z);
  node_events : list Event;
  node_uuids : Z;
  node_core : Text;
  node_replies : list (option Z);
}.

Definition put (p : UpPath) (content : option (list Z)) (x : Node) : Node :=
  mkNode (fun q => if decide (q = p) then content else node_file x q) (node_events x) (node_uuids x) (node_core x)
    (node_replies x).
Definition ok {T} (v : T) (x : Node) : Result Error T * Node := (Ok v, x).

Definition node_meta (p : UpPath) (x : Node) : Result Error FileMeta * Node :=
  match node_file x p with
  | Some bytes => (Ok (mkMeta true false false 0 384 (Z.of_nat (length bytes))), x)
  | None => (Err (said "no such file"), x)
  end.

(** The child that activates a version makes it the current one. *)
Definition node_child (program : Text) (arguments : list Text) (environment : list (Text * Text)) (x : Node)
  : Result Error ChildEnd * Node :=
  let core := match arguments with
              | [action; version] => if bool_decide (action = bytes_of "activate") then version else node_core x
              | _ => node_core x
              end in
  (Ok (Exited 0), mkNode (node_file x) (node_events x ++ [Ran program arguments]) (node_uuids x) core (node_replies x)).

Definition node_output (program : Text) (arguments : list Text) (x : Node) : Result Error ChildOutput * Node :=
  (Ok (mkOutput true (if bool_decide (program = bytes_of "usign") then [] else 3 :: node_core x)), x).

Definition node_get (url : Text) (x : Node) : Result Error HttpAnswer * Node :=
  let content := if starts_with url CATALOG_REF_URL then [2]
                 else if starts_with url RELEASE_ROOT then [1; 1; 1]
                 else if contains_text url (bytes_of ".sig") then [8] else [1] in
  (Ok (mkAnswer 200 None (fun _ => Ok content)), x).

Definition node_receipt (body : ReceiptBody) (x : Node) : Result Error Z * Node :=
  match node_replies x with
  | Some status :: rest =>
      (Ok status, mkNode (node_file x) (node_events x ++ [Sent body (accepts status)]) (node_uuids x) (node_core x) rest)
  | _ => (Err (said "timeout"),
          mkNode (node_file x) (node_events x ++ [Sent body false]) (node_uuids x) (node_core x) (tail (node_replies x)))
  end.

Definition node_copy (p : UpPath) (answer : HttpAnswer) (limit : Z) (x : Node) : Result Error Z * Node :=
  match ha_body answer limit with
  | Ok bytes => (Ok (Z.of_nat (length bytes)), put p (Some bytes) x)
  | Err e => (Err e, x)
  end.

Definition node_rename (p p' : UpPath) (x : Node) : Result Error unit * Node :=
  match node_file x p with
  | Some bytes => if decide (p = p') then (Ok tt, x) else (Ok tt, put p None (put p' (Some bytes) x))
  | None => (Err (said "no such file"), x)
  end.

#[local] Instance node_host : UpgradeHost Node := {
  openwrt := false;
  ARCH := bytes_of "x86_64";
  process_id := 1;
  is_root := fun x => (true, x);
  exists_path := fun p x => (bool_decide (is_Some (node_file x p)), x);
  stat := fun _ => node_meta;
  read_file := fun p x => match node_file x p with Some bytes => (Ok bytes, x) | None => (Err (said "no such file"), x) end;
  read_tail := fun _ _ _ => ok [];
  new_uuid := fun x => (id_at (node_uuids x),
                        mkNode (node_file x) (node_events x) (node_uuids x + 1) (node_core x) (node_replies x));
  create_new := fun p x => match node_file x p with Some _ => (Err (said "exists"), x) | None => (Ok tt, put p (Some []) x) end;
  open_truncate := fun p x => (Ok tt, put p (Some []) x);
  write_all := fun p bytes x => (Ok tt, put p (Some bytes) x);
  io_copy := node_copy;
  sync_all := fun _ => ok tt;
  set_file_owner := fun _ _ => ok tt;
  set_file_mode := fun _ _ => ok tt;
  rename := node_rename;
  remove_file := fun p x => match node_file x p with Some _ => (Removed, put p None x) | None => (NotThere, x) end;
  sync_root := ok tt;
  dir_exists := fun _ x => (true, x);
  dir_stat := fun _ => ok (mkMeta false true false 0 448 0);
  dir_create := fun _ => ok tt;
  dir_create_all := fun _ => ok tt;
  dir_set_owner := fun _ _ => ok tt;
  dir_set_mode := fun _ _ => ok tt;
  lock_root := ok tt;
  system_time := ok 1000;
  system_nanos := ok 1000;
  sleep_second := fun x => x;
  open_log := ok tt;
  run_child := node_child;
  output := node_output;
  https_client := ok tt;
  http_get := node_get;
  connect := fun _ => ok tt;
  put_receipt := node_receipt;
  put_inventory := fun _ => ok 200;
  get_upgrades := ok (mkAnswer 200 None (fun _ => Ok [9]));
}.

Lemma put_but p content x : untouched_but node_file node_events p x (put p content x).
Proof. split; [done|]. intros q _ Hq. simpl. by rewrite decide_False. Qed.
Lemma put_at p content x : node_file (put p content x) p = content.
Proof. simpl. by rewrite decide_True. Qed.
Lemma untouched_refl x : untouched node_file node_events x x.
Proof. done. Qed.

#[local] Instance node_laws : UpgradeLaws Node Json.
Proof.
  unshelve econstructor; [exact node_file|exact node_events|..]; simpl; try done.
  - intros _ p x. unfold node_meta. by destruct (node_file x p).
  - intros p x. destruct (node_file x p); simpl; (split; [done|]); intros _ bytes; congruence.
  - intros p x. destruct (node_file x p); simpl; [by split|]. split; [apply put_but|]. intros _. apply put_at.
  - intros p x. apply put_but.
  - intros p bytes x. split; [apply put_but|]. intros _ _. apply put_at.
  - intros p answer limit x. unfold node_copy. destruct (ha_body answer limit); [apply put_but|done].
  - intros p p' x. unfold node_rename. destruct (node_file x p) as [bytes|] eqn:E; [|done].
    destruct (decide (p = p')) as [->|Hp]; simpl; [done|]. split_and!; [done| |].
    + intros q _ H1 H2. by rewrite !decide_False.
    + rewrite decide_False by done. by rewrite decide_True.
  - intros p x. destruct (node_file x p) eqn:E; simpl; [|done]. split; [apply put_but|apply put_at].
  - intros program arguments environment x. split; [done|by right].
  - intros body x. unfold node_receipt. destruct (node_replies x) as [|[status|] rest]; simpl; (split; [done|]);
      [by right|done|by right].
  - intros j. apply decode_encode.
  - intros v n. destruct v; try done. unfold try_from_u, is_u. destruct (Z.ltb_spec (Z.max 0 n0) (2 ^ 64)); [|done].
    intros [= <-]. lia.
Defined.

(** ** The history *)

Definition node0 : Node :=
  mkNode (fun p => if decide (p = IdentityJson) then Some [5] else None) [] 0 (bytes_of "1.0") [Some 200; None; Some 200].
Definition release_key : list Z := [42].
Definition node1 : Node := (run release_key node0).2.
Definition node2 : Node := (run release_key node1).2.

Definition shown (e : Event) : string :=
  match e with
  | Ran _ (action :: _) => if bool_decide (action = bytes_of "install") then "install" else "activate"
  | Ran _ [] => "other"
  | Sent body accepted =>
      (if bool_decide (rb_state body = bytes_of "running") then "running"
       else if bool_decide (rb_state body = bytes_of "succeeded") then "succeeded" else "failed")
      +:+ (if accepted then "" else " lost")
  end%string.

(** Core is installed and activated, its last receipt is lost and sent again by the next run, which
    installs nothing. *)
Example node_story :
  map shown (node_events node2) = ["running"; "install"; "activate"; "succeeded lost"; "succeeded"]%string /\
  outstanding (node_events node1) = true /\ outstanding (node_events node2) = false /\
  node_file node2 ReceiptJson = None /\ node_core node2 = bytes_of "2.0".
Proof. vm_compute. split_and!; reflexivity. Qed.

Lemma node_fresh : upgrade_fresh node0.
Proof. done. Qed.
Lemma node_runs1 : rtc upgrade_step node0 node1.
Proof. apply rtc_once, step_run. Qed.
Lemma node_runs2 : rtc upgrade_step node0 node2.
Proof. eapply rtc_r; [apply node_runs1|apply step_run]. Qed.
Lemma node1_outstanding : outstanding (node_events node1) = true.
Proof. vm_compute. reflexivity. Qed.

Lemma node_visible : journal_visible (X := Node) (V := Json).
Proof. intros x Hx. simpl in *. apply bool_decide_eq_true. by destruct (node_file x ReceiptJson). Qed.

Lemma nothing_forgotten_witness :
  (exists j, node_file node1 ReceiptJson = Some (journal_bytes j) /\ executed j = true /\
             begun (jb_target (jn_job j)) node1) /\
  appends quiet node1 (run release_key node1).2.
Proof. exact (nothing_forgotten node0 node1 release_key node_visible node_fresh node_runs1 node1_outstanding). Defined.

Definition last_receipt : ReceiptBody :=
  mkReceipt (id_at 9) (bytes_of "succeeded") (bytes_of "succeeded") None None.

Lemma last_was_sent : Sent last_receipt true ∈ node_events node2.
Proof.
  assert (H : node_events node2 !! 4%nat = Some (Sent last_receipt true)) by (vm_compute; reflexivity).
  by eapply list_elem_of_lookup_2.
Qed.

Lemma success_reported_truly_witness : backed last_receipt node2.
Proof. exact (success_reported_truly node0 node2 last_receipt true node_fresh node_runs2 last_was_sent eq_refl). Defined.

Lemma node_readable : sequence_readable (X := Node) (V := Json).
Proof. intros x bytes H. simpl in *. by rewrite H. Qed.

Lemma catalog_never_back_witness :
  let '(r, x') := catalog release_key node2 in
  recorded_at node0 <= recorded_at node2 <= recorded_at x' /\
  forall value, r = Ok value -> admissible (recorded_at node2) value.
Proof. exact (catalog_never_back node0 node2 release_key node_readable node_runs2). Defined.

Example node_recorded : recorded_at node2 = 7.
Proof. vm_compute. reflexivity. Qed.
